(* ===== verification/_CoqProject ===== *)
-Q . S2P
Prelude.v
EnumNames.v
Constants.v
EnumTheorems.v
Packet.v
PacketSpec.v
PacketObject.v
PacketDescs.v
PacketGeneric.v
PacketNest.v
Stf.v
PacketTheorems.v
Numbers.v
Data.v
Address.v
AddressText.v
Subnet.v
SubnetTheorems.v
SubnetText.v
Asn1.v
X509dn.v
DnTheorems.v
Id.v
IdMatch.v
AddressPool.v
PoolSpec.v
PoolSystem.v
PoolTheorems.v
TrafficSelector.v
TrafficTheorems.v
TrafficWire.v
Replay.v
Ikev2Sk.v
Ikev2SkTheorems.v
Fragments.v
FragmentTheorems.v
FragmentV1Theorems.v
Ikev2Payloads.v
PayloadTheorems.v
Ikev2Proposals.v
Ikev2LocalProposals.v
ProposalSpec.v
ProposalTheorems.v
ProposalWire.v
ProposalAgreement.v
LocalProposalTheorems.v
ProposalExamples.v
States.v
StateTheorems.v
Ikev2Dispatch.v
Ikev2Informational.v
DispatchSafety.v
InformationalTheorems.v
DispatchTheorems.v
