(* ===== verification/Prelude.v ===== *)
(** * A verification development for libreswan

    libreswan is an IKE daemon (pluto, programs/pluto), a library of conversions that pluto and
    the command line tools share (lib/libswan, linux/net/ipsec), and a kernel IPsec stack (KLIPS,
    linux/net/ipsec). The development models the parts that read what a peer or a user wrote,
    that hold the state between messages, and that decide what is installed, and proves what
    they promise.

    ** How a packet goes through the program, and through the files

    A packet is a byte buffer. [process_packet] (demux.c) takes the header off with [in_struct]
    (packet.c) and hands an IKEv2 message to [process_v2_packet] (ikev2.c). That finds a state
    object in the hash tables of state.c, splits the message into payloads, collects fragments,
    decrypts, picks an entry of the table of state transitions and calls its function.
    Transition functions negotiate algorithms (ikev2_spdb_struct.c) and traffic selectors
    (ikev2_child.c), compare identities (id.c, x509dn.c), lease addresses (addresspool.c), and
    build replies with [out_struct], which are protected, cut into fragments and recorded for
    retransmission.

    - [Prelude]: the results of C functions ([outcome]: a value, an error, or the end of the
      process by a failed assertion or an undefined access), machine integers, C strings, network
      byte order, byte memory, and the tactics and hint databases of the development.
    - [EnumNames], [Constants], [EnumTheorems]: the name tables of lib/libswan/constants.c, all of
      them, and their lookups.
    - [Packet], [PacketDescs]: packet byte streams and the descriptor-driven parser and emitter of
      packet.c with all of its descriptors, on byte memory with shared, nested streams;
      [PacketGeneric]: generic payloads and the patching of next-payload numbers. [PacketSpec],
      [PacketObject], [PacketNest], [PacketTheorems]: the wire format as a pure function, memory
      safety of parsing, and that emission and parsing implement the format.
    - [Numbers], [Data], [Address], [AddressText], [Subnet], [SubnetTheorems], [SubnetText]: texts
      of numbers, data, addresses, subnets and ranges (ttoul.c, ttodata.c, datatot.c, ttoaddr.c,
      addrtot.c, ttosubnet.c, rangetosubnet.c, goodmask.c and their neighbours).
    - [Asn1], [X509dn], [DnTheorems], [Id], [IdMatch]: DER, distinguished names, identities and
      their comparison (asn1.c, x509dn.c, id.c).
    - [AddressPool], [PoolSpec], [PoolSystem], [PoolTheorems]: leases and pools of addresspool.c,
      the abstract pool they refine, and the daemon as the pools see it.
    - [TrafficSelector], [TrafficTheorems], [TrafficWire]: offers, weighing, selection and wire
      format of traffic selectors (ikev2_child.c, parts of ikev2_parent.c, hostpair.c, x509.c).
    - [Replay]: the anti-replay window of KLIPS (ipsec_rcv.c).
    - [Stf], [Ikev2Sk], [Ikev2SkTheorems], [Fragments], [FragmentTheorems], [FragmentV1Theorems]:
      protected payloads and fragmentation of both versions of IKE (ikev2_parent.c, ikev2.c,
      ikev1.c, server.c, state.c).
    - [Ikev2Payloads], [PayloadTheorems]: payload chains and their check (ikev2.c).
    - [Ikev2Proposals], [Ikev2LocalProposals]: the negotiation of algorithms (ikev2_spdb_struct.c,
      parts of ike_alg.c, kernel_alg.c and ikev2_parent.c): proposals from the configuration or
      the defaults, their emission, the comparison with what a peer proposes, the choice, and
      what becomes of it. [ProposalSpec], [ProposalTheorems]: a reference that reads everything
      before it compares, and that the code implements it; [ProposalWire], [ProposalAgreement]:
      the wire format and that both ends agree; [LocalProposalTheorems]: proposals are the
      configured ones; [ProposalExamples]: concrete negotiations.
    - [States], [StateTheorems]: state objects and their hash tables (state.c, state_entry.c).
    - [Ikev2Dispatch], [Ikev2Informational], [DispatchSafety], [InformationalTheorems],
      [DispatchTheorems]: the receive path from the packet to the transition function, message ID
      counters, and the INFORMATIONAL exchange as a whole (demux.c, ikev2.c, ikev2_parent.c).

    ** Correspondence

    A C function is a definition of the same name, a struct a record with its members, an enum
    an inductive type or its numbers. Pointers into buffers are addresses of byte memory, state
    objects are known by their serial numbers in a heap, streams by identifiers in a [pstate], so
    that sharing is kept. A function that may fail an assertion, or read or write where C leaves
    it undefined, returns an [outcome]; theorems that say "safe" exclude [Abort]. Logging is left
    out. Code outside of the repository is an argument: name resolution ([tryname]), NSS
    ([IdMatch.Nss] and the certificate database), the cryptographic algorithms
    ([Ikev2Sk.encrypt_desc], [integ_desc], with their documented laws in records such as
    [Ikev2SkTheorems.cipher_ok] and [DispatchSafety.octet_cipher], instantiated for the
    witnesses), random octets and the memory that the allocator hands out.

    ** What the theorems show

    - Any octets are parsed without leaving their stream: one structure ([in_struct_safe]), the
      chain of payloads ([decode_payloads_exact]), traffic selectors ([parse_ts_safe]), proposals
      ([sa_payload_safe]), a whole packet up to the choice of the transition function ([process_packet_safe]) and through the
      INFORMATIONAL handler ([receive_packet_safe]).
    - What is emitted is the wire format, and is parsed back ([emit_object_correct],
      [emit_parse_roundtrip], [ts_roundtrip], [fragments_roundtrip], [v1_fragments_roundtrip]);
      texts are read back ([addrtot_ttoaddr_roundtrip], [subnet_text_roundtrip],
      [dn_text_roundtrip], [datatot_ttodata_roundtrip]).
    - A negotiation does what its reference says ([sa_payload_negotiates]), ends in agreement
      ([negotiation_agrees]), and starts from what was configured
      ([ike_proposals_as_configured], [child_proposals_as_configured]); no transform that is not
      configured can be chosen ([sa_payload_safe]).
    - Data structures refine abstract ones: the hash tables a finite map
      ([state_table_refines_map], [lookups_exact]), the replay bitmap a set of seen numbers
      ([replay_window_refines]), address pools an assignment of addresses ([PoolSpec],
      [pool_invariant], [lease_exclusive]).
    - Security properties: no sequence number passes twice ([no_replay_passes]), no request is
      processed twice ([replayed_request_refused]), an INFORMATIONAL message cannot touch other
      SAs ([informational_isolated]), what is installed is inside the policy
      ([responder_installs_own_policy], [initiator_single_ts_safe]).
    - Where the code does not do what it means to, the theorem says what it does instead:
      [forged_informational_accepted], [forged_fragment_blocks], [sha2_512_fragment_overflows],
      [comeback_aborts], [initiator_accepts_outside_policy], [responder_widens_offer],
      [ah_default_for_esp], [first_modp_heads].

    ** Fuel and bounds

    Loops whose recursion is not structural take fuel, and the theorems show that it is enough:
    [decode_loop] one round for each octet of the stream, since a payload takes four
    ([decode_payloads_exact]); the loops over proposals and attributes one round for each octet
    that is left, since they take eight and four ([sa_payload_safe]); the next-payload scan one round for each payload; [digits_loop] 64
    rounds for a 64-bit number; the DER walk and the text readers one round for each octet. [Abort] for
    exhausted fuel is therefore excluded together with failed assertions. Packets are bounded by
    64 kB, as UDP bounds them, and buffers lie below 2^62. Integers that can wrap around are
    kept at their width ([u8], [u16], [u32], [u64], [s32]).

    ** Not modelled

    - [complete_v2_state_transition] and the transition functions other than the INFORMATIONAL
      one: they wait for the crypto helpers, set timers, and call NSS for key exchange and
      signatures. What they do with messages is modelled where it is a function of its own
      (proposals, traffic selectors, protected payloads, fragments, address leases).
    - The IKEv1 state machine but for its fragments, for the same reason.
    - The IKEv1 proposals and the parser of algorithm strings, whose tables depend on the build
      (its results are arguments of [Ikev2LocalProposals]), secrets, the configuration parser
      (generated by the build), whack and the other tools, the kernel interfaces, KLIPS beyond the
      replay window: device and socket I/O, or code that drives it.
    - The effect of [delete_state] on the connection and the kernel, the octets of the reply to an
      INFORMATIONAL request (an argument), and the signalling of errors by log messages. *)
From stdpp Require Export base numbers list gmap strings.
From Stdlib Require Export ZArith Lia Ascii.

Open Scope Z_scope.

(** * Results of C functions

    A C routine of this code base ends in one of three ways: it returns a
    value, it reports an error (an [err_t] message, or [FALSE] after logging a
    diagnostic), or it stops the process: a failed [passert], a [bad_case], or
    an access the C semantics leaves undefined. *)
Inductive outcome (E A : Type) : Type :=
  | Ok (a : A)
  | Ugh (e : E)
  | Abort.
Arguments Ok {E A} a.
Arguments Ugh {E A} e.
Arguments Abort {E A}.

#[export] Instance outcome_ret E : MRet (outcome E) := fun _ a => Ok a.
#[export] Instance outcome_bind E : MBind (outcome E) := fun _ _ k c =>
  match c with
  | Ok a => k a
  | Ugh e => Ugh e
  | Abort => Abort
  end.
#[export] Instance outcome_eq_dec E A `{EqDecision E, EqDecision A} :
  EqDecision (outcome E A).
Proof. solve_decision. Defined.

(** [passert(p)]: continue when [p] holds, stop the process otherwise. *)
Definition passert {E} (p : bool) : outcome E unit := if p then Ok tt else Abort.

(** An access that must be defined: [None] is undefined behaviour. *)
Definition defined {E A} (o : option A) : outcome E A :=
  match o with Some a => Ok a | None => Abort end.

Definition is_ok {E A} (o : outcome E A) : bool :=
  match o with Ok _ => true | _ => false end.
Definition is_abort {E A} (o : outcome E A) : bool :=
  match o with Abort => true | _ => false end.

Lemma bind_ok {E A B} (c : outcome E A) (k : A -> outcome E B) b :
  (c ≫= k) = Ok b <-> exists a, c = Ok a /\ k a = Ok b.
Proof. destruct c; simpl; naive_solver. Qed.

Lemma bind_Ok {E A B} (a : A) (k : A -> outcome E B) : (Ok a ≫= k) = k a.
Proof. done. Qed.

Lemma passert_ok {E} p u : @passert E p = Ok u <-> p = true.
Proof. destruct p, u; simpl; naive_solver. Qed.

Lemma defined_ok {E A} (o : option A) a : @defined E A o = Ok a <-> o = Some a.
Proof. destruct o; simpl; naive_solver. Qed.

(** Invert every successful bind, [passert] and [defined] of the context. *)
Ltac inv_ok :=
  repeat match goal with
  | H : (_ ≫= _) = Ok _ |- _ =>
      apply bind_ok in H; destruct H as (?&?&H); cbn beta in H
  | H : passert _ = Ok _ |- _ => apply passert_ok in H
  | H : defined _ = Ok _ |- _ => apply defined_ok in H
  | H : mret _ = Ok _ |- _ => injection H as H
  | H : Ok _ = Ok _ |- _ => injection H as H
  | H : Some _ = Some _ |- _ => injection H as H
  | H : Ugh _ = Ok _ |- _ => discriminate H
  | H : Abort = Ok _ |- _ => discriminate H
  | u : unit |- _ => destruct u
  end; subst.

(** * Automation

    [outcome] runs a computation whose steps are known: successful binds, assertions that hold
    and accesses that are defined. [octets] collects the facts that sequences consist of
    octets. *)
Create HintDb outcome.
Create HintDb octets.

Lemma defined_Some {E A} (a : A) : @defined E A (Some a) = Ok a.
Proof. done. Qed.

Lemma passert_true {E} : @passert E true = Ok tt.
Proof. done. Qed.

#[export] Hint Rewrite @bind_Ok @defined_Some @passert_true : outcome.

(** Run the steps that are known. *)
Ltac run_ok := autorewrite with outcome.

(** Decide a closed proposition by evaluation. *)
Ltac by_decide := apply (bool_decide_unpack _); vm_compute; exact I.

(** Linear arithmetic with divisions by constants. *)
Ltac div_lia := Z.to_euclidean_division_equations; lia.

(** * Machine integers *)

Definition u8 (z : Z) : Z := z mod 2 ^ 8.
Definition u16 (z : Z) : Z := z mod 2 ^ 16.
Definition u32 (z : Z) : Z := z mod 2 ^ 32.
Definition u64 (z : Z) : Z := z mod 2 ^ 64.

(** A C [int]: 32 bits, two's complement. *)
Definition s32 (z : Z) : Z := (z + 2 ^ 31) mod 2 ^ 32 - 2 ^ 31.

Lemma u8_small z : 0 <= z < 2 ^ 8 -> u8 z = z.
Proof. apply Z.mod_small. Qed.
Lemma u16_small z : 0 <= z < 2 ^ 16 -> u16 z = z.
Proof. apply Z.mod_small. Qed.
Lemma u32_small z : 0 <= z < 2 ^ 32 -> u32 z = z.
Proof. apply Z.mod_small. Qed.
Lemma u64_small z : 0 <= z < 2 ^ 64 -> u64 z = z.
Proof. apply Z.mod_small. Qed.
Lemma u8_bound z : 0 <= u8 z < 256.
Proof. apply Z.mod_pos_bound; lia. Qed.
Lemma u32_bound z : 0 <= u32 z < 2 ^ 32.
Proof. apply Z.mod_pos_bound; lia. Qed.
Lemma u64_bound z : 0 <= u64 z < 2 ^ 64.
Proof. apply Z.mod_pos_bound; lia. Qed.

Definition byteZ (b : Z) : Prop := 0 <= b < 256.

#[export] Instance byteZ_dec b : Decision (byteZ b).
Proof. unfold byteZ. apply _. Defined.

(** A decidable property of all bytes, or of the numbers below a small bound,
    can be checked by evaluation. *)
Lemma below_forall (n : nat) (P : Z -> bool) :
  forallb (fun i => P (Z.of_nat i)) (seq 0 n) = true ->
  forall c, 0 <= c < Z.of_nat n -> P c = true.
Proof.
  intros H c Hc. rewrite forallb_forall in H. specialize (H (Z.to_nat c)).
  rewrite Z2Nat.id in H by lia. apply H, in_seq. lia.
Qed.

Lemma byte_forall (P : Z -> bool) :
  forallb (fun i => P (Z.of_nat i)) (seq 0 256) = true -> forall c, byteZ c -> P c = true.
Proof. apply below_forall. Qed.

(** Text as the C code sees it: a list of byte values. *)
Fixpoint str (s : string) : list Z :=
  match s with
  | EmptyString => []
  | String c s' => Z.of_nat (nat_of_ascii c) :: str s'
  end.

(** The value of a character constant. *)
Definition chr (s : string) : Z := hd 0 (str s).

(** [tolower] and [isprint] in the C locale. *)
Definition tolower (c : Z) : Z := if (65 <=? c) && (c <=? 90) then c + 32 else c.
Definition isprint (c : Z) : bool := (32 <=? c) && (c <=? 126).

(** The C string that starts at a pointer to [bytes]: the bytes before the first
    NUL; running off the object without meeting one is undefined. *)
Fixpoint cstring (bytes : list Z) : option (list Z) :=
  match bytes with
  | [] => None
  | b :: bytes' => if Z.eqb b 0 then Some [] else cons b <$> cstring bytes'
  end.

(** The text that the conversion routines are given: [srclen] bytes at [src],
    where 0 means apply [strlen]. *)
Definition source (src : list Z) (srclen : Z) : option (list Z) :=
  if srclen =? 0 then cstring src
  else if srclen <=? Z.of_nat (length src) then Some (take (Z.to_nat srclen) src) else None.

(** [strchr(s, c)] as an index into [s]: the terminating NUL takes part in the
    search, so looking for character 0 finds the end of the string. *)
Fixpoint strchr (s : list Z) (c : Z) : option Z :=
  match s with
  | [] => if Z.eqb c 0 then Some 0 else None
  | x :: s' => if Z.eqb x c then Some 0 else Z.succ <$> strchr s' c
  end.

Lemma str_bytes s : Forall byteZ (str s).
Proof.
  induction s as [|c s IH]; simpl; constructor; auto.
  unfold byteZ. pose proof (nat_ascii_bounded c). lia.
Qed.

(** Digits of a non-negative number, most significant first; the loops of the
    code are do/while loops, so 0 has one digit. *)
Fixpoint digits_loop (fuel : nat) (base n : Z) (acc : list Z) : list Z :=
  match fuel with
  | O => acc
  | S fuel' =>
      let acc' := n mod base :: acc in
      if n / base =? 0 then acc' else digits_loop fuel' base (n / base) acc'
  end.

(** 64 passes are enough for a 64-bit number in any base from 2 up. *)
Definition digits (base n : Z) : list Z := digits_loop 64 base n [].

(** The character of a digit of "0123456789abcdef". *)
Definition hex_digit (d : Z) : Z := nth (Z.to_nat d) (str "0123456789abcdef") 0.

Definition hex_text (n : Z) : list Z := hex_digit <$> digits 16 n.
Definition dec_text (n : Z) : list Z := hex_digit <$> digits 10 n.
Definition oct_text (n : Z) : list Z := hex_digit <$> digits 8 n.

(** * Network byte order *)

Fixpoint be_encode (n : nat) (z : Z) : list Z :=
  match n with
  | O => []
  | S n' => be_encode n' (Z.shiftr z 8) ++ [u8 z]
  end.

Definition be_decode (bs : list Z) : Z :=
  fold_left (fun acc b => Z.lor (Z.shiftl acc 8) b) bs 0.

Lemma length_be_encode n z : length (be_encode n z) = n.
Proof.
  revert z; induction n as [|n IH]; intros z; simpl; auto.
  rewrite length_app, IH. simpl. lia.
Qed.

Lemma be_encode_bytes n z : Forall byteZ (be_encode n z).
Proof.
  revert z; induction n as [|n IH]; intros z; simpl; auto.
  apply Forall_app; split; auto. constructor; auto. apply u8_bound.
Qed.

Lemma lor_shiftl a k b : 0 <= k -> 0 <= b < 2 ^ k -> Z.lor (Z.shiftl a k) b = a * 2 ^ k + b.
Proof.
  intros Hk Hb. rewrite Z.shiftl_mul_pow2 by lia. symmetry.
  apply Z.bits_inj'; intros i Hi. rewrite Z.lor_spec.
  destruct (Z.lt_ge_cases i k) as [Hlt|Hge].
  - rewrite Z.mul_pow2_bits_low by lia. simpl.
    rewrite <- (Z.mod_pow2_bits_low (a * 2 ^ k + b) k) by lia.
    by rewrite Z.add_comm, Z.mod_add, Z.mod_small by lia.
  - replace i with ((i - k) + k) by lia.
    rewrite <- !Z.shiftr_spec by lia. rewrite !Z.shiftr_div_pow2 by lia.
    rewrite Z.div_add_l, Z.div_mul, (Z.div_small b) by lia.
    by rewrite Z.add_0_r, Z.bits_0, orb_false_r.
Qed.

Lemma lor_shift8 a b : byteZ b -> Z.lor (Z.shiftl a 8) b = a * 256 + b.
Proof. intros Hb. apply (lor_shiftl a 8); [lia|exact Hb]. Qed.

Lemma source_text t : t <> [] -> source t (Z.of_nat (length t)) = Some t.
Proof.
  intros Ht. unfold source. destruct t as [|b t]; [done|].
  rewrite (proj2 (Z.eqb_neq _ _)) by (simpl; lia). rewrite Z.leb_refl, Nat2Z.id. by rewrite firstn_all.
Qed.

Lemma be_decode_snoc bs b : be_decode (bs ++ [b]) = Z.lor (Z.shiftl (be_decode bs) 8) b.
Proof. unfold be_decode. now rewrite fold_left_app. Qed.

Lemma be_decode_encode n z : be_decode (be_encode n z) = z mod 2 ^ (8 * Z.of_nat n).
Proof.
  revert z; induction n as [|n IH]; intros z.
  - simpl. now rewrite Z.mod_1_r.
  - cbn [be_encode]. rewrite be_decode_snoc, lor_shift8, IH by apply u8_bound.
    rewrite Z.shiftr_div_pow2 by lia. unfold u8.
    replace (8 * Z.of_nat (S n)) with (8 + 8 * Z.of_nat n) by lia.
    rewrite Z.pow_add_r by lia. change (2 ^ 8) with 256.
    rewrite (Z.rem_mul_r z 256) by lia. lia.
Qed.

Lemma be_decode_bound bs :
  Forall byteZ bs -> 0 <= be_decode bs < 2 ^ (8 * Z.of_nat (length bs)).
Proof.
  induction bs as [|b bs IH] using rev_ind; intros H; [cbn; lia|].
  apply Forall_app in H as [H1 H2]. inversion_clear H2.
  rewrite be_decode_snoc, lor_shift8 by done. specialize (IH H1).
  rewrite length_app. cbn [length].
  replace (8 * Z.of_nat (length bs + 1)) with (8 + 8 * Z.of_nat (length bs)) by lia.
  rewrite Z.pow_add_r by lia. unfold byteZ in *. lia.
Qed.

(** * Byte memory

    Pointers are addresses ([Z]); memory maps the addresses of live objects to
    bytes, and an access to an unmapped address is undefined ([None]). *)
Abbreviation mem := (gmap Z Z).

Definition store (m : mem) (a v : Z) : option mem :=
  match m !! a with Some _ => Some (<[a := v]> m) | None => None end.

Fixpoint load_bytes (m : mem) (a : Z) (n : nat) : option (list Z) :=
  match n with
  | O => Some []
  | S n' => v ← m !! a; vs ← load_bytes m (a + 1) n'; Some (v :: vs)
  end.

Fixpoint store_bytes (m : mem) (a : Z) (bs : list Z) : option mem :=
  match bs with
  | [] => Some m
  | b :: bs' => m' ← store m a b; store_bytes m' (a + 1) bs'
  end.

(** Every address of [lo, hi) is mapped. *)
Definition mapped (m : mem) (lo hi : Z) : Prop :=
  forall a, lo <= a < hi -> is_Some (m !! a).

Definition mem_ok (m : mem) : Prop := map_Forall (fun _ v => byteZ v) m.

Lemma store_some m a v : is_Some (m !! a) -> store m a v = Some (<[a := v]> m).
Proof. intros [w Hw]. unfold store. by rewrite Hw. Qed.

Lemma store_inv m a v m' : store m a v = Some m' -> is_Some (m !! a) /\ m' = <[a := v]> m.
Proof. unfold store. destruct (m !! a) eqn:H; naive_solver. Qed.

Lemma store_bytes_app m a xs ys :
  store_bytes m a (xs ++ ys) =
  (m' ← store_bytes m a xs; store_bytes m' (a + Z.of_nat (length xs)) ys).
Proof.
  revert m a; induction xs as [|x xs IH]; intros m a; cbn [app store_bytes length].
  - simpl. by rewrite Z.add_0_r.
  - destruct (store m a x) as [m1|]; simpl; [|done].
    rewrite IH. destruct (store_bytes m1 (a + 1) xs); simpl; [|done].
    f_equal. lia.
Qed.

Lemma load_bytes_app m a n k :
  load_bytes m a (n + k) =
  (xs ← load_bytes m a n; ys ← load_bytes m (a + Z.of_nat n) k; Some (xs ++ ys)).
Proof.
  revert a; induction n as [|n IH]; intros a; cbn [Nat.add load_bytes].
  - simpl. rewrite Z.add_0_r. by destruct (load_bytes m a k).
  - destruct (m !! a); simpl; [|done]. rewrite IH.
    destruct (load_bytes m (a + 1) n); simpl; [|done].
    replace (a + 1 + Z.of_nat n) with (a + Z.of_nat (S n)) by lia.
    by destruct (load_bytes m _ k).
Qed.

Lemma length_load_bytes m a n bs : load_bytes m a n = Some bs -> length bs = n.
Proof.
  revert a bs; induction n as [|n IH]; intros a bs; simpl; [naive_solver|].
  intros H. simplify_option_eq. f_equal. eauto.
Qed.

Lemma load_bytes_split m a n k bs :
  load_bytes m a (n + k) = Some bs ->
  load_bytes m a n = Some (take n bs) /\
  load_bytes m (a + Z.of_nat n) k = Some (drop n bs).
Proof.
  rewrite load_bytes_app. intros H. simplify_option_eq.
  match goal with H : load_bytes m a n = Some ?x |- _ =>
    rewrite (take_app_length' x), (drop_app_length' x) by (symmetry; by eapply length_load_bytes)
  end. auto.
Qed.

Lemma load_bytes_cat m a xs ys :
  load_bytes m a (length (xs ++ ys)) = Some (xs ++ ys) <->
  load_bytes m a (length xs) = Some xs /\
  load_bytes m (a + Z.of_nat (length xs)) (length ys) = Some ys.
Proof.
  rewrite length_app. split.
  - intros H. apply load_bytes_split in H.
    by rewrite take_app_length, drop_app_length in H.
  - intros [H1 H2]. by rewrite load_bytes_app, H1; simpl; rewrite H2.
Qed.

Lemma load_bytes_ext m m' a n :
  (forall x, a <= x < a + Z.of_nat n -> m' !! x = m !! x) ->
  load_bytes m' a n = load_bytes m a n.
Proof.
  revert a; induction n as [|n IH]; intros a H; [done|]. cbn [load_bytes].
  rewrite H by lia. destruct (m !! a); simpl; [|done].
  by rewrite IH by (intros; apply H; lia).
Qed.

Lemma load_bytes_is_some m a n bs x :
  load_bytes m a n = Some bs -> a <= x < a + Z.of_nat n -> is_Some (m !! x).
Proof.
  revert a bs; induction n as [|n IH]; intros a bs H Hx; [lia|].
  cbn [load_bytes] in H. destruct (m !! a) eqn:Ha; [|done]. simpl in H.
  destruct (load_bytes m (a + 1) n) eqn:Hl; [|done].
  destruct (decide (a = x)) as [<-|?]; [eauto|]. eapply IH; eauto. lia.
Qed.

Lemma load_bytes_mapped m a n :
  mapped m a (a + Z.of_nat n) -> exists bs, load_bytes m a n = Some bs.
Proof.
  revert a; induction n as [|n IH]; intros a H; [by exists []|]. cbn [load_bytes].
  destruct (H a) as [v Hv]; [lia|]. rewrite Hv. simpl.
  destruct (IH (a + 1)) as [bs ->]; [|by eexists].
  intros x Hx. apply H. lia.
Qed.

Lemma load_bytes_ok m a n bs : mem_ok m -> load_bytes m a n = Some bs -> Forall byteZ bs.
Proof.
  intros Hm. revert a bs; induction n as [|n IH]; intros a bs; simpl; [naive_solver|].
  intros H. simplify_option_eq. constructor; eauto.
Qed.

Lemma store_bytes_frame m a bs m' x :
  store_bytes m a bs = Some m' -> x < a \/ a + Z.of_nat (length bs) <= x ->
  m' !! x = m !! x.
Proof.
  revert m a; induction bs as [|b bs IH]; intros m a; cbn [store_bytes length].
  - naive_solver.
  - intros H Hx. simplify_option_eq.
    match goal with H : store _ _ _ = Some _ |- _ => apply store_inv in H as [_ ->] end.
    erewrite IH by (eauto; lia). apply lookup_insert_ne. lia.
Qed.

Lemma store_bytes_dom m a bs m' x :
  store_bytes m a bs = Some m' -> is_Some (m' !! x) <-> is_Some (m !! x).
Proof.
  revert m a; induction bs as [|b bs IH]; intros m a; cbn [store_bytes].
  - naive_solver.
  - intros H. simplify_option_eq.
    match goal with H : store _ _ _ = Some _ |- _ => apply store_inv in H as [? ->] end.
    erewrite IH by eauto. destruct (decide (a = x)) as [->|Hne].
    + rewrite lookup_insert_eq. split; naive_solver.
    + by rewrite lookup_insert_ne.
Qed.

Lemma store_bytes_mapped m a bs m' lo hi :
  store_bytes m a bs = Some m' -> mapped m lo hi -> mapped m' lo hi.
Proof. intros H Hm x Hx. apply (store_bytes_dom _ _ _ _ x H). auto. Qed.

Lemma store_bytes_ok m a bs m' :
  store_bytes m a bs = Some m' -> mem_ok m -> Forall byteZ bs -> mem_ok m'.
Proof.
  revert m a; induction bs as [|b bs IH]; intros m a; cbn [store_bytes]; [naive_solver|].
  intros H Hm Hb. simplify_option_eq. inversion_clear Hb.
  match goal with H : store _ _ _ = Some _ |- _ => apply store_inv in H as [? ->] end.
  eapply IH; eauto. by apply map_Forall_insert_2.
Qed.

Lemma store_bytes_some m a bs :
  mapped m a (a + Z.of_nat (length bs)) -> exists m', store_bytes m a bs = Some m'.
Proof.
  revert m a; induction bs as [|b bs IH]; intros m a H; cbn [store_bytes length] in *.
  - eauto.
  - rewrite store_some by (apply H; lia). simpl. apply IH.
    intros x Hx. destruct (decide (a = x)) as [->|?].
    + rewrite lookup_insert_eq; eauto.
    + rewrite lookup_insert_ne by done. apply H. lia.
Qed.

Lemma load_store_same m a bs m' :
  store_bytes m a bs = Some m' -> load_bytes m' a (length bs) = Some bs.
Proof.
  revert m a; induction bs as [|b bs IH]; intros m a; cbn [store_bytes length load_bytes]; [done|].
  intros H. simplify_option_eq.
  match goal with H : store _ _ _ = Some _ |- _ => apply store_inv in H as [? ->] end.
  erewrite store_bytes_frame by (eauto; lia). rewrite lookup_insert_eq. simpl.
  by erewrite IH.
Qed.

(** Overwrite the middle of a byte sequence. *)
Lemma load_store_middle m a pre old post new m' :
  load_bytes m a (length (pre ++ old ++ post)) = Some (pre ++ old ++ post) ->
  length new = length old ->
  store_bytes m (a + Z.of_nat (length pre)) new = Some m' ->
  load_bytes m' a (length (pre ++ new ++ post)) = Some (pre ++ new ++ post).
Proof.
  intros H Hl Hs. apply load_bytes_cat in H as [H1 H]. apply load_bytes_cat in H as [H2 H3].
  apply load_bytes_cat. split; [|apply load_bytes_cat; split].
  - rewrite <- H1. apply load_bytes_ext. intros x Hx.
    eapply store_bytes_frame; eauto. lia.
  - by eapply load_store_same.
  - rewrite Hl, <- H3. apply load_bytes_ext. intros x Hx.
    eapply store_bytes_frame; eauto. lia.
Qed.

(** Memory that holds one buffer. *)
Fixpoint buffer (a : Z) (bs : list Z) : mem :=
  match bs with
  | [] => ∅
  | b :: bs' => <[a := b]> (buffer (a + 1) bs')
  end.

Lemma buffer_mapped a bs : mapped (buffer a bs) a (a + Z.of_nat (length bs)).
Proof.
  revert a; induction bs as [|b bs IH]; intros a x Hx; cbn [buffer length] in *; [lia|].
  destruct (decide (a = x)) as [->|Hne].
  - rewrite lookup_insert_eq. eauto.
  - rewrite lookup_insert_ne by done. apply IH. lia.
Qed.

Lemma buffer_load a bs : load_bytes (buffer a bs) a (length bs) = Some bs.
Proof.
  revert a; induction bs as [|b bs IH]; intros a; [done|]. cbn [buffer length load_bytes]. rewrite lookup_insert_eq. cbn.
  erewrite load_bytes_ext; [by rewrite IH|]. intros x Hx. apply lookup_insert_ne. lia.
Qed.

Lemma buffer_ok a bs : Forall byteZ bs -> mem_ok (buffer a bs).
Proof.
  intros H. revert a; induction H as [|b bs Hb _ IH]; intros a; [apply map_Forall_empty|].
  cbn [buffer]. apply map_Forall_insert_2; [done|apply IH].
Qed.

Lemma Forall_app_octets xs ys : Forall byteZ xs -> Forall byteZ ys -> Forall byteZ (xs ++ ys).
Proof. intros. by apply Forall_app. Qed.

Lemma take_octets n bs : Forall byteZ bs -> Forall byteZ (take n bs).
Proof. apply Forall_take. Qed.

Lemma drop_octets n bs : Forall byteZ bs -> Forall byteZ (drop n bs).
Proof. apply Forall_drop. Qed.

#[export] Hint Resolve str_bytes be_encode_bytes u8_bound buffer_ok Forall_app_octets take_octets drop_octets : octets.
#[export] Hint Resolve load_bytes_ok store_bytes_ok : octets.
