(* ===== verification/EnumNames.v ===== *)
(** Name tables: the [enum_names] and bit-name machinery of
    lib/libswan/constants.c (struct definitions in include/enum_names.h).

    A table is a chain of ranges; every lookup first checks that the number of
    names of the range agrees with its bounds ([passert] on [en_checklen]), so
    a lookup is an [outcome] whose [Abort] is that assertion failing or an
    array access out of bounds. *)
From S2P Require Import Prelude.

Record enum_range := mk_range {
  en_first : Z;
  en_last : Z;
  en_names : list (option string);
  en_checklen : Z;
  en_prefix : option string
}.

(** [struct enum_names]: the chain of [en_next_range] pointers ends in NULL. *)
Abbreviation enum_names := (list enum_range).

Record enum_enum_names := mk_een {
  een_first : Z;
  een_last : Z;
  een_enum_name : list enum_names;
  een_checklen : Z
}.

#[export] Instance enum_range_eq_dec : EqDecision enum_range.
Proof. solve_decision. Defined.
#[export] Instance enum_enum_names_eq_dec : EqDecision enum_enum_names.
Proof. solve_decision. Defined.

Section Lookup.
Context {E : Type}.

Definition range_ok (p : enum_range) : bool :=
  u64 (en_last p - en_first p + 1) =? en_checklen p.

(** An array element; reading outside the array is undefined. *)
Definition name_at (names : list (option string)) (i : Z) : outcome E (option string) :=
  if i <? 0 then Abort else defined (names !! Z.to_nat i).

Fixpoint enum_name (ed : enum_names) (val : Z) : outcome E (option string) :=
  match ed with
  | [] => Ok None
  | p :: next =>
      passert (range_ok p) ;;
      if (en_first p <=? val) && (val <=? en_last p)
      then name_at (en_names p) (val - en_first p)
      else enum_name next val
  end.

(** [strneq(s, prefix, strlen(prefix)) ? s + strlen(prefix) : s] *)
Definition strip_prefix (s prefix : string) : string :=
  if String.prefix prefix s
  then String.substring (String.length prefix) (String.length s - String.length prefix) s
  else s.

Definition head_prefix (ed : enum_names) : option string :=
  match ed with [] => None | p :: _ => en_prefix p end.

Definition enum_short_name (ed : enum_names) (val : Z) : outcome E (option string) :=
  p ← enum_name ed val;
  Ok (match p, head_prefix ed with
      | Some n, Some pre => Some (strip_prefix n pre)
      | _, _ => p
      end).

(** The case-insensitive comparisons. *)
Definition strcaseeq (a b : string) : bool :=
  bool_decide (tolower <$> str a = tolower <$> str b).

Definition strncaseeq (a b : string) (n : nat) : bool :=
  bool_decide (tolower <$> take n (str a) = tolower <$> take n (str b)).

Definition INT_MAX : Z := 2 ^ 31 - 1.

(** The inner loop [for (en = p->en_first; en <= p->en_last; en++)]; it runs
    [last - first + 1] times, which is the fuel its caller gives it. *)
Fixpoint enum_search_range (fuel : nat) (p : enum_range) (en : Z) (s : string)
  : outcome E (option Z) :=
  match fuel with
  | O => Ok None
  | S fuel' =>
      if en <=? en_last p then
        ptr ← name_at (en_names p) (en - en_first p);
        match ptr with
        | Some n =>
            if strcaseeq n s
            then passert (en <=? INT_MAX) ;; Ok (Some en)
            else enum_search_range fuel' p (en + 1) s
        | None => enum_search_range fuel' p (en + 1) s
        end
      else Ok None
  end.

Definition range_count (p : enum_range) : nat := Z.to_nat (en_last p - en_first p + 1).

Fixpoint enum_search (ed : enum_names) (s : string) : outcome E Z :=
  match ed with
  | [] => Ok (-1)
  | p :: next =>
      passert (range_ok p) ;;
      r ← enum_search_range (range_count p) p (en_first p) s;
      match r with
      | Some en => Ok en
      | None => enum_search next s
      end
  end.

(** [strncaseeq(name, s, strlen(s)) && name[strlen(s)] == '(' &&
    name[strlen(name) - 1] == ')'] *)
Definition paren_suffix_match (name s : string) : bool :=
  strncaseeq name s (String.length s)
  && bool_decide (str name !! String.length s = Some (chr "("))
  && bool_decide (last (str name) = Some (chr ")")).

(** One name of [enum_match]: whole, then without the table's prefix. *)
Definition enum_match_name (pre : option string) (name s : string) : bool :=
  if strcaseeq name s || paren_suffix_match name s then true
  else match pre with
       | None => false
       | Some pr =>
           let short_name := strip_prefix name pr in
           if negb (String.prefix pr name) || String.eqb pr "" then false
           else strcaseeq short_name s || paren_suffix_match short_name s
       end.

Fixpoint enum_match_range (fuel : nat) (pre : option string) (p : enum_range)
    (en : Z) (s : string) : outcome E (option Z) :=
  match fuel with
  | O => Ok None
  | S fuel' =>
      if en <=? en_last p then
        name ← name_at (en_names p) (en - en_first p);
        match name with
        | None => enum_match_range fuel' pre p (en + 1) s
        | Some n =>
            passert (en <=? INT_MAX) ;;
            if enum_match_name pre n s then Ok (Some en)
            else enum_match_range fuel' pre p (en + 1) s
        end
      else Ok None
  end.

Fixpoint enum_match_chain (pre : option string) (ed : enum_names) (s : string)
  : outcome E Z :=
  match ed with
  | [] => Ok (-1)
  | p :: next =>
      passert (range_ok p) ;;
      r ← enum_match_range (range_count p) pre p (en_first p) s;
      match r with
      | Some en => Ok en
      | None => enum_match_chain pre next s
      end
  end.

Definition enum_match (ed : enum_names) (s : string) : outcome E Z :=
  enum_match_chain (head_prefix ed) ed s.

Definition enum_enum_table (een : enum_enum_names) (table : Z)
  : outcome E (option enum_names) :=
  passert (u64 (een_last een - een_first een + 1) =? een_checklen een) ;;
  if (een_first een <=? table) && (table <=? een_last een)
  then t ← defined (een_enum_name een !! Z.to_nat (table - een_first een)); Ok (Some t)
  else Ok None.

Definition enum_enum_name (een : enum_enum_names) (table val : Z)
  : outcome E (option string) :=
  en ← enum_enum_table een table;
  match en with None => Ok None | Some ed => enum_name ed val end.

Definition enum_enum_short_name (een : enum_enum_names) (table val : Z)
  : outcome E (option string) :=
  en ← enum_enum_table een table;
  match en with None => Ok None | Some ed => enum_short_name ed val end.

(** [check_enum_names]: look an uncovered value (-42UL) up in every table, so
    that the assertions of all its ranges are exercised. *)
Fixpoint check_enum_names (checklist : list enum_names) : outcome E unit :=
  match checklist with
  | [] => Ok tt
  | ed :: rest => enum_name ed (u64 (-42)) ;; check_enum_names rest
  end.

(** [testset(table, val)]: do all the bits of [val] have names?  The scan walks
    the table from bit 0; the table is an array that normally ends in NULL, and
    running past an array without NULL is undefined. *)
Fixpoint testset_from (table : list (option string)) (val : Z) (bit : nat) : outcome E bool :=
  if val =? 0 then Ok true
  else match table with
       | [] => Abort
       | None :: _ => Ok false
       | Some n :: tp =>
           if Z.testbit val (Z.of_nat bit) && String.eqb n "" then Ok false
           else testset_from tp (Z.ldiff val (2 ^ Z.of_nat bit)) (S bit)
       end.

Definition testset (table : list (option string)) (val : Z) : outcome E bool :=
  testset_from table val 0.

(** [jam_str(dest, size, src)]: the text left in [dest] (without its NUL); the
    pointer the C function returns is [dest] plus the length of that text. *)
Definition jam_str (size : Z) (src : list Z) : outcome E (list Z) :=
  passert (0 <? size) ;; Ok (take (Z.to_nat (size - 1)) src).

(** [jam_str(p, roof - p, s)] with [p] at the end of [b]: append to [b] what
    fits in a buffer of [blen] bytes. *)
Definition jam_at (blen : Z) (b s : list Z) : outcome E (list Z) :=
  t ← jam_str (blen - Z.of_nat (length b)) s; Ok (b ++ t).

(** The loop of [bitnamesofb]: [b] is the text from the start of the buffer to
    [p], [i] the index of [tp], [bit] the bit number.  One pass per bit of an
    [lset_t], so 64 passes are enough. *)
Fixpoint bitnames_loop (fuel : nat) (table : list (option string)) (blen val : Z)
    (bit i : nat) (b : list Z) : outcome E (list Z) :=
  if val =? 0 then Ok b
  else match fuel with
       | O => Abort
       | S fuel' =>
           n ← defined (table !! i);
           '(val', b') ←
             (if Z.testbit val (Z.of_nat bit) then
                b1 ← (if bool_decide (b <> []) then jam_at blen b (str "+") else Ok b);
                b2 ← jam_at blen b1
                       (match n with
                        | None | Some ""%string => str "0x" ++ hex_text (2 ^ Z.of_nat bit)
                        | Some s => str s
                        end);
                Ok (val - 2 ^ Z.of_nat bit, b2)
              else Ok (val, b));
           bitnames_loop fuel' table blen val' (S bit)
             (match n with None => i | Some _ => S i end) b'
       end.

Definition bitnamesofb (table : list (option string)) (val blen : Z) : outcome E (list Z) :=
  passert (negb (blen =? 0)) ;;
  none ← jam_str blen (str "none");
  if val =? 0 then Ok none else bitnames_loop 64 table blen val 0 0 [].

(** [sparse_name]: linear search of a sparse table. *)
Fixpoint sparse_name (sd : list (Z * string)) (val : Z) : option string :=
  match sd with
  | [] => None
  | (v, n) :: sd' => if v =? val then Some n else sparse_name sd' val
  end.

End Lookup.

(** * Well-formed tables *)

(** The range's bounds agree with its number of names, and fit an [int]. *)
Definition wf_range (p : enum_range) : bool :=
  range_ok p && (0 <=? en_first p) && (en_first p <=? en_last p + 1)
  && (en_last p <=? INT_MAX)
  && (en_last p - en_first p + 1 <=? Z.of_nat (length (en_names p))).

Definition wf_chain (ed : enum_names) : bool := forallb wf_range ed.

(** Distinct ranges of a chain cover distinct values. *)
Fixpoint disjoint_chain (ed : enum_names) : bool :=
  match ed with
  | [] => true
  | p :: next =>
      forallb (fun q => (en_last p <? en_first q) || (en_last q <? en_first p)) next
      && disjoint_chain next
  end.

Definition wf_een (e : enum_enum_names) : bool :=
  (u64 (een_last e - een_first e + 1) =? een_checklen e)
  && (een_last e - een_first e + 1 <=? Z.of_nat (length (een_enum_name e))).

(** Tables with a NULL, or long enough for every bit of a [width]-bit value. *)
Definition wf_set (t : list (option string)) (width : Z) : bool :=
  existsb (fun n => match n with None => true | Some _ => false end) t
  || (width <=? Z.of_nat (length t)).

Lemma name_at_total {E} p val :
  wf_range p = true -> en_first p <= val <= en_last p ->
  exists n, @name_at E (en_names p) (val - en_first p) = Ok n.
Proof.
  unfold wf_range, name_at. rewrite !andb_true_iff, !Z.leb_le. intros [[[[_ ?] ?] ?] ?] Hv.
  rewrite (proj2 (Z.ltb_ge _ _)) by lia.
  destruct (lookup_lt_is_Some_2 (en_names p) (Z.to_nat (val - en_first p))) as [n ->]; [lia|].
  by exists n.
Qed.

Lemma wf_range_ok p : wf_range p = true -> range_ok p = true.
Proof. unfold wf_range. rewrite !andb_true_iff. tauto. Qed.

Lemma enum_name_total {E} ed val :
  wf_chain ed = true -> exists n, @enum_name E ed val = Ok n.
Proof.
  induction ed as [|p next IH]; simpl; [eauto|].
  rewrite andb_true_iff. intros [Hp Hn].
  rewrite (wf_range_ok _ Hp). simpl.
  destruct (Z.leb_spec (en_first p) val); simpl; [|auto].
  destruct (Z.leb_spec val (en_last p)); simpl; [|auto].
  by apply name_at_total.
Qed.

Lemma enum_enum_table_total {E} e t :
  wf_een e = true -> exists r, @enum_enum_table E e t = Ok r.
Proof.
  unfold wf_een, enum_enum_table. rewrite andb_true_iff, Z.leb_le. intros [-> ?]. simpl.
  destruct (Z.leb_spec (een_first e) t); simpl; [|eauto].
  destruct (Z.leb_spec t (een_last e)); simpl; [|eauto].
  destruct (lookup_lt_is_Some_2 (een_enum_name e) (Z.to_nat (t - een_first e))) as [n ->]; [lia|].
  simpl. eauto.
Qed.

(** ** Bit sets *)

Lemma testbit_ldiff_pow2 v b i :
  0 <= b -> 0 <= i -> Z.testbit (Z.ldiff v (2 ^ b)) i = Z.testbit v i && negb (b =? i).
Proof. intros. rewrite Z.ldiff_spec, Z.pow2_bits_eqb by lia. done. Qed.

(** No bit of [v] below [b] is set. *)
Definition bits_from (v : Z) (b : nat) : Prop :=
  forall i, 0 <= i < Z.of_nat b -> Z.testbit v i = false.

Lemma bits_from_step v b : bits_from v b -> bits_from (Z.ldiff v (2 ^ Z.of_nat b)) (S b).
Proof.
  intros H i Hi. rewrite testbit_ldiff_pow2 by lia.
  destruct (Z.eqb_spec (Z.of_nat b) i) as [Heq|Hne]; [by rewrite andb_false_r|].
  rewrite H by lia. done.
Qed.

(** The names of a table, up to its first NULL. *)
Fixpoint table_names (t : list (option string)) : list string :=
  match t with
  | Some n :: t' => n :: table_names t'
  | _ => []
  end.

(** What [testset_from] decides on a NULL-terminated (or long enough) table:
    every set bit of [v] has a non-empty name. *)
Definition bits_named (table : list (option string)) (v : Z) (b : nat) : Prop :=
  forall i : nat, Z.testbit v (Z.of_nat (b + i)) = true ->
    exists n, table_names table !! i = Some n /\ n <> ""%string.

Lemma bits_named_step n tp v b :
  (Z.testbit v (Z.of_nat b) && String.eqb n "") = false ->
  bits_named tp (Z.ldiff v (2 ^ Z.of_nat b)) (S b) <-> bits_named (Some n :: tp) v b.
Proof.
  intros Hn. unfold bits_named. split; intros H i Hi.
  - destruct i as [|i]; simpl.
    + exists n. split; [done|]. intros ->. rewrite Nat.add_0_r in Hi. by rewrite Hi in Hn.
    + apply H. rewrite testbit_ldiff_pow2 by lia.
      replace (S b + i)%nat with (b + S i)%nat by lia. rewrite Hi.
      rewrite (proj2 (Z.eqb_neq _ _)) by lia. done.
  - rewrite testbit_ldiff_pow2 in Hi by lia. apply andb_true_iff in Hi as [Hi _].
    destruct (H (S i)) as [m ?]; [by replace (b + S i)%nat with (S b + i)%nat by lia|].
    by exists m.
Qed.

Lemma testset_from_spec {E} table v b r :
  0 <= v -> bits_from v b -> @testset_from E table v b = Ok r ->
  r = true <-> bits_named table v b.
Proof.
  revert v b; induction table as [|o tp IH]; intros v b Hv Hb; cbn [testset_from].
  - destruct (Z.eqb_spec v 0) as [->|]; [|naive_solver]. intros [= <-].
    split; [|done]. intros _ i. by rewrite Z.bits_0.
  - destruct (Z.eqb_spec v 0) as [->|Hnz].
    { intros [= <-]. split; [|done]. intros _ i. by rewrite Z.bits_0. }
    destruct o as [n|].
    + destruct (_ && _) eqn:Hn.
      * intros [= <-]. split; [done|]. intros H.
        apply andb_true_iff in Hn as [Ht He]. apply String.eqb_eq in He as ->.
        destruct (H 0%nat) as [m [? ?]]; [by rewrite Nat.add_0_r|]. naive_solver.
      * intros H. rewrite (IH _ _ (proj2 (Z.ldiff_nonneg _ _) (or_introl Hv))
          (bits_from_step _ _ Hb) H). by apply bits_named_step.
    + intros [= <-]. split; [done|]. intros H.
      assert (exists i : nat, Z.testbit v (Z.of_nat (b + i)) = true) as [i Hi].
      { exists (Z.to_nat (Z.log2 v) - b)%nat.
        assert (0 < v) by lia. pose proof (Z.bit_log2 v ltac:(lia)) as Hl.
        assert (~ Z.log2 v < Z.of_nat b).
        { intros Hlt. pose proof (Z.log2_nonneg v). rewrite Hb in Hl by lia. done. }
        by replace (Z.of_nat (b + (Z.to_nat (Z.log2 v) - b))) with (Z.log2 v)
          by (pose proof (Z.log2_nonneg v); lia). }
      by destruct (H i Hi) as [m [Hm _]].
Qed.

Lemma testset_from_total {E} table v b w :
  0 <= v < 2 ^ w -> bits_from v b ->
  (existsb (fun n => match n with None => true | Some _ => false end) table
   || (w - Z.of_nat b <=? Z.of_nat (length table))) = true ->
  exists r, @testset_from E table v b = Ok r.
Proof.
  revert v b; induction table as [|o tp IH]; intros v b Hv Hb Hw; cbn [testset_from].
  - destruct (Z.eqb_spec v 0); [eauto|]. exfalso. simpl in Hw. apply Z.leb_le in Hw.
    pose proof (Z.bit_log2 v ltac:(lia)) as Hl. pose proof (Z.log2_nonneg v).
    assert (Z.log2 v < w) by (apply Z.log2_lt_pow2; lia).
    rewrite Hb in Hl by lia. done.
  - destruct (v =? 0); [eauto|]. destruct o as [n|]; [|eauto].
    destruct (_ && _); [eauto|]. apply IH.
    + split; [apply Z.ldiff_nonneg; lia|].
      assert (Z.ldiff v (2 ^ Z.of_nat b) <= v); [|lia].
      apply Z.ldiff_le; [lia|]. apply Z.bits_inj'. intros i Hi.
      rewrite !Z.ldiff_spec, Z.bits_0. destruct (Z.testbit v i), (Z.testbit _ i); done.
    + by apply bits_from_step.
    + simpl in Hw. apply orb_true_iff in Hw as [->|Hw]; [done|].
      apply Z.leb_le in Hw. apply orb_true_iff. right. apply Z.leb_le.
      cbn [length] in Hw. lia.
Qed.

Lemma testset_total {E} t w v :
  0 <= v < 2 ^ w -> wf_set t w = true -> exists r, @testset E t v = Ok r.
Proof.
  intros Hv Hw. apply testset_from_total with (w := w); auto.
  - intros i Hi. lia.
  - unfold wf_set in Hw. rewrite Z.sub_0_r. exact Hw.
Qed.

Lemma testset_spec {E} t v r :
  0 <= v -> @testset E t v = Ok r -> r = true <-> bits_named t v 0.
Proof. intros Hv. apply testset_from_spec; [done|]. intros i Hi. lia. Qed.

(** ** The error type of a lookup is irrelevant: lookups never report errors *)

Lemma enum_name_any {E1 E2} ed v r : @enum_name E1 ed v = Ok r -> @enum_name E2 ed v = Ok r.
Proof.
  induction ed as [|p next IH]; simpl; [naive_solver|].
  destruct (range_ok p); simpl; [|done]. destruct (_ && _); [|done].
  unfold name_at. destruct (_ <? _); [done|]. by destruct (_ !! _); simpl; naive_solver.
Qed.

Lemma enum_enum_table_any {E1 E2} e t r :
  @enum_enum_table E1 e t = Ok r -> @enum_enum_table E2 e t = Ok r.
Proof.
  unfold enum_enum_table. destruct (_ =? _); simpl; [|done].
  destruct (_ && _); [|naive_solver]. destruct (_ !! _); simpl; naive_solver.
Qed.

Lemma testset_from_any {E1 E2} t v b r :
  @testset_from E1 t v b = Ok r -> @testset_from E2 t v b = Ok r.
Proof.
  revert v b; induction t as [|[n|] t IH]; intros v b; simpl; destruct (v =? 0);
    try naive_solver. destruct (_ && _); naive_solver.
Qed.
