(* ===== verification/Constants.v ===== *)
(** The name tables of lib/libswan/constants.c, transcribed one for one.

    A [Definition] of type [list (option string)] is an array of names ([None]
    is a NULL element) and one of type [enum_names] a range descriptor followed
    by the chain its [en_next_range] points to.  Symbolic bounds are written as
    their values (include/ietf_constants.h, include/pluto_constants.h), with
    the symbol in a comment.  The tables are those of the default build, in
    which HAVE_LABELED_IPSEC is not defined (USE_LABELED_IPSEC in mk/config.mk). *)
From S2P Require Import Prelude EnumNames.

Definition version_name_1 : list (option string) :=
  [Some "ISAKMP Version 1.0 (rfc2407)"].

Definition version_name_2 : list (option string) :=
  [Some "IKEv2 version 2.0 (rfc4306/rfc5996)"].

Definition version_names_1 : enum_names :=
  mk_range 16 (* ISAKMP_MAJOR_VERSION << ISA_MAJ_SHIFT | ISAKMP_MINOR_VERSION *)
    16 (* ISAKMP_MAJOR_VERSION << ISA_MAJ_SHIFT | ISAKMP_MINOR_VERSION *)
    version_name_1 (Z.of_nat (length version_name_1)) None
  :: [].

Definition version_names : enum_names :=
  mk_range 32 (* IKEv2_MAJOR_VERSION << ISA_MAJ_SHIFT | IKEv2_MINOR_VERSION *)
    32 (* IKEv2_MAJOR_VERSION << ISA_MAJ_SHIFT | IKEv2_MINOR_VERSION *)
    version_name_2 (Z.of_nat (length version_name_2)) None
  :: version_names_1.

Definition doi_name : list (option string) :=
  [Some "ISAKMP_DOI_ISAKMP"; Some "ISAKMP_DOI_IPSEC"].

Definition doi_names : enum_names :=
  mk_range 0 (* ISAKMP_DOI_ISAKMP *)
    1 (* ISAKMP_DOI_IPSEC *)
    doi_name (Z.of_nat (length doi_name)) None
  :: [].

Definition debug_bit_names : list (option string) :=
  [Some "raw"; Some "crypt"; Some "parsing"; Some "emitting"; Some "control";
   Some "lifecycle"; Some "kernel"; Some "dns"; Some "oppo"; Some "controlmore"; Some "pfkey";
   Some "nattraversal"; Some "x509"; Some "dpd"; Some "oppoinfo"; Some "whackwatch";
   Some "private"; Some "impair-bust-mi2"; Some "impair-bust-mr2"; Some "impair-sa-creation";
   Some "impair-die-oninfo"; Some "impair-jacob-two-two"; Some "impair-major-version-bump";
   Some "impair-minor-version-bump"; Some "impair-retransmits";
   Some "impair-send-bogus-payload-flag"; Some "impair-send-bogus-isakmp-flag";
   Some "impair-send-ikev2-ke"; Some "impair-send-no-delete";
   Some "impair-send-no-ikev2-auth"; Some "impair-force-fips";
   Some "impair-send-key-size-check"; Some "impair-send-zero-gx";
   Some "impair-send-bogus-dcookie"; None].

Definition connection_kind_name : list (option string) :=
  [Some "CK_GROUP"; Some "CK_TEMPLATE"; Some "CK_PERMANENT"; Some "CK_INSTANCE";
   Some "CK_GOING_AWAY"].

Definition connection_kind_names : enum_names :=
  mk_range 0 (* CK_GROUP *)
    4 (* CK_GOING_AWAY *)
    connection_kind_name (Z.of_nat (length connection_kind_name)) None
  :: [].

Definition payload_name_ikev1 : list (option string) :=
  [Some "ISAKMP_NEXT_NONE"; Some "ISAKMP_NEXT_SA"; Some "ISAKMP_NEXT_P"; Some "ISAKMP_NEXT_T";
   Some "ISAKMP_NEXT_KE"; Some "ISAKMP_NEXT_ID"; Some "ISAKMP_NEXT_CERT";
   Some "ISAKMP_NEXT_CR"; Some "ISAKMP_NEXT_HASH"; Some "ISAKMP_NEXT_SIG";
   Some "ISAKMP_NEXT_NONCE"; Some "ISAKMP_NEXT_N"; Some "ISAKMP_NEXT_D";
   Some "ISAKMP_NEXT_VID"; Some "ISAKMP_NEXT_MODECFG"; Some "ISAKMP_NEXT_SAK";
   Some "ISAKMP_NEXT_TEK"; Some "ISAKMP_NEXT_KD"; Some "ISAKMP_NEXT_SEQ";
   Some "ISAKMP_NEXT_POP"; Some "ISAKMP_NEXT_NATD_RFC"; Some "ISAKMP_NEXT_NATOA_RFC";
   Some "ISAKMP_NEXT_GAP"; None].

Definition payload_name_ikev1_private_use : list (option string) :=
  [Some "ISAKMP_NEXT_NATD_DRAFTS"; Some "ISAKMP_NEXT_NATOA_DRAFTS";
   Some "ISAKMP_NEXT_IKE_FRAGMENTATION"].

Definition payload_names_ikev1_private_use : enum_names :=
  mk_range 130 (* ISAKMP_NEXT_NATD_DRAFTS *)
    132 (* ISAKMP_NEXT_IKE_FRAGMENTATION *)
    payload_name_ikev1_private_use (Z.of_nat (length payload_name_ikev1_private_use)) None
  :: [].

Definition ikev1_payload_names : enum_names :=
  mk_range 0 (* ISAKMP_NEXT_NONE *)
    22 (* ISAKMP_NEXT_GAP *)
    payload_name_ikev1 (Z.of_nat (length payload_name_ikev1) - 1) None
  :: payload_names_ikev1_private_use.

Definition payload_name_ikev2 : list (option string) :=
  [Some "ISAKMP_NEXT_v2NONE"].

Definition payload_name_ikev2_main : list (option string) :=
  [Some "ISAKMP_NEXT_v2SA"; Some "ISAKMP_NEXT_v2KE"; Some "ISAKMP_NEXT_v2IDi";
   Some "ISAKMP_NEXT_v2IDr"; Some "ISAKMP_NEXT_v2CERT"; Some "ISAKMP_NEXT_v2CERTREQ";
   Some "ISAKMP_NEXT_v2AUTH"; Some "ISAKMP_NEXT_v2Ni"; Some "ISAKMP_NEXT_v2N";
   Some "ISAKMP_NEXT_v2D"; Some "ISAKMP_NEXT_v2V"; Some "ISAKMP_NEXT_v2TSi";
   Some "ISAKMP_NEXT_v2TSr"; Some "ISAKMP_NEXT_v2SK"; Some "ISAKMP_NEXT_v2CP";
   Some "ISAKMP_NEXT_v2EAP"; Some "ISAKMP_NEXT_v2GSPM"; Some "ISAKMP_NEXT_v2IDG";
   Some "ISAKMP_NEXT_v2GSA"; Some "ISAKMP_NEXT_v2KD"; Some "ISAKMP_NEXT_v2SKF"; None].

Definition payload_name_ikev2_private_use : list (option string) :=
  [Some "ISAKMP_NEXT_v2IKE_FRAGMENTATION"].

Definition payload_names_ikev2_private_use : enum_names :=
  mk_range 132 (* ISAKMP_NEXT_v2IKE_FRAGMENTATION *)
    132 (* ISAKMP_NEXT_v2IKE_FRAGMENTATION *)
    payload_name_ikev2_private_use (Z.of_nat (length payload_name_ikev2_private_use)) None
  :: [].

Definition payload_names_ikev2_main : enum_names :=
  mk_range 33 (* ISAKMP_NEXT_v2SA *)
    53 (* ISAKMP_NEXT_v2SKF *)
    payload_name_ikev2_main (Z.of_nat (length payload_name_ikev2_main) - 1) None
  :: payload_names_ikev2_private_use.

Definition ikev2_payload_names : enum_names :=
  mk_range 0 (* ISAKMP_NEXT_v2NONE *)
    0 (* ISAKMP_NEXT_v2NONE *)
    payload_name_ikev2 (Z.of_nat (length payload_name_ikev2)) None
  :: payload_names_ikev2_main.

Definition payload_names_ikev2copy_main : enum_names :=
  mk_range 33 (* ISAKMP_NEXT_v2SA *)
    53 (* ISAKMP_NEXT_v2SKF *)
    payload_name_ikev2_main (Z.of_nat (length payload_name_ikev2_main) - 1) None
  :: payload_names_ikev1_private_use.

Definition payload_names_ikev1orv2 : enum_names :=
  mk_range 0 (* ISAKMP_NEXT_NONE *)
    22 (* ISAKMP_NEXT_GAP *)
    payload_name_ikev1 (Z.of_nat (length payload_name_ikev1) - 1) None
  :: payload_names_ikev2copy_main.

Definition ikev2_last_proposal_names : list (option string) :=
  [Some "v2_PROPOSAL_LAST"; None; Some "v2_PROPOSAL_NON_LAST"].

Definition ikev2_last_proposal_desc : enum_names :=
  mk_range 0 (* v2_PROPOSAL_LAST *)
    2 (* v2_PROPOSAL_NON_LAST *)
    ikev2_last_proposal_names (Z.of_nat (length ikev2_last_proposal_names)) None
  :: [].

Definition ikev2_last_transform_names : list (option string) :=
  [Some "v2_TRANSFORM_LAST"; None; None; Some "v2_TRANSFORM_NON_LAST"].

Definition ikev2_last_transform_desc : enum_names :=
  mk_range 0 (* v2_TRANSFORM_LAST *)
    3 (* v2_TRANSFORM_NON_LAST *)
    ikev2_last_transform_names (Z.of_nat (length ikev2_last_transform_names)) None
  :: [].

Definition exchange_name_ikev1 : list (option string) :=
  [Some "ISAKMP_XCHG_NONE"; Some "ISAKMP_XCHG_BASE"; Some "ISAKMP_XCHG_IDPROT";
   Some "ISAKMP_XCHG_AO"; Some "ISAKMP_XCHG_AGGR"; Some "ISAKMP_XCHG_INFO";
   Some "ISAKMP_XCHG_MODE_CFG"].

Definition exchange_name_doi : list (option string) :=
  [Some "ISAKMP_XCHG_STOLEN_BY_OPENSWAN_FOR_ECHOREQUEST";
   Some "ISAKMP_XCHG_STOLEN_BY_OPENSWAN_FOR_ECHOREPLY"; Some "ISAKMP_XCHG_QUICK";
   Some "ISAKMP_XCHG_NGRP"].

Definition exchange_name_ikev2 : list (option string) :=
  [Some "ISAKMP_v2_SA_INIT"; Some "ISAKMP_v2_AUTH"; Some "ISAKMP_v2_CREATE_CHILD_SA";
   Some "ISAKMP_v2_INFORMATIONAL"; Some "ISAKMP_v2_IKE_SESSION_RESUME"].

Definition exchange_name_private_use : list (option string) :=
  [Some "ISAKMP_XCHG_ECHOREQUEST_PRIVATE"; Some "ISAKMP_XCHG_ECHOREPLY_PRIVATE"].

Definition exchange_names_private_use : enum_names :=
  mk_range 244 (* ISAKMP_XCHG_ECHOREQUEST_PRIVATE *)
    245 (* ISAKMP_XCHG_ECHOREPLY_PRIVATE *)
    exchange_name_private_use (Z.of_nat (length exchange_name_private_use)) None
  :: [].

Definition exchange_names_doi : enum_names :=
  mk_range 30 (* ISAKMP_XCHG_STOLEN_BY_OPENSWAN_FOR_ECHOREQUEST *)
    33 (* ISAKMP_XCHG_NGRP *)
    exchange_name_doi (Z.of_nat (length exchange_name_doi)) None
  :: exchange_names_private_use.

Definition ikev1_exchange_names : enum_names :=
  mk_range 0 (* ISAKMP_XCHG_NONE *)
    6 (* ISAKMP_XCHG_MODE_CFG *)
    exchange_name_ikev1 (Z.of_nat (length exchange_name_ikev1)) None
  :: exchange_names_doi.

Definition ikev2_exchange_names : enum_names :=
  mk_range 34 (* ISAKMP_v2_SA_INIT *)
    38 (* ISAKMP_v2_IKE_SESSION_RESUME *)
    exchange_name_ikev2 (Z.of_nat (length exchange_name_ikev2)) None
  :: exchange_names_private_use.

Definition exchange_names_doi_and_v2 : enum_names :=
  mk_range 30 (* ISAKMP_XCHG_STOLEN_BY_OPENSWAN_FOR_ECHOREQUEST *)
    33 (* ISAKMP_XCHG_NGRP *)
    exchange_name_doi (Z.of_nat (length exchange_name_doi)) None
  :: ikev2_exchange_names.

Definition exchange_names_ikev1orv2 : enum_names :=
  mk_range 0 (* ISAKMP_XCHG_NONE *)
    6 (* ISAKMP_XCHG_MODE_CFG *)
    exchange_name_ikev1 (Z.of_nat (length exchange_name_ikev1)) None
  :: exchange_names_doi_and_v2.

Definition isakmp_flag_names : list (option string) :=
  [Some "ISAKMP_FLAG_v1_ENCRYPTION"; Some "ISAKMP_FLAG_v1_COMMIT";
   Some "ISAKMP_FLAG_v1_AUTHONLY"; Some "ISAKMP_FLAG_v2_IKE_INIT";
   Some "ISAKMP_FLAG_v2_VERSION"; Some "ISAKMP_FLAG_v2_MSG_RESPONSE";
   Some "ISAKMP_FLAG_MSG_RESERVED_BIT6"; Some "ISAKMP_FLAG_MSG_RESERVED_BIT7"; None].

Definition sit_bit_names : list (option string) :=
  [Some "SIT_IDENTITY_ONLY"; Some "SIT_SECRECY"; Some "SIT_INTEGRITY"; None].

Definition ikev1_protocol_name : list (option string) :=
  [Some "PROTO_RESERVED"; Some "PROTO_ISAKMP"; Some "PROTO_IPSEC_AH"; Some "PROTO_IPSEC_ESP";
   Some "PROTO_IPCOMP"].

Definition ikev1_protocol_names : enum_names :=
  mk_range 0 (* PROTO_RESERVED *)
    4 (* PROTO_IPCOMP *)
    ikev1_protocol_name (Z.of_nat (length ikev1_protocol_name)) None
  :: [].

Definition ikev2_protocol_name : list (option string) :=
  [Some "PROTO_v2_RESERVED"; Some "PROTO_v2_IKE"; Some "PROTO_v2_AH"; Some "PROTO_v2_ESP"].

Definition ikev2_protocol_names : enum_names :=
  mk_range 0 (* PROTO_v2_RESERVED *)
    3 (* PROTO_v2_ESP *)
    ikev2_protocol_name (Z.of_nat (length ikev2_protocol_name)) None
  :: [].

Definition ikev2_del_protocol_names : enum_names :=
  mk_range 1 (* PROTO_ISAKMP *)
    3 (* PROTO_IPSEC_ESP *)
    (drop 1 ikev2_protocol_name) (Z.of_nat (length ikev2_protocol_name) - 1 (* PROTO_ISAKMP *)) None
  :: [].

Definition isakmp_transform_name : list (option string) :=
  [Some "KEY_IKE"].

Definition isakmp_transformid_names : enum_names :=
  mk_range 1 (* KEY_IKE *)
    1 (* KEY_IKE *)
    isakmp_transform_name (Z.of_nat (length isakmp_transform_name)) None
  :: [].

Definition ah_transform_name_private_use : list (option string) :=
  [Some "AH_AES_CMAC_96"; Some "AH_NULL"; Some "AH_SHA2_256_TRUNC"].

Definition ah_transformid_names_private_use : enum_names :=
  mk_range 250 (* AH_AES_CMAC_96 *)
    252 (* AH_SHA2_256_TRUNC *)
    ah_transform_name_private_use (Z.of_nat (length ah_transform_name_private_use)) None
  :: [].

Definition ah_transform_name : list (option string) :=
  [Some "AH_MD5"; Some "AH_SHA"; Some "AH_DES(UNUSED)"; Some "AH_SHA2_256";
   Some "AH_SHA2_384"; Some "AH_SHA2_512"; Some "AH_RIPEMD"; Some "AH_AES_XCBC_MAC";
   Some "AH_RSA(UNUSED)"; Some "AH_AES_128_GMAC"; Some "AH_AES_192_GMAC";
   Some "AH_AES_256_GMAC"].

Definition ah_transformid_names : enum_names :=
  mk_range 2 (* AH_MD5 *)
    13 (* AH_AES_256_GMAC *)
    ah_transform_name (Z.of_nat (length ah_transform_name)) (Some "AH_")
  :: ah_transformid_names_private_use.

Definition esp_transform_name_private_use : list (option string) :=
  [Some "ESP_MARS"; Some "ESP_RC6(UNUSED)"; Some "ESP_KAME_NULL"; Some "ESP_SERPENT";
   Some "ESP_TWOFISH"; Some "ESP_ID254(UNUSED)"; Some "ESP_ID255(UNUSED)"].

Definition esp_transformid_names_private_use : enum_names :=
  mk_range 249 (* ESP_MARS *)
    255 (* ESP_ID255 *)
    esp_transform_name_private_use (Z.of_nat (length esp_transform_name_private_use)) None
  :: [].

Definition esp_transform_name : list (option string) :=
  [Some "ESP_DES_IV64(UNUSED)"; Some "ESP_DES(UNUSED)"; Some "ESP_3DES";
   Some "ESP_RC5(UNUSED)"; Some "ESP_IDEA(UNUSED)"; Some "ESP_CAST";
   Some "ESP_BLOWFISH(UNUSED)"; Some "ESP_3IDEA(UNUSED)"; Some "ESP_DES_IV32(UNUSED)";
   Some "ESP_RC4(UNUSED)"; Some "ESP_NULL"; Some "ESP_AES"; Some "ESP_AES_CTR";
   Some "ESP_AES_CCM_A"; Some "ESP_AES_CCM_B"; Some "ESP_AES_CCM_C"; Some "ESP_UNUSED_ID17";
   Some "ESP_AES_GCM_A"; Some "ESP_AES_GCM_B"; Some "ESP_AES_GCM_C";
   Some "ESP_NULL_AUTH_AES_GMAC"; Some "ESP_CAMELLIA";
   Some "IKEv2:ESP_CAMELLIA or IKEv1:ESP_NULL_AUTH_AES_GMAC"; Some "ESP_CAMELLIA_CTR";
   Some "ESP_CAMELLIA_CCM_A"; Some "ESP_CAMELLIA_CCM_B"; Some "ESP_CAMELLIA_CCM_C"].

Definition esp_transformid_names : enum_names :=
  mk_range 1 (* ESP_DES_IV64 *)
    27 (* ESP_CAMELLIA_CCM_16 *)
    esp_transform_name (Z.of_nat (length esp_transform_name)) (Some "ESP_")
  :: esp_transformid_names_private_use.

Definition ipcomp_transform_name : list (option string) :=
  [Some "IPCOMP_OUI"; Some "IPCOMP_DEFLAT"; Some "IPCOMP_LZS"; Some "IPCOMP_LZJH"].

Definition ipcomp_transformid_names : enum_names :=
  mk_range 1 (* IPCOMP_OUI *)
    4 (* IPCOMP_LZJH *)
    ipcomp_transform_name (Z.of_nat (length ipcomp_transform_name)) None
  :: [].

Definition ike_idtype_name : list (option string) :=
  [Some "ID_NONE"; Some "ID_IPV4_ADDR"; Some "ID_FQDN"; Some "ID_USER_FQDN";
   Some "ID_IPV4_ADDR_SUBNET"; Some "ID_IPV6_ADDR"; Some "ID_IPV6_ADDR_SUBNET";
   Some "ID_IPV4_ADDR_RANGE"; Some "ID_IPV6_ADDR_RANGE"; Some "ID_DER_ASN1_DN";
   Some "ID_DER_ASN1_GN"; Some "ID_KEY_ID"; Some "ID_FC_NAME"; Some "ID_NULL"].

Definition ike_idtype_names : enum_names :=
  mk_range 1 (* ID_IPV4_ADDR *)
    13 (* ID_NULL *)
    (drop 1 ike_idtype_name) (13 (* ID_NULL-ID_IPV4_ADDR+1 *)) None
  :: [].

Definition ikev2_idtype_names_3 : enum_names :=
  mk_range 9 (* ID_DER_ASN1_DN *)
    13 (* ID_NULL *)
    (drop 9 ike_idtype_name) (Z.of_nat (length ike_idtype_name) - 9 (* ID_DER_ASN1_DN *)) None
  :: [].

Definition ikev2_idtype_names_2 : enum_names :=
  mk_range 5 (* ID_IPV6_ADDR *)
    5 (* ID_IPV6_ADDR *)
    (drop 5 ike_idtype_name) 1 None
  :: ikev2_idtype_names_3.

Definition ikev2_idtype_names : enum_names :=
  mk_range 1 (* ID_IPV4_ADDR *)
    3 (* ID_RFC822_ADDR *)
    (drop 1 ike_idtype_name) (3 (* ID_RFC822_ADDR-ID_IPV4_ADDR+1 *)) None
  :: ikev2_idtype_names_2.

Definition ike_cert_type_name : list (option string) :=
  [Some "CERT_PKCS7_WRAPPED_X509"; Some "CERT_PGP"; Some "CERT_DNS_SIGNED_KEY";
   Some "CERT_X509_SIGNATURE"; Some "CERT_X509_KEY_EXCHANGE"; Some "CERT_KERBEROS_TOKENS";
   Some "CERT_CRL"; Some "CERT_ARL"; Some "CERT_SPKI"; Some "CERT_X509_ATTRIBUTE";
   Some "CERT_RAW_RSA"; Some "CERT_X509_CERT_URL"; Some "CERT_X509_BUNDLE_URL";
   Some "CERT_OCSP_CONTENT"; Some "CERT_RAW_PUBLIC_KEY"].

Definition ike_cert_type_names : enum_names :=
  mk_range 1 (* CERT_PKCS7_WRAPPED_X509 *)
    10 (* CERT_X509_ATTRIBUTE *)
    ike_cert_type_name (10 (* CERT_X509_ATTRIBUTE - CERT_PKCS7_WRAPPED_X509 + 1 *)) None
  :: [].

Definition ikev2_cert_type_names_2 : enum_names :=
  mk_range 6 (* CERT_KERBEROS_TOKENS *)
    15 (* CERT_RAW_PUBLIC_KEY *)
    (drop 5 ike_cert_type_name) (10 (* CERT_RAW_PUBLIC_KEY-CERT_KERBEROS_TOKENS+1 *)) None
  :: [].

Definition ikev2_cert_type_names : enum_names :=
  mk_range 1 (* CERT_PKCS7_WRAPPED_X509 *)
    4 (* CERT_X509_SIGNATURE *)
    ike_cert_type_name (4 (* CERT_X509_SIGNATURE-CERT_PKCS7_WRAPPED_X509+1 *)) None
  :: ikev2_cert_type_names_2.

Definition certpolicy_type_name : list (option string) :=
  [Some "cert_neversend"; Some "cert_sendifasked"; Some "cert_alwayssend"].

Definition certpolicy_type_names : enum_names :=
  mk_range 1 (* cert_neversend *)
    3 (* cert_alwayssend *)
    certpolicy_type_name (Z.of_nat (length certpolicy_type_name)) None
  :: [].

Definition oakley_attr_bit_names : list (option string) :=
  [Some "OAKLEY_ENCRYPTION_ALGORITHM"; Some "OAKLEY_HASH_ALGORITHM";
   Some "OAKLEY_AUTHENTICATION_METHOD"; Some "OAKLEY_GROUP_DESCRIPTION";
   Some "OAKLEY_GROUP_TYPE"; Some "OAKLEY_GROUP_PRIME"; Some "OAKLEY_GROUP_GENERATOR_ONE";
   Some "OAKLEY_GROUP_GENERATOR_TWO"; Some "OAKLEY_GROUP_CURVE_A";
   Some "OAKLEY_GROUP_CURVE_B"; Some "OAKLEY_LIFE_TYPE"; Some "OAKLEY_LIFE_DURATION";
   Some "OAKLEY_PRF"; Some "OAKLEY_KEY_LENGTH"; Some "OAKLEY_FIELD_SIZE";
   Some "OAKLEY_GROUP_ORDER"; None].

Definition oakley_var_attr_name : list (option string) :=
  [Some "OAKLEY_GROUP_PRIME (variable length)";
   Some "OAKLEY_GROUP_GENERATOR_ONE (variable length)";
   Some "OAKLEY_GROUP_GENERATOR_TWO (variable length)";
   Some "OAKLEY_GROUP_CURVE_A (variable length)";
   Some "OAKLEY_GROUP_CURVE_B (variable length)"; None;
   Some "OAKLEY_LIFE_DURATION (variable length)"; None; None; None;
   Some "OAKLEY_GROUP_ORDER (variable length)"].

Definition oakley_attr_desc_tv : enum_names :=
  mk_range 32769 (* OAKLEY_ENCRYPTION_ALGORITHM + ISAKMP_ATTR_AF_TV *)
    32784 (* OAKLEY_GROUP_ORDER + ISAKMP_ATTR_AF_TV *)
    oakley_attr_bit_names (Z.of_nat (length oakley_attr_bit_names) - 1) None
  :: [].

Definition oakley_attr_names : enum_names :=
  mk_range 6 (* OAKLEY_GROUP_PRIME *)
    16 (* OAKLEY_GROUP_ORDER *)
    oakley_var_attr_name (Z.of_nat (length oakley_var_attr_name)) None
  :: oakley_attr_desc_tv.

Definition ipsec_attr_name : list (option string) :=
  [Some "SA_LIFE_TYPE"; Some "SA_LIFE_DURATION"; Some "GROUP_DESCRIPTION";
   Some "ENCAPSULATION_MODE"; Some "AUTH_ALGORITHM"; Some "KEY_LENGTH"; Some "KEY_ROUNDS";
   Some "COMPRESS_DICT_SIZE"; Some "COMPRESS_PRIVATE_ALG"].

Definition ipsec_var_attr_name : list (option string) :=
  [None; Some "SA_LIFE_DURATION (variable length)"; None; None; None; None; None; None;
   Some "COMPRESS_PRIVATE_ALG (variable length)"].

Definition ipsec_attr_desc_tv : enum_names :=
  mk_range 32769 (* SA_LIFE_TYPE + ISAKMP_ATTR_AF_TV *)
    32777 (* COMPRESS_PRIVATE_ALG + ISAKMP_ATTR_AF_TV *)
    ipsec_attr_name (Z.of_nat (length ipsec_attr_name)) None
  :: [].

Definition ipsec_attr_names : enum_names :=
  mk_range 1 (* SA_LIFE_TYPE *)
    9 (* COMPRESS_PRIVATE_ALG *)
    ipsec_var_attr_name (Z.of_nat (length ipsec_var_attr_name)) None
  :: ipsec_attr_desc_tv.

Definition sa_lifetime_name : list (option string) :=
  [Some "SA_LIFE_TYPE_SECONDS"; Some "SA_LIFE_TYPE_KBYTES"].

Definition sa_lifetime_names : enum_names :=
  mk_range 1 (* SA_LIFE_TYPE_SECONDS *)
    2 (* SA_LIFE_TYPE_KBYTES *)
    sa_lifetime_name (Z.of_nat (length sa_lifetime_name)) None
  :: [].

Definition enc_rfc_mode_name : list (option string) :=
  [Some "ENCAPSULATION_MODE_TUNNEL"; Some "ENCAPSULATION_MODE_TRANSPORT";
   Some "ENCAPSULATION_MODE_UDP_TUNNEL_RFC"; Some "ENCAPSULATION_MODE_UDP_TRANSPORT_RFC"].

Definition enc_draft_mode_name : list (option string) :=
  [Some "ENCAPSULATION_MODE_UDP_TUNNEL_DRAFTS"; Some "ENCAPSULATION_MODE_UDP_TRANSPORT_DRAFTS"].

Definition enc_rfc_mode_names : enum_names :=
  mk_range 1 (* ENCAPSULATION_MODE_TUNNEL *)
    4 (* ENCAPSULATION_MODE_UDP_TRANSPORT_RFC *)
    enc_rfc_mode_name (Z.of_nat (length enc_rfc_mode_name)) None
  :: [].

Definition enc_mode_names : enum_names :=
  mk_range 61443 (* ENCAPSULATION_MODE_UDP_TUNNEL_DRAFTS *)
    61444 (* ENCAPSULATION_MODE_UDP_TRANSPORT_DRAFTS *)
    enc_draft_mode_name (Z.of_nat (length enc_draft_mode_name)) None
  :: enc_rfc_mode_names.

Definition auth_alg_name_stolen_use : list (option string) :=
  [Some "AUTH_ALGORITHM_AES_CMAC_96"; Some "AUTH_ALGORITHM_NULL_KAME"].

Definition auth_alg_names_stolen_use : enum_names :=
  mk_range 250 (* AUTH_ALGORITHM_AES_CMAC_96 *)
    251 (* AUTH_ALGORITHM_NULL_KAME *)
    auth_alg_name_stolen_use (Z.of_nat (length auth_alg_name_stolen_use)) None
  :: [].

Definition auth_alg_name : list (option string) :=
  [Some "AUTH_ALGORITHM_NONE"; Some "AUTH_ALGORITHM_HMAC_MD5";
   Some "AUTH_ALGORITHM_HMAC_SHA1"; Some "AUTH_ALGORITHM_DES_MAC(UNUSED)";
   Some "AUTH_ALGORITHM_KPDK(UNUSED)"; Some "AUTH_ALGORITHM_HMAC_SHA2_256";
   Some "AUTH_ALGORITHM_HMAC_SHA2_384"; Some "AUTH_ALGORITHM_HMAC_SHA2_512";
   Some "AUTH_ALGORITHM_HMAC_RIPEMD"; Some "AUTH_ALGORITHM_AES_XCBC";
   Some "AUTH_ALGORITHM_SIG_RSA(UNUSED)"; Some "AUTH_ALGORITHM_AES_128_GMAC";
   Some "AUTH_ALGORITHM_AES_192_GMAC"; Some "AUTH_ALGORITHM_AES_256_GMAC"].

Definition auth_alg_names : enum_names :=
  mk_range 0 (* AUTH_ALGORITHM_NONE *)
    13 (* AUTH_ALGORITHM_AES_256_GMAC *)
    auth_alg_name (Z.of_nat (length auth_alg_name)) (Some "AUTH_ALGORITHM_")
  :: auth_alg_names_stolen_use.

Definition xauth_type_name : list (option string) :=
  [Some "Generic"; Some "RADIUS-CHAP"; Some "OTP"; Some "S/KEY"].

Definition xauth_type_names : enum_names :=
  mk_range 0 (* XAUTH_TYPE_GENERIC *)
    3 (* XAUTH_TYPE_SKEY *)
    xauth_type_name (Z.of_nat (length xauth_type_name)) None
  :: [].

Definition modecfg_attr_name_draft : list (option string) :=
  [Some "INTERNAL_IP4_ADDRESS"; Some "INTERNAL_IP4_NETMASK"; Some "INTERNAL_IP4_DNS";
   Some "INTERNAL_IP4_NBNS"; Some "INTERNAL_ADDRESS_EXPIRY"; Some "INTERNAL_IP4_DHCP";
   Some "APPLICATION_VERSION"; Some "INTERNAL_IP6_ADDRESS"; Some "INTERNAL_IP6_NETMASK";
   Some "INTERNAL_IP6_DNS"; Some "INTERNAL_IP6_NBNS"; Some "INTERNAL_IP6_DHCP";
   Some "INTERNAL_IP4_SUBNET"; Some "SUPPORTED_ATTRIBUTES"; Some "INTERNAL_IP6_SUBNET";
   Some "MIP6_HOME_PREFIX"; Some "INTERNAL_IP6_LINK"; Some "INTERNAL_IP6_PREFIX";
   Some "HOME_AGENT_ADDRESS"].

Definition modecfg_cisco_attr_name : list (option string) :=
  [Some "MODECFG_BANNER"; Some "CISCO_SAVE_PW"; Some "MODECFG_DOMAIN"; Some "CISCO_SPLIT_DNS";
   Some "CISCO_SPLIT_INC"; Some "CISCO_UDP_ENCAP_PORT"; Some "CISCO_SPLIT_EXCLUDE";
   Some "CISCO_DO_PFS"; Some "CISCO_FW_TYPE"; Some "CISCO_BACKUP_SERVER";
   Some "CISCO_DDNS_HOSTNAME"; Some "CISCO_UNKNOWN_SEEN_ON_IPHONE"].

Definition modecfg_cisco_attr_names : enum_names :=
  mk_range 28672 (* MODECFG_BANNER *)
    28683 (* CISCO_UNKNOWN_SEEN_ON_IPHONE *)
    modecfg_cisco_attr_name (Z.of_nat (length modecfg_cisco_attr_name)) None
  :: [].

Definition modecfg_microsoft_attr_name : list (option string) :=
  [Some "INTERNAL_IP4_SERVER"; Some "INTERNAL_IP6_SERVER"].

Definition modecfg_microsoft_attr_names : enum_names :=
  mk_range 23456 (* INTERNAL_IP4_SERVER *)
    23457 (* INTERNAL_IP6_SERVER *)
    modecfg_microsoft_attr_name (Z.of_nat (length modecfg_microsoft_attr_name)) None
  :: modecfg_cisco_attr_names.

Definition xauth_attr_name : list (option string) :=
  [Some "XAUTH-TYPE"; Some "XAUTH-USER-NAME"; Some "XAUTH-USER-PASSWORD";
   Some "XAUTH-PASSCODE"; Some "XAUTH-MESSAGE"; Some "XAUTH-CHALLENGE"; Some "XAUTH-DOMAIN";
   Some "XAUTH-STATUS"; Some "XAUTH-NEXT-PIN"; Some "XAUTH-ANSWER"].

Definition xauth_attr_names : enum_names :=
  mk_range 16520 (* XAUTH_TYPE *)
    16529 (* XAUTH_ANSWER *)
    xauth_attr_name (Z.of_nat (length xauth_attr_name)) None
  :: modecfg_microsoft_attr_names.

Definition modecfg_attr_names : enum_names :=
  mk_range 1 (* INTERNAL_IP4_ADDRESS *)
    19 (* HOME_AGENT_ADDRESS *)
    modecfg_attr_name_draft (Z.of_nat (length modecfg_attr_name_draft)) None
  :: xauth_attr_names.

Definition oakley_lifetime_name : list (option string) :=
  [Some "OAKLEY_LIFE_SECONDS"; Some "OAKLEY_LIFE_KILOBYTES"].

Definition oakley_lifetime_names : enum_names :=
  mk_range 1 (* OAKLEY_LIFE_SECONDS *)
    2 (* OAKLEY_LIFE_KILOBYTES *)
    oakley_lifetime_name (Z.of_nat (length oakley_lifetime_name)) None
  :: [].

Definition oakley_prf_names : enum_names :=
  mk_range 1
    0
    [] 0 None
  :: [].

Definition oakley_enc_name : list (option string) :=
  [Some "OAKLEY_DES_CBC(UNUSED)"; Some "OAKLEY_IDEA_CBC(UNUSED)";
   Some "OAKLEY_BLOWFISH_CBC(UNUSED)"; Some "OAKLEY_RC5_R16_B64_CBC(UNUSED)";
   Some "OAKLEY_3DES_CBC"; Some "OAKLEY_CAST_CBC"; Some "OAKLEY_AES_CBC";
   Some "OAKLEY_CAMELLIA_CBC"; Some "UNUSED_9"; Some "UNUSED_10"; Some "UNUSED_11";
   Some "UNUSED_12"; Some "OAKLEY_AES_CTR"; Some "OAKLEY_AES_CCM_A"; Some "OAKLEY_AES_CCM_B";
   Some "OAKLEY_AES_CCM_16"; Some "UNUSED_17"; Some "OAKLEY_AES_GCM_A";
   Some "OAKLEY_AES_GCM_B"; Some "OAKLEY_AES_GCM_C"; Some "UNUSED_21"; Some "UNUSED_22";
   Some "UNUSED_23"; Some "OAKLEY_CAMELLIA_CTR"; Some "OAKLEY_CAMELLIA_CCM_A";
   Some "OAKLEY_CAMELLIA_CCM_B"; Some "OAKLEY_CAMELLIA_CCM_C"].

Definition oakley_enc_name_private_use : list (option string) :=
  [Some "OAKLEY_MARS_CBC"; Some "OAKLEY_RC6_CBC"; Some "OAKLEY_ID_65003";
   Some "OAKLEY_SERPENT_CBC"; Some "OAKLEY_TWOFISH_CBC"].

Definition oakley_enc_name_private_use_ssh : list (option string) :=
  [Some "OAKLEY_TWOFISH_CBC_SSH"].

Definition oakley_enc_names_private_use_ssh : enum_names :=
  mk_range 65289 (* OAKLEY_TWOFISH_CBC_SSH *)
    65289 (* OAKLEY_TWOFISH_CBC_SSH *)
    oakley_enc_name_private_use_ssh (Z.of_nat (length oakley_enc_name_private_use_ssh)) None
  :: [].

Definition oakley_enc_names_private_use : enum_names :=
  mk_range 65001 (* OAKLEY_MARS_CBC *)
    65005 (* OAKLEY_TWOFISH_CBC *)
    oakley_enc_name_private_use (Z.of_nat (length oakley_enc_name_private_use)) None
  :: oakley_enc_names_private_use_ssh.

Definition oakley_enc_names : enum_names :=
  mk_range 1 (* OAKLEY_DES_CBC *)
    27 (* OAKLEY_CAMELLIA_CCM_C *)
    oakley_enc_name (Z.of_nat (length oakley_enc_name)) (Some "OAKLEY_")
  :: oakley_enc_names_private_use.

Definition oakley_hash_name : list (option string) :=
  [Some "OAKLEY_MD5"; Some "OAKLEY_SHA1"; Some "OAKLEY_TIGER(UNUSED)"; Some "OAKLEY_SHA2_256";
   Some "OAKLEY_SHA2_384"; Some "OAKLEY_SHA2_512"].

Definition oakley_hash_names : enum_names :=
  mk_range 1 (* OAKLEY_MD5 *)
    6 (* OAKLEY_SHA2_512 *)
    oakley_hash_name (Z.of_nat (length oakley_hash_name)) (Some "OAKLEY_")
  :: [].

Definition oakley_auth_name : list (option string) :=
  [Some "OAKLEY_PRESHARED_KEY"; Some "OAKLEY_DSS_SIG"; Some "OAKLEY_RSA_SIG";
   Some "OAKLEY_RSA_ENC"; Some "OAKLEY_RSA_REVISED_MODE"; Some "OAKLEY_RESERVED_6";
   Some "OAKLEY_RESERVED_7"; Some "OAKLEY_RESERVED_8"; Some "OAKLEY_ECDSA_P256";
   Some "OAKLEY_ECDSA_P384"; Some "OAKLEY_ECDSA_P521"].

Definition oakley_auth_name_private_use2 : list (option string) :=
  [Some "HybridInitRSA"; Some "HybridRespRSA"; Some "HybridInitDSS"; Some "HybridRespDSS"].

Definition oakley_auth_name_private_use : list (option string) :=
  [Some "XAUTHInitPreShared"; Some "XAUTHRespPreShared"; Some "XAUTHInitDSS";
   Some "XAUTHRespDSS"; Some "XAUTHInitRSA"; Some "XAUTHRespRSA";
   Some "XAUTHInitRSAEncryption"; Some "XAUTHRespRSAEncryption";
   Some "XAUTHInitRSARevisedEncryption"; Some "XAUTHRespRSARevisedEncryption"].

Definition oakley_auth_names_private_use2 : enum_names :=
  mk_range 64221 (* HybridInitRSA *)
    64224 (* HybridRespDSS *)
    oakley_auth_name_private_use2 (Z.of_nat (length oakley_auth_name_private_use2)) None
  :: [].

Definition oakley_auth_names_private_use : enum_names :=
  mk_range 65001 (* XAUTHInitPreShared *)
    65010 (* XAUTHRespRSARevisedEncryption *)
    oakley_auth_name_private_use (Z.of_nat (length oakley_auth_name_private_use)) None
  :: oakley_auth_names_private_use2.

Definition oakley_auth_names : enum_names :=
  mk_range 1 (* OAKLEY_PRESHARED_KEY *)
    11 (* OAKLEY_ECDSA_P521 *)
    oakley_auth_name (Z.of_nat (length oakley_auth_name)) (Some "OAKLEY_")
  :: oakley_auth_names_private_use.

Definition ikev2_cp_attribute_type_name : list (option string) :=
  [Some "IKEv2_CP_ATTR_RESERVED"; Some "IKEv2_INTERNAL_IP4_ADDRESS";
   Some "IKEv2_INTERNAL_IP4_NETMASK"; Some "IKEv2_INTERNAL_IP4_DNS";
   Some "IKEv2_INTERNAL_IP4_NBNS"; Some "IKEv2_CP_ATTRIBUTE_RESERVED_5";
   Some "IKEv2_INTERNAL_IP4_DHCP"; Some "IKEv2_APPLICATION_VERSION";
   Some "IKEv2_INTERNAL_IP6_ADDRESS"; Some "IKEv2_CP_ATTRIBUTE_RESERVED_9";
   Some "IKEv2_INTERNAL_IP6_DNS"; Some "IKEv2_CP_ATTRIBUTE_RESERVED_11";
   Some "IKEv2_INTERNAL_IP6_DHCP"; Some "IKEv2_INTERNAL_IP4_SUBNET";
   Some "IKEv2_SUPPORTED_ATTRIBUTES"; Some "IKEv2_INTERNAL_IP6_SUBNET";
   Some "IKEv2_MIP6_HOME_PREFIX"; Some "IKEv2_INTERNAL_IP6_LINK";
   Some "IKEv2_INTERNAL_IP6_PREFIX"; Some "IKEv2_HOME_AGENT_ADDRESS";
   Some "IKEv2_P_CSCF_IP4_ADDRESS"; Some "IKEv2_P_CSCF_IP6_ADDRESS"; Some "IKEv2_FTT_KAT";
   Some "IKEv2_EXTERNAL_SOURCE_IP4_NAT_INFO"; Some "IKEv2_TIMEOUT_PERIOD_FOR_LIVENESS_CHECK"].

Definition ikev2_cp_attribute_type_names : enum_names :=
  mk_range 0 (* IKEv2_CP_ATTR_RESERVED *)
    24 (* IKEv2_TIMEOUT_PERIOD_FOR_LIVENESS_CHECK *)
    ikev2_cp_attribute_type_name (Z.of_nat (length ikev2_cp_attribute_type_name)) None
  :: [].

Definition ikev2_cp_type_name : list (option string) :=
  [Some "IKEv2_CP_CFG_REQUEST"; Some "IKEv2_CP_CFG_REPLY"; Some "IKEv2_CP_CFG_SET";
   Some "IKEv2_CP_CFG_ACK"].

Definition ikev2_cp_type_names : enum_names :=
  mk_range 1 (* IKEv2_CP_CFG_REQUEST *)
    4 (* IKEv2_CP_CFG_ACK *)
    ikev2_cp_type_name (Z.of_nat (length ikev2_cp_type_name)) None
  :: [].

Definition ikev2_auth_name : list (option string) :=
  [Some "IKEv2_AUTH_RESERVED"; Some "IKEv2_AUTH_RSA"; Some "IKEv2_AUTH_SHARED";
   Some "IKEv2_AUTH_DSA(UNUSED)"; Some "IKEv2_AUTH_UNUSED_4"; Some "IKEv2_AUTH_UNUSED_5";
   Some "IKEv2_AUTH_UNUSED_6"; Some "IKEv2_AUTH_UNUSED_7"; Some "IKEv2_AUTH_UNUSED_8";
   Some "IKEv2_AUTH_ECDSA_P256"; Some "IKEv2_AUTH_ECDSA_P384"; Some "IKEv2_AUTH_ECDSA_P521";
   Some "IKEv2_AUTH_GSPM"; Some "IKEv2_AUTH_NULL"].

Definition ikev2_auth_names : enum_names :=
  mk_range 0 (* IKEv2_AUTH_RESERVED *)
    13 (* IKEv2_AUTH_NULL *)
    ikev2_auth_name (Z.of_nat (length ikev2_auth_name)) None
  :: [].

Definition oakley_group_name : list (option string) :=
  [Some "OAKLEY_GROUP_MODP768"; Some "OAKLEY_GROUP_MODP1024";
   Some "OAKLEY_GROUP_GP155(UNUSED)"; Some "OAKLEY_GROUP_GP185(UNUSED)";
   Some "OAKLEY_GROUP_MODP1536"; Some "OAKLEY_GROUP_EC2N_2_1(UNUSED)";
   Some "OAKLEY_GROUP_EC2N_2_2(UNUSED)"; Some "OAKLEY_GROUP_EC2N_2_3(UNUSED)";
   Some "OAKLEY_GROUP_EC2N_2_4(UNUSED)"; Some "OAKLEY_GROUP_EC2N_2_5(UNUSED)";
   Some "OAKLEY_GROUP_EC2N_2_6(UNUSED)"; Some "OAKLEY_GROUP_EC2N_2_7(UNUSED)";
   Some "OAKLEY_GROUP_EC2N_2_8(UNUSED)"; Some "OAKLEY_GROUP_MODP2048";
   Some "OAKLEY_GROUP_MODP3072"; Some "OAKLEY_GROUP_MODP4096"; Some "OAKLEY_GROUP_MODP6144";
   Some "OAKLEY_GROUP_MODP8192"; Some "OAKLEY_GROUP_ECP_256"; Some "OAKLEY_GROUP_ECP_384";
   Some "OAKLEY_GROUP_ECP_521"; Some "OAKLEY_GROUP_DH22"; Some "OAKLEY_GROUP_DH23";
   Some "OAKLEY_GROUP_DH24"; Some "OAKLEY_GROUP_ECP_192"; Some "OAKLEY_GROUP_ECP_224";
   Some "OAKLEY_GROUP_BRAINPOOL_P224R1"; Some "OAKLEY_GROUP_BRAINPOOL_P256R1";
   Some "OAKLEY_GROUP_BRAINPOOL_P384R1"; Some "OAKLEY_GROUP_BRAINPOOL_P512R1";
   Some "OAKLEY_GROUP_CURVE25519"; Some "OAKLEY_GROUP_CURVE448"].

Definition oakley_group_names : enum_names :=
  mk_range 1 (* OAKLEY_GROUP_MODP768 *)
    32 (* OAKLEY_GROUP_CURVE448 *)
    oakley_group_name (Z.of_nat (length oakley_group_name)) (Some "OAKLEY_GROUP_")
  :: [].

Definition oakley_group_type_name : list (option string) :=
  [Some "OAKLEY_GROUP_TYPE_MODP"; Some "OAKLEY_GROUP_TYPE_ECP"; Some "OAKLEY_GROUP_TYPE_EC2N"].

Definition oakley_group_type_names : enum_names :=
  mk_range 1 (* OAKLEY_GROUP_TYPE_MODP *)
    3 (* OAKLEY_GROUP_TYPE_EC2N *)
    oakley_group_type_name (Z.of_nat (length oakley_group_type_name)) None
  :: [].

Definition ikev1_notify_name : list (option string) :=
  [Some "INVALID_PAYLOAD_TYPE"; Some "DOI_NOT_SUPPORTED"; Some "SITUATION_NOT_SUPPORTED";
   Some "INVALID_COOKIE"; Some "INVALID_MAJOR_VERSION"; Some "INVALID_MINOR_VERSION";
   Some "INVALID_EXCHANGE_TYPE"; Some "INVALID_FLAGS"; Some "INVALID_MESSAGE_ID";
   Some "INVALID_PROTOCOL_ID"; Some "INVALID_SPI"; Some "INVALID_TRANSFORM_ID";
   Some "ATTRIBUTES_NOT_SUPPORTED"; Some "NO_PROPOSAL_CHOSEN"; Some "BAD_PROPOSAL_SYNTAX";
   Some "PAYLOAD_MALFORMED"; Some "INVALID_KEY_INFORMATION"; Some "INVALID_ID_INFORMATION";
   Some "INVALID_CERT_ENCODING"; Some "INVALID_CERTIFICATE"; Some "CERT_TYPE_UNSUPPORTED";
   Some "INVALID_CERT_AUTHORITY"; Some "INVALID_HASH_INFORMATION";
   Some "AUTHENTICATION_FAILED"; Some "INVALID_SIGNATURE"; Some "ADDRESS_NOTIFICATION";
   Some "NOTIFY_SA_LIFETIME"; Some "CERTIFICATE_UNAVAILABLE";
   Some "UNSUPPORTED_EXCHANGE_TYPE"; Some "UNEQUAL_PAYLOAD_LENGTHS"].

Definition ikev1_notify_status_name : list (option string) :=
  [Some "CONNECTED"].

Definition ikev1_ipsec_notify_name : list (option string) :=
  [Some "IPSEC_RESPONDER_LIFETIME"; Some "IPSEC_REPLAY_STATUS"; Some "IPSEC_INITIAL_CONTACT"].

Definition ikev1_notify_cisco_chatter_name : list (option string) :=
  [Some "ISAKMP_N_CISCO_HELLO"; Some "ISAKMP_N_CISCO_WWTEBR"; Some "ISAKMP_N_CISCO_SHUT_UP"].

Definition ikev1_notify_ios_alives_name : list (option string) :=
  [Some "ISAKMP_N_IOS_KEEP_ALIVE_REQ"; Some "ISAKMP_N_IOS_KEEP_ALIVE_ACK"].

Definition ikev1_notify_dpd_name : list (option string) :=
  [Some "R_U_THERE"; Some "R_U_THERE_ACK"].

Definition ikev1_notify_juniper_name : list (option string) :=
  [Some "NETSCREEN_NHTB_INFORM"].

Definition ikev1_notify_cisco_more_name : list (option string) :=
  [Some "ISAKMP_N_CISCO_LOAD_BALANCE"; Some "ISAKMP_N_CISCO_UNKNOWN_40502";
   Some "ISAKMP_N_CISCO_PRESHARED_KEY_HASH"].

Definition ikev1_notify_cisco_more_names : enum_names :=
  mk_range 40501 (* ISAKMP_N_CISCO_LOAD_BALANCE *)
    40503 (* ISAKMP_N_CISCO_PRESHARED_KEY_HASH *)
    ikev1_notify_cisco_more_name (Z.of_nat (length ikev1_notify_cisco_more_name)) None
  :: [].

Definition ikev1_notify_juniper_names : enum_names :=
  mk_range 40001 (* NETSCREEN_NHTB_INFORM *)
    40001 (* NETSCREEN_NHTB_INFORM *)
    ikev1_notify_juniper_name (Z.of_nat (length ikev1_notify_juniper_name)) None
  :: ikev1_notify_cisco_more_names.

Definition ikev1_notify_dpd_names : enum_names :=
  mk_range 36136 (* R_U_THERE *)
    36137 (* R_U_THERE_ACK *)
    ikev1_notify_dpd_name (Z.of_nat (length ikev1_notify_dpd_name)) None
  :: ikev1_notify_juniper_names.

Definition ikev1_notify_ios_alives_names : enum_names :=
  mk_range 32768 (* ISAKMP_N_IOS_KEEP_ALIVE_REQ *)
    32769 (* ISAKMP_N_IOS_KEEP_ALIVE_ACK *)
    ikev1_notify_ios_alives_name (Z.of_nat (length ikev1_notify_ios_alives_name)) None
  :: ikev1_notify_dpd_names.

Definition ikev1_notify_cisco_chatter_names : enum_names :=
  mk_range 30000 (* ISAKMP_N_CISCO_HELLO *)
    30002 (* ISAKMP_N_CISCO_SHUT_UP *)
    ikev1_notify_cisco_chatter_name (Z.of_nat (length ikev1_notify_cisco_chatter_name)) None
  :: ikev1_notify_ios_alives_names.

Definition ikev1_ipsec_notify_names : enum_names :=
  mk_range 24576 (* IPSEC_RESPONDER_LIFETIME *)
    24578 (* IPSEC_INITIAL_CONTACT *)
    ikev1_ipsec_notify_name (Z.of_nat (length ikev1_ipsec_notify_name)) None
  :: ikev1_notify_cisco_chatter_names.

Definition ikev1_notify_status_names : enum_names :=
  mk_range 16384 (* CONNECTED *)
    16384 (* CONNECTED *)
    ikev1_notify_status_name (Z.of_nat (length ikev1_notify_status_name)) None
  :: ikev1_ipsec_notify_names.

Definition ikev1_notify_names : enum_names :=
  mk_range 1 (* INVALID_PAYLOAD_TYPE *)
    30 (* UNEQUAL_PAYLOAD_LENGTHS *)
    ikev1_notify_name (Z.of_nat (length ikev1_notify_name)) None
  :: ikev1_notify_status_names.

Definition ikev2_notify_name_16384 : list (option string) :=
  [Some "v2N_INITIAL_CONTACT"; Some "v2N_SET_WINDOW_SIZE"; Some "v2N_ADDITIONAL_TS_POSSIBLE";
   Some "v2N_IPCOMP_SUPPORTED"; Some "v2N_NAT_DETECTION_SOURCE_IP";
   Some "v2N_NAT_DETECTION_DESTINATION_IP"; Some "v2N_COOKIE"; Some "v2N_USE_TRANSPORT_MODE";
   Some "v2N_HTTP_CERT_LOOKUP_SUPPORTED"; Some "v2N_REKEY_SA";
   Some "v2N_ESP_TFC_PADDING_NOT_SUPPORTED"; Some "v2N_NON_FIRST_FRAGMENTS_ALSO";
   Some "v2N_MOBIKE_SUPPORTED"; Some "v2N_ADDITIONAL_IP4_ADDRESS";
   Some "v2N_ADDITIONAL_IP6_ADDRESS"; Some "v2N_NO_ADDITIONAL_ADDRESSES";
   Some "v2N_UPDATE_SA_ADDRESSES"; Some "v2N_COOKIE2"; Some "v2N_NO_NATS_ALLOWED";
   Some "v2N_AUTH_LIFETIME"; Some "v2N_MULTIPLE_AUTH_SUPPORTED";
   Some "v2N_ANOTHER_AUTH_FOLLOWS"; Some "v2N_REDIRECT_SUPPORTED"; Some "v2N_REDIRECT";
   Some "v2N_REDIRECTED_FROM"; Some "v2N_TICKET_LT_OPAQUE"; Some "v2N_TICKET_REQUEST";
   Some "v2N_TICKET_ACK"; Some "v2N_TICKET_NACK"; Some "v2N_TICKET_OPAQUE";
   Some "v2N_LINK_ID"; Some "v2N_USE_WESP_MODE"; Some "v2N_ROHC_SUPPORTED";
   Some "v2N_EAP_ONLY_AUTHENTICATION"; Some "v2N_CHILDLESS_IKEV2_SUPPORTED";
   Some "v2N_QUICK_CRASH_DETECTION"; Some "v2N_IKEV2_MESSAGE_ID_SYNC_SUPPORTED";
   Some "v2N_IPSEC_REPLAY_COUNTER_SYNC_SUPPORTED"; Some "v2N_IKEV2_MESSAGE_ID_SYNC";
   Some "v2N_IPSEC_REPLAY_COUNTER_SYNC"; Some "v2N_SECURE_PASSWORD_METHODS";
   Some "v2N_PSK_PERSIST"; Some "v2N_PSK_CONFIRM"; Some "v2N_ERX_SUPPORTED";
   Some "v2N_IFOM_CAPABILITY"; Some "v2N_SENDER_REQUEST_ID";
   Some "v2N_IKEV2_FRAGMENTATION_SUPPORTED"; Some "v2N_SIGNATURE_HASH_ALGORITHMS"].

Definition ikev2_notify_names_16384 : enum_names :=
  mk_range 16384 (* v2N_INITIAL_CONTACT *)
    16431 (* v2N_SIGNATURE_HASH_ALGORITHMS *)
    ikev2_notify_name_16384 (Z.of_nat (length ikev2_notify_name_16384)) None
  :: [].

Definition ikev2_notify_name : list (option string) :=
  [Some "v2N_RESERVED"; Some "v2N_UNSUPPORTED_CRITICAL_PAYLOAD"; Some "v2N_UNUSED_2";
   Some "v2N_UNUSED_3"; Some "v2N_INVALID_IKE_SPI"; Some "v2N_INVALID_MAJOR_VERSION";
   Some "v2N_UNUSED_6"; Some "v2N_INVALID_SYNTAX"; Some "v2N_UNUSED_8";
   Some "v2N_INVALID_MESSAGE_ID"; Some "v2N_UNUSED_10"; Some "v2N_INVALID_SPI";
   Some "v2N_UNUSED_12"; Some "v2N_UNUSED_13"; Some "v2N_NO_PROPOSAL_CHOSEN";
   Some "v2N_UNUSED_15"; Some "v2N_UNUSED_16"; Some "v2N_INVALID_KE_PAYLOAD";
   Some "v2N_UNUSED_18"; Some "v2N_UNUSED_19"; Some "v2N_UNUSED_20"; Some "v2N_UNUSED_21";
   Some "v2N_UNUSED_22"; Some "v2N_UNUSED_23"; Some "v2N_AUTHENTICATION_FAILED";
   Some "v2N_UNUSED_25"; Some "v2N_UNUSED_26"; Some "v2N_UNUSED_27"; Some "v2N_UNUSED_28";
   Some "v2N_UNUSED_29"; Some "v2N_UNUSED_30"; Some "v2N_UNUSED_31"; Some "v2N_UNUSED_32";
   Some "v2N_UNUSED_33"; Some "v2N_SINGLE_PAIR_REQUIRED"; Some "v2N_NO_ADDITIONAL_SAS";
   Some "v2N_INTERNAL_ADDRESS_FAILURE"; Some "v2N_FAILED_CP_REQUIRED";
   Some "v2N_TS_UNACCEPTABLE"; Some "v2N_INVALID_SELECTORS";
   Some "v2N_UNACCEPTABLE_ADDRESSES"; Some "v2N_UNEXPECTED_NAT_DETECTED";
   Some "v2N_USE_ASSIGNED_HoA"; Some "v2N_TEMPORARY_FAILURE"; Some "v2N_CHILD_SA_NOT_FOUND";
   Some "v2N_INVALID_GROUP_ID"; Some "v2N_AUTHORIZATION_FAILED"].

Definition ikev2_notify_names : enum_names :=
  mk_range 0 (* v2N_NOTHING_WRONG *)
    46 (* v2N_AUTHORIZATION_FAILED *)
    ikev2_notify_name (Z.of_nat (length ikev2_notify_name)) None
  :: ikev2_notify_names_16384.

Definition ikev2_ts_type_name : list (option string) :=
  [Some "IKEv2_TS_IPV4_ADDR_RANGE"; Some "IKEv2_TS_IPV6_ADDR_RANGE";
   Some "IKEv2_TS_FC_ADDR_RANGE"].

Definition ikev2_ts_type_names : enum_names :=
  mk_range 7 (* IKEv2_TS_IPV4_ADDR_RANGE *)
    9 (* IKEv2_TS_FC_ADDR_RANGE *)
    ikev2_ts_type_name (Z.of_nat (length ikev2_ts_type_name)) None
  :: [].

Definition attr_msg_type_name : list (option string) :=
  [Some "ISAKMP_CFG_REQUEST"; Some "ISAKMP_CFG_REPLY"; Some "ISAKMP_CFG_SET";
   Some "ISAKMP_CFG_ACK"].

Definition attr_msg_type_names : enum_names :=
  mk_range 1 (* ISAKMP_CFG_REQUEST *)
    4 (* ISAKMP_CFG_ACK *)
    attr_msg_type_name (Z.of_nat (length attr_msg_type_name)) None
  :: [].

Definition critical_names : list (option string) :=
  [Some "RESERVED bit 0"; Some "RESERVED bit 1"; Some "RESERVED bit 2"; Some "RESERVED bit 3";
   Some "RESERVED bit 4"; Some "RESERVED bit 5"; Some "RESERVED bit 6"; Some "PAYLOAD_CRITICAL"].

Definition ikev2_sec_proto_id_name : list (option string) :=
  [Some "IKEv2_SEC_PROTO_IKE"; Some "IKEv2_SEC_PROTO_AH"; Some "IKEv2_SEC_PROTO_ESP";
   Some "IKEv2_SEC_FC_ESP_HEADER"; Some "IKEv2_SEC_FC_CT_AUTHENTICATION"].

Definition ikev2_sec_proto_id_names : enum_names :=
  mk_range 1 (* IKEv2_SEC_PROTO_IKE *)
    5 (* IKEv2_SEC_FC_CT_AUTHENTICATION *)
    ikev2_sec_proto_id_name (Z.of_nat (length ikev2_sec_proto_id_name)) (Some "IKEv2_SEC_PROTO_")
  :: [].

Definition ikev2_trans_type_encr_name_private_use2 : list (option string) :=
  [Some "TWOFISH_CBC_SSH"].

Definition ikev2_trans_type_encr_name_private_use1 : list (option string) :=
  [Some "SERPENT_CBC"; Some "TWOFISH_CBC"].

Definition ikev2_trans_type_encr_name : list (option string) :=
  [Some "DES_IV64(UNUSED)"; Some "DES(UNUSED)"; Some "3DES"; Some "RC5(UNUSED)";
   Some "IDEA(UNUSED)"; Some "CAST"; Some "BLOWFISH(UNUSED)"; Some "3IDEA(UNUSED)";
   Some "DES_IV32(UNUSED)"; Some "RES10(UNUSED)"; Some "NULL"; Some "AES_CBC"; Some "AES_CTR";
   Some "AES_CCM_A"; Some "AES_CCM_B"; Some "AES_CCM_C"; Some "UNASSIGNED(UNUSED)";
   Some "AES_GCM_A"; Some "AES_GCM_B"; Some "AES_GCM_C"; Some "NULL_AUTH_AES_GMAC";
   Some "RESERVED_FOR_IEEE_P1619_XTS_AES(UNUSED)"; Some "CAMELLIA_CBC"; Some "CAMELLIA_CTR";
   Some "CAMELLIA_CCM_A"; Some "CAMELLIA_CCM_B"; Some "CAMELLIA_CCM_C";
   Some "CHACHA20_POLY1305"].

Definition ikev2_trans_type_encr_names_private_use2 : enum_names :=
  mk_range 65289 (* OAKLEY_TWOFISH_CBC_SSH *)
    65289 (* OAKLEY_TWOFISH_CBC_SSH *)
    ikev2_trans_type_encr_name_private_use2 (Z.of_nat (length ikev2_trans_type_encr_name_private_use2)) None
  :: [].

Definition ikev2_trans_type_encr_names_private_use1 : enum_names :=
  mk_range 65004 (* OAKLEY_SERPENT_CBC *)
    65005 (* OAKLEY_TWOFISH_CBC *)
    ikev2_trans_type_encr_name_private_use1 (Z.of_nat (length ikev2_trans_type_encr_name_private_use1)) None
  :: ikev2_trans_type_encr_names_private_use2.

Definition ikev2_trans_type_encr_names : enum_names :=
  mk_range 1 (* IKEv2_ENCR_DES_IV64 *)
    28 (* IKEv2_ENCR_CHACHA20_POLY1305 *)
    ikev2_trans_type_encr_name (Z.of_nat (length ikev2_trans_type_encr_name)) None
  :: ikev2_trans_type_encr_names_private_use1.

Definition ikev2_trans_type_prf_name : list (option string) :=
  [Some "PRF_HMAC_MD5"; Some "PRF_HMAC_SHA1"; Some "PRF_HMAC_TIGER"; Some "PRF_AES128_XCBC";
   Some "PRF_HMAC_SHA2_256"; Some "PRF_HMAC_SHA2_384"; Some "PRF_HMAC_SHA2_512";
   Some "PRF_AES128_CMAC"].

Definition ikev2_trans_type_prf_names : enum_names :=
  mk_range 1 (* IKEv2_PRF_HMAC_MD5 *)
    8 (* IKEv2_PRF_AES128_CMAC *)
    ikev2_trans_type_prf_name (Z.of_nat (length ikev2_trans_type_prf_name)) (Some "PRF_")
  :: [].

Definition ikev2_trans_type_integ_name : list (option string) :=
  [Some "AUTH_NONE"; Some "AUTH_HMAC_MD5_96"; Some "AUTH_HMAC_SHA1_96";
   Some "AUTH_DES_MAC(UNUSED)"; Some "AUTH_KPDK_MD5(UNUSED)"; Some "AUTH_AES_XCBC_96";
   Some "AUTH_HMAC_MD5_128"; Some "AUTH_HMAC_SHA1_160"; Some "AUTH_AES_CMAC_96";
   Some "AUTH_AES_128_GMAC"; Some "AUTH_AES_192_GMAC"; Some "AUTH_AES_256_GMAC";
   Some "AUTH_HMAC_SHA2_256_128"; Some "AUTH_HMAC_SHA2_384_192"; Some "AUTH_HMAC_SHA2_512_256"].

Definition ikev2_trans_type_integ_names : enum_names :=
  mk_range 0 (* IKEv2_AUTH_NONE *)
    14 (* IKEv2_AUTH_HMAC_SHA2_512_256 *)
    ikev2_trans_type_integ_name (Z.of_nat (length ikev2_trans_type_integ_name)) (Some "AUTH_")
  :: [].

Definition ikev2_trans_type_esn_name : list (option string) :=
  [Some "ESN_DISABLED"; Some "ESN_ENABLED"].

Definition ikev2_trans_type_esn_names : enum_names :=
  mk_range 0 (* IKEv2_ESN_DISABLED *)
    1 (* IKEv2_ESN_ENABLED *)
    ikev2_trans_type_esn_name (Z.of_nat (length ikev2_trans_type_esn_name)) (Some "ESN_")
  :: [].

Definition ikev2_trans_type_name : list (option string) :=
  [Some "TRANS_TYPE_ENCR"; Some "TRANS_TYPE_PRF"; Some "TRANS_TYPE_INTEG";
   Some "TRANS_TYPE_DH"; Some "TRANS_TYPE_ESN"].

Definition ikev2_trans_type_names : enum_names :=
  mk_range 1 (* IKEv2_TRANS_TYPE_ENCR *)
    5 (* IKEv2_TRANS_TYPE_ESN *)
    ikev2_trans_type_name (Z.of_nat (length ikev2_trans_type_name)) (Some "TRANS_TYPE_")
  :: [].

Definition ikev2_trans_attr_name : list (option string) :=
  [Some "IKEv2_KEY_LENGTH"].

Definition ikev2_trans_attr_descs : enum_names :=
  mk_range 32782 (* IKEv2_KEY_LENGTH + ISAKMP_ATTR_AF_TV *)
    32782 (* IKEv2_KEY_LENGTH + ISAKMP_ATTR_AF_TV *)
    ikev2_trans_attr_name (Z.of_nat (length ikev2_trans_attr_name)) None
  :: [].

Definition ppk_name : list (option string) :=
  [Some "PPK_PSK"; Some "PPK_RSA"; Some "PPK_XAUTH"; Some "PPK_NULL"].

Definition ppk_names : enum_names :=
  mk_range 1 (* PPK_PSK *)
    4 (* PPK_NULL *)
    ppk_name (Z.of_nat (length ppk_name)) None
  :: [].

Definition spi_name : list (option string) :=
  [Some "%pass"; Some "%drop"; Some "%reject"; Some "%hold"; Some "%trap"; Some "%trapsubnet"].

Definition spi_names : enum_names :=
  mk_range 256 (* SPI_PASS *)
    261 (* SPI_TRAPSUBNET *)
    spi_name (Z.of_nat (length spi_name)) (Some "%")
  :: [].

(** For each IKEv2 transform type, the table of its transform IDs. *)
Definition ikev2_transid_val_descs : list enum_names :=
  [ikev2_trans_type_encr_names; ikev2_trans_type_prf_names;
   ikev2_trans_type_integ_names; oakley_group_names; ikev2_trans_type_esn_names].

Definition v2_transform_ID_enums : enum_enum_names :=
  mk_een 1 (* IKEv2_TRANS_TYPE_ENCR *) 5 (* IKEv2_TRANS_TYPE_ESN *)
    ikev2_transid_val_descs (Z.of_nat (length ikev2_transid_val_descs)).

(** For each Oakley and IPsec attribute, the table of its values, if any. *)
Definition oakley_attr_val_descs : list (option enum_names) :=
  [None; Some oakley_enc_names; Some oakley_hash_names; Some oakley_auth_names;
   Some oakley_group_names; Some oakley_group_type_names; None; None; None; None; None;
   Some oakley_lifetime_names; None; Some oakley_prf_names; None; None; None].

Definition ipsec_attr_val_descs : list (option enum_names) :=
  [None; Some sa_lifetime_names; None; Some oakley_group_names; Some enc_mode_names;
   Some auth_alg_names; None; None; None; None].

(** The registry of tables that are checked at startup. *)
Definition en_checklist : list enum_names :=
  [version_names; doi_names; connection_kind_names; ikev1_payload_names; ikev2_payload_names;
   payload_names_ikev1orv2; ikev2_last_proposal_desc; ikev1_exchange_names;
   exchange_names_ikev1orv2; ikev1_protocol_names; ikev2_protocol_names;
   ikev2_del_protocol_names; isakmp_transformid_names; ah_transformid_names;
   esp_transformid_names; ipcomp_transformid_names; ike_idtype_names; ikev2_idtype_names;
   ike_cert_type_names; ikev2_cert_type_names; certpolicy_type_names; oakley_attr_names;
   ipsec_attr_names; sa_lifetime_names; enc_mode_names; auth_alg_names; xauth_type_names;
   modecfg_attr_names; oakley_lifetime_names; oakley_prf_names; oakley_enc_names;
   oakley_hash_names; oakley_auth_names; ikev2_cp_attribute_type_names; ikev2_cp_type_names;
   ikev2_auth_names; oakley_group_names; oakley_group_type_names; ikev1_notify_names;
   ikev2_notify_names; ikev2_ts_type_names; attr_msg_type_names; ikev2_sec_proto_id_names;
   ikev2_trans_type_encr_names; ikev2_trans_type_prf_names; ikev2_trans_type_integ_names;
   ikev2_trans_type_esn_names; ikev2_trans_type_names; ikev2_trans_attr_descs; ppk_names].

(** The table checks of [init_constants]. *)
Definition init_constants_tables {E} : outcome E unit :=
  check_enum_names en_checklist ;;
  enum_enum_table v2_transform_ID_enums (u64 (-42)) ;;
  Ok tt.
