(* ===== verification/EnumTheorems.v ===== *)
(** What the name tables of lib/libswan/constants.c promise to their users: lookups in the
    registered tables never abort, searching and naming are inverse to each other, and the
    bit-set routines do what their names say. *)
From S2P Require Import Prelude EnumNames Constants.

Section Search.
Context {E : Type}.

(** The inner loop finds the first name of the range that matches, if there is one. *)
Lemma enum_search_range_spec p s fuel : forall en,
  wf_range p = true -> en_first p <= en -> en_last p - en + 1 <= Z.of_nat fuel ->
  (exists v n, @enum_search_range E fuel p en s = Ok (Some v) /\ en <= v <= en_last p /\
     @name_at E (en_names p) (v - en_first p) = Ok (Some n) /\ strcaseeq n s = true) \/
  (@enum_search_range E fuel p en s = Ok None /\
   forall v n, en <= v <= en_last p -> @name_at E (en_names p) (v - en_first p) = Ok (Some n) ->
     strcaseeq n s = false).
Proof.
  induction fuel as [|fuel IH]; intros en Hp Hen Hf; cbn [enum_search_range].
  { right. split; [done|]. intros; lia. }
  destruct (Z.leb_spec en (en_last p)) as [Hle|Hgt]; [|right; split; [done|intros; lia]].
  destruct (@name_at_total E p en Hp ltac:(lia)) as [o Ho]. rewrite Ho, bind_Ok.
  assert (forall n, o = Some n -> strcaseeq n s = true -> en <= INT_MAX) as Hmax.
  { intros _ _ _. unfold wf_range in Hp. rewrite !andb_true_iff, !Z.leb_le in Hp. lia. }
  assert ((forall n, o = Some n -> strcaseeq n s = false) ->
    (exists v n, @enum_search_range E fuel p (en + 1) s = Ok (Some v) /\ en <= v <= en_last p /\
       @name_at E (en_names p) (v - en_first p) = Ok (Some n) /\ strcaseeq n s = true) \/
    (@enum_search_range E fuel p (en + 1) s = Ok None /\
     forall v n, en <= v <= en_last p -> @name_at E (en_names p) (v - en_first p) = Ok (Some n) ->
       strcaseeq n s = false)) as Hnext.
  { intros Hno. destruct (IH (en + 1) Hp ltac:(lia) ltac:(lia)) as [(v&n&H1&H2&H3)|[H1 H2]].
    - left. exists v, n. split; [done|]. split; [lia|done].
    - right. split; [done|]. intros v n Hv Hn. destruct (decide (v = en)) as [->|].
      + rewrite Ho in Hn. injection Hn as ->. auto.
      + apply (H2 v); [lia|done]. }
  destruct o as [n|]; [|by apply Hnext]. destruct (strcaseeq n s) eqn:Es.
  - left. exists en, n. unfold passert. rewrite (proj2 (Z.leb_le _ _)) by eauto.
    split; [done|]. split; [lia|done].
  - apply Hnext. by intros ? [= <-].
Qed.

Lemma enum_name_next p next v :
  range_ok p = true -> ~ (en_first p <= v <= en_last p) ->
  @enum_name E (p :: next) v = enum_name next v.
Proof.
  intros Hp Hv. cbn [enum_name]. rewrite Hp. cbn [passert]. rewrite bind_Ok.
  destruct (Z.leb_spec (en_first p) v), (Z.leb_spec v (en_last p)); try done. lia.
Qed.

Lemma enum_name_here p next v :
  range_ok p = true -> en_first p <= v <= en_last p ->
  @enum_name E (p :: next) v = name_at (en_names p) (v - en_first p).
Proof.
  intros Hp [H1 H2]. cbn [enum_name]. rewrite Hp. cbn [passert]. rewrite bind_Ok.
  by rewrite (proj2 (Z.leb_le _ _) H1), (proj2 (Z.leb_le _ _) H2).
Qed.

(** The value is covered by one of the ranges. *)
Lemma enum_name_covered ed v n :
  wf_chain ed = true -> @enum_name E ed v = Ok (Some n) ->
  exists p, p ∈ ed /\ en_first p <= v <= en_last p.
Proof.
  induction ed as [|p next IH]; cbn [wf_chain forallb]; [done|]. rewrite andb_true_iff. intros [Hp Hn] Hv.
  destruct (decide (en_first p <= v <= en_last p)) as [?|Hno].
  - exists p. split; [by apply list_elem_of_here|done].
  - rewrite enum_name_next in Hv by (done || by apply wf_range_ok).
    destruct (IH Hn Hv) as (q&?&?). exists q. split; [by apply list_elem_of_further|done].
Qed.

(** A search finds a value under a name that matches, or there is none. *)
Lemma enum_search_spec ed s :
  wf_chain ed = true -> disjoint_chain ed = true ->
  exists r, @enum_search E ed s = Ok r /\
    ((0 <= r /\ exists n, @enum_name E ed r = Ok (Some n) /\ strcaseeq n s = true) \/
     (r = -1 /\ forall v n, @enum_name E ed v = Ok (Some n) -> strcaseeq n s = false)).
Proof.
  induction ed as [|p next IH]; cbn [wf_chain forallb disjoint_chain].
  { exists (-1). split; [done|]. right. split; [done|]. done. }
  rewrite !andb_true_iff. intros [Hp Hn] [Hd Hdn]. cbn [enum_search].
  pose proof (wf_range_ok _ Hp) as Hok. rewrite Hok. cbn [passert]. rewrite bind_Ok.
  assert (0 <= en_first p) as H0 by (unfold wf_range in Hp; rewrite !andb_true_iff, !Z.leb_le in Hp; lia).
  destruct (enum_search_range_spec p s (range_count p) (en_first p) Hp ltac:(lia)) as
    [(v&n&->&Hv&Hname&Hs)|[-> Hno]]; [unfold range_count; lia| |]; rewrite bind_Ok.
  { exists v. split; [done|]. left. split; [lia|]. exists n. by rewrite enum_name_here. }
  destruct (IH Hn Hdn) as (r&->&Hr). exists r. split; [done|]. destruct Hr as [(Hr0&n&Hname&Hs)|[-> Hall]].
  - left. split; [done|]. exists n. rewrite enum_name_next; [done|done|].
    destruct (enum_name_covered next r n Hn Hname) as (q&Hq&Hqr). rewrite forallb_forall in Hd.
    apply list_elem_of_In in Hq. specialize (Hd q Hq). lia.
  - right. split; [done|]. intros v n Hv. destruct (decide (en_first p <= v <= en_last p)) as [Hin|Hout].
    + rewrite enum_name_here in Hv by done. by apply (Hno v).
    + rewrite enum_name_next in Hv by done. by apply (Hall v).
Qed.

End Search.

(** No lookup in a table of the startup registry can abort, for any value and any
    name: [enum_name] always answers, [enum_search] finds a value exactly when some value
    has a name equal up to case, and the value found carries such a name; the startup check
    [init_constants] makes of the tables passes. *)
Theorem registry_lookups (ed : enum_names) (Hed : ed ∈ en_checklist) :
  (forall val, exists n, @enum_name string ed val = Ok n) /\
  (forall s, exists r, @enum_search string ed s = Ok r /\
    ((0 <= r /\ exists n, @enum_name string ed r = Ok (Some n) /\ strcaseeq n s = true) \/
     (r = -1 /\ forall v n, @enum_name string ed v = Ok (Some n) -> strcaseeq n s = false))) /\
  @init_constants_tables string = Ok tt.
Proof.
  assert (Forall (fun ed => wf_chain ed = true /\ disjoint_chain ed = true) en_checklist) as H.
  { apply (bool_decide_eq_true_1 _). vm_compute. reflexivity. }
  rewrite Forall_forall in H. destruct (H ed Hed) as [Hw Hd].
  split; [intros val; by apply enum_name_total|]. split; [intros s; by apply enum_search_spec|].
  vm_compute. reflexivity.
Qed.

Lemma registry_lookups_witness :
  (exists r, @enum_search string ike_idtype_names "id_fqdn" = Ok r /\ r = 2).
Proof.
  destruct (registry_lookups ike_idtype_names) as (_&Hs&_).
  - apply (bool_decide_eq_true_1 _). vm_compute. reflexivity.
  - destruct (Hs "id_fqdn") as (r&Hr&_). exists r. split; [exact Hr|].
    assert (@enum_search string ike_idtype_names "id_fqdn" = Ok 2) as E by (vm_compute; reflexivity).
    congruence.
Defined.

(** On a table that ends in NULL, [testset] always answers, and says yes exactly when
    every bit of the value has a non-empty name before the NULL. *)
Theorem testset_correct (t : list (option string)) (v : Z) (Hv : 0 <= v) (Ht : None ∈ t) :
  exists r, @testset string t v = Ok r /\ (r = true <-> bits_named t v 0).
Proof.
  destruct (@testset_total string t (Z.log2 v + 1) v) as [r Hr].
  - split; [done|]. destruct (decide (v = 0)) as [->|]; [done|]. apply Z.log2_lt_pow2; lia.
  - apply orb_true_iff. left. apply existsb_exists. exists None. split; [by apply list_elem_of_In|done].
  - exists r. split; [done|]. by apply (@testset_spec string).
Qed.

Lemma testset_correct_witness :
  exists r, @testset string [Some "a"; Some "b"; None] 3 = Ok r /\
    (r = true <-> bits_named [Some "a"; Some "b"; None] 3 0).
Proof. apply testset_correct; [lia|]. apply (bool_decide_eq_true_1 _). reflexivity. Defined.
