(* ===== verification/Packet.v ===== *)
(** Packet marshalling: programs/pluto/packet.c (the routines, lines 1260-2077)
    and packet.h (descriptors and packet byte streams).

    A packet byte stream (PBS) is a window on memory, with a cursor; an output
    stream for a nested object points back at the stream that contains it, and
    closing it moves the container's cursor.  The model keeps that sharing: a
    [pstate] holds the memory and the live [pb_stream]s, named by identifiers
    that play the part of their addresses. *)
From S2P Require Import Prelude EnumNames.

Inductive field_type :=
  | ft_mbz | ft_nat | ft_len | ft_lv | ft_enum | ft_loose_enum
  | ft_loose_enum_enum | ft_af_enum | ft_af_loose_enum | ft_set | ft_raw
  | ft_zig | ft_end.

#[export] Instance field_type_eq_dec : EqDecision field_type.
Proof. solve_decision. Defined.

(** The "cheap union" that a field descriptor's [desc] is. *)
Inductive field_names :=
  | FN_null
  | FN_enum (e : enum_names)
  | FN_enum_enum (e : enum_enum_names)
  | FN_set (t : list (option string)).

Record field_desc := mk_fd {
  fd_type : field_type;
  fd_size : Z;
  fd_name : option string;
  fd_desc : field_names
}.

#[export] Instance field_names_eq_dec : EqDecision field_names.
Proof. solve_decision. Defined.
#[export] Instance field_desc_eq_dec : EqDecision field_desc.
Proof. solve_decision. Defined.

Record struct_desc := mk_sd {
  sd_name : string;
  sd_fields : list field_desc;
  sd_size : Z
}.

#[export] Instance struct_desc_eq_dec : EqDecision struct_desc.
Proof. solve_decision. Defined.

(** A member of a host structure: a number in host order, or bytes kept in
    network order.  A structure is the list of its members, one per field. *)
Inductive fval :=
  | FNum (n : Z)
  | FBytes (bs : list Z).

#[export] Instance fval_eq_dec : EqDecision fval.
Proof. solve_decision. Defined.

Record pb_stream := mk_pbs {
  container : option nat;
  pbs_desc : option struct_desc;
  pbs_name : string;
  start : Z;
  cur : Z;
  roof : Z;
  lenfld : option (Z * field_desc)
}.

Record pstate := mk_ps {
  ps_mem : mem;
  ps_pbs : gmap nat pb_stream
}.

(** Why a routine returned FALSE, one constructor per diagnostic. *)
Inductive diag :=
  | no_room_in (sd : string)
  | no_room_out (sd : string)
  | len_too_small (f : option string) (sd : string)
  | len_too_large (f : option string) (sd : string)
  | unknown_value (f : option string) (sd : string) (n : Z)
  | unknown_type (f : option string) (sd : string) (n : Z)
  | unknown_members (f : option string) (sd : string) (n : Z)
  | not_enough_bytes (name : string)
  | no_room_raw (name : string).

#[export] Instance diag_eq_dec : EqDecision diag.
Proof. solve_decision. Defined.

(** The macros of packet.h: differences of pointers, cast to [size_t]. *)
Definition pbs_offset (p : pb_stream) : Z := u64 (cur p - start p).
Definition pbs_room (p : pb_stream) : Z := u64 (roof p - start p).
Definition pbs_left (p : pb_stream) : Z := u64 (roof p - cur p).

Definition set_cur (c : Z) (p : pb_stream) : pb_stream :=
  mk_pbs (container p) (pbs_desc p) (pbs_name p) (start p) c (roof p) (lenfld p).

Definition get_pbs {E} (st : pstate) (i : nat) : outcome E pb_stream :=
  defined (ps_pbs st !! i).
Definition put_pbs (i : nat) (p : pb_stream) (st : pstate) : pstate :=
  mk_ps (ps_mem st) (<[i := p]> (ps_pbs st)).
Definition put_mem (m : mem) (st : pstate) : pstate := mk_ps m (ps_pbs st).

Definition init_pbs (st len : Z) (name : string) : pb_stream :=
  mk_pbs None None name st st (st + len) None.

(** [init_out_pbs]: as [init_pbs], and the buffer is scribbled on. *)
Definition init_out_pbs (i : nat) (a len : Z) (name : string) (st : pstate)
  : outcome diag pstate :=
  m ← defined (store_bytes (ps_mem st) a (replicate (Z.to_nat len) 0xFA));
  Ok (put_pbs i (init_pbs a len name) (put_mem m st)).

Definition ISAKMP_ATTR_AF_MASK : Z := 0x8000.
Definition ISAKMP_ATTR_AF_TV : Z := 0x8000.

Definition enum_of (fp : field_desc) : enum_names :=
  match fd_desc fp with FN_enum e => e | _ => [] end.

(** State of the field loop that [in_struct] and [out_struct] share: whether an
    attribute was announced as TV, and the last enumeration value. *)
Record fstate := mk_fs { immediate : bool; last_enum : Z }.

Section Checkers.
(** The checks report through their result, never as an error of their own. *)
Context {E : Type}.

Definition enum_enum_checker (sd : struct_desc) (fp : field_desc) (last_enum : Z)
  : outcome E (option diag) :=
  match fd_desc fp with
  | FN_enum_enum e =>
      ed ← enum_enum_table e last_enum;
      Ok (match ed with
          | None => Some (unknown_type (fd_name fp) (sd_name sd) last_enum)
          | Some _ => None
          end)
  | _ => Abort
  end.

Definition is_af_tv (n : Z) : bool :=
  Z.land n ISAKMP_ATTR_AF_MASK =? ISAKMP_ATTR_AF_TV.

Definition enum_check (sd : struct_desc) (fp : field_desc) (n : Z)
  : outcome E (option diag) :=
  nm ← enum_name (enum_of fp) n;
  Ok (match nm with
      | None => Some (unknown_value (fd_name fp) (sd_name sd) n)
      | Some _ => None
      end).

(** The inner switch on the value [n] of a numeric field, without its length
    case: the same code in [in_struct] and in [out_struct].  It returns [ugh]. *)
Definition check_value (sd : struct_desc) (fp : field_desc) (fs : fstate) (n : Z)
  : outcome E (option diag * fstate) :=
  match fd_type fp with
  | ft_af_loose_enum =>
      Ok (None, mk_fs (immediate fs || is_af_tv n) (last_enum fs))
  | ft_af_enum =>
      ugh ← enum_check sd fp n;
      Ok (ugh, mk_fs (immediate fs || is_af_tv n) n)
  | ft_enum =>
      ugh ← enum_check sd fp n;
      Ok (ugh, mk_fs (immediate fs) n)
  | ft_loose_enum => Ok (None, mk_fs (immediate fs) n)
  | ft_loose_enum_enum =>
      ugh ← enum_enum_checker sd fp (last_enum fs);
      Ok (ugh, fs)
  | ft_set =>
      match fd_desc fp with
      | FN_set t =>
          known ← testset t n;
          Ok (if known : bool then None
              else Some (unknown_members (fd_name fp) (sd_name sd) n), fs)
      | _ => Abort
      end
  | _ => Ok (None, fs)
  end.

End Checkers.

(** The widths [in_struct] and [out_struct] know; any other is a [bad_case]. *)
Definition width_ok (i : Z) : bool := (i =? 1) || (i =? 2) || (i =? 4).

(** [n = (n << BITS_PER_BYTE) | *cur++] over [i] bytes, in a [u_int32_t]. *)
Definition net_value (bs : list Z) : Z :=
  fold_left (fun n b => Z.lor (u32 (Z.shiftl n 8)) b) bs 0.

(** ** Input *)

Record in_acc := mk_ia {
  ia_cur : Z;
  ia_roof : Z;
  ia_fs : fstate;
  ia_out : list fval
}.

(** The length cases of the inner switch: where the object ends. *)
Definition in_length (sd : struct_desc) (fp : field_desc) (ins : pb_stream)
    (fs : fstate) (n rf : Z) : option diag * Z :=
  let len :=
    match fd_type fp with
    | ft_len => n
    | _ => if immediate fs then sd_size sd else u32 (n + sd_size sd)
    end in
  if len <? sd_size sd then (Some (len_too_small (fd_name fp) (sd_name sd)), rf)
  else if pbs_left ins <? len then (Some (len_too_large (fd_name fp) (sd_name sd)), rf)
  else (None, cur ins + len).

(** A numeric field: grab [fd_size] bytes, check the value, deposit it. *)
Definition in_number (m : mem) (sd : struct_desc) (ins : pb_stream)
    (fp : field_desc) (a : in_acc) : outcome diag in_acc :=
  bs ← defined (load_bytes m (ia_cur a) (Z.to_nat (fd_size fp)));
  let n := net_value bs in
  '(ugh, rf, fs) ←
    (match fd_type fp with
     | ft_len | ft_lv =>
         let '(ugh, rf) := in_length sd fp ins (ia_fs a) n (ia_roof a) in
         Ok (ugh, rf, ia_fs a)
     | _ =>
         '(ugh, fs) ← check_value sd fp (ia_fs a) n;
         Ok (ugh, ia_roof a, fs)
     end);
  passert (width_ok (fd_size fp)) ;;
  match ugh with
  | Some d => Ugh d
  | None => Ok (mk_ia (ia_cur a + fd_size fp) rf fs (ia_out a ++ [FNum n]))
  end.

(** The field loop of [in_struct].  Running off the field list is undefined;
    the assertion that relates [outp] and [cur] holds by construction here. *)
Fixpoint in_fields (m : mem) (sd : struct_desc) (ins : pb_stream)
    (fps : list field_desc) (a : in_acc) : outcome diag in_acc :=
  match fps with
  | [] => Abort
  | fp :: rest =>
      let i := fd_size fp in
      passert (i <=? roof ins - ia_cur a) ;;
      passert (ia_cur a - cur ins <=? sd_size sd - i) ;;
      match fd_type fp with
      | ft_zig =>
          bs ← defined (load_bytes m (ia_cur a) (Z.to_nat i));
          in_fields m sd ins rest
            (mk_ia (ia_cur a + i) (ia_roof a) (ia_fs a)
               (ia_out a ++ [FBytes (replicate (length bs) 0)]))
      | ft_nat | ft_len | ft_lv | ft_enum | ft_loose_enum | ft_loose_enum_enum
      | ft_af_enum | ft_af_loose_enum | ft_set =>
          a' ← in_number m sd ins fp a;
          in_fields m sd ins rest a'
      | ft_raw =>
          bs ← defined (load_bytes m (ia_cur a) (Z.to_nat i));
          in_fields m sd ins rest
            (mk_ia (ia_cur a + i) (ia_roof a) (ia_fs a) (ia_out a ++ [FBytes bs]))
      | ft_end =>
          passert (ia_cur a =? cur ins + sd_size sd) ;;
          Ok a
      | ft_mbz => Abort
      end
  end.

(** [in_struct(struct_ptr, sd, ins, obj_pbs)]: the host structure is returned
    with the new state. *)
Definition in_struct (sd : struct_desc) (ins : nat) (obj : option nat) (st : pstate)
  : outcome diag (list fval * pstate) :=
  p ← get_pbs st ins;
  if roof p - cur p <? sd_size sd then Ugh (no_room_in (sd_name sd))
  else
    a ← in_fields (ps_mem st) sd p (sd_fields sd)
          (mk_ia (cur p) (cur p + sd_size sd) (mk_fs false 0) []);
    let st1 :=
      match obj with
      | Some o =>
          put_pbs o (mk_pbs (Some ins) (Some sd) (sd_name sd) (cur p) (ia_cur a)
                       (ia_roof a) None) st
      | None => st
      end in
    p1 ← get_pbs st1 ins;
    Ok (ia_out a, put_pbs ins (set_cur (ia_roof a) p1) st1).

(** [in_raw(bytes, len, ins, name)] with [bytes] not NULL. *)
Definition in_raw (len : Z) (ins : nat) (name : string) (st : pstate)
  : outcome diag (list Z * pstate) :=
  p ← get_pbs st ins;
  if pbs_left p <? len then Ugh (not_enough_bytes name)
  else
    bs ← defined (load_bytes (ps_mem st) (cur p) (Z.to_nat len));
    Ok (bs, put_pbs ins (set_cur (cur p + len) p) st).

(** ** Output

    A failing output routine may have scribbled beyond the cursor, so its
    error carries the state it leaves behind. *)

Record out_acc := mk_oa {
  oa_mem : mem;
  oa_cur : Z;
  oa_fs : fstate;
  oa_lenfld : option (Z * field_desc)
}.

(** [while (i-- != 0) { cur[i] = (u_int8_t)n; n >>= BITS_PER_BYTE; }] *)
Fixpoint emit_be (i : nat) (n : Z) (m : mem) (a : Z) : option mem :=
  match i with
  | O => Some m
  | S i' => m' ← store m (a + Z.of_nat i') (u8 n); emit_be i' (Z.shiftr n 8) m' a
  end.

(** The number in a member of [i] bytes. *)
Definition member_num {E} (i : Z) (v : fval) : outcome E Z :=
  match v with FNum n => Ok (n mod 2 ^ (8 * i)) | FBytes _ => Abort end.

Definition member_bytes {E} (i : Z) (v : fval) : outcome E (list Z) :=
  match v with
  | FBytes bs => passert (Z.of_nat (length bs) =? i) ;; Ok bs
  | FNum _ => Abort
  end.

Definition out_number (sd : struct_desc) (fp : field_desc) (v : fval) (a : out_acc)
  : outcome (diag * mem) out_acc :=
  passert (width_ok (fd_size fp)) ;;
  n ← member_num (fd_size fp) v;
  '(ugh, fs) ← check_value sd fp (oa_fs a) n;
  m ← defined (emit_be (Z.to_nat (fd_size fp)) n (oa_mem a) (oa_cur a));
  match ugh with
  | Some d => Ugh (d, m)
  | None => Ok (mk_oa m (oa_cur a + fd_size fp) fs (oa_lenfld a))
  end.

(** Copy [bs] to the cursor. *)
Definition out_bytes {E} (bs : list Z) (a : out_acc) : outcome E out_acc :=
  m ← defined (store_bytes (oa_mem a) (oa_cur a) bs);
  Ok (mk_oa m (oa_cur a + Z.of_nat (length bs)) (oa_fs a) (oa_lenfld a)).

(** A length field whose value is not known yet: remember where it is. *)
Definition out_lenfld {E} (fp : field_desc) (a : out_acc) : outcome E out_acc :=
  passert (match oa_lenfld a with None => true | Some _ => false end) ;;
  a' ← out_bytes (replicate (Z.to_nat (fd_size fp)) 0xFA) a;
  Ok (mk_oa (oa_mem a') (oa_cur a') (oa_fs a') (Some (oa_cur a, fp))).

Fixpoint out_fields (sd : struct_desc) (outs : pb_stream) (fps : list field_desc)
    (vs : list fval) (a : out_acc) : outcome (diag * mem) out_acc :=
  match fps with
  | [] => Abort
  | fp :: rest =>
      let i := fd_size fp in
      passert (i <=? roof outs - oa_cur a) ;;
      passert (oa_cur a - cur outs <=? sd_size sd - i) ;;
      match fd_type fp, vs with
      | ft_end, _ =>
          passert (oa_cur a =? cur outs + sd_size sd) ;; Ok a
      | ft_mbz, _ | _, [] => Abort
      | ft_zig, _ :: vs' =>
          a' ← out_bytes (replicate (Z.to_nat i) 0) a;
          out_fields sd outs rest vs' a'
      | ft_raw, v :: vs' =>
          bs ← member_bytes i v;
          a' ← out_bytes bs a;
          out_fields sd outs rest vs' a'
      | (ft_len | ft_lv), v :: vs' =>
          a' ← (if immediate (oa_fs a) then out_number sd fp v a else out_lenfld fp a);
          out_fields sd outs rest vs' a'
      | _, v :: vs' =>
          a' ← out_number sd fp v a;
          out_fields sd outs rest vs' a'
      end
  end.

(** [close_output_pbs]: fill in the length, pass the space used up. *)
Definition close_pbs {E} (p : pb_stream) (st : pstate) : outcome E pstate :=
  st1 ←
    (match lenfld p with
     | None => Ok st
     | Some (a, fp) =>
         let len := u32 (pbs_offset p) in
         let len' := match fd_type fp with ft_lv => u32 (len - 4) | _ => len end in
         m ← defined (emit_be (Z.to_nat (fd_size fp)) len' (ps_mem st) a);
         Ok (put_mem m st)
     end);
  match container p with
  | None => Ok st1
  | Some c => q ← get_pbs st1 c; Ok (put_pbs c (set_cur (cur p) q) st1)
  end.

Definition close_output_pbs {E} (i : nat) (st : pstate) : outcome E pstate :=
  p ← get_pbs st i; close_pbs p st.

Definition out_struct (vs : list fval) (sd : struct_desc) (outs : nat)
    (obj : option nat) (st : pstate) : outcome (diag * pstate) pstate :=
  p ← get_pbs st outs;
  if roof p - cur p <? sd_size sd then Ugh (no_room_out (sd_name sd), st)
  else
    match out_fields sd p (sd_fields sd) vs
            (mk_oa (ps_mem st) (cur p) (mk_fs false 0) None) with
    | Abort => Abort
    | Ugh (d, m) => Ugh (d, put_mem m st)
    | Ok a =>
        let o := mk_pbs (Some outs) (Some sd) (sd_name sd) (cur p) (oa_cur a)
                   (roof p) (oa_lenfld a) in
        let st1 := put_mem (oa_mem a) st in
        match obj with
        | None => close_pbs o st1
        | Some i => Ok (put_pbs i o (put_pbs outs (set_cur (roof p) p) st1))
        end
    end.

Definition out_raw (bytes : list Z) (outs : nat) (name : string) (st : pstate)
  : outcome (diag * pstate) pstate :=
  p ← get_pbs st outs;
  let len := Z.of_nat (length bytes) in
  if pbs_left p <? len then Ugh (no_room_raw name, st)
  else
    m ← defined (store_bytes (ps_mem st) (cur p) bytes);
    Ok (put_pbs outs (set_cur (cur p + len) p) (put_mem m st)).

Definition out_zero (len : Z) (outs : nat) (name : string) (st : pstate)
  : outcome (diag * pstate) pstate :=
  p ← get_pbs st outs;
  if pbs_left p <? len then Ugh (no_room_raw name, st)
  else
    m ← defined (store_bytes (ps_mem st) (cur p) (replicate (Z.to_nat len) 0));
    Ok (put_pbs outs (set_cur (cur p + len) p) (put_mem m st)).
