(* ===== verification/PacketSpec.v ===== *)
(** Specification of the packet routines: well-formed descriptors and streams,
    the wire format as a pure function, and the proofs that [in_struct] stays
    inside its stream, that [out_struct] writes exactly the wire format, and
    that parsing undoes emission. *)
From S2P Require Import Prelude EnumNames Packet.

(** * Well-formed descriptors *)

Definition is_end (fp : field_desc) : bool :=
  match fd_type fp with ft_end => true | _ => false end.

Definition is_lenfld (fp : field_desc) : bool :=
  match fd_type fp with ft_len | ft_lv => true | _ => false end.

Definition is_ftlen (fp : field_desc) : bool :=
  match fd_type fp with ft_len => true | _ => false end.

Definition is_af (fp : field_desc) : bool :=
  match fd_type fp with ft_af_enum | ft_af_loose_enum => true | _ => false end.

Definition none_of (f : field_desc -> bool) (fps : list field_desc) : bool :=
  forallb (fun q => negb (f q)) fps.

Definition wf_field (sd : struct_desc) (fp : field_desc) : bool :=
  match fd_type fp with
  | ft_zig | ft_raw => 0 <=? fd_size fp
  | ft_nat | ft_len | ft_loose_enum | ft_af_loose_enum => width_ok (fd_size fp)
  | ft_lv => (fd_size fp =? 2) && (sd_size sd =? 4)
  | ft_enum | ft_af_enum =>
      width_ok (fd_size fp)
      && match fd_desc fp with FN_enum e => wf_chain e | _ => false end
  | ft_loose_enum_enum =>
      width_ok (fd_size fp)
      && match fd_desc fp with FN_enum_enum e => wf_een e | _ => false end
  | ft_set =>
      width_ok (fd_size fp)
      && match fd_desc fp with FN_set t => wf_set t (8 * fd_size fp) | _ => false end
  | ft_end => fd_size fp =? 0
  | ft_mbz => false
  end.

Definition fields_size (fps : list field_desc) : Z := foldr (fun fp z => fd_size fp + z) 0 fps.

(** The list ends at its only [ft_end]; it has at most one length field, and
    the length of an attribute (which may be immediate) is an [ft_lv]. *)
Fixpoint wf_fields (sd : struct_desc) (fps : list field_desc) : bool :=
  match fps with
  | [] => false
  | [fp] => is_end fp && wf_field sd fp
  | fp :: rest =>
      negb (is_end fp) && wf_field sd fp
      && (negb (is_lenfld fp) || none_of is_lenfld rest)
      && (negb (is_af fp) || none_of is_ftlen rest)
      && wf_fields sd rest
  end.

Definition wf_desc (sd : struct_desc) : bool :=
  wf_fields sd (sd_fields sd) && (fields_size (sd_fields sd) =? sd_size sd)
  && (sd_size sd <? 2 ^ 16).

(** * Well-formed streams *)

Definition wf_pbs (m : mem) (p : pb_stream) : Prop :=
  0 <= start p <= cur p /\ cur p <= roof p < 2 ^ 63 /\ mapped m (start p) (roof p).

Lemma wf_pbs_left m p : wf_pbs m p -> pbs_left p = roof p - cur p.
Proof. intros (?&?&_). unfold pbs_left. apply u64_small. lia. Qed.

Lemma wf_fields_cons sd fp rest :
  wf_fields sd (fp :: rest) = true ->
  wf_field sd fp = true /\
  ((is_end fp = true /\ rest = []) \/
   (is_end fp = false /\ rest <> [] /\ wf_fields sd rest = true /\
    (is_lenfld fp = true -> none_of is_lenfld rest = true) /\
    (is_af fp = true -> none_of is_ftlen rest = true))).
Proof.
  destruct rest as [|q rest].
  - simpl. rewrite andb_true_iff. naive_solver.
  - cbn [wf_fields]. rewrite !andb_true_iff, !orb_true_iff, !negb_true_iff.
    intros [[[[He Hw] Hl] Ha] Hr]. split; [done|]. right.
    repeat split; auto; intros Hf; [destruct Hl|destruct Ha]; congruence.
Qed.

Lemma width_ok_inv i : width_ok i = true -> i = 1 \/ i = 2 \/ i = 4.
Proof. unfold width_ok. rewrite !orb_true_iff, !Z.eqb_eq. tauto. Qed.

Lemma wf_field_size sd fp : wf_field sd fp = true -> 0 <= fd_size fp.
Proof.
  unfold wf_field.
  destruct (fd_type fp); rewrite ?andb_true_iff, ?Z.eqb_eq, ?Z.leb_le; intros H;
    repeat match goal with
    | H : _ /\ _ |- _ => destruct H
    | H : width_ok _ = true |- _ => apply width_ok_inv in H
    end; try done; try lia.
Qed.

Lemma wf_field_width sd fp :
  wf_field sd fp = true ->
  match fd_type fp with
  | ft_zig | ft_raw | ft_end | ft_mbz => True
  | _ => width_ok (fd_size fp) = true
  end.
Proof.
  unfold wf_field. destruct (fd_type fp); rewrite ?andb_true_iff; try tauto.
  rewrite Z.eqb_eq. by intros [-> _].
Qed.

Lemma fields_size_nonneg sd fps : wf_fields sd fps = true -> 0 <= fields_size fps.
Proof.
  induction fps as [|fp rest IH]; [done|]. intros H. apply wf_fields_cons in H as [Hw Hr].
  apply wf_field_size in Hw. cbn [fields_size foldr].
  destruct Hr as [[_ ->]|(_&_&Hr&_)]; [simpl; lia|]. specialize (IH Hr).
  unfold fields_size in IH. lia.
Qed.

(** * Values of fields *)

Lemma net_value_fold bs n :
  (length bs <= 4)%nat -> Forall byteZ bs -> 0 <= n < 2 ^ (32 - 8 * Z.of_nat (length bs)) ->
  fold_left (fun n b => Z.lor (u32 (Z.shiftl n 8)) b) bs n =
  fold_left (fun n b => Z.lor (Z.shiftl n 8) b) bs n.
Proof.
  revert n; induction bs as [|b bs IH]; intros n Hl Hb Hn; [done|].
  inversion_clear Hb. cbn [fold_left length] in *.
  assert (0 <= n * 256 < 2 ^ (32 - 8 * Z.of_nat (length bs))) as Hs.
  { replace (32 - 8 * Z.of_nat (length bs))
      with (32 - 8 * Z.of_nat (S (length bs)) + 8) by lia.
    rewrite Z.pow_add_r by lia. lia. }
  assert (2 ^ (32 - 8 * Z.of_nat (length bs)) <= 2 ^ 32) by (apply Z.pow_le_mono_r; lia).
  assert (u32 (Z.shiftl n 8) = Z.shiftl n 8) as ->.
  { apply u32_small. rewrite Z.shiftl_mul_pow2 by lia. change (2 ^ 8) with 256. lia. }
  apply IH; [lia|done|]. rewrite lor_shift8 by done. unfold byteZ in *.
  replace (32 - 8 * Z.of_nat (length bs))
    with (32 - 8 * Z.of_nat (S (length bs)) + 8) in * by lia.
  rewrite Z.pow_add_r in * by lia. lia.
Qed.

Lemma net_value_be bs : (length bs <= 4)%nat -> Forall byteZ bs -> net_value bs = be_decode bs.
Proof.
  intros Hl Hb. apply net_value_fold; auto. split; [lia|].
  apply Z.pow_pos_nonneg; lia.
Qed.

(** The check of a value never stops the process for a well-formed field, and
    changes the loop state in a way that does not depend on the descriptor. *)
Definition next_fs (fp : field_desc) (fs : fstate) (n : Z) : fstate :=
  match fd_type fp with
  | ft_af_loose_enum => mk_fs (immediate fs || is_af_tv n) (last_enum fs)
  | ft_af_enum => mk_fs (immediate fs || is_af_tv n) n
  | ft_enum | ft_loose_enum => mk_fs (immediate fs) n
  | _ => fs
  end.

Lemma check_value_total {E} sd fp fs n :
  wf_field sd fp = true -> 0 <= n < 2 ^ (8 * fd_size fp) ->
  exists ugh, @check_value E sd fp fs n = Ok (ugh, next_fs fp fs n).
Proof.
  unfold wf_field, check_value, next_fs, enum_check, enum_of, enum_enum_checker.
  destruct (fd_type fp); intros Hw Hn; try (by eexists);
    apply andb_true_iff in Hw as [_ Hw]; destruct (fd_desc fp) as [|e|e|t]; try done.
  - destruct (@enum_name_total E e n Hw) as [r ->]. simpl. eauto.
  - destruct (@enum_enum_table_total E e (last_enum fs) Hw) as [r ->]. simpl. eauto.
  - destruct (@enum_name_total E e n Hw) as [r ->]. simpl. eauto.
  - destruct (@testset_total E t _ n Hn Hw) as [r ->]. simpl. eauto.
Qed.

(** * Parsing stays inside the stream *)

Section InBounds.
Context (m : mem) (sd : struct_desc) (p : pb_stream).
Hypothesis Hp : wf_pbs m p.
Hypothesis Hm : mem_ok m.
Hypothesis Hroom : sd_size sd <= roof p - cur p.
Hypothesis Hsize : 0 <= sd_size sd < 2 ^ 16.

(** The loop has [rest] bytes of fields still to read, and the end of the
    object is within the stream. *)
Definition in_inv (rest : Z) (a : in_acc) : Prop :=
  cur p <= ia_cur a /\ ia_cur a + rest = cur p + sd_size sd /\
  cur p + sd_size sd <= ia_roof a <= roof p.

(** What one step, or the whole loop, may end in. *)
Definition in_result (rest : Z) (r : outcome diag in_acc) : Prop :=
  match r with Ok a => in_inv rest a | Ugh _ => True | Abort => False end.

Lemma in_load rest i a :
  0 <= i <= rest -> in_inv rest a ->
  exists bs, load_bytes m (ia_cur a) (Z.to_nat i) = Some bs /\
    Z.of_nat (length bs) = i /\ Forall byteZ bs.
Proof.
  intros Hi (Hc&Hs&Hr). destruct Hp as (?&?&Hmap).
  destruct (load_bytes_mapped m (ia_cur a) (Z.to_nat i)) as [bs Hbs].
  { intros x Hx. apply Hmap. lia. }
  exists bs. split; [done|]. split; [|by eapply load_bytes_ok].
  apply length_load_bytes in Hbs. lia.
Qed.

Lemma in_length_inv fp fs n rf ugh rf' :
  in_length sd fp p fs n rf = (ugh, rf') ->
  cur p + sd_size sd <= rf <= roof p ->
  ugh = None -> cur p + sd_size sd <= rf' <= roof p.
Proof.
  unfold in_length. rewrite (wf_pbs_left _ _ Hp).
  match goal with |- context[Z.ltb ?l (sd_size sd)] => set (len := l) end.
  destruct (Z.ltb_spec len (sd_size sd)); [naive_solver|].
  destruct (Z.ltb_spec (roof p - cur p) len); [naive_solver|].
  intros [= <- <-]; lia.
Qed.

Lemma in_number_inv rest fp a :
  wf_field sd fp = true -> width_ok (fd_size fp) = true -> fd_size fp <= rest ->
  in_inv rest a -> in_result (rest - fd_size fp) (in_number m sd p fp a).
Proof.
  intros Hw Hwd Hle Hinv. unfold in_number.
  pose proof (width_ok_inv _ Hwd) as Hi.
  destruct (in_load rest (fd_size fp) a) as (bs&->&Hl&Hb); [lia|done|]. simpl.
  rewrite net_value_be by (auto; lia).
  pose proof (be_decode_bound bs Hb) as Hn. rewrite Hl in Hn.
  destruct (check_value_total (E := diag) sd fp (ia_fs a) (be_decode bs) Hw Hn) as [ugh Hc].
  destruct Hinv as (?&?&?). rewrite Hwd.
  destruct (fd_type fp) eqn:Ht;
    try (rewrite Hc; simpl; destruct ugh; simpl; [done|];
         unfold in_inv; simpl; repeat split; lia).
  all: destruct (in_length sd fp p (ia_fs a) (be_decode bs) (ia_roof a)) as [u rf] eqn:Hin;
    simpl; destruct u; simpl; [done|];
    apply in_length_inv in Hin; auto; unfold in_inv; simpl; repeat split; lia.
Qed.

Lemma in_fields_inv fps a :
  wf_fields sd fps = true -> in_inv (fields_size fps) a ->
  in_result 0 (in_fields m sd p fps a).
Proof.
  revert a; induction fps as [|fp rest IH]; intros a Hw Hinv; [done|].
  pose proof (fields_size_nonneg _ _ Hw) as Hnn.
  apply wf_fields_cons in Hw as [Hf Hr]. pose proof (wf_field_size _ _ Hf) as Hsz.
  assert (fields_size (fp :: rest) = fd_size fp + fields_size rest) as Hfs by done.
  assert (0 <= fields_size rest) as Hrest.
  { destruct Hr as [[_ ->]|(_&_&Hr&_)]; [done|]. by eapply fields_size_nonneg. }
  rewrite Hfs in Hinv. pose proof Hinv as (Hc&Hs&Hro). cbn [in_fields].
  rewrite (proj2 (Z.leb_le _ _)) by lia. simpl.
  rewrite (proj2 (Z.leb_le _ _)) by lia. simpl.
  destruct Hr as [[He ->]|(He&Hne&Hr&_)].
  { unfold is_end in He. destruct (fd_type fp) eqn:Ht; try done.
    unfold wf_field in Hf. rewrite Ht in Hf. apply Z.eqb_eq in Hf.
    unfold in_inv in Hinv. simpl in *.
    rewrite (proj2 (Z.eqb_eq _ _)) by lia. simpl. unfold in_inv. lia. }
  destruct (fd_type fp) eqn:Ht;
    try (unfold is_end in He; rewrite Ht in He; discriminate);
    try (unfold wf_field in Hf; rewrite Ht in Hf; discriminate).
  (* the fields copied byte by byte *)
  all: try (destruct (in_load (fd_size fp + fields_size rest) (fd_size fp) a)
      as (bs&->&Hl&Hb); [lia|done|]; simpl; apply IH; [done|];
      unfold in_inv; simpl; lia).
  (* the numeric fields *)
  all: pose proof (wf_field_width _ _ Hf) as Hwd; rewrite Ht in Hwd.
  all: pose proof (in_number_inv (fd_size fp + fields_size rest) fp a Hf Hwd
      ltac:(lia) Hinv) as Hn; destruct (in_number m sd p fp a) as [a'| |]; simpl in *; try done;
    apply IH; auto; unfold in_inv in *; lia.
Qed.

End InBounds.

Lemma wf_desc_inv sd : wf_desc sd = true ->
  wf_fields sd (sd_fields sd) = true /\ fields_size (sd_fields sd) = sd_size sd /\
  0 <= sd_size sd < 2 ^ 16.
Proof.
  unfold wf_desc. rewrite !andb_true_iff, Z.eqb_eq, Z.ltb_lt. intros [[Hw Hs] Hl].
  pose proof (fields_size_nonneg _ _ Hw). repeat split; auto; lia.
Qed.

Lemma in_struct_inv sd ins obj st p :
  wf_desc sd = true -> ps_pbs st !! ins = Some p -> wf_pbs (ps_mem st) p ->
  mem_ok (ps_mem st) -> obj <> Some ins ->
  match in_struct sd ins obj st with
  | Abort => False
  | Ugh _ => True
  | Ok (vs, st') =>
      exists e, cur p + sd_size sd <= e <= roof p /\
        ps_mem st' = ps_mem st /\
        ps_pbs st' =
          <[ins := set_cur e p]>
            (match obj with
             | Some o => <[o := mk_pbs (Some ins) (Some sd) (sd_name sd) (cur p)
                                  (cur p + sd_size sd) e None]> (ps_pbs st)
             | None => ps_pbs st
             end)
  end.
Proof.
  intros Hw Hg Hp Hm Ho. apply wf_desc_inv in Hw as (Hf&Hs&Hb).
  unfold in_struct, get_pbs. rewrite Hg. simpl.
  destruct (Z.ltb_spec (roof p - cur p) (sd_size sd)); [done|].
  pose proof (in_fields_inv (ps_mem st) sd p Hp Hm ltac:(lia) Hb (sd_fields sd)
    (mk_ia (cur p) (cur p + sd_size sd) (mk_fs false 0) []) Hf) as Hi.
  destruct Hp as (?&?&?).
  destruct (in_fields _ _ _ _ _) as [a| |]; simpl in *; [|done|].
  2:{ apply Hi. unfold in_inv; simpl; lia. }
  destruct Hi as (Hc&Hcs&Hr); [unfold in_inv; simpl; lia|].
  assert (ia_cur a = cur p + sd_size sd) as Hcur by lia.
  destruct obj as [o|]; simpl.
  - rewrite lookup_insert_ne by congruence. rewrite Hg. simpl.
    exists (ia_roof a). by rewrite Hcur.
  - rewrite Hg. simpl. by exists (ia_roof a).
Qed.

Lemma check_value_any {E1 E2} sd fp fs n r :
  @check_value E1 sd fp fs n = Ok r -> @check_value E2 sd fp fs n = Ok r.
Proof.
  unfold check_value, enum_check, enum_enum_checker.
  destruct (fd_type fp); try naive_solver;
    try (destruct (fd_desc fp); try naive_solver); intros H; inv_ok;
    match goal with
    | H : enum_name _ _ = Ok _ |- _ => by rewrite (enum_name_any _ _ _ H)
    | H : enum_enum_table _ _ = Ok _ |- _ => by rewrite (enum_enum_table_any _ _ _ H)
    | H : testset _ _ = Ok _ |- _ => by unfold testset; rewrite (testset_from_any _ _ _ _ H)
    end.
Qed.

(** * The wire format *)

Definition val_num (i : Z) (v : fval) : Z :=
  match v with FNum n => n mod 2 ^ (8 * i) | FBytes _ => 0 end.
Definition val_bytes (v : fval) : list Z :=
  match v with FBytes bs => bs | FNum _ => [] end.

(** A length field whose value is computed when the object is closed. *)
Definition deferred (fp : field_desc) (fs : fstate) : bool :=
  is_lenfld fp && negb (immediate fs).

(** The bytes of a structure; [lb] gives the bytes of the length field. *)
Fixpoint wire (lb : field_desc -> list Z) (fps : list field_desc) (vs : list fval)
    (fs : fstate) : list Z :=
  match fps, vs with
  | fp :: rest, v :: vs' =>
      match fd_type fp with
      | ft_end => []
      | ft_zig => replicate (Z.to_nat (fd_size fp)) 0 ++ wire lb rest vs' fs
      | ft_raw => val_bytes v ++ wire lb rest vs' fs
      | _ =>
          if deferred fp fs then lb fp ++ wire lb rest vs' fs
          else
            let n := val_num (fd_size fp) v in
            be_encode (Z.to_nat (fd_size fp)) n ++ wire lb rest vs' (next_fs fp fs n)
      end
  | _, _ => []
  end.

(** The values are acceptable: numbers are known to the tables that the
    descriptor names, and byte members have their declared size. *)
Fixpoint valid_fields (sd : struct_desc) (fps : list field_desc) (vs : list fval)
    (fs : fstate) : Prop :=
  match fps, vs with
  | fp :: rest, vs =>
      match fd_type fp, vs with
      | ft_end, _ => True
      | ft_mbz, _ | _, [] => False
      | ft_zig, _ :: vs' => valid_fields sd rest vs' fs
      | ft_raw, v :: vs' =>
          (exists bs, v = FBytes bs /\ Z.of_nat (length bs) = fd_size fp) /\
          valid_fields sd rest vs' fs
      | _, v :: vs' =>
          if deferred fp fs then valid_fields sd rest vs' fs
          else
            (exists n, v = FNum n) /\
            let n := val_num (fd_size fp) v in
            @check_value diag sd fp fs n = Ok (None, next_fs fp fs n) /\
            valid_fields sd rest vs' (next_fs fp fs n)
      end
  | [], _ => False
  end.

(** Does the structure have a length field to be filled in? *)
Fixpoint has_deferred (fps : list field_desc) (vs : list fval) (fs : fstate) : bool :=
  match fps, vs with
  | fp :: rest, v :: vs' =>
      match fd_type fp with
      | ft_end => false
      | ft_zig | ft_raw => has_deferred rest vs' fs
      | _ => deferred fp fs
             || has_deferred rest vs' (next_fs fp fs (val_num (fd_size fp) v))
      end
  | _, _ => false
  end.

(** The host structure that parsing an object of [total] bytes yields. *)
Definition len_value (total : Z) (fp : field_desc) : Z :=
  match fd_type fp with ft_lv => total - 4 | _ => total end.
Definition len_bytes (total : Z) (fp : field_desc) : list Z :=
  be_encode (Z.to_nat (fd_size fp)) (len_value total fp).

Fixpoint host_values (total : Z) (fps : list field_desc) (vs : list fval) (fs : fstate)
  : list fval :=
  match fps, vs with
  | fp :: rest, v :: vs' =>
      match fd_type fp with
      | ft_end => []
      | ft_zig => FBytes (replicate (Z.to_nat (fd_size fp)) 0) :: host_values total rest vs' fs
      | ft_raw => v :: host_values total rest vs' fs
      | _ =>
          if deferred fp fs then FNum (len_value total fp) :: host_values total rest vs' fs
          else
            let n := val_num (fd_size fp) v in
            FNum n :: host_values total rest vs' (next_fs fp fs n)
      end
  | _, _ => []
  end.

Definition fs0 : fstate := mk_fs false 0.
Definition filler (fp : field_desc) : list Z := replicate (Z.to_nat (fd_size fp)) 0xFA.

(** * Emission writes the wire format *)

Lemma store_bytes_insert m a i bs v :
  a + Z.of_nat (length bs) <= i -> is_Some (m !! i) ->
  store_bytes (<[i := v]> m) a bs = (m' ← store_bytes m a bs; Some (<[i := v]> m')).
Proof.
  revert m a; induction bs as [|b bs IH]; intros m a Hi Hs; [done|].
  cbn [store_bytes length] in *. unfold store at 1 2.
  rewrite lookup_insert_ne by lia. destruct (m !! a) eqn:Ha; simpl; [|done].
  rewrite insert_insert_ne by lia. rewrite IH; [done|lia|].
  rewrite lookup_insert_ne by lia. done.
Qed.

Lemma emit_be_store i n m a : emit_be i n m a = store_bytes m a (be_encode i n).
Proof.
  revert n m; induction i as [|i IH]; intros n m; [done|]. cbn [emit_be be_encode].
  rewrite store_bytes_app, length_be_encode. cbn [store_bytes].
  destruct (m !! (a + Z.of_nat i)) eqn:Hl.
  - rewrite store_some by eauto. simpl. rewrite IH, store_bytes_insert;
      [|rewrite length_be_encode; lia|eauto].
    destruct (store_bytes m a (be_encode i (Z.shiftr n 8))) as [m'|] eqn:Hs; simpl; [|done].
    rewrite store_some; [done|]. eapply (store_bytes_dom _ _ _ _ _ Hs). eauto.
  - unfold store at 1. rewrite Hl. simpl.
    destruct (store_bytes m a (be_encode i (Z.shiftr n 8))) as [m'|] eqn:Hs; simpl; [|done].
    unfold store. destruct (m' !! (a + Z.of_nat i)) eqn:Hm'; [|done].
    assert (is_Some (m !! (a + Z.of_nat i))) as [? ?]
      by (eapply (store_bytes_dom _ _ _ _ _ Hs); eauto). congruence.
Qed.

Lemma out_bytes_inv {E} bs a a' :
  @out_bytes E bs a = Ok a' ->
  store_bytes (oa_mem a) (oa_cur a) bs = Some (oa_mem a') /\
  oa_cur a' = oa_cur a + Z.of_nat (length bs) /\ oa_fs a' = oa_fs a /\
  oa_lenfld a' = oa_lenfld a.
Proof. unfold out_bytes. intros H. inv_ok. done. Qed.

Lemma out_number_inv sd fp v a a' :
  out_number sd fp v a = Ok a' -> wf_field sd fp = true ->
  let n := val_num (fd_size fp) v in
  store_bytes (oa_mem a) (oa_cur a) (be_encode (Z.to_nat (fd_size fp)) n) = Some (oa_mem a') /\
  oa_cur a' = oa_cur a + fd_size fp /\ oa_fs a' = next_fs fp (oa_fs a) n /\
  oa_lenfld a' = oa_lenfld a /\ (exists k, v = FNum k) /\
  @check_value diag sd fp (oa_fs a) n = Ok (None, next_fs fp (oa_fs a) n).
Proof.
  unfold out_number. intros H Hw. inv_ok.
  match goal with H : width_ok _ = true |- _ => pose proof (width_ok_inv _ H) end.
  match goal with H : member_num _ _ = Ok ?k |- _ =>
    destruct v as [z|]; [|discriminate H]; simpl in H; inv_ok end.
  assert (0 <= z mod 2 ^ (8 * fd_size fp) < 2 ^ (8 * fd_size fp)) as Hz
    by (apply Z.mod_pos_bound, Z.pow_pos_nonneg; lia).
  destruct (check_value_total (E := diag * mem) sd fp (oa_fs a) _ Hw Hz) as [ugh Hc].
  rewrite Hc in *. inv_ok. destruct ugh; inv_ok. simpl. rewrite <- emit_be_store.
  repeat split; eauto. by eapply check_value_any.
Qed.

Lemma out_lenfld_inv {E} fp a a' :
  @out_lenfld E fp a = Ok a' ->
  oa_lenfld a = None /\
  store_bytes (oa_mem a) (oa_cur a) (filler fp) = Some (oa_mem a') /\
  oa_cur a' = oa_cur a + Z.of_nat (length (filler fp)) /\ oa_fs a' = oa_fs a /\
  oa_lenfld a' = Some (oa_cur a, fp).
Proof.
  unfold out_lenfld. intros H. inv_ok.
  match goal with H : out_bytes _ _ = Ok _ |- _ => apply out_bytes_inv in H as (?&?&?&?) end.
  destruct (oa_lenfld a); done.
Qed.

Lemma wire_no_len lb lb' fps vs fs :
  none_of is_lenfld fps = true -> wire lb fps vs fs = wire lb' fps vs fs.
Proof.
  revert vs fs; induction fps as [|fp rest IH]; intros vs fs H; [done|].
  simpl in H. apply andb_true_iff in H as [Hn Hr]. destruct vs as [|v vs]; [done|].
  cbn [wire]. unfold deferred. apply negb_true_iff in Hn as ->. simpl.
  destruct (fd_type fp); by rewrite ?(IH _ _ Hr).
Qed.

(** Where the length field of an object is, if it has one. *)
Definition out_lenspec (sd : struct_desc) (fps : list field_desc) (vs : list fval) (fs : fstate)
    (c : Z) (l0 l1 : option (Z * field_desc)) : Prop :=
  if has_deferred fps vs fs then
    exists pre fp post,
      l0 = None /\ l1 = Some (c + Z.of_nat (length pre), fp) /\
      is_lenfld fp = true /\ wf_field sd fp = true /\
      forall lb, wire lb fps vs fs = pre ++ lb fp ++ post
  else l1 = l0 /\ forall lb, wire lb fps vs fs = wire filler fps vs fs.

Lemma out_lenspec_cons sd fp rest v vs fs fs' hd c c' l0 l1 :
  out_lenspec sd rest vs fs' c' l0 l1 -> c' = c + Z.of_nat (length hd) ->
  has_deferred (fp :: rest) (v :: vs) fs = has_deferred rest vs fs' ->
  (forall lb, wire lb (fp :: rest) (v :: vs) fs = hd ++ wire lb rest vs fs') ->
  out_lenspec sd (fp :: rest) (v :: vs) fs c l0 l1.
Proof.
  unfold out_lenspec. intros H -> -> Hw. destruct (has_deferred rest vs fs').
  - destruct H as (pre&q&post&->&->&?&?&H). exists (hd ++ pre), q, post.
    repeat split; auto.
    + do 2 f_equal. rewrite length_app. lia.
    + intros lb. by rewrite Hw, H, app_assoc.
  - destruct H as [-> H]. split; [done|]. intros lb. by rewrite !Hw, H.
Qed.

Lemma has_deferred_no_len fps vs fs :
  none_of is_lenfld fps = true -> has_deferred fps vs fs = false.
Proof.
  revert vs fs; induction fps as [|fp rest IH]; intros vs fs H; [done|].
  simpl in H. apply andb_true_iff in H as [Hn Hr]. destruct vs as [|v vs]; [done|].
  cbn [has_deferred]. unfold deferred. apply negb_true_iff in Hn as ->. simpl.
  destruct (fd_type fp); by rewrite ?(IH _ _ Hr).
Qed.

(** One field written: the rest of the loop continues the wire format. *)
Lemma store_bytes_cons m a hd tl m1 m2 :
  store_bytes m a hd = Some m1 ->
  store_bytes m1 (a + Z.of_nat (length hd)) tl = Some m2 ->
  store_bytes m a (hd ++ tl) = Some m2.
Proof. intros H1 H2. by rewrite store_bytes_app, H1. Qed.

Definition out_post (sd : struct_desc) (fps : list field_desc) (vs : list fval)
    (a a' : out_acc) : Prop :=
  valid_fields sd fps vs (oa_fs a) /\
  store_bytes (oa_mem a) (oa_cur a) (wire filler fps vs (oa_fs a)) = Some (oa_mem a') /\
  oa_cur a' = oa_cur a + fields_size fps /\
  out_lenspec sd fps vs (oa_fs a) (oa_cur a) (oa_lenfld a) (oa_lenfld a').

Lemma out_step_number sd fp rest v vs a a1 a' :
  is_end fp = false -> deferred fp (oa_fs a) = false ->
  match fd_type fp with ft_zig | ft_raw | ft_mbz => False | _ => True end ->
  wf_field sd fp = true ->
  out_number sd fp v a = Ok a1 -> out_post sd rest vs a1 a' ->
  out_post sd (fp :: rest) (v :: vs) a a'.
Proof.
  intros He Hd Ht Hw H1 (Hv&Hs&Hc&Hl).
  apply out_number_inv in H1 as (H1&Hc1&Hf1&Hl1&Hn&Hk); [|done].
  rewrite Hc1, Hf1 in Hs. rewrite Hf1 in Hv, Hl. rewrite Hc1, Hl1 in Hl.
  pose proof (wf_field_size _ _ Hw) as Hsz.
  assert (forall lb, wire lb (fp :: rest) (v :: vs) (oa_fs a) =
    be_encode (Z.to_nat (fd_size fp)) (val_num (fd_size fp) v) ++
    wire lb rest vs (next_fs fp (oa_fs a) (val_num (fd_size fp) v))) as Hwire.
  { intros lb. cbn [wire]. rewrite Hd. unfold is_end in He. by destruct (fd_type fp). }
  assert (Z.of_nat (length (be_encode (Z.to_nat (fd_size fp)) (val_num (fd_size fp) v)))
    = fd_size fp) as Hlen by (rewrite length_be_encode; lia).
  split; [|split; [|split]].
  - cbn [valid_fields]. rewrite Hd. unfold is_end in He. by destruct (fd_type fp).
  - rewrite Hwire. eapply store_bytes_cons; [exact H1|]. by rewrite Hlen.
  - rewrite Hc, Hc1. cbn [fields_size foldr]. unfold fields_size. lia.
  - eapply out_lenspec_cons; [exact Hl|by rewrite Hlen| |exact Hwire].
    cbn [has_deferred]. rewrite Hd. unfold is_end in He. by destruct (fd_type fp).
Qed.

Lemma out_step_bytes {E} sd fp rest v vs bs a a1 a' :
  (fd_type fp = ft_zig /\ bs = replicate (Z.to_nat (fd_size fp)) 0 \/
   fd_type fp = ft_raw /\ v = FBytes bs) ->
  Z.of_nat (length bs) = fd_size fp ->
  @out_bytes E bs a = Ok a1 -> out_post sd rest vs a1 a' ->
  out_post sd (fp :: rest) (v :: vs) a a'.
Proof.
  intros Ht Hlen H1 (Hv&Hs&Hc&Hl).
  apply out_bytes_inv in H1 as (H1&Hc1&Hf1&Hl1).
  rewrite Hc1, Hf1 in Hs. rewrite Hf1 in Hv, Hl. rewrite Hc1, Hl1 in Hl.
  assert (forall lb, wire lb (fp :: rest) (v :: vs) (oa_fs a) =
    bs ++ wire lb rest vs (oa_fs a)) as Hwire.
  { intros lb. cbn [wire]. by destruct Ht as [[-> ->]|[-> ->]]. }
  split; [|split; [|split]].
  - cbn [valid_fields]. destruct Ht as [[-> ->]|[-> ->]]; eauto.
  - rewrite Hwire. by eapply store_bytes_cons.
  - rewrite Hc, Hc1. cbn [fields_size foldr]. unfold fields_size. lia.
  - eapply out_lenspec_cons; [exact Hl|done| |exact Hwire].
    cbn [has_deferred]. by destruct Ht as [[-> _]|[-> _]].
Qed.

Lemma out_step_len {E} sd fp rest v vs a a1 a' :
  deferred fp (oa_fs a) = true -> wf_field sd fp = true ->
  none_of is_lenfld rest = true ->
  @out_lenfld E fp a = Ok a1 -> out_post sd rest vs a1 a' ->
  out_post sd (fp :: rest) (v :: vs) a a'.
Proof.
  intros Hd Hw Hno H1 (Hv&Hs&Hc&Hl). pose proof Hd as Hd'.
  unfold deferred in Hd'. apply andb_true_iff in Hd' as [Hlf _].
  apply out_lenfld_inv in H1 as (Hl0&H1&Hc1&Hf1&Hl1).
  rewrite Hc1, Hf1 in Hs. rewrite Hf1 in Hv, Hl.
  pose proof (wf_field_size _ _ Hw) as Hsz.
  assert (forall lb, wire lb (fp :: rest) (v :: vs) (oa_fs a) =
    lb fp ++ wire lb rest vs (oa_fs a)) as Hwire.
  { intros lb. cbn [wire]. rewrite Hd. unfold is_lenfld in Hlf. by destruct (fd_type fp). }
  assert (Z.of_nat (length (filler fp)) = fd_size fp) as Hlen
    by (unfold filler; rewrite length_replicate; lia).
  unfold out_lenspec in Hl. rewrite has_deferred_no_len in Hl by done. destruct Hl as [Hl _].
  split; [|split; [|split]].
  - cbn [valid_fields]. rewrite Hd. unfold is_lenfld in Hlf. by destruct (fd_type fp).
  - rewrite Hwire. by eapply store_bytes_cons.
  - rewrite Hc, Hc1. cbn [fields_size foldr]. unfold fields_size. lia.
  - unfold out_lenspec.
    assert (has_deferred (fp :: rest) (v :: vs) (oa_fs a) = true) as ->
      by (cbn [has_deferred]; rewrite Hd; unfold is_lenfld in Hlf; by destruct (fd_type fp)).
    exists [], fp, (wire filler rest vs (oa_fs a)).
    repeat split; auto.
    + rewrite Hl, Hl1. simpl. by rewrite Z.add_0_r.
    + intros lb. rewrite Hwire. simpl. f_equal. by apply wire_no_len.
Qed.

Lemma out_fields_post sd p fps vs a a' :
  wf_fields sd fps = true -> out_fields sd p fps vs a = Ok a' -> out_post sd fps vs a a'.
Proof.
  revert vs a; induction fps as [|fp rest IH]; intros vs a Hw H; [done|].
  apply wf_fields_cons in Hw as [Hf Hr]. pose proof (wf_field_size _ _ Hf) as Hsz.
  cbn [out_fields] in H. inv_ok.
  destruct Hr as [[He ->]|(He&_&Hr&Hno&_)].
  - unfold is_end in He. destruct (fd_type fp) eqn:Ht; try done. inv_ok.
    unfold wf_field in Hf. rewrite Ht in Hf. apply Z.eqb_eq in Hf.
    assert (forall lb vs fs, wire lb [fp] vs fs = []) as Hwire
      by (intros ? [|? ?] ?; cbn [wire]; by rewrite ?Ht).
    split; [|split; [|split]]; rewrite ?Hwire; cbn [valid_fields fields_size foldr];
      rewrite ?Ht; auto; [lia|].
    unfold out_lenspec.
    assert (has_deferred [fp] vs (oa_fs a') = false) as ->
      by (destruct vs; cbn [has_deferred]; by rewrite ?Ht).
    split; [done|]. intros lb. by rewrite !Hwire.
  - destruct (fd_type fp) eqn:Ht; try (by unfold is_end in He; rewrite Ht in He);
      try done; destruct vs as [|v vs]; try done; inv_ok.
    all: try (eapply out_step_number;
      [exact He|by unfold deferred, is_lenfld; rewrite Ht|by rewrite Ht|exact Hf
      |eassumption|by apply IH]).
    + destruct (immediate (oa_fs a)) eqn:Him; [eapply out_step_number|eapply out_step_len];
        eauto; unfold deferred, is_lenfld; rewrite ?Ht, ?Him; try done.
      apply Hno. unfold is_lenfld. by rewrite Ht.
    + destruct (immediate (oa_fs a)) eqn:Him; [eapply out_step_number|eapply out_step_len];
        eauto; unfold deferred, is_lenfld; rewrite ?Ht, ?Him; try done.
      apply Hno. unfold is_lenfld. by rewrite Ht.
    + match goal with H : member_bytes _ _ = Ok _ |- _ =>
        unfold member_bytes in H; destruct v; [done|]; inv_ok end.
      match goal with H : (_ =? _) = true |- _ => apply Z.eqb_eq in H end.
      eapply out_step_bytes; eauto.
    + eapply out_step_bytes; eauto. rewrite length_replicate. lia.
Qed.

(** * Parsing reads the wire format *)

Section InWire.
Context (m : mem) (sd : struct_desc) (p : pb_stream) (total : Z).
Hypothesis Hp : wf_pbs m p.
Hypothesis Hm : mem_ok m.
Hypothesis Hsize : 0 <= sd_size sd < 2 ^ 16.
Hypothesis Htotal : sd_size sd <= total <= roof p - cur p.

(** The length of the object fits its length field. *)
Definition len_fits (fp : field_desc) : Prop :=
  is_lenfld fp = true -> 0 <= len_value total fp < 2 ^ (8 * fd_size fp).

Lemma in_deposit fp a bs rf fs :
  load_bytes m (ia_cur a) (Z.to_nat (fd_size fp)) = Some bs ->
  width_ok (fd_size fp) = true ->
  (match fd_type fp with
   | ft_len | ft_lv => in_length sd fp p (ia_fs a) (net_value bs) (ia_roof a) = (None, rf)
                       /\ fs = ia_fs a
   | _ => check_value sd fp (ia_fs a) (net_value bs) = @Ok diag _ (None, fs)
          /\ rf = ia_roof a
   end) ->
  in_number m sd p fp a =
  Ok (mk_ia (ia_cur a + fd_size fp) rf fs (ia_out a ++ [FNum (net_value bs)])).
Proof.
  intros Hl Hw Ht. unfold in_number. rewrite Hl. simpl.
  destruct (fd_type fp); destruct Ht as [Ht ->]; rewrite Ht; simpl; by rewrite Hw.
Qed.

Lemma net_value_encode i n :
  width_ok i = true -> 0 <= n < 2 ^ (8 * i) -> net_value (be_encode (Z.to_nat i) n) = n.
Proof.
  intros Hw Hn. pose proof (width_ok_inv _ Hw).
  rewrite net_value_be by (rewrite ?length_be_encode; auto using be_encode_bytes; lia).
  rewrite be_decode_encode, Z2Nat.id, Z.mod_small by lia. done.
Qed.

Lemma val_num_bound i v : 0 <= i -> 0 <= val_num i v < 2 ^ (8 * i).
Proof.
  intros Hi. assert (0 < 2 ^ (8 * i)) by (apply Z.pow_pos_nonneg; lia).
  destruct v; simpl; [by apply Z.mod_pos_bound|lia].
Qed.

(** A length that was filled in tells where the object ends. *)
Lemma in_length_deferred fp a :
  deferred fp (ia_fs a) = true -> wf_field sd fp = true -> len_fits fp ->
  in_length sd fp p (ia_fs a) (len_value total fp) (ia_roof a) = (None, cur p + total).
Proof.
  unfold deferred, len_fits, in_length, len_value. intros Hd Hw Hfit.
  rewrite (wf_pbs_left _ _ Hp). apply andb_true_iff in Hd as [Hl Hi].
  apply negb_true_iff in Hi as ->. specialize (Hfit Hl).
  destruct Hp as (?&?&_). unfold is_lenfld, wf_field in *.
  destruct (fd_type fp); try done.
  - by rewrite (proj2 (Z.ltb_ge _ _)), (proj2 (Z.ltb_ge _ _)) by lia.
  - apply andb_true_iff in Hw as [Hw1 Hw2]. apply Z.eqb_eq in Hw1, Hw2.
    rewrite Hw1 in Hfit. rewrite Hw2 in *. rewrite u32_small by lia.
    rewrite (proj2 (Z.ltb_ge _ _)), (proj2 (Z.ltb_ge _ _)) by lia. do 2 f_equal. lia.
Qed.

(** An immediate value leaves the end of the object after its fixed part. *)
Lemma in_length_immediate fp a n :
  fd_type fp = ft_lv -> immediate (ia_fs a) = true -> wf_field sd fp = true ->
  in_length sd fp p (ia_fs a) n (ia_roof a) = (None, cur p + sd_size sd).
Proof.
  unfold in_length. intros -> -> Hw. rewrite (wf_pbs_left _ _ Hp).
  by rewrite Z.ltb_irrefl, (proj2 (Z.ltb_ge _ _)) by lia.
Qed.

Lemma has_deferred_num fp rest v vs fs :
  is_end fp = false ->
  match fd_type fp with ft_zig | ft_raw => False | _ => True end ->
  has_deferred (fp :: rest) (v :: vs) fs =
  deferred fp fs || has_deferred rest vs (next_fs fp fs (val_num (fd_size fp) v)).
Proof. unfold is_end. cbn [has_deferred]. by destruct (fd_type fp). Qed.

(** The bytes of the remaining fields are in memory at the cursor. *)
Definition in_view (fps : list field_desc) (vs : list fval) (a : in_acc) : Prop :=
  let w := wire (len_bytes total) fps vs (ia_fs a) in
  load_bytes m (ia_cur a) (length w) = Some w.

Definition in_pre (fps : list field_desc) (vs : list fval) (a : in_acc) : Prop :=
  valid_fields sd fps vs (ia_fs a) /\ in_view fps vs a /\
  in_inv sd p (fields_size fps) a /\
  (none_of is_lenfld fps = false -> ia_roof a = cur p + sd_size sd) /\
  (immediate (ia_fs a) = true -> none_of is_ftlen fps = true).

Definition in_post (fps : list field_desc) (vs : list fval) (a : in_acc)
    (r : outcome diag in_acc) : Prop :=
  exists a', r = Ok a' /\
    ia_out a' = ia_out a ++ host_values total fps vs (ia_fs a) /\
    ia_cur a' = ia_cur a + fields_size fps /\
    ia_roof a' = if has_deferred fps vs (ia_fs a) then cur p + total else ia_roof a.

(** One field read: what the rest of the loop does completes it. *)
Lemma in_post_step fp rest v vs a hv a1 r :
  host_values total (fp :: rest) (v :: vs) (ia_fs a) =
    hv :: host_values total rest vs (ia_fs a1) ->
  ia_out a1 = ia_out a ++ [hv] -> ia_cur a1 = ia_cur a + fd_size fp ->
  (has_deferred (fp :: rest) (v :: vs) (ia_fs a) = has_deferred rest vs (ia_fs a1)
   /\ ia_roof a1 = ia_roof a \/
   has_deferred (fp :: rest) (v :: vs) (ia_fs a) = true
   /\ has_deferred rest vs (ia_fs a1) = false /\ ia_roof a1 = cur p + total) ->
  in_post rest vs a1 r -> in_post (fp :: rest) (v :: vs) a r.
Proof.
  intros Hh Ho Hc Hr (a'&->&Ho'&Hc'&Hr'). exists a'. split; [done|].
  rewrite Hh, Ho', Ho, <- app_assoc. split; [done|]. split.
  - rewrite Hc', Hc. cbn [fields_size foldr]. unfold fields_size. lia.
  - destruct Hr as [[-> <-]|(->&Hf&<-)]; [done|]. by rewrite Hf in Hr'.
Qed.

Lemma in_view_split hd tl (a : in_acc) c :
  load_bytes m (ia_cur a) (length (hd ++ tl)) = Some (hd ++ tl) ->
  Z.of_nat (length hd) = c ->
  load_bytes m (ia_cur a) (Z.to_nat c) = Some hd /\
  load_bytes m (ia_cur a + c) (length tl) = Some tl.
Proof. intros H <-. apply load_bytes_cat in H as [H1 H2]. by rewrite Nat2Z.id. Qed.

Lemma none_of_cons f fp rest :
  none_of f (fp :: rest) = negb (f fp) && none_of f rest.
Proof. done. Qed.

Lemma in_pre_tail fp rest vs a a1 :
  in_inv sd p (fields_size (fp :: rest)) a -> 0 <= fd_size fp ->
  ia_cur a1 = ia_cur a + fd_size fp ->
  valid_fields sd rest vs (ia_fs a1) -> in_view rest vs a1 ->
  cur p + sd_size sd <= ia_roof a1 <= roof p ->
  (none_of is_lenfld rest = false -> ia_roof a1 = cur p + sd_size sd) ->
  (immediate (ia_fs a1) = true -> none_of is_ftlen rest = true) ->
  in_pre rest vs a1.
Proof.
  intros (Hc&Hs&Hr) Hsz Hc1 Hv Hw Hro Hl Hi. split; [done|]. split; [done|].
  split; [|done]. cbn [fields_size foldr] in Hs. unfold in_inv, fields_size in *. lia.
Qed.

Section Step.
Context (fp : field_desc) (rest : list field_desc) (v : fval) (vs : list fval) (a : in_acc).
Hypothesis Hw : wf_field sd fp = true.
Hypothesis Hend : is_end fp = false.
Hypothesis Hone : is_lenfld fp = true -> none_of is_lenfld rest = true.
Hypothesis Haf : is_af fp = true -> none_of is_ftlen rest = true.
Hypothesis Hpre : in_pre (fp :: rest) (v :: vs) a.
Hypothesis IH : forall a1, in_pre rest vs a1 -> in_post rest vs a1 (in_fields m sd p rest a1).

(** A field copied byte by byte, whose bytes are [bs] and whose member is [hv]. *)
Lemma in_step_bytes bs hv a1 :
  (forall lb, wire lb (fp :: rest) (v :: vs) (ia_fs a) = bs ++ wire lb rest vs (ia_fs a)) ->
  Z.of_nat (length bs) = fd_size fp ->
  is_lenfld fp = false -> is_ftlen fp = false ->
  valid_fields sd rest vs (ia_fs a) ->
  host_values total (fp :: rest) (v :: vs) (ia_fs a) =
    hv :: host_values total rest vs (ia_fs a) ->
  has_deferred (fp :: rest) (v :: vs) (ia_fs a) = has_deferred rest vs (ia_fs a) ->
  a1 = mk_ia (ia_cur a + fd_size fp) (ia_roof a) (ia_fs a) (ia_out a ++ [hv]) ->
  load_bytes m (ia_cur a) (Z.to_nat (fd_size fp)) = Some bs /\
  in_post (fp :: rest) (v :: vs) a (in_fields m sd p rest a1).
Proof.
  intros Hwire Hlen Hnl Hnf Hv Hh Hd ->. pose proof (wf_field_size _ _ Hw) as Hsz.
  destruct Hpre as (_&Hview&Hinv&Hlf&Him). unfold in_view in Hview.
  rewrite Hwire in Hview. apply in_view_split with (c := fd_size fp) in Hview as [H1 H2]; [|done].
  split; [done|].
  apply in_post_step with (hv := hv) (a1 := mk_ia (ia_cur a + fd_size fp) (ia_roof a)
    (ia_fs a) (ia_out a ++ [hv])); [exact Hh|done|done|by left|].
  apply IH. eapply in_pre_tail; [exact Hinv|done|done|done|exact H2| | |].
  - destruct Hinv as (_&_&?). done.
  - intros Hn. apply Hlf. rewrite none_of_cons, Hnl. done.
  - intros Hn. specialize (Him Hn). by rewrite none_of_cons, Hnf in Him.
Qed.

(** A number that is not a length. *)
Lemma in_step_number :
  is_lenfld fp = false ->
  match fd_type fp with ft_zig | ft_raw | ft_mbz => False | _ => True end ->
  in_post (fp :: rest) (v :: vs) a
    (a' ← in_number m sd p fp a; in_fields m sd p rest a').
Proof.
  intros Hnl Ht. pose proof (wf_field_size _ _ Hw) as Hsz.
  pose proof (wf_field_width _ _ Hw) as Hwd.
  assert (width_ok (fd_size fp) = true) as Hwok
    by (unfold is_end in Hend; by destruct (fd_type fp)).
  assert (deferred fp (ia_fs a) = false) as Hd by (unfold deferred; by rewrite Hnl).
  destruct Hpre as (Hv&Hview&Hinv&Hlf&Him). unfold in_view in Hview.
  set (n := val_num (fd_size fp) v).
  assert (@check_value diag sd fp (ia_fs a) n = Ok (None, next_fs fp (ia_fs a) n) /\
    valid_fields sd rest vs (next_fs fp (ia_fs a) n)) as [Hck Hv1].
  { cbn [valid_fields] in Hv. rewrite Hd in Hv. unfold is_end in Hend.
    destruct (fd_type fp); try done; destruct Hv as (_&?&?); done. }
  assert (wire (len_bytes total) (fp :: rest) (v :: vs) (ia_fs a) =
    be_encode (Z.to_nat (fd_size fp)) n ++
    wire (len_bytes total) rest vs (next_fs fp (ia_fs a) n)) as Hwire.
  { cbn [wire]. rewrite Hd. unfold is_end in Hend. by destruct (fd_type fp). }
  rewrite Hwire in Hview. apply in_view_split with (c := fd_size fp) in Hview as [H1 H2];
    [|rewrite length_be_encode; lia].
  pose proof (net_value_encode (fd_size fp) n Hwok (val_num_bound _ _ Hsz)) as Hnv.
  erewrite in_deposit; [|exact H1|done|].
  2:{ rewrite Hnv. unfold is_lenfld in Hnl.
      destruct (fd_type fp); try discriminate Hnl; (split; [exact Hck|reflexivity]). }
  rewrite Hnv. simpl.
  apply in_post_step with (hv := FNum n) (a1 := mk_ia (ia_cur a + fd_size fp) (ia_roof a)
    (next_fs fp (ia_fs a) n) (ia_out a ++ [FNum n])); cbn [ia_fs ia_out ia_cur ia_roof]; [|done|done| |].
  - cbn [host_values]. rewrite Hd. unfold is_end in Hend. by destruct (fd_type fp).
  - left. split; [|done]. rewrite has_deferred_num, Hd; [done|done|].
    by destruct (fd_type fp).
  - apply IH. eapply in_pre_tail; [exact Hinv|done|done|exact Hv1|exact H2| | |]; cbn [ia_fs ia_roof].
    + destruct Hinv as (_&_&?). done.
    + intros Hn. apply Hlf. by rewrite none_of_cons, Hnl.
    + intros Hn. unfold next_fs in Hn. destruct (is_af fp) eqn:Haf'; [by apply Haf|].
      assert (immediate (ia_fs a) = true) as Hi
        by (unfold is_af in Haf'; destruct (fd_type fp); done).
      specialize (Him Hi). rewrite none_of_cons in Him. by apply andb_true_iff in Him as [_ ?].
Qed.

(** A length field, filled in or immediate. *)
Lemma in_step_len :
  is_lenfld fp = true -> len_fits fp ->
  in_post (fp :: rest) (v :: vs) a
    (a' ← in_number m sd p fp a; in_fields m sd p rest a').
Proof.
  intros Hl Hfit. pose proof (wf_field_size _ _ Hw) as Hsz.
  pose proof (wf_field_width _ _ Hw) as Hwd.
  assert (width_ok (fd_size fp) = true) as Hwok
    by (unfold is_lenfld in Hl; by destruct (fd_type fp)).
  pose proof (Hone Hl) as Hno.
  destruct Hpre as (Hv&Hview&Hinv&Hlf&Him). unfold in_view in Hview.
  assert (ia_roof a = cur p + sd_size sd) as Hroof
    by (apply Hlf; rewrite none_of_cons, Hl; done).
  set (n := if deferred fp (ia_fs a) then len_value total fp else val_num (fd_size fp) v).
  assert (next_fs fp (ia_fs a) (val_num (fd_size fp) v) = ia_fs a) as Hfs
    by (unfold next_fs, is_lenfld in *; by destruct (fd_type fp)).
  assert (valid_fields sd rest vs (ia_fs a)) as Hv1.
  { cbn [valid_fields] in Hv. rewrite Hfs in Hv. unfold is_lenfld in Hl.
    destruct (fd_type fp); try done; destruct (deferred fp (ia_fs a)); try done;
      by destruct Hv as (_&_&?). }
  assert (wire (len_bytes total) (fp :: rest) (v :: vs) (ia_fs a) =
    be_encode (Z.to_nat (fd_size fp)) n ++ wire (len_bytes total) rest vs (ia_fs a)) as Hwire.
  { cbn [wire]. rewrite Hfs. unfold n, len_bytes, is_lenfld in *.
    destruct (fd_type fp); try done; by destruct (deferred fp (ia_fs a)). }
  rewrite Hwire in Hview. apply in_view_split with (c := fd_size fp) in Hview as [H1 H2];
    [|rewrite length_be_encode; lia].
  assert (net_value (be_encode (Z.to_nat (fd_size fp)) n) = n) as Hnv.
  { apply net_value_encode; [done|]. unfold n.
    destruct (deferred fp (ia_fs a)); [by apply Hfit|by apply val_num_bound]. }
  set (rf := if deferred fp (ia_fs a) then cur p + total else cur p + sd_size sd).
  assert (in_length sd fp p (ia_fs a) n (ia_roof a) = (None, rf)) as Hlen.
  { unfold n, rf. destruct (deferred fp (ia_fs a)) eqn:Hd.
    - by apply in_length_deferred.
    - unfold deferred in Hd. rewrite Hl in Hd. simpl in Hd. apply negb_false_iff in Hd.
      apply in_length_immediate; auto. specialize (Him Hd).
      rewrite none_of_cons in Him. apply andb_true_iff in Him as [Hf _].
      unfold is_ftlen, is_lenfld in *. by destruct (fd_type fp). }
  assert (has_deferred (fp :: rest) (v :: vs) (ia_fs a) = deferred fp (ia_fs a)) as Hdef.
  { rewrite has_deferred_num; [|done|unfold is_lenfld in Hl; by destruct (fd_type fp)].
    rewrite has_deferred_no_len by done. by rewrite orb_false_r. }
  erewrite in_deposit; [|exact H1|done|].
  2:{ rewrite Hnv. unfold is_lenfld in Hl.
      destruct (fd_type fp); try discriminate Hl; (split; [exact Hlen|reflexivity]). }
  rewrite Hnv. simpl.
  apply in_post_step with (hv := FNum n) (a1 := mk_ia (ia_cur a + fd_size fp) rf
    (ia_fs a) (ia_out a ++ [FNum n])); cbn [ia_fs ia_out ia_cur ia_roof]; [|done|done| |].
  - cbn [host_values]. rewrite Hfs. unfold n, is_lenfld in *.
    destruct (fd_type fp); try done; by destruct (deferred fp (ia_fs a)).
  - rewrite Hdef, (has_deferred_no_len rest) by done. unfold rf. rewrite Hroof.
    destruct (deferred fp (ia_fs a)); [by right|by left].
  - apply IH. eapply in_pre_tail; [exact Hinv|done|done|exact Hv1|exact H2| | |];
      cbn [ia_fs ia_roof].
    + unfold rf. destruct Hp as (?&?&_). destruct (deferred fp (ia_fs a)); lia.
    + congruence.
    + intros Hi. specialize (Him Hi). rewrite none_of_cons in Him.
      by apply andb_true_iff in Him as [_ ?].
Qed.

End Step.

Lemma in_fields_post fps vs a :
  wf_fields sd fps = true -> Forall len_fits fps -> in_pre fps vs a ->
  in_post fps vs a (in_fields m sd p fps a).
Proof.
  revert vs a; induction fps as [|fp rest IH]; intros vs a Hw Hfit Hpre; [done|].
  pose proof (fields_size_nonneg _ _ Hw) as Hnn.
  apply wf_fields_cons in Hw as [Hf Hr]. pose proof (wf_field_size _ _ Hf) as Hsz.
  inversion_clear Hfit as [|? ? Hfp Hfrest].
  assert (fields_size (fp :: rest) = fd_size fp + fields_size rest) as Hfs by done.
  assert (0 <= fields_size rest) as Hrest.
  { destruct Hr as [[_ ->]|(_&_&Hr&_)]; [done|]. by eapply fields_size_nonneg. }
  pose proof Hpre as (Hv&_&(Hc&Hs&Hro)&_&_). rewrite Hfs in Hs. cbn [in_fields].
  rewrite (proj2 (Z.leb_le _ _)) by lia. simpl.
  rewrite (proj2 (Z.leb_le _ _)) by lia. simpl.
  destruct Hr as [[He ->]|(He&_&Hr&Hone&Haf)].
  - unfold is_end in He. destruct (fd_type fp) eqn:Ht; try done.
    unfold wf_field in Hf. rewrite Ht in Hf. apply Z.eqb_eq in Hf. simpl in Hs.
    rewrite (proj2 (Z.eqb_eq _ _)) by lia. simpl. exists a. split; [done|].
    rewrite Hfs, Hf. destruct vs; cbn [host_values has_deferred]; rewrite ?Ht, ?app_nil_r;
      repeat split; auto; simpl; lia.
  - assert (forall a1, in_pre rest (tl vs) a1 ->
      in_post rest (tl vs) a1 (in_fields m sd p rest a1)) as IH' by (intros; by apply IH).
    destruct vs as [|v vs].
    { cbn [valid_fields] in Hv. unfold is_end in He. by destruct (fd_type fp). }
    simpl in IH'.
    destruct (is_lenfld fp) eqn:Hl.
    + pose proof (in_step_len fp rest v vs a Hf He (fun _ => Hone eq_refl) Hpre IH' Hl Hfp) as Hgo.
      unfold is_lenfld in Hl. by destruct (fd_type fp).
    + pose proof (in_step_number fp rest v vs a Hf He Haf Hpre IH' Hl) as Hgo.
      destruct (fd_type fp) eqn:Ht;
        try (unfold is_end in He; by rewrite Ht in He); try (by apply Hgo).
      * unfold wf_field in Hf. by rewrite Ht in Hf.
      * cbn [valid_fields] in Hv. rewrite Ht in Hv. destruct Hv as [(bs&->&Hlen) Hv].
        edestruct (in_step_bytes fp rest (FBytes bs) vs a Hf Hpre IH' bs (FBytes bs))
          as [-> Hgo']; try (done || (intros; cbn [wire host_values has_deferred]; by rewrite Ht)).
        unfold is_ftlen. by rewrite Ht.
      * cbn [valid_fields] in Hv. rewrite Ht in Hv.
        assert (Z.of_nat (length (replicate (Z.to_nat (fd_size fp)) 0)) = fd_size fp) as Hlen
          by (rewrite length_replicate; lia).
        edestruct (in_step_bytes fp rest v vs a Hf Hpre IH'
          (replicate (Z.to_nat (fd_size fp)) 0) (FBytes (replicate (Z.to_nat (fd_size fp)) 0)))
          as [-> Hgo']; try (done || (intros; cbn [wire host_values has_deferred]; by rewrite Ht)).
        { unfold is_ftlen. by rewrite Ht. }
        simpl. rewrite length_replicate. exact Hgo'.
Qed.

End InWire.
