(* ===== verification/PacketObject.v ===== *)
(** Whole objects: a payload is emitted by [out_struct], [out_raw] and
    [close_output_pbs], and consumed by [in_struct] and [in_raw].  The file
    proves that emission refines the wire format of PacketSpec, that it succeeds
    whenever the values are acceptable and there is room, and that parsing an
    emitted object gives back the values and the variable part. *)
From S2P Require Import Prelude EnumNames Packet PacketSpec.

(** * Emitting a whole object

    The way every payload is produced: emit the fixed part, put the variable
    part in the stream of the object, close it. *)
Definition emit_object (vs : list fval) (sd : struct_desc) (body : list Z) (name : string)
    (outs obj : nat) (st : pstate) : outcome (diag * pstate) pstate :=
  st1 ← out_struct vs sd outs (Some obj) st;
  st2 ← out_raw body obj name st1;
  close_output_pbs obj st2.

(** The way every payload is consumed: parse the fixed part, then take the
    variable part out of the stream of the object. *)
Definition parse_object (sd : struct_desc) (blen : Z) (name : string)
    (ins obj : nat) (st : pstate) : outcome diag (list fval * list Z * pstate) :=
  '(vs, st1) ← in_struct sd ins (Some obj) st;
  '(body, st2) ← in_raw blen obj name st1;
  Ok (vs, body, st2).

Lemma length_wire lb sd fps vs fs :
  wf_fields sd fps = true -> valid_fields sd fps vs fs ->
  (forall fp, wf_field sd fp = true -> is_lenfld fp = true ->
    Z.of_nat (length (lb fp)) = fd_size fp) ->
  Z.of_nat (length (wire lb fps vs fs)) = fields_size fps.
Proof.
  intros Hw Hv Hlb. revert vs fs Hv; induction fps as [|fp rest IH]; intros vs fs Hv; [done|].
  apply wf_fields_cons in Hw as [Hf Hr]. pose proof (wf_field_size _ _ Hf) as Hsz.
  assert (fields_size (fp :: rest) = fd_size fp + fields_size rest) as -> by done.
  destruct Hr as [[He ->]|(He&_&Hr&_)].
  { unfold is_end, wf_field in *. destruct (fd_type fp) eqn:Ht; try done.
    apply Z.eqb_eq in Hf. rewrite Hf. destruct vs; cbn [wire]; by rewrite ?Ht. }
  specialize (IH Hr). cbn [valid_fields] in Hv.
  destruct vs as [|v vs]; [unfold is_end in He; by destruct (fd_type fp)|].
  destruct (deferred fp fs) eqn:Hd.
  - assert (is_lenfld fp = true) as Hl
      by (unfold deferred in Hd; by apply andb_true_iff in Hd as [? _]).
    specialize (Hlb fp Hf Hl). cbn [wire]. rewrite Hd. unfold is_lenfld in Hl.
    destruct (fd_type fp); try done; rewrite length_app, Nat2Z.inj_add, Hlb, IH; done.
  - cbn [wire]. rewrite Hd. destruct (fd_type fp) eqn:Ht;
      try (unfold is_end in He; by rewrite Ht in He); try done;
      rewrite length_app, Nat2Z.inj_add;
      try (destruct Hv as (_&_&Hv); rewrite length_be_encode, IH by done; lia).
    + destruct Hv as [(bs&->&Hlen) Hv]. simpl. rewrite IH; [lia|done].
    + rewrite length_replicate, IH by done. lia.
Qed.

Lemma out_struct_open sd vs outs o st p st1 :
  wf_desc sd = true -> ps_pbs st !! outs = Some p ->
  out_struct vs sd outs (Some o) st = Ok st1 ->
  exists m1 lf,
    store_bytes (ps_mem st) (cur p) (wire filler (sd_fields sd) vs fs0) = Some m1 /\
    st1 = mk_ps m1 (<[o := mk_pbs (Some outs) (Some sd) (sd_name sd) (cur p)
                             (cur p + sd_size sd) (roof p) lf]>
                      (<[outs := set_cur (roof p) p]> (ps_pbs st))) /\
    valid_fields sd (sd_fields sd) vs fs0 /\
    out_lenspec sd (sd_fields sd) vs fs0 (cur p) None lf /\
    sd_size sd <= roof p - cur p.
Proof.
  intros Hw Hg H. apply wf_desc_inv in Hw as (Hf&Hs&Hb).
  unfold out_struct, get_pbs in H. rewrite Hg in H. simpl in H.
  destruct (Z.ltb_spec (roof p - cur p) (sd_size sd)); [done|].
  destruct (out_fields _ _ _ _ _) as [a|[d m']|] eqn:Ho; [|done|done].
  injection H as <-. apply out_fields_post in Ho as (Hv&Hst&Hc&Hl); [|done].
  simpl in *. rewrite Hs in Hc. exists (oa_mem a), (oa_lenfld a). rewrite Hc. auto.
Qed.

Lemma out_raw_inv bs o name st q st2 :
  ps_pbs st !! o = Some q -> out_raw bs o name st = Ok st2 ->
  exists m2, store_bytes (ps_mem st) (cur q) bs = Some m2 /\
    st2 = mk_ps m2 (<[o := set_cur (cur q + Z.of_nat (length bs)) q]> (ps_pbs st)) /\
    Z.of_nat (length bs) <= pbs_left q.
Proof.
  intros Hg H. unfold out_raw, get_pbs in H. rewrite Hg in H. simpl in H.
  destruct (Z.ltb_spec (pbs_left q) (Z.of_nat (length bs))); [done|]. inv_ok. eauto.
Qed.

Lemma len_bytes_length sd total fp :
  wf_field sd fp = true -> is_lenfld fp = true ->
  Z.of_nat (length (len_bytes total fp)) = fd_size fp.
Proof.
  intros Hf _. apply wf_field_size in Hf. unfold len_bytes. rewrite length_be_encode. lia.
Qed.

Lemma filler_length sd fp :
  wf_field sd fp = true -> is_lenfld fp = true ->
  Z.of_nat (length (filler fp)) = fd_size fp.
Proof.
  intros Hf _. apply wf_field_size in Hf. unfold filler. rewrite length_replicate. lia.
Qed.

(** Closing the stream of an object turns the filler into the length. *)
Lemma close_wire {E} sd vs (q : pb_stream) body total st st3 outs p :
  wf_desc sd = true -> valid_fields sd (sd_fields sd) vs fs0 ->
  out_lenspec sd (sd_fields sd) vs fs0 (start q) None (lenfld q) ->
  (let w := wire filler (sd_fields sd) vs fs0 ++ body in
   load_bytes (ps_mem st) (start q) (length w) = Some w) ->
  cur q - start q = total ->
  sd_size sd <= total < 2 ^ 32 ->
  container q = Some outs -> ps_pbs st !! outs = Some p ->
  @close_pbs E q st = Ok st3 ->
  ps_pbs st3 = <[outs := set_cur (cur q) p]> (ps_pbs st) /\
  (let w := wire (len_bytes total) (sd_fields sd) vs fs0 ++ body in
   load_bytes (ps_mem st3) (start q) (length w) = Some w) /\
  (forall x, x < start q \/ start q + sd_size sd <= x -> ps_mem st3 !! x = ps_mem st !! x).
Proof.
  intros Hw Hv Hls Hload <- Hb Hco Hg H.
  apply wf_desc_inv in Hw as (Hf&Hs&Hsz).
  pose proof (length_wire filler sd _ _ _ Hf Hv (filler_length sd)) as Hlen. rewrite Hs in Hlen.
  unfold close_pbs in H. rewrite Hco in H. unfold out_lenspec in Hls.
  destruct (has_deferred _ _ _) eqn:Hd.
  - destruct Hls as (pre&fp&post&_&Hlf&Hl&Hwf&Hwire). rewrite Hlf in H. inv_ok.
    rewrite emit_be_store in *.
    match goal with H : store_bytes _ _ (be_encode _ ?n) = Some ?m |- _ =>
      assert (be_encode (Z.to_nat (fd_size fp)) n = len_bytes (cur q - start q) fp) as Hlb;
      [|rewrite Hlb in H; rename H into Hst] end.
    { unfold len_bytes, len_value, pbs_offset. rewrite u64_small, u32_small by lia.
      unfold wf_field, is_lenfld in Hwf, Hl. destruct (fd_type fp); try done.
      apply andb_true_iff in Hwf as [_ Hwf]. apply Z.eqb_eq in Hwf.
      rewrite u32_small by lia. done. }
    match goal with H : get_pbs _ _ = Ok _ |- _ =>
      unfold get_pbs in H; simpl in H; rewrite Hg in H; inv_ok end.
    pose proof (len_bytes_length sd (cur q - start q) fp Hwf Hl) as Hll.
    pose proof (filler_length sd fp Hwf Hl) as Hfl.
    split; [done|]. rewrite (Hwire filler), Hwire in *. rewrite !length_app in Hlen. split.
    + rewrite <- !app_assoc in *. eapply load_store_middle; eauto. lia.
    + simpl. intros x Hx. eapply store_bytes_frame; eauto. lia.
  - destruct Hls as [Hlf Hwire]. rewrite Hlf in H. simpl in H. inv_ok.
    match goal with H : get_pbs _ _ = Ok _ |- _ =>
      unfold get_pbs in H; simpl in H; rewrite Hg in H; inv_ok end.
    by rewrite Hwire.
Qed.

(** ** Emission refines the wire format *)

Lemma close_output_eq {E} o st q :
  ps_pbs st !! o = Some q -> @close_output_pbs E o st = close_pbs q st.
Proof. intros H. unfold close_output_pbs, get_pbs. by rewrite H. Qed.

Lemma emit_object_refines vs sd body name outs obj st st' p :
  wf_desc sd = true -> ps_pbs st !! outs = Some p -> wf_pbs (ps_mem st) p -> outs <> obj ->
  sd_size sd + Z.of_nat (length body) < 2 ^ 32 ->
  emit_object vs sd body name outs obj st = Ok st' ->
  let total := sd_size sd + Z.of_nat (length body) in
  let w := wire (len_bytes total) (sd_fields sd) vs fs0 ++ body in
  valid_fields sd (sd_fields sd) vs fs0 /\ total <= roof p - cur p /\
  ps_pbs st' !! outs = Some (set_cur (cur p + total) p) /\
  load_bytes (ps_mem st') (cur p) (length w) = Some w /\
  (forall x, x < cur p \/ cur p + total <= x -> ps_mem st' !! x = ps_mem st !! x).
Proof.
  intros Hw Hg Hp Hne Hb H total w. unfold emit_object in H. inv_ok.
  match goal with H : out_struct _ _ _ _ _ = Ok ?s |- _ => rename H into Hos, s into st1 end.
  match goal with H : out_raw _ _ _ _ = Ok ?s |- _ => rename H into Hor, s into st2 end.
  destruct (out_struct_open _ _ _ _ _ _ _ Hw Hg Hos) as (m1&lf&Hm1&->&Hv&Hl&Hroom).
  pose proof (wf_desc_inv _ Hw) as (Hf&Hs&Hsz).
  eapply out_raw_inv in Hor as (m2&Hm2&Hst2&Hleft); [|apply lookup_insert_eq]. subst st2.
  simpl in *. unfold pbs_left in Hleft; simpl in Hleft. destruct Hp as (?&?&?).
  rewrite u64_small in Hleft by lia.
  pose proof (length_wire filler sd _ _ _ Hf Hv (filler_length sd)) as Hlen. rewrite Hs in Hlen.
  assert (store_bytes (ps_mem st) (cur p) (wire filler (sd_fields sd) vs fs0 ++ body) = Some m2)
    as Hst by (eapply store_bytes_cons; eauto; by rewrite Hlen).
  erewrite close_output_eq in H by apply lookup_insert_eq.
  eapply close_wire with (total := total) in H as (Hpbs&Hld&Hfr);
    [|done|done|done|by eapply load_store_same|simpl; lia|lia|done
     |simpl; rewrite !lookup_insert_ne by done; apply lookup_insert_eq].
  split; [done|]. split; [lia|]. split; [|split; [done|]].
  - rewrite Hpbs, lookup_insert_eq. simpl. unfold set_cur; simpl. do 2 f_equal. lia.
  - intros x Hx. simpl in Hfr. rewrite Hfr by lia.
    eapply store_bytes_frame; [exact Hst|]. rewrite length_app. lia.
Qed.

(** ** Emission succeeds when the values are acceptable and there is room *)

Section OutTotal.
Context (sd : struct_desc) (p : pb_stream).
Hypothesis Hroom : sd_size sd <= roof p - cur p.

(** The loop has [rest] bytes to write, all of them mapped. *)
Definition out_ready (rest : Z) (a : out_acc) : Prop :=
  cur p <= oa_cur a /\ oa_cur a + rest = cur p + sd_size sd /\
  mapped (oa_mem a) (oa_cur a) (cur p + sd_size sd).

Lemma out_bytes_total {E} bs rest a :
  0 <= rest -> out_ready (Z.of_nat (length bs) + rest) a ->
  exists a', @out_bytes E bs a = Ok a' /\ out_ready rest a' /\
    oa_fs a' = oa_fs a /\ oa_lenfld a' = oa_lenfld a.
Proof.
  intros Hr (Hc&Hs&Hm). unfold out_bytes.
  destruct (store_bytes_some (oa_mem a) (oa_cur a) bs) as [m' Hm'].
  { intros x Hx. apply Hm. lia. }
  rewrite Hm'. simpl. eexists. split; [done|]. split; [|done].
  unfold out_ready; simpl. split; [lia|]. split; [lia|].
  eapply store_bytes_mapped; eauto. intros x Hx. apply Hm. lia.
Qed.

Lemma out_number_total fp n rest a fs :
  0 <= rest -> width_ok (fd_size fp) = true ->
  out_ready (fd_size fp + rest) a ->
  @check_value diag sd fp (oa_fs a) (val_num (fd_size fp) (FNum n)) = Ok (None, fs) ->
  exists a', out_number sd fp (FNum n) a = Ok a' /\ out_ready rest a' /\
    oa_fs a' = fs /\ oa_lenfld a' = oa_lenfld a.
Proof.
  intros Hr Hw Ha Hc. pose proof (width_ok_inv _ Hw) as Hi. unfold out_number. rewrite Hw. simpl.
  simpl in Hc. apply (check_value_any (E2 := diag * mem)) in Hc. rewrite Hc. simpl.
  rewrite emit_be_store.
  set (bs := be_encode _ _). assert (Z.of_nat (length bs) = fd_size fp) as Hl
    by (unfold bs; rewrite length_be_encode; lia).
  rewrite <- Hl in Ha. destruct (out_bytes_total (E := diag) bs rest a Hr Ha) as (a'&Ho&Ha'&_).
  unfold out_bytes in Ho. destruct (store_bytes _ _ _) as [m'|]; [|done].
  simpl in *. injection Ho as <-. rewrite Hl in Ha'. eauto.
Qed.

Lemma out_lenfld_total {E} fp rest a :
  0 <= rest -> 0 <= fd_size fp -> oa_lenfld a = None -> out_ready (fd_size fp + rest) a ->
  exists a', @out_lenfld E fp a = Ok a' /\ out_ready rest a' /\ oa_fs a' = oa_fs a.
Proof.
  intros Hr Hf Hl Ha. unfold out_lenfld. rewrite Hl. simpl.
  destruct (out_bytes_total (E := E) (replicate (Z.to_nat (fd_size fp)) 0xFA) rest a Hr)
    as (a'&->&Ha'&Hfs&_).
  { rewrite length_replicate, Z2Nat.id by done. done. }
  simpl. eauto.
Qed.

(** What the loop needs to go on with [fps]. *)
Definition out_pre (fps : list field_desc) (vs : list fval) (a : out_acc) : Prop :=
  valid_fields sd fps vs (oa_fs a) /\ out_ready (fields_size fps) a /\
  (none_of is_lenfld fps = false -> oa_lenfld a = None).

(** The three kinds of steps that the loop makes. *)
Lemma out_pre_number fp rest n vs a :
  wf_field sd fp = true -> 0 <= fields_size rest -> deferred fp (oa_fs a) = false ->
  match fd_type fp with ft_zig | ft_raw | ft_end | ft_mbz => False | _ => True end ->
  out_pre (fp :: rest) (FNum n :: vs) a ->
  exists a', out_number sd fp (FNum n) a = Ok a' /\ out_pre rest vs a'.
Proof.
  intros Hf Hr Hd Ht (Hv&Ha&Hl). pose proof (wf_field_width _ _ Hf) as Hw.
  assert (width_ok (fd_size fp) = true) as Hw' by (by destruct (fd_type fp)).
  cbn [valid_fields] in Hv. rewrite Hd in Hv.
  assert (@check_value diag sd fp (oa_fs a) (val_num (fd_size fp) (FNum n)) =
            Ok (None, next_fs fp (oa_fs a) (val_num (fd_size fp) (FNum n))) /\
          valid_fields sd rest vs (next_fs fp (oa_fs a) (val_num (fd_size fp) (FNum n))))
    as [Hc Hv'] by (destruct (fd_type fp); tauto).
  destruct (out_number_total fp n (fields_size rest) a _ Hr Hw' Ha Hc) as (a'&->&Ha'&Hfs&Hl').
  exists a'. split; [done|]. rewrite <- Hfs in Hv'. split; [done|]. split; [done|].
  intros Hn. rewrite Hl'. apply Hl. rewrite none_of_cons, Hn. apply andb_false_r.
Qed.

Lemma out_pre_bytes {E} fp rest v vs bs a :
  0 <= fields_size rest -> Z.of_nat (length bs) = fd_size fp ->
  valid_fields sd rest vs (oa_fs a) -> out_pre (fp :: rest) (v :: vs) a ->
  exists a', @out_bytes E bs a = Ok a' /\ out_pre rest vs a'.
Proof.
  intros Hr Hlen Hv' (Hv&Ha&Hl). cbn [fields_size foldr] in Ha. rewrite <- Hlen in Ha.
  destruct (out_bytes_total (E := E) bs (fields_size rest) a Hr Ha) as (a'&->&Ha'&Hfs&Hl').
  exists a'. split; [done|]. unfold out_pre. rewrite Hfs. split; [done|]. split; [done|].
  intros Hn. rewrite Hl'. apply Hl. rewrite none_of_cons, Hn. apply andb_false_r.
Qed.

Lemma out_pre_len {E} fp rest v vs a :
  wf_field sd fp = true -> 0 <= fields_size rest -> deferred fp (oa_fs a) = true ->
  none_of is_lenfld rest = true -> out_pre (fp :: rest) (v :: vs) a ->
  exists a', @out_lenfld E fp a = Ok a' /\ out_pre rest vs a'.
Proof.
  intros Hf Hr Hd Hn (Hv&Ha&Hl).
  assert (is_lenfld fp = true) as Hlf
    by (unfold deferred in Hd; by apply andb_true_iff in Hd as [? _]).
  destruct (out_lenfld_total (E := E) fp (fields_size rest) a Hr) as (a'&->&Ha'&Hfs);
    [by eapply wf_field_size|apply Hl; by rewrite none_of_cons, Hlf|done|].
  exists a'. split; [done|]. unfold out_pre. rewrite Hfs. split; [|split; [done|congruence]].
  cbn [valid_fields] in Hv. rewrite Hd in Hv. unfold is_lenfld in Hlf.
  by destruct (fd_type fp).
Qed.

Lemma out_fields_total fps vs a :
  wf_fields sd fps = true -> out_pre fps vs a ->
  exists a', out_fields sd p fps vs a = Ok a'.
Proof.
  revert vs a; induction fps as [|fp rest IH]; intros vs a Hw Hpre; [done|].
  apply wf_fields_cons in Hw as [Hf Hr]. pose proof (wf_field_size _ _ Hf) as Hsz.
  assert (0 <= fields_size rest) as Hrest.
  { destruct Hr as [[_ ->]|(_&_&Hr&_)]; [done|]. by eapply fields_size_nonneg. }
  pose proof Hpre as (Hv&(Hc&Hs&_)&_).
  assert (fields_size (fp :: rest) = fd_size fp + fields_size rest) as Hfs by done.
  cbn [out_fields]. rewrite (proj2 (Z.leb_le _ _)) by lia. simpl.
  rewrite (proj2 (Z.leb_le _ _)) by lia. simpl.
  destruct Hr as [[He ->]|(He&_&Hr&Hone&_)].
  { unfold is_end, wf_field in He, Hf. destruct (fd_type fp); try done.
    apply Z.eqb_eq in Hf. simpl in Hs.
    rewrite (proj2 (Z.eqb_eq _ _)) by lia. simpl. destruct vs; eauto. }
  destruct vs as [|v vs]; [cbn [valid_fields] in Hv; unfold is_end in He; by destruct (fd_type fp)|].
  pose proof Hv as Hv'. cbn [valid_fields] in Hv'.
  pose proof (fun n a => out_pre_number fp rest n vs a Hf Hrest) as Hnum.
  destruct (deferred fp (oa_fs a)) eqn:Hd.
  - pose proof Hd as [Hl Hi]%andb_true_iff. apply negb_true_iff in Hi.
    destruct (out_pre_len (E := diag * mem) fp rest v vs a Hf Hrest Hd (Hone Hl) Hpre)
      as (a'&Ho&Hpre').
    unfold is_lenfld in Hl.
    destruct (fd_type fp) eqn:Ht; try done; rewrite Hi, Ho; simpl; by apply IH.
  - assert (is_lenfld fp = true -> immediate (oa_fs a) = true) as Him.
    { intros Hl. unfold deferred in Hd. rewrite Hl in Hd. by apply negb_false_iff in Hd. }
    unfold is_lenfld in Him.
    destruct (fd_type fp) eqn:Ht; try (unfold is_end in He; by rewrite Ht in He); try done;
      try rewrite Him by done;
      try (destruct Hv' as [(n&->) _]; destruct (Hnum n a Hd I Hpre) as (a'&->&Hpre');
           simpl; by apply IH).
    + destruct Hv' as [(bs&->&Hlen) Hv']. unfold member_bytes. rewrite (proj2 (Z.eqb_eq _ _) Hlen).
      simpl. edestruct (out_pre_bytes (E := diag * mem)) as (a'&->&Hpre'); eauto.
    + edestruct (out_pre_bytes (E := diag * mem) fp rest v vs
        (replicate (Z.to_nat (fd_size fp)) 0)) as (a'&->&Hpre'); eauto.
      rewrite length_replicate. lia.
Qed.

End OutTotal.

Lemma out_struct_total vs sd outs o st p :
  wf_desc sd = true -> ps_pbs st !! outs = Some p -> wf_pbs (ps_mem st) p ->
  valid_fields sd (sd_fields sd) vs fs0 -> sd_size sd <= roof p - cur p ->
  exists st1, out_struct vs sd outs (Some o) st = Ok st1.
Proof.
  intros Hw Hg (?&?&Hm) Hv Hroom. apply wf_desc_inv in Hw as (Hf&Hs&Hsz).
  destruct (out_fields_total sd p Hroom (sd_fields sd) vs
    (mk_oa (ps_mem st) (cur p) fs0 None) Hf) as [a' Ha'].
  { split; [done|]. split; [|done]. unfold out_ready; simpl. rewrite Hs.
    repeat split; try lia. intros x Hx. apply Hm. lia. }
  unfold out_struct, get_pbs. rewrite Hg. simpl.
  rewrite (proj2 (Z.ltb_ge _ _)) by done. unfold fs0 in Ha'. rewrite Ha'. eauto.
Qed.

Lemma out_raw_total bs o name st q :
  ps_pbs st !! o = Some q -> wf_pbs (ps_mem st) q -> Z.of_nat (length bs) <= roof q - cur q ->
  exists st2, out_raw bs o name st = Ok st2.
Proof.
  intros Hg Hq Hl. unfold out_raw, get_pbs. rewrite Hg. simpl.
  rewrite (wf_pbs_left _ _ Hq), (proj2 (Z.ltb_ge _ _)) by lia. destruct Hq as (?&?&Hm).
  destruct (store_bytes_some (ps_mem st) (cur q) bs) as [m' ->].
  { intros x Hx. apply Hm. lia. }
  simpl. eauto.
Qed.

Lemma close_output_total {E} o st q outs p :
  ps_pbs st !! o = Some q -> container q = Some outs -> ps_pbs st !! outs = Some p ->
  match lenfld q with
  | None => True
  | Some (a, fp) => 0 <= fd_size fp /\ mapped (ps_mem st) a (a + fd_size fp)
  end ->
  exists st3, @close_output_pbs E o st = Ok st3.
Proof.
  intros Hg Hc Ho Hl. rewrite (close_output_eq _ _ _ Hg). unfold close_pbs. rewrite Hc.
  destruct (lenfld q) as [[a fp]|].
  - destruct Hl as [Hf Hl]. rewrite emit_be_store. set (bs := be_encode _ _).
    destruct (store_bytes_some (ps_mem st) a bs) as [m' ->].
    { intros x Hx. apply Hl. unfold bs in Hx. rewrite length_be_encode in Hx. lia. }
    unfold get_pbs. simpl. rewrite Ho. simpl. eauto.
  - unfold get_pbs. simpl. rewrite Ho. simpl. eauto.
Qed.

(** Where the length field of an object lies. *)
Lemma out_lenspec_within sd vs c lf :
  wf_desc sd = true -> valid_fields sd (sd_fields sd) vs fs0 ->
  out_lenspec sd (sd_fields sd) vs fs0 c None lf ->
  match lf with
  | None => True
  | Some (a, fp) => 0 <= fd_size fp /\ c <= a /\ a + fd_size fp <= c + sd_size sd
  end.
Proof.
  intros Hw Hv Hl. apply wf_desc_inv in Hw as (Hf&Hs&Hsz). unfold out_lenspec in Hl.
  pose proof (length_wire filler sd _ _ _ Hf Hv (filler_length sd)) as Hlen.
  destruct (has_deferred _ _ _); [|by destruct Hl as [-> _]].
  destruct Hl as (pre&fp&post&_&->&Hlf&Hwf&Hwire). rewrite Hwire, !length_app in Hlen.
  pose proof (filler_length sd fp Hwf Hlf). pose proof (wf_field_size _ _ Hwf). lia.
Qed.

Lemma emit_object_total vs sd body name outs obj st p :
  wf_desc sd = true -> ps_pbs st !! outs = Some p -> wf_pbs (ps_mem st) p -> outs <> obj ->
  valid_fields sd (sd_fields sd) vs fs0 ->
  sd_size sd + Z.of_nat (length body) <= roof p - cur p ->
  exists st', emit_object vs sd body name outs obj st = Ok st'.
Proof.
  intros Hw Hg Hp Hne Hv Hroom. pose proof (wf_desc_inv _ Hw) as (Hf&Hs&Hsz).
  destruct (out_struct_total vs sd outs obj st p) as [st1 H1]; auto; [lia|].
  unfold emit_object. rewrite H1. simpl.
  destruct (out_struct_open _ _ _ _ _ _ _ Hw Hg H1) as (m1&lf&Hm1&->&_&Hl&_).
  destruct Hp as (?&?&Hm). pose proof (store_bytes_mapped _ _ _ _ _ _ Hm1 Hm) as Hmap.
  match goal with |- context [out_raw _ _ _ ?s] =>
    edestruct (out_raw_total body obj name s) as [st2 H2] end;
    [apply lookup_insert_eq| |simpl; lia|].
  { split; simpl; [lia|]. split; [lia|]. intros x Hx. apply Hmap. simpl in Hx. lia. }
  rewrite H2. simpl.
  eapply out_raw_inv in H2 as (m2&Hm2&Hst2&_); [|apply lookup_insert_eq]. subst st2.
  simpl in *. pose proof (store_bytes_mapped _ _ _ _ _ _ Hm2 Hmap) as Hmap2.
  pose proof (out_lenspec_within _ _ _ _ Hw Hv Hl) as Hin.
  eapply close_output_total; [apply lookup_insert_eq|done| |].
  - simpl. rewrite !lookup_insert_ne by done. apply lookup_insert_eq.
  - simpl. destruct lf as [[a fp]|]; [|done]. destruct Hin as (?&?&?). split; [done|].
    intros x Hx. apply Hmap2. lia.
Qed.

(** ** Parsing reads back what the wire format says *)

(** The object of [total] bytes has a length field that can hold its length,
    or no variable part. *)
Definition representable (sd : struct_desc) (vs : list fval) (total : Z) : Prop :=
  Forall (len_fits total) (sd_fields sd) /\
  (has_deferred (sd_fields sd) vs fs0 = true \/ total = sd_size sd).

Lemma in_struct_wire vs sd ins obj st p total :
  wf_desc sd = true -> ps_pbs st !! ins = Some p -> wf_pbs (ps_mem st) p ->
  ins <> obj ->
  valid_fields sd (sd_fields sd) vs fs0 -> representable sd vs total ->
  sd_size sd <= total <= roof p - cur p ->
  (let w := wire (len_bytes total) (sd_fields sd) vs fs0 in
   load_bytes (ps_mem st) (cur p) (length w) = Some w) ->
  in_struct sd ins (Some obj) st =
  Ok (host_values total (sd_fields sd) vs fs0,
      mk_ps (ps_mem st)
        (<[ins := set_cur (cur p + total) p]>
           (<[obj := mk_pbs (Some ins) (Some sd) (sd_name sd) (cur p) (cur p + sd_size sd)
                       (cur p + total) None]> (ps_pbs st)))).
Proof.
  intros Hw Hg Hp Hne Hv [Hfit Hdef] Ht Hld. pose proof (wf_desc_inv _ Hw) as (Hf&Hs&Hsz).
  destruct (in_fields_post (ps_mem st) sd p total Hp Hsz Ht (sd_fields sd) vs
    (mk_ia (cur p) (cur p + sd_size sd) fs0 []) Hf Hfit) as (a'&Ha&Ho&Hc&Hr).
  { split; [done|]. split; [done|]. split; [|split; done].
    unfold in_inv; simpl. rewrite Hs. lia. }
  simpl in *. unfold in_struct, get_pbs. rewrite Hg. simpl.
  rewrite (proj2 (Z.ltb_ge _ _)) by lia. unfold fs0 in Ha. rewrite Ha. simpl.
  rewrite lookup_insert_ne, Hg by done. simpl. rewrite Ho, Hc, Hs.
  assert (ia_roof a' = cur p + total) as ->; [|done].
  rewrite Hr. destruct Hdef as [->|Hdef]; [done|]. destruct (has_deferred _ _ _); lia.
Qed.

Lemma parse_object_wire vs sd body name ins obj st p :
  wf_desc sd = true -> ps_pbs st !! ins = Some p -> wf_pbs (ps_mem st) p ->
  ins <> obj -> valid_fields sd (sd_fields sd) vs fs0 ->
  let total := sd_size sd + Z.of_nat (length body) in
  let w := wire (len_bytes total) (sd_fields sd) vs fs0 ++ body in
  representable sd vs total -> total <= roof p - cur p ->
  load_bytes (ps_mem st) (cur p) (length w) = Some w ->
  exists st', parse_object sd (Z.of_nat (length body)) name ins obj st =
    Ok (host_values total (sd_fields sd) vs fs0, body, st') /\
    ps_mem st' = ps_mem st /\ ps_pbs st' !! ins = Some (set_cur (cur p + total) p).
Proof.
  intros Hw Hg Hp Hne Hv total w Hrep Hroom Hld.
  pose proof (wf_desc_inv _ Hw) as (Hf&Hs&Hsz).
  apply load_bytes_cat in Hld as [Hld1 Hld2].
  pose proof (length_wire (len_bytes total) sd _ _ _ Hf Hv (len_bytes_length sd total)) as Hlen.
  rewrite Hs in Hlen. unfold parse_object.
  rewrite (in_struct_wire vs sd ins obj st p total) by (done || lia). simpl.
  unfold in_raw, get_pbs. simpl. rewrite lookup_insert_ne, lookup_insert_eq by done. simpl.
  destruct Hp as (?&?&_). unfold pbs_left; simpl. rewrite u64_small by lia.
  rewrite (proj2 (Z.ltb_ge _ _)) by lia. rewrite Nat2Z.id, <- Hlen, Hld2. simpl.
  eexists. split; [done|]. split; [done|]. simpl.
  rewrite lookup_insert_ne, lookup_insert_eq by done. done.
Qed.
