(* ===== verification/PacketDescs.v ===== *)
(** The structure descriptors of programs/pluto/packet.c (lines 33-1330, and
    the payload tables), transcribed one for one: a field is its type, its size
    in bytes, its name and its table of values; the size of a structure is the
    [sizeof] of the C structure of packet.h that the comment names. *)
From S2P Require Import Prelude EnumNames Constants Packet.

Definition isa_fields : list field_desc :=
  [mk_fd ft_raw 8 (Some "initiator cookie") FN_null;
   mk_fd ft_raw 8 (Some "responder cookie") FN_null;
   mk_fd ft_enum 1 (Some "next payload type") (FN_enum payload_names_ikev1orv2);
   mk_fd ft_loose_enum 1 (Some "ISAKMP version") (FN_enum version_names);
   mk_fd ft_enum 1 (Some "exchange type") (FN_enum exchange_names_ikev1orv2);
   mk_fd ft_set 1 (Some "flags") (FN_set isakmp_flag_names);
   mk_fd ft_raw 4 (Some "message ID") FN_null;
   mk_fd ft_len 4 (Some "length") FN_null;
   mk_fd ft_end 0 None FN_null].

Definition isakmp_hdr_desc : struct_desc :=
  mk_sd "ISAKMP Message" isa_fields 28 (* sizeof(struct isakmp_hdr) *).

Definition isag_fields : list field_desc :=
  [mk_fd ft_enum 1 (Some "next payload type") (FN_enum payload_names_ikev1orv2);
   mk_fd ft_zig 1 None FN_null;
   mk_fd ft_len 2 (Some "length") FN_null;
   mk_fd ft_end 0 None FN_null].

Definition isaat_fields_oakley : list field_desc :=
  [mk_fd ft_af_enum 2 (Some "af+type") (FN_enum oakley_attr_names);
   mk_fd ft_lv 2 (Some "length/value") FN_null;
   mk_fd ft_end 0 None FN_null].

Definition isakmp_oakley_attribute_desc : struct_desc :=
  mk_sd "ISAKMP Oakley attribute" isaat_fields_oakley 4 (* sizeof(struct isakmp_attribute) *).

Definition isaat_fields_ipsec : list field_desc :=
  [mk_fd ft_af_enum 2 (Some "af+type") (FN_enum ipsec_attr_names);
   mk_fd ft_lv 2 (Some "length/value") FN_null;
   mk_fd ft_end 0 None FN_null].

Definition isakmp_ipsec_attribute_desc : struct_desc :=
  mk_sd "ISAKMP IPsec DOI attribute" isaat_fields_ipsec 4 (* sizeof(struct isakmp_attribute) *).

Definition isaat_fields_xauth : list field_desc :=
  [mk_fd ft_af_loose_enum 2 (Some "ModeCfg attr type") (FN_enum modecfg_attr_names);
   mk_fd ft_lv 2 (Some "length/value") FN_null;
   mk_fd ft_end 0 None FN_null].

Definition isakmp_xauth_attribute_desc : struct_desc :=
  mk_sd "ISAKMP ModeCfg attribute" isaat_fields_xauth 4 (* sizeof(struct isakmp_attribute) *).

Definition isasa_fields : list field_desc :=
  [mk_fd ft_enum 1 (Some "next payload type") (FN_enum payload_names_ikev1orv2);
   mk_fd ft_zig 1 None FN_null;
   mk_fd ft_len 2 (Some "length") FN_null;
   mk_fd ft_enum 4 (Some "DOI") (FN_enum doi_names);
   mk_fd ft_end 0 None FN_null].

Definition isakmp_sa_desc : struct_desc :=
  mk_sd "ISAKMP Security Association Payload" isasa_fields 8 (* sizeof(struct isakmp_sa) *).

Definition ipsec_sit_field : list field_desc :=
  [mk_fd ft_set 4 (Some "IPsec DOI SIT") (FN_set sit_bit_names);
   mk_fd ft_end 0 None FN_null].

Definition ipsec_sit_desc : struct_desc :=
  mk_sd "IPsec DOI SIT" ipsec_sit_field 4 (* sizeof(u_int32_t) *).

Definition isap_fields : list field_desc :=
  [mk_fd ft_enum 1 (Some "next payload type") (FN_enum ikev1_payload_names);
   mk_fd ft_zig 1 None FN_null;
   mk_fd ft_len 2 (Some "length") FN_null;
   mk_fd ft_nat 1 (Some "proposal number") FN_null;
   mk_fd ft_enum 1 (Some "protocol ID") (FN_enum ikev1_protocol_names);
   mk_fd ft_nat 1 (Some "SPI size") FN_null;
   mk_fd ft_nat 1 (Some "number of transforms") FN_null;
   mk_fd ft_end 0 None FN_null].

Definition isakmp_proposal_desc : struct_desc :=
  mk_sd "ISAKMP Proposal Payload" isap_fields 8 (* sizeof(struct isakmp_proposal) *).

Definition isat_fields_isakmp : list field_desc :=
  [mk_fd ft_enum 1 (Some "next payload type") (FN_enum ikev1_payload_names);
   mk_fd ft_zig 1 None FN_null;
   mk_fd ft_len 2 (Some "length") FN_null;
   mk_fd ft_nat 1 (Some "ISAKMP transform number") FN_null;
   mk_fd ft_enum 1 (Some "ISAKMP transform ID") (FN_enum isakmp_transformid_names);
   mk_fd ft_zig 2 None FN_null;
   mk_fd ft_end 0 None FN_null].

Definition isakmp_isakmp_transform_desc : struct_desc :=
  mk_sd "ISAKMP Transform Payload (ISAKMP)" isat_fields_isakmp 8 (* sizeof(struct isakmp_transform) *).

Definition isat_fields_ah : list field_desc :=
  [mk_fd ft_enum 1 (Some "next payload type") (FN_enum ikev1_payload_names);
   mk_fd ft_zig 1 None FN_null;
   mk_fd ft_len 2 (Some "length") FN_null;
   mk_fd ft_nat 1 (Some "AH transform number") FN_null;
   mk_fd ft_enum 1 (Some "AH transform ID") (FN_enum ah_transformid_names);
   mk_fd ft_zig 2 None FN_null;
   mk_fd ft_end 0 None FN_null].

Definition isakmp_ah_transform_desc : struct_desc :=
  mk_sd "ISAKMP Transform Payload (AH)" isat_fields_ah 8 (* sizeof(struct isakmp_transform) *).

Definition isat_fields_esp : list field_desc :=
  [mk_fd ft_enum 1 (Some "next payload type") (FN_enum ikev1_payload_names);
   mk_fd ft_zig 1 None FN_null;
   mk_fd ft_len 2 (Some "length") FN_null;
   mk_fd ft_nat 1 (Some "ESP transform number") FN_null;
   mk_fd ft_enum 1 (Some "ESP transform ID") (FN_enum esp_transformid_names);
   mk_fd ft_zig 2 None FN_null;
   mk_fd ft_end 0 None FN_null].

Definition isakmp_esp_transform_desc : struct_desc :=
  mk_sd "ISAKMP Transform Payload (ESP)" isat_fields_esp 8 (* sizeof(struct isakmp_transform) *).

Definition isat_fields_ipcomp : list field_desc :=
  [mk_fd ft_enum 1 (Some "next payload type") (FN_enum ikev1_payload_names);
   mk_fd ft_zig 1 None FN_null;
   mk_fd ft_len 2 (Some "length") FN_null;
   mk_fd ft_nat 1 (Some "IPCOMP transform number") FN_null;
   mk_fd ft_enum 1 (Some "IPCOMP transform ID") (FN_enum ipcomp_transformid_names);
   mk_fd ft_zig 2 None FN_null;
   mk_fd ft_end 0 None FN_null].

Definition isakmp_ipcomp_transform_desc : struct_desc :=
  mk_sd "ISAKMP Transform Payload (COMP)" isat_fields_ipcomp 8 (* sizeof(struct isakmp_transform) *).

Definition isakmp_keyex_desc : struct_desc :=
  mk_sd "ISAKMP Key Exchange Payload" isag_fields 4 (* sizeof(struct isakmp_generic) *).

Definition isaid_fields : list field_desc :=
  [mk_fd ft_enum 1 (Some "next payload type") (FN_enum payload_names_ikev1orv2);
   mk_fd ft_zig 1 None FN_null;
   mk_fd ft_len 2 (Some "length") FN_null;
   mk_fd ft_enum 1 (Some "ID type") (FN_enum ike_idtype_names);
   mk_fd ft_nat 1 (Some "DOI specific A") FN_null;
   mk_fd ft_nat 2 (Some "DOI specific B") FN_null;
   mk_fd ft_end 0 None FN_null].

Definition isakmp_identification_desc : struct_desc :=
  mk_sd "ISAKMP Identification Payload" isaid_fields 8 (* sizeof(struct isakmp_id) *).

Definition isaiid_fields : list field_desc :=
  [mk_fd ft_enum 1 (Some "next payload type") (FN_enum payload_names_ikev1orv2);
   mk_fd ft_zig 1 None FN_null;
   mk_fd ft_len 2 (Some "length") FN_null;
   mk_fd ft_enum 1 (Some "ID type") (FN_enum ike_idtype_names);
   mk_fd ft_nat 1 (Some "Protocol ID") FN_null;
   mk_fd ft_nat 2 (Some "port") FN_null;
   mk_fd ft_end 0 None FN_null].

Definition isakmp_ipsec_identification_desc : struct_desc :=
  mk_sd "ISAKMP Identification Payload (IPsec DOI)" isaiid_fields 8 (* sizeof(struct isakmp_ipsec_id) *).

Definition isacert_fields : list field_desc :=
  [mk_fd ft_enum 1 (Some "next payload type") (FN_enum payload_names_ikev1orv2);
   mk_fd ft_zig 1 None FN_null;
   mk_fd ft_len 2 (Some "length") FN_null;
   mk_fd ft_enum 1 (Some "cert encoding") (FN_enum ike_cert_type_names);
   mk_fd ft_end 0 None FN_null].

Definition isakmp_ipsec_certificate_desc : struct_desc :=
  mk_sd "ISAKMP Certificate Payload" isacert_fields 5 (* ISAKMP_CERT_SIZE *).

Definition isacr_fields : list field_desc :=
  [mk_fd ft_enum 1 (Some "next payload type") (FN_enum payload_names_ikev1orv2);
   mk_fd ft_zig 1 None FN_null;
   mk_fd ft_len 2 (Some "length") FN_null;
   mk_fd ft_enum 1 (Some "cert type") (FN_enum ike_cert_type_names);
   mk_fd ft_end 0 None FN_null].

Definition isakmp_ipsec_cert_req_desc : struct_desc :=
  mk_sd "ISAKMP Certificate RequestPayload" isacr_fields 5 (* ISAKMP_CR_SIZE *).

Definition isakmp_hash_desc : struct_desc :=
  mk_sd "ISAKMP Hash Payload" isag_fields 4 (* sizeof(struct isakmp_generic) *).

Definition isakmp_signature_desc : struct_desc :=
  mk_sd "ISAKMP Signature Payload" isag_fields 4 (* sizeof(struct isakmp_generic) *).

Definition isakmp_nonce_desc : struct_desc :=
  mk_sd "ISAKMP Nonce Payload" isag_fields 4 (* sizeof(struct isakmp_generic) *).

Definition isan_fields : list field_desc :=
  [mk_fd ft_enum 1 (Some "next payload type") (FN_enum ikev1_payload_names);
   mk_fd ft_zig 1 None FN_null;
   mk_fd ft_len 2 (Some "length") FN_null;
   mk_fd ft_enum 4 (Some "DOI") (FN_enum doi_names);
   mk_fd ft_nat 1 (Some "protocol ID") FN_null;
   mk_fd ft_nat 1 (Some "SPI size") FN_null;
   mk_fd ft_enum 2 (Some "Notify Message Type") (FN_enum ikev1_notify_names);
   mk_fd ft_end 0 None FN_null].

Definition isakmp_notification_desc : struct_desc :=
  mk_sd "ISAKMP Notification Payload" isan_fields 12 (* sizeof(struct isakmp_notification) *).

Definition isad_fields : list field_desc :=
  [mk_fd ft_enum 1 (Some "next payload type") (FN_enum ikev1_payload_names);
   mk_fd ft_zig 1 None FN_null;
   mk_fd ft_len 2 (Some "length") FN_null;
   mk_fd ft_enum 4 (Some "DOI") (FN_enum doi_names);
   mk_fd ft_nat 1 (Some "protocol ID") FN_null;
   mk_fd ft_nat 1 (Some "SPI size") FN_null;
   mk_fd ft_nat 2 (Some "number of SPIs") FN_null;
   mk_fd ft_end 0 None FN_null].

Definition isakmp_delete_desc : struct_desc :=
  mk_sd "ISAKMP Delete Payload" isad_fields 12 (* sizeof(struct isakmp_delete) *).

Definition isakmp_vendor_id_desc : struct_desc :=
  mk_sd "ISAKMP Vendor ID Payload" isag_fields 4 (* sizeof(struct isakmp_generic) *).

Definition isaattr_fields : list field_desc :=
  [mk_fd ft_enum 1 (Some "next payload type") (FN_enum ikev1_payload_names);
   mk_fd ft_zig 1 None FN_null;
   mk_fd ft_len 2 (Some "length") FN_null;
   mk_fd ft_enum 1 (Some "Attr Msg Type") (FN_enum attr_msg_type_names);
   mk_fd ft_zig 1 None FN_null;
   mk_fd ft_nat 2 (Some "Identifier") FN_null;
   mk_fd ft_end 0 None FN_null].

Definition isakmp_attr_desc : struct_desc :=
  mk_sd "ISAKMP Mode Attribute" isaattr_fields 8 (* sizeof(struct isakmp_mode_attr) *).

Definition isakmp_nat_d : struct_desc :=
  mk_sd "ISAKMP NAT-D Payload" isag_fields 4 (* sizeof(struct isakmp_generic) *).

Definition isanat_oa_fields : list field_desc :=
  [mk_fd ft_enum 1 (Some "next payload type") (FN_enum ikev1_payload_names);
   mk_fd ft_zig 1 None FN_null;
   mk_fd ft_len 2 (Some "length") FN_null;
   mk_fd ft_enum 1 (Some "ID type") (FN_enum ike_idtype_names);
   mk_fd ft_zig 1 None FN_null;
   mk_fd ft_zig 2 None FN_null;
   mk_fd ft_end 0 None FN_null].

Definition isakmp_nat_oa : struct_desc :=
  mk_sd "ISAKMP NAT-OA Payload" isanat_oa_fields 8 (* sizeof(struct isakmp_nat_oa) *).

Definition isakmp_ignore_desc : struct_desc :=
  mk_sd "ignored ISAKMP Generic Payload" isag_fields 4 (* sizeof(struct isakmp_generic) *).

Definition isafrag_fields : list field_desc :=
  [mk_fd ft_zig 1 (Some "next payload type") FN_null;
   mk_fd ft_zig 1 (Some "reserved") FN_null;
   mk_fd ft_len 2 (Some "length") FN_null;
   mk_fd ft_nat 2 (Some "fragment id") FN_null;
   mk_fd ft_nat 1 (Some "fragment number") FN_null;
   mk_fd ft_nat 1 (Some "flags") FN_null;
   mk_fd ft_end 0 None FN_null].

Definition isakmp_ikefrag_desc : struct_desc :=
  mk_sd "ISAKMP IKE Fragment Payload" isafrag_fields 8 (* sizeof(struct isakmp_ikefrag) *).

Definition ikev2generic_fields : list field_desc :=
  [mk_fd ft_enum 1 (Some "next payload type") (FN_enum ikev2_payload_names);
   mk_fd ft_set 1 (Some "flags") (FN_set critical_names);
   mk_fd ft_len 2 (Some "length") FN_null;
   mk_fd ft_end 0 None FN_null].

Definition ikev2_generic_desc : struct_desc :=
  mk_sd "IKEv2 Generic Payload" ikev2generic_fields 4 (* sizeof(struct ikev2_generic) *).

Definition ikev2_sa_desc : struct_desc :=
  mk_sd "IKEv2 Security Association Payload" ikev2generic_fields 4 (* sizeof(struct ikev2_sa) *).

Definition ikev2prop_fields : list field_desc :=
  [mk_fd ft_enum 1 (Some "last proposal") (FN_enum ikev2_last_proposal_desc);
   mk_fd ft_zig 1 None FN_null;
   mk_fd ft_len 2 (Some "length") FN_null;
   mk_fd ft_nat 1 (Some "prop #") FN_null;
   mk_fd ft_enum 1 (Some "proto ID") (FN_enum ikev2_sec_proto_id_names);
   mk_fd ft_nat 1 (Some "spi size") FN_null;
   mk_fd ft_nat 1 (Some "# transforms") FN_null;
   mk_fd ft_end 0 None FN_null].

Definition ikev2_prop_desc : struct_desc :=
  mk_sd "IKEv2 Proposal Substructure Payload" ikev2prop_fields 8 (* sizeof(struct ikev2_prop) *).

Definition ikev2trans_fields : list field_desc :=
  [mk_fd ft_enum 1 (Some "last transform") (FN_enum ikev2_last_transform_desc);
   mk_fd ft_zig 1 None FN_null;
   mk_fd ft_len 2 (Some "length") FN_null;
   mk_fd ft_enum 1 (Some "IKEv2 transform type") (FN_enum ikev2_trans_type_names);
   mk_fd ft_zig 1 None FN_null;
   mk_fd ft_loose_enum_enum 2 (Some "IKEv2 transform ID") (FN_enum_enum v2_transform_ID_enums);
   mk_fd ft_end 0 None FN_null].

Definition ikev2_trans_desc : struct_desc :=
  mk_sd "IKEv2 Transform Substructure Payload" ikev2trans_fields 8 (* sizeof(struct ikev2_trans) *).

Definition ikev2_trans_attr_fields : list field_desc :=
  [mk_fd ft_af_enum 2 (Some "af+type") (FN_enum ikev2_trans_attr_descs);
   mk_fd ft_lv 2 (Some "length/value") FN_null;
   mk_fd ft_end 0 None FN_null].

Definition ikev2_trans_attr_desc : struct_desc :=
  mk_sd "IKEv2 Attribute Substructure Payload" ikev2_trans_attr_fields 4 (* sizeof(struct ikev2_trans_attr) *).

Definition ikev2ke_fields : list field_desc :=
  [mk_fd ft_enum 1 (Some "IKEv2 next payload type") (FN_enum ikev2_payload_names);
   mk_fd ft_set 1 (Some "flags") (FN_set critical_names);
   mk_fd ft_len 2 (Some "length") FN_null;
   mk_fd ft_enum 2 (Some "DH group") (FN_enum oakley_group_names);
   mk_fd ft_zig 2 None FN_null;
   mk_fd ft_end 0 None FN_null].

Definition ikev2_ke_desc : struct_desc :=
  mk_sd "IKEv2 Key Exchange Payload" ikev2ke_fields 8 (* sizeof(struct ikev2_ke) *).

Definition ikev2id_fields : list field_desc :=
  [mk_fd ft_enum 1 (Some "next payload type") (FN_enum ikev2_payload_names);
   mk_fd ft_set 1 (Some "flags") (FN_set critical_names);
   mk_fd ft_len 2 (Some "length") FN_null;
   mk_fd ft_enum 1 (Some "ID type") (FN_enum ikev2_idtype_names);
   mk_fd ft_zig 1 None FN_null;
   mk_fd ft_zig 2 None FN_null;
   mk_fd ft_end 0 None FN_null].

Definition ikev2_id_desc : struct_desc :=
  mk_sd "IKEv2 Identification Payload" ikev2id_fields 8 (* sizeof(struct ikev2_id) *).

Definition ikev2cp_fields : list field_desc :=
  [mk_fd ft_enum 1 (Some "next payload type") (FN_enum ikev2_payload_names);
   mk_fd ft_set 1 (Some "flags") (FN_set critical_names);
   mk_fd ft_len 2 (Some "length") FN_null;
   mk_fd ft_enum 1 (Some "ikev2_cfg_type") (FN_enum ikev2_cp_type_names);
   mk_fd ft_zig 1 None FN_null;
   mk_fd ft_zig 2 None FN_null;
   mk_fd ft_end 0 None FN_null].

Definition ikev2_cp_desc : struct_desc :=
  mk_sd "IKEv2 Configuration Payload" ikev2cp_fields 8 (* sizeof(struct ikev2_cp) *).

Definition ikev2_cp_attrbute_fields : list field_desc :=
  [mk_fd ft_enum 2 (Some "Attribute Type") (FN_enum ikev2_cp_attribute_type_names);
   mk_fd ft_lv 2 (Some "length/value") FN_null;
   mk_fd ft_end 0 None FN_null].

Definition ikev2_cp_attribute_desc : struct_desc :=
  mk_sd "IKEv2 Configuration Payload Attribute" ikev2_cp_attrbute_fields 4 (* sizeof(struct ikev2_cp_attribute) *).

Definition ikev2_cert_fields : list field_desc :=
  [mk_fd ft_enum 1 (Some "next payload type") (FN_enum ikev2_payload_names);
   mk_fd ft_set 1 (Some "flags") (FN_set critical_names);
   mk_fd ft_len 2 (Some "length") FN_null;
   mk_fd ft_enum 1 (Some "ikev2 cert encoding") (FN_enum ikev2_cert_type_names);
   mk_fd ft_end 0 None FN_null].

Definition ikev2_certificate_desc : struct_desc :=
  mk_sd "IKEv2 Certificate Payload" ikev2_cert_fields 5 (* IKEV2_CERT_SIZE *).

Definition ikev2_cert_req_fields : list field_desc :=
  [mk_fd ft_enum 1 (Some "next payload type") (FN_enum ikev2_payload_names);
   mk_fd ft_set 1 (Some "flags") (FN_set critical_names);
   mk_fd ft_len 2 (Some "length") FN_null;
   mk_fd ft_enum 1 (Some "ikev2 cert encoding") (FN_enum ikev2_cert_type_names);
   mk_fd ft_end 0 None FN_null].

Definition ikev2_certificate_req_desc : struct_desc :=
  mk_sd "IKEv2 Certificate Request Payload" ikev2_cert_req_fields 5 (* IKEV2_CERT_SIZE *).

Definition ikev2a_fields : list field_desc :=
  [mk_fd ft_enum 1 (Some "next payload type") (FN_enum ikev2_payload_names);
   mk_fd ft_set 1 (Some "flags") (FN_set critical_names);
   mk_fd ft_len 2 (Some "length") FN_null;
   mk_fd ft_enum 1 (Some "auth method") (FN_enum ikev2_auth_names);
   mk_fd ft_zig 1 None FN_null;
   mk_fd ft_zig 2 None FN_null;
   mk_fd ft_end 0 None FN_null].

Definition ikev2_a_desc : struct_desc :=
  mk_sd "IKEv2 Authentication Payload" ikev2a_fields 8 (* sizeof(struct ikev2_a) *).

Definition ikev2_nonce_desc : struct_desc :=
  mk_sd "IKEv2 Nonce Payload" ikev2generic_fields 4 (* sizeof(struct ikev2_generic) *).

Definition ikev2_notify_fields : list field_desc :=
  [mk_fd ft_enum 1 (Some "next payload type") (FN_enum ikev2_payload_names);
   mk_fd ft_set 1 (Some "flags") (FN_set critical_names);
   mk_fd ft_len 2 (Some "length") FN_null;
   mk_fd ft_enum 1 (Some "Protocol ID") (FN_enum ikev2_protocol_names);
   mk_fd ft_nat 1 (Some "SPI size") FN_null;
   mk_fd ft_loose_enum 2 (Some "Notify Message Type") (FN_enum ikev2_notify_names);
   mk_fd ft_end 0 None FN_null].

Definition ikev2_delete_fields : list field_desc :=
  [mk_fd ft_enum 1 (Some "next payload type") (FN_enum ikev2_payload_names);
   mk_fd ft_set 1 (Some "flags") (FN_set critical_names);
   mk_fd ft_len 2 (Some "length") FN_null;
   mk_fd ft_enum 1 (Some "protocol ID") (FN_enum ikev2_del_protocol_names);
   mk_fd ft_nat 1 (Some "SPI size") FN_null;
   mk_fd ft_nat 2 (Some "number of SPIs") FN_null;
   mk_fd ft_end 0 None FN_null].

Definition ikev2_delete_desc : struct_desc :=
  mk_sd "IKEv2 Delete Payload" ikev2_delete_fields 8 (* sizeof(struct ikev2_delete) *).

Definition ikev2_notify_desc : struct_desc :=
  mk_sd "IKEv2 Notify Payload" ikev2_notify_fields 8 (* sizeof(struct ikev2_notify) *).

Definition ikev2_vendor_id_desc : struct_desc :=
  mk_sd "IKEv2 Vendor ID Payload" ikev2generic_fields 4 (* sizeof(struct ikev2_generic) *).

Definition ikev2ts_fields : list field_desc :=
  [mk_fd ft_enum 1 (Some "next payload type") (FN_enum ikev2_payload_names);
   mk_fd ft_set 1 (Some "flags") (FN_set critical_names);
   mk_fd ft_len 2 (Some "length") FN_null;
   mk_fd ft_nat 1 (Some "number of TS") FN_null;
   mk_fd ft_zig 1 None FN_null;
   mk_fd ft_zig 2 None FN_null;
   mk_fd ft_end 0 None FN_null].

Definition ikev2_ts_desc : struct_desc :=
  mk_sd "IKEv2 Traffic Selector Payload" ikev2ts_fields 8 (* sizeof(struct ikev2_ts) *).

Definition ikev2ts1_fields : list field_desc :=
  [mk_fd ft_enum 1 (Some "TS type") (FN_enum ikev2_ts_type_names);
   mk_fd ft_nat 1 (Some "IP Protocol ID") FN_null;
   mk_fd ft_len 2 (Some "length") FN_null;
   mk_fd ft_nat 2 (Some "start port") FN_null;
   mk_fd ft_nat 2 (Some "end port") FN_null;
   mk_fd ft_end 0 None FN_null].

Definition ikev2_ts1_desc : struct_desc :=
  mk_sd "IKEv2 Traffic Selector" ikev2ts1_fields 8 (* sizeof(struct ikev2_ts1) *).

Definition ikev2_sk_desc : struct_desc :=
  mk_sd "IKEv2 Encryption Payload" ikev2generic_fields 4 (* sizeof(struct ikev2_generic) *).

Definition ikev2skf_fields : list field_desc :=
  [mk_fd ft_enum 1 (Some "next payload type") (FN_enum ikev2_payload_names);
   mk_fd ft_set 1 (Some "flags") (FN_set critical_names);
   mk_fd ft_len 2 (Some "length") FN_null;
   mk_fd ft_nat 2 (Some "fragment number") FN_null;
   mk_fd ft_nat 2 (Some "total fragments") FN_null;
   mk_fd ft_end 0 None FN_null].

Definition ikev2_skf_desc : struct_desc :=
  mk_sd "IKEv2 Encrypted Fragment" ikev2skf_fields 8 (* sizeof(struct ikev2_skf) *).

Definition suggested_group_fields : list field_desc :=
  [mk_fd ft_enum 2 (Some "suggested DH Group") (FN_enum oakley_group_names);
   mk_fd ft_end 0 None FN_null].

Definition suggested_group_desc : struct_desc :=
  mk_sd "Suggested Group" suggested_group_fields 2 (* sizeof(struct suggested_group) *).

Definition v1_payload_descs : list (option struct_desc) :=
  [None; Some isakmp_sa_desc; None; None; Some isakmp_keyex_desc; None;
   Some isakmp_ipsec_certificate_desc; Some isakmp_ipsec_cert_req_desc;
   Some isakmp_hash_desc; Some isakmp_signature_desc; Some isakmp_nonce_desc;
   Some isakmp_notification_desc; Some isakmp_delete_desc; Some isakmp_vendor_id_desc;
   Some isakmp_attr_desc; None; None; None; None; None; Some isakmp_nat_d;
   Some isakmp_nat_oa].

Definition v2_payload_descs : list (option struct_desc) :=
  [Some ikev2_sa_desc; Some ikev2_ke_desc; Some ikev2_id_desc; Some ikev2_id_desc;
   Some ikev2_certificate_desc; Some ikev2_certificate_req_desc; Some ikev2_a_desc;
   Some ikev2_nonce_desc; Some ikev2_notify_desc; Some ikev2_delete_desc;
   Some ikev2_vendor_id_desc; Some ikev2_ts_desc; Some ikev2_ts_desc; Some ikev2_sk_desc;
   Some ikev2_cp_desc; None; None; None; None; None; Some ikev2_skf_desc].

(** Every descriptor of the file. *)
Definition all_descs : list struct_desc :=
  [isakmp_hdr_desc; isakmp_oakley_attribute_desc; isakmp_ipsec_attribute_desc;
   isakmp_xauth_attribute_desc; isakmp_sa_desc; ipsec_sit_desc; isakmp_proposal_desc;
   isakmp_isakmp_transform_desc; isakmp_ah_transform_desc; isakmp_esp_transform_desc;
   isakmp_ipcomp_transform_desc; isakmp_keyex_desc; isakmp_identification_desc;
   isakmp_ipsec_identification_desc; isakmp_ipsec_certificate_desc;
   isakmp_ipsec_cert_req_desc; isakmp_hash_desc; isakmp_signature_desc; isakmp_nonce_desc;
   isakmp_notification_desc; isakmp_delete_desc; isakmp_vendor_id_desc; isakmp_attr_desc;
   isakmp_nat_d; isakmp_nat_oa; isakmp_ignore_desc; isakmp_ikefrag_desc;
   ikev2_generic_desc; ikev2_sa_desc; ikev2_prop_desc; ikev2_trans_desc;
   ikev2_trans_attr_desc; ikev2_ke_desc; ikev2_id_desc; ikev2_cp_desc;
   ikev2_cp_attribute_desc; ikev2_certificate_desc; ikev2_certificate_req_desc;
   ikev2_a_desc; ikev2_nonce_desc; ikev2_delete_desc; ikev2_notify_desc;
   ikev2_vendor_id_desc; ikev2_ts_desc; ikev2_ts1_desc; ikev2_sk_desc; ikev2_skf_desc;
   suggested_group_desc].

Definition v1_payload_desc (p : Z) : option struct_desc :=
  if p <? Z.of_nat (length v1_payload_descs)
  then default None (v1_payload_descs !! Z.to_nat p) else None.

Definition ISAKMP_v2PAYLOAD_TYPE_BASE : Z := 33.

Definition v2_payload_desc (p : Z) : option struct_desc :=
  if p <? ISAKMP_v2PAYLOAD_TYPE_BASE then None
  else
    let q := p - ISAKMP_v2PAYLOAD_TYPE_BASE in
    if Z.of_nat (length v2_payload_descs) <=? q then None
    else default None (v2_payload_descs !! Z.to_nat q).
