(* ===== verification/PacketGeneric.v ===== *)
(** Generic payloads: the emission helpers of packet.c that build a payload from
    its next-payload number and its bytes ([ikev1_out_generic], [ikev2_out_generic]
    and their [_raw] forms), and [out_modify_previous_np], which patches the
    next-payload number of a payload that is already on the wire. *)
From S2P Require Import Prelude EnumNames Constants Packet PacketSpec PacketObject PacketDescs.

(** [struct isakmp_generic gen]: only [isag_np] is assigned; the other members
    hold what was on the stack, [junk]. *)
Definition ikev1_out_generic (junk : Z) (np : Z) (sd : struct_desc) (outs : nat)
    (obj : option nat) (st : pstate) : outcome (diag * pstate) pstate :=
  passert (bool_decide (sd_fields sd = isag_fields)) ;;
  out_struct [FNum np; FBytes [junk]; FNum junk] sd outs obj st.

(** [struct ikev2_generic gen]: as above; [isag_critical] is not assigned. *)
Definition ikev2_out_generic (junk : Z) (np : Z) (sd : struct_desc) (outs : nat)
    (obj : option nat) (st : pstate) : outcome (diag * pstate) pstate :=
  passert (bool_decide (sd_fields sd = ikev2generic_fields)) ;;
  out_struct [FNum np; FNum junk; FNum junk] sd outs obj st.

(** The local [pbs] of the [_raw] forms is the stream [obj]. *)
Definition ikev1_out_generic_raw (junk : Z) (np : Z) (sd : struct_desc) (outs : nat)
    (bytes : list Z) (name : string) (obj : nat) (st : pstate)
  : outcome (diag * pstate) pstate :=
  st1 ← ikev1_out_generic junk np sd outs (Some obj) st;
  st2 ← out_raw bytes obj name st1;
  close_output_pbs obj st2.

Definition ikev2_out_generic_raw (junk : Z) (np : Z) (sd : struct_desc) (outs : nat)
    (bytes : list Z) (name : string) (obj : nat) (st : pstate)
  : outcome (diag * pstate) pstate :=
  st1 ← ikev2_out_generic junk np sd outs (Some obj) st;
  st2 ← out_raw bytes obj name st1;
  close_output_pbs obj st2.

Definition NSIZEOF_isakmp_hdr : Z := 28.
Definition NOFFSETOF_isa_np : Z := 16.
Definition NOFFSETOF_isag_length : Z := 2.
Definition NOFFSETOF_isag_np : Z := 0.
Definition NSIZEOF_isakmp_generic : Z := 4.

Definition ISAKMP_NEXT_NONE : Z := 0.
Definition ISAKMP_NEXT_HASH : Z := 8.
Definition ISAKMP_NEXT_SIG : Z := 9.

(** The [for (;;)] of [out_modify_previous_np].  A payload that claims a length
    of 0 never moves the scan: [None] is running out of fuel. *)
Fixpoint np_scan (fuel : nat) (np : Z) (m : mem) (pl left : Z) : option (outcome diag mem) :=
  match fuel with
  | O => None
  | S fuel' =>
      if left <? NSIZEOF_isakmp_generic then Some Abort
      else
        match m !! (pl + NOFFSETOF_isag_length), m !! (pl + NOFFSETOF_isag_length + 1) with
        | Some hi, Some lo =>
            let pllen := Z.lor (Z.shiftl hi 8) lo in
            if left <? pllen then Some Abort
            else if left =? pllen
            then Some (defined (store m (pl + NOFFSETOF_isag_np) np))
            else np_scan fuel' np m (pl + pllen) (left - pllen)
        | _, _ => Some Abort
        end
  end.

Definition out_modify_previous_np (fuel : nat) (np : Z) (outs : nat) (st : pstate)
  : option (outcome diag pstate) :=
  match ps_pbs st !! outs with
  | None => Some Abort
  | Some p =>
      let pl := start p in
      let left := u64 (cur p - start p) in
      if left <? NSIZEOF_isakmp_hdr then Some Abort
      else if left =? NSIZEOF_isakmp_hdr then
        Some
          (b ← defined (ps_mem st !! (pl + NOFFSETOF_isa_np));
           passert ((b =? ISAKMP_NEXT_NONE) || (b =? ISAKMP_NEXT_HASH) || (b =? ISAKMP_NEXT_SIG)) ;;
           m ← defined (store (ps_mem st) (pl + NOFFSETOF_isa_np) np);
           Ok (put_mem m st))
      else
        r ← np_scan fuel np (ps_mem st) (pl + NSIZEOF_isakmp_hdr) (left - NSIZEOF_isakmp_hdr);
        Some (m ← r; Ok (put_mem m st))
  end.

(** * The payload chain *)

(** A payload on the wire: a generic header whose length is its own. *)
Definition wf_payload (w : list Z) : Prop :=
  exists np res hi lo body,
    w = np :: res :: hi :: lo :: body /\ byteZ hi /\ byteZ lo /\
    hi * 256 + lo = Z.of_nat (length w).

Lemma np_scan_step fuel np m pl left w rest :
  wf_payload w -> load_bytes m pl (length (w ++ rest)) = Some (w ++ rest) ->
  Z.of_nat (length (w ++ rest)) <= left ->
  np_scan (S fuel) np m pl left =
  if left =? Z.of_nat (length w) then Some (defined (store m pl np))
  else np_scan fuel np m (pl + Z.of_nat (length w)) (left - Z.of_nat (length w)).
Proof.
  intros (np0&res&hi&lo&body&->&Hhi&Hlo&Hlen) Hld Hleft.
  cbn [np_scan]. cbn [length app] in *. unfold NSIZEOF_isakmp_generic, NOFFSETOF_isag_length,
    NOFFSETOF_isag_np. rewrite length_app in Hleft.
  rewrite (proj2 (Z.ltb_ge _ _)) by lia. cbn [load_bytes] in Hld. simplify_option_eq.
  rewrite !Z.add_0_r. replace (pl + 1 + 1) with (pl + 2) in * by lia.
  repeat match goal with H : _ !! _ = Some _ |- _ => rewrite H; clear H end.
  rewrite lor_shift8, Hlen by done. by rewrite (proj2 (Z.ltb_ge _ _)) by lia.
Qed.

Lemma wf_payload_length w : wf_payload w -> 4 <= Z.of_nat (length w).
Proof. intros (?&?&?&?&?&->&_). simpl. lia. Qed.

Lemma np_scan_chain fuel np m pl ps w :
  Forall wf_payload ps -> wf_payload w -> (length ps < fuel)%nat ->
  load_bytes m pl (length (concat ps ++ w)) = Some (concat ps ++ w) ->
  np_scan fuel np m pl (Z.of_nat (length (concat ps ++ w))) =
  Some (Ok (<[pl + Z.of_nat (length (concat ps)) := np]> m)).
Proof.
  intros Hps Hw. revert fuel pl; induction Hps as [|v ps Hv Hps IH]; intros [|fuel] pl Hf Hld;
    try (simpl in Hf; lia).
  - cbn [concat app length] in *.
    rewrite (np_scan_step fuel np m pl _ w []) by (rewrite ?app_nil_r; done || lia).
    rewrite Z.eqb_refl, Z.add_0_r. rewrite store_some; [done|].
    destruct Hw as (?&?&?&?&?&->&_). simpl in Hld. simplify_option_eq. by eexists.
  - cbn [concat length] in *. rewrite <- app_assoc in *.
    pose proof (wf_payload_length _ Hw). pose proof (wf_payload_length _ Hv).
    rewrite (np_scan_step fuel np m pl _ v _) by (done || lia).
    apply load_bytes_cat in Hld as [_ Hld].
    rewrite (proj2 (Z.eqb_neq _ _)) by (rewrite !length_app; lia).
    rewrite length_app at 1. rewrite Nat2Z.inj_add.
    replace (Z.of_nat (length v) + Z.of_nat (length (concat ps ++ w)) - Z.of_nat (length v))
      with (Z.of_nat (length (concat ps ++ w))) by lia.
    rewrite IH by (done || lia). rewrite length_app. do 3 f_equal. lia.
Qed.

(** A payload that claims length 0 stops the scan for ever. *)
Lemma np_scan_stuck fuel np m pl left :
  4 <= left -> m !! (pl + 2) = Some 0 -> m !! (pl + 3) = Some 0 ->
  np_scan fuel np m pl left = None.
Proof.
  intros Hl H2 H3. induction fuel as [|fuel IH]; [done|]. cbn [np_scan].
  unfold NSIZEOF_isakmp_generic, NOFFSETOF_isag_length.
  rewrite (proj2 (Z.ltb_ge _ _)) by lia. replace (pl + 2 + 1) with (pl + 3) by lia.
  rewrite H2, H3. change (Z.lor (Z.shiftl 0 8) 0) with 0. cbv zeta.
  rewrite (proj2 (Z.ltb_ge _ _)), (proj2 (Z.eqb_neq _ _)) by lia.
  by rewrite Z.add_0_r, Z.sub_0_r.
Qed.

(** * What the generic helpers emit *)

Lemma critical_any c : byteZ c -> @testset diag critical_names c = Ok true.
Proof.
  intros Hc. refine (bool_decide_eq_true_1 _ _). revert c Hc. apply byte_forall. vm_compute. reflexivity.
Qed.

Lemma isag_wf_desc nm : wf_desc (mk_sd nm isag_fields 4) = true.
Proof. vm_compute. reflexivity. Qed.

Lemma ikev2generic_wf_desc nm : wf_desc (mk_sd nm ikev2generic_fields 4) = true.
Proof. vm_compute. reflexivity. Qed.

Lemma enum_check_known sd fp n s :
  @enum_name diag (enum_of fp) n = Ok (Some s) -> @enum_check diag sd fp n = Ok None.
Proof. unfold enum_check. by intros ->. Qed.

(** The header of a generic payload of [len] bytes. *)
Definition generic_header (np second len : Z) : list Z :=
  [np; second; u8 (Z.shiftr len 8); u8 len].

Lemma ikev1_generic_object junk np nm name bytes outs obj st s :
  byteZ np -> @enum_name diag payload_names_ikev1orv2 np = Ok (Some s) ->
  let sd := mk_sd nm isag_fields 4 in
  let vs := [FNum np; FBytes [junk]; FNum junk] in
  let len := 4 + Z.of_nat (length bytes) in
  ikev1_out_generic_raw junk np sd outs bytes name obj st = emit_object vs sd bytes name outs obj st /\
  valid_fields sd (sd_fields sd) vs fs0 /\
  wire (len_bytes len) (sd_fields sd) vs fs0 = generic_header np 0 len.
Proof.
  intros Hnp Hs sd vs len. unfold byteZ in Hnp. split; [|split].
  - unfold ikev1_out_generic_raw, ikev1_out_generic, emit_object.
    by rewrite bool_decide_true.
  - cbn -[enum_name payload_names_ikev1orv2]. rewrite Z.mod_small by lia.
    split; [eauto|]. unfold check_value, enum_check. cbn -[enum_name payload_names_ikev1orv2].
    rewrite Hs. done.
  - cbn. rewrite Z.mod_small by lia. change (be_encode (Z.to_nat 1) np) with [u8 np].
    by rewrite u8_small by lia.
Qed.

Lemma ikev2_generic_object junk np nm name bytes outs obj st s :
  byteZ np -> byteZ junk -> @enum_name diag ikev2_payload_names np = Ok (Some s) ->
  let sd := mk_sd nm ikev2generic_fields 4 in
  let vs := [FNum np; FNum junk; FNum junk] in
  let len := 4 + Z.of_nat (length bytes) in
  ikev2_out_generic_raw junk np sd outs bytes name obj st = emit_object vs sd bytes name outs obj st /\
  valid_fields sd (sd_fields sd) vs fs0 /\
  wire (len_bytes len) (sd_fields sd) vs fs0 = generic_header np junk len.
Proof.
  intros Hnp Hj Hs sd vs len. pose proof (critical_any _ Hj) as Hc. unfold byteZ in *.
  split; [|split].
  - unfold ikev2_out_generic_raw, ikev2_out_generic, emit_object.
    by rewrite bool_decide_true.
  - cbn -[enum_name ikev2_payload_names testset critical_names]. rewrite !Z.mod_small by lia.
    split; [eauto|]. unfold check_value, enum_check.
    cbn -[enum_name ikev2_payload_names testset critical_names].
    rewrite Hs. split; [done|]. split; [eauto|]. split; [|done]. by rewrite Hc.
  - cbn. rewrite !Z.mod_small by lia. change (be_encode (Z.to_nat 1) np) with [u8 np].
    change (be_encode (Z.to_nat 1) junk) with [u8 junk]. by rewrite !u8_small by lia.
Qed.
