(* ===== verification/PacketNest.v ===== *)
(** Objects inside objects: what a sequence of emissions leaves in a stream, as a relation on
    states that composes, so that a payload with payloads inside is verified piece by piece.
    The file also says what a successful [in_struct] hands to its caller. *)
From S2P Require Import Prelude EnumNames Packet PacketSpec PacketObject.

(** * Emission as a relation

    [wrote T o bs st st'] holds when [st'] is [st] with [bs] added to stream [o]: the cursor of
    [o] has moved past them, no other byte differs, and no stream other than [o] and the
    temporary streams [T] has changed. *)
Definition wrote (T : list nat) (o : nat) (bs : list Z) (st st' : pstate) : Prop :=
  exists q, ps_pbs st !! o = Some q /\
    ps_pbs st' !! o = Some (set_cur (cur q + Z.of_nat (length bs)) q) /\
    load_bytes (ps_mem st') (cur q) (length bs) = Some bs /\
    (forall x, x < cur q \/ cur q + Z.of_nat (length bs) <= x -> ps_mem st' !! x = ps_mem st !! x) /\
    (forall o', o' <> o -> o' ∉ T -> ps_pbs st' !! o' = ps_pbs st !! o').

Lemma get_pbs_at {E} st i p : ps_pbs st !! i = Some p -> @get_pbs E st i = Ok p.
Proof. intros H. unfold get_pbs. by rewrite H. Qed.

Lemma set_cur_cur p : set_cur (cur p) p = p.
Proof. by destruct p. Qed.

Lemma set_cur_set_cur c c' p : set_cur c (set_cur c' p) = set_cur c p.
Proof. done. Qed.

Lemma wrote_mapped T o bs st st' lo hi :
  wrote T o bs st st' -> mapped (ps_mem st) lo hi -> mapped (ps_mem st') lo hi.
Proof.
  intros (q&_&_&Hld&Hfr&_) Hm x Hx.
  destruct (decide (cur q <= x < cur q + Z.of_nat (length bs))) as [Hin|Hout].
  - by eapply load_bytes_is_some.
  - rewrite Hfr by lia. by apply Hm.
Qed.

(** The stream that was written to is as good as before. *)
Lemma wrote_stream T o bs st st' q :
  wrote T o bs st st' -> ps_pbs st !! o = Some q -> wf_pbs (ps_mem st) q ->
  Z.of_nat (length bs) <= roof q - cur q ->
  let q' := set_cur (cur q + Z.of_nat (length bs)) q in
  ps_pbs st' !! o = Some q' /\ wf_pbs (ps_mem st') q'.
Proof.
  intros Hw Hq (?&?&Hm) Hr. pose proof (wrote_mapped _ _ _ _ _ _ _ Hw Hm).
  destruct Hw as (q0&Hq0&Hq'&_). simplify_eq. split; [done|].
  split; simpl; [lia|]. split; [lia|done].
Qed.

Lemma wrote_app T1 T2 o a b st st1 st2 :
  wrote T1 o a st st1 -> wrote T2 o b st1 st2 -> wrote (T1 ++ T2) o (a ++ b) st st2.
Proof.
  intros (q&Hq&Hq1&Hld&Hfr&Hk) (q1&Hq1'&Hq2&Hld1&Hfr1&Hk1). rewrite Hq1 in Hq1'.
  injection Hq1' as <-. simpl in *. exists q. rewrite length_app, Nat2Z.inj_add.
  split; [done|]. split; [|split; [|split]].
  - rewrite Hq2, set_cur_set_cur. do 2 f_equal. lia.
  - rewrite <- length_app. apply load_bytes_cat. split; [|done].
    erewrite load_bytes_ext; [exact Hld|]. intros x Hx. apply Hfr1. lia.
  - intros x Hx. rewrite Hfr1 by lia. apply Hfr. lia.
  - intros o' Ho HT. rewrite not_elem_of_app in HT. destruct HT.
    by rewrite Hk1, Hk by done.
Qed.

Lemma out_raw_wrote bs o name st q :
  ps_pbs st !! o = Some q -> wf_pbs (ps_mem st) q -> Z.of_nat (length bs) <= roof q - cur q ->
  exists st', out_raw bs o name st = Ok st' /\ wrote [] o bs st st'.
Proof.
  intros Hg Hq Hr. destruct (out_raw_total bs o name st q Hg Hq Hr) as [st' Hst'].
  exists st'. split; [done|]. apply (out_raw_inv _ _ _ _ q) in Hst' as (m&Hm&->&_); [|done].
  exists q. simpl. split; [done|]. split; [apply lookup_insert_eq|]. split; [by eapply load_store_same|].
  split; [intros x Hx; by eapply store_bytes_frame|]. intros o' Ho _. by rewrite lookup_insert_ne.
Qed.

Lemma out_zero_raw len o name st :
  0 <= len -> out_zero len o name st = out_raw (replicate (Z.to_nat len) 0) o name st.
Proof. intros H. unfold out_zero, out_raw. rewrite length_replicate, Z2Nat.id by done. done. Qed.

(** A stream on the rest of another one, without a structure of its own. *)
Lemma substream_wrote {E} o i st q name T body st2 :
  ps_pbs st !! o = Some q -> o <> i -> o ∉ T ->
  wrote T i body (put_pbs i (mk_pbs (Some o) None name (cur q) (cur q) (roof q) None) st) st2 ->
  exists st3, @close_output_pbs E i st2 = Ok st3 /\ ps_mem st3 = ps_mem st2 /\ wrote (i :: T) o body st st3.
Proof.
  intros Hq Hne HT (q'&Hq'&Hq2&Hld&Hfr&Hk). cbn [put_pbs ps_pbs ps_mem] in *. rewrite lookup_insert_eq in Hq'.
  injection Hq' as <-. cbn [cur] in *. unfold close_output_pbs, close_pbs, get_pbs. rewrite Hq2. cbn.
  assert (ps_pbs st2 !! o = Some q) as Ho by (rewrite Hk, lookup_insert_ne by done; done).
  rewrite Ho. cbn. eexists. split; [done|]. split; [done|]. exists q. cbn [ps_mem ps_pbs put_pbs].
  split; [done|]. split; [apply lookup_insert_eq|]. split; [done|]. split; [done|].
  intros o' Ho' HT'. apply not_elem_of_cons in HT' as [? ?]. rewrite lookup_insert_ne, Hk by done.
  by rewrite lookup_insert_ne.
Qed.

Lemma be_encode_1 n : byteZ n -> be_encode 1 n = [n].
Proof. intros Hn. cbn [be_encode app]. by rewrite u8_small. Qed.

(** An object that holds whatever its stream was given between opening and closing. *)
Lemma object_wrote vs sd outs obj st p :
  wf_desc sd = true -> ps_pbs st !! outs = Some p -> wf_pbs (ps_mem st) p -> outs <> obj ->
  valid_fields sd (sd_fields sd) vs fs0 -> sd_size sd <= roof p - cur p ->
  exists st1 q, out_struct vs sd outs (Some obj) st = Ok st1 /\
    ps_pbs st1 !! obj = Some q /\ wf_pbs (ps_mem st1) q /\
    cur q = cur p + sd_size sd /\ roof q = roof p /\
    forall E T body st2, wrote T obj body st1 st2 -> outs ∉ T ->
      let total := sd_size sd + Z.of_nat (length body) in
      total <= roof p - cur p -> total < 2 ^ 32 ->
      exists st3, @close_output_pbs E obj st2 = Ok st3 /\
        wrote (obj :: T) outs (wire (len_bytes total) (sd_fields sd) vs fs0 ++ body) st st3.
Proof.
  intros Hw Hg Hp Hne Hv Hroom. pose proof (wf_desc_inv _ Hw) as (Hf&Hs&Hsz).
  destruct (out_struct_total vs sd outs obj st p) as [st1 H1]; auto.
  destruct (out_struct_open _ _ _ _ _ _ _ Hw Hg H1) as (m1&lf&Hm1&->&_&Hl&_).
  pose proof Hp as (?&?&Hm). pose proof (store_bytes_mapped _ _ _ _ _ _ Hm1 Hm) as Hmap.
  eexists _, _. split; [done|]. split; [apply lookup_insert_eq|].
  split; [split; simpl; [lia|split; [lia|intros x Hx; apply Hmap; simpl in Hx; lia]]|].
  split; [done|]. split; [done|]. intros E T body st2 Hbody HT total Htot Hb.
  pose proof (wrote_mapped _ _ _ _ _ _ _ Hbody Hmap) as Hmap2.
  destruct Hbody as (q&Hq&Hq2&Hld&Hfr&Hk). simpl in Hq. rewrite lookup_insert_eq in Hq.
  injection Hq as <-. simpl in *.
  assert (ps_pbs st2 !! outs = Some (set_cur (roof p) p)) as Hout.
  { rewrite Hk by done. rewrite lookup_insert_ne by done. apply lookup_insert_eq. }
  pose proof (out_lenspec_within _ _ _ _ Hw Hv Hl) as Hin.
  destruct (close_output_total (E := E) obj st2 _ outs _ Hq2 eq_refl Hout) as [st3 H3].
  { simpl. destruct lf as [[a fp]|]; [|done]. destruct Hin as (?&?&?). split; [done|].
    intros x Hx. apply Hmap2. lia. }
  exists st3. split; [done|]. erewrite close_output_eq in H3 by exact Hq2.
  pose proof (length_wire filler sd _ _ _ Hf Hv (filler_length sd)) as Hlen. rewrite Hs in Hlen.
  pose proof (length_wire (len_bytes total) sd _ _ _ Hf Hv (len_bytes_length sd total)) as Hlen'.
  rewrite Hs in Hlen'.
  eapply (close_wire sd vs _ body total) in H3 as (Hpbs&Hld3&Hfr3);
    [|done|done|exact Hl| |simpl; lia|lia|done|exact Hout].
  2:{ cbn [start set_cur]. apply load_bytes_cat. split; [|by rewrite Hlen].
      erewrite load_bytes_ext; [by eapply load_store_same|]. intros x Hx. apply Hfr. lia. }
  exists p. rewrite length_app, Nat2Z.inj_add, Hlen'. split; [done|]. simpl in *.
  split; [|split; [by rewrite <- length_app|split]].
  - rewrite Hpbs, lookup_insert_eq, set_cur_set_cur. do 2 f_equal. lia.
  - intros x Hx. rewrite Hfr3, Hfr by lia. eapply store_bytes_frame; [exact Hm1|]. lia.
  - intros o' Ho HT'. apply not_elem_of_cons in HT' as [Ho' HT'].
    rewrite Hpbs, lookup_insert_ne, Hk by done. by rewrite !lookup_insert_ne.
Qed.

(** A structure without a stream of its own and without a length. *)
Lemma leaf_wrote vs sd outs st p :
  wf_desc sd = true -> ps_pbs st !! outs = Some p -> wf_pbs (ps_mem st) p ->
  valid_fields sd (sd_fields sd) vs fs0 -> has_deferred (sd_fields sd) vs fs0 = false -> sd_size sd <= roof p - cur p ->
  exists st', out_struct vs sd outs None st = Ok st' /\ wrote [] outs (wire filler (sd_fields sd) vs fs0) st st'.
Proof.
  intros Hw Hg Hp Hv Hd Hroom. destruct (out_struct_total vs sd outs (S outs) st p) as [st1 H1]; auto.
  pose proof (wf_desc_inv _ Hw) as (Hf&Hs&_). pose proof (length_wire filler sd _ _ _ Hf Hv (filler_length sd)) as Hlen.
  rewrite Hs in Hlen. destruct (out_struct_open _ _ _ _ _ _ _ Hw Hg H1) as (m1&lf&Hm1&Hst1&_&Hl&_).
  unfold out_lenspec in Hl. rewrite Hd in Hl. destruct Hl as [-> _]. unfold out_struct in *. unfold get_pbs in *.
  rewrite Hg in *. cbn [defined] in *. rewrite bind_Ok in *. destruct (_ <? _); [done|].
  destruct (out_fields _ _ _ _ _) as [a|[]|]; [|done|done]. rewrite Hst1 in H1. unfold put_pbs, put_mem in H1.
  cbn [ps_mem ps_pbs] in H1. injection H1 as Hmem Hpbs. apply (f_equal (lookup (S outs))) in Hpbs.
  rewrite !lookup_insert_eq in Hpbs. injection Hpbs as Hcur Hlf.
  unfold close_pbs. cbn [lenfld container cur]. rewrite Hlf, bind_Ok. unfold get_pbs, put_mem. cbn [ps_pbs]. rewrite Hg.
  cbn [defined]. rewrite bind_Ok. eexists. split; [done|]. exists p. cbn [put_pbs ps_pbs ps_mem]. rewrite Hmem, Hcur, Hlen.
  split; [done|]. split; [apply lookup_insert_eq|]. split; [by eapply load_store_same|].
  split; [intros x Hx; eapply store_bytes_frame; [exact Hm1|lia]|]. intros o' Ho _. by rewrite lookup_insert_ne.
Qed.

(** * What [in_struct] hands over *)

(** A member that a field of the descriptor can hold. *)
Definition member_ok (fp : field_desc) (v : fval) : Prop :=
  match fd_type fp with
  | ft_zig | ft_raw => exists bs, v = FBytes bs /\ Z.of_nat (length bs) = fd_size fp
  | _ => exists n, v = FNum n /\ 0 <= n < 2 ^ (8 * fd_size fp)
  end.

Lemma in_number_member m sd p fp a a' :
  mem_ok m -> width_ok (fd_size fp) = true -> in_number m sd p fp a = Ok a' ->
  exists n, ia_out a' = ia_out a ++ [FNum n] /\ 0 <= n < 2 ^ (8 * fd_size fp).
Proof.
  intros Hm Hw H. unfold in_number in H. inv_ok.
  match goal with H : load_bytes _ _ _ = Some ?b |- _ => rename b into bs, H into Hbs end.
  pose proof (width_ok_inv _ Hw). pose proof (load_bytes_ok _ _ _ _ Hm Hbs) as Hok.
  apply length_load_bytes in Hbs. pose proof (be_decode_bound bs Hok) as Hb.
  repeat case_match; try done; inv_ok; eexists; (split; [done|]);
    rewrite net_value_be by (done || lia); rewrite Hbs, Z2Nat.id in Hb by lia; done.
Qed.

Lemma in_fields_members m sd p fps a a' :
  mem_ok m -> wf_fields sd fps = true -> in_fields m sd p fps a = Ok a' ->
  exists vs, ia_out a' = ia_out a ++ vs /\ Forall2 member_ok (removelast fps) vs.
Proof.
  intros Hm. revert a. induction fps as [|fp rest IH]; intros a Hw H; [done|].
  apply wf_fields_cons in Hw as [Hf Hr]. pose proof (wf_field_size _ _ Hf) as Hsz.
  pose proof (wf_field_width _ _ Hf) as Hwd. cbn [in_fields] in H. inv_ok.
  destruct Hr as [[He ->]|(He&Hne&Hr&_)].
  { unfold is_end in He. destruct (fd_type fp); try done. inv_ok. exists []. by rewrite app_nil_r. }
  assert (removelast (fp :: rest) = fp :: removelast rest) as -> by (by destruct rest).
  assert (forall a1 v, ia_out a1 = ia_out a ++ [v] -> member_ok fp v -> in_fields m sd p rest a1 = Ok a' ->
    exists vs, ia_out a' = ia_out a ++ vs /\ Forall2 member_ok (fp :: removelast rest) vs) as Hstep.
  { intros a1 v Hv Hok Hin. destruct (IH a1 Hr Hin) as (vs&->&Hvs). exists (v :: vs).
    rewrite Hv, <- app_assoc. split; [done|]. by constructor. }
  unfold is_end in He.
  destruct (fd_type fp) eqn:Ht; try done; inv_ok.
  all: try match goal with H : in_number _ _ _ _ _ = Ok _ |- _ =>
    apply in_number_member in H as (n&Hn&Hb); [|done|done] end.
  all: try (eapply Hstep; [exact Hn| |eassumption]; unfold member_ok; rewrite Ht; eauto).
  all: match goal with H : in_fields _ _ _ _ _ = Ok _ |- _ => eapply Hstep; [| |exact H]; [reflexivity|] end;
    unfold member_ok; rewrite Ht; eexists; (split; [done|]);
    rewrite ?length_replicate; erewrite length_load_bytes by eassumption; lia.
Qed.

Lemma in_struct_members sd ins obj st vs st' :
  mem_ok (ps_mem st) -> wf_desc sd = true -> in_struct sd ins obj st = Ok (vs, st') ->
  Forall2 member_ok (removelast (sd_fields sd)) vs.
Proof.
  intros Hm Hw H. apply wf_desc_inv in Hw as (Hf&_&_). unfold in_struct in H. inv_ok.
  destruct (_ <? _); [done|]. inv_ok.
  match goal with H : in_fields _ _ _ _ _ = Ok _ |- _ =>
    apply in_fields_members in H as (vs&->&Hvs); [|done|done] end. done.
Qed.

(** A value of an enumerated field has a name. *)
Definition is_enum (fp : field_desc) : bool :=
  match fd_type fp with ft_enum | ft_af_enum => true | _ => false end.
Definition member_known (fp : field_desc) (v : fval) : Prop :=
  is_enum fp = true -> exists n s, v = FNum n /\ @enum_name diag (enum_of fp) n = Ok (Some s).

Lemma in_number_known m sd p fp a a' :
  in_number m sd p fp a = Ok a' -> exists v, ia_out a' = ia_out a ++ [v] /\ member_known fp v.
Proof.
  intros H. unfold in_number in H. inv_ok.
  match goal with H : _ = Ok ?x |- _ => is_var x; assert_fails (unify x a'); rename H into Hc; destruct x as [[ugh rf] fs] end.
  inv_ok. destruct ugh; [done|]. inv_ok. eexists. split; [done|]. unfold member_known, is_enum.
  intros He. destruct (fd_type fp) eqn:Ht; try done; unfold check_value in Hc; rewrite Ht in Hc; inv_ok;
    unfold enum_check in *; inv_ok; case_match; simplify_eq; eauto.
Qed.

Lemma in_fields_known m sd p fps : forall a a',
  wf_fields sd fps = true -> in_fields m sd p fps a = Ok a' ->
  exists vs, ia_out a' = ia_out a ++ vs /\ Forall2 member_known (removelast fps) vs.
Proof.
  induction fps as [|fp rest IH]; intros a a' Hw H; [done|].
  apply wf_fields_cons in Hw as [Hf Hr]. cbn [in_fields] in H. inv_ok.
  destruct Hr as [[He ->]|(He&Hne&Hr&_)].
  { unfold is_end in He. destruct (fd_type fp); try done. inv_ok. exists []. by rewrite app_nil_r. }
  assert (removelast (fp :: rest) = fp :: removelast rest) as -> by (by destruct rest).
  assert (forall a1 v, ia_out a1 = ia_out a ++ [v] -> member_known fp v -> in_fields m sd p rest a1 = Ok a' ->
    exists vs, ia_out a' = ia_out a ++ vs /\ Forall2 member_known (fp :: removelast rest) vs) as Hstep.
  { intros a1 v Hv Hok Hin. destruct (IH a1 a' Hr Hin) as (vs&->&Hvs). exists (v :: vs).
    rewrite Hv, <- app_assoc. split; [done|]. by constructor. }
  unfold is_end in He. destruct (fd_type fp) eqn:Ht; try done; inv_ok.
  all: try match goal with H : in_number _ _ _ _ _ = Ok _ |- _ => apply in_number_known in H as (v&Hv&Hk) end; eauto.
  all: match goal with H : in_fields _ _ _ _ _ = Ok _ |- _ => eapply Hstep; [| |exact H]; [reflexivity|] end.
  all: unfold member_known, is_enum; by rewrite Ht.
Qed.

Lemma in_struct_known sd ins obj st vs st' :
  wf_desc sd = true -> in_struct sd ins obj st = Ok (vs, st') -> Forall2 member_known (removelast (sd_fields sd)) vs.
Proof.
  intros Hw H. apply wf_desc_inv in Hw as (Hf&_&_). unfold in_struct in H. inv_ok.
  destruct (_ <? _); [done|]. inv_ok.
  match goal with H : in_fields _ _ _ _ _ = Ok _ |- _ => apply in_fields_known in H as (vs&->&Hvs); [|done] end. done.
Qed.
