(* ===== verification/Stf.v ===== *)
(** What the routines of pluto that handle IKEv2 messages share: the results of state transition
    functions, [stf_status] of include/pluto_constants.h, the way a failed emission becomes one,
    and the two ends of an IKE SA. *)
From S2P Require Import Prelude EnumNames Constants Packet.

(** [enum original_role] of include/pluto_constants.h *)
Inductive original_role := ORIGINAL_INITIATOR | ORIGINAL_RESPONDER.

Definition is_initiator (role : original_role) : bool :=
  match role with ORIGINAL_INITIATOR => true | ORIGINAL_RESPONDER => false end.

(** [STF_NOTIFY n] is the C value [STF_FAIL + n], a failure that the peer is told of. *)
Inductive stf_status :=
  | STF_IGNORE
  | STF_INLINE
  | STF_SUSPEND
  | STF_OK
  | STF_INTERNAL_ERROR
  | STF_TOOMUCHCRYPTO
  | STF_FATAL
  | STF_DROP
  | STF_FAIL
  | STF_NOTIFY (n : Z).

#[export] Instance stf_status_eq_dec : EqDecision stf_status.
Proof. solve_decision. Defined.

(** [if (!out_xxx(...)) return STF_INTERNAL_ERROR;] *)
Definition or_internal {A} (c : outcome (diag * pstate) A) : outcome (stf_status * pstate) A :=
  match c with Ok a => Ok a | Ugh (_, st) => Ugh (STF_INTERNAL_ERROR, st) | Abort => Abort end.

(** The same where the stream that was written to is a local buffer of the caller, which the
    error leaves behind. *)
Definition or_internal_error {A} (c : outcome (diag * pstate) A) : outcome stf_status A :=
  match c with Ok a => Ok a | Ugh _ => Ugh STF_INTERNAL_ERROR | Abort => Abort end.

(** The payload types of the traffic selectors. *)
Definition ISAKMP_NEXT_v2TSi : Z := 44.
Definition ISAKMP_NEXT_v2TSr : Z := 45.

(** A payload number that the payload header may announce. *)
Definition known_payload (np : Z) : Prop :=
  byteZ np /\ exists s, @enum_name diag ikev2_payload_names np = Ok (Some s).
