(* ===== verification/PacketTheorems.v ===== *)
(** What the packet routines guarantee for the descriptors that packet.c
    declares: parsing is memory safe, emission refines the wire format, parsing
    undoes emission, and the generic payload helpers do what their callers
    expect. *)
From S2P Require Import Prelude EnumNames Constants Packet PacketSpec PacketObject PacketDescs PacketGeneric.

(** Every descriptor of packet.c is well formed. *)
Lemma all_descs_wf sd : sd ∈ all_descs -> wf_desc sd = true.
Proof.
  revert sd. apply Forall_forall. repeat (constructor; [vm_compute; reflexivity|]). constructor.
Qed.

(** A message at address 4096, and a stream on it, for witnesses. *)
Definition message (bs : list Z) (i : nat) : pstate :=
  mk_ps (buffer 4096 bs) {[ i := init_pbs 4096 (Z.of_nat (length bs)) "message" ]}.
Definition message_pbs (bs : list Z) : pb_stream :=
  init_pbs 4096 (Z.of_nat (length bs)) "message".

Lemma message_lookup bs i : ps_pbs (message bs i) !! i = Some (message_pbs bs).
Proof. apply lookup_singleton_eq. Qed.

Lemma message_wf bs i :
  Z.of_nat (length bs) < 2 ^ 62 -> wf_pbs (ps_mem (message bs i)) (message_pbs bs).
Proof. intros Hn. split; simpl; [lia|]. split; [lia|]. apply buffer_mapped. Qed.

(** ** Parsing is safe *)

(** C1: for every descriptor of packet.c and every stream on mapped memory,
    [in_struct] never fails an assertion, reaches a [bad_case] or reads outside
    memory, whatever the bytes are.  When it succeeds it leaves memory as it was,
    moves the cursor past the fixed part and never past the end of the stream,
    and gives the object a stream that ends where the cursor stands. *)
Theorem in_struct_safe sd ins obj st p :
  sd ∈ all_descs -> ps_pbs st !! ins = Some p -> wf_pbs (ps_mem st) p ->
  mem_ok (ps_mem st) -> obj <> Some ins ->
  match in_struct sd ins obj st with
  | Abort => False
  | Ugh _ => True
  | Ok (vs, st') =>
      exists e, cur p + sd_size sd <= e <= roof p /\
        ps_mem st' = ps_mem st /\
        ps_pbs st' =
          <[ins := set_cur e p]>
            (match obj with
             | Some o => <[o := mk_pbs (Some ins) (Some sd) (sd_name sd) (cur p)
                                  (cur p + sd_size sd) e None]> (ps_pbs st)
             | None => ps_pbs st
             end)
  end.
Proof. intros Hsd. apply in_struct_inv. by apply all_descs_wf. Qed.

(** An IKEv2 nonce payload of eight bytes, in a larger message. *)
Definition nonce_message : list Z := [33; 0; 0; 8; 1; 2; 3; 4; 9; 9; 9; 9].

Lemma in_struct_safe_witness :
  exists vs st', in_struct ikev2_nonce_desc 0 (Some 1%nat) (message nonce_message 0) = Ok (vs, st') /\
    ps_mem st' = ps_mem (message nonce_message 0).
Proof.
  pose proof (in_struct_safe ikev2_nonce_desc 0 (Some 1%nat) (message nonce_message 0)
    (message_pbs nonce_message) ltac:(by_decide)
    (message_lookup _ _) (message_wf nonce_message 0 ltac:(by_decide))
    ltac:(by apply buffer_ok; repeat constructor) ltac:(by_decide)) as H.
  destruct (in_struct ikev2_nonce_desc 0 (Some 1%nat) (message nonce_message 0))
    as [[vs st']| |] eqn:He.
  - exists vs, st'. split; [done|]. by destruct H as (e&_&Hm&_).
  - exfalso. revert He. vm_compute. discriminate.
  - done.
Defined.

(** ** Emission refines the wire format *)

(** An object is emitted if and only if its values are acceptable to its
    descriptor and the stream has room for its fixed and variable parts; the
    bytes that then lie at the old cursor are exactly the wire format, with the
    length field holding the length of the whole object; the cursor of the
    containing stream moves past them, and no other byte of memory changes. *)
Theorem emit_object_correct vs sd body name outs obj st p :
  sd ∈ all_descs -> ps_pbs st !! outs = Some p -> wf_pbs (ps_mem st) p -> outs <> obj ->
  sd_size sd + Z.of_nat (length body) < 2 ^ 32 ->
  let total := sd_size sd + Z.of_nat (length body) in
  let w := wire (len_bytes total) (sd_fields sd) vs fs0 ++ body in
  ((exists st', emit_object vs sd body name outs obj st = Ok st') <->
   valid_fields sd (sd_fields sd) vs fs0 /\ total <= roof p - cur p) /\
  (forall st', emit_object vs sd body name outs obj st = Ok st' ->
   ps_pbs st' !! outs = Some (set_cur (cur p + total) p) /\
   load_bytes (ps_mem st') (cur p) (length w) = Some w /\
   (forall x, x < cur p \/ cur p + total <= x -> ps_mem st' !! x = ps_mem st !! x)).
Proof.
  intros Hsd Hg Hp Hne Hb total w. apply all_descs_wf in Hsd.
  pose proof (fun st' => emit_object_refines vs sd body name outs obj st st' p Hsd Hg Hp Hne Hb) as R.
  split; [split|].
  - intros [st' H]. destruct (R st' H) as (?&?&_). auto.
  - intros [Hv Hr]. by eapply emit_object_total.
  - intros st' H. by destruct (R st' H) as (_&_&?).
Qed.

Lemma emit_object_correct_witness :
  exists st', emit_object [FNum 33; FNum 0; FNum 0] ikev2_nonce_desc [1; 2; 3; 4] "Ni" 0 1
                (message (replicate 16 0) 0) = Ok st' /\
    load_bytes (ps_mem st') 4096 8 = Some [33; 0; 0; 8; 1; 2; 3; 4].
Proof.
  destruct (emit_object_correct [FNum 33; FNum 0; FNum 0] ikev2_nonce_desc [1; 2; 3; 4] "Ni" 0 1
    (message (replicate 16 0) 0) (message_pbs (replicate 16 0)) ltac:(by_decide)
    (message_lookup _ _) (message_wf (replicate 16 0) 0 ltac:(by_decide)) ltac:(by_decide)
    ltac:(by_decide)) as [[_ H1] H2].
  destruct H1 as [st' Hst'].
  { split; [|by_decide]. simpl.
    repeat (split; [first [by eexists|vm_compute; reflexivity]|]). done. }
  exists st'. split; [done|]. by destruct (H2 st' Hst') as (_&Hl&_).
Defined.

(** ** Parsing undoes emission *)

(** C3: hand the bytes of an emitted object to a fresh stream and parse it with
    the same descriptor: the parser returns the emitted numbers and byte strings,
    the computed length, and the variable part, and consumes the whole object.
    The length has to fit its field, and an object without a length field (or an
    attribute announced as immediate) can have no variable part. *)
Theorem emit_parse_roundtrip vs sd body name outs obj st st' p ins o2 :
  sd ∈ all_descs -> ps_pbs st !! outs = Some p -> wf_pbs (ps_mem st) p -> outs <> obj ->
  ins <> o2 ->
  let total := sd_size sd + Z.of_nat (length body) in
  total < 2 ^ 32 -> representable sd vs total ->
  emit_object vs sd body name outs obj st = Ok st' ->
  exists st2,
    parse_object sd (Z.of_nat (length body)) name ins o2
      (put_pbs ins (init_pbs (cur p) total name) st') =
    Ok (host_values total (sd_fields sd) vs fs0, body, st2) /\
    ps_pbs st2 !! ins = Some (set_cur (cur p + total) (init_pbs (cur p) total name)).
Proof.
  intros Hsd Hg Hp Hne Hne2 total Hb Hrep H. apply all_descs_wf in Hsd.
  destruct (emit_object_refines _ _ _ _ _ _ _ _ _ Hsd Hg Hp Hne Hb H) as (Hv&Hr&_&Hld&Hfr).
  pose proof Hp as (?&?&Hm). pose proof (wf_desc_inv _ Hsd) as (_&_&?).
  edestruct (parse_object_wire vs sd body name ins o2
    (put_pbs ins (init_pbs (cur p) total name) st')) as (st2&Hst2&_&Hi);
    [done|apply lookup_insert_eq| |done|done|done|simpl; lia|done|eauto].
  split; simpl; [lia|]. split; [lia|]. intros x Hx. simpl in Hx |- *.
  pose proof (length_wire (len_bytes total) sd _ _ _ (proj1 (wf_desc_inv _ Hsd)) Hv
    (len_bytes_length sd total)) as Hlen.
  rewrite (proj1 (proj2 (wf_desc_inv _ Hsd))) in Hlen.
  eapply load_bytes_is_some; [exact Hld|]. rewrite length_app. fold total. lia.
Qed.

Lemma emit_parse_roundtrip_witness :
  exists st' st2,
    emit_object [FNum 33; FNum 0; FNum 0] ikev2_nonce_desc [1; 2; 3; 4] "Ni" 0 1
      (message (replicate 16 0) 0) = Ok st' /\
    parse_object ikev2_nonce_desc 4 "Ni" 2 3 (put_pbs 2 (init_pbs 4096 8 "Ni") st') =
    Ok ([FNum 33; FNum 0; FNum 8], [1; 2; 3; 4], st2).
Proof.
  destruct (emit_object_total [FNum 33; FNum 0; FNum 0] ikev2_nonce_desc [1; 2; 3; 4] "Ni" 0 1
    (message (replicate 16 0) 0) (message_pbs (replicate 16 0)) ltac:(by_decide)
    (message_lookup _ _) (message_wf (replicate 16 0) 0 ltac:(by_decide)) ltac:(by_decide))
    as [st' Hst']; [simpl; repeat (split; [first [by eexists|vm_compute; reflexivity]|]); done
                   |by_decide|].
  exists st'.
  destruct (emit_parse_roundtrip [FNum 33; FNum 0; FNum 0] ikev2_nonce_desc [1; 2; 3; 4] "Ni" 0 1
    (message (replicate 16 0) 0) st' (message_pbs (replicate 16 0)) 2 3 ltac:(by_decide)
    (message_lookup _ _) (message_wf (replicate 16 0) 0 ltac:(by_decide)) ltac:(by_decide)
    ltac:(by_decide) ltac:(by_decide)) as (st2&Hst2&_); [|exact Hst'|].
  - split; [|by left]. repeat constructor; unfold len_fits; simpl; done || lia.
  - exists st2. split; [done|]. exact Hst2.
Defined.

(** ** Generic payloads *)

(** [ikev1_out_generic_raw] emits, for every next-payload number that the
    tables know, a generic header (number, a zero byte, the length of header and
    bytes) followed by the bytes, whatever is on its stack. *)
Theorem ikev1_out_generic_raw_emits junk np nm bytes name outs obj st p s :
  byteZ np -> @enum_name diag payload_names_ikev1orv2 np = Ok (Some s) ->
  ps_pbs st !! outs = Some p -> wf_pbs (ps_mem st) p -> outs <> obj ->
  let len := 4 + Z.of_nat (length bytes) in
  len <= roof p - cur p -> len < 2 ^ 32 ->
  exists st', ikev1_out_generic_raw junk np (mk_sd nm isag_fields 4) outs bytes name obj st = Ok st' /\
    ps_pbs st' !! outs = Some (set_cur (cur p + len) p) /\
    load_bytes (ps_mem st') (cur p) (4 + length bytes) = Some (generic_header np 0 len ++ bytes).
Proof.
  intros Hnp Hs Hg Hp Hne len Hr Hb. pose proof (isag_wf_desc nm) as Hw.
  destruct (ikev1_generic_object junk np nm name bytes outs obj st s Hnp Hs) as (->&Hv&Hwire).
  destruct (emit_object_total _ _ bytes name _ _ _ _ Hw Hg Hp Hne Hv Hr) as [st' Hst'].
  exists st'. split; [done|].
  destruct (emit_object_refines _ _ _ _ _ _ _ _ _ Hw Hg Hp Hne Hb Hst') as (_&_&Hc&Hl&_).
  split; [done|]. simpl sd_size in Hl. rewrite Hwire in Hl. exact Hl.
Qed.

Lemma ikev1_out_generic_raw_emits_witness :
  exists st', ikev1_out_generic_raw 77 5 isakmp_nonce_desc 0 [1; 2; 3] "Ni" 1
                (message (replicate 16 0) 0) = Ok st' /\
    load_bytes (ps_mem st') 4096 7 = Some [5; 0; 0; 7; 1; 2; 3].
Proof.
  destruct (ikev1_out_generic_raw_emits 77 5 (sd_name isakmp_nonce_desc) [1; 2; 3] "Ni" 0 1
    (message (replicate 16 0) 0) (message_pbs (replicate 16 0)) "ISAKMP_NEXT_ID"
    ltac:(by_decide) ltac:(by_decide) (message_lookup _ _)
    (message_wf (replicate 16 0) 0 ltac:(by_decide)) ltac:(by_decide) ltac:(by_decide)
    ltac:(by_decide)) as (st'&H1&_&H2).
  exists st'. split; [exact H1|exact H2].
Defined.

(** [ikev2_out_generic_raw] never assigns [gen.isag_critical], and the
    descriptor accepts every value of that byte: the second byte of the emitted
    payload, which holds the critical flag, is whatever the stack held. *)
Theorem ikev2_out_generic_raw_leaks_stack_byte junk np nm bytes name outs obj st p s :
  byteZ junk -> byteZ np -> @enum_name diag ikev2_payload_names np = Ok (Some s) ->
  ps_pbs st !! outs = Some p -> wf_pbs (ps_mem st) p -> outs <> obj ->
  let len := 4 + Z.of_nat (length bytes) in
  len <= roof p - cur p -> len < 2 ^ 32 ->
  exists st', ikev2_out_generic_raw junk np (mk_sd nm ikev2generic_fields 4) outs bytes name obj st
              = Ok st' /\
    ps_pbs st' !! outs = Some (set_cur (cur p + len) p) /\
    load_bytes (ps_mem st') (cur p) (4 + length bytes) = Some (generic_header np junk len ++ bytes).
Proof.
  intros Hj Hnp Hs Hg Hp Hne len Hr Hb. pose proof (ikev2generic_wf_desc nm) as Hw.
  destruct (ikev2_generic_object junk np nm name bytes outs obj st s Hnp Hj Hs) as (->&Hv&Hwire).
  destruct (emit_object_total _ _ bytes name _ _ _ _ Hw Hg Hp Hne Hv Hr) as [st' Hst'].
  exists st'. split; [done|].
  destruct (emit_object_refines _ _ _ _ _ _ _ _ _ Hw Hg Hp Hne Hb Hst') as (_&_&Hc&Hl&_).
  split; [done|]. simpl sd_size in Hl. rewrite Hwire in Hl. exact Hl.
Qed.

Lemma ikev2_out_generic_raw_leaks_witness :
  exists st', ikev2_out_generic_raw 0x80 33 ikev2_nonce_desc 0 [1; 2; 3] "Ni" 1
                (message (replicate 16 0) 0) = Ok st' /\
    load_bytes (ps_mem st') 4096 7 = Some [33; 0x80; 0; 7; 1; 2; 3].
Proof.
  destruct (ikev2_out_generic_raw_leaks_stack_byte 0x80 33 (sd_name ikev2_nonce_desc) [1; 2; 3]
    "Ni" 0 1 (message (replicate 16 0) 0) (message_pbs (replicate 16 0)) "ISAKMP_NEXT_v2SA"
    ltac:(by_decide) ltac:(by_decide) ltac:(by_decide) (message_lookup _ _)
    (message_wf (replicate 16 0) 0 ltac:(by_decide)) ltac:(by_decide) ltac:(by_decide)
    ltac:(by_decide)) as (st'&H1&_&H2).
  exists st'. split; [exact H1|exact H2].
Defined.

(** ** Patching the next-payload number *)

(** In a stream that holds an ISAKMP header and a chain of complete
    payloads, [out_modify_previous_np] writes [np] in the first byte of the last
    payload and nothing else; it does so within as many iterations as there are
    payloads. *)
Theorem out_modify_previous_np_last fuel np outs st p hdr ps w :
  ps_pbs st !! outs = Some p -> Forall wf_payload ps -> wf_payload w ->
  Z.of_nat (length hdr) = NSIZEOF_isakmp_hdr ->
  let content := hdr ++ concat ps ++ w in
  load_bytes (ps_mem st) (start p) (length content) = Some content ->
  cur p = start p + Z.of_nat (length content) -> Z.of_nat (length content) < 2 ^ 63 ->
  (length ps < fuel)%nat ->
  out_modify_previous_np fuel np outs st =
  Some (Ok (put_mem
    (<[start p + Z.of_nat (length (hdr ++ concat ps)) := np]> (ps_mem st)) st)).
Proof.
  intros Hg Hps Hw Hh content Hld Hc Hb Hf. unfold out_modify_previous_np. rewrite Hg, Hc.
  pose proof (wf_payload_length _ Hw). unfold content in *.
  apply load_bytes_cat in Hld as [_ Hld]. unfold NSIZEOF_isakmp_hdr in *.
  rewrite u64_small by (rewrite !length_app in *; lia).
  rewrite (proj2 (Z.ltb_ge _ _)), (proj2 (Z.eqb_neq _ _)) by (rewrite !length_app; lia).
  match goal with |- context [np_scan _ _ _ _ ?l] =>
    replace l with (Z.of_nat (length (concat ps ++ w))) by (rewrite (length_app hdr); lia) end.
  rewrite Hh in Hld. rewrite np_scan_chain by done. simpl.
  do 3 f_equal. rewrite length_app. f_equal. lia.
Qed.

(** A header, a payload of six bytes and one of five. *)
Definition chain_message : list Z := replicate 28 0 ++ [0; 0; 0; 6; 1; 2] ++ [0; 0; 0; 5; 9].
Definition chain_state (bs : list Z) : pstate :=
  put_pbs 0 (set_cur (4096 + Z.of_nat (length bs)) (message_pbs bs)) (message bs 0).

Lemma out_modify_previous_np_last_witness :
  out_modify_previous_np 2 20 0 (chain_state chain_message) =
  Some (Ok (put_mem (<[4130 := 20]> (buffer 4096 chain_message)) (chain_state chain_message))).
Proof.
  apply (out_modify_previous_np_last 2 20 0 (chain_state chain_message)
    (set_cur (4096 + Z.of_nat (length chain_message)) (message_pbs chain_message))
    (replicate 28 0) [[0; 0; 0; 6; 1; 2]] [0; 0; 0; 5; 9]);
    try by_decide; try (apply lookup_insert_eq).
  - repeat constructor. by exists 0, 0, 0, 6, [1; 2].
  - by exists 0, 0, 0, 5, [9].
Defined.

(** With no payload yet, the number goes into the header, provided the
    header announces no payload, a hash or a signature; otherwise the assertion
    stops the daemon. *)
Theorem out_modify_previous_np_header fuel np outs st p b :
  ps_pbs st !! outs = Some p -> cur p = start p + NSIZEOF_isakmp_hdr ->
  ps_mem st !! (start p + NOFFSETOF_isa_np) = Some b ->
  out_modify_previous_np fuel np outs st =
  Some (if (b =? ISAKMP_NEXT_NONE) || (b =? ISAKMP_NEXT_HASH) || (b =? ISAKMP_NEXT_SIG)
        then Ok (put_mem (<[start p + NOFFSETOF_isa_np := np]> (ps_mem st)) st)
        else Abort).
Proof.
  intros Hg Hc Hb. unfold out_modify_previous_np. rewrite Hg, Hc, Hb.
  replace (u64 (start p + NSIZEOF_isakmp_hdr - start p)) with NSIZEOF_isakmp_hdr
    by (replace (start p + NSIZEOF_isakmp_hdr - start p) with NSIZEOF_isakmp_hdr by lia; done).
  simpl. destruct (_ || _); [|done]. simpl. by rewrite store_some by eauto.
Qed.

Lemma out_modify_previous_np_header_witness :
  out_modify_previous_np 0 4 0 (chain_state (replicate 28 0)) =
  Some (Ok (put_mem (<[4112 := 4]> (buffer 4096 (replicate 28 0)))
              (chain_state (replicate 28 0)))).
Proof.
  apply (out_modify_previous_np_header 0 4 0 (chain_state (replicate 28 0))
    (set_cur 4124 (message_pbs (replicate 28 0))) 0);
    [apply lookup_insert_eq|reflexivity|vm_compute; reflexivity].
Defined.

(** A complete chain followed by a payload that claims length 0 sends
    [out_modify_previous_np] into an endless loop: no number of iterations is
    enough.  The assertions of the loop do not exclude it. *)
Theorem out_modify_previous_np_zero_length_diverges fuel np outs st p hdr z rest :
  ps_pbs st !! outs = Some p -> Z.of_nat (length hdr) = NSIZEOF_isakmp_hdr ->
  let content := hdr ++ [z; 0; 0; 0] ++ rest in
  load_bytes (ps_mem st) (start p) (length content) = Some content ->
  cur p = start p + Z.of_nat (length content) -> Z.of_nat (length content) < 2 ^ 63 ->
  out_modify_previous_np fuel np outs st = None.
Proof.
  intros Hg Hh content Hld Hc Hb. unfold out_modify_previous_np. rewrite Hg, Hc.
  unfold content in *. apply load_bytes_cat in Hld as [_ Hld]. unfold NSIZEOF_isakmp_hdr in *.
  rewrite !length_app in *. cbn [length] in *.
  rewrite u64_small by lia.
  rewrite (proj2 (Z.ltb_ge _ _)), (proj2 (Z.eqb_neq _ _)) by lia.
  rewrite Hh in Hld. simpl in Hld. simplify_option_eq.
  rewrite np_scan_stuck; [done|lia| |].
  - by replace (start p + 28 + 2) with (start p + 28 + 1 + 1) by lia.
  - by replace (start p + 28 + 3) with (start p + 28 + 1 + 1 + 1) by lia.
Qed.

Lemma out_modify_previous_np_diverges_witness :
  out_modify_previous_np 1000 4 0 (chain_state (replicate 32 0)) = None.
Proof.
  apply (out_modify_previous_np_zero_length_diverges 1000 4 0 (chain_state (replicate 32 0))
    (set_cur 4128 (message_pbs (replicate 32 0))) (replicate 28 0) 0 []);
    try apply lookup_insert_eq; by_decide.
Defined.
