(* ===== verification/Numbers.v ===== *)
(** Numbers as text: lib/libswan/ttoul.c ([ttoul], [ttoulb]) and
    linux/net/ipsec/ultot.c ([ultot]).

    Text is a list of byte values; [unsigned long] has 64 bits.  Errors are the
    string literals that the functions return. *)
From S2P Require Import Prelude.

(** * Text codecs

    What the pairs of conversion routines promise their callers: the parser
    accepts what the printer writes, and returns the value that was printed. *)
Class TextCodec {E A : Type} (valid : A -> Prop) (print : A -> list Z)
    (parse : list Z -> outcome E A) : Prop :=
  codec_roundtrip : forall a, valid a -> parse (print a) = Ok a.

(** Printing forgets nothing. *)
Lemma codec_print_inj {E A} (valid : A -> Prop) print (parse : list Z -> outcome E A)
    `{!TextCodec valid print parse} a b :
  valid a -> valid b -> print a = print b -> a = b.
Proof.
  intros Ha Hb H. pose proof (codec_roundtrip a Ha) as Ea. rewrite H in Ea.
  rewrite (codec_roundtrip b Hb) in Ea. by injection Ea.
Qed.

(** * Definitions *)

Definition ULONG_MAX : Z := 2 ^ 64 - 1.

Definition hex : list Z := str "0123456789abcdef".
Definition uchex : list Z := str "0123456789ABCDEF".

(** The value of a [char], which is signed here. *)
Definition schar (c : Z) : Z := if c <? 128 then c else c - 256.

(** ** ttoul *)

Fixpoint ttoul_hex (t : list Z) (r : Z) : outcome string Z :=
  match t with
  | [] => Ok r
  | c :: t' =>
      match strchr hex c with
      | Some d => ttoul_hex t' (Z.lor (u64 (Z.shiftl r 4)) d)
      | None =>
          match strchr uchex c with
          | None => Ugh "non-hex digit in hex number"
          | Some d => ttoul_hex t' (Z.lor (u64 (Z.shiftl r 4)) d)
          end
      end
  end.

Fixpoint ttoul_dec (base rlimit dlimit : Z) (t : list Z) (r : Z) : outcome string Z :=
  match t with
  | [] => Ok r
  | c :: t' =>
      let d := schar c - chr "0" in
      if (d <? 0) || (base <=? d) then Ugh "non-digit in number"
      else if (rlimit <? r) || ((r =? rlimit) && (dlimit <? d)) then Ugh "unsigned-long overflow"
      else ttoul_dec base rlimit dlimit t' (u64 (r * base + d))
  end.

(** The part of [ttoul] that follows the choice of the base. *)
Definition ttoul_base (t : list Z) (base : Z) : outcome string Z :=
  if negb (base =? 8) && negb (base =? 10) && negb (base =? 16)
  then Ugh "unsupported number base"
  else if base =? 16 then
    r ← ttoul_hex t 0;
    if 16 <? Z.of_nat (length t) then Ugh "hex number too long" else Ok r
  else
    let rlimit := ULONG_MAX / base in
    let dlimit := ULONG_MAX - rlimit * base in
    ttoul_dec base rlimit dlimit t 0.

Definition ttoul_text (t : list Z) (base : Z) : outcome string Z :=
  match t with
  | [] => Ugh "empty string"
  | c0 :: t1 =>
      if base =? 0 then
        match t1 with
        | c1 :: t2 =>
            if (2 <? Z.of_nat (length t)) && (c0 =? chr "0") && ((c1 =? chr "x") || (c1 =? chr "X"))
            then ttoul_base t2 16
            else if c0 =? chr "0" then ttoul_base t1 8
            else ttoul_base t 10
        | [] => ttoul_base t 10
        end
      else ttoul_base t base
  end.

Definition ttoul (src : list Z) (srclen base : Z) : outcome string Z :=
  t ← defined (source src srclen);
  ttoul_text t base.

Definition ttoulb (src : list Z) (srclen base upb : Z) : outcome string Z :=
  r ← ttoul src srclen base;
  if upb <? r then Ugh "too large" else Ok r.

(** ** ultot *)

(** The text that [ultot] builds backwards from the end of [buf]. *)
Definition ultot_text (n base : Z) : option (list Z) :=
  if (base =? 10) || (base =? chr "d") then Some (dec_text n)
  else if (base =? 16) || (base =? 17) || (base =? chr "x") then
    let t := hex_text n in
    let t' := if base =? 17 then replicate (8 - length t) (chr "0") ++ t else t in
    Some (if base =? chr "x" then str "0x" ++ t' else t')
  else if (base =? 8) || (base =? chr "o") then
    let t := oct_text n in
    Some (if base =? chr "o" then str "0" ++ t else t)
  else None.

(** [sizeof(buf)]. *)
Definition ultot_buf : Z := 3 * 8 + 1.

(** The result, and the bytes that are written to [dst]. *)
Definition ultot (n base dstlen : Z) : Z * list Z :=
  match ultot_text n base with
  | None => (0, [])
  | Some t =>
      let len := Z.of_nat (length t) + 1 in
      (len,
       if 0 <? dstlen then
         (if dstlen <? len then take (Z.to_nat (dstlen - 1)) t else t) ++ [0]
       else [])
  end.

(** * What the digits mean *)

Definition digit_of (base c : Z) : option Z :=
  let d :=
    if (48 <=? c) && (c <=? 57) then c - 48
    else if (97 <=? c) && (c <=? 102) then c - 87
    else if (65 <=? c) && (c <=? 70) then c - 55
    else 16 in
  if d <? base then Some d else None.

Definition horner (base : Z) (ds : list Z) (r : Z) : Z :=
  fold_left (fun r d => r * base + d) ds r.

(** The number that a text denotes, if all its characters are digits. *)
Definition number_of (base : Z) (t : list Z) : option Z :=
  (fun ds => horner base ds 0) <$> mapM (digit_of base) t.

Lemma digit_of_bound base c d : base <= 16 -> digit_of base c = Some d -> 0 <= d < base.
Proof.
  intros Hb. unfold digit_of.
  destruct ((48 <=? c) && (c <=? 57)) eqn:H1; [|destruct ((97 <=? c) && (c <=? 102)) eqn:H2;
    [|destruct ((65 <=? c) && (c <=? 70)) eqn:H3]];
    case_match; intros; simplify_eq; lia.
Qed.

Lemma digits_of_bound base t ds :
  base <= 16 -> mapM (digit_of base) t = Some ds -> Forall (fun d => 0 <= d < base) ds.
Proof.
  intros Hb H. apply mapM_Some in H. induction H as [|c d t ds Hc _ IH]; constructor; auto.
  by eapply digit_of_bound.
Qed.

Lemma horner_bound base ds r :
  0 < base -> 0 <= r -> Forall (fun d => 0 <= d < base) ds ->
  r * base ^ Z.of_nat (length ds) <= horner base ds r
    < (r + 1) * base ^ Z.of_nat (length ds).
Proof.
  intros Hb Hr Hds. revert r Hr; induction Hds as [|d ds Hd _ IH]; intros r Hr.
  - simpl. lia.
  - cbn [horner fold_left length]. specialize (IH (r * base + d) ltac:(nia)).
    rewrite Nat2Z.inj_succ, Z.pow_succ_r by lia. unfold horner in IH.
    assert (0 < base ^ Z.of_nat (length ds)) by (apply Z.pow_pos_nonneg; lia). nia.
Qed.

(** ** Hexadecimal *)

#[local] Arguments strchr : simpl never.
#[local] Arguments digit_of : simpl never.

Lemma hex_digit_of c :
  byteZ c -> c <> 0 ->
  match strchr hex c with Some d => Some d | None => strchr uchex c end = digit_of 16 c.
Proof.
  intros Hb Hc.
  assert ((c =? 0) || bool_decide
    (match strchr hex c with Some d => Some d | None => strchr uchex c end = digit_of 16 c)
    = true) as H.
  { clear Hc. revert c Hb. apply byte_forall. vm_compute. reflexivity. }
  apply orb_true_iff in H as [H%Z.eqb_eq|H%bool_decide_eq_true_1]; done.
Qed.

Lemma ttoul_hex_spec t r :
  Forall byteZ t -> Forall (fun c => c <> 0) t ->
  ttoul_hex t r =
  match mapM (digit_of 16) t with
  | Some ds => Ok (fold_left (fun r d => Z.lor (u64 (Z.shiftl r 4)) d) ds r)
  | None => Ugh "non-hex digit in hex number"
  end.
Proof.
  intros Hb. revert r; induction Hb as [|c t Hc _ IH]; intros r Hn; [done|].
  inversion_clear Hn. cbn [ttoul_hex mapM]. pose proof (hex_digit_of c Hc ltac:(done)) as Hd.
  simpl. destruct (strchr hex c) as [d|]; [|destruct (strchr uchex c) as [d|]];
    rewrite <- Hd; simpl; try done; rewrite IH by done; by destruct (mapM _ t).
Qed.

Lemma hex_fold ds r :
  0 <= r -> Forall (fun d => 0 <= d < 16) ds ->
  (r + 1) * 16 ^ Z.of_nat (length ds) <= 2 ^ 64 ->
  fold_left (fun r d => Z.lor (u64 (Z.shiftl r 4)) d) ds r = horner 16 ds r.
Proof.
  intros Hr Hds. revert r Hr; induction Hds as [|d ds Hd _ IH]; intros r Hr Hl; [done|].
  cbn [fold_left horner length] in *. rewrite Nat2Z.inj_succ, Z.pow_succ_r in Hl by lia.
  assert (0 < 16 ^ Z.of_nat (length ds)) by (apply Z.pow_pos_nonneg; lia).
  assert (Z.lor (u64 (Z.shiftl r 4)) d = r * 16 + d) as ->.
  { rewrite u64_small by (rewrite Z.shiftl_mul_pow2 by lia; nia).
    by rewrite (lor_shiftl r 4) by lia. }
  apply IH; nia.
Qed.

(** ** Decimal and octal *)

Lemma dec_digit_of base c :
  base = 8 \/ base = 10 -> byteZ c ->
  (if (schar c - chr "0" <? 0) || (base <=? schar c - chr "0") then None
   else Some (schar c - chr "0")) = digit_of base c.
Proof.
  intros [-> | ->] Hc; refine (bool_decide_eq_true_1 _ _); revert c Hc; apply byte_forall;
    vm_compute; reflexivity.
Qed.

Section Decimal.
Context (base : Z).
Hypothesis Hbase : base = 8 \/ base = 10.
Let rlimit := ULONG_MAX / base.
Let dlimit := ULONG_MAX - rlimit * base.

(** The overflow test is exact. *)
Lemma overflow_test r d :
  0 <= r -> 0 <= d < base ->
  (rlimit <? r) || ((r =? rlimit) && (dlimit <? d)) = (2 ^ 64 <=? r * base + d).
Proof.
  intros Hr Hd. subst rlimit dlimit. unfold ULONG_MAX.
  destruct Hbase as [-> | ->].
  - change ((2 ^ 64 - 1) / 8) with 2305843009213693951. lia.
  - change ((2 ^ 64 - 1) / 10) with 1844674407370955161. lia.
Qed.

Lemma ttoul_dec_spec t r :
  Forall byteZ t -> 0 <= r < 2 ^ 64 ->
  ttoul_dec base rlimit dlimit t r <> Abort /\
  forall v, ttoul_dec base rlimit dlimit t r = Ok v <->
    exists ds, mapM (digit_of base) t = Some ds /\ v = horner base ds r /\ v < 2 ^ 64.
Proof.
  intros Hb. revert r; induction Hb as [|c t Hc _ IH]; intros r Hr.
  - simpl. split; [done|]. intros v. split.
    + intros [= <-]. exists []. split; [done|]. split; [done|lia].
    + by intros (ds&[= <-]&->&_).
  - cbn [ttoul_dec mapM mbind option_bind]. pose proof (dec_digit_of base c Hbase Hc) as Hd.
    destruct ((schar c - chr "0" <? 0) || (base <=? schar c - chr "0")); rewrite <- Hd; simpl.
    { split; [done|]. intros v. split; [done|]. by intros (?&?&_). }
    set (d := schar c - chr "0") in *.
    assert (0 <= d < base) as Hdb by (symmetry in Hd; eapply digit_of_bound, Hd; lia).
    rewrite overflow_test by lia. destruct (Z.leb_spec (2 ^ 64) (r * base + d)) as [Ho|Ho].
    + split; [done|]. intros v. split; [done|]. intros (ds&Hm&->&Hv).
      destruct (mapM (digit_of base) t) as [ds'|] eqn:Ht; [|done].
      exfalso. change (Some (d :: ds') = Some ds) in Hm. injection Hm as <-.
      pose proof (horner_bound base ds' (r * base + d) ltac:(lia) ltac:(lia)
        (digits_of_bound base _ _ ltac:(lia) Ht)) as Hh. unfold horner in Hh.
      assert (0 < base ^ Z.of_nat (length ds')) by (apply Z.pow_pos_nonneg; lia).
      pose proof (Z.mul_le_mono_nonneg_l 1 (base ^ Z.of_nat (length ds')) (r * base + d)
        ltac:(lia) ltac:(lia)). unfold horner in *. simpl in *. lia.
    + assert (0 <= r * base) by (apply Z.mul_nonneg_nonneg; lia).
      rewrite u64_small by lia. destruct (IH (r * base + d)) as [IH1 IH2]; [lia|].
      split; [done|]. intros v. rewrite IH2. split.
      * intros (ds&->&->&Hv). by exists (d :: ds).
      * intros (ds&Hm&->&Hv). destruct (mapM (digit_of base) t) as [ds'|]; [|done].
        change (Some (d :: ds') = Some ds) in Hm. injection Hm as <-. by exists ds'.
Qed.

End Decimal.

(** ** The bases together *)

(** What [ttoul] accepts in base 16, in addition to being a number. *)
Definition hex_fits (base : Z) (t : list Z) : Prop := base = 16 -> (length t <= 16)%nat.

Lemma ttoul_base_iff t base :
  base = 8 \/ base = 10 \/ base = 16 -> Forall byteZ t -> Forall (fun c => c <> 0) t ->
  ttoul_base t base <> Abort /\
  forall v, ttoul_base t base = Ok v <->
    number_of base t = Some v /\ v < 2 ^ 64 /\ hex_fits base t.
Proof.
  intros Hbase Hb Hn. unfold number_of. unfold ttoul_base.
  destruct (decide (base = 16)) as [->|Hne].
  - simpl. rewrite ttoul_hex_spec by done.
    destruct (mapM (digit_of 16) t) as [ds|] eqn:Hm; simpl.
    2:{ split; [done|]. intros v. split; [done|]. by intros [? _]. }
    pose proof (digits_of_bound 16 _ _ ltac:(lia) Hm) as Hds.
    pose proof (length_mapM _ _ _ Hm) as Hl. unfold hex_fits.
    destruct (Z.ltb_spec 16 (Z.of_nat (length t))) as [Ht|Ht].
    { split; [done|]. intros v. split; [done|]. intros (_&_&H). specialize (H eq_refl). lia. }
    assert (16 ^ Z.of_nat (length ds) <= 2 ^ 64) as Hp.
    { change (2 ^ 64) with (16 ^ 16). apply Z.pow_le_mono_r; lia. }
    rewrite hex_fold by (done || lia). split; [done|]. intros v.
    pose proof (horner_bound 16 ds 0 ltac:(lia) ltac:(lia) Hds). split.
    + intros [= <-]. repeat split; [lia|]. intros _. lia.
    + by intros ([= ->]&_&_).
  - assert (base = 8 \/ base = 10) as Hd by lia.
    rewrite (proj2 (Z.eqb_neq base 16)) by done.
    assert (negb (base =? 8) && negb (base =? 10) && negb false = false) as ->
      by (destruct Hd as [-> | ->]; done).
    destruct (ttoul_dec_spec base Hd t 0 Hb ltac:(lia)) as [H1 H2]. split; [done|].
    intros v. rewrite H2. split.
    + intros (ds&->&->&Hv). split; [done|]. split; [done|]. by intros ?.
    + intros (H&Hv&_). destruct (mapM _ t) as [ds|]; [|done]. simplify_eq/=. eauto.
Qed.

(** On every text there is a number or an error. *)
Lemma ttoul_hex_total t r : ttoul_hex t r <> Abort.
Proof.
  revert r; induction t as [|c t IH]; intros r; cbn [ttoul_hex]; [done|].
  destruct (strchr hex c); [apply IH|]. destruct (strchr uchex c); [apply IH|done].
Qed.

Lemma ttoul_dec_total base rl dl t r : ttoul_dec base rl dl t r <> Abort.
Proof.
  revert r; induction t as [|c t IH]; intros r; cbn [ttoul_dec]; [done|].
  destruct (_ || _); [done|]. destruct (_ || _); [done|]. apply IH.
Qed.

Lemma ttoul_base_total t base : ttoul_base t base <> Abort.
Proof.
  unfold ttoul_base. destruct (_ && _); [done|]. destruct (base =? 16).
  - pose proof (ttoul_hex_total t 0). destruct (ttoul_hex t 0); [|done|done].
    simpl. by destruct (_ <? _).
  - apply ttoul_dec_total.
Qed.

Lemma ttoul_text_total t base : ttoul_text t base <> Abort.
Proof.
  pose proof ttoul_base_total as H. unfold ttoul_text. destruct t as [|c0 [|c1 t]]; [done| |];
    destruct (base =? 0); auto; repeat (case_match; auto).
Qed.

(** * Printing *)

Lemma digits_loop_spec base fuel n acc k :
  2 <= base -> 0 <= n < base ^ Z.of_nat (S k) -> (k < fuel)%nat ->
  exists ds, digits_loop fuel base n acc = ds ++ acc /\ horner base ds 0 = n /\
    Forall (fun d => 0 <= d < base) ds /\ (1 <= length ds <= S k)%nat.
Proof.
  intros Hb. revert fuel n acc; induction k as [|k IH]; intros [|fuel] n acc Hn Hf; try lia;
    cbn [digits_loop]; pose proof (Z.mod_pos_bound n base ltac:(lia)) as Hm;
    pose proof (Z.div_mod n base ltac:(lia)) as Hd.
  - rewrite Nat2Z.inj_succ, Z.pow_succ_r in Hn by lia. simpl in Hn.
    rewrite Z.div_small by lia. simpl. exists [n mod base].
    rewrite Z.mod_small by lia. split; [done|].
    split; [simpl; lia|]. split; [constructor; [lia|constructor]|simpl; lia].
  - destruct (Z.eqb_spec (n / base) 0) as [Hz|Hz].
    + exists [n mod base]. rewrite Hz in Hd. simpl. split; [done|].
      split; [lia|]. split; [constructor; [lia|constructor]|lia].
    + assert (0 <= n / base < base ^ Z.of_nat (S k)) as Hq.
      { split; [apply Z.div_pos; lia|]. apply Z.div_lt_upper_bound; [lia|].
        rewrite <- Z.pow_succ_r, <- Nat2Z.inj_succ by lia. lia. }
      destruct (IH fuel (n / base) (n mod base :: acc) Hq ltac:(lia)) as (ds&->&Hh&Hds&Hl).
      exists (ds ++ [n mod base]). split; [by rewrite <- app_assoc|]. split; [|split].
      * unfold horner in *. rewrite fold_left_app, Hh. simpl. lia.
      * apply Forall_app_2; [done|]. constructor; [lia|constructor].
      * rewrite length_app. simpl. lia.
Qed.

(** No leading zero. *)
Lemma digits_loop_head base fuel n acc :
  2 <= base -> 0 < n < base ^ Z.of_nat fuel ->
  exists d t, digits_loop fuel base n acc = d :: t /\ d <> 0.
Proof.
  intros Hb. revert n acc; induction fuel as [|fuel IH]; intros n acc Hn; [simpl in Hn; lia|].
  cbn [digits_loop]. destruct (Z.eqb_spec (n / base) 0) as [Hz|Hz].
  - exists (n mod base), acc. split; [done|]. pose proof (Z.div_mod n base). lia.
  - apply IH. rewrite Nat2Z.inj_succ, Z.pow_succ_r in Hn by lia.
    pose proof (Z.div_pos n base). split; [lia|]. apply Z.div_lt_upper_bound; lia.
Qed.

Lemma digits_small base n k :
  2 <= base -> 0 <= n < base ^ Z.of_nat (S k) -> (k < 64)%nat ->
  horner base (digits base n) 0 = n /\ Forall (fun d => 0 <= d < base) (digits base n) /\
  (1 <= length (digits base n) <= S k)%nat.
Proof.
  intros Hb Hn Hl. unfold digits.
  destruct (digits_loop_spec base 64 n [] k) as (ds&->&?); [done|lia|lia|].
  by rewrite app_nil_r.
Qed.

(** Digits in base [base] of a 64-bit number; [k] bounds how many there are. *)
Lemma digits_spec base n k :
  2 <= base -> 0 <= n < 2 ^ 64 -> 2 ^ 64 <= base ^ Z.of_nat (S k) -> (k < 64)%nat ->
  horner base (digits base n) 0 = n /\ Forall (fun d => 0 <= d < base) (digits base n) /\
  (1 <= length (digits base n) <= S k)%nat.
Proof.
  intros Hb Hn Hk Hl. apply digits_small; [done|lia|done].
Qed.

Lemma hex_digit_spec base d :
  base <= 16 -> 0 <= d < base ->
  digit_of base (hex_digit d) = Some d /\ byteZ (hex_digit d) /\ hex_digit d <> 0.
Proof.
  intros Hb Hd.
  assert (bool_decide (digit_of 16 (hex_digit d) = Some d) && bool_decide (byteZ (hex_digit d))
          && negb (hex_digit d =? 0) = true) as H.
  { assert (0 <= d < Z.of_nat 16) as Hd' by lia. revert d Hd' Hd. intros d Hd' _. revert d Hd'.
    apply (below_forall 16). vm_compute. reflexivity. }
  apply andb_true_iff in H as [H H3]. apply andb_true_iff in H as [H1 H2].
  apply bool_decide_eq_true_1 in H1, H2. apply negb_true_iff, Z.eqb_neq in H3.
  split; [|done]. unfold digit_of in *.
  match type of H1 with context [?x <? 16] => destruct (x <? 16); [|done] end.
  injection H1 as ->. by rewrite (proj2 (Z.ltb_lt _ _)) by lia.
Qed.

Lemma hex_digits_number base ds :
  base <= 16 -> Forall (fun d => 0 <= d < base) ds ->
  number_of base (hex_digit <$> ds) = Some (horner base ds 0) /\
  Forall byteZ (hex_digit <$> ds) /\ Forall (fun c => c <> 0) (hex_digit <$> ds).
Proof.
  intros Hb Hds. unfold number_of.
  assert (mapM (digit_of base) (hex_digit <$> ds) = Some ds) as ->.
  { apply mapM_Some, Forall2_fmap_l, Forall_Forall2_diag. eapply Forall_impl; [exact Hds|].
    intros d Hd. by apply hex_digit_spec. }
  split; [done|]. split; apply Forall_fmap; (eapply Forall_impl; [exact Hds|]); intros d Hd;
    by apply (hex_digit_spec base).
Qed.

Lemma horner_zeros base z ds : horner base (replicate z 0 ++ ds) 0 = horner base ds 0.
Proof. induction z as [|z IH]; [done|]. exact IH. Qed.

(** [ttoul] reads what [ultot] prints, with [z] zeros in front. *)
Lemma ttoul_base_printed base n z :
  base = 8 \/ base = 10 \/ base = 16 -> 0 <= n < 2 ^ 64 ->
  (z + length (digits 16 n) <= 16)%nat ->
  ttoul_base (replicate z 48 ++ (hex_digit <$> digits base n)) base = Ok n.
Proof.
  intros Hb Hn Hz.
  assert (horner base (digits base n) 0 = n /\ Forall (fun d => 0 <= d < base) (digits base n))
    as [Hh Hd].
  { destruct (digits_spec base n 21) as (?&?&_); try done; try lia;
      destruct Hb as [-> | [-> | ->]]; vm_compute; discriminate. }
  destruct (hex_digits_number base (replicate z 0 ++ digits base n)) as (H1&H2&H3); [lia| |].
  { apply Forall_app_2; [apply Forall_replicate; lia|done]. }
  rewrite horner_zeros, Hh in H1. rewrite fmap_app, fmap_replicate in *.
  change (hex_digit 0) with 48 in *. apply (ttoul_base_iff _ _ Hb H2 H3).
  split; [done|]. split; [lia|]. intros ->. rewrite length_app, length_replicate, length_fmap. lia.
Qed.

(** Base in which to read what was printed with [b]; 0 recognises prefixes. *)
Definition read_base (b : Z) : Z :=
  if (b =? 10) || (b =? chr "d") then 10
  else if (b =? 16) || (b =? 17) then 16
  else if b =? 8 then 8 else 0.

(** The shapes of what [ultot] prints. *)
Lemma ultot_text_inv n b t :
  ultot_text n b = Some t ->
  (t = dec_text n /\ read_base b = 10) \/
  (exists z, t = replicate z 48 ++ hex_text n /\ (z <= 8 - length (hex_text n))%nat /\
             read_base b = 16) \/
  (t = 48 :: 120 :: hex_text n /\ read_base b = 0) \/
  (t = oct_text n /\ read_base b = 8) \/
  (t = 48 :: oct_text n /\ read_base b = 0).
Proof.
  unfold ultot_text, read_base.
  change (chr "d") with 100; change (chr "x") with 120; change (chr "o") with 111.
  destruct (Z.eqb_spec b 10) as [->|]; [intros [= <-]; by left|].
  destruct (Z.eqb_spec b 100) as [->|]; [intros [= <-]; by left|].
  destruct (Z.eqb_spec b 16) as [->|]; [intros [= <-]; right; left; exists 0%nat;
    split; [done|]; split; [lia|done]|].
  destruct (Z.eqb_spec b 17) as [->|]; [intros [= <-]; right; left; eauto|].
  destruct (Z.eqb_spec b 120) as [->|]; [intros [= <-]; by do 2 right; left|].
  destruct (Z.eqb_spec b 8) as [->|]; [intros [= <-]; by do 3 right; left|].
  destruct (Z.eqb_spec b 111) as [->|]; [intros [= <-]; by do 4 right|]. done.
Qed.

Lemma text_of_digits base n k :
  2 <= base <= 16 -> 0 <= n < 2 ^ 64 -> 2 ^ 64 <= base ^ Z.of_nat (S k) -> (k < 64)%nat ->
  Forall (fun c => c <> 0) (hex_digit <$> digits base n) /\
  (1 <= length (hex_digit <$> digits base n) <= S k)%nat.
Proof.
  intros Hb Hn Hk Hl. destruct (digits_spec base n k) as (_&Hd&Hlen); [lia|done|done|done|].
  rewrite length_fmap. split; [|done]. by apply (hex_digits_number base); [lia|].
Qed.

Lemma hex_digit_not_x d :
  0 <= d < 16 -> (hex_digit d =? 120) || (hex_digit d =? 88) = false.
Proof.
  intros Hd. apply negb_true_iff. revert d Hd. apply (below_forall 16). vm_compute. reflexivity.
Qed.

#[local] Opaque digits.

Lemma ultot_text_chars n b t :
  0 <= n < 2 ^ 64 -> ultot_text n b = Some t ->
  Forall (fun c => c <> 0) t /\ (length t < 25)%nat.
Proof.
  intros Hn H. unfold dec_text, hex_text, oct_text in *.
  destruct (text_of_digits 10 n 19) as [H10 L10]; [lia|done|vm_compute; discriminate|lia|].
  destruct (text_of_digits 16 n 15) as [H16 L16]; [lia|done|vm_compute; discriminate|lia|].
  destruct (text_of_digits 8 n 21) as [H8 L8]; [lia|done|vm_compute; discriminate|lia|].
  apply ultot_text_inv in H as [[-> _]|[(z&->&Hz&_)|[[-> _]|[[-> _]|[-> _]]]]];
    unfold dec_text, hex_text, oct_text in *.
  - split; [exact H10|lia].
  - split; [apply Forall_app_2; [by apply Forall_replicate|exact H16]|].
    rewrite length_app, length_replicate. lia.
  - split; [constructor; [|constructor; [|exact H16]]; lia|simpl; lia].
  - split; [exact H8|lia].
  - split; [constructor; [lia|exact H8]|simpl; lia].
Qed.

Lemma ttoul_text_printed n b t :
  0 <= n < 2 ^ 64 -> ultot_text n b = Some t -> ttoul_text t (read_base b) = Ok n.
Proof.
  intros Hn H.
  destruct (text_of_digits 10 n 19) as [_ L10]; [lia|done|vm_compute; discriminate|lia|].
  destruct (text_of_digits 16 n 15) as [_ L16]; [lia|done|vm_compute; discriminate|lia|].
  destruct (text_of_digits 8 n 21) as [_ L8]; [lia|done|vm_compute; discriminate|lia|].
  pose proof L16 as Hd. rewrite length_fmap in Hd.
  pose proof (fun base Hb => ttoul_base_printed base n 0 Hb Hn ltac:(lia)) as P. simpl in P.
  apply ultot_text_inv in H as [[-> ->]|[(z&->&Hz&->)|[[-> ->]|[[-> ->]|[-> ->]]]]];
    unfold dec_text, hex_text, oct_text in *.
  - specialize (P 10 ltac:(lia)). by destruct (hex_digit <$> digits 10 n); [simpl in L10; lia|].
  - rewrite length_fmap in Hz. pose proof (ttoul_base_printed 16 n z ltac:(lia) Hn) as Q. specialize (Q ltac:(lia)).
    destruct (replicate z 48 ++ (hex_digit <$> digits 16 n)) eqn:E; [|done].
    apply app_eq_nil in E as [_ E]. rewrite E in L16. simpl in L16. lia.
  - specialize (P 16 ltac:(lia)). unfold ttoul_text. cbn [length].
    by rewrite (proj2 (Z.ltb_lt _ _)) by lia.
  - specialize (P 8 ltac:(lia)). by destruct (hex_digit <$> digits 8 n); [simpl in L8; lia|].
  - specialize (P 8 ltac:(lia)). unfold ttoul_text.
    destruct (hex_digit <$> digits 8 n) as [|c t] eqn:E; [simpl in L8; lia|].
    assert ((c =? 120) || (c =? 88) = false) as Hc.
    { destruct (digits_spec 8 n 21) as (_&Hb&_); [lia|done|vm_compute; discriminate|lia|].
      destruct (digits 8 n) as [|d ds]; [done|]. simpl in E. injection E as <- _.
      inversion_clear Hb. apply hex_digit_not_x. lia. }
    change (chr "x") with 120. change (chr "X") with 88. rewrite Hc, andb_false_r. done.
Qed.

Lemma cstring_nul t : Forall (fun c => c <> 0) t -> cstring (t ++ [0]) = Some t.
Proof.
  induction 1 as [|c t Hc _ IH]; [done|]. simpl. rewrite (proj2 (Z.eqb_neq _ _) Hc), IH. done.
Qed.

(** * Properties *)

(** Every format of [ultot] is a codec with the matching base of [ttoul]. *)
#[export] Instance ultot_codec b :
  is_Some (ultot_text 0 b) ->
  TextCodec (fun n => 0 <= n < 2 ^ 64) (fun n => default [] (ultot_text n b))
    (fun t => ttoul_text t (read_base b)).
Proof.
  intros Hb n Hn. assert (is_Some (ultot_text n b)) as [t Ht].
  { revert Hb. unfold ultot_text. repeat case_match; try done; intros [? ?]; done. }
  rewrite Ht. by apply ttoul_text_printed.
Qed.

(** On text without NUL characters, [ttoul] in base 8, 10 or 16 accepts
    exactly the non-empty texts whose characters are digits of the base and whose
    value fits in an [unsigned long] (in base 16: that have at most 16 digits),
    and returns that value.  The overflow test is exact and never wraps. *)
Theorem ttoul_correct src srclen base t v :
  base = 8 \/ base = 10 \/ base = 16 -> source src srclen = Some t ->
  Forall byteZ t -> Forall (fun c => c <> 0) t ->
  ttoul src srclen base = Ok v <->
  t <> [] /\ number_of base t = Some v /\ v < 2 ^ 64 /\ hex_fits base t.
Proof.
  intros Hb Hs Hby Hn. unfold ttoul. rewrite Hs. simpl.
  destruct t as [|c t]; [split; [done|by intros [? _]]|].
  unfold ttoul_text. rewrite (proj2 (Z.eqb_neq base 0)) by lia.
  rewrite (proj2 (ttoul_base_iff (c :: t) base Hb Hby Hn)). naive_solver.
Qed.

Lemma ttoul_correct_witness :
  ttoul (str "18446744073709551615") 20 10 = Ok (2 ^ 64 - 1) /\
  number_of 10 (str "18446744073709551615") = Some (2 ^ 64 - 1).
Proof.
  split; [|by_decide].
  apply (ttoul_correct (str "18446744073709551615") 20 10 (str "18446744073709551615"));
    by_decide.
Defined.

(** What [ultot] stores is read back by [ttoul]: for every 64-bit number,
    every supported format and a buffer that is large enough, the stored string
    converts to the number (base 0 recognising the prefixes of 'x' and 'o'). *)
Theorem ultot_ttoul_roundtrip n b dstlen :
  0 <= n < 2 ^ 64 -> is_Some (ultot_text n b) -> fst (ultot n b dstlen) <= dstlen ->
  ttoul (snd (ultot n b dstlen)) 0 (read_base b) = Ok n.
Proof.
  intros Hn [t Ht] Hd. unfold ultot in *. rewrite Ht in *. simpl in *.
  rewrite (proj2 (Z.ltb_lt _ _)), (proj2 (Z.ltb_ge _ _)) by lia.
  unfold ttoul, source. simpl. destruct (ultot_text_chars n b t Hn Ht) as [Hc _].
  rewrite cstring_nul by done. simpl. by apply ttoul_text_printed.
Qed.

Lemma ultot_ttoul_roundtrip_witness :
  ttoul (snd (ultot 65535 (chr "x") 30)) 0 0 = Ok 65535.
Proof.
  apply (ultot_ttoul_roundtrip 65535 (chr "x") 30);
    [lia|eexists; vm_compute; reflexivity|by_decide].
Defined.

(** [ultot] stays inside its local buffer and inside [dst]: the text and its
    NUL fit in [buf], the result is the length needed, and [dst] receives the
    longest prefix that fits, always terminated. *)
Theorem ultot_bounds n b dstlen t :
  0 <= n < 2 ^ 64 -> ultot_text n b = Some t ->
  fst (ultot n b dstlen) = Z.of_nat (length t) + 1 /\
  Z.of_nat (length t) + 1 <= ultot_buf /\
  snd (ultot n b dstlen) =
  if 0 <? dstlen then take (Z.to_nat (dstlen - 1)) t ++ [0] else [].
Proof.
  intros Hn Ht. destruct (ultot_text_chars n b t Hn Ht) as [_ Hl]. unfold ultot. rewrite Ht. simpl.
  unfold ultot_buf. split; [done|]. split; [lia|]. destruct (Z.ltb_spec 0 dstlen); [|done].
  destruct (Z.ltb_spec dstlen (Z.of_nat (length t) + 1)); [done|].
  f_equal. by rewrite take_ge by lia.
Qed.

Lemma ultot_bounds_witness : snd (ultot 1234 10 3) = str "12" ++ [0].
Proof.
  apply (ultot_bounds 1234 10 3 (str "1234")); [lia|vm_compute; reflexivity].
Defined.

(** [strchr] also finds the NUL that ends the digit table, at index 16.  So a
    NUL inside a text of explicit length is accepted in base 16 as a digit of
    value 16; the text "1", NUL reads as 0x10 | 16 = 16 instead of an error. *)
Theorem ttoul_accepts_nul_digit t r :
  ttoul_hex (0 :: t) r = ttoul_hex t (Z.lor (u64 (Z.shiftl r 4)) 16) /\
  ttoul (str "1" ++ [0]) 2 16 = Ok 16.
Proof. split; [reflexivity|vm_compute; reflexivity]. Qed.
