(* ===== verification/Data.v ===== *)
(** Arbitrary data as text: lib/libswan/ttodata.c ([ttodatav], [ttodata] and the
    converters they use) and linux/net/ipsec/datatot.c ([datatot], [convert]).

    A converter returns a byte count or one of the negative codes, and what it
    wrote; an error is the text that the caller gets. *)
From S2P Require Import Prelude Numbers.

Definition TTODATAV_BUF : Z := 40.
Definition TTODATAV_IGNORESPACE : Z := 2.
Definition TTODATAV_SPACECOUNTS : Z := 0.

Definition SHORT : Z := -2.
Definition BADPAD : Z := -3.
Definition BADCH0 : Z := -4.
Definition BADCH1 : Z := -5.
Definition BADCH2 : Z := -6.
Definition BADCH3 : Z := -7.
Definition BADOFF (code : Z) : Z := BADCH0 - code.

Definition base64 : list Z :=
  str "ABCDEFGHIJKLMNOPQRSTUVWXYZabcdefghijklmnopqrstuvwxyz0123456789+/".

(** * Text to data *)

(** A character of a staged group. *)
Definition at_stage (stage : list Z) (i : nat) : Z := nth i stage 0.

Definition unhex_digit (c : Z) : option Z :=
  match strchr hex c with
  | Some d => Some d
  | None => strchr hex (tolower c)
  end.

Definition unhex (stage : list Z) (dstlen : Z) : Z * list Z :=
  if dstlen <? 1 then (SHORT, [])
  else
    match unhex_digit (at_stage stage 0) with
    | None => (BADCH0, [])
    | Some d0 =>
        match unhex_digit (at_stage stage 1) with
        | None => (BADCH1, [])
        | Some d1 => (1, [u8 (Z.lor (Z.shiftl d0 4) d1)])
        end
    end.

Definition unb64 (stage : list Z) (dstlen : Z) : Z * list Z :=
  if dstlen <? 3 then (SHORT, [])
  else
    match strchr base64 (at_stage stage 0) with
    | None => (BADCH0, [])
    | Some p0 =>
        let byte1 := Z.shiftl p0 2 in
        match strchr base64 (at_stage stage 1) with
        | None => (BADCH1, [])
        | Some byte2 =>
            let dst0 := u8 (Z.lor byte1 (Z.shiftr byte2 4)) in
            let byte1 := Z.shiftl (Z.land byte2 0xf) 4 in
            match strchr base64 (at_stage stage 2) with
            | None =>
                if (at_stage stage 2 =? chr "=") && (at_stage stage 3 =? chr "=") then
                  if negb (byte1 =? 0) then (BADPAD, [dst0]) else (1, [dst0])
                else (BADCH2, [dst0])
            | Some byte2 =>
                let dst1 := u8 (Z.lor byte1 (Z.shiftr byte2 2)) in
                let byte1 := Z.shiftl (Z.land byte2 0x3) 6 in
                match strchr base64 (at_stage stage 3) with
                | None =>
                    if at_stage stage 3 =? chr "=" then
                      if negb (byte1 =? 0) then (BADPAD, [dst0; dst1]) else (2, [dst0; dst1])
                    else (BADCH3, [dst0; dst1])
                | Some byte2 => (3, [dst0; dst1; u8 (Z.lor byte1 byte2)])
                end
            end
        end
    end.

Definition untext (stage : list Z) (dstlen : Z) : Z * list Z :=
  if dstlen <? 1 then (SHORT, []) else (1, [at_stage stage 0]).

Definition badch_pre : list Z := str "unknown character (`".
Definition badch_suf : list Z := str "') in input".
(** [sizeof(pre) - 1 + sizeof(buf) - 1 + sizeof(suf)] *)
Definition REQD : Z := Z.of_nat (length badch_pre) + 4 + (Z.of_nat (length badch_suf) + 1).

(** The offending character, or an escape; the character is a signed [char]. *)
Definition badch_buf (c : Z) : list Z :=
  if isprint c then [c]
  else
    [92; Z.shiftr (Z.land (schar c) 448) 6 + 48; Z.shiftr (Z.land (schar c) 56) 3 + 48;
     Z.land (schar c) 7 + 48].

Definition badch (stage : list Z) (errcode : Z) (errp : bool) (errlen : Z) : list Z :=
  if negb errp || (errlen <? REQD) then str "unknown character in input"
  else badch_pre ++ badch_buf (at_stage stage (Z.to_nat (BADOFF errcode))) ++ badch_suf.

(** What the switch on the base chooses. *)
Record decoder := mk_decoder {
  decode : list Z -> Z -> Z * list Z;
  underscoreok : bool;
  ingroup : nat;
  skipSpace : bool
}.

Definition ttodata_base (base flags : Z) : option decoder :=
  if base =? 16 then Some (mk_decoder unhex true 2 false)
  else if base =? 64 then
    Some (mk_decoder unb64 false 4 (negb (Z.land flags TTODATAV_IGNORESPACE =? 0)))
  else if base =? 256 then Some (mk_decoder untext false 1 false)
  else None.

Definition is_blank (c : Z) : bool := (c =? 32) || (c =? 9).

(** Grab [n] characters, squeezing out blanks if they are to be ignored. *)
Fixpoint grab (skip : bool) (n : nat) (t : list Z) : option (list Z * list Z) :=
  match n with
  | O => Some ([], t)
  | S n' =>
      match t with
      | [] => None
      | c :: t' =>
          if skip && is_blank c then grab skip n t'
          else '(stage, rest) ← grab skip n' t'; Some (c :: stage, rest)
      end
  end.

Fixpoint skip_blanks (skip : bool) (t : list Z) : list Z :=
  match t with
  | c :: t' => if skip && is_blank c then skip_blanks skip t' else t
  | [] => []
  end.

(** An underscore that is not the last character separates groups. *)
Definition skip_underscore (ok : bool) (t : list Z) : list Z :=
  match t with
  | c :: d :: t' => if ok && (c =? chr "_") then d :: t' else t
  | _ => t
  end.

(** Store [bs] at [dst], as far as [dst < stop]. *)
Definition deposit (dstlen : Z) (out bs : list Z) : list Z :=
  out ++ take (Z.to_nat dstlen - length out) bs.

Definition buffer_too_short : list Z :=
  str "internal buffer too short (" ++ [34] ++ str "can't happen" ++ [34] ++ str ")".

Section Ttodatav.
Context (d : decoder) (dstlen : Z) (errp : bool) (errlen : Z).

(** One pass of the main loop on a non-empty text. *)
Definition ttodata_group (t : list Z) : outcome (list Z) (list Z * list Z) :=
  match grab (skipSpace d) (ingroup d) t with
  | None => Ugh (str "input ends in mid-byte, perhaps truncated")
  | Some (stage, rest) =>
      let '(nbytes, buf) := decode d stage 4 in
      if (nbytes =? BADCH0) || (nbytes =? BADCH1) || (nbytes =? BADCH2) || (nbytes =? BADCH3)
      then Ugh (badch stage nbytes errp errlen)
      else if nbytes =? SHORT then Ugh buffer_too_short
      else if nbytes =? BADPAD then Ugh (str "bad (non-zero) padding at end of base64 input")
      else if nbytes <=? 0 then Ugh (str "unknown internal error")
      else
        Ok (take (Z.to_nat nbytes) buf,
            skip_underscore (underscoreok d) (skip_blanks (skipSpace d) rest))
  end.

(** The loop consumes at least one character per pass: the length of the text is
    enough fuel.  The state is what is in [dst] and [ndone]. *)
Fixpoint ttodata_loop (fuel : nat) (t out : list Z) (ndone : Z)
  : outcome (list Z) (list Z * Z) :=
  match t, fuel with
  | [], _ => Ok (out, ndone)
  | _, O => Abort
  | _, S fuel' =>
      '(bs, rest) ← ttodata_group t;
      ttodata_loop fuel' rest (deposit dstlen out bs) (ndone + Z.of_nat (length bs))
  end.

End Ttodatav.

(** The format prefix that base 0 asks for. *)
Definition ttodata_prefix (t : list Z) : outcome (list Z) (Z * list Z) :=
  match t with
  | c0 :: c1 :: t' =>
      if negb (c0 =? chr "0") then Ugh (str "input does not begin with format prefix")
      else if (c1 =? chr "x") || (c1 =? chr "X") then Ok (16, t')
      else if (c1 =? chr "s") || (c1 =? chr "S") then Ok (64, t')
      else if (c1 =? chr "t") || (c1 =? chr "T") then Ok (256, t')
      else Ugh (str "unknown format prefix")
  | _ => Ugh (str "input too short to be valid")
  end.

Definition ttodatav_text (t : list Z) (base dstlen : Z) (errp : bool) (errlen flags : Z)
  : outcome (list Z) (list Z * Z) :=
  '(base, t) ← (if base =? 0 then ttodata_prefix t else Ok (base, t));
  match ttodata_base base flags with
  | None => Ugh (str "unknown base")
  | Some d =>
      '(out, ndone) ← ttodata_loop d dstlen errp errlen (length t) t [] 0;
      if ndone =? 0 then Ugh (str "no data bytes specified by input") else Ok (out, ndone)
  end.

(** The result is what was stored in [dst] and [*lenp]. *)
Definition ttodatav (src : list Z) (srclen base dstlen : Z) (errp : bool) (errlen flags : Z)
  : outcome (list Z) (list Z * Z) :=
  t ← defined (source src srclen);
  ttodatav_text t base dstlen errp errlen flags.

Definition ttodata (src : list Z) (srclen base dstlen : Z) : outcome (list Z) (list Z * Z) :=
  ttodatav src srclen base dstlen false 0 TTODATAV_SPACECOUNTS.

(** * Data to text *)

Definition hex_at (i : Z) : Z := nth (Z.to_nat i) hex 0.
Definition b64_at (i : Z) : Z := nth (Z.to_nat i) base64 0.

(** [convert]: one input block, of which [nreal] bytes are real. *)
Definition convert (block : list Z) (nreal : Z) (format : Z) : list Z :=
  if format =? chr "x" then
    let c := nth 0 block 0 in
    [hex_at (Z.shiftr c 4); hex_at (Z.land c 0xf)]
  else
    let c1 := nth 0 block 0 in
    let c2 := nth 1 block 0 in
    let c3 := nth 2 block 0 in
    [b64_at (Z.shiftr c1 2);
     b64_at (Z.lor (Z.shiftl (Z.land c1 0x3) 4) (Z.shiftr c2 4));
     (if nreal =? 1 then chr "="
      else b64_at (Z.lor (Z.shiftl (Z.land c2 0xf) 2) (Z.shiftr c3 6)));
     (if nreal <=? 2 then chr "=" else b64_at (Z.land c3 0x3f))].

(** What the switch on the format chooses. *)
Record encoder := mk_encoder {
  enc_format : Z;
  inblocksize : nat;
  outblocksize : Z;
  prefix : list Z;
  breakevery : Z;
  breakchar : Z
}.

Definition datatot_format (format : Z) : option encoder :=
  if (format =? 0) || (format =? chr "h") then
    Some (mk_encoder (chr "x") 1 2 (str "0x") 8 (chr "_"))
  else if format =? chr "x" then Some (mk_encoder (chr "x") 1 2 (str "0x") 0 (chr "_"))
  else if format =? chr ":" then Some (mk_encoder (chr "x") 1 2 [] 2 (chr ":"))
  else if format =? 16 then Some (mk_encoder (chr "x") 1 2 [] 0 (chr "_"))
  else if format =? chr "s" then Some (mk_encoder (chr "s") 3 4 (str "0s") 0 (chr "_"))
  else if format =? 64 then Some (mk_encoder (chr "s") 3 4 [] 0 (chr "_"))
  else None.

(** Where [datatot] is: what is stored at [dst] (before [stop]), and the counters. *)
Record dstate := mk_ds { ds_dst : list Z; ds_needed : Z; ds_since : Z }.

Section Datatot.
Context (e : encoder) (cap : nat).

(** Store a converted block, through [outblock] if it does not fit before [stop]. *)
Definition put_block (out blk : list Z) : list Z :=
  let left := (cap - length out)%nat in
  if (length out <? cap)%nat then
    if Z.of_nat left <? outblocksize e then out ++ take left blk else out ++ blk
  else out.

Definition put_char (out : list Z) (c : Z) : list Z :=
  if (length out <? cap)%nat then out ++ [c] else out.

(** One pass of the loop: the remaining input and the new state. *)
Definition datatot_step (src : list Z) (s : dstate) : list Z * dstate :=
  let n := inblocksize e in
  let nreal := Nat.min n (length src) in
  let block := take n (take nreal src ++ replicate 10 0) in
  let blk := convert block (Z.of_nat nreal) (enc_format e) in
  let out := put_block (ds_dst s) blk in
  let needed := ds_needed s + outblocksize e in
  let since := ds_since s + outblocksize e in
  let rest := drop n src in
  if negb (breakevery e =? 0) && (breakevery e <=? since) && (0 <? Z.of_nat (length rest))
  then (rest, mk_ds (put_char out (breakchar e)) (needed + 1) 0)
  else (rest, mk_ds out needed since).

Fixpoint datatot_loop (fuel : nat) (src : list Z) (s : dstate) : dstate :=
  match src, fuel with
  | [], _ | _, O => s
  | _, S fuel' => let '(rest, s') := datatot_step src s in datatot_loop fuel' rest s'
  end.

End Datatot.

(** The result, and the bytes that are stored at [dst]. *)
Definition datatot (src : list Z) (format dstlen : Z) : Z * list Z :=
  match datatot_format format with
  | None => (0, [])
  | Some e =>
      if Z.of_nat (length src) =? 0 then (0, [])
      else
        let len := if dstlen =? 0 then 1 else dstlen in
        let cap := Z.to_nat (len - 1) in
        let nreal := Z.of_nat (length (prefix e)) in
        let dst := if len <=? nreal then take cap (prefix e) else prefix e in
        let s := datatot_loop e cap (length src) src (mk_ds dst nreal 0) in
        (ds_needed s + 1, if dstlen =? 0 then [] else ds_dst s ++ [0])
  end.

(** * What [datatot] prints *)

(** The text after the prefix, in a buffer without bounds. *)
Fixpoint encode_text (e : encoder) (fuel : nat) (src : list Z) (since : Z) : list Z :=
  match src, fuel with
  | [], _ | _, O => []
  | _, S fuel' =>
      let n := inblocksize e in
      let nreal := Nat.min n (length src) in
      let blk := convert (take n (take nreal src ++ replicate 10 0)) (Z.of_nat nreal)
                   (enc_format e) in
      let since := since + outblocksize e in
      let rest := drop n src in
      if negb (breakevery e =? 0) && (breakevery e <=? since) && (0 <? Z.of_nat (length rest))
      then blk ++ breakchar e :: encode_text e fuel' rest 0
      else blk ++ encode_text e fuel' rest since
  end.

Definition data_text (e : encoder) (src : list Z) : list Z :=
  prefix e ++ encode_text e (length src) src 0.

(** A block of the encoder has the declared size. *)
Definition enc_ok (e : encoder) : Prop :=
  forall block nreal, Z.of_nat (length (convert block nreal (enc_format e))) = outblocksize e.

Lemma datatot_format_ok format e : datatot_format format = Some e -> enc_ok e.
Proof.
  unfold datatot_format, enc_ok. intros H block nreal.
  repeat (case_match; [by simplify_eq|]). done.
Qed.

Lemma take_app_room {A} (cap : nat) (f b : list A) :
  take cap (f ++ b) = take cap f ++ take (cap - length (take cap f)) b.
Proof.
  rewrite firstn_app, length_take. do 2 f_equal. lia.
Qed.

Lemma put_block_take e cap f blk :
  Z.of_nat (length blk) = outblocksize e ->
  put_block e cap (take cap f) blk = take cap (f ++ blk).
Proof.
  intros Hl. rewrite take_app_room. unfold put_block.
  destruct (Nat.ltb_spec (length (take cap f)) cap).
  - destruct (Z.ltb_spec (Z.of_nat (cap - length (take cap f))) (outblocksize e)); [done|].
    by rewrite (take_ge blk) by lia.
  - rewrite length_take in *. replace (cap - Nat.min cap (length f))%nat with 0%nat by lia.
    by rewrite app_nil_r.
Qed.

Lemma put_char_take cap f c : put_char cap (take cap f) c = take cap (f ++ [c]).
Proof.
  rewrite take_app_room. unfold put_char.
  destruct (Nat.ltb_spec (length (take cap f)) cap).
  - by rewrite (take_ge [c]) by (simpl; lia).
  - replace (cap - length (take cap f))%nat with 0%nat by lia. by rewrite app_nil_r.
Qed.

Lemma datatot_loop_text e cap fuel src f since :
  enc_ok e ->
  exists since',
    datatot_loop e cap fuel src (mk_ds (take cap f) (Z.of_nat (length f)) since) =
    mk_ds (take cap (f ++ encode_text e fuel src since))
      (Z.of_nat (length (f ++ encode_text e fuel src since))) since'.
Proof.
  intros He. revert src f since; induction fuel as [|fuel IH]; intros [|c src] f since;
    cbn [datatot_loop encode_text]; try (rewrite app_nil_r; by eexists).
  unfold datatot_step. cbn [ds_dst ds_needed ds_since].
  set (blk := convert _ _ _). set (rest := drop _ _).
  assert (Z.of_nat (length blk) = outblocksize e) as Hl by apply He.
  rewrite (put_block_take e cap f blk Hl).
  destruct (negb _ && _ && _).
  - rewrite put_char_take. specialize (IH rest (f ++ blk ++ [breakchar e]) 0) as [s' IH].
    exists s'. rewrite <- !app_assoc in *. simpl in IH. rewrite <- IH. do 2 f_equal.
    rewrite !length_app. simpl. lia.
  - specialize (IH rest (f ++ blk) (since + outblocksize e)) as [s' IH].
    exists s'. rewrite <- !app_assoc in *. rewrite <- IH. do 2 f_equal. rewrite length_app. lia.
Qed.

(** * Reading back what was printed *)

Definition plain (c : Z) : Prop := c <> 0 /\ is_blank c = false.

(** The block that [datatot] converts for the bytes [bs]. *)
Definition block_text (e : encoder) (bs : list Z) : list Z :=
  convert (take (inblocksize e) (bs ++ replicate 10 0)) (Z.of_nat (length bs)) (enc_format e).

(** What a decoder has to know about an encoder to undo it. *)
Class BlockCodec (d : decoder) (e : encoder) : Prop := {
  bc_size : (0 < inblocksize e)%nat;
  bc_out : Z.of_nat (ingroup d) = outblocksize e;
  bc_len : forall bs, length (block_text e bs) = ingroup d;
  bc_decode : forall bs, Forall byteZ bs -> (0 < length bs <= inblocksize e)%nat ->
    decode d (block_text e bs) 4 = (Z.of_nat (length bs), bs);
  bc_plain : forall bs, Forall byteZ bs -> Forall plain (block_text e bs);
  bc_head : forall bs, Forall byteZ bs ->
    exists c t, block_text e bs = c :: t /\ c <> chr "_";
  bc_break : breakevery e <> 0 -> breakchar e = chr "_" /\ underscoreok d = true
}.

Lemma grab_plain skip stage rest :
  Forall plain stage -> grab skip (length stage) (stage ++ rest) = Some (stage, rest).
Proof.
  induction 1 as [|c stage [_ Hc] _ IH]; [by destruct rest|].
  cbn [length app grab]. rewrite Hc, andb_false_r, IH. done.
Qed.

Lemma skip_blanks_plain skip t : Forall plain t -> skip_blanks skip t = t.
Proof. destruct 1 as [|c t [_ Hc] _]; [done|]. simpl. by rewrite Hc, andb_false_r. Qed.

Section RoundTrip.
Context (d : decoder) (e : encoder) `{!BlockCodec d e}.
Context (dstlen : Z) (errp : bool) (errlen : Z).

Lemma encode_text_cons fuel src since :
  src <> [] ->
  encode_text e (S fuel) src since =
  block_text e (take (inblocksize e) src) ++
  (let since' := since + outblocksize e in
   let rest := drop (inblocksize e) src in
   if negb (breakevery e =? 0) && (breakevery e <=? since') && (0 <? Z.of_nat (length rest))
   then breakchar e :: encode_text e fuel rest 0 else encode_text e fuel rest since').
Proof.
  intros Hs. destruct src as [|c src]; [done|]. cbn [encode_text].
  unfold block_text. rewrite length_take.
  assert (take (Nat.min (inblocksize e) (length (c :: src))) (c :: src) =
          take (inblocksize e) (c :: src)) as ->.
  { destruct (Nat.min_spec (inblocksize e) (length (c :: src))) as [[_ ->]|[Hl ->]]; [done|].
    by rewrite !take_ge by lia. }
  by case_match.
Qed.

(** The text never starts with an underscore, and its characters are plain. *)
Lemma encode_text_plain fuel src since :
  Forall byteZ src -> Forall plain (encode_text e fuel src since).
Proof.
  revert src since; induction fuel as [|fuel IH]; intros src since Hb; [by destruct src|].
  destruct (decide (src = [])) as [->|Hne]; [done|]. rewrite encode_text_cons by done.
  apply Forall_app_2; [by apply bc_plain, Forall_take|]. cbv zeta.
  destruct (Z.eqb_spec (breakevery e) 0) as [Hz|Hz]; simpl; [by apply IH, Forall_drop|].
  destruct (_ && _); [|by apply IH, Forall_drop].
  constructor; [|by apply IH, Forall_drop]. apply bc_break in Hz as [-> _]. done.
Qed.

Lemma encode_text_head fuel src since :
  Forall byteZ src ->
  encode_text e fuel src since = [] \/
  exists c t, encode_text e fuel src since = c :: t /\ c <> chr "_".
Proof.
  intros Hb. destruct fuel as [|fuel]; [left; by destruct src|].
  destruct (decide (src = [])) as [->|Hne]; [by left|]. right.
  rewrite encode_text_cons by done.
  destruct (bc_head (take (inblocksize e) src)) as (c&t&->&Hc); [by apply Forall_take|].
  simpl. eauto.
Qed.

(** One group: the separator, if there is one, is skipped. *)
Lemma ttodata_group_block bs rest sep :
  Forall byteZ bs -> (0 < length bs <= inblocksize e)%nat -> Forall plain rest ->
  (sep = [] /\ (rest = [] \/ exists c t, rest = c :: t /\ c <> chr "_") \/
   sep = [chr "_"] /\ rest <> [] /\ underscoreok d = true) ->
  ttodata_group d errp errlen (block_text e bs ++ sep ++ rest) = Ok (bs, rest).
Proof.
  intros Hb Hl Hr Hsep. unfold ttodata_group. rewrite <- (bc_len bs).
  rewrite grab_plain by by apply bc_plain. rewrite bc_decode by done.
  assert (forall k, k < 0 -> (Z.of_nat (length bs) =? k) = false) as Hneg
    by (intros; apply Z.eqb_neq; lia).
  rewrite !Hneg by done. simpl. rewrite (proj2 (Z.leb_gt _ _)) by lia.
  rewrite Nat2Z.id, firstn_all. do 2 f_equal.
  assert (Forall plain (sep ++ rest)) as Hp.
  { apply Forall_app_2; [|done]. destruct Hsep as [[-> _]|[-> _]]; [done|].
    constructor; [|done]. done. }
  rewrite skip_blanks_plain by done.
  destruct Hsep as [(->&[->|(c&t&->&Hc)])|(->&Hne&->)]; simpl; [done| |].
  - destruct t; [done|]. by rewrite (proj2 (Z.eqb_neq _ _) Hc), andb_false_r.
  - by destruct rest.
Qed.

(** What follows a block: the rest of the text, after a separator or not. *)
Lemma separator fuel rest since :
  Forall byteZ rest -> (length rest <= fuel)%nat ->
  exists since2 sep,
    (if negb (breakevery e =? 0) && (breakevery e <=? since) && (0 <? Z.of_nat (length rest))
     then breakchar e :: encode_text e fuel rest 0 else encode_text e fuel rest since)
    = sep ++ encode_text e fuel rest since2 /\
    (sep = [] /\ (encode_text e fuel rest since2 = [] \/
       exists c t, encode_text e fuel rest since2 = c :: t /\ c <> chr "_") \/
     sep = [chr "_"] /\ encode_text e fuel rest since2 <> [] /\ underscoreok d = true).
Proof.
  intros Hb Hl. destruct (negb _ && _ && _) eqn:H.
  - exists 0, [breakchar e]. split; [done|]. right.
    apply andb_true_iff in H as [[H _]%andb_true_iff Hr]. apply negb_true_iff, Z.eqb_neq in H.
    apply bc_break in H as [-> ->]. split; [done|]. split; [|done].
    destruct rest as [|c rest]; [done|]. destruct fuel as [|fuel]; [simpl in Hl; lia|].
    rewrite encode_text_cons by done.
    destruct (bc_head (take (inblocksize e) (c :: rest))) as (c'&t&->&_);
      [by apply Forall_take|done].
  - exists since, []. split; [done|]. left. split; [done|]. by apply encode_text_head.
Qed.

Lemma ttodata_loop_step fuel t bs rest out n :
  t <> [] -> ttodata_group d errp errlen t = Ok (bs, rest) ->
  ttodata_loop d dstlen errp errlen (S fuel) t out n =
  ttodata_loop d dstlen errp errlen fuel rest (deposit dstlen out bs) (n + Z.of_nat (length bs)).
Proof. intros Ht H. destruct t; [done|]. cbn [ttodata_loop]. by rewrite H. Qed.

Lemma ttodata_loop_text fuel fuel2 src since f n :
  Forall byteZ src -> (length src <= fuel)%nat ->
  (length (encode_text e fuel src since) <= fuel2)%nat ->
  ttodata_loop d dstlen errp errlen fuel2 (encode_text e fuel src since)
    (take (Z.to_nat dstlen) f) n =
  Ok (take (Z.to_nat dstlen) (f ++ src), n + Z.of_nat (length src)).
Proof.
  revert fuel2 src since f n; induction fuel as [|fuel IH]; intros fuel2 src since f n Hb Hl Ht.
  { destruct src; [|simpl in Hl; lia]. simpl. destruct fuel2; by rewrite app_nil_r, Z.add_0_r. }
  destruct (decide (src = [])) as [->|Hne].
  { simpl. destruct fuel2; by rewrite app_nil_r, Z.add_0_r. }
  rewrite encode_text_cons in * by done. pose proof bc_size as Hsz.
  pose proof (bc_len (take (inblocksize e) src)) as Hlen. pose proof bc_head as Hh.
  set (bs := take (inblocksize e) src) in *. set (rest := drop (inblocksize e) src) in *.
  assert (src = bs ++ rest) as Hsrc by (symmetry; apply take_drop).
  assert (Forall byteZ bs /\ Forall byteZ rest) as [Hbs Hrest]
    by (rewrite Hsrc in Hb; by apply Forall_app in Hb).
  assert (0 < length bs <= inblocksize e)%nat as Hlb.
  { unfold bs. rewrite length_take. destruct src; [done|]. simpl. lia. }
  assert (length rest <= fuel)%nat as Hlr.
  { unfold rest. rewrite length_drop. destruct src; [done|]. simpl in *. lia. }
  destruct (Hh bs Hbs) as (c0&t0&E0&_).
  destruct (separator fuel rest (since + outblocksize e) Hrest Hlr) as (since2&sep&E&Hsep).
  cbv zeta in E, Ht |- *. rewrite E in *.
  destruct fuel2 as [|fuel2]; [rewrite E0 in Ht; simpl in Ht; lia|].
  rewrite (ttodata_loop_step fuel2 _ bs (encode_text e fuel rest since2)).
  - unfold deposit. rewrite <- take_app_room, Hsrc at 1. rewrite IH; [|done|done|].
    + rewrite <- app_assoc. do 2 f_equal. rewrite Hsrc, length_app. lia.
    + rewrite !length_app in Ht. rewrite E0 in Ht. simpl in Ht. lia.
  - rewrite E0. done.
  - apply ttodata_group_block; auto. by apply encode_text_plain.
Qed.

End RoundTrip.

(** ** The two converters undo their encoders *)

#[local] Arguments strchr : simpl never.

Lemma hex_at_spec i :
  0 <= i < 16 -> unhex_digit (hex_at i) = Some i /\ plain (hex_at i) /\ hex_at i <> chr "_".
Proof.
  intros Hi. refine (bool_decide_eq_true_1 _ _). revert i Hi. apply (below_forall 16).
  vm_compute. reflexivity.
Qed.

Lemma b64_at_spec i :
  0 <= i < 64 -> strchr base64 (b64_at i) = Some i /\ plain (b64_at i) /\ b64_at i <> chr "_".
Proof.
  intros Hi. refine (bool_decide_eq_true_1 _ _). revert i Hi. apply (below_forall 64).
  vm_compute. reflexivity.
Qed.

Lemma nibbles c : byteZ c -> 0 <= Z.shiftr c 4 < 16 /\ 0 <= Z.land c 0xf < 16 /\
  Z.lor (Z.shiftl (Z.shiftr c 4) 4) (Z.land c 0xf) = c.
Proof.
  unfold byteZ. intros Hc. rewrite Z.shiftr_div_pow2 by lia.
  change 0xf with (Z.ones 4). rewrite Z.land_ones by lia. change (2 ^ 4) with 16.
  rewrite (lor_shiftl (c / 16) 4) by div_lia. div_lia.
Qed.

Lemma unhex_hex c :
  byteZ c -> unhex [hex_at (Z.shiftr c 4); hex_at (Z.land c 0xf)] 4 = (1, [c]).
Proof.
  intros Hc. destruct (nibbles c Hc) as (H1&H2&H3). unfold unhex, at_stage. cbn [nth].
  change (4 <? 1) with false. cbv iota.
  rewrite (proj1 (hex_at_spec _ H1)), (proj1 (hex_at_spec _ H2)), H3.
  by rewrite u8_small by (unfold byteZ in Hc; lia).
Qed.

(** The encoders in base 16 that [ttodata] can read. *)
Definition hex_encoder (e : encoder) : Prop :=
  enc_format e = chr "x" /\ inblocksize e = 1%nat /\ outblocksize e = 2 /\
  (breakevery e <> 0 -> breakchar e = chr "_").

Definition unhex_decoder : decoder := mk_decoder unhex true 2 false.

#[export] Instance hex_codec e : hex_encoder e -> BlockCodec unhex_decoder e.
Proof.
  intros (Hf&Hi&Ho&Hbr).
  assert (forall bs, Forall byteZ bs -> byteZ (nth 0 (take 1 (bs ++ replicate 10 0)) 0)) as Hn.
  { intros [|b bs] Hb; [done|]. by inversion Hb. }
  assert (forall bs, block_text e bs =
    let c := nth 0 (take 1 (bs ++ replicate 10 0)) 0 in
    [hex_at (Z.shiftr c 4); hex_at (Z.land c 0xf)]) as E.
  { intros bs. unfold block_text, convert. rewrite Hf, Hi. reflexivity. }
  assert (forall bs, Forall byteZ bs ->
    let c := nth 0 (take 1 (bs ++ replicate 10 0)) 0 in
    0 <= Z.shiftr c 4 < 16 /\ 0 <= Z.land c 0xf < 16) as Hr.
  { intros bs Hb. destruct (nibbles _ (Hn bs Hb)) as (?&?&_). auto. }
  split.
  - rewrite Hi. lia.
  - by rewrite Ho.
  - intros bs. by rewrite E.
  - intros bs Hb Hl. rewrite Hi in Hl. destruct bs as [|c [|? ?]]; simpl in Hl; try lia.
    rewrite E. inversion_clear Hb as [|? ? Hc _]. by apply unhex_hex.
  - intros bs Hb. rewrite E. destruct (Hr bs Hb) as [H1 H2].
    constructor; [by apply hex_at_spec|]. constructor; [by apply hex_at_spec|done].
  - intros bs Hb. rewrite E. destruct (Hr bs Hb) as [H1 H2].
    eexists _, _. split; [done|]. by apply hex_at_spec.
  - intros H. split; [by apply Hbr|done].
Qed.

Definition unb64_decoder (skip : bool) : decoder := mk_decoder unb64 false 4 skip.

Definition b64_encoder (e : encoder) : Prop :=
  enc_format e = chr "s" /\ inblocksize e = 3%nat /\ outblocksize e = 4 /\ breakevery e = 0.

(** The four six-bit digits of three bytes. *)
Definition q0 (c1 : Z) : Z := Z.shiftr c1 2.
Definition q1 (c1 c2 : Z) : Z := Z.lor (Z.shiftl (Z.land c1 0x3) 4) (Z.shiftr c2 4).
Definition q2 (c2 c3 : Z) : Z := Z.lor (Z.shiftl (Z.land c2 0xf) 2) (Z.shiftr c3 6).
Definition q3 (c3 : Z) : Z := Z.land c3 0x3f.

Lemma sextets c1 c2 c3 :
  byteZ c1 -> byteZ c2 -> byteZ c3 ->
  q0 c1 = c1 / 4 /\ q1 c1 c2 = c1 mod 4 * 16 + c2 / 16 /\
  q2 c2 c3 = c2 mod 16 * 4 + c3 / 64 /\ q3 c3 = c3 mod 64.
Proof.
  unfold byteZ, q0, q1, q2, q3. intros H1 H2 H3. rewrite !Z.shiftr_div_pow2 by lia.
  change 0x3 with (Z.ones 2); change 0xf with (Z.ones 4); change 0x3f with (Z.ones 6).
  rewrite !Z.land_ones by lia. change (2 ^ 2) with 4; change (2 ^ 4) with 16;
    change (2 ^ 6) with 64.
  rewrite (lor_shiftl (c1 mod 4) 4), (lor_shiftl (c2 mod 16) 2) by div_lia. lia.
Qed.

Lemma sextets_bound c1 c2 c3 :
  byteZ c1 -> byteZ c2 -> byteZ c3 ->
  0 <= q0 c1 < 64 /\ 0 <= q1 c1 c2 < 64 /\ 0 <= q2 c2 c3 < 64 /\ 0 <= q3 c3 < 64.
Proof.
  intros H1 H2 H3. destruct (sextets c1 c2 c3 H1 H2 H3) as (->&->&->&->).
  unfold byteZ in *. div_lia.
Qed.

Lemma join_bytes c1 c2 c3 :
  byteZ c1 -> byteZ c2 -> byteZ c3 ->
  u8 (Z.lor (Z.shiftl (q0 c1) 2) (Z.shiftr (q1 c1 c2) 4)) = c1 /\
  u8 (Z.lor (Z.shiftl (Z.land (q1 c1 c2) 0xf) 4) (Z.shiftr (q2 c2 c3) 2)) = c2 /\
  u8 (Z.lor (Z.shiftl (Z.land (q2 c2 c3) 0x3) 6) (q3 c3)) = c3 /\
  Z.shiftl (Z.land (q1 c1 0) 0xf) 4 = 0 /\ Z.shiftl (Z.land (q2 c2 0) 0x3) 6 = 0.
Proof.
  intros H1 H2 H3. destruct (sextets c1 c2 c3 H1 H2 H3) as (->&->&->&->).
  destruct (sextets c1 0 c3 H1 ltac:(done) H3) as (_&->&_).
  destruct (sextets c1 c2 0 H1 H2 ltac:(done)) as (_&_&->&_).
  unfold byteZ in *. rewrite !Z.shiftr_div_pow2 by lia.
  change 0x3 with (Z.ones 2); change 0xf with (Z.ones 4).
  rewrite !Z.land_ones by lia. change (2 ^ 2) with 4; change (2 ^ 4) with 16.
  rewrite (lor_shiftl (c1 / 4) 2), (lor_shiftl _ 4), (lor_shiftl _ 6) by div_lia.
  rewrite !Z.shiftl_mul_pow2 by lia. change (2 ^ 4) with 16; change (2 ^ 6) with 64;
    change (2 ^ 2) with 4.
  rewrite !u8_small by div_lia. repeat split; div_lia.
Qed.

Lemma unb64_b64 c1 c2 c3 :
  byteZ c1 -> byteZ c2 -> byteZ c3 ->
  unb64 [b64_at (q0 c1); b64_at (q1 c1 c2); b64_at (q2 c2 c3); b64_at (q3 c3)] 4
    = (3, [c1; c2; c3]) /\
  unb64 [b64_at (q0 c1); b64_at (q1 c1 c2); b64_at (q2 c2 0); chr "="] 4 = (2, [c1; c2]) /\
  unb64 [b64_at (q0 c1); b64_at (q1 c1 0); chr "="; chr "="] 4 = (1, [c1]).
Proof.
  intros H1 H2 H3. assert (byteZ 0) as H0 by done.
  destruct (sextets_bound c1 c2 c3 H1 H2 H3) as (B0&B1&B2&B3).
  destruct (sextets_bound c1 0 c3 H1 H0 H3) as (_&B1'&_).
  destruct (sextets_bound c1 c2 0 H1 H2 H0) as (_&_&B2'&_).
  destruct (join_bytes c1 c2 c3 H1 H2 H3) as (J1&J2&J3&_).
  destruct (join_bytes c1 0 c3 H1 H0 H3) as (J1'&_&_&Z1&_).
  destruct (join_bytes c1 c2 0 H1 H2 H0) as (_&J2'&_&_&Z2).
  unfold unb64, at_stage. cbn [nth]. change (4 <? 3) with false. cbv iota.
  change (strchr base64 (chr "=")) with (@None Z).
  rewrite (proj1 (b64_at_spec _ B0)), (proj1 (b64_at_spec _ B1)), (proj1 (b64_at_spec _ B1')),
    (proj1 (b64_at_spec _ B2)), (proj1 (b64_at_spec _ B2')), (proj1 (b64_at_spec _ B3)).
  rewrite J1, J2, J3, J1', J2', Z1, Z2. done.
Qed.

Lemma b64_block e bs :
  b64_encoder e -> Forall byteZ bs ->
  exists c1 c2 c3, byteZ c1 /\ byteZ c2 /\ byteZ c3 /\
    take 3 (bs ++ replicate 10 0) = [c1; c2; c3] /\
    block_text e bs =
      [b64_at (q0 c1); b64_at (q1 c1 c2);
       (if Z.of_nat (length bs) =? 1 then chr "=" else b64_at (q2 c2 c3));
       (if Z.of_nat (length bs) <=? 2 then chr "=" else b64_at (q3 c3))].
Proof.
  intros (Hf&Hi&_) Hb. unfold block_text, convert. rewrite Hf, Hi. change (chr "s" =? chr "x") with false.
  cbv iota.
  destruct bs as [|a [|b [|c bs]]]; [exists 0, 0, 0|exists a, 0, 0|exists a, b, 0|exists a, b, c];
    repeat match goal with H : Forall byteZ (_ :: _) |- _ => inversion_clear H end;
    repeat (split; [done|]); reflexivity.
Qed.

#[export] Instance b64_codec e skip : b64_encoder e -> BlockCodec (unb64_decoder skip) e.
Proof.
  intros He. pose proof He as (Hf&Hi&Ho&Hbr).
  assert (plain (chr "=")) as Heq by done.
  split.
  - rewrite Hi. lia.
  - by rewrite Ho.
  - intros bs. unfold block_text, convert. by rewrite Hf.
  - intros bs Hb Hl. destruct (b64_block e bs He Hb) as (c1&c2&c3&H1&H2&H3&Ht&->).
    rewrite Hi in Hl. destruct (unb64_b64 c1 c2 c3 H1 H2 H3) as (U3&U2&U1).
    destruct bs as [|a [|b [|c [|? ?]]]]; simpl in Hl; try lia; simpl in Ht; injection Ht as <- <- <-;
      [exact U1|exact U2|exact U3].
  - intros bs Hb. destruct (b64_block e bs He Hb) as (c1&c2&c3&H1&H2&H3&_&->).
    destruct (sextets_bound c1 c2 c3 H1 H2 H3) as (B0&B1&B2&B3).
    constructor; [by apply b64_at_spec|]. constructor; [by apply b64_at_spec|].
    constructor; [case_match; [done|by apply b64_at_spec]|].
    constructor; [case_match; [done|by apply b64_at_spec]|done].
  - intros bs Hb. destruct (b64_block e bs He Hb) as (c1&c2&c3&H1&H2&H3&_&->).
    destruct (sextets_bound c1 c2 c3 H1 H2 H3) as (B0&_).
    eexists _, _. split; [done|]. by apply b64_at_spec.
  - done.
Qed.

(** * Termination and bounds *)

Lemma grab_length skip n t stage rest :
  grab skip n t = Some (stage, rest) -> (length rest + n <= length t)%nat.
Proof.
  revert n stage; induction t as [|c t IH]; intros [|n] stage; cbn [grab];
    try (intros [= <- <-]; simpl; lia).
  destruct (skip && is_blank c).
  - intros H%IH. simpl. lia.
  - destruct (grab skip n t) as [[s r]|] eqn:H; [|done]. simpl. intros [= <- <-].
    apply IH in H. lia.
Qed.

Lemma skip_blanks_length skip t : (length (skip_blanks skip t) <= length t)%nat.
Proof. induction t as [|c t IH]; simpl; [lia|]. case_match; simpl; lia. Qed.

Lemma skip_underscore_length ok t : (length (skip_underscore ok t) <= length t)%nat.
Proof. destruct t as [|c [|c' t]]; simpl; try lia. case_match; simpl; lia. Qed.

Lemma ttodata_group_length d errp errlen t bs rest :
  (0 < ingroup d)%nat -> ttodata_group d errp errlen t = Ok (bs, rest) ->
  (length rest < length t)%nat.
Proof.
  intros Hd. unfold ttodata_group. destruct (grab _ _ t) as [[stage r]|] eqn:Hg; [|done].
  apply grab_length in Hg. destruct (decode d stage 4) as [nb buf].
  repeat (case_match; [done|]). intros [= <- <-].
  pose proof (skip_underscore_length (underscoreok d) (skip_blanks (skipSpace d) r)).
  pose proof (skip_blanks_length (skipSpace d) r). lia.
Qed.

Lemma ttodata_group_total d errp errlen t : ttodata_group d errp errlen t <> Abort.
Proof.
  unfold ttodata_group. destruct (grab _ _ t) as [[stage r]|]; [|done].
  destruct (decode d stage 4) as [nb buf]. by repeat case_match.
Qed.

Lemma ttodata_loop_inv d dstlen errp errlen fuel t f :
  (0 < ingroup d)%nat -> (length t <= fuel)%nat ->
  match ttodata_loop d dstlen errp errlen fuel t (take (Z.to_nat dstlen) f)
          (Z.of_nat (length f)) with
  | Ok (out, n) => exists f', out = take (Z.to_nat dstlen) f' /\ n = Z.of_nat (length f')
  | Ugh _ => True
  | Abort => False
  end.
Proof.
  intros Hd. revert t f; induction fuel as [|fuel IH]; intros t f Hl.
  { destruct t; [|simpl in Hl; lia]. simpl. eauto. }
  destruct t as [|c t]; [simpl; eauto|]. cbn [ttodata_loop].
  pose proof (ttodata_group_total d errp errlen (c :: t)) as Ht.
  destruct (ttodata_group d errp errlen (c :: t)) as [[bs rest]| |] eqn:Hg; [|done|done].
  cbn [mbind outcome_bind]. unfold deposit. rewrite <- take_app_room.
  replace (Z.of_nat (length f) + Z.of_nat (length bs)) with (Z.of_nat (length (f ++ bs)))
    by (rewrite length_app; lia).
  apply IH. apply ttodata_group_length in Hg; [simpl in *; lia|done].
Qed.

Lemma ttodata_base_ingroup base flags d :
  ttodata_base base flags = Some d -> (0 < ingroup d)%nat.
Proof. unfold ttodata_base. repeat case_match; intros; simplify_eq; simpl; lia. Qed.

(** * The regression tables of ttodata.c *)

Definition IGNORESPACE_BIAS : Z := 1000.

Record artab := mk_artab { ar_base : Z; ar_ascii : list Z; ar_data : option (list Z) }.

Definition atodatatab : list artab :=
  [mk_artab 0 [] None;
   mk_artab 0 (str "0") None;
   mk_artab 0 (str "0x") None;
   mk_artab 0 (str "0xa") None;
   mk_artab 0 (str "0xab") (Some [171]);
   mk_artab 0 (str "0xabc") None;
   mk_artab 0 (str "0xabcd") (Some [171; 205]);
   mk_artab 0 (str "0x0123456789") (Some [1; 35; 69; 103; 137]);
   mk_artab 0 (str "0x01x") None;
   mk_artab 0 (str "0xabcdef") (Some [171; 205; 239]);
   mk_artab 0 (str "0xABCDEF") (Some [171; 205; 239]);
   mk_artab 0 (str "0XaBc0eEd81f") (Some [171; 192; 238; 216; 31]);
   mk_artab 0 (str "0XaBc0_eEd8") (Some [171; 192; 238; 216]);
   mk_artab 0 (str "0XaBc0_") None;
   mk_artab 0 (str "0X_aBc0") None;
   mk_artab 0 (str "0Xa_Bc0") None;
   mk_artab 16 (str "aBc0eEd8") (Some [171; 192; 238; 216]);
   mk_artab 0 (str "0s") None;
   mk_artab 0 (str "0sA") None;
   mk_artab 0 (str "0sBA") None;
   mk_artab 0 (str "0sCBA") None;
   mk_artab 0 (str "0sDCBA") (Some [12; 32; 64]);
   mk_artab 0 (str "0SDCBA") (Some [12; 32; 64]);
   mk_artab 0 (str "0sDA==") (Some [12]);
   mk_artab 0 (str "0sDC==") None;
   mk_artab 0 (str "0sDCA=") (Some [12; 32]);
   mk_artab 0 (str "0sDCB=") None;
   mk_artab 0 (str "0sDCAZ") (Some [12; 32; 25]);
   mk_artab 0 (str "0sDCAa") (Some [12; 32; 26]);
   mk_artab 0 (str "0sDCAz") (Some [12; 32; 51]);
   mk_artab 0 (str "0sDCA0") (Some [12; 32; 52]);
   mk_artab 0 (str "0sDCA9") (Some [12; 32; 61]);
   mk_artab 0 (str "0sDCA+") (Some [12; 32; 62]);
   mk_artab 0 (str "0sDCA/") (Some [12; 32; 63]);
   mk_artab 0 (str "0sAbraCadabra+") (Some [1; 186; 218; 9; 167; 90; 110; 182; 190]);
   mk_artab (IGNORESPACE_BIAS + 0) (str "0s AbraCadabra+") (Some [1; 186; 218; 9; 167; 90; 110; 182; 190]);
   mk_artab (IGNORESPACE_BIAS + 0) (str "0sA braCadabra+") (Some [1; 186; 218; 9; 167; 90; 110; 182; 190]);
   mk_artab (IGNORESPACE_BIAS + 0) (str "0sAb raCadabra+") (Some [1; 186; 218; 9; 167; 90; 110; 182; 190]);
   mk_artab (IGNORESPACE_BIAS + 0) (str "0sAbr aCadabra+") (Some [1; 186; 218; 9; 167; 90; 110; 182; 190]);
   mk_artab (IGNORESPACE_BIAS + 0) (str "0sAbra Cadabra+") (Some [1; 186; 218; 9; 167; 90; 110; 182; 190]);
   mk_artab (IGNORESPACE_BIAS + 0) (str "0sAbraC adabra+") (Some [1; 186; 218; 9; 167; 90; 110; 182; 190]);
   mk_artab (IGNORESPACE_BIAS + 0) (str "0sAbraCa dabra+") (Some [1; 186; 218; 9; 167; 90; 110; 182; 190]);
   mk_artab (IGNORESPACE_BIAS + 0) (str "0sAbraCad abra+") (Some [1; 186; 218; 9; 167; 90; 110; 182; 190]);
   mk_artab (IGNORESPACE_BIAS + 0) (str "0sAbraCada bra+") (Some [1; 186; 218; 9; 167; 90; 110; 182; 190]);
   mk_artab (IGNORESPACE_BIAS + 0) (str "0sAbraCadab ra+") (Some [1; 186; 218; 9; 167; 90; 110; 182; 190]);
   mk_artab (IGNORESPACE_BIAS + 0) (str "0sAbraCadabr a+") (Some [1; 186; 218; 9; 167; 90; 110; 182; 190]);
   mk_artab (IGNORESPACE_BIAS + 0) (str "0sAbraCadabra +") (Some [1; 186; 218; 9; 167; 90; 110; 182; 190]);
   mk_artab (IGNORESPACE_BIAS + 0) (str "0sAbraCadabra+ ") (Some [1; 186; 218; 9; 167; 90; 110; 182; 190]);
   mk_artab 0 (str "0t") None;
   mk_artab 0 (str "0tabc_xyz") (Some (str "abc_xyz"));
   mk_artab 256 (str "abc_xyz") (Some (str "abc_xyz"))].

Record drtab := mk_drtab {
  dr_data : list Z; dr_format : Z; dr_buflen : Z; dr_outlen : Z; dr_ascii : option (list Z)
}.

Definition datatoatab : list drtab :=
  [mk_drtab [] (chr "x") (-1) (-1) None;
   mk_drtab [] (chr "X") (-1) (-1) None;
   mk_drtab [] (chr "n") (-1) (-1) None;
   mk_drtab [48] (chr "x") (-1) (-1) (Some (str "0x30"));
   mk_drtab [48] (chr "x") 0 5 (Some (str "---"));
   mk_drtab [48] (chr "x") 1 5 (Some []);
   mk_drtab [48] (chr "x") 2 5 (Some (str "0"));
   mk_drtab [48] (chr "x") 3 5 (Some (str "0x"));
   mk_drtab [48] (chr "x") 4 5 (Some (str "0x3"));
   mk_drtab [48] (chr "x") 5 5 (Some (str "0x30"));
   mk_drtab [48] (chr "x") 6 5 (Some (str "0x30"));
   mk_drtab [171; 205] (chr "x") (-1) (-1) (Some (str "0xabcd"));
   mk_drtab [1; 35; 69; 103; 137] (chr "x") (-1) (-1) (Some (str "0x0123456789"));
   mk_drtab [171; 205; 239] (chr "x") (-1) (-1) (Some (str "0xabcdef"));
   mk_drtab [171; 192; 238; 216; 31] (chr "x") (-1) (-1) (Some (str "0xabc0eed81f"));
   mk_drtab [1; 2] (chr "h") (-1) (-1) (Some (str "0x0102"));
   mk_drtab [1; 2; 3; 4; 5; 6] (chr "h") (-1) (-1) (Some (str "0x01020304_0506"));
   mk_drtab [171; 192; 238; 216; 31] 16 (-1) (-1) (Some (str "abc0eed81f"));
   mk_drtab [12; 32; 64] (chr "s") (-1) (-1) (Some (str "0sDCBA"));
   mk_drtab [12; 32; 64] (chr "s") 0 7 (Some (str "---"));
   mk_drtab [12; 32; 64] (chr "s") 1 7 (Some []);
   mk_drtab [12; 32; 64] (chr "s") 2 7 (Some (str "0"));
   mk_drtab [12; 32; 64] (chr "s") 3 7 (Some (str "0s"));
   mk_drtab [12; 32; 64] (chr "s") 4 7 (Some (str "0sD"));
   mk_drtab [12; 32; 64] (chr "s") 5 7 (Some (str "0sDC"));
   mk_drtab [12; 32; 64] (chr "s") 6 7 (Some (str "0sDCB"));
   mk_drtab [12; 32; 64] (chr "s") 7 7 (Some (str "0sDCBA"));
   mk_drtab [12; 32; 64] (chr "s") 8 7 (Some (str "0sDCBA"));
   mk_drtab [12] (chr "s") (-1) (-1) (Some (str "0sDA=="));
   mk_drtab [12; 32] (chr "s") (-1) (-1) (Some (str "0sDCA="));
   mk_drtab [12; 32; 25] (chr "s") (-1) (-1) (Some (str "0sDCAZ"));
   mk_drtab [12; 32; 26] (chr "s") (-1) (-1) (Some (str "0sDCAa"));
   mk_drtab [12; 32; 51] (chr "s") (-1) (-1) (Some (str "0sDCAz"));
   mk_drtab [12; 32; 52] (chr "s") (-1) (-1) (Some (str "0sDCA0"));
   mk_drtab [12; 32; 61] (chr "s") (-1) (-1) (Some (str "0sDCA9"));
   mk_drtab [12; 32; 62] (chr "s") (-1) (-1) (Some (str "0sDCA+"));
   mk_drtab [12; 32; 63] (chr "s") (-1) (-1) (Some (str "0sDCA/"));
   mk_drtab [1; 186; 218; 9; 167; 90; 110; 182; 190] (chr "s") (-1) (-1) (Some (str "0sAbraCadabra+"));
   mk_drtab [1; 186; 218; 9; 167; 90; 110; 182; 190] 64 (-1) (-1) (Some (str "AbraCadabra+"))].

(** [check]: an error exactly where one is expected, and otherwise the data. *)
Definition check (r : artab) (res : outcome (list Z) (list Z * Z)) : bool :=
  match res, ar_data r with
  | Ugh _, None => true
  | Ok (buf, n), Some data =>
      (n =? Z.of_nat (length data)) && bool_decide (take (Z.to_nat n) buf = data)
  | _, _ => false
  end.

(** The calls that [regress] makes for one row; strings are passed with length 0
    and their NUL, into a buffer of 100 bytes. *)
Definition regress_row (r : artab) : bool :=
  let cstr t := t ++ [0] in
  let a := ar_ascii r in
  let xbase :=
    match a with
    | c0 :: c1 :: _ =>
        if ((ar_base r =? 0) || (ar_base r =? IGNORESPACE_BIAS + 0)) && (c0 =? chr "0") then
          if (c1 =? chr "x") || (c1 =? chr "X") then 16
          else if (c1 =? chr "s") || (c1 =? chr "S") then 64
          else if (c1 =? chr "t") || (c1 =? chr "T") then 256 else 0
        else 0
    | _ => 0
    end in
  if IGNORESPACE_BIAS <=? ar_base r then
    let base := ar_base r - IGNORESPACE_BIAS in
    check r (ttodatav (cstr a) 0 base 100 false 0 TTODATAV_IGNORESPACE)
    && ((xbase =? 0)
        || check r (ttodatav (cstr (drop 2 a)) 0 xbase 100 false 0 TTODATAV_IGNORESPACE))
  else
    let base := ar_base r in
    let b64 := (base =? 64) || (xbase =? 64) in
    check r (ttodata (cstr a) 0 base 100)
    && (negb b64 || check r (ttodatav (cstr a) 0 base 100 false 0 TTODATAV_IGNORESPACE))
    && ((xbase =? 0)
        || (check r (ttodata (cstr (drop 2 a)) 0 xbase 100)
            && (negb b64
                || check r (ttodatav (cstr (drop 2 a)) 0 xbase 100 false 0 TTODATAV_IGNORESPACE)))).

(** The call for a row of [datatoatab]; [buf] holds "---" beforehand. *)
Definition regress_drow (r : drtab) : bool :=
  let buflen := if dr_buflen r =? -1 then 100 else dr_buflen r in
  let '(n, written) := datatot (dr_data r) (dr_format r) buflen in
  let buf := if buflen =? 0 then str "---" else default [] (cstring written) in
  match dr_ascii r with
  | None => n =? 0
  | Some a =>
      let should := if dr_outlen r =? -1 then Z.of_nat (length a) + 1 else dr_outlen r in
      negb (n =? 0) && (n =? should) && bool_decide (buf = a)
  end.

Definition regress : bool :=
  forallb regress_row atodatatab && forallb regress_drow datatoatab.

(** * Properties *)

Lemma datatot_eq src format dstlen e :
  datatot_format format = Some e -> src <> [] -> 0 <= dstlen ->
  datatot src format dstlen =
  (Z.of_nat (length (data_text e src)) + 1,
   if dstlen =? 0 then [] else take (Z.to_nat (dstlen - 1)) (data_text e src) ++ [0]).
Proof.
  intros He Hs Hd. unfold datatot. rewrite He.
  rewrite (proj2 (Z.eqb_neq _ _)) by (destruct src; [done|simpl; lia]).
  set (len := if dstlen =? 0 then 1 else dstlen).
  assert ((if len <=? Z.of_nat (length (prefix e)) then take (Z.to_nat (len - 1)) (prefix e)
           else prefix e) = take (Z.to_nat (len - 1)) (prefix e)) as ->.
  { destruct (Z.leb_spec len (Z.of_nat (length (prefix e)))); [done|]. by rewrite take_ge by lia. }
  destruct (datatot_loop_text e (Z.to_nat (len - 1)) (length src) src (prefix e) 0
    (datatot_format_ok _ _ He)) as [s' Hs'].
  cbv zeta. rewrite Hs'. unfold data_text. cbn [ds_needed ds_dst]. f_equal.
  subst len. by destruct (Z.eqb_spec dstlen 0).
Qed.

(** In every format, [datatot] stores the longest prefix of the full text
    that leaves room for the NUL, terminates it, never writes outside [dst], and
    returns the length that the full text needs, whatever the size of [dst]. *)
Theorem datatot_correct src format dstlen e :
  datatot_format format = Some e -> src <> [] -> 0 <= dstlen ->
  fst (datatot src format dstlen) = Z.of_nat (length (data_text e src)) + 1 /\
  Z.of_nat (length (snd (datatot src format dstlen))) <= dstlen /\
  (0 < dstlen -> snd (datatot src format dstlen) =
                 take (Z.to_nat (dstlen - 1)) (data_text e src) ++ [0]).
Proof.
  intros He Hs Hd. rewrite (datatot_eq _ _ _ _ He Hs Hd). cbn [fst snd]. split; [done|].
  destruct (Z.eqb_spec dstlen 0); [simpl; lia|]. split; [|done].
  rewrite length_app, length_take. simpl. lia.
Qed.

Lemma datatot_correct_witness :
  snd (datatot [1; 2; 3; 4; 5; 6] (chr "h") 14) = str "0x01020304_05" ++ [0].
Proof.
  destruct (datatot_correct [1; 2; 3; 4; 5; 6] (chr "h") 14 (mk_encoder (chr "x") 1 2 (str "0x") 8 (chr "_")))
    as (_&_&H); [reflexivity|done|lia|].
  rewrite H by lia. vm_compute. reflexivity.
Defined.

(** The base in which [ttodata] reads a format of [datatot]; it cannot read ':'. *)
Definition data_base (format : Z) : option Z :=
  if (format =? 0) || (format =? chr "h") || (format =? chr "x") || (format =? chr "s")
  then Some 0
  else if format =? 16 then Some 16
  else if format =? 64 then Some 64 else None.

(** The decoder that the prefix or the base selects. *)
Lemma data_base_codec format base flags :
  data_base format = Some base ->
  exists e d base', datatot_format format = Some e /\ BlockCodec d e /\
    ttodata_base base' flags = Some d /\ Forall plain (prefix e) /\
    forall t, (if base =? 0 then ttodata_prefix (prefix e ++ t) else Ok (base, prefix e ++ t)) =
      Ok (base', t).
Proof.
  unfold data_base, datatot_format.
  destruct (Z.eqb_spec format 0) as [->|]; [|destruct (Z.eqb_spec format (chr "h")) as [->|];
    [|destruct (Z.eqb_spec format (chr "x")) as [->|];
    [|destruct (Z.eqb_spec format (chr "s")) as [->|];
    [|destruct (Z.eqb_spec format 16) as [->|];
    [|destruct (Z.eqb_spec format 64) as [->|]; [|done]]]]]];
    intros [= <-]; eexists _, _, _; (split; [reflexivity|]);
    (split; [first [apply hex_codec; by repeat split|apply b64_codec; by repeat split]|]);
    (split; [first [exact (eq_refl : ttodata_base 16 flags = _)
                   |exact (eq_refl : ttodata_base 64 flags = _)]|]);
    (split; [by repeat constructor|reflexivity]).
Qed.

Lemma ttodatav_data_text d e base base' flags src dstlen errp errlen :
  BlockCodec d e -> ttodata_base base' flags = Some d ->
  (forall t, (if base =? 0 then ttodata_prefix (prefix e ++ t) else Ok (base, prefix e ++ t)) =
      Ok (base', t)) ->
  Forall byteZ src -> src <> [] ->
  ttodatav_text (data_text e src) base dstlen errp errlen flags =
  Ok (take (Z.to_nat dstlen) src, Z.of_nat (length src)).
Proof.
  intros Hc Hd Hp Hb Hs. unfold ttodatav_text, data_text. rewrite Hp. simpl. rewrite Hd.
  pose proof (ttodata_loop_text d e dstlen errp errlen (length src)
    (length (encode_text e (length src) src 0)) src 0 [] 0 Hb ltac:(lia) ltac:(lia)) as H.
  rewrite take_nil in H. rewrite H. simpl.
  by rewrite (proj2 (Z.eqb_neq _ _)) by (destruct src; [done|simpl; lia]).
Qed.

(** C33: what [datatot] stores, [ttodatav] reads back, byte for byte, in hex with
    or without separators and in base64 with all three paddings; a destination
    that is too small receives a prefix, and the reported length is the true one. *)
Theorem datatot_ttodata_roundtrip src format dstlen base dl errp errlen flags :
  data_base format = Some base -> Forall byteZ src -> src <> [] ->
  fst (datatot src format dstlen) <= dstlen ->
  ttodatav (snd (datatot src format dstlen)) 0 base dl errp errlen flags =
  Ok (take (Z.to_nat dl) src, Z.of_nat (length src)).
Proof.
  intros Hf Hb Hs Hl.
  destruct (data_base_codec format base flags Hf) as (e&d&base'&He&Hc&Hd&Hpl&Hp).
  assert (0 <= dstlen) as Hd0.
  { unfold datatot in Hl. rewrite He in Hl. destruct (Z.leb_spec 0 dstlen); [done|].
    rewrite (proj2 (Z.eqb_neq _ _)) in Hl by (destruct src; [done|simpl; lia]).
    destruct (datatot_loop_text e (Z.to_nat (dstlen - 1)) (length src) src (prefix e) 0
      (datatot_format_ok _ _ He)) as [s' Hs'].
    rewrite (proj2 (Z.eqb_neq dstlen 0)), (proj2 (Z.leb_le _ _)) in Hl by lia.
    cbv zeta in Hl. rewrite Hs' in Hl. simpl in Hl. lia. }
  rewrite (datatot_eq _ _ _ _ He Hs Hd0) in *. cbn [fst snd] in *.
  rewrite (proj2 (Z.eqb_neq _ _)) by lia. rewrite take_ge by lia.
  unfold ttodatav, source. simpl (0 =? 0). cbv iota.
  rewrite cstring_nul; [by eapply ttodatav_data_text|].
  apply (Forall_impl plain); [|by intros ? [? _]].
  apply Forall_app_2; [done|]. by apply (encode_text_plain d e).
Qed.

Lemma datatot_ttodata_roundtrip_witness :
  ttodatav (snd (datatot [12; 32] (chr "s") 20)) 0 0 100 false 0 0 = Ok ([12; 32], 2).
Proof.
  apply (datatot_ttodata_roundtrip [12; 32] (chr "s") 20 0 100 false 0 0);
    [reflexivity|by_decide|done|by_decide].
Defined.



(** The definitions pass the regression tables that ttodata.c carries. *)
Theorem ttodata_regression : regress = true.
Proof. vm_compute. reflexivity. Qed.

(** Two slips in the converters.  [strchr] finds the NUL of the digit
    tables, so NUL characters are accepted as hex digits; and [badch] masks a
    signed character with 0700, so the escape it prints for a byte above 127 is
    not the octal value of the byte (0xff is shown as \777, not \377). *)
Theorem ttodata_nul_and_escape :
  ttodata [0; 0] 2 16 10 = Ok ([0x10], 1) /\
  badch_buf 0xff = [92; 55; 55; 55].
Proof. split; vm_compute; reflexivity. Qed.
