(* ===== verification/Address.v ===== *)
(** Addresses: linux/net/ipsec/{initaddr,addrtypeof,anyaddr,addrtot}.c and
    lib/libswan/ttoaddr.c.

    An [ip_address] is the union of the two socket address structures: a family,
    a port and the address bytes in network order.  Name resolution is outside
    the sources: [tryname] takes the resolver as arguments. *)
From S2P Require Import Prelude Numbers.

Definition AF_UNSPEC : Z := 0.
Definition AF_INET : Z := 2.
Definition AF_INET6 : Z := 10.

Record ip_address := mk_ip {
  sin_family : Z;
  sin_port : Z;
  sin_addr : list Z
}.

#[export] Instance ip_address_eq_dec : EqDecision ip_address.
Proof. solve_decision. Defined.

(** * initaddr.c, addrtypeof.c *)

Definition add_port (af : Z) (addr : ip_address) (port : Z) : outcome string ip_address :=
  if (af =? AF_INET) || (af =? AF_INET6)
  then Ok (mk_ip (sin_family addr) port (sin_addr addr))
  else Ugh "unknown address family in add_port".

Definition initaddr (src : list Z) (af : Z) : outcome string ip_address :=
  let srclen := Z.of_nat (length src) in
  if af =? AF_INET then
    if negb (srclen =? 4) then Ugh "IPv4 address must be exactly 4 bytes"
    else Ok (mk_ip af 0 src)
  else if af =? AF_INET6 then
    if negb (srclen =? 16) then Ugh "IPv6 address must be exactly 16 bytes"
    else Ok (mk_ip af 0 src)
  else Ugh "unknown address family in initaddr".

Definition addrtypeof (src : ip_address) : Z := sin_family src.

(** The size and the bytes; the size is 0 for an unknown family. *)
Definition addrbytesptr_read (src : ip_address) : Z * list Z :=
  if sin_family src =? AF_INET then (4, sin_addr src)
  else if sin_family src =? AF_INET6 then (16, sin_addr src)
  else (0, []).

Definition addrlenof (src : ip_address) : Z := fst (addrbytesptr_read src).

(** The result, and the bytes copied to [dst]. *)
Definition addrbytesof (src : ip_address) (dstlen : Z) : Z * list Z :=
  let '(n, p) := addrbytesptr_read src in
  if n =? 0 then (0, [])
  else
    (n, if 0 <? dstlen then
          let ncopy := if dstlen <? n then dstlen else n in take (Z.to_nat ncopy) p
        else []).

(** An address whose bytes are as many as its family says. *)
Definition wf_addr (a : ip_address) : Prop :=
  Forall byteZ (sin_addr a) /\
  (sin_family a = AF_INET /\ length (sin_addr a) = 4%nat \/
   sin_family a = AF_INET6 /\ length (sin_addr a) = 16%nat).

(** * anyaddr.c *)

Definition v4any : list Z := [0; 0; 0; 0].
Definition v6any : list Z := replicate 16 0.
Definition v4loop : list Z := [127; 0; 0; 1].
Definition v6loop : list Z := replicate 15 0 ++ [1].

Definition anyaddr (af : Z) : outcome string ip_address :=
  if af =? AF_INET then initaddr v4any af
  else if af =? AF_INET6 then initaddr v6any af
  else Ugh "unknown address family in anyaddr/unspecaddr".

Definition unspecaddr (af : Z) : outcome string ip_address := anyaddr af.

Definition loopbackaddr (af : Z) : outcome string ip_address :=
  if af =? AF_INET then initaddr v4loop af
  else if af =? AF_INET6 then initaddr v6loop af
  else Ugh "unknown address family in loopbackaddr".

Definition isanyaddr (src : ip_address) : bool :=
  if sin_family src =? AF_INET then bool_decide (sin_addr src = v4any)
  else if sin_family src =? AF_INET6 then bool_decide (sin_addr src = v6any)
  else sin_family src =? 0.

Definition isunspecaddr (src : ip_address) : bool := isanyaddr src.

Definition isloopbackaddr (src : ip_address) : bool :=
  if sin_family src =? AF_INET then bool_decide (sin_addr src = v4loop)
  else if sin_family src =? AF_INET6 then bool_decide (sin_addr src = v6loop)
  else false.

(** * addrtot.c *)

Definition IP4BYTES : nat := 4.
Definition PERBYTE : Z := 4.
Definition IP6BYTES : nat := 16.
Definition ADDRTOT_BUF : Z := 32 * 2 + 3 + 1 + 3 + 1 + 1.

(** The text that [p += ultot(n, base, p, size)] leaves before its NUL. *)
Definition ul_text (n base size : Z) : list Z := removelast (snd (ultot n base size)).

(** Text in [buf] without its NUL; the size that the routines return counts it. *)
Definition normal4 (srcp : list Z) : list Z :=
  let byte i := ul_text (nth i srcp 0) 10 PERBYTE in
  byte 0%nat ++ [46] ++ byte 1%nat ++ [46] ++ byte 2%nat ++ [46] ++ byte 3%nat.

(** [strstr(s, find)] as an index. *)
Fixpoint strstr (s find : list Z) : option nat :=
  if bool_decide (take (length find) s = find) then Some 0%nat
  else match s with [] => None | _ :: s' => S <$> strstr s' find end.

(** [while ( *p == '0' && *(p + 1) == ':') p += 2;] *)
Fixpoint skip_zeros (s : list Z) : list Z :=
  match s with
  | c :: ((d :: s') as t) => if (c =? 48) && (d =? 58) then skip_zeros s' else s
  | _ => s
  end.

Definition piece6 (srcp : list Z) (i : nat) : Z :=
  Z.shiftl (nth (2 * i) srcp 0) 8 + nth (2 * i + 1) srcp 0.

(** The eight pieces, each with the colon that overwrites its NUL. *)
Definition pieces6 (srcp : list Z) : list Z :=
  58 :: concat ((fun i => ul_text (piece6 srcp i) 16 5 ++ [58]) <$> seq 0 8).

Definition ends_colons (s : list Z) : bool :=
  match rev s with c :: d :: _ => (c =? 58) && (d =? 58) | _ => false end.
Definition starts_colons (s : list Z) : bool :=
  match s with c :: d :: _ => (c =? 58) && (d =? 58) | _ => false end.

Definition normal6 (srcp : list Z) (squish : bool) : list Z :=
  let buf := pieces6 srcp in
  match strstr buf (str ":0:0:"), squish with
  | Some q, true =>
      let rest := skip_zeros (drop (S q) buf) in
      let b := take (S q) buf ++ [58] ++ rest in
      let b := if ends_colons b then b else removelast b in
      if starts_colons b then b else tl b
  | _, _ => tl (removelast buf)
  end.

Definition reverse4 (srcp : list Z) : list Z :=
  let byte i := ul_text (nth i srcp 0) 10 PERBYTE ++ [46] in
  byte 3%nat ++ byte 2%nat ++ byte 1%nat ++ byte 0%nat ++ str "IN-ADDR.ARPA.".

Definition reverse6 (srcp : list Z) : list Z :=
  concat ((fun i =>
    let piece := nth i srcp 0 in
    ul_text (Z.land piece 0xf) 16 2 ++ [46] ++ ul_text (Z.shiftr piece 4) 16 2 ++ [46])
    <$> rev (seq 0 IP6BYTES))
  ++ str "IP6.ARPA.".

(** [dst[0] = '\0'; strncat(dst, "<invalid>", dstlen - 1)]: the count is a
    [size_t], so it does not limit anything when [dstlen] is 0. *)
Definition invalid_addr (dstlen : Z) : Z * list Z :=
  (10, take (Z.to_nat (u64 (dstlen - 1))) (str "<invalid>") ++ [0]).

(** [strcpy(dst, p)], after cutting the text if [dst] is too short. *)
Definition store_text (t : list Z) (dstlen : Z) : Z * list Z :=
  let n := Z.of_nat (length t) + 1 in
  (n, if 0 <? dstlen then (if dstlen <? n then take (Z.to_nat (dstlen - 1)) t else t) ++ [0]
      else []).

Definition inet_text (t : Z) (b : list Z) (format : Z) : option (list Z) :=
  if t =? AF_INET then
    if (format =? 0) || (format =? chr "Q") then Some (normal4 b)
    else if format =? chr "r" then Some (reverse4 b) else None
  else if t =? AF_INET6 then
    if format =? 0 then Some (normal6 b true)
    else if format =? chr "Q" then Some (normal6 b false)
    else if format =? chr "r" then Some (reverse6 b) else None
  else None.

(** The result, and the bytes that are stored at [dst]. *)
Definition inet_addrtot (t : Z) (src : list Z) (format dstlen : Z) : Z * list Z :=
  match inet_text t src format with
  | None => invalid_addr dstlen
  | Some s => store_text s dstlen
  end.

Definition addrtot (src : ip_address) (format dstlen : Z) : Z * list Z :=
  let '(n, b) := addrbytesptr_read src in
  if n =? 0 then invalid_addr dstlen
  else
    match inet_text (addrtypeof src) b format with
    | None => invalid_addr dstlen
    | Some s => store_text s dstlen
    end.

Definition ipstr (src : ip_address) : list Z := snd (addrtot src 0 ADDRTOT_BUF).

(** * ttoaddr.c *)

(** Scanning errors are strings; a leading '?' marks text that did not look like
    the form that was tried. *)
Definition quoted (s : string) : bool :=
  match s with String c _ => bool_decide (c = "?"%char) | EmptyString => false end.
Definition unquoted (s : string) : string :=
  match s with String _ s' => s' | EmptyString => EmptyString end.

Definition isdigit (c : Z) : bool := (48 <=? c) && (c <=? 57).
Definition isxdigit (c : Z) : bool :=
  isdigit c || ((97 <=? c) && (c <=? 102)) || ((65 <=? c) && (c <=? 70)).

(** The digits loop of [getbyte]; it stops once the number exceeds 255. *)
Fixpoint getbyte_loop (t : list Z) (no : Z) : Z * list Z :=
  match t with
  | c :: t' =>
      if (no <=? 255) && isdigit c then getbyte_loop t' (no * 10 + (c - 48)) else (no, t)
  | [] => (no, t)
  end.

Definition getbyte (t : list Z) : outcome string (Z * list Z) :=
  match t with
  | [] => Ugh "?empty number in dotted-decimal address"
  | c :: _ =>
      if negb (isdigit c) then Ugh "?non-numeric component in dotted-decimal address"
      else
        let '(no, t') := getbyte_loop t 0 in
        if 255 <? no then Ugh "byte overflow in dotted-decimal address" else Ok (no, t')
  end.

(** The loop of [trydotted] from byte [i] on, with the bytes found so far. *)
Fixpoint trydotted_loop (fuel i : nat) (t buf : list Z) : outcome string (list Z * list Z) :=
  match fuel, t with
  | O, _ | _, [] => Ok (buf, t)
  | S fuel', _ =>
      match getbyte t with
      | Abort => Abort
      | Ugh oops =>
          if negb (quoted oops) then Ugh oops
          else if (1 <? i)%nat then Ugh (unquoted oops)
          else Ugh oops
      | Ok (byte, t') =>
          let buf' := buf ++ [byte] in
          match t' with
          | c :: t'' =>
              if (i <? 3)%nat then
                if negb (c =? chr ".") then
                  Ugh (if (i =? 0)%nat then "?syntax error in dotted-decimal address"
                       else "syntax error in dotted-decimal address")
                else trydotted_loop fuel' (S i) t'' buf'
              else trydotted_loop fuel' (S i) t' buf'
          | [] => trydotted_loop fuel' (S i) t' buf'
          end
      end
  end.

(** Missing bytes are zero: [buf] is cleared first. *)
Definition trydotted (t : list Z) : outcome string ip_address :=
  '(buf, rest) ← trydotted_loop 4 0 t [];
  match rest with
  | _ :: _ => Ugh "extra garbage on end of dotted-decimal address"
  | [] => initaddr (take 4 (buf ++ replicate 4 0)) AF_INET
  end.

Definition NPIECES : nat := 8.
Definition NDIG : nat := 4.

(** The hex digits at the front, at most [n]. *)
Fixpoint span_xdigits (n : nat) (t : list Z) : list Z * list Z :=
  match n, t with
  | S n', c :: t' =>
      if isxdigit c then let '(ds, rest) := span_xdigits n' t' in (c :: ds, rest) else ([], t)
  | _, _ => ([], t)
  end.

(** [None] is the ":" result: an empty field. *)
Definition getpiece (t : list Z) : outcome string (option Z * list Z) :=
  match t with
  | [] => Ok (None, t)
  | c :: _ =>
      if c =? chr ":" then Ok (None, t)
      else
        let '(ds, rest) := span_xdigits NDIG t in
        if (length ds =? 0)%nat then Ugh "non-hex field in IPv6 numeric address"
        else if (length ds =? NDIG)%nat
                && match rest with d :: _ => isxdigit d | [] => false end
        then Ugh "field in IPv6 numeric address longer than 4 hex digits"
        else ret ← ttoul ds (Z.of_nat (length ds)) 16; Ok (Some ret, rest)
  end.

(** The loop of [colon]: the pieces found so far, where an empty one was. *)
Fixpoint colon_loop (fuel : nat) (t : list Z) (gapat : option nat) (buf : list Z)
  : outcome string (list Z * option nat * list Z) :=
  match fuel, t with
  | O, _ | _, [] => Ok (t, gapat, buf)
  | S fuel', _ =>
      let i := length buf in
      '(piece, t') ← getpiece t;
      '(gapat', n) ←
        (match piece, gapat with
         | None, Some _ => Ugh "more than one :: in IPv6 numeric address"
         | None, None => Ok (Some i, 0)
         | Some n, _ => Ok (gapat, n)
         end);
      let buf' := buf ++ [n] in
      if (i <? NPIECES - 1)%nat then
        match t', gapat' with
        | [], None => Ugh "IPv6 numeric address ends prematurely"
        | c :: t'', _ =>
            if negb (c =? chr ":") then Ugh "syntax error in IPv6 numeric address"
            else colon_loop fuel' t'' gapat' buf'
        | [], Some _ => colon_loop fuel' t' gapat' buf'
        end
      else colon_loop fuel' t' gapat' buf'
  end.

(** Moving the [naftergap] pieces that follow the gap to the end of [buf]:
    [buf[j] = buf[i]], with [i] and [j] counting down. *)
Fixpoint colon_shift (naftergap : nat) (i j : nat) (buf : list Z) : list Z * nat :=
  match naftergap with
  | O => (buf, j)
  | S n => colon_shift n (i - 1) (j - 1) (<[j := nth i buf 0]> buf)
  end.

(** [for (; j >= gapat; j--) buf[j] = 0], with [n] passes to make. *)
Fixpoint colon_zero (n j : nat) (buf : list Z) : list Z :=
  match n with
  | O => buf
  | S n' => colon_zero n' (j - 1) (<[j := 0]> buf)
  end.

Definition colon_fill (i gapat : nat) (pieces : list Z) : list Z :=
  let buf := take NPIECES (pieces ++ replicate NPIECES 0) in
  let '(buf, j) := colon_shift (i - (gapat + 1)) (i - 1) (NPIECES - 1) buf in
  colon_zero (j + 1 - gapat) j buf.

(** [buf[2 * i] = piece >> 8; buf[2 * i + 1] = piece & 0xff] *)
Definition piece_bytes (buf : list Z) : list Z :=
  concat ((fun n => [u8 (Z.shiftr n 8); Z.land n 0xff]) <$> buf).

Definition colon_body (t : list Z) : outcome string ip_address :=
  '(rest, gapat, buf) ← colon_loop NPIECES t None [];
  let i := length buf in
  match rest with
  | _ :: _ => Ugh "extra garbage on end of IPv6 numeric address"
  | [] =>
      match gapat with
      | None =>
          if (i <? NPIECES)%nat then Ugh "incomplete IPv6 numeric address (internal error)"
          else initaddr (piece_bytes buf) AF_INET6
      | Some g =>
          if (i =? NPIECES)%nat
          then Ugh "non-abbreviating empty field in IPv6 numeric address"
          else initaddr (piece_bytes (colon_fill i g buf)) AF_INET6
      end
  end.

(** A leading or trailing colon must be part of "::". *)
Definition colon (t : list Z) : outcome string ip_address :=
  let lead := match t with c :: _ => c =? chr ":" | [] => false end in
  if lead && ((length t =? 1)%nat || negb (nth 1 t 0 =? chr ":")) then
    Ugh "illegal leading `:' in IPv6 numeric address"
  else if lead && (length t =? 2)%nat then unspecaddr AF_INET6
  else
    let t := if lead then tl t else t in
    if (nth (length t - 1) t 0 =? chr ":")
       && ((length t =? 1)%nat || negb (nth (length t - 2) t 0 =? chr ":"))
    then Ugh "illegal trailing `:' in IPv6 numeric address"
    else colon_body t.

(** Eight hex digits; the machine is little endian, so host order ('h') stores
    the low byte first and [htonl] the high byte. *)
Definition tryhex (t : list Z) (flavor : Z) : outcome string ip_address :=
  if negb (Z.of_nat (length t) =? 8) then Ugh "internal error, tryhex called with bad length"
  else
    ul ← ttoul t (Z.of_nat (length t)) 16;
    let net := be_encode 4 ul in
    initaddr (if flavor =? chr "h" then rev net else net) AF_INET.

Definition HEXLEN : Z := 10.

(** The error, if any, and [*allnumericfailed]. *)
Definition ttoaddr_base (t : list Z) (af : Z) : outcome string ip_address * bool :=
  if negb ((af =? AF_INET) || (af =? AF_INET6) || (af =? AF_UNSPEC))
  then (Ugh "invalid address family", false)
  else
    let c1 := nth 1 t 0 in
    let hexform := (af =? AF_INET) && (Z.of_nat (length t) =? HEXLEN) && (nth 0 t 0 =? chr "0") in
    if hexform && ((c1 =? chr "x") || (c1 =? chr "X")) then (tryhex (drop 2 t) (chr "x"), false)
    else if hexform && ((c1 =? chr "h") || (c1 =? chr "H"))
    then (tryhex (drop 2 t) (chr "h"), false)
    else if bool_decide (chr ":" ∈ t) then
      if af =? AF_INET then (Ugh "IPv4 address may not contain `:'", false)
      else (colon t, false)
    else if (af =? AF_UNSPEC) || (af =? AF_INET) then
      match trydotted t with
      | Ugh oops => if negb (quoted oops) then (Ugh oops, false) else (Ugh "not numeric", true)
      | r => (r, false)
      end
    else (Ugh "not numeric", true).

(** The text of [srclen] characters at [src], which must not be empty. *)
Definition addr_source (src : list Z) (srclen : Z) : outcome string (list Z) :=
  t ← defined (source src srclen);
  match t with [] => Ugh "empty string" | _ => Ok t end.

Definition ttoaddr_num (src : list Z) (srclen af : Z) : outcome string ip_address :=
  t ← addr_source src srclen;
  fst (ttoaddr_base t af).

Definition tnatoaddr (src : list Z) (srclen af : Z) : outcome string ip_address :=
  t ← addr_source src srclen;
  if af =? AF_UNSPEC then
    match colon t with
    | Ugh _ =>
        match trydotted t with
        | Ugh _ => Ugh "does not appear to be either IPv4 or IPv6 numeric address"
        | r => r
        end
    | r => r
    end
  else if af =? AF_INET6 then colon t
  else if af =? AF_INET then
    match trydotted t with
    | Ugh oops => Ugh (if negb (quoted oops) then oops else "does not appear to be numeric address")
    | r => r
    end
  else Ugh "unknown address family in tnatoaddr".

(** ** Names *)

Definition namechars : list Z :=
  str "abcdefghijklmnopqrstuvwxyz0123456789ABCDEFGHIJKLMNOPQRSTUVWXYZ-_.".
Definition ISASCII (c : Z) : bool := Z.land c 0x80 =? 0.

(** The resolver: [gethostbyname2(name, af)] gives [h_addrtype] and the address
    bytes, [getnetbyname(name)] gives [n_addrtype] and [n_net] in host order. *)
Section Names.
Context (gethostbyname2 : list Z -> Z -> option (Z * list Z)).
Context (getnetbyname : list Z -> option (Z * Z)).

(** The characters before a NUL: what the resolver sees of the name. *)
Fixpoint before_nul (t : list Z) : list Z :=
  match t with
  | c :: t' => if c =? 0 then [] else c :: before_nul t'
  | [] => []
  end.

Definition tryname (t : list Z) (af tried_af : Z) : outcome string ip_address :=
  if existsb (fun c => ISASCII c && match strchr namechars c with None => true | _ => false end) t
  then Ugh "illegal (non-DNS-name) character in name"
  else
    let cp := before_nul t in
    match gethostbyname2 cp af with
    | Some (h_addrtype, h_addr) =>
        if negb (h_addrtype =? af) then Ugh "address-type mismatch from gethostbyname2!!!"
        else initaddr h_addr af
    | None =>
        match (if af =? AF_INET then getnetbyname cp else None) with
        | Some (n_addrtype, n_net) =>
            if negb (n_addrtype =? af) then Ugh "address-type mismatch from getnetbyname!!!"
            else initaddr (be_encode 4 n_net) af
        | None =>
            if tried_af =? AF_INET then
              Ugh "not a numeric IPv4 address and name lookup failed (no validation performed)"
            else if tried_af =? AF_INET6 then
              Ugh "not a numeric IPv6 address and name lookup failed (no validation performed)"
            else if tried_af =? AF_UNSPEC then
              Ugh "not a numeric IPv4 or IPv6 address and name lookup failed (no validation performed)"
            else Abort
        end
    end.

Definition ttoaddr (src : list Z) (srclen af : Z) : outcome string ip_address :=
  t ← addr_source src srclen;
  let '(err, numfailed) := ttoaddr_base t af in
  if numfailed : bool then
    let err :=
      match err with
      | Ugh _ => if negb (af =? AF_INET) then tryname t AF_INET6 af else err
      | _ => err
      end in
    match err with
    | Ugh _ => if negb (af =? AF_INET6) then tryname t AF_INET af else err
    | _ => err
    end
  else err.

End Names.

(** * sameaddr.c *)

(** [memcmp] on the first bytes of both: the sign of the first difference. *)
Fixpoint memcmp (a b : list Z) : Z :=
  match a, b with
  | x :: a', y :: b' => if x <? y then -1 else if y <? x then 1 else memcmp a' b'
  | _, _ => 0
  end.

Definition addrcmp (a b : ip_address) : Z :=
  let at_ := addrtypeof a in
  let bt := addrtypeof b in
  if negb (at_ =? bt) then if at_ <? bt then -1 else 1
  else
    let '(as_, ap) := addrbytesptr_read a in
    let '(bs, bp) := addrbytesptr_read b in
    let n := if as_ <? bs then as_ else bs in
    let c := memcmp (take (Z.to_nat n) ap) (take (Z.to_nat n) bp) in
    if negb (c =? 0) then if c <? 0 then -1 else 1
    else if negb (as_ =? bs) then if as_ <? bs then -1 else 1
    else 0.

Definition sameaddr (a b : ip_address) : bool := addrcmp a b =? 0.
