(* ===== verification/AddressText.v ===== *)
(** Addresses as text: [ttoaddr] reads back what [addrtot] prints, for both
    families; [addrtot] stays inside its buffers; what the numeric parsers accept. *)
From S2P Require Import Prelude Numbers Address.

#[local] Opaque digits.
#[local] Arguments strchr : simpl never.

Lemma take_middle {A} (pre rest : list A) c :
  take (S (length pre)) (pre ++ c :: rest) = pre ++ [c].
Proof. induction pre as [|x pre IH]; simpl in *; [done|]. by rewrite IH. Qed.

Lemma drop_middle {A} (pre rest : list A) c : drop (S (length pre)) (pre ++ c :: rest) = rest.
Proof. by induction pre. Qed.

(** * What [ultot] contributes *)

Lemma ul_text_eq n base size t :
  ultot_text n base = Some t -> Z.of_nat (length t) < size -> ul_text n base size = t.
Proof.
  intros Ht Hs. unfold ul_text, ultot. rewrite Ht. simpl.
  rewrite (proj2 (Z.ltb_lt _ _)), (proj2 (Z.ltb_ge _ _)) by lia. apply removelast_last.
Qed.

Lemma byte_text b :
  byteZ b -> ul_text b 10 PERBYTE = dec_text b /\
  horner 10 (digits 10 b) 0 = b /\ Forall (fun d => 0 <= d < 10) (digits 10 b) /\
  (1 <= length (digits 10 b) <= 3)%nat.
Proof.
  unfold byteZ. intros Hb. destruct (digits_small 10 b 2) as (Hh&Hd&Hl); [lia|lia|lia|].
  split; [|done]. apply ul_text_eq; [done|]. unfold dec_text, PERBYTE. rewrite length_fmap. lia.
Qed.

Lemma byte_ul_text b : byteZ b -> ul_text b 10 PERBYTE = dec_text b.
Proof. apply byte_text. Qed.

Lemma piece_text p :
  0 <= p < 65536 -> ul_text p 16 5 = hex_text p /\
  horner 16 (digits 16 p) 0 = p /\ Forall (fun d => 0 <= d < 16) (digits 16 p) /\
  (1 <= length (digits 16 p) <= 4)%nat.
Proof.
  intros Hp. destruct (digits_small 16 p 3) as (Hh&Hd&Hl); [lia|lia|lia|].
  split; [|done]. apply ul_text_eq; [done|]. unfold hex_text. rewrite length_fmap. lia.
Qed.

Lemma piece_ul_text p : 0 <= p < 65536 -> ul_text p 16 5 = hex_text p.
Proof. apply piece_text. Qed.

(** * IPv4 *)

(** The text is at its end, or goes on with something that is not a digit. *)
Definition stops (f : Z -> bool) (rest : list Z) : Prop :=
  match rest with c :: _ => f c = false | [] => True end.

Lemma hex_digit_isdigit d : 0 <= d < 10 -> isdigit (hex_digit d) = true /\ hex_digit d - 48 = d.
Proof.
  intros Hd. refine (bool_decide_eq_true_1 _ _). revert d Hd. apply (below_forall 10).
  vm_compute. reflexivity.
Qed.

Lemma getbyte_loop_digits ds rest no :
  Forall (fun d => 0 <= d < 10) ds -> 0 <= no -> horner 10 ds no <= 255 ->
  stops isdigit rest ->
  getbyte_loop ((hex_digit <$> ds) ++ rest) no = (horner 10 ds no, rest).
Proof.
  intros Hds. revert no; induction Hds as [|d ds Hd Hds IH]; intros no Hn Hh Hr.
  - destruct rest as [|c rest]; [done|]. simpl in *. by rewrite Hr, andb_false_r.
  - pose proof (horner_bound 10 ds (no * 10 + d) ltac:(lia) ltac:(lia) Hds) as Hb.
    cbn [horner fold_left] in Hh. unfold horner in Hb.
    assert (1 <= 10 ^ Z.of_nat (length ds)) by (pose proof (Z.pow_pos_nonneg 10
      (Z.of_nat (length ds)) ltac:(lia) ltac:(lia)); lia).
    assert (no <= 255) by nia.
    cbn [fmap list_fmap app getbyte_loop]. destruct (hex_digit_isdigit d Hd) as [-> ->].
    rewrite (proj2 (Z.leb_le _ _)) by done. simpl. by apply IH; [lia| |].
Qed.

Lemma getbyte_text b rest :
  byteZ b -> stops isdigit rest -> getbyte (dec_text b ++ rest) = Ok (b, rest).
Proof.
  intros Hb Hr. destruct (byte_text b Hb) as (_&Hh&Hd&Hl). unfold byteZ in Hb. unfold dec_text.
  pose proof (getbyte_loop_digits (digits 10 b) rest 0 Hd ltac:(lia) ltac:(lia) Hr) as L.
  destruct (digits 10 b) as [|d ds]; [simpl in Hl; lia|].
  cbn [fmap list_fmap app] in *. unfold getbyte. inversion_clear Hd as [|? ? Hd0 _].
  destruct (hex_digit_isdigit d Hd0) as [-> _]. cbn [negb]. rewrite L, Hh.
  by rewrite (proj2 (Z.ltb_ge _ _)) by lia.
Qed.

Lemma trydotted_step fuel i b rest buf :
  byteZ b -> (i < 3)%nat ->
  trydotted_loop (S fuel) i (dec_text b ++ 46 :: rest) buf =
  trydotted_loop fuel (S i) rest (buf ++ [b]).
Proof.
  intros Hb Hi. pose proof (getbyte_text b (46 :: rest) Hb eq_refl) as G.
  destruct (dec_text b ++ 46 :: rest) as [|c0 t0] eqn:E; [by apply app_eq_nil in E as [_ ?]|].
  cbn [trydotted_loop]. rewrite G. by rewrite (proj2 (Nat.ltb_lt _ _)).
Qed.

Lemma trydotted_last fuel i b buf :
  byteZ b -> trydotted_loop (S fuel) i (dec_text b) buf = Ok (buf ++ [b], []).
Proof.
  intros Hb. pose proof (getbyte_text b [] Hb I) as G. rewrite app_nil_r in G.
  destruct (dec_text b) as [|c0 t0]; [done|]. cbn [trydotted_loop]. rewrite G. by destruct fuel.
Qed.

Lemma trydotted_normal4 srcp :
  Forall byteZ srcp -> length srcp = 4%nat -> trydotted (normal4 srcp) = Ok (mk_ip AF_INET 0 srcp).
Proof.
  intros Hb Hl. destruct srcp as [|a [|b [|c [|d [|? ?]]]]]; simpl in Hl; try lia.
  repeat match goal with H : Forall byteZ (_ :: _) |- _ => inversion_clear H end.
  unfold normal4. cbn [nth]. rewrite !byte_ul_text by done. unfold trydotted.
  cbn [app]. rewrite !trydotted_step by (done || lia). by rewrite trydotted_last.
Qed.

(** * IPv6 *)

(** Pieces, each followed by a colon, and pieces separated by colons. *)
Definition show (ps : list Z) : list Z := concat ((fun p => hex_text p ++ [58]) <$> ps).

Fixpoint join (ps : list Z) : list Z :=
  match ps with
  | [] => []
  | [p] => hex_text p
  | p :: ps' => hex_text p ++ 58 :: join ps'
  end.

Definition pieceZ (p : Z) : Prop := 0 <= p < 65536.

Lemma show_cons p ps : show (p :: ps) = hex_text p ++ 58 :: show ps.
Proof. unfold show. cbn [fmap list_fmap concat]. by rewrite <- app_assoc. Qed.

Lemma show_app ps qs : show (ps ++ qs) = show ps ++ show qs.
Proof. unfold show. by rewrite fmap_app, concat_app. Qed.

Lemma show_join ps : ps <> [] -> show ps = join ps ++ [58].
Proof.
  induction ps as [|p [|q ps] IH]; [done| |].
  - intros _. by rewrite show_cons.
  - intros _. rewrite show_cons, IH by done. cbn [join]. by rewrite <- app_assoc.
Qed.

Lemma hex_text_inv p :
  pieceZ p -> exists c t, hex_text p = c :: t /\ Forall (fun c => isxdigit c = true) (c :: t) /\
    (length t <= 3)%nat /\ (c = 48 -> p = 0).
Proof.
  intros Hp. destruct (piece_text p Hp) as (_&Hh&Hd&Hl). unfold hex_text.
  assert (forall d, 0 <= d < 16 -> isxdigit (hex_digit d) = true /\ (hex_digit d = 48 -> d = 0)) as H.
  { intros d Hd'. refine (bool_decide_eq_true_1 _ _). revert d Hd'. apply (below_forall 16).
    vm_compute. reflexivity. }
  destruct (digits 16 p) as [|d ds] eqn:E; [simpl in Hl; lia|]. cbn [fmap list_fmap].
  eexists _, _. split; [done|]. split; [|split].
  - change (Forall (fun c => isxdigit c = true) (hex_digit <$> (d :: ds))). apply Forall_fmap.
    eapply Forall_impl; [exact Hd|]. intros x Hx. by apply H.
  - rewrite length_fmap. simpl in Hl. lia.
  - inversion_clear Hd as [|? ? Hd0 _]. intros Hc. apply H in Hc; [|done]. subst d.
    destruct (decide (p = 0)) as [|Hne]; [done|exfalso].
    destruct (digits_loop_head 16 64 p []) as (d&t&E'&Hd'); [lia|unfold pieceZ in Hp; lia|].
    change (digits 16 p = d :: t) in E'. congruence.
Qed.

Lemma hex_text_0 : hex_text 0 = [48].
Proof. reflexivity. Qed.

Lemma xdigit_not_colon c : isxdigit c = true -> c <> 58.
Proof. by intros H ->. Qed.

(** ** Squeezing out zeros *)

(** Colons only stand between pieces. *)
Lemma split_colon_aux h pre rest s :
  Forall (fun c => c <> 58) h -> pre ++ 58 :: rest = h ++ 58 :: s ->
  exists l, pre = h ++ l /\ l ++ 58 :: rest = 58 :: s.
Proof.
  intros Hh. revert pre; induction Hh as [|c h Hc _ IH]; intros pre E; [by exists pre|].
  destruct pre as [|x pre]; [by injection E|]. injection E as -> E.
  destruct (IH pre E) as (l&->&Hl). by exists l.
Qed.

Lemma split_colon ps pre rest :
  Forall pieceZ ps -> pre ++ 58 :: rest = 58 :: show ps ->
  exists a b, ps = a ++ b /\ pre ++ [58] = 58 :: show a /\ rest = show b.
Proof.
  intros Hps. revert pre; induction Hps as [|p ps Hp Hps IH]; intros pre E.
  - destruct pre as [|x pre]; [|injection E as _ E; by destruct pre].
    injection E as ->. by exists [], [].
  - destruct pre as [|x pre]; [injection E as ->; by exists [], (p :: ps)|].
    injection E as -> E. rewrite show_cons in E.
    destruct (hex_text_inv p Hp) as (c&t&Hx&Hd&_).
    destruct (split_colon_aux (hex_text p) pre rest (show ps)) as (l&->&El); [|done|].
    { rewrite Hx. eapply Forall_impl; [exact Hd|]. apply xdigit_not_colon. }
    destruct (IH l El) as (a&b&->&Ea&->). exists (p :: a), b. split; [done|]. split; [|done].
    rewrite show_cons. cbn [app]. f_equal. rewrite <- app_assoc. f_equal. exact Ea.
Qed.

Lemma strstr_some s find q :
  strstr s find = Some q -> exists pre post, s = pre ++ find ++ post /\ length pre = q.
Proof.
  revert q; induction s as [|c s IH]; intros q; cbn [strstr]; case_bool_decide as Hd.
  - intros [= <-]. exists [], []. by rewrite <- Hd, take_nil.
  - done.
  - intros [= <-]. exists [], (drop (length find) (c :: s)). split; [|done].
    rewrite <- (take_drop (length find) (c :: s)) at 1. by rewrite Hd.
  - destruct (strstr s find) as [q'|]; [|done]. intros [= <-].
    destruct (IH q' eq_refl) as (pre&post&->&<-). by exists (c :: pre), post.
Qed.

(** The first piece of a text that starts with "0:" is zero. *)
Lemma show_zero b t : Forall pieceZ b -> show b = 48 :: 58 :: t ->
  exists b', b = 0 :: b' /\ t = show b'.
Proof.
  intros Hb E. destruct Hb as [|p b Hp _]; [done|]. exists b. rewrite show_cons in E.
  destruct (hex_text_inv p Hp) as (c&t'&Hx&_&_&H0). rewrite Hx in E. injection E as -> E.
  rewrite (H0 eq_refl), hex_text_0 in Hx. injection Hx as <-. simpl in E. injection E as ->.
  by rewrite (H0 eq_refl).
Qed.

Lemma skip_zeros_show b :
  Forall pieceZ b -> exists k b', b = replicate k 0 ++ b' /\ skip_zeros (show b) = show b'.
Proof.
  induction 1 as [|p b Hp Hb (k&b'&->&IH)]; [by exists 0%nat, []|].
  destruct (decide (p = 0)) as [->|Hne].
  - exists (S k), b'. split; [done|]. rewrite show_cons, hex_text_0. exact IH.
  - exists 0%nat, (p :: replicate k 0 ++ b'). split; [done|].
    rewrite show_cons. destruct (hex_text_inv p Hp) as (c&t&->&_&_&H0).
    assert (c <> 48) by auto. cbn [app skip_zeros].
    destruct (t ++ 58 :: show (replicate k 0 ++ b')); [done|].
    by rewrite (proj2 (Z.eqb_neq c 48)).
Qed.

(** What [normal6] prints: the pieces, or the pieces around a "::" that stands
    for at least two zeros. *)
Definition v6_text (ps t : list Z) : Prop :=
  t = join ps \/
  exists a k b, ps = a ++ replicate k 0 ++ b /\ (2 <= k)%nat /\
    t = match a with [] => 58 :: 58 :: join b | _ => show a ++ 58 :: join b end.

Lemma ends_colons_snoc s c : ends_colons (s ++ [c; 58]) = (c =? 58).
Proof. unfold ends_colons. rewrite rev_app_distr. simpl. done. Qed.

Lemma join_last b : b <> [] -> Forall pieceZ b ->
  exists s c, join b = s ++ [c] /\ isxdigit c = true.
Proof.
  intros Hne Hb. induction Hb as [|p b Hp Hb IH]; [done|].
  destruct (hex_text_inv p Hp) as (c&t&Hx&Hd&_). destruct b as [|q b].
  - cbn [join]. rewrite Hx. destruct (exists_last (l := c :: t)) as (s&c'&E); [done|].
    exists s, c'. rewrite E in *. split; [done|]. apply Forall_app in Hd as [_ Hd].
    by inversion Hd.
  - destruct IH as (s&c'&E&Hc'); [done|]. cbn [join] in *. rewrite E.
    exists (hex_text p ++ 58 :: s), c'. split; [|done]. by rewrite <- app_assoc.
Qed.

Lemma show_head a rest : a <> [] -> Forall pieceZ a ->
  exists c t, show a ++ rest = c :: t /\ isxdigit c = true.
Proof.
  intros Hne Ha. destruct Ha as [|p a Hp _]; [done|]. rewrite show_cons.
  destruct (hex_text_inv p Hp) as (c&t&->&Hd&_). inversion_clear Hd. simpl. eauto.
Qed.

(** Dropping the final and the initial colon. *)
Lemma strip_final a b :
  Forall pieceZ b ->
  (let t := (58 :: show a) ++ [58] ++ show b in if ends_colons t then t else removelast t) =
  58 :: show a ++ 58 :: join b.
Proof.
  intros Hb. cbv zeta. destruct (decide (b = [])) as [->|Hne].
  - assert (exists s, 58 :: show a = s ++ [58]) as [s E].
    { destruct (decide (a = [])) as [->|Ha]; [by exists []|].
      rewrite show_join by done. by exists (58 :: join a). }
    cbn [show fmap list_fmap concat app join].
    change (58 :: show a ++ [58]) with ((58 :: show a) ++ [58]).
    rewrite E, <- app_assoc. cbn [app]. by rewrite ends_colons_snoc.
  - destruct (join_last b Hne Hb) as (s&c&E&Hc). rewrite (show_join b), E by done.
    replace ((58 :: show a) ++ [58] ++ (s ++ [c]) ++ [58])
      with (((58 :: show a) ++ 58 :: s) ++ [c; 58]) by (by rewrite <- !app_assoc).
    rewrite ends_colons_snoc, (proj2 (Z.eqb_neq _ _)) by by apply xdigit_not_colon.
    change [c; 58] with ([c] ++ [58]). rewrite app_assoc, removelast_last.
    cbn [app]. by rewrite <- app_assoc.
Qed.

Lemma strip_initial a t :
  Forall pieceZ a ->
  (let s := 58 :: show a ++ 58 :: t in if starts_colons s then s else tl s) =
  match a with [] => 58 :: 58 :: t | _ => show a ++ 58 :: t end.
Proof.
  intros Ha. cbv zeta. destruct (decide (a = [])) as [->|Hne]; [done|].
  destruct (show_head a (58 :: t) Hne Ha) as (c&s&E&Hc). destruct a; [done|]. rewrite E. simpl.
  by rewrite (proj2 (Z.eqb_neq c 58)) by by apply xdigit_not_colon.
Qed.

Lemma normal6_text srcp ps squish :
  Forall pieceZ ps -> pieces6 srcp = 58 :: show ps -> (1 < length ps)%nat ->
  v6_text ps (normal6 srcp squish).
Proof.
  intros Hps Hp Hl. unfold normal6. rewrite Hp.
  assert (v6_text ps (tl (removelast (58 :: show ps)))) as Hplain.
  { left. rewrite show_join by (destruct ps; [simpl in Hl; lia|done]).
    change (58 :: join ps ++ [58]) with ((58 :: join ps) ++ [58]). by rewrite removelast_last. }
  destruct (strstr (58 :: show ps) (str ":0:0:")) as [q|] eqn:Hq; [|done].
  destruct squish; [|done]. right.
  apply strstr_some in Hq as (pre&post&E&<-).
  change (str ":0:0:" ++ post) with (58 :: 48 :: 58 :: 48 :: 58 :: post) in E.
  destruct (split_colon ps pre (48 :: 58 :: 48 :: 58 :: post) Hps (eq_sym E)) as (a&b0&->&Ea&Eb).
  apply Forall_app in Hps as [Ha Hb0].
  destruct (show_zero b0 _ Hb0 (eq_sym Eb)) as (b1&->&Eb1). inversion_clear Hb0 as [|? ? _ Hb1].
  destruct (show_zero b1 post Hb1 (eq_sym Eb1)) as (b2&->&->). inversion_clear Hb1 as [|? ? _ Hb2].
  destruct (skip_zeros_show b2 Hb2) as (k&b&->&Hk).
  exists a, (S (S k)), b. split; [done|]. split; [lia|].
  apply Forall_app in Hb2 as [_ Hb].
  rewrite E.
  rewrite take_middle, drop_middle, Ea.
  change (skip_zeros (48 :: 58 :: 48 :: 58 :: show (replicate k 0 ++ b)))
    with (skip_zeros (show (replicate k 0 ++ b))). rewrite Hk.
  pose proof (strip_final a b Hb) as F. cbv zeta in F. rewrite F. by apply strip_initial.
Qed.

(** ** Scanning the pieces *)

Lemma span_xdigits_all n ds rest :
  Forall (fun c => isxdigit c = true) ds -> stops isxdigit rest -> (length ds <= n)%nat ->
  span_xdigits n (ds ++ rest) = (ds, rest).
Proof.
  intros Hd Hr. revert n; induction Hd as [|c ds Hc _ IH]; intros n Hl.
  - destruct n, rest as [|c rest]; try done. simpl in *. by rewrite Hr.
  - destruct n as [|n]; [simpl in Hl; lia|]. cbn [app span_xdigits]. rewrite Hc, IH; [done|].
    simpl in Hl. lia.
Qed.

Lemma ttoul_hex_text p : pieceZ p ->
  ttoul (hex_text p) (Z.of_nat (length (hex_text p))) 16 = Ok p.
Proof.
  intros Hp. destruct (hex_text_inv p Hp) as (c&t&Hx&_).
  unfold ttoul. rewrite source_text by (by rewrite Hx). simpl.
  change (ttoul_text (hex_text p) (read_base 16) = Ok p).
  apply ttoul_text_printed; [unfold pieceZ in Hp; lia|done].
Qed.

Lemma getpiece_text p rest :
  pieceZ p -> stops isxdigit rest -> getpiece (hex_text p ++ rest) = Ok (Some p, rest).
Proof.
  intros Hp Hr. destruct (hex_text_inv p Hp) as (c&t&Hx&Hd&Hl&_).
  pose proof (ttoul_hex_text p Hp) as T. rewrite Hx in *.
  assert (span_xdigits NDIG ((c :: t) ++ rest) = (c :: t, rest)) as S
    by (apply span_xdigits_all; [done|done|simpl; unfold NDIG; lia]).
  unfold getpiece. cbn [app] in *. inversion_clear Hd as [|? ? Hc _].
  rewrite (proj2 (Z.eqb_neq c (chr ":"))) by by apply xdigit_not_colon. rewrite S.
  change (length (c :: t) =? 0)%nat with false. cbv iota.
  destruct (andb _ _) eqn:E.
  { apply andb_true_iff in E as [_ E]. destruct rest; [done|]. simpl in Hr. congruence. }
  rewrite T. done.
Qed.

Lemma colon_loop_nil fuel gap buf : colon_loop fuel [] gap buf = Ok ([], gap, buf).
Proof. by destruct fuel. Qed.

Lemma colon_step fuel p rest gap buf :
  pieceZ p -> (length buf < 7)%nat ->
  colon_loop (S fuel) (hex_text p ++ 58 :: rest) gap buf = colon_loop fuel rest gap (buf ++ [p]).
Proof.
  intros Hp Hl. pose proof (getpiece_text p (58 :: rest) Hp eq_refl) as G.
  destruct (hex_text_inv p Hp) as (c&t&Hx&_). rewrite Hx in *. cbn [app colon_loop] in *.
  rewrite G. cbn [mbind outcome_bind]. rewrite (proj2 (Nat.ltb_lt _ _)) by (unfold NPIECES; lia).
  done.
Qed.

Lemma colon_gap fuel rest buf :
  (length buf < 7)%nat ->
  colon_loop (S fuel) (58 :: rest) None buf =
  colon_loop fuel rest (Some (length buf)) (buf ++ [0]).
Proof.
  intros Hl. cbn [colon_loop getpiece]. change (58 =? chr ":") with true. cbv iota.
  cbn [mbind outcome_bind]. by rewrite (proj2 (Nat.ltb_lt _ _)) by (unfold NPIECES; lia).
Qed.

Lemma colon_show a fuel rest gap buf :
  Forall pieceZ a -> (length buf + length a <= 7)%nat ->
  colon_loop (length a + fuel) (show a ++ rest) gap buf = colon_loop fuel rest gap (buf ++ a).
Proof.
  intros Ha. revert buf; induction Ha as [|p a Hp _ IH]; intros buf Hl.
  - by rewrite app_nil_r.
  - cbn [length Nat.add] in *. rewrite show_cons, <- app_assoc. cbn [app].
    rewrite colon_step by (done || lia). rewrite IH, <- app_assoc; [done|].
    rewrite length_app. simpl. lia.
Qed.

(** The last pieces: after a gap, or all eight. *)
Lemma colon_join b fuel gap buf :
  Forall pieceZ b -> (length b <= fuel)%nat ->
  match gap with
  | Some _ => length buf + length b <= 8
  | None => length buf + length b = 8
  end%nat ->
  colon_loop fuel (join b) gap buf = Ok ([], gap, buf ++ b).
Proof.
  intros Hb. revert fuel buf; induction Hb as [|p b Hp Hb IH]; intros fuel buf Hf Hl.
  { by rewrite colon_loop_nil, app_nil_r. }
  destruct fuel as [|fuel]; [simpl in Hf; lia|].
  assert (length buf < 8)%nat as Hlt by (destruct gap; simpl in Hl; lia).
  destruct b as [|q b].
  - cbn [join]. pose proof (getpiece_text p [] Hp I) as G. rewrite app_nil_r in G.
    destruct (hex_text_inv p Hp) as (c&t&Hx&_). rewrite Hx in *. cbn [colon_loop]. rewrite G.
    cbn [mbind outcome_bind]. destruct (Nat.ltb_spec (length buf) (NPIECES - 1)) as [Hlt'|_];
      [|by rewrite colon_loop_nil].
    destruct gap; [by rewrite colon_loop_nil|]. unfold NPIECES in Hlt'. simpl in Hl. lia.
  - change (join (p :: q :: b)) with (hex_text p ++ 58 :: join (q :: b)).
    rewrite colon_step; [|done|destruct gap; simpl in Hl; lia].
    rewrite IH; [by rewrite <- app_assoc|simpl in *; lia|].
    rewrite length_app. destruct gap; simpl in *; lia.
Qed.

(** ** Filling the gap *)

(** The in-place loops put zeros between the pieces before and after the gap. *)
Lemma colon_fill_spec a b :
  (length a + length b <= 6)%nat ->
  colon_fill (length a + 1 + length b) (length a) (a ++ 0 :: b) =
  a ++ replicate (8 - length a - length b) 0 ++ b.
Proof.
  intros Hl.
  do 7 (try (destruct a as [|? a]; [|try (exfalso; simpl in Hl; lia)]));
    do 7 (try (destruct b as [|? b]; [|try (exfalso; simpl in Hl; lia)])); reflexivity.
Qed.

Lemma initaddr6 l : length l = 16%nat -> initaddr l AF_INET6 = Ok (mk_ip AF_INET6 0 l).
Proof. intros H. unfold initaddr. simpl. by rewrite H. Qed.

Lemma piece_bytes_length ps : length (piece_bytes ps) = (2 * length ps)%nat.
Proof.
  unfold piece_bytes. induction ps as [|p ps IH]; [done|].
  rewrite fmap_cons, concat_cons, length_app, IH. simpl. lia.
Qed.

Lemma initaddr6_pieces ps :
  length ps = 8%nat -> initaddr (piece_bytes ps) AF_INET6 = Ok (mk_ip AF_INET6 0 (piece_bytes ps)).
Proof. intros H. apply initaddr6. rewrite piece_bytes_length. lia. Qed.

(** All eight pieces. *)
Lemma colon_body_full ps :
  Forall pieceZ ps -> length ps = 8%nat ->
  colon_body (join ps) = Ok (mk_ip AF_INET6 0 (piece_bytes ps)).
Proof.
  intros Hp Hl. unfold colon_body. rewrite colon_join by (done || unfold NPIECES; simpl; lia).
  cbn [mbind outcome_bind app]. rewrite (proj2 (Nat.ltb_ge _ _)) by (unfold NPIECES; lia).
  by apply initaddr6_pieces.
Qed.

(** Pieces around a gap. *)
Lemma colon_body_gap a b k :
  Forall pieceZ a -> Forall pieceZ b -> (2 <= k)%nat -> (length a + k + length b = 8)%nat ->
  colon_body (show a ++ 58 :: join b) =
  Ok (mk_ip AF_INET6 0 (piece_bytes (a ++ replicate k 0 ++ b))).
Proof.
  intros Ha Hb Hk Hl. unfold colon_body.
  replace NPIECES with (length a + S (7 - length a))%nat by (unfold NPIECES; lia).
  rewrite colon_show by (done || simpl; lia). cbn [app]. rewrite colon_gap by lia.
  rewrite colon_join; [|done|lia|rewrite length_app; simpl; lia].
  cbn [mbind outcome_bind]. rewrite <- app_assoc. cbn [app].
  assert (length (a ++ 0%Z :: b) = length a + 1 + length b)%nat as Hi
    by (rewrite length_app; simpl; lia).
  rewrite Hi, (proj2 (Nat.eqb_neq _ _)) by lia.
  rewrite colon_fill_spec by lia. replace (8 - length a - length b)%nat with k by lia.
  apply initaddr6_pieces. rewrite !length_app, length_replicate. lia.
Qed.

Lemma nth_last_snoc (s : list Z) c : nth (length (s ++ [c]) - 1) (s ++ [c]) 0 = c.
Proof. rewrite length_app, Nat.add_sub. by rewrite app_nth2, Nat.sub_diag by lia. Qed.

(** The check for a trailing colon passes. *)
Lemma trailing_ok s c :
  (c = 58 -> exists s', s = s' ++ [58]) ->
  (nth (length (s ++ [c]) - 1) (s ++ [c]) 0 =? chr ":")
    && ((length (s ++ [c]) =? 1)%nat || negb (nth (length (s ++ [c]) - 2) (s ++ [c]) 0 =? chr ":"))
  = false.
Proof.
  intros Hc. rewrite nth_last_snoc. change (chr ":") with 58.
  destruct (Z.eqb_spec c 58) as [->|]; [|done]. destruct (Hc eq_refl) as [s' ->].
  rewrite <- app_assoc. cbn [app]. rewrite length_app. cbn [length].
  rewrite (proj2 (Nat.eqb_neq _ _)) by lia.
  rewrite app_nth2 by lia. by replace (length s' + 2 - 2 - length s')%nat with 0%nat by lia.
Qed.

Lemma colon_plain c0 t0 s c :
  c0 <> 58 -> c0 :: t0 = s ++ [c] -> (c = 58 -> exists s', s = s' ++ [58]) ->
  colon (c0 :: t0) = colon_body (c0 :: t0).
Proof.
  intros Hc0 E Hc. unfold colon. rewrite (proj2 (Z.eqb_neq c0 (chr ":"))) by done.
  cbn [andb]. cbv iota zeta. rewrite E. by rewrite trailing_ok.
Qed.

Lemma colon_lead s c : c <> 58 -> colon (58 :: 58 :: s ++ [c]) = colon_body (58 :: s ++ [c]).
Proof.
  intros Hc. pose proof (trailing_ok (58 :: s) c ltac:(done)) as T. cbn [app] in T.
  assert (length (58%Z :: 58%Z :: s ++ [c]) =? 2 = false)%nat as L
    by (apply Nat.eqb_neq; simpl; rewrite length_app; simpl; lia).
  unfold colon. cbv beta iota zeta. rewrite L.
  change (length (58%Z :: 58%Z :: s ++ [c]) =? 1)%nat with false.
  change (nth 1 (58 :: 58 :: s ++ [c]) 0 =? chr ":") with true.
  change (58 =? chr ":") with true. cbn [andb orb negb tl]. by rewrite T.
Qed.

Lemma colon_text ps t :
  Forall pieceZ ps -> length ps = 8%nat -> v6_text ps t ->
  colon t = Ok (mk_ip AF_INET6 0 (piece_bytes ps)).
Proof.
  intros Hp Hl [->|(a&k&b&->&Hk&->)].
  - rewrite <- colon_body_full by done.
    destruct (join_last ps) as (s&c&E&Hc); [by destruct ps|done|].
    destruct (show_head ps [] ltac:(by destruct ps) Hp) as (c0&t0&E0&Hc0).
    rewrite app_nil_r, show_join in E0 by by destruct ps.
    destruct (join ps) as [|c1 t1]; [by destruct s|]. injection E0 as -> _.
    apply (colon_plain c0 t1 s c); [by apply xdigit_not_colon|done|by intros ->].
  - rewrite !length_app, length_replicate in Hl. apply Forall_app in Hp as [Ha Hp].
    apply Forall_app in Hp as [_ Hb].
    rewrite <- (colon_body_gap a b k) by (done || lia).
    destruct (decide (a = [])) as [->|Hna]; [destruct (decide (b = [])) as [->|Hnb]|].
    + reflexivity.
    + destruct (join_last b Hnb Hb) as (s&c&->&Hc). apply colon_lead. by apply xdigit_not_colon.
    + assert (exists s c, show a ++ 58 :: join b = s ++ [c] /\ (c = 58 -> exists s', s = s' ++ [58]))
        as (s&c&E&Hc).
      { destruct (decide (b = [])) as [->|Hnb].
        - exists (show a), 58. split; [done|]. intros _. rewrite show_join by done. eauto.
        - destruct (join_last b Hnb Hb) as (s&c&E&Hc). rewrite E.
          exists (show a ++ 58 :: s), c. split; [by rewrite <- app_assoc|by intros ->]. }
      destruct (show_head a (58 :: join b) Hna Ha) as (c0&t0&E0&Hc0).
      destruct a; [done|]. rewrite E0 in *.
      apply (colon_plain c0 t0 s c); [by apply xdigit_not_colon|done|done].
Qed.

(** ** Bytes and pieces *)

Definition pieces_of (srcp : list Z) : list Z := piece6 srcp <$> seq 0 8.

Lemma piece_join h l : byteZ h -> byteZ l ->
  pieceZ (Z.shiftl h 8 + l) /\
  [u8 (Z.shiftr (Z.shiftl h 8 + l) 8); Z.land (Z.shiftl h 8 + l) 0xff] = [h; l].
Proof.
  unfold byteZ, pieceZ, u8. intros Hh Hl. rewrite Z.shiftl_mul_pow2, Z.shiftr_div_pow2 by lia.
  change 0xff with (Z.ones 8). rewrite Z.land_ones by lia. change (2 ^ 8) with 256.
  split; [lia|]. f_equal; [div_lia|]. f_equal. div_lia.
Qed.

(** Induction two bytes at a time. *)
Lemma pieces_spec n srcp :
  Forall byteZ srcp -> length srcp = (2 * n)%nat ->
  Forall pieceZ (piece6 srcp <$> seq 0 n) /\ piece_bytes (piece6 srcp <$> seq 0 n) = srcp.
Proof.
  revert srcp; induction n as [|n IH]; intros srcp Hb Hl; [by destruct srcp|].
  destruct srcp as [|h [|l srcp]]; [simpl in Hl; lia..|].
  inversion_clear Hb as [|? ? Hh Hb']. inversion_clear Hb' as [|? ? Hlo Hb].
  destruct (IH srcp Hb ltac:(simpl in Hl; lia)) as [IH1 IH2].
  destruct (piece_join h l Hh Hlo) as [P1 P2].
  cbn [seq]. rewrite fmap_cons, <- fmap_S_seq, <- list_fmap_compose.
  assert ((piece6 (h :: l :: srcp) ∘ S) <$> seq 0 n = piece6 srcp <$> seq 0 n) as ->.
  { apply list_fmap_ext. intros i x _. unfold compose, piece6.
    by replace (2 * S x)%nat with (S (S (2 * x)))%nat by lia. }
  split; [by constructor|]. unfold piece_bytes in *. rewrite fmap_cons, concat_cons, IH2.
  change (piece6 (h :: l :: srcp) 0) with (Z.shiftl h 8 + l). by rewrite P2.
Qed.

Lemma pieces6_show srcp :
  Forall byteZ srcp -> length srcp = 16%nat -> pieces6 srcp = 58 :: show (pieces_of srcp).
Proof.
  intros Hb Hl. destruct (pieces_spec 8 srcp Hb Hl) as [Hp _]. unfold pieces6, show, pieces_of.
  do 2 f_equal. rewrite <- list_fmap_compose. apply list_fmap_ext. intros i x Hx. unfold compose.
  rewrite piece_ul_text; [done|]. rewrite Forall_fmap in Hp.
  by apply (Forall_lookup_1 _ _ _ _ Hp Hx).
Qed.

Lemma colon_normal6 srcp squish :
  Forall byteZ srcp -> length srcp = 16%nat ->
  colon (normal6 srcp squish) = Ok (mk_ip AF_INET6 0 srcp) /\ v6_text (pieces_of srcp) (normal6 srcp squish).
Proof.
  intros Hb Hl. destruct (pieces_spec 8 srcp Hb Hl) as [Hp Hpb].
  assert (v6_text (pieces_of srcp) (normal6 srcp squish)) as Ht.
  { apply normal6_text; [done|by apply pieces6_show|unfold pieces_of; simpl; lia]. }
  split; [|done]. rewrite (colon_text (pieces_of srcp)) by done. do 2 f_equal. exact Hpb.
Qed.

(** * Characters and lengths of the texts *)

Lemma dec_text_chars b : byteZ b -> Forall (fun c => isdigit c = true) (dec_text b) /\
  (1 <= length (dec_text b) <= 3)%nat.
Proof.
  intros Hb. destruct (byte_text b Hb) as (_&_&Hd&Hl). unfold dec_text. rewrite length_fmap.
  split; [|done]. apply Forall_fmap. eapply Forall_impl; [exact Hd|]. intros d Hd'.
  by apply hex_digit_isdigit.
Qed.

(** A character of a dotted-decimal text. *)
Definition dotted_char (c : Z) : bool := isdigit c || (c =? 46).
(** A character of an IPv6 text. *)
Definition colon_char (c : Z) : bool := isxdigit c || (c =? 58).

Lemma normal4_chars srcp :
  Forall byteZ srcp -> length srcp = 4%nat ->
  Forall (fun c => dotted_char c = true) (normal4 srcp) /\ (7 <= length (normal4 srcp) <= 15)%nat.
Proof.
  intros Hb Hl. destruct srcp as [|a [|b [|c [|d [|? ?]]]]]; simpl in Hl; try lia.
  repeat match goal with H : Forall byteZ (_ :: _) |- _ => inversion_clear H end.
  unfold normal4. cbn [nth]. rewrite !byte_ul_text by done.
  repeat match goal with H : byteZ ?x |- _ => destruct (dec_text_chars x H); clear H end.
  assert (forall l, Forall (fun c => isdigit c = true) l -> Forall (fun c => dotted_char c = true) l)
    as Hdc.
  { intros l Hf. eapply Forall_impl; [exact Hf|]. intros x Hx. unfold dotted_char. by rewrite Hx. }
  split.
  - repeat (apply Forall_app_2; [first [by apply Hdc|by constructor]|]). by apply Hdc.
  - rewrite !length_app. simpl. lia.
Qed.

Lemma hex_text_chars p : pieceZ p -> Forall (fun c => colon_char c = true) (hex_text p) /\
  (length (hex_text p) <= 4)%nat.
Proof.
  intros Hp. destruct (hex_text_inv p Hp) as (c&t&->&Hd&Hl&_). split; [|simpl; lia].
  eapply Forall_impl; [exact Hd|]. intros x Hx. unfold colon_char. by rewrite Hx.
Qed.

Lemma show_chars ps : Forall pieceZ ps ->
  Forall (fun c => colon_char c = true) (show ps) /\ (length (show ps) <= 5 * length ps)%nat.
Proof.
  induction 1 as [|p ps Hp _ [IH1 IH2]]; [split; [constructor|simpl; lia]|].
  rewrite show_cons. destruct (hex_text_chars p Hp). split.
  - apply Forall_app_2; [done|]. by constructor.
  - rewrite length_app. cbn [length]. lia.
Qed.

Lemma join_chars ps : Forall pieceZ ps ->
  Forall (fun c => colon_char c = true) (join ps) /\ (length (join ps) <= 5 * length ps)%nat.
Proof.
  intros Hp. destruct (show_chars ps Hp) as [H1 H2].
  destruct (decide (ps = [])) as [->|Hne]; [done|]. rewrite show_join in H1, H2 by done.
  apply Forall_app in H1 as [H1 _]. split; [done|]. rewrite length_app in H2. lia.
Qed.

Lemma v6_text_chars ps t :
  Forall pieceZ ps -> (2 <= length ps)%nat -> v6_text ps t ->
  Forall (fun c => colon_char c = true) t /\ 58 ∈ t /\ (length t <= 5 * length ps)%nat.
Proof.
  intros Hp Hl [->|(a&k&b&->&Hk&->)].
  - destruct (join_chars ps Hp). split; [done|]. split; [|done].
    destruct ps as [|p [|q ps]]; [simpl in Hl; lia..|]. cbn [join].
    apply elem_of_app. right. by left.
  - apply Forall_app in Hp as [Ha Hp]. apply Forall_app in Hp as [_ Hb].
    destruct (show_chars a Ha) as [A1 A2], (join_chars b Hb) as [B1 B2].
    rewrite !length_app, length_replicate in *.
    destruct a; (split; [|split]).
    + by repeat constructor.
    + by left.
    + cbn [length] in *. lia.
    + apply Forall_app_2; [done|]. by constructor.
    + apply elem_of_app. right. by left.
    + rewrite length_app. cbn [length] in *. lia.
Qed.

Lemma normal6_chars srcp squish :
  Forall byteZ srcp -> length srcp = 16%nat ->
  Forall (fun c => colon_char c = true) (normal6 srcp squish) /\ 58 ∈ normal6 srcp squish /\
  (length (normal6 srcp squish) <= 40)%nat.
Proof.
  intros Hb Hl. apply (v6_text_chars (pieces_of srcp)).
  - apply (pieces_spec 8 srcp Hb Hl).
  - unfold pieces_of. simpl. lia.
  - by apply colon_normal6.
Qed.

(** * Properties *)

(** The formats that [ttoaddr] can read. *)
Definition numeric_format (format : Z) : Prop := format = 0 \/ format = chr "Q".

Lemma addrtot_text a format :
  wf_addr a -> numeric_format format ->
  exists t, inet_text (sin_family a) (sin_addr a) format = Some t /\
    Forall (fun c => c <> 0) t /\ t <> [] /\ (length t <= 40)%nat /\
    (forall af, af = AF_UNSPEC \/ af = sin_family a ->
       ttoaddr_base t af = (Ok (mk_ip (sin_family a) 0 (sin_addr a)), false)).
Proof.
  destruct a as [fam port bs]. intros [Hb [[Hf Hl]|[Hf Hl]]] Hfmt; simpl in *; subst fam.
  - exists (normal4 bs). destruct (normal4_chars bs Hb Hl) as [Hc Hlen].
    split; [by destruct Hfmt as [-> | ->]|]. split; [|split; [|split; [lia|]]].
    { eapply Forall_impl; [exact Hc|]. by intros c Hc' ->. }
    { intros E. rewrite E in Hlen. simpl in Hlen. lia. }
    intros af Haf. unfold ttoaddr_base.
    assert (58 ∉ normal4 bs) as Hno.
    { intros H. rewrite Forall_forall in Hc. by specialize (Hc _ H). }
    assert (dotted_char (nth 1 (normal4 bs) 0) = true) as H1.
    { rewrite List.Forall_forall in Hc. apply Hc, nth_In. lia. }
    assert (forall x, dotted_char x = false -> (nth 1 (normal4 bs) 0 =? x) = false) as Hx.
    { intros x Hx. apply Z.eqb_neq. intros <-. congruence. }
    rewrite !Hx by done. rewrite !andb_false_r.
    rewrite (bool_decide_eq_false_2 _ Hno), trydotted_normal4 by done.
    by destruct Haf as [-> | ->].
  - exists (normal6 bs (format =? 0)). destruct (normal6_chars bs (format =? 0) Hb Hl) as (Hc&Hin&Hlen).
    split; [by destruct Hfmt as [-> | ->]|]. split; [|split; [|split; [lia|]]].
    { eapply Forall_impl; [exact Hc|]. by intros c Hc' ->. }
    { intros E. rewrite E in Hin. by apply elem_of_nil in Hin. }
    intros af Haf. unfold ttoaddr_base.
    rewrite (bool_decide_eq_true_2 _ Hin), (proj1 (colon_normal6 bs _ Hb Hl)).
    by destruct Haf as [-> | ->].
Qed.

Lemma store_text_fits t dstlen :
  fst (store_text t dstlen) <= dstlen -> snd (store_text t dstlen) = t ++ [0].
Proof.
  unfold store_text. simpl. intros H.
  by rewrite (proj2 (Z.ltb_lt _ _)), (proj2 (Z.ltb_ge _ _)) by lia.
Qed.

Lemma addrtot_eq a format t dstlen :
  wf_addr a -> inet_text (sin_family a) (sin_addr a) format = Some t ->
  addrtot a format dstlen = store_text t dstlen.
Proof.
  intros [_ [[Hf _]|[Hf _]]] Ht; unfold addrtot, addrbytesptr_read, addrtypeof;
    rewrite Hf in *; simpl in *; by rewrite Ht.
Qed.

(** C31: printing an IPv4 or IPv6 address with [addrtot] (with or without
    squeezing out zeros) and reading the text with [ttoaddr], with the family
    given or guessed, yields the address; no name lookup takes place. *)
Theorem addrtot_ttoaddr_roundtrip gethostbyname2 getnetbyname a format dstlen af :
  wf_addr a -> numeric_format format -> fst (addrtot a format dstlen) <= dstlen ->
  af = AF_UNSPEC \/ af = sin_family a ->
  ttoaddr gethostbyname2 getnetbyname (snd (addrtot a format dstlen)) 0 af =
  Ok (mk_ip (sin_family a) 0 (sin_addr a)).
Proof.
  intros Ha Hfmt Hlen Haf. destruct (addrtot_text a format Ha Hfmt) as (t&Ht&Hn&Hne&_&Hp).
  rewrite (addrtot_eq a format t) in * by done. rewrite store_text_fits by done.
  unfold ttoaddr, addr_source, source. simpl (0 =? 0). cbv iota. rewrite cstring_nul by done.
  cbn [mbind outcome_bind defined]. destruct t; [done|]. cbn [mbind outcome_bind].
  by rewrite Hp.
Qed.

Lemma addrtot_ttoaddr_roundtrip_witness :
  ttoaddr (fun _ _ => None) (fun _ => None)
    (snd (addrtot (mk_ip AF_INET6 0 ([32; 1; 13; 184] ++ replicate 11 0 ++ [1])) 0 73)) 0 AF_UNSPEC
  = Ok (mk_ip AF_INET6 0 ([32; 1; 13; 184] ++ replicate 11 0 ++ [1])).
Proof.
  apply (addrtot_ttoaddr_roundtrip (fun _ _ => None) (fun _ => None)
    (mk_ip AF_INET6 0 ([32; 1; 13; 184] ++ replicate 11 0 ++ [1])) 0 73 AF_UNSPEC).
  - split; [by_decide|]. by right.
  - by left.
  - by_decide.
  - by left.
Defined.

(** [ipstr] and [ttoaddr_num] are a text codec. *)
#[export] Instance addr_codec :
  TextCodec (fun a => wf_addr a /\ sin_port a = 0) ipstr (fun t => ttoaddr_num t 0 AF_UNSPEC).
Proof.
  intros a [Ha Hport]. destruct (addrtot_text a 0 Ha (or_introl eq_refl)) as (t&Ht&Hn&Hne&Hl&Hp).
  unfold ipstr. rewrite (addrtot_eq a 0 t), store_text_fits
    by (done || (unfold store_text, ADDRTOT_BUF; simpl; lia)).
  unfold ttoaddr_num, addr_source, source. simpl (0 =? 0). cbv iota. rewrite cstring_nul by done.
  cbn [mbind outcome_bind defined]. destruct t; [done|]. cbn [mbind outcome_bind].
  rewrite Hp by by left. simpl. rewrite <- Hport. by destruct a.
Qed.

(** ** Whatever is accepted is an address *)

Lemma getbyte_loop_nonneg t no : 0 <= no -> 0 <= fst (getbyte_loop t no).
Proof.
  revert no; induction t as [|c t IH]; intros no Hn; cbn [getbyte_loop]; [done|].
  destruct ((no <=? 255) && isdigit c) eqn:E; [|done]. apply IH.
  apply andb_true_iff in E as [_ E]. unfold isdigit in E. lia.
Qed.

Lemma getbyte_inv t b t' : getbyte t = Ok (b, t') -> byteZ b.
Proof.
  unfold getbyte. destruct t as [|c t]; [done|]. destruct (isdigit c); [|done]. simpl negb. cbv iota.
  pose proof (getbyte_loop_nonneg (c :: t) 0 ltac:(lia)) as H.
  destruct (getbyte_loop (c :: t) 0) as [no r]. simpl in H.
  destruct (Z.ltb_spec 255 no); [done|]. intros [= <- <-]. unfold byteZ. lia.
Qed.

Lemma getbyte_total t : getbyte t <> Abort.
Proof.
  unfold getbyte. destruct t as [|c t]; [done|]. destruct (isdigit c); simpl negb; cbv iota; [|done].
  destruct (getbyte_loop (c :: t) 0) as [no r]. by destruct (255 <? no).
Qed.

Lemma trydotted_loop_inv fuel i t buf :
  Forall byteZ buf ->
  match trydotted_loop fuel i t buf with
  | Ok (buf', _) => Forall byteZ buf' /\ (length buf' <= length buf + fuel)%nat
  | Ugh _ => True
  | Abort => False
  end.
Proof.
  revert i t buf; induction fuel as [|fuel IH]; intros i t buf Hb; cbn [trydotted_loop].
  { split; [done|lia]. }
  destruct t as [|c t]; [split; [done|lia]|].
  pose proof (getbyte_total (c :: t)) as Ht.
  destruct (getbyte (c :: t)) as [[b t']|oops|] eqn:G; [| |done].
  2:{ by destruct (quoted oops), (1 <? i)%nat. }
  assert (Forall byteZ (buf ++ [b])) as Hb'
    by (apply Forall_app_2; [done|constructor; [by eapply getbyte_inv|done]]).
  assert (forall j u, match trydotted_loop fuel j u (buf ++ [b]) with
    | Ok (buf', _) => Forall byteZ buf' /\ (length buf' <= length buf + S fuel)%nat
    | Ugh _ => True | Abort => False end) as IH'.
  { intros j u. specialize (IH j u (buf ++ [b]) Hb'). rewrite length_app in IH.
    destruct (trydotted_loop fuel j u (buf ++ [b])) as [[? ?]| |]; simpl in *; [|done|done].
    split; [tauto|lia]. }
  destruct t' as [|c' t'']; [apply IH'|]. destruct (i <? 3)%nat; [|apply IH'].
  destruct (c' =? chr "."); simpl negb; cbv iota; [apply IH'|done].
Qed.

(** What a conversion may give: an address, or an error. *)
Definition addr_result (r : outcome string ip_address) (fam : Z) : Prop :=
  match r with
  | Ok a => wf_addr a /\ sin_port a = 0 /\ sin_family a = fam
  | Ugh _ => True
  | Abort => False
  end.

Lemma trydotted_result t : addr_result (trydotted t) AF_INET.
Proof.
  unfold trydotted. pose proof (trydotted_loop_inv 4 0 t [] ltac:(constructor)) as H.
  destruct (trydotted_loop 4 0 t []) as [[buf rest]| |]; [|done|done].
  destruct H as [Hb Hl]. cbn [mbind outcome_bind]. destruct rest; [|done].
  assert (length (take 4 (buf ++ replicate 4 0)) = 4%nat) as Hl4
    by (rewrite length_take, length_app, length_replicate; lia).
  unfold initaddr. rewrite Hl4. simpl. split; [|done]. split; [|by left].
  apply Forall_take, Forall_app_2; [done|]. by_decide.
Qed.

Lemma piece_bytes_bytes ps : Forall byteZ (piece_bytes ps).
Proof.
  unfold piece_bytes. induction ps as [|p ps IH]; [constructor|].
  rewrite fmap_cons, concat_cons. apply Forall_app_2; [|done].
  constructor; [apply u8_bound|]. constructor; [|constructor].
  change 0xff with (Z.ones 8). rewrite Z.land_ones by lia. apply Z.mod_pos_bound. lia.
Qed.

Lemma initaddr6_result ps : addr_result (initaddr (piece_bytes ps) AF_INET6) AF_INET6.
Proof.
  unfold initaddr. simpl. rewrite piece_bytes_length.
  destruct (Z.eqb_spec (Z.of_nat (2 * length ps)) 16) as [H|H]; simpl negb; cbv iota; [|done].
  split; [|done]. split; [apply piece_bytes_bytes|]. right. split; [done|].
  simpl. rewrite piece_bytes_length. lia.
Qed.

Lemma getpiece_total t : getpiece t <> Abort.
Proof.
  unfold getpiece. destruct t as [|c t]; [done|]. destruct (c =? chr ":"); [done|].
  destruct (span_xdigits NDIG (c :: t)) as [ds rest].
  destruct (length ds =? 0)%nat eqn:E; [done|]. destruct (_ && _); [done|].
  unfold ttoul. rewrite source_text by (by destruct ds). cbn [defined mbind outcome_bind].
  pose proof (ttoul_text_total ds 16). by destruct (ttoul_text ds 16).
Qed.

Lemma colon_loop_total fuel t gap buf : colon_loop fuel t gap buf <> Abort.
Proof.
  revert t gap buf; induction fuel as [|fuel IH]; intros t gap buf; cbn [colon_loop]; [done|].
  destruct t as [|c t]; [done|]. pose proof (getpiece_total (c :: t)) as Ht.
  destruct (getpiece (c :: t)) as [[piece t']| |]; [|done|done]. cbn [mbind outcome_bind].
  destruct piece, gap; cbn [mbind outcome_bind]; try done; destruct (_ <? _)%nat; try apply IH;
    destruct t' as [|c' t']; try done; try apply IH; destruct (c' =? chr ":"); try done; apply IH.
Qed.

Lemma colon_result t : addr_result (colon t) AF_INET6.
Proof.
  unfold colon. destruct (_ && _); [done|].
  destruct (_ && _).
  { split; [|done]. split; [by_decide|by right]. }
  destruct (_ && _); [done|].
  match goal with |- context [colon_body ?x] => generalize x; intros t' end. unfold colon_body.
  pose proof (colon_loop_total NPIECES t' None []).
  destruct (colon_loop NPIECES t' None []) as [[[rest gap] buf]| |]; [|done|done].
  cbn [mbind outcome_bind]. destruct rest; [|done]. destruct gap.
  - destruct (_ =? _)%nat; [done|apply initaddr6_result].
  - destruct (_ <? _)%nat; [done|apply initaddr6_result].
Qed.

Lemma tryhex_result t flavor : addr_result (tryhex t flavor) AF_INET.
Proof.
  unfold tryhex. destruct (Z.eqb_spec (Z.of_nat (length t)) 8) as [Hl|]; [|done].
  simpl negb. cbv iota. unfold ttoul. rewrite source_text by (by destruct t).
  cbn [defined mbind outcome_bind]. pose proof (ttoul_text_total t 16).
  destruct (ttoul_text t 16) as [ul| |]; [|done|done]. cbn [mbind outcome_bind].
  assert (forall l, Forall byteZ l -> length l = 4%nat -> addr_result (initaddr l AF_INET) AF_INET)
    as Hi.
  { intros l Hb H4. unfold initaddr. simpl. rewrite H4. simpl. split; [|done]. split; [done|by left]. }
  destruct (flavor =? chr "h"); apply Hi.
  - apply Forall_rev, be_encode_bytes.
  - by rewrite length_rev, length_be_encode.
  - apply be_encode_bytes.
  - apply length_be_encode.
Qed.

(** On every text, [ttoaddr_num] returns an error or a well-formed address
    of the family that was asked for, with port 0; it never reads outside its
    input. *)
Theorem ttoaddr_num_sound src srclen t af :
  source src srclen = Some t ->
  match ttoaddr_num src srclen af with
  | Ok a => wf_addr a /\ sin_port a = 0 /\ (af = AF_UNSPEC \/ sin_family a = af)
  | Ugh _ => True
  | Abort => False
  end.
Proof.
  intros Hs. unfold ttoaddr_num, addr_source. rewrite Hs. cbn [defined mbind outcome_bind].
  destruct t as [|c t]; [done|]. cbn [mbind outcome_bind].
  assert (forall r fam, addr_result r fam -> af = AF_UNSPEC \/ fam = af ->
    match r with
    | Ok a => wf_addr a /\ sin_port a = 0 /\ (af = AF_UNSPEC \/ sin_family a = af)
    | Ugh _ => True | Abort => False end) as K.
  { intros [a| |] fam Hr Hf; [|done|done]. destruct Hr as (?&?&<-). auto. }
  unfold ttoaddr_base. destruct (negb _) eqn:Haf; [done|].
  apply negb_false_iff in Haf. rewrite !orb_true_iff, !Z.eqb_eq in Haf.
  destruct (Z.eqb_spec af AF_INET) as [->|H4].
  - assert (AF_INET = AF_UNSPEC \/ AF_INET = AF_INET) by by right. cbn [andb].
    destruct (_ && _); [by eapply K, H; apply tryhex_result|].
    destruct (_ && _); [by eapply K, H; apply tryhex_result|].
    destruct (bool_decide _); [done|]. rewrite orb_true_r.
    pose proof (trydotted_result (c :: t)) as Hd.
    destruct (trydotted (c :: t)) as [a|oops|]; [by eapply K|by destruct (quoted oops)|done].
  - cbn [andb]. destruct (bool_decide _).
    { eapply K; [apply colon_result|]. naive_solver. }
    rewrite orb_false_r. destruct (Z.eqb_spec af AF_UNSPEC) as [->|]; [|done].
    pose proof (trydotted_result (c :: t)) as Hd.
    destruct (trydotted (c :: t)) as [a|oops|]; [|by destruct (quoted oops)|done].
    eapply (K (Ok a)); [done|by left].
Qed.

Lemma ttoaddr_num_sound_witness :
  match ttoaddr_num (str "10.1.2" ++ [0]) 0 AF_INET with
  | Ok a => wf_addr a /\ a = mk_ip AF_INET 0 [10; 1; 2; 0]
  | _ => False
  end.
Proof.
  pose proof (ttoaddr_num_sound (str "10.1.2" ++ [0]) 0 (str "10.1.2") AF_INET eq_refl) as H.
  destruct (ttoaddr_num (str "10.1.2" ++ [0]) 0 AF_INET) as [a| |] eqn:E; [|exfalso|done].
  - split; [tauto|]. vm_compute in E. by injection E as <-.
  - vm_compute in E. discriminate.
Defined.

(** ** Buffers *)

Lemma reverse6_length srcp :
  Forall byteZ srcp -> length srcp = 16%nat -> length (reverse6 srcp) = 73%nat.
Proof.
  intros Hb Hl. unfold reverse6. rewrite length_app.
  assert (forall i, (i < 16)%nat -> length (
    let piece := nth i srcp 0 in
    ul_text (Z.land piece 0xf) 16 2 ++ [46] ++ ul_text (Z.shiftr piece 4) 16 2 ++ [46]) = 4%nat) as H.
  { intros i Hi. assert (byteZ (nth i srcp 0)) as Hc.
    { rewrite List.Forall_forall in Hb. apply Hb, nth_In. lia. }
    assert (forall c, byteZ c -> length (ul_text (Z.land c 0xf) 16 2) = 1%nat /\
                                 length (ul_text (Z.shiftr c 4) 16 2) = 1%nat) as Hd.
    { intros c Hc'. refine (bool_decide_eq_true_1 _ _). revert c Hc'. apply byte_forall.
      vm_compute. reflexivity. }
    destruct (Hd _ Hc) as [H1 H2]. cbv zeta. rewrite !length_app, H1, H2. done. }
  assert (forall l : list nat, Forall (fun i => (i < 16)%nat) l ->
    length (concat ((fun i =>
      let piece := nth i srcp 0 in
      ul_text (Z.land piece 0xf) 16 2 ++ [46] ++ ul_text (Z.shiftr piece 4) 16 2 ++ [46]) <$> l))
    = (4 * length l)%nat) as Hsum.
  { induction 1 as [|i l Hi _ IH]; [done|]. rewrite fmap_cons, concat_cons, length_app, IH, H by done.
    cbn [length]. lia. }
  rewrite Hsum; [done|]. by_decide.
Qed.

(** In the numeric formats the text and its NUL fit in a buffer of
    [ADDRTOT_BUF] bytes, so [ipstr] never truncates; but the text of the IPv6
    reverse-lookup format always needs 74 bytes, one more than [ADDRTOT_BUF], so
    a caller with a buffer of that size loses the final dot. *)
Theorem addrtot_buffer a :
  wf_addr a ->
  (forall format, numeric_format format -> fst (addrtot a format ADDRTOT_BUF) <= ADDRTOT_BUF) /\
  (sin_family a = AF_INET6 ->
   fst (addrtot a (chr "r") ADDRTOT_BUF) = 74 /\ ADDRTOT_BUF = 73 /\
   snd (addrtot a (chr "r") ADDRTOT_BUF) = removelast (reverse6 (sin_addr a)) ++ [0]).
Proof.
  intros Ha. split.
  - intros format Hf. destruct (addrtot_text a format Ha Hf) as (t&Ht&_&_&Hl&_).
    rewrite (addrtot_eq a format t) by done. unfold store_text, ADDRTOT_BUF. simpl. lia.
  - intros Hf. pose proof Ha as [Hb [[Hf' _]|[_ Hl]]]; [rewrite Hf in Hf'; discriminate|].
    pose proof (reverse6_length _ Hb Hl) as Hr.
    rewrite (addrtot_eq a (chr "r") (reverse6 (sin_addr a))) by (done || by rewrite Hf).
    unfold store_text. cbn [fst snd]. rewrite removelast_firstn_len, Hr.
    split; [done|]. split; [done|].
    rewrite (proj2 (Z.ltb_lt _ _)), (proj2 (Z.ltb_lt _ _)) by done. done.
Qed.

Lemma addrtot_buffer_witness :
  fst (addrtot (mk_ip AF_INET6 0 v6loop) (chr "r") ADDRTOT_BUF) = 74.
Proof.
  apply (addrtot_buffer (mk_ip AF_INET6 0 v6loop)); [|done].
  split; [by_decide|by right].
Defined.

(** For an address of an unknown family [addrtot] stores ten bytes at [dst]
    although the caller passed [dstlen] 0, which is documented as [dst] not having
    to be valid: [dstlen - 1] wraps around. *)
Theorem addrtot_invalid_ignores_dstlen a format :
  sin_family a <> AF_INET -> sin_family a <> AF_INET6 ->
  addrtot a format 0 = (10, str "<invalid>" ++ [0]).
Proof.
  intros H4 H6. unfold addrtot, addrbytesptr_read.
  rewrite (proj2 (Z.eqb_neq _ _) H4), (proj2 (Z.eqb_neq _ _) H6). reflexivity.
Qed.

Lemma addrtot_invalid_witness : addrtot (mk_ip 0 0 []) 0 0 = (10, str "<invalid>" ++ [0]).
Proof. by apply (addrtot_invalid_ignores_dstlen (mk_ip 0 0 []) 0). Defined.

(** ** The regression tables of ttoaddr.c and addrtot.c *)

Record rtab_row := mk_rtab {
  r_input : list Z; r_numonly : bool; r_format : Z; r_expectfailure : bool;
  r_output : option (list Z)
}.

Definition reverse_1_2_3_4 : list Z :=
  str "4.0.0.0.3.0.0.0.0.0.0.0.0.0.0.0.0.0.0.0.0.0.0.0.2.0.0.0.1.0.0.0.IP6.ARPA.".

Definition ttoaddr_rtab : list rtab_row :=
  [mk_rtab (str "1.2.3.0") false 0 false (Some (str "1.2.3.0"));
   mk_rtab (str "1:2::3:4") false 0 false (Some (str "1:2::3:4"));
   mk_rtab (str "1:2::3:4") false (chr "Q") false (Some (str "1:2:0:0:0:0:3:4"));
   mk_rtab (str "1:2:0:0:3:4:0:0") false 0 false (Some (str "1:2::3:4:0:0"));
   mk_rtab (str "www.libreswan.org") false 0 false (Some (str "193.110.157.101"));
   mk_rtab (str "www.libreswan.org") true 0 true (Some (str "1.2.3.4"));
   mk_rtab (str "1.2.3.4") false (chr "r") false (Some (str "4.3.2.1.IN-ADDR.ARPA."));
   mk_rtab (str "1:2::3:4") false (chr "r") false (Some reverse_1_2_3_4)].

Definition addrtot_rtab : list rtab_row :=
  [mk_rtab (str "1.2.3.0") false 0 false (Some (str "1.2.3.0"));
   mk_rtab (str "1:2::3:4") false 0 false (Some (str "1:2::3:4"));
   mk_rtab (str "1:2::3:4") false (chr "Q") false (Some (str "1:2:0:0:0:0:3:4"));
   mk_rtab (str "1:2:0:0:3:4:0:0") false 0 false (Some (str "1:2::3:4:0:0"));
   mk_rtab (str "1.2.3.4") false (chr "r") false (Some (str "4.3.2.1.IN-ADDR.ARPA."));
   mk_rtab (str "1:2::3:4") false (chr "r") false (Some reverse_1_2_3_4)].

Section Regress.
Context (gethostbyname2 : list Z -> Z -> option (Z * list Z)).
Context (getnetbyname : list Z -> option (Z * Z)).

(** One row of [regress]: convert, check that failure was expected, convert back
    into a buffer of 100 bytes, and compare without regard to case. *)
Definition addr_regress_row (r : rtab_row) : bool :=
  let n := Z.of_nat (length (r_input r)) in
  match (if r_numonly r then ttoaddr_num (r_input r) n 0
         else ttoaddr gethostbyname2 getnetbyname (r_input r) n AF_UNSPEC) with
  | Abort => false
  | Ugh _ => r_expectfailure r
  | Ok a =>
      negb (r_expectfailure r) &&
      (let '(n, buf) := addrtot a (r_format r) 100 in
       match r_output r, cstring buf with
       | None, _ => n =? 0
       | Some out, Some t => negb (n =? 0) && bool_decide (tolower <$> out = tolower <$> t)
       | _, _ => false
       end)
  end.

Definition addr_regress : bool :=
  forallb addr_regress_row ttoaddr_rtab && forallb addr_regress_row addrtot_rtab.

End Regress.

(** The lookup that the tables rely on. *)
Definition libreswan_host (name : list Z) (af : Z) : option (Z * list Z) :=
  if bool_decide (name = str "www.libreswan.org") && (af =? AF_INET)
  then Some (AF_INET, [193; 110; 157; 101]) else None.

(** The definitions pass the regression tables of ttoaddr.c and addrtot.c,
    with a resolver that knows the one name in them. *)
Theorem address_regression : addr_regress libreswan_host (fun _ => None) = true.
Proof. vm_compute. reflexivity. Qed.

(** * Comparing addresses *)

Lemma be_decode_cons x a :
  byteZ x -> Forall byteZ a -> be_decode (x :: a) = x * 2 ^ (8 * Z.of_nat (length a)) + be_decode a.
Proof.
  intros Hx Ha. revert x Hx. induction a as [|b a IH] using rev_ind; intros x Hx.
  - pose proof (be_decode_snoc [] x) as E. cbn [app] in E. rewrite E, lor_shift8 by done.
    change (be_decode []) with 0. cbn [length]. change (2 ^ (8 * Z.of_nat 0)) with 1. lia.
  - apply Forall_app in Ha as [Ha Hb]. inversion_clear Hb as [|? ? Hb0 _].
    change (x :: a ++ [b]) with ((x :: a) ++ [b]).
    rewrite !be_decode_snoc, !lor_shift8, IH, length_app by done. cbn [length].
    replace (8 * Z.of_nat (length a + 1)) with (8 + 8 * Z.of_nat (length a)) by lia.
    rewrite Z.pow_add_r by lia. change (2 ^ 8) with 256. lia.
Qed.

(** [memcmp] orders byte strings of one length as the numbers they encode. *)
Lemma memcmp_compare a b :
  Forall byteZ a -> Forall byteZ b -> length a = length b ->
  memcmp a b = match be_decode a ?= be_decode b with Lt => -1 | Eq => 0 | Gt => 1 end.
Proof.
  intros Ha. revert b; induction Ha as [|x a Hx Ha IH]; intros [|y b] Hb Hl; try done.
  inversion_clear Hb as [|? ? Hy Hb']. injection Hl as Hl.
  rewrite !be_decode_cons by done. cbn [memcmp]. rewrite <- Hl.
  pose proof (be_decode_bound a Ha). pose proof (be_decode_bound b Hb') as Bb. rewrite <- Hl in Bb.
  set (k := 2 ^ (8 * Z.of_nat (length a))) in *.
  destruct (Z.ltb_spec x y).
  - rewrite (proj2 (Z.compare_lt_iff _ _)) by nia. done.
  - destruct (Z.ltb_spec y x).
    + rewrite (proj2 (Z.compare_gt_iff _ _)) by nia. done.
    + replace y with x by lia. rewrite IH by done.
      destruct (Z.compare_spec (be_decode a) (be_decode b)) as [->|?|?].
      * by rewrite Z.compare_refl.
      * by rewrite (proj2 (Z.compare_lt_iff _ _)) by lia.
      * by rewrite (proj2 (Z.compare_gt_iff _ _)) by lia.
Qed.

(** The number that an IPv4 address stands for: [ntohl(sin_addr.s_addr)]. *)
Definition v4_addr (a : ip_address) : Prop :=
  sin_family a = AF_INET /\ length (sin_addr a) = 4%nat /\ Forall byteZ (sin_addr a).

Lemma addrcmp_v4 a b :
  v4_addr a -> v4_addr b ->
  addrcmp a b = match be_decode (sin_addr a) ?= be_decode (sin_addr b)
                with Lt => -1 | Eq => 0 | Gt => 1 end.
Proof.
  intros (Fa&La&Ba) (Fb&Lb&Bb). unfold addrcmp, addrtypeof, addrbytesptr_read. rewrite Fa, Fb.
  change (AF_INET =? AF_INET) with true. cbn [negb]. change (4 <? 4) with false. cbv iota zeta.
  change (Z.to_nat 4) with 4%nat. rewrite !take_ge by lia. rewrite memcmp_compare by (done || lia).
  by destruct (_ ?= _).
Qed.
