(* ===== verification/Subnet.v ===== *)
(** Subnets, masks and ranges: lib/libswan/{sameaddr,initsubnet,subnettypeof,portof,ttosubnet,
    subnettot,rangetosubnet,iprange,ttorange}.c and linux/net/ipsec/{goodmask,subnetof}.c.

    Ports and IPv4 masks are held as the numbers that [ntohs] and [ntohl] give; the code only
    tests them against 0, converts them, or combines them bit by bit, which commutes with
    swapping bytes. A pointer into a text is the list of bytes from there to the end of the
    object. *)
From S2P Require Import Prelude Numbers Address AddressText.

(** [ip_subnet], [ip_range] and [ip_said] of linux/include/libreswan.h *)
Record ip_subnet := mk_subnet {
  addr : ip_address;
  maskbits : Z
}.

Record ip_range := mk_range {
  r_start : ip_address;
  r_end : ip_address
}.

Record ip_said := mk_said {
  dst : ip_address;
  spi : Z;
  proto : Z
}.

#[export] Instance ip_subnet_eq_dec : EqDecision ip_subnet.
Proof. solve_decision. Defined.
#[export] Instance ip_range_eq_dec : EqDecision ip_range.
Proof. solve_decision. Defined.
#[export] Instance ip_said_eq_dec : EqDecision ip_said.
Proof. solve_decision. Defined.

(** * portof.c *)

Definition portof (src : ip_address) : Z :=
  if (sin_family src =? AF_INET) || (sin_family src =? AF_INET6) then sin_port src else -1.

Definition setportof (port : Z) (a : ip_address) : ip_address :=
  if (sin_family a =? AF_INET) || (sin_family a =? AF_INET6)
  then mk_ip (sin_family a) (u16 port) (sin_addr a) else a.

(** * subnettypeof.c *)

Definition subnettypeof (src : ip_subnet) : Z := sin_family (addr src).

Definition networkof (src : ip_subnet) : ip_address := addr src.

(** The bytes of [buf]. *)
Definition mask_bytes (maskbits n : Z) : list Z :=
  let b := maskbits mod 8 in
  let p := replicate (Z.to_nat (maskbits / 8)) 0xff ++
           (if negb (b =? 0) then [Z.land (Z.shiftl 0xff (8 - b)) 0xff] else []) in
  p ++ replicate (Z.to_nat n - length p) 0.

(** [None] when [*dst] is left alone. *)
Definition maskof (src : ip_subnet) : option ip_address :=
  let n := addrlenof (addr src) in
  if (n * 8 <? u64 (maskbits src)) || (16 <? n) then None
  else match initaddr (mask_bytes (maskbits src) n) (addrtypeof (addr src)) with
       | Ok a => Some a
       | _ => None
       end.

(** [while (b & 0x80) { b <<= 1; n++; }]: eight passes shift out every bit of the byte. *)
Fixpoint leading_ones (fuel : nat) (b n : Z) : Z * Z :=
  match fuel with
  | O => (b, n)
  | S fuel' => if negb (Z.land b 0x80 =? 0) then leading_ones fuel' (Z.shiftl b 1) (n + 1) else (b, n)
  end.

Fixpoint skip_byte (v : Z) (p : list Z) (n : Z) : list Z * Z :=
  match p with
  | x :: p' => if x =? v then skip_byte v p' (n + 8) else (p, n)
  | [] => (p, n)
  end.

Definition count_bytes (p : list Z) : Z :=
  let '(p, n) := skip_byte 0xff p 0 in
  let '(p, n, ok) :=
    match p with
    | b :: p' =>
        if negb (b =? 0) then
          let '(b, n) := leading_ones 8 b n in (p', n, Z.land b 0xff =? 0)
        else (p, n, true)
    | [] => (p, n, true)
    end in
  if negb ok then -1
  else match fst (skip_byte 0 p 0) with [] => n | _ => -1 end.

Definition masktocount (src : ip_address) : Z :=
  let '(n, bp) := addrbytesptr_read src in
  if n =? 0 then -1 else count_bytes bp.

(** * sameaddr.c *)

Fixpoint same_prefix (ap bp : list Z) (nbits : Z) : outcome string bool :=
  if 8 <=? nbits then
    match ap, bp with
    | x :: ap', y :: bp' => if x =? y then same_prefix ap' bp' (nbits - 8) else Ok false
    | _, _ => Abort
    end
  else if 0 <? nbits then
    match ap, bp with
    | x :: _, y :: _ =>
        let m := Z.lnot (Z.shiftr 0xff nbits) in Ok (Z.land x m =? Z.land y m)
    | _, _ => Abort
    end
  else Ok true.

Definition samenbits (a b : ip_address) (nbits : Z) : outcome string bool :=
  if negb (addrtypeof a =? addrtypeof b) then Ok false
  else
    let '(n, ap) := addrbytesptr_read a in
    if n =? 0 then Ok false
    else
      let '(_, bp) := addrbytesptr_read b in
      if n * 8 <? nbits then Ok false else same_prefix ap bp nbits.

Definition samesubnet (a b : ip_subnet) : bool :=
  if negb (sameaddr (addr a) (addr b)) then false
  else if negb (maskbits a =? maskbits b) then false
  else true.

Definition subnetishost (a : ip_subnet) : bool := maskbits a =? addrlenof (addr a) * 8.

Definition samesaid (a b : ip_said) : bool :=
  if negb (spi a =? spi b) then false
  else if negb (sameaddr (dst a) (dst b)) then false
  else if negb (proto a =? proto b) then false
  else true.

Definition sameaddrtype (a b : ip_address) : bool := addrtypeof a =? addrtypeof b.
Definition samesubnettype (a b : ip_subnet) : bool := subnettypeof a =? subnettypeof b.

Definition addrinsubnet (a : ip_address) (s : ip_subnet) : outcome string bool :=
  if negb (addrtypeof a =? subnettypeof s) then Ok false
  else samenbits a (addr s) (maskbits s).

Definition subnetinsubnet (a b : ip_subnet) : outcome string bool :=
  if negb (subnettypeof a =? subnettypeof b) then Ok false
  else if maskbits a <? maskbits b then Ok false
  else samenbits (addr a) (addr b) (maskbits b).

(** * initsubnet.c *)

(** The loop over the bytes that hold host bits; [m] covers those of the first one. *)
Fixpoint clear_host (die : bool) (m : Z) (p : list Z) : outcome string (list Z) :=
  match p with
  | [] => Ok []
  | b :: p' =>
      b' ← (if negb (Z.land b m =? 0) then
              if die then Ugh "improper subnet, host-part bits on" else Ok (Z.land b (Z.lnot m))
            else Ok b);
      rest ← clear_host die 0xff p';
      Ok (b' :: rest)
  end.

Definition initsubnet (a : ip_address) (count clash : Z) : outcome string ip_subnet :=
  let '(n, p) := addrbytesptr_read a in
  if n =? 0 then Ugh "unknown address family"
  else
    die ← (if clash =? chr "0" then Ok false else if clash =? chr "x" then Ok true
           else Ugh "unknown clash-control value in initsubnet");
    let c := Z.quot count 8 in
    if n <? c then Ugh "impossible mask count"
    else
      passert (0 <=? c) ;;
      let k := Z.to_nat c in
      let c := Z.rem count 8 in
      m ← (if (0 <? n - Z.of_nat k) && negb (c =? 0)
           then passert (0 <=? c) ;; Ok (Z.shiftr 0xff c) else Ok 0xff);
      host ← clear_host die m (drop k p);
      Ok (mk_subnet (mk_ip (sin_family a) (sin_port a) (take k p ++ host)) count).

Definition addrtosubnet (a : ip_address) : outcome string ip_subnet :=
  let n := addrlenof a in
  if n =? 0 then Ugh "unknown address family" else Ok (mk_subnet a (n * 8)).

(** * rangetosubnet.c *)

(** The bytes that both ends share. *)
Fixpoint net_bytes (f t : list Z) (nnet : Z) : list Z * list Z * Z :=
  match f, t with
  | x :: f', y :: t' => if x =? y then net_bytes f' t' (nnet + 8) else (f, t, nnet)
  | _, _ => (f, t, nnet)
  end.

(** [while ((fb & m) == (tb & m))]. Once [m] is 0 the condition holds for ever: out of fuel
    the loop has not ended. *)
Fixpoint mid_loop (fuel : nat) (fb tb m nnet : Z) : outcome string (Z * Z * Z) :=
  match fuel with
  | O => Abort
  | S fuel' =>
      if Z.land fb m =? Z.land tb m
      then mid_loop fuel' (Z.land fb (Z.lnot m)) (Z.lor tb m) (Z.shiftr m 1) (nnet + 1)
      else Ok (fb, tb, nnet)
  end.

(** The bytes that are 0 in one end and all ones in the other. *)
Fixpoint host_bytes (f t : list Z) : list Z :=
  match f, t with
  | x :: f', y :: t' => if (x =? 0) && (y =? 0xff) then host_bytes f' t' else f
  | _, _ => f
  end.

(** The byte in which the network part ends, unless the boundary is in front of it. *)
Definition mid_byte (f t : list Z) (nnet : Z) : outcome string (list Z * list Z * Z) :=
  match f, t with
  | x :: f', y :: t' =>
      if negb ((x =? 0) && (y =? 0xff)) then
        '(fb, tb, nnet) ← mid_loop 9 x y 0x80 nnet;
        if negb (fb =? 0) || negb (tb =? 0xff) then Ugh "not a valid subnet" else Ok (f', t', nnet)
      else Ok (f, t, nnet)
  | _, _ => Ok (f, t, nnet)
  end.

(** [nnet] *)
Definition net_bits (fp tp : list Z) : outcome string Z :=
  let '(f, t, nnet) := net_bytes fp tp 0 in
  '(f, t, nnet) ← mid_byte f t nnet;
  match host_bytes f t with [] => Ok nnet | _ => Ugh "invalid subnet" end.

Definition rangetosubnet (from to : ip_address) : outcome string ip_subnet :=
  if negb (addrtypeof from =? addrtypeof to) then Ugh "mismatched address types"
  else
    let '(n, fp) := addrbytesptr_read from in
    if n =? 0 then Ugh "unknown address type"
    else
      let '(n2, tp) := addrbytesptr_read to in
      if negb (n =? n2) then Ugh "internal size mismatch in rangetosubnet"
      else
        nnet ← net_bits fp tp;
        initsubnet from nnet (chr "x").

(** * iprange.c *)

(** [d = h - l] from the last byte to the first: the carry, the bytes and [lastnz], where
    [j] is the index of the first byte. *)
Fixpoint sub_bytes (hp lp : list Z) (j : Z) : Z * list Z * Z :=
  match hp, lp with
  | h :: hp', l :: lp' =>
      let '(carry, dp, lastnz) := sub_bytes hp' lp' (j + 1) in
      let val := h - l - carry in
      let '(val, carry) := if val <? 0 then (val + 0x100, 1) else (val, 0) in
      (carry, val :: dp, if negb (val =? 0) then j else lastnz)
  | _, _ => (0, [], j)
  end.

(** The complement of a negative difference. *)
Fixpoint neg_bytes (dp : list Z) (j : Z) : Z * list Z * Z :=
  match dp with
  | d :: dp' =>
      let '(carry, dp'', lastnz) := neg_bytes dp' (j + 1) in
      let val := 0xff - d + carry in
      let '(val, carry) := if 0x100 <=? val then (val - 0x100, 1) else (val, 0) in
      (carry, val :: dp'', if negb (val =? 0) then j else lastnz)
  | [] => (1, [], j)
  end.

(** [for (m = 0x80; (m & d) == 0; m >>= 1) bo++]; it does not end when [d] is 0. *)
Fixpoint leftmost_bit (fuel : nat) (m d bo : Z) : outcome string Z :=
  match fuel with
  | O => Abort
  | S fuel' => if Z.land m d =? 0 then leftmost_bit fuel' (Z.shiftr m 1) d (bo + 1) else Ok bo
  end.

Definition iprange_bits (low high : ip_address) : outcome string Z :=
  if negb (addrtypeof high =? addrtypeof low) then Ok (-1)
  else
    let '(n, hp) := addrbytesptr_read high in
    if n =? 0 then Ok (-1)
    else
      let '(n2, lp) := addrbytesptr_read low in
      if negb (n =? n2) then Ok (-1)
      else
        let '(carry, dp, lastnz) := sub_bytes hp lp 0 in
        let '(dp, lastnz) :=
          if negb (carry =? 0) then let '(_, dp, lastnz) := neg_bytes dp 0 in (dp, lastnz)
          else (dp, lastnz) in
        bo ← (if negb (lastnz =? n) then
                d ← defined (dp !! Z.to_nat lastnz);
                leftmost_bit 9 0x80 d 0
              else Ok 0);
        Ok ((n - lastnz) * 8 - bo).

(** * Text *)

(** [memchr(s, c, n)] as an index; it may not look beyond the object. *)
Fixpoint memchr_at (s : list Z) (c : Z) (n : nat) : outcome string (option Z) :=
  match n, s with
  | O, _ => Ok None
  | S _, [] => Abort
  | S n', x :: s' =>
      if x =? c then Ok (Some 0)
      else i ← memchr_at s' c n'; Ok (option_map Z.succ i)
  end.

Definition memchr (s : list Z) (c n : Z) : outcome string (option Z) := memchr_at s c (Z.to_nat n).

(** ** ttosubnet.c *)

Definition DEFAULTSUBNET : list Z := str "%default".
Definition defis4 : list Z := str "0/0" ++ [0].
Definition defis6 : list Z := str "::/0" ++ [0].

(** The text, its length, and what stands for [%default]. *)
Definition subnet_source (src : list Z) (srclen af : Z) : outcome string (list Z * Z) :=
  srclen ← (if srclen =? 0 then
              t ← defined (cstring src);
              match t with [] => Ugh "empty string" | _ => Ok (Z.of_nat (length t)) end
            else Ok srclen);
  if (srclen =? 8) && bool_decide (take 8 src = DEFAULTSUBNET) then
    if af =? AF_INET then Ok (defis4, 3)
    else if af =? AF_INET6 then Ok (defis6, 4)
    else Ugh "unknown address family with %default subnet not allowed."
  else Ok (src, srclen).

(** The mask, as a bit count or, for IPv4, as an address. *)
Definition subnet_mask (mask : list Z) (mlen nbits af : Z) : outcome string Z :=
  match ttoulb mask mlen 10 nbits with
  | Ok bc => Ok bc
  | Abort => Abort
  | Ugh _ =>
      if af =? AF_INET then
        masktmp ← ttoaddr_num mask mlen af;
        let i := masktocount masktmp in
        if i <? 0 then Ugh "non-contiguous or otherwise erroneous mask" else Ok i
      else Ugh "masks are not permitted for IPv6 addresses"
  end.

Definition ttosubnet (src : list Z) (srclen af : Z) : outcome string ip_subnet :=
  '(src, srclen) ← subnet_source src srclen af;
  slash ← memchr src (chr "/") srclen;
  match slash with
  | None => Ugh "no / in subnet specification"
  | Some i =>
      let mask := drop (Z.to_nat (i + 1)) src in
      let mlen := srclen - (i + 1) in
      addrtmp ← ttoaddr_num src i af;
      let af := if af =? AF_UNSPEC then addrtypeof addrtmp else af in
      nbits ← (if af =? AF_INET then Ok 32 else if af =? AF_INET6 then Ok 128
               else Ugh "unknown address family in ttosubnet");
      colon ← memchr mask (chr ":") mlen;
      '(addrtmp, mlen) ←
        match colon with
        | None => Ok (setportof 0 addrtmp, mlen)
        | Some c =>
            port ← ttoulb (drop (Z.to_nat (c + 1)) mask) (mlen - (c + 1)) 0 0xFFFF;
            Ok (setportof port addrtmp, c)
        end;
      i ← subnet_mask mask mlen nbits af;
      initsubnet addrtmp i (chr "0")
  end.

(** ** subnettot.c *)

Definition ULTOT_BUF : Z := 22 + 1.

(** The result, and the bytes that are stored at [dst]. *)
Definition subnettot (sub : ip_subnet) (format dstlen : Z) : Z * list Z :=
  if negb (format =? 0) then (0, [])
  else
    let '(len, t) := addrtot (addr sub) format dstlen in
    let '(p, rest) := if len <? dstlen then (removelast t ++ str "/", dstlen - len) else (t, 0) in
    let '(l, m) := ultot (u64 (maskbits sub)) 10 rest in
    (len + l, p ++ m).

(** [strlen(dst)] looks at what [subnettot] stored. *)
Definition subnetporttot (sub : ip_subnet) (format dstlen : Z) : outcome string (Z * list Z) :=
  let '(len, t) := subnettot sub format dstlen in
  if portof (addr sub) =? 0 then Ok (len, t)
  else
    s ← defined (cstring t);
    let alen := Z.of_nat (length s) in
    if dstlen <? alen + ULTOT_BUF then Ok (len + ULTOT_BUF, t)
    else
      let '(l, m) := ultot (u16 (portof (addr sub))) 10 (dstlen - (alen + 1)) in
      Ok (len + l, s ++ str ":" ++ m).

(** ** ttorange.c *)

Definition ttorange (src : list Z) (srclen af : Z) (non_zero : bool) : outcome string ip_range :=
  if negb (af =? AF_INET) then Ugh "ttorange only supports IPv4 addresses"
  else
    srclen ← (if srclen =? 0 then t ← defined (cstring src); Ok (Z.of_nat (length t)) else Ok srclen);
    dash ← memchr src (chr "-") srclen;
    match dash with
    | None => Ugh "missing '-' in ip address range"
    | Some i =>
        addr_start_tmp ← ttoaddr_num src i af;
        addr_end_tmp ← ttoaddr_num (drop (Z.to_nat (i + 1)) src) (srclen - (i + 1)) af;
        if be_decode (sin_addr addr_end_tmp) <? be_decode (sin_addr addr_start_tmp)
        then Ugh "start of range must not be greater than end"
        else if non_zero && (be_decode (sin_addr addr_start_tmp) =? 0)
        then Ugh "'0.0.0.0' not allowed in range"
        else Ok (mk_range addr_start_tmp addr_end_tmp)
    end.

(** The dash takes the place of the NUL of the first address if something can follow it. *)
Definition rangetot (src : ip_range) (format dstlen : Z) : Z * list Z :=
  let '(n, t) := addrtot (r_start src) format dstlen in
  let l := n - 1 in
  let t := if (0 <? dstlen) && (l <? dstlen - 1) then removelast t ++ str "-" else t in
  let l := l + 1 in
  let m := if l <? dstlen then l else dstlen in
  let '(k, t2) := addrtot (r_end src) format (dstlen - m) in
  (l + k, t ++ t2).

(** * goodmask.c and subnetof.c *)

Definition ABITS : Z := 32.

(** Clear the rightmost contiguous string of 1-bits of an [unsigned long]. *)
Definition CRCS1B (x : Z) : Z := Z.land (u64 (Z.lor x (u64 (x - 1)) + 1)) x.
Definition TOPBIT : Z := Z.shiftl 1 31.

Definition goodmask (mask : Z) : bool :=
  (mask =? 0) || ((CRCS1B mask =? 0) && negb (Z.land mask TOPBIT =? 0)).

(** One step of the search: look for the mask's end in [probe], then move it up. *)
Definition search_step (probe bit shift : Z) (s : Z * Z) : Z * Z :=
  let '(m, masklen) := s in
  if negb (Z.land m (Z.shiftl probe 1) =? 0)
  then (u64 (Z.shiftl m shift), Z.lor masklen bit) else (m, masklen).

Definition masktobits (mask : Z) : Z :=
  if negb (goodmask mask) then -1
  else if negb (Z.land mask 1 =? 0) then 32
  else
    snd (search_step 0x40000000 0x01 0
        (search_step 0x30000000 0x02 2
        (search_step 0x0f000000 0x04 4
        (search_step 0x00ff0000 0x08 8
        (search_step 0x0000ffff 0x10 16 (mask, 0)))))).

Definition bitstomask (n : Z) : Z :=
  if (0 <? n) && (n <=? ABITS) then u32 (Z.lnot (Z.shiftl 1 (ABITS - n) - 1)) else 0.

(** The loop over the words of an IPv6 mask. *)
Fixpoint mask6_words (words : list Z) (bits : Z) : Z :=
  match words with
  | [] => bits
  | w :: words' =>
      if w =? 0xffffffff then mask6_words words' (bits + 32)
      else if negb (goodmask w) then -1
      else bits + masktobits w
  end.

Definition mask6tobits (mask : list Z) : Z := mask6_words (take 4 mask) 0.

(** [result] starts as the [garbage] of the stack frame. *)
Definition bitstomask6 (garbage : list Z) (n : Z) : list Z :=
  let word k := u32 (Z.lnot (Z.shiftl 1 (k - n) - 1)) in
  if (0 <? n) && (n <=? 32) then [word 32; 0; 0; 0]
  else if (32 <? n) && (n <=? 64) then [0xffffffff; word 64; 0; 0]
  else if (64 <? n) && (n <=? 96) then [0xffffffff; 0xffffffff; word 96; 0]
  else if (96 <? n) && (n <=? 128) then [0xffffffff; 0xffffffff; 0xffffffff; word 128]
  else <[0%nat := 0]> garbage.

Definition subnetof (a mask : Z) : Z := Z.land a mask.
Definition hostof (a mask : Z) : Z := Z.land a (u32 (Z.lnot mask)).
Definition broadcastof (a mask : Z) : Z := Z.lor a (u32 (Z.lnot mask)).
