(* ===== verification/SubnetTheorems.v ===== *)
(** Subnets as sets of addresses: what the routines of [Subnet] mean for the numbers that
    addresses stand for, and the round trips of their texts and masks. *)
From S2P Require Import Prelude Numbers Address AddressText Subnet.

(** * Subnets as intervals *)

(** The bits of an address, and the number it stands for. *)
Definition addr_bits (a : ip_address) : Z := 8 * Z.of_nat (length (sin_addr a)).
Definition addr_value (a : ip_address) : Z := be_decode (sin_addr a).

(** The number of bits that are free in a subnet. *)
Definition host_bits (s : ip_subnet) : Z := addr_bits (addr s) - maskbits s.

(** A proper subnet: the mask fits the address, and the host bits are zero. *)
Definition wf_subnet (s : ip_subnet) : Prop :=
  wf_addr (addr s) /\ 0 <= maskbits s <= addr_bits (addr s) /\
  addr_value (addr s) mod 2 ^ host_bits s = 0.

(** [a] is one of the addresses of [s]. *)
Definition in_subnet (a : ip_address) (s : ip_subnet) : Prop :=
  sin_family a = sin_family (addr s) /\
  addr_value (addr s) <= addr_value a < addr_value (addr s) + 2 ^ host_bits s.

Lemma wf_addr_read a :
  wf_addr a ->
  addrbytesptr_read a = (Z.of_nat (length (sin_addr a)), sin_addr a) /\
  0 < Z.of_nat (length (sin_addr a)) <= 16.
Proof. intros [_ [[H L]|[H L]]]; unfold addrbytesptr_read; rewrite H, L; by split. Qed.

Lemma wf_addr_length a b :
  wf_addr a -> wf_addr b -> sin_family a = sin_family b -> length (sin_addr a) = length (sin_addr b).
Proof. intros [_ [[H L]|[H L]]] [_ [[H' L']|[H' L']]] E; first [congruence | rewrite H, H' in E; discriminate]. Qed.

Lemma addr_value_bound a : wf_addr a -> 0 <= addr_value a < 2 ^ addr_bits a.
Proof. intros [Hb _]. by apply be_decode_bound. Qed.

Lemma pow2_bytes k n : 0 <= k <= 8 -> 2 ^ (8 * Z.of_nat (S n) - k) = 2 ^ (8 - k) * 2 ^ (8 * Z.of_nat n).
Proof. intros Hk. rewrite <- Z.pow_add_r by lia. f_equal. lia. Qed.

(** Dividing away the rest of the bytes, and part of the first one. *)
Lemma be_decode_div x a k :
  byteZ x -> Forall byteZ a -> 0 <= k <= 8 ->
  be_decode (x :: a) / 2 ^ (8 * Z.of_nat (S (length a)) - k) = x / 2 ^ (8 - k).
Proof.
  intros Hx Ha Hk. rewrite be_decode_cons by done. pose proof (be_decode_bound a Ha).
  rewrite pow2_bytes, (Z.mul_comm (2 ^ (8 - k))), <- Z.div_div, Z.div_add_l, (Z.div_small (be_decode a)) by lia.
  by rewrite Z.add_0_r.
Qed.

Lemma be_decode_div_tail x a j :
  byteZ x -> Forall byteZ a -> 0 <= j <= 8 * Z.of_nat (length a) ->
  be_decode (x :: a) / 2 ^ j = x * 2 ^ (8 * Z.of_nat (length a) - j) + be_decode a / 2 ^ j /\
  0 <= be_decode a / 2 ^ j < 2 ^ (8 * Z.of_nat (length a) - j).
Proof.
  intros Hx Ha Hj. rewrite be_decode_cons by done. pose proof (be_decode_bound a Ha).
  replace (2 ^ (8 * Z.of_nat (length a))) with (2 ^ (8 * Z.of_nat (length a) - j) * 2 ^ j) in *
    by (rewrite <- Z.pow_add_r by lia; f_equal; lia).
  rewrite Z.mul_assoc, Z.div_add_l by lia. split; [done|]. split; [apply Z.div_pos; lia|].
  apply Z.div_lt_upper_bound; lia.
Qed.

(** Masking out low bits. *)
Lemma land_lnot_ones x j : 0 <= j -> Z.land x (Z.lnot (2 ^ j - 1)) = x / 2 ^ j * 2 ^ j.
Proof.
  intros Hj. rewrite Z.sub_1_r, <- Z.ones_equiv, <- Z.ldiff_land, Z.ldiff_ones_r by done.
  by rewrite Z.shiftl_mul_pow2, Z.shiftr_div_pow2.
Qed.

(** * samenbits *)

Lemma same_prefix_spec a : forall b k,
  Forall byteZ a -> Forall byteZ b -> length a = length b -> 0 <= k <= 8 * Z.of_nat (length a) ->
  same_prefix a b k =
  Ok (be_decode a / 2 ^ (8 * Z.of_nat (length a) - k) =? be_decode b / 2 ^ (8 * Z.of_nat (length a) - k)).
Proof.
  induction a as [|x a IH]; intros [|y b] k Ha Hb Hl Hk; try done.
  { cbn [length] in Hk. replace k with 0 by lia. done. }
  apply Forall_cons in Ha as [Hx Ha]. apply Forall_cons in Hb as [Hy Hb]. injection Hl as Hl. cbn [length] in *.
  cbn [same_prefix]. destruct (Z.leb_spec 8 k).
  - set (j := 8 * Z.of_nat (S (length a)) - k).
    assert (j = 8 * Z.of_nat (length a) - (k - 8)) as Ej by lia.
    destruct (be_decode_div_tail x a j Hx Ha ltac:(lia)) as [-> Ba].
    destruct (be_decode_div_tail y b j Hy Hb ltac:(lia)) as [-> Bb]. rewrite <- Hl in *.
    destruct (Z.eqb_spec x y) as [->|Hne].
    + rewrite IH, <- Ej by (done || lia). f_equal. apply eq_true_iff_eq. rewrite !Z.eqb_eq. lia.
    + f_equal. symmetry. apply Z.eqb_neq. nia.
  - destruct (Z.ltb_spec 0 k) as [H0|H0].
    + rewrite be_decode_div, Hl, be_decode_div by (done || lia). f_equal.
      replace (Z.shiftr 255 k) with (2 ^ (8 - k) - 1)
        by (apply Z.eqb_eq; apply (below_forall 8 (fun k => 2 ^ (8 - k) - 1 =? Z.shiftr 255 k)); [reflexivity|lia]).
      rewrite !land_lnot_ones by lia. apply eq_true_iff_eq. rewrite !Z.eqb_eq. nia.
    + replace k with 0 by lia. f_equal. symmetry. apply Z.eqb_eq. rewrite Z.sub_0_r.
      rewrite !Z.div_small; [done| |]; [replace (S (length a)) with (length (y :: b)) by (cbn; lia)|
        change (S (length a)) with (length (x :: a))]; apply be_decode_bound; by constructor.
Qed.

Lemma samenbits_spec a b k :
  wf_addr a -> wf_addr b -> sin_family a = sin_family b -> 0 <= k <= addr_bits a ->
  samenbits a b k = Ok (addr_value a / 2 ^ (addr_bits a - k) =? addr_value b / 2 ^ (addr_bits a - k)).
Proof.
  intros Ha Hb Hf Hk. unfold samenbits, addrtypeof. rewrite Hf, Z.eqb_refl. cbn [negb].
  destruct (wf_addr_read a Ha) as [-> Hl]. destruct (wf_addr_read b Hb) as [-> _].
  rewrite (proj2 (Z.eqb_neq _ 0)) by lia. unfold addr_bits in Hk.
  rewrite (proj2 (Z.ltb_ge _ k)) by lia. apply same_prefix_spec; [apply Ha|apply Hb|by apply wf_addr_length|done].
Qed.

(** Sharing the network bits of an aligned number is lying in its interval. *)
Lemma same_quotient v base h :
  0 <= h -> base mod 2 ^ h = 0 -> v / 2 ^ h = base / 2 ^ h <-> base <= v < base + 2 ^ h.
Proof.
  intros Hh Hb. assert (0 < 2 ^ h) by lia. pose proof (Z.div_mod base (2 ^ h) ltac:(lia)).
  pose proof (Z.div_mod v (2 ^ h) ltac:(lia)). pose proof (Z.mod_pos_bound v (2 ^ h) ltac:(lia)). nia.
Qed.

(** * initsubnet *)

Lemma be_decode_app a b :
  Forall byteZ a -> Forall byteZ b ->
  be_decode (a ++ b) = be_decode a * 2 ^ (8 * Z.of_nat (length b)) + be_decode b.
Proof.
  intros Ha Hb. induction Ha as [|x a Hx Ha IH]; [done|]. cbn [app].
  rewrite !be_decode_cons, IH, length_app by (done || by apply Forall_app).
  rewrite Nat2Z.inj_add, Z.mul_add_distr_l, Z.pow_add_r by lia. ring.
Qed.

Lemma land_mask x j : 0 <= j -> Z.land x (2 ^ j - 1) = x mod 2 ^ j.
Proof. intros Hj. by rewrite Z.sub_1_r, <- Z.ones_equiv, Z.land_ones. Qed.

Lemma byte_floor x j : byteZ x -> 0 <= j -> byteZ (x / 2 ^ j * 2 ^ j).
Proof.
  unfold byteZ. intros Hx Hj. pose proof (Z.div_mod x (2 ^ j) ltac:(lia)).
  pose proof (Z.mod_pos_bound x (2 ^ j) ltac:(lia)). pose proof (Z.div_pos x (2 ^ j)). lia.
Qed.

(** The low [8 * n + j] bits of a number whose low [8 * n] bits are [v]. *)
Lemma mod_bytes x v n j :
  0 <= n -> 0 <= j -> 0 <= v < 2 ^ n -> (x * 2 ^ n + v) mod 2 ^ (j + n) = x mod 2 ^ j * 2 ^ n + v.
Proof.
  intros Hn Hj Hv. rewrite Z.pow_add_r, (Z.mul_comm (2 ^ j)), Z.rem_mul_r, Z.div_add_l, (Z.div_small v) by lia.
  rewrite (Z.add_comm (x * 2 ^ n)), Z.mod_add, Z.mod_small, Z.add_0_r by lia. lia.
Qed.

Lemma floor_mod v h : 0 <= h -> v / 2 ^ h * 2 ^ h = v - v mod 2 ^ h.
Proof. intros Hh. pose proof (Z.div_mod v (2 ^ h) ltac:(lia)). lia. Qed.

Definition host_part (c : Z) (p : list Z) : Z := Z.max 0 (8 * Z.of_nat (length p) - c).

Lemma host_part_cons c x p : 0 <= c < 8 -> host_part c (x :: p) = 8 - c + 8 * Z.of_nat (length p).
Proof. intros Hc. unfold host_part. cbn [length]. lia. Qed.

Lemma clear_host_spec p : forall c,
  Forall byteZ p -> 0 <= c < 8 ->
  clear_host true (2 ^ (8 - c) - 1) p =
    (if be_decode p mod 2 ^ host_part c p =? 0 then Ok p else Ugh "improper subnet, host-part bits on") /\
  exists p', clear_host false (2 ^ (8 - c) - 1) p = Ok p' /\ Forall byteZ p' /\ length p' = length p /\
    be_decode p' = be_decode p - be_decode p mod 2 ^ host_part c p.
Proof.
  induction p as [|x p IH]; intros c Hp Hc; [split; [done|by exists []]|].
  apply Forall_cons in Hp as [Hx Hp]. destruct (IH 0 Hp ltac:(lia)) as [IHx (p'&IH0&Hb'&Hl'&Hd')].
  change (2 ^ (8 - 0) - 1) with 255 in *. pose proof (be_decode_bound p Hp) as Hv.
  replace (host_part 0 p) with (8 * Z.of_nat (length p)) in * by (unfold host_part; lia).
  rewrite (Z.mod_small (be_decode p)) in * by done.
  cbn [clear_host]. rewrite IHx, IH0, land_mask, land_lnot_ones by lia.
  rewrite host_part_cons, be_decode_cons, mod_bytes by (done || lia).
  pose proof (Z.mod_pos_bound x (2 ^ (8 - c)) ltac:(lia)) as Hm. pose proof (floor_mod x (8 - c) ltac:(lia)) as Hf. split.
  - destruct (Z.eqb_spec (x mod 2 ^ (8 - c)) 0) as [->|Hn]; cbn [negb]; rewrite ?bind_Ok, ?Z.mul_0_l, ?Z.add_0_l.
    + by destruct (be_decode p =? 0).
    + rewrite (proj2 (Z.eqb_neq (_ + _) 0)); [done|]. revert Hn Hm Hv. generalize (x mod 2 ^ (8 - c)).
      intros; nia.
  - exists (x / 2 ^ (8 - c) * 2 ^ (8 - c) :: p').
    assert (byteZ (x / 2 ^ (8 - c) * 2 ^ (8 - c))) by (apply byte_floor; [done|lia]).
    split; [|split; [by constructor|split; [by cbn; rewrite Hl'|]]].
    + destruct (Z.eqb_spec (x mod 2 ^ (8 - c)) 0) as [E|Hn]; cbn [negb]; rewrite !bind_Ok; [|done].
      by rewrite Hf, E, Z.sub_0_r.
    + rewrite be_decode_cons, Hd', Hl', Hf by done. ring.
Qed.

(** What [initsubnet] does to the bytes from the boundary on. *)
Lemma initsubnet_eq a count clash :
  wf_addr a -> 0 <= count <= addr_bits a -> clash = chr "0" \/ clash = chr "x" ->
  let k := Z.to_nat (count / 8) in
  initsubnet a count clash =
  (host ← clear_host (clash =? chr "x") (2 ^ (8 - count mod 8) - 1) (drop k (sin_addr a));
   Ok (mk_subnet (mk_ip (sin_family a) (sin_port a) (take k (sin_addr a) ++ host)) count)).
Proof.
  intros Ha Hc Hcl k. unfold initsubnet. destruct (wf_addr_read a Ha) as [-> Hl]. unfold addr_bits in Hc.
  set (n := Z.of_nat (length (sin_addr a))) in *.
  rewrite (proj2 (Z.eqb_neq n 0)), Z.quot_div_nonneg, Z.rem_mod_nonneg by lia.
  pose proof (Z.mod_pos_bound count 8 ltac:(lia)) as Hm. pose proof (Z.div_mod count 8 ltac:(lia)).
  rewrite (proj2 (Z.ltb_ge n (count / 8))), (proj2 (Z.leb_le 0 (count / 8))), (proj2 (Z.leb_le 0 (count mod 8))) by lia.
  assert ((if clash =? chr "0" then Ok false else if clash =? chr "x" then Ok true
           else Ugh "unknown clash-control value in initsubnet") = Ok (clash =? chr "x")) as ->
    by by destruct Hcl as [-> | ->].
  cbn [passert]. rewrite !bind_Ok. fold k.
  assert ((if (0 <? n - Z.of_nat k) && negb (count mod 8 =? 0) then Ok (Z.shiftr 255 (count mod 8)) else Ok 255)
          = Ok (E := string) (2 ^ (8 - count mod 8) - 1)) as ->.
  { destruct (Z.eqb_spec (count mod 8) 0) as [->|Hn]; [by rewrite andb_false_r|].
    rewrite (proj2 (Z.ltb_lt 0 _)) by lia. cbn [negb andb]. f_equal.
    apply Z.eqb_eq, (below_forall 8 (fun c => Z.shiftr 255 c =? 2 ^ (8 - c) - 1)); [reflexivity|lia]. }
  by rewrite bind_Ok.
Qed.

(** The parts of an address, before and from the byte of the boundary. *)
Lemma split_value a count :
  wf_addr a -> 0 <= count <= addr_bits a ->
  let k := Z.to_nat (count / 8) in
  let p := drop k (sin_addr a) in
  Forall byteZ (take k (sin_addr a)) /\ Forall byteZ p /\
  host_part (count mod 8) p = addr_bits a - count /\
  addr_value a = be_decode (take k (sin_addr a)) * 2 ^ (8 * Z.of_nat (length p)) + be_decode p /\
  addr_value a mod 2 ^ (addr_bits a - count) = be_decode p mod 2 ^ (addr_bits a - count).
Proof.
  intros [Hb _] Hc k p. assert (Hp : Forall byteZ p) by by apply Forall_drop.
  assert (Ht : Forall byteZ (take k (sin_addr a))) by by apply Forall_take.
  assert (Hh : host_part (count mod 8) p = addr_bits a - count).
  { unfold host_part, addr_bits, p in *. rewrite length_drop. pose proof (Z.mod_pos_bound count 8).
    pose proof (Z.div_mod count 8). lia. }
  assert (Hv : addr_value a = be_decode (take k (sin_addr a)) * 2 ^ (8 * Z.of_nat (length p)) + be_decode p).
  { unfold addr_value. by rewrite <- (take_drop k (sin_addr a)) at 1; rewrite be_decode_app. }
  do 4 (split; [done|]). rewrite Hv, <- Hh. unfold host_part.
  set (h := Z.max 0 _). replace (8 * Z.of_nat (length p)) with (8 * Z.of_nat (length p) - h + h).
  - rewrite Z.pow_add_r, Z.mul_assoc, Z.add_comm, Z.mod_add by (unfold h; pose proof (Z.mod_pos_bound count 8); lia). done.
  - lia.
Qed.

Lemma initsubnet_spec a count :
  wf_addr a -> 0 <= count <= addr_bits a ->
  (exists s, initsubnet a count (chr "0") = Ok s /\ wf_subnet s /\ maskbits s = count /\ in_subnet a s) /\
  initsubnet a count (chr "x") =
    (if addr_value a mod 2 ^ (addr_bits a - count) =? 0 then Ok (mk_subnet a count)
     else Ugh "improper subnet, host-part bits on").
Proof.
  intros Ha Hc. destruct (split_value a count Ha Hc) as (Ht&Hp&Hh&Hv&Hm). rewrite !initsubnet_eq by auto.
  set (k := Z.to_nat (count / 8)) in *.
  destruct (clear_host_spec _ (count mod 8) Hp (Z.mod_pos_bound count 8 ltac:(lia))) as [Hx (p'&H0&Hb'&Hl'&Hd')].
  change (chr "0" =? chr "x") with false. change (chr "x" =? chr "x") with true. rewrite Hx, H0, bind_Ok, Hh, Hm. split.
  - eexists. split; [reflexivity|].
    assert (Hlen : length (take k (sin_addr a) ++ p') = length (sin_addr a)).
    { rewrite length_app, Hl', <- length_app. by rewrite take_drop. }
    assert (Hval : addr_value (mk_ip (sin_family a) (sin_port a) (take k (sin_addr a) ++ p')) =
                   addr_value a - addr_value a mod 2 ^ (addr_bits a - count)).
    { unfold addr_value at 1. cbn [sin_addr]. rewrite be_decode_app, Hl', Hd', Hh, Hm, Hv by done. lia. }
    assert (Hbits : addr_bits (mk_ip (sin_family a) (sin_port a) (take k (sin_addr a) ++ p')) = addr_bits a)
      by by unfold addr_bits; cbn [sin_addr]; rewrite Hlen.
    unfold wf_subnet, in_subnet, host_bits. cbn [addr maskbits sin_family]. rewrite Hval, Hbits.
    pose proof (Z.mod_pos_bound (addr_value a) (2 ^ (addr_bits a - count)) ltac:(lia)).
    split_and!; try lia; try done.
    + destruct Ha as [Hb Hf]. split; cbn; [by apply Forall_app|]. by rewrite Hlen.
    + rewrite <- floor_mod by lia. apply Z.mod_mul. lia.
  - destruct (be_decode (drop k (sin_addr a)) mod 2 ^ (addr_bits a - count) =? 0); [|done]. rewrite bind_Ok, take_drop. by destruct a.
Qed.

(** [initsubnet] makes a proper subnet of any address and any count of bits it has: with
    clash '0' the one that contains the address, with clash 'x' it reports exactly the
    addresses that are not the first of that subnet. *)
Theorem initsubnet_correct a count :
  wf_addr a -> 0 <= count <= addr_bits a ->
  (exists s, initsubnet a count (chr "0") = Ok s /\ wf_subnet s /\ maskbits s = count /\ in_subnet a s) /\
  initsubnet a count (chr "x") =
    (if addr_value a mod 2 ^ (addr_bits a - count) =? 0 then Ok (mk_subnet a count)
     else Ugh "improper subnet, host-part bits on").
Proof. apply initsubnet_spec. Qed.

Lemma initsubnet_correct_witness :
  (exists s, initsubnet (mk_ip AF_INET 0 [10; 1; 2; 3]) 22 (chr "0") = Ok s /\ wf_subnet s /\ maskbits s = 22 /\
     in_subnet (mk_ip AF_INET 0 [10; 1; 2; 3]) s) /\
  initsubnet (mk_ip AF_INET 0 [10; 1; 2; 3]) 22 (chr "x") = Ugh "improper subnet, host-part bits on".
Proof.
  apply (initsubnet_correct (mk_ip AF_INET 0 [10; 1; 2; 3]) 22); [|by_decide].
  split; [by_decide|]. by left.
Defined.

(** * Membership *)

(** The address of a family's size with a given value. *)
Definition addr_at (a : ip_address) (v : Z) : ip_address :=
  mk_ip (sin_family a) 0 (be_encode (length (sin_addr a)) v).

Lemma addr_at_spec a v :
  wf_addr a -> 0 <= v < 2 ^ addr_bits a ->
  wf_addr (addr_at a v) /\ addr_value (addr_at a v) = v /\ addr_bits (addr_at a v) = addr_bits a.
Proof.
  intros [Hb Hf] Hv. unfold addr_at, wf_addr, addr_value, addr_bits. cbn [sin_addr sin_family].
  rewrite length_be_encode, be_decode_encode. split; [split; [apply be_encode_bytes|done]|].
  split; [by apply Z.mod_small|done].
Qed.

(** The first and the last address of a subnet are addresses. *)
Lemma subnet_end s :
  wf_subnet s -> 0 <= host_bits s /\ addr_value (addr s) + 2 ^ host_bits s <= 2 ^ addr_bits (addr s).
Proof.
  intros (Ha&Hm&Hz). unfold host_bits in *. set (h := addr_bits (addr s) - maskbits s) in *.
  assert (0 <= h) by lia. split; [done|]. pose proof (addr_value_bound _ Ha).
  pose proof (Z.div_mod (addr_value (addr s)) (2 ^ h) ltac:(lia)) as Hd. rewrite Hz in Hd.
  replace (2 ^ addr_bits (addr s)) with (2 ^ h * 2 ^ maskbits s) in * by (rewrite <- Z.pow_add_r by lia; f_equal; lia).
  assert (addr_value (addr s) / 2 ^ h < 2 ^ maskbits s) by nia. nia.
Qed.

Lemma in_subnet_bits a s :
  wf_addr a -> wf_subnet s -> sin_family a = sin_family (addr s) -> addr_bits a = addr_bits (addr s).
Proof. intros Ha (Hs&_) Hf. unfold addr_bits. by rewrite (wf_addr_length a (addr s)). Qed.

#[export] Instance in_subnet_dec a s : Decision (in_subnet a s).
Proof. unfold in_subnet. apply _. Defined.

Lemma addrinsubnet_spec a s :
  wf_addr a -> wf_subnet s -> addrinsubnet a s = Ok (bool_decide (in_subnet a s)).
Proof.
  intros Ha Hs. unfold addrinsubnet, addrtypeof, subnettypeof.
  destruct (Z.eqb_spec (sin_family a) (sin_family (addr s))) as [Hf|Hf]; cbn [negb].
  - destruct (subnet_end s Hs) as [Hh _]. pose proof (in_subnet_bits a s Ha Hs Hf) as Hbits. destruct Hs as (Hs&Hm&Hz).
    rewrite samenbits_spec, Hbits by (done || lia). fold (host_bits s). f_equal. apply eq_true_iff_eq.
    rewrite bool_decide_eq_true, Z.eqb_eq, same_quotient by done. unfold in_subnet. intuition.
  - by rewrite bool_decide_eq_false_2 by by intros [??].
Qed.

(** [addrinsubnet] decides whether an address lies between the first and the last address
    of a subnet. *)
Theorem addrinsubnet_correct a s :
  wf_addr a -> wf_subnet s -> exists b, addrinsubnet a s = Ok b /\ (b = true <-> in_subnet a s).
Proof. intros Ha Hs. rewrite addrinsubnet_spec by done. eexists. split; [done|]. apply bool_decide_eq_true. Qed.

(** Closed examples. *)
Definition net10 : ip_subnet := mk_subnet (mk_ip AF_INET 0 [10; 0; 0; 0]) 8.
Definition net10_7 : ip_subnet := mk_subnet (mk_ip AF_INET 0 [10; 7; 64; 0]) 18.

Lemma net10_wf : wf_subnet net10.
Proof. split; [split; [by_decide|by left]|]. split; by_decide. Qed.
Lemma net10_7_wf : wf_subnet net10_7.
Proof. split; [split; [by_decide|by left]|]. split; by_decide. Qed.

Lemma addrinsubnet_correct_witness :
  exists b, addrinsubnet (mk_ip AF_INET 0 [10; 7; 200; 1]) net10_7 = Ok b /\
    (b = true <-> in_subnet (mk_ip AF_INET 0 [10; 7; 200; 1]) net10_7).
Proof. apply addrinsubnet_correct; [split; [by_decide|by left]|apply net10_7_wf]. Defined.

(** Smaller intervals of the same alignment that meet are nested. *)
Lemma nested_quotient v base h h' :
  0 <= h <= h' -> base <= v < base + 2 ^ h -> base mod 2 ^ h = 0 -> v / 2 ^ h' = base / 2 ^ h'.
Proof.
  intros Hh Hv Hz. replace h' with (h + (h' - h)) by lia. rewrite Z.pow_add_r, <- !Z.div_div by lia.
  f_equal. by apply same_quotient; [lia|..].
Qed.

(** [subnetinsubnet] decides inclusion: every address of the first subnet is an address of
    the second one. *)
Theorem subnetinsubnet_correct a b :
  wf_subnet a -> wf_subnet b ->
  exists r, subnetinsubnet a b = Ok r /\
    (r = true <-> forall x, wf_addr x -> in_subnet x a -> in_subnet x b).
Proof.
  intros Ha Hb. destruct (subnet_end a Ha) as [Ea1 Ea2]. destruct (subnet_end b Hb) as [Eb1 Eb2].
  assert (Hself : in_subnet (addr a) a) by (split; [done|lia]).
  unfold subnetinsubnet, subnettypeof.
  destruct (Z.eqb_spec (sin_family (addr a)) (sin_family (addr b))) as [Hf|Hf]; cbn [negb].
  2:{ exists false. split; [done|]. split; [done|]. intros Hall. destruct (Hall _ (proj1 Ha) Hself). done. }
  pose proof (in_subnet_bits (addr a) b (proj1 Ha) Hb Hf) as Hbits.
  pose proof Ha as (Wa&Ma&Za). pose proof Hb as (Wb&Mb&Zb).
  destruct (Z.ltb_spec (maskbits a) (maskbits b)) as [Hlt|Hge].
  - exists false. split; [done|]. split; [done|]. intros Hall. exfalso.
    pose proof (addr_value_bound _ Wa).
    destruct (addr_at_spec (addr a) (addr_value (addr a) + 2 ^ host_bits a - 1) Wa ltac:(lia)) as (Wl&Vl&_).
    destruct (Hall _ Wa Hself) as [_ H1]. destruct (Hall _ Wl) as [_ H2]; [split; [done|lia]|]. rewrite Vl in H2.
    assert (2 ^ host_bits a <= 2 ^ host_bits b) as Hp by lia. apply Z.pow_le_mono_r_iff in Hp; unfold host_bits in *; lia.
  - rewrite samenbits_spec, Hbits by (done || lia). fold (host_bits b). eexists. split; [done|].
    rewrite Z.eqb_eq. split.
    + intros Hq x Wx [Hfx Hx]. split; [congruence|]. apply same_quotient; [done|done|]. rewrite <- Hq.
      apply (nested_quotient _ _ (host_bits a)); [unfold host_bits in *; lia|done|done].
    + intros Hall. apply same_quotient; [done|done|]. by apply (Hall _ Wa Hself).
Qed.

Lemma subnetinsubnet_correct_witness :
  exists r, subnetinsubnet net10_7 net10 = Ok r /\
    (r = true <-> forall x, wf_addr x -> in_subnet x net10_7 -> in_subnet x net10).
Proof. apply subnetinsubnet_correct; [apply net10_7_wf|apply net10_wf]. Defined.

(** * rangetosubnet *)

(** [t] is the last number of the aligned block of [2 ^ h] numbers that starts at [f]. *)
Definition block (f t h : Z) : Prop := f mod 2 ^ h = 0 /\ t = f + 2 ^ h - 1.

Lemma block_unique f t h h' : 0 <= h -> 0 <= h' -> block f t h -> block f t h' -> h = h'.
Proof. intros ?? [_ H1] [_ H2]. apply (Z.pow_inj_r 2); lia. Qed.

(** Bit [e] of a byte: testing, clearing and setting it. *)
Lemma bit_ops x e :
  byteZ x -> 0 <= e < 8 ->
  Z.land x (2 ^ e) = x / 2 ^ e mod 2 * 2 ^ e /\
  Z.land x (Z.lnot (2 ^ e)) = x - x / 2 ^ e mod 2 * 2 ^ e /\
  Z.lor x (2 ^ e) = x + (1 - x / 2 ^ e mod 2) * 2 ^ e.
Proof.
  intros Hx He. refine (bool_decide_eq_true_1 _ _). revert x Hx. apply byte_forall.
  revert e He. apply (below_forall 8). vm_compute. reflexivity.
Qed.

(** Numbers below [2 ^ (e + 1)] by their bit [e] and the rest. *)
Lemma top_bit x e :
  0 <= e -> 0 <= x < 2 ^ (e + 1) ->
  exists b r, x = b * 2 ^ e + r /\ 0 <= r < 2 ^ e /\ (b = 0 \/ b = 1) /\
    forall k, (2 * k * 2 ^ e + x) / 2 ^ e mod 2 = b.
Proof.
  intros He Hx. rewrite Z.pow_add_r in Hx by lia. exists (x / 2 ^ e), (x mod 2 ^ e).
  pose proof (Z.div_mod x (2 ^ e) ltac:(lia)). pose proof (Z.mod_pos_bound x (2 ^ e) ltac:(lia)).
  assert (x / 2 ^ e = 0 \/ x / 2 ^ e = 1) as Hb by nia. split_and!; [lia|lia|lia|done|].
  intros k. rewrite Z.div_add_l, Z.add_comm, (Z.mul_comm 2), Z.mod_add by lia. apply Z.mod_small. lia.
Qed.


Lemma mod_multiple b x h E : 0 <= h <= E -> (b * 2 ^ E + x) mod 2 ^ h = x mod 2 ^ h.
Proof.
  intros Hh. replace (2 ^ E) with (2 ^ (E - h) * 2 ^ h) by (rewrite <- Z.pow_add_r by lia; f_equal; lia).
  by rewrite Z.mul_assoc, Z.add_comm, Z.mod_add by lia.
Qed.

Lemma block_shift b x y h E : 0 <= h <= E -> block (b * 2 ^ E + x) (b * 2 ^ E + y) h <-> block x y h.
Proof. intros Hh. unfold block. rewrite mod_multiple by done. intuition lia. Qed.

(** A block does not cross a boundary of its own alignment. *)
Lemma block_quotient x y h E : 0 <= h <= E -> block x y h -> x / 2 ^ E = y / 2 ^ E.
Proof. intros Hh [Hz ->]. symmetry. apply (nested_quotient _ _ h); lia || done. Qed.

(** One pass of the loop at bit [E], the bits above it being cleared in one number and set
    in the other. *)
Lemma mid_step x y E :
  0 <= E < 8 -> 0 <= x < 2 ^ (E + 1) -> 0 <= y < 2 ^ (E + 1) ->
  exists bx x1 b_y y1, x = bx * 2 ^ E + x1 /\ y = b_y * 2 ^ E + y1 /\ 0 <= x1 < 2 ^ E /\ 0 <= y1 < 2 ^ E /\
    (bx = 0 \/ bx = 1) /\ (b_y = 0 \/ b_y = 1) /\
    (Z.land x (2 ^ E) =? Z.land (256 - 2 ^ (E + 1) + y) (2 ^ E)) = (bx =? b_y) /\
    Z.land x (Z.lnot (2 ^ E)) = x1 /\ Z.lor (256 - 2 ^ (E + 1) + y) (2 ^ E) = 256 - 2 ^ E + y1.
Proof.
  intros HE Hx Hy. destruct (top_bit x E ltac:(lia) Hx) as (bx&x1&Ex&Hx1&Hbx&Qx).
  destruct (top_bit y E ltac:(lia) Hy) as (b_y&y1&Ey&Hy1&Hby&Qy). exists bx, x1, b_y, y1. do 6 (split; [done|]).
  assert (H2 : 2 ^ (E + 1) = 2 * 2 ^ E) by (rewrite Z.pow_add_r by lia; lia).
  assert (H8 : 2 * 2 ^ (7 - E) * 2 ^ E = 256).
  { rewrite <- Z.mul_assoc, <- Z.pow_add_r by lia. replace (7 - E + E) with 7 by lia. done. }
  assert (2 ^ (E + 1) <= 2 ^ 8) by (apply Z.pow_le_mono_r; lia).
  destruct (bit_ops x E) as (X1&X2&_); [unfold byteZ; lia|done|].
  destruct (bit_ops (256 - 2 ^ (E + 1) + y) E) as (Y1&_&Y3); [unfold byteZ; lia|done|].
  specialize (Qx 0). rewrite Z.mul_0_l, Z.add_0_l in Qx. specialize (Qy (2 ^ (7 - E) - 1)).
  replace (2 * (2 ^ (7 - E) - 1) * 2 ^ E + y) with (256 - 2 ^ (E + 1) + y) in Qy by lia.
  rewrite Qx in *. rewrite Qy in *. rewrite X1, X2, Y1, Y3. split; [|lia].
  apply eq_true_iff_eq. rewrite !Z.eqb_eq. nia.
Qed.

(** Numbers that differ in bit [E] bound a block only if they are 0 and all ones. *)
Lemma mid_exit x y E bx x1 b_y y1 :
  0 <= E -> 0 <= x < 2 ^ (E + 1) -> 0 <= y < 2 ^ (E + 1) -> x = bx * 2 ^ E + x1 -> y = b_y * 2 ^ E + y1 ->
  0 <= x1 < 2 ^ E -> 0 <= y1 < 2 ^ E -> bx <> b_y ->
  (x = 0 /\ 256 - 2 ^ (E + 1) + y = 255 -> block x y (E + 1 - 0)) /\
  (forall h, 0 <= h <= E + 1 -> block x y h -> x = 0 /\ 256 - 2 ^ (E + 1) + y = 255).
Proof.
  intros HE Hx Hy Ex Ey Hx1 Hy1 Hd. rewrite Z.sub_0_r. split.
  - intros [-> ?]. split; [by rewrite Z.mod_0_l by lia|]. lia.
  - intros h Hh Hb. destruct (decide (h = E + 1)) as [->|Hn].
    + destruct Hb as [Hz Ht]. rewrite Z.mod_small in Hz by done. lia.
    + pose proof (block_quotient x y h E ltac:(lia) Hb) as Hq. rewrite Ex, Ey in Hq.
      rewrite !Z.div_add_l, !Z.div_small in Hq by lia. lia.
Qed.

(** The loop ends, and leaves 0 and 255 exactly when the bytes bound a block. *)
Lemma mid_loop_spec (e : nat) : forall x y nn f,
  (e < 8)%nat -> 0 <= x < 2 ^ (Z.of_nat e + 1) -> 0 <= y < 2 ^ (Z.of_nat e + 1) -> x <> y ->
  exists fb tb j,
    mid_loop (S e + f) x (256 - 2 ^ (Z.of_nat e + 1) + y) (2 ^ Z.of_nat e) nn = Ok (fb, tb, nn + j) /\
    0 <= j <= Z.of_nat e /\
    (fb = 0 /\ tb = 255 -> block x y (Z.of_nat e + 1 - j)) /\
    (forall h, 0 <= h <= Z.of_nat e + 1 -> block x y h -> fb = 0 /\ tb = 255).
Proof.
  induction e as [|e IH]; intros x y nn f He Hx Hy Hne;
    (edestruct (mid_step x y) as (bx&x1&b_y&y1&Ex&Ey&Hx1&Hy1&Hbx&Hby&Hc&Hcl&Hset); [|exact Hx|exact Hy|]; [lia|]);
    cbn [Nat.add mid_loop]; rewrite Hc, ?Hcl, ?Hset; clear Hc Hcl Hset;
    (destruct (Z.eqb_spec bx b_y) as [Hb|Hd];
      [|do 2 eexists; exists 0; rewrite Z.add_0_r; split; [done|]; split; [lia|]; by eapply mid_exit; eauto with lia]).
  { subst. cbn in *. lia. }
  subst b_y. set (E := Z.of_nat (S e)) in *. assert (HE : E = Z.of_nat e + 1) by lia.
  replace (Z.shiftr (2 ^ E) 1) with (2 ^ Z.of_nat e)
    by (rewrite Z.shiftr_div_pow2, HE, Z.pow_add_r by lia; by rewrite Z.div_mul).
  destruct (IH x1 y1 (nn + 1) f ltac:(lia)) as (fb&tb&j&Hr&Hj&H1&Hn); [rewrite <- HE; lia|rewrite <- HE; lia|lia|].
  rewrite <- HE in *. cbn [Nat.add mid_loop] in Hr. cbn [mid_loop]. rewrite Hr.
  exists fb, tb, (1 + j). split; [by rewrite Z.add_assoc|]. split; [lia|]. rewrite Ex, Ey. split.
  - intros H. apply block_shift; [lia|]. replace (E + 1 - (1 + j)) with (E - j) by lia. by apply H1.
  - intros h Hh Hb. assert (h <= E) as HhE.
    { destruct Hb as [_ Ht]. assert (2 ^ h <= 2 ^ E) as Hp by lia. apply Z.pow_le_mono_r_iff in Hp; lia. }
    apply block_shift in Hb; [|lia]. apply (Hn h); [lia|done].
Qed.

(** Blocks of byte strings whose boundary is not after the first byte. *)
Lemma block_bytes x y A B M g :
  0 <= M -> 0 <= g -> 0 <= A < 2 ^ M -> 0 <= B < 2 ^ M ->
  block (x * 2 ^ M + A) (y * 2 ^ M + B) (g + M) <-> A = 0 /\ B = 2 ^ M - 1 /\ block x y g.
Proof.
  intros HM Hg HA HB. unfold block. rewrite mod_bytes, Z.pow_add_r by done.
  pose proof (Z.mod_pos_bound x (2 ^ g) ltac:(lia)) as Hm. revert Hm HA HB.
  generalize (x mod 2 ^ g). generalize (2 ^ g). generalize (2 ^ M). clear. intros P G r Hr HA HB. split.
  - intros [H1 H2]. pose proof (Z.mul_nonneg_nonneg r P ltac:(lia) ltac:(lia)). assert (A = 0) by lia. subst A.
    assert (r = 0) by (apply (Z.mul_eq_0_l _ P); lia).
    assert (y - (x + G - 1) = 0); [|nia]. assert ((y - (x + G - 1)) * P = P - 1 - B) as Hd by lia.
    revert Hd. generalize (y - (x + G - 1)). clear -HB. intros d Hd. nia.
  - intros (->&->&->&->). split; ring.
Qed.

Lemma host_bytes_spec f : forall t,
  Forall byteZ f -> Forall byteZ t -> length f = length t ->
  host_bytes f t = [] <-> be_decode f = 0 /\ be_decode t = 2 ^ (8 * Z.of_nat (length f)) - 1.
Proof.
  induction f as [|x f IH]; intros [|y t] Hf Ht Hl; try done.
  apply Forall_cons in Hf as [Hx Hf]. apply Forall_cons in Ht as [Hy Ht]. injection Hl as Hl.
  rewrite !be_decode_cons, <- Hl by done. cbn [host_bytes length].
  pose proof (be_decode_bound f Hf). pose proof (be_decode_bound t Ht) as Bt. rewrite <- Hl in Bt.
  replace (8 * Z.of_nat (S (length f))) with (8 + 8 * Z.of_nat (length f)) by lia. rewrite Z.pow_add_r by lia.
  change (2 ^ 8) with 256. unfold byteZ in *. specialize (IH t Hf Ht Hl).
  destruct (Z.eqb_spec x 0) as [->|Hn]; [destruct (Z.eqb_spec y 255) as [->|Hn]|]; cbn [andb].
  - rewrite IH. split; intros [??]; nia.
  - split; [done|]. intros [??]. nia.
  - split; [done|]. intros [??]. nia.
Qed.

Lemma net_bytes_spec f : forall t nn,
  length f = length t ->
  exists pre f' t', net_bytes f t nn = (f', t', nn + 8 * Z.of_nat (length pre)) /\
    f = pre ++ f' /\ t = pre ++ t' /\ length f' = length t' /\
    match f', t' with x :: _, y :: _ => x <> y | _, _ => True end.
Proof.
  induction f as [|x f IH]; intros [|y t] nn Hl; try done.
  { exists [], [], []. by rewrite Z.add_0_r. }
  injection Hl as Hl. cbn [net_bytes]. destruct (Z.eqb_spec x y) as [->|Hn].
  - destruct (IH t (nn + 8) Hl) as (pre&f'&t'&->&->&->&Hl'&Hd). exists (y :: pre), f', t'.
    split; [f_equal; cbn [length]; lia|done].
  - exists [], (x :: f), (y :: t). rewrite Z.add_0_r. split_and!; try done. cbn. lia.
Qed.

(** A block that starts and ends with different bytes covers all bytes after them. *)
Lemma block_heads x y f t h :
  byteZ x -> byteZ y -> Forall byteZ f -> Forall byteZ t -> length f = length t -> x <> y ->
  0 <= h <= 8 * Z.of_nat (S (length f)) -> block (be_decode (x :: f)) (be_decode (y :: t)) h ->
  exists g, 0 <= g <= 8 /\ h = g + 8 * Z.of_nat (length f) /\ block x y g /\ host_bytes f t = [].
Proof.
  intros Hx Hy Hf Ht Hl Hne Hh Hb. pose proof (be_decode_bound f Hf). pose proof (be_decode_bound t Ht) as Bt.
  rewrite !be_decode_cons, <- Hl in * by done. set (M := 8 * Z.of_nat (length f)) in *.
  destruct (Z.le_gt_cases h M) as [Hle|Hgt].
  { pose proof (block_quotient _ _ h M ltac:(lia) Hb) as Hq.
    rewrite !Z.div_add_l, !Z.div_small in Hq by lia. lia. }
  exists (h - M). replace h with (h - M + M) in Hb by lia. apply block_bytes in Hb as (H0&H1&Hb); [|lia|lia|done|done].
  split; [lia|]. split; [lia|]. split; [done|]. by apply host_bytes_spec.
Qed.

Lemma block_of_heads x y f t g :
  byteZ x -> byteZ y -> Forall byteZ f -> Forall byteZ t -> length f = length t ->
  0 <= g -> block x y g -> host_bytes f t = [] ->
  block (be_decode (x :: f)) (be_decode (y :: t)) (g + 8 * Z.of_nat (length f)).
Proof.
  intros Hx Hy Hf Ht Hl Hg Hb Hh. apply host_bytes_spec in Hh as [H0 H1]; [|done|done|done].
  pose proof (be_decode_bound f Hf). pose proof (be_decode_bound t Ht) as Bt.
  rewrite !be_decode_cons, <- Hl in * by done. apply block_bytes; [lia|done|done|done|done].
Qed.

(** [k] network bits on top of [nn] are found exactly when the rest of the bits is a block. *)
Definition finds_block (r : outcome string Z) (nn : Z) (f t : list Z) : Prop :=
  match r with
  | Ok k => exists h, 0 <= h <= 8 * Z.of_nat (length f) /\ k = nn + 8 * Z.of_nat (length f) - h /\
              block (be_decode f) (be_decode t) h
  | Ugh _ => forall h, 0 <= h <= 8 * Z.of_nat (length f) -> ~ block (be_decode f) (be_decode t) h
  | Abort => False
  end.

Definition tail_bits (f t : list Z) (nn : Z) : outcome string Z :=
  '(f, t, nnet) ← mid_byte f t nn;
  match host_bytes f t with [] => Ok nnet | _ => Ugh "invalid subnet" end.

Lemma tail_bits_spec f t nn :
  Forall byteZ f -> Forall byteZ t -> length f = length t ->
  match f, t with x :: _, y :: _ => x <> y | _, _ => True end ->
  finds_block (tail_bits f t nn) nn f t.
Proof.
  intros Hf Ht Hl Hd. destruct f as [|x f], t as [|y t]; try done.
  { exists 0. cbn [length]. split; [lia|]. split; [lia|]. by split. }
  apply Forall_cons in Hf as [Hx Hf]. apply Forall_cons in Ht as [Hy Ht]. injection Hl as Hl.
  pose proof (block_heads x y f t) as Hheads. pose proof (block_of_heads x y f t) as Hof.
  unfold tail_bits, mid_byte. destruct ((x =? 0) && (y =? 255)) eqn:E0; cbn [negb].
  - apply andb_true_iff in E0 as [->%Z.eqb_eq ->%Z.eqb_eq]. rewrite bind_Ok. cbn [host_bytes]. cbn [Z.eqb andb Pos.eqb].
    destruct (host_bytes f t) eqn:Eh; cbn [finds_block length].
    + exists (8 + 8 * Z.of_nat (length f)). split; [lia|]. split; [lia|]. by apply Hof.
    + intros h Hh Hb. destruct (Hheads h) as (g&_&_&_&?); done.
  - destruct (mid_loop_spec 7 x y nn 1) as (fb&tb&j&Hr&Hj&H1&Hn); [lia|exact Hx|exact Hy|done|].
    change (2 ^ (Z.of_nat 7 + 1)) with 256 in Hr. replace (256 - 256 + y) with y in Hr by lia.
    change (S 7 + 1)%nat with 9%nat in Hr. change (2 ^ Z.of_nat 7) with 128 in Hr. rewrite Hr, bind_Ok.
    destruct (Z.eqb_spec fb 0); [destruct (Z.eqb_spec tb 255)|]; cbn [negb orb]; rewrite ?bind_Ok.
    2,3: intros h Hh Hb; destruct (Hheads h) as (g&?&_&Hg&_); try done; destruct (Hn g); lia || done.
    destruct (host_bytes f t) eqn:Eh; cbn [finds_block length].
    + exists (8 - j + 8 * Z.of_nat (length f)). split; [lia|]. split; [lia|]. apply Hof; try done; [lia|].
      apply (H1 (conj e e0)).
    + intros h Hh Hb. destruct (Hheads h) as (g&_&_&_&?); done.
Qed.

Lemma block_prefix p F T h h' :
  0 <= h' -> 0 <= h -> 0 <= F < 2 ^ h' -> 0 <= T < 2 ^ h' ->
  block (p * 2 ^ h' + F) (p * 2 ^ h' + T) h <-> block F T h /\ h <= h'.
Proof.
  intros Hh' Hh HF HT. assert (Hle : block (p * 2 ^ h' + F) (p * 2 ^ h' + T) h -> h <= h').
  { intros [_ Hb]. assert (2 ^ h <= 2 ^ h') as Hp by lia. apply Z.pow_le_mono_r_iff in Hp; lia. }
  split.
  - intros Hb. specialize (Hle Hb). split; [|done]. by apply block_shift in Hb; [|lia].
  - intros [Hb ?]. by apply block_shift; [lia|].
Qed.

Lemma net_bits_spec f t :
  Forall byteZ f -> Forall byteZ t -> length f = length t -> finds_block (net_bits f t) 0 f t.
Proof.
  intros Hf Ht Hl. unfold net_bits.
  destruct (net_bytes_spec f t 0 Hl) as (pre&f'&t'&->&->&->&Hl'&Hd). rewrite Z.add_0_l.
  apply Forall_app in Hf as [Hp Hf]. apply Forall_app in Ht as [_ Ht].
  pose proof (tail_bits_spec f' t' (8 * Z.of_nat (length pre)) Hf Ht Hl' Hd) as H. unfold tail_bits in H.
  pose proof (be_decode_bound f' Hf). pose proof (be_decode_bound t' Ht) as Bt. rewrite <- Hl' in Bt.
  destruct (_ ≫= _) as [k|e|]; unfold finds_block in *; [| |done];
    rewrite ?length_app, !be_decode_app, <- Hl' by done.
  - destruct H as (h&Hh&->&Hb). exists h. split; [lia|]. split; [lia|]. apply block_prefix; [lia..|]. split; [done|lia].
  - intros h Hh Hb. apply block_prefix in Hb as [Hb Hle]; [|lia..]. apply (H h); [lia|done].
Qed.

Lemma rangetosubnet_spec from to :
  wf_addr from -> wf_addr to -> sin_family from = sin_family to ->
  rangetosubnet from to <> Abort /\
  forall s, rangetosubnet from to = Ok s <->
    wf_subnet s /\ addr s = from /\ addr_value to + 1 = addr_value from + 2 ^ host_bits s.
Proof.
  intros Hf Ht Hfam. unfold rangetosubnet, addrtypeof. rewrite Hfam, Z.eqb_refl. cbn [negb].
  destruct (wf_addr_read from Hf) as [-> Hlen]. destruct (wf_addr_read to Ht) as [-> _].
  pose proof (wf_addr_length from to Hf Ht Hfam) as Hl. rewrite <- Hl, Z.eqb_refl.
  rewrite (proj2 (Z.eqb_neq _ 0)) by lia. cbn [negb].
  pose proof (net_bits_spec (sin_addr from) (sin_addr to) (proj1 Hf) (proj1 Ht) Hl) as H.
  unfold finds_block in H. fold (addr_value from) (addr_value to) in H.
  assert (Hblock : forall s, wf_subnet s -> addr s = from -> addr_value to + 1 = addr_value from + 2 ^ host_bits s ->
            0 <= host_bits s <= addr_bits from /\ block (addr_value from) (addr_value to) (host_bits s)).
  { intros s (_&Hm&Hz) <- He. unfold host_bits, block in *. split; [lia|]. split; [done|lia]. }
  destruct (net_bits _ _) as [k|e|]; [| |done].
  - destruct H as (h&Hh&->&Hb). fold (addr_bits from) in *. rewrite bind_Ok.
    destruct (initsubnet_spec from (0 + addr_bits from - h) Hf ltac:(lia)) as [_ ->].
    replace (addr_bits from - (0 + addr_bits from - h)) with h by lia. rewrite (proj1 Hb). cbn [Z.eqb]. split; [done|].
    intros s. split.
    + intros [= <-]. unfold wf_subnet, host_bits. cbn [addr maskbits].
      replace (addr_bits from - (0 + addr_bits from - h)) with h by lia. destruct Hb as [Hz He]. split_and!; done || lia.
    + intros (Hs&Ha&He). destruct (Hblock s Hs Ha He) as [Hr Hb'].
      pose proof (block_unique _ _ _ _ (proj1 Hh) (proj1 Hr) Hb Hb') as ->. destruct s as [a m]. cbn in *. subst a.
      unfold host_bits. cbn. do 2 f_equal. lia.
  - split; [done|]. intros s. split; [done|]. intros (Hs&Ha&He). destruct (Hblock s Hs Ha He) as [Hr Hb].
    exfalso. by apply (H (host_bits s)).
Qed.

(** The last number of a range is that of a subnet when the range is its set of addresses. *)
Lemma range_of_subnet s to :
  wf_subnet s -> wf_addr to -> sin_family to = sin_family (addr s) ->
  addr_value to + 1 = addr_value (addr s) + 2 ^ host_bits s <->
  forall x, wf_addr x -> sin_family x = sin_family (addr s) ->
    in_subnet x s <-> addr_value (addr s) <= addr_value x <= addr_value to.
Proof.
  intros Hs Ht Hf. destruct (subnet_end s Hs) as [Hh He]. pose proof (addr_value_bound _ (proj1 Hs)). split.
  - intros E x Hx Hfx. unfold in_subnet. intuition lia.
  - intros Hall. destruct (proj1 (Hall _ (proj1 Hs) eq_refl)) as [_ Hle]; [split; [done|lia]|].
    destruct (proj2 (Hall to Ht Hf)) as [_ Hto]; [lia|].
    destruct (addr_at_spec (addr s) (addr_value (addr s) + 2 ^ host_bits s - 1) (proj1 Hs) ltac:(lia)) as (Wl&Vl&_).
    destruct (proj1 (Hall _ Wl eq_refl)) as [_ Hl]; [split; [done|lia]|]. lia.
Qed.

(** [rangetosubnet] always ends; it gives a subnet exactly when the addresses from [from]
    to [to] are those of a proper subnet, and then it is that subnet. *)
Theorem rangetosubnet_correct from to :
  wf_addr from -> wf_addr to -> sin_family from = sin_family to ->
  rangetosubnet from to <> Abort /\
  forall s, rangetosubnet from to = Ok s <->
    wf_subnet s /\ addr s = from /\
    forall x, wf_addr x -> sin_family x = sin_family from ->
      in_subnet x s <-> addr_value from <= addr_value x <= addr_value to.
Proof.
  intros Hf Ht Hfam. destruct (rangetosubnet_spec from to Hf Ht Hfam) as [Ha Hs]. split; [done|].
  intros s. rewrite Hs. split; intros (Hw&<-&H); (split; [done|]; split; [done|]); by apply range_of_subnet.
Qed.

Lemma rangetosubnet_correct_witness :
  let from := mk_ip AF_INET 0 [10; 7; 64; 0] in let to := mk_ip AF_INET 0 [10; 7; 127; 255] in
  rangetosubnet from to <> Abort /\
  forall s, rangetosubnet from to = Ok s <->
    wf_subnet s /\ addr s = from /\
    forall x, wf_addr x -> sin_family x = sin_family from ->
      in_subnet x s <-> addr_value from <= addr_value x <= addr_value to.
Proof. apply rangetosubnet_correct; [split; [by_decide|by left]..|done]. Defined.

(** * iprange_bits *)

Fixpoint first_nz (dp : list Z) (j : Z) : Z :=
  match dp with [] => j | d :: dp' => if d =? 0 then first_nz dp' (j + 1) else j end.

Lemma sub_bytes_spec hp : forall lp j,
  Forall byteZ hp -> Forall byteZ lp -> length hp = length lp ->
  exists carry dp, sub_bytes hp lp j = (carry, dp, first_nz dp j) /\ (carry = 0 \/ carry = 1) /\
    Forall byteZ dp /\ length dp = length hp /\
    be_decode dp = be_decode hp - be_decode lp + carry * 2 ^ (8 * Z.of_nat (length hp)).
Proof.
  induction hp as [|h hp IH]; intros [|l lp] j Hh Hl Hlen; try done.
  { exists 0, []. split_and!; try done. by left. }
  apply Forall_cons in Hh as [Hh0 Hh]. apply Forall_cons in Hl as [Hl0 Hl]. injection Hlen as Hlen.
  destruct (IH lp (j + 1) Hh Hl Hlen) as (carry&dp&E&Hc&Hb&Hd&Hv). cbn [sub_bytes length]. rewrite E.
  rewrite !be_decode_cons, <- Hlen by done. replace (8 * Z.of_nat (S (length hp))) with (8 + 8 * Z.of_nat (length hp)) by lia.
  rewrite Z.pow_add_r by lia. change (2 ^ 8) with 256. unfold byteZ in Hh0, Hl0.
  destruct (Z.ltb_spec (h - l - carry) 0).
  - exists 1, (h - l - carry + 256 :: dp). split; [cbn [first_nz]; by destruct (_ =? 0)|]. split; [by right|].
    assert (byteZ (h - l - carry + 256)) by (unfold byteZ; lia). split; [by constructor|]. split; [by cbn; lia|].
    rewrite be_decode_cons, Hv, Hd by done. ring.
  - exists 0, (h - l - carry :: dp). split; [cbn [first_nz]; by destruct (_ =? 0)|]. split; [by left|].
    assert (byteZ (h - l - carry)) by (unfold byteZ; lia). split; [by constructor|]. split; [by cbn; lia|].
    rewrite be_decode_cons, Hv, Hd by done. ring.
Qed.

Lemma neg_bytes_spec dp : forall j,
  Forall byteZ dp ->
  exists carry dp', neg_bytes dp j = (carry, dp', first_nz dp' j) /\ (carry = 0 \/ carry = 1) /\
    Forall byteZ dp' /\ length dp' = length dp /\
    be_decode dp' + carry * 2 ^ (8 * Z.of_nat (length dp)) = 2 ^ (8 * Z.of_nat (length dp)) - be_decode dp.
Proof.
  induction dp as [|d dp IH]; intros j Hb; [exists 1, []; split_and!; try done; by right|].
  apply Forall_cons in Hb as [Hd Hb]. destruct (IH (j + 1) Hb) as (carry&dp'&E&Hc&Hb'&Hl&Hv).
  cbn [neg_bytes length]. rewrite E. rewrite be_decode_cons by done.
  replace (8 * Z.of_nat (S (length dp))) with (8 + 8 * Z.of_nat (length dp)) by lia.
  rewrite Z.pow_add_r by lia. change (2 ^ 8) with 256. unfold byteZ in Hd.
  destruct (Z.leb_spec 256 (255 - d + carry)).
  - exists 1, (255 - d + carry - 256 :: dp'). split; [cbn [first_nz]; by destruct (_ =? 0)|]. split; [by right|].
    assert (byteZ (255 - d + carry - 256)) by (unfold byteZ; lia). split; [by constructor|]. split; [by cbn; lia|].
    rewrite be_decode_cons, Hl by done. lia.
  - exists 0, (255 - d + carry :: dp'). split; [cbn [first_nz]; by destruct (_ =? 0)|]. split; [by left|].
    assert (byteZ (255 - d + carry)) by (unfold byteZ; lia). split; [by constructor|]. split; [by cbn; lia|].
    rewrite be_decode_cons, Hl by done. lia.
Qed.

(** Where the first non-zero byte is, and what it says about the number. *)
Lemma first_nz_spec dp : forall j,
  Forall byteZ dp ->
  (first_nz dp j = j + Z.of_nat (length dp) /\ be_decode dp = 0) \/
  exists i d r, first_nz dp j = j + Z.of_nat i /\ (i < length dp)%nat /\ dp !! i = Some d /\ byteZ d /\ d <> 0 /\
    let m := 8 * (Z.of_nat (length dp) - Z.of_nat i - 1) in be_decode dp = d * 2 ^ m + r /\ 0 <= r < 2 ^ m.
Proof.
  induction dp as [|d dp IH]; intros j Hb; [left; cbn; split; [lia|done]|].
  apply Forall_cons in Hb as [Hd Hb]. cbn [first_nz length]. rewrite be_decode_cons by done.
  destruct (Z.eqb_spec d 0) as [->|Hn].
  - destruct (IH (j + 1) Hb) as [[E Hv]|(i&d&r&E&Hi&Hl&Hbd&Hdn&Hv&Hr)].
    + left. rewrite E, Hv. split; lia.
    + right. exists (S i), d, r. rewrite E. cbn. split; [lia|]. split; [lia|]. do 3 (split; [done|]).
      replace (8 * (Z.of_nat (S (length dp)) - Z.of_nat (S i) - 1)) with (8 * (Z.of_nat (length dp) - Z.of_nat i - 1)) by lia.
      split; [lia|done].
  - right. exists 0%nat, d, (be_decode dp). split; [lia|]. split; [lia|]. do 3 (split; [done|]).
    replace (8 * (Z.of_nat (S (length dp)) - Z.of_nat 0 - 1)) with (8 * Z.of_nat (length dp)) by lia.
    split; [done|]. by apply be_decode_bound.
Qed.

Definition bit_length (v : Z) : Z := if v =? 0 then 0 else Z.log2 v + 1.

Lemma bit_length_spec v k : 0 <= v -> 0 <= k -> v < 2 ^ k <-> bit_length v <= k.
Proof.
  intros Hv Hk. unfold bit_length. destruct (Z.eqb_spec v 0) as [->|Hn]; [lia|].
  rewrite Z.log2_lt_pow2 by lia. lia.
Qed.

Lemma bit_length_nonneg v : 0 <= bit_length v.
Proof. unfold bit_length. destruct (v =? 0); [done|]. pose proof (Z.log2_nonneg v). lia. Qed.

Lemma leftmost_bit_spec d : byteZ d -> d <> 0 -> leftmost_bit 9 0x80 d 0 = Ok (7 - Z.log2 d).
Proof.
  intros Hd Hn. assert ((d =? 0) || bool_decide (leftmost_bit 9 0x80 d 0 = Ok (7 - Z.log2 d)) = true) as H.
  { revert d Hd Hn. intros d Hd _. revert d Hd. apply byte_forall. vm_compute. reflexivity. }
  rewrite (proj2 (Z.eqb_neq d 0) Hn) in H. by apply bool_decide_eq_true_1 in H.
Qed.

(** The end of [iprange_bits]: the bits of the number in [dp]. *)
Lemma count_bits dp :
  Forall byteZ dp ->
  (bo ← (if negb (first_nz dp 0 =? Z.of_nat (length dp)) then
           d ← defined (dp !! Z.to_nat (first_nz dp 0)); leftmost_bit 9 0x80 d 0
         else Ok 0);
   Ok (E := string) ((Z.of_nat (length dp) - first_nz dp 0) * 8 - bo)) = Ok (bit_length (be_decode dp)).
Proof.
  intros Hb. destruct (first_nz_spec dp 0 Hb) as [[E Hv]|(i&d&r&E&Hi&Hl&Hbd&Hdn&Hv&Hr)].
  - rewrite E, Hv, Z.add_0_l, Z.eqb_refl. cbn [negb]. rewrite bind_Ok, Z.sub_diag. done.
  - rewrite E, (proj2 (Z.eqb_neq _ (Z.of_nat (length dp)))) by lia. cbn [negb].
    rewrite Z.add_0_l, Nat2Z.id, Hl. cbn [defined]. rewrite bind_Ok, leftmost_bit_spec, bind_Ok by done.
    f_equal. set (m := 8 * (Z.of_nat (length dp) - Z.of_nat i - 1)) in *. unfold byteZ in Hbd.
    pose proof (Z.log2_spec d ltac:(lia)) as [Hlo Hhi]. pose proof (Z.log2_nonneg d).
    unfold bit_length. rewrite (proj2 (Z.eqb_neq (be_decode dp) 0)) by nia.
    rewrite (Z.log2_unique (be_decode dp) (Z.log2 d + m)); [lia|lia|].
    rewrite Hv, <- Z.add_succ_l, !Z.pow_add_r by lia. nia.
Qed.

Lemma iprange_bits_spec low high :
  wf_addr low -> wf_addr high -> sin_family high = sin_family low ->
  iprange_bits low high = Ok (bit_length (Z.abs (addr_value high - addr_value low))).
Proof.
  intros Hlo Hhi Hf. unfold iprange_bits, addrtypeof. rewrite Hf, Z.eqb_refl. cbn [negb].
  pose proof (wf_addr_length high low Hhi Hlo Hf) as Hlen.
  destruct (wf_addr_read high Hhi) as [-> Hn]. destruct (wf_addr_read low Hlo) as [-> _].
  rewrite <- Hlen, Z.eqb_refl, (proj2 (Z.eqb_neq _ 0)) by lia. cbn [negb].
  destruct (sub_bytes_spec _ (sin_addr low) 0 (proj1 Hhi) (proj1 Hlo) Hlen) as (carry&dp&->&Hc&Hb&Hl&Hv).
  fold (addr_value high) (addr_value low) in Hv. pose proof (be_decode_bound dp Hb) as Bd. rewrite Hl in Bd.
  pose proof (addr_value_bound _ Hhi) as Bh. pose proof (addr_value_bound _ Hlo) as Bl. unfold addr_bits in *. rewrite <- Hlen in Bl.
  destruct Hc as [-> | ->].
  - change (negb (0 =? 0)) with false. cbv iota beta. rewrite <- Hl, count_bits by done. do 2 f_equal. lia.
  - change (negb (1 =? 0)) with true. cbv iota beta. destruct (neg_bytes_spec dp 0 Hb) as (c&dp'&->&Hc&Hb'&Hl'&Hv').
    rewrite Hl in *. rewrite <- Hl', count_bits by done. do 2 f_equal.
    pose proof (be_decode_bound dp' Hb') as Bd'. rewrite Hl' in Bd'. destruct Hc as [-> | ->]; lia.
Qed.

(** [iprange_bits] always ends, and for addresses of one family, in either order, it gives
    the number of bits of their distance: the least [r] such that the distance is below
    [2 ^ r]. *)
Theorem iprange_bits_correct low high :
  wf_addr low -> wf_addr high -> sin_family high = sin_family low ->
  exists r, iprange_bits low high = Ok r /\
    forall k, 0 <= k -> Z.abs (addr_value high - addr_value low) < 2 ^ k <-> r <= k.
Proof.
  intros Hlo Hhi Hf. rewrite iprange_bits_spec by done. eexists. split; [done|]. intros k Hk. apply bit_length_spec; lia.
Qed.

Lemma iprange_bits_correct_witness :
  exists r, iprange_bits (mk_ip AF_INET 0 [1; 2; 3; 0]) (mk_ip AF_INET 0 [1; 2; 3; 254]) = Ok r /\
    forall k, 0 <= k ->
      Z.abs (addr_value (mk_ip AF_INET 0 [1; 2; 3; 254]) - addr_value (mk_ip AF_INET 0 [1; 2; 3; 0])) < 2 ^ k <-> r <= k.
Proof. apply iprange_bits_correct; [split; [by_decide|by left]..|done]. Defined.

(** * Masks *)

Lemma skip_byte_spec v p n :
  exists i rest, skip_byte v p n = (rest, n + 8 * Z.of_nat i) /\ p = replicate i v ++ rest /\
    match rest with x :: _ => x <> v | [] => True end.
Proof.
  revert n. induction p as [|x p IH]; intros n; cbn [skip_byte].
  { exists 0%nat, []. by rewrite Z.add_0_r. }
  destruct (Z.eqb_spec x v) as [->|Hn].
  - destruct (IH (n + 8)) as (i&rest&->&->&Hd). exists (S i), rest. split; [f_equal; lia|done].
  - exists 0%nat, (x :: p). by rewrite Z.add_0_r.
Qed.

(** The bytes that have leading ones only. *)
Lemma leading_ones_spec b n :
  byteZ b -> b <> 0 -> b <> 255 ->
  exists b' j, leading_ones 8 b n = (b', n + j) /\ 0 <= j < 8 /\
    (Z.land b' 255 = 0 -> 0 < j /\ b = Z.land (Z.shiftl 255 (8 - j)) 255).
Proof.
  intros Hb H0 H255.
  assert (Hshift : forall fuel b n, leading_ones fuel b n = ((leading_ones fuel b 0).1, n + (leading_ones fuel b 0).2)).
  { induction fuel as [|fuel IH]; intros c m; cbn [leading_ones]; [cbn; f_equal; lia|].
    destruct (negb _); [|cbn; f_equal; lia]. rewrite IH, (IH _ (0 + 1)). cbn. f_equal. lia. }
  rewrite Hshift. do 2 eexists. split; [reflexivity|]. clear Hshift n.
  assert ((b =? 0) || (b =? 255) || (let '(b', j) := leading_ones 8 b 0 in
    (0 <=? j) && (j <? 8) && (negb (Z.land b' 255 =? 0) || ((0 <? j) && (b =? Z.land (Z.shiftl 255 (8 - j)) 255))))
    = true) as H.
  { clear H0 H255. revert b Hb. apply byte_forall. vm_compute. reflexivity. }
  rewrite (proj2 (Z.eqb_neq b 0) H0), (proj2 (Z.eqb_neq b 255) H255) in H. cbn [orb] in H.
  destruct (leading_ones 8 b 0) as [b' j]. cbn [fst snd].
  rewrite !andb_true_iff, orb_true_iff, negb_true_iff, andb_true_iff in H. destruct H as [[? ?] H].
  split; [lia|]. intros Hz. rewrite Hz in H. destruct H as [H|[??]]; [done|]. lia.
Qed.

Lemma mask_bytes_eq i j n :
  0 <= j < 8 -> mask_bytes (8 * Z.of_nat i + j) n =
  let p := replicate i 255 ++ (if negb (j =? 0) then [Z.land (Z.shiftl 255 (8 - j)) 255] else []) in
  p ++ replicate (Z.to_nat n - length p) 0.
Proof.
  intros Hj. unfold mask_bytes. rewrite (Z.mul_comm 8), Z.div_add_l, (Z.div_small j), Z.add_0_r, Nat2Z.id by lia.
  by rewrite (Z.add_comm _ j), Z.mod_add, (Z.mod_small j) by lia.
Qed.

(** What [count_bytes] counts is a mask of that many bits. *)
Lemma count_bytes_inv p k :
  Forall byteZ p -> count_bytes p = k -> 0 <= k -> p = mask_bytes k (Z.of_nat (length p)).
Proof.
  intros Hp Hc Hk. unfold count_bytes in Hc.
  destruct (skip_byte_spec 255 p 0) as (i&rest&Hs&->&Hd). rewrite Hs in Hc. apply Forall_app in Hp as [_ Hr].
  destruct rest as [|b rest].
  { cbn in Hc. subst k. rewrite Z.add_0_l, <- (Z.add_0_r (8 * _)), mask_bytes_eq by lia. cbn.
    by rewrite !app_nil_r, Nat2Z.id, Nat.sub_diag, app_nil_r. }
  apply Forall_cons in Hr as [Hb Hr]. destruct (Z.eqb_spec b 0) as [->|Hb0]; cbn [negb] in Hc.
  - destruct (skip_byte_spec 0 (0 :: rest) 0) as (i0&r0&Hs0&E0&_). rewrite Hs0 in Hc. cbn [fst] in Hc.
    destruct r0; [|lia]. subst k. rewrite Z.add_0_l, <- (Z.add_0_r (8 * _)), mask_bytes_eq by lia. cbn [negb Z.eqb].
    rewrite E0, !app_nil_r, length_app, !length_replicate, Nat2Z.id. do 2 f_equal. lia.
  - destruct (leading_ones_spec b (0 + 8 * Z.of_nat i) Hb Hb0 Hd) as (b'&j&Hl&Hj&Hz). rewrite Hl in Hc.
    destruct (Z.eqb_spec (Z.land b' 255) 0) as [E|]; cbn [negb] in Hc; [|lia]. destruct (Hz E) as [Hj0 Eb].
    destruct (skip_byte_spec 0 rest 0) as (i0&r0&Hs0&E0&_). rewrite Hs0 in Hc. cbn [fst] in Hc.
    destruct r0; [|lia]. subst k. rewrite Z.add_0_l, mask_bytes_eq, (proj2 (Z.eqb_neq j 0)), <- Eb by lia. cbn [negb].
    rewrite E0, app_nil_r. rewrite <- app_assoc. f_equal. cbn [app]. f_equal. rewrite !length_app. cbn [length].
    rewrite !length_replicate, Nat2Z.id. f_equal. lia.
Qed.

Definition mask_ok (n : nat) (k : Z) : bool :=
  (count_bytes (mask_bytes k (Z.of_nat n)) =? k) && (length (mask_bytes k (Z.of_nat n)) =? n)%nat.

Lemma count_mask_bytes a k :
  wf_addr a -> 0 <= k <= addr_bits a ->
  count_bytes (mask_bytes k (Z.of_nat (length (sin_addr a)))) = k /\
  length (mask_bytes k (Z.of_nat (length (sin_addr a)))) = length (sin_addr a).
Proof.
  intros [_ Hf] Hk. unfold addr_bits in Hk. assert (mask_ok (length (sin_addr a)) k = true) as H.
  { destruct Hf as [[_ E]|[_ E]]; rewrite E in *.
    - apply (below_forall 33 (mask_ok 4)); [vm_compute; reflexivity|lia].
    - apply (below_forall 129 (mask_ok 16)); [vm_compute; reflexivity|lia]. }
  apply andb_true_iff in H as [H1%Z.eqb_eq H2%Nat.eqb_eq]. done.
Qed.

Lemma maskof_eq a k :
  wf_addr a -> 0 <= k <= addr_bits a ->
  maskof (mk_subnet a k) = Some (mk_ip (sin_family a) 0 (mask_bytes k (Z.of_nat (length (sin_addr a))))).
Proof.
  intros Ha Hk. destruct (count_mask_bytes a k Ha Hk) as [_ Hl]. destruct (wf_addr_read a Ha) as [Hr Hn].
  unfold maskof, addrlenof. cbn [addr maskbits]. rewrite Hr. cbn [fst]. unfold addr_bits in Hk.
  rewrite u64_small, (proj2 (Z.ltb_ge _ k)), (proj2 (Z.ltb_ge 16 _)) by lia. cbn [orb].
  unfold initaddr, addrtypeof. rewrite Hl. by destruct Ha as [_ [[Hf E]|[Hf E]]]; rewrite Hf, E.
Qed.

(** [masktocount] recognises exactly the masks that [maskof] makes, and counts their bits;
    any other address gives -1 or, at least, no count that an address of the family has. *)
Theorem masktocount_correct a m k :
  wf_addr a -> wf_addr m -> sin_family m = sin_family a -> 0 <= k <= addr_bits a ->
  masktocount m = k <-> sin_addr <$> maskof (mk_subnet a k) = Some (sin_addr m).
Proof.
  intros Ha Hm Hf Hk. rewrite maskof_eq by done. cbn [fmap option_fmap option_map sin_addr].
  pose proof (wf_addr_length m a Hm Ha Hf) as Hl.
  destruct (wf_addr_read m Hm) as [Hr Hn]. unfold masktocount. rewrite Hr, (proj2 (Z.eqb_neq _ 0)), <- Hl by lia. split.
  - intros Hc. f_equal. symmetry. apply count_bytes_inv; [apply Hm|done|lia].
  - intros [= <-]. rewrite Hl. by apply count_mask_bytes.
Qed.

Lemma masktocount_correct_witness :
  masktocount (mk_ip AF_INET 0 [255; 255; 240; 0]) = 20 <->
  sin_addr <$> maskof (mk_subnet (mk_ip AF_INET 0 [10; 1; 16; 0]) 20) = Some [255; 255; 240; 0].
Proof.
  apply (masktocount_correct (mk_ip AF_INET 0 [10; 1; 16; 0]) (mk_ip AF_INET 0 [255; 255; 240; 0]) 20);
    [split; [by_decide|by left]..|done|by_decide].
Defined.

(** ** goodmask.c *)

Lemma odd_part x : 0 < x -> exists k z, 0 <= k /\ 0 <= z /\ x = (2 * z + 1) * 2 ^ k.
Proof.
  intros Hx. destruct x as [|p|p]; try lia. clear Hx. induction p as [p IH|p IH|].
  - exists 0, (Z.pos p). split; [lia|]. split; [lia|]. lia.
  - destruct IH as (k&z&Hk&Hz&E). exists (k + 1), z. split; [lia|]. split; [done|].
    rewrite Z.pow_add_r by lia. lia.
  - exists 0, 0. by vm_compute.
Qed.

(** A number that keeps no bit when its last string of ones is carried out, and that has the
    top bit of its width, is that one string. *)
Lemma one_string y w :
  0 < w -> 2 ^ (w - 1) <= y < 2 ^ w -> Z.land (y + 1) y = 0 -> y + 1 = 2 ^ w.
Proof.
  intros Hw Hy Hl. destruct (decide (y + 1 = 2 ^ w)) as [|Hn]; [done|]. exfalso.
  assert (Ht : forall v, 2 ^ (w - 1) <= v < 2 ^ w -> Z.testbit v (w - 1) = true).
  { intros v Hv. rewrite Z.testbit_true by lia.
    replace (2 ^ w) with (2 * 2 ^ (w - 1)) in Hv by (rewrite <- Z.pow_succ_r by lia; f_equal; lia).
    replace (v / 2 ^ (w - 1)) with 1; [done|]. apply (Z.div_unique v (2 ^ (w - 1)) 1 (v - 2 ^ (w - 1))); lia. }
  assert (Z.testbit (Z.land (y + 1) y) (w - 1) = true) as Hb by (rewrite Z.land_spec, !Ht by lia; done).
  by rewrite Hl, Z.bits_0 in Hb.
Qed.

Lemma CRCS1B_eq z k :
  0 <= k -> 0 <= z -> (2 * z + 1) * 2 ^ k < 2 ^ 32 ->
  CRCS1B ((2 * z + 1) * 2 ^ k) = Z.land (2 * z + 2) (2 * z + 1) * 2 ^ k.
Proof.
  intros Hk Hz Hx. set (x := (2 * z + 1) * 2 ^ k) in *. assert (0 < x) by (unfold x; nia). unfold CRCS1B.
  rewrite (u64_small (x - 1)) by lia.
  assert (Z.lor x (x - 1) = x + 2 ^ k - 1) as ->.
  { replace (x - 1) with (Z.lor (Z.shiftl (2 * z) k) (2 ^ k - 1)) by (rewrite lor_shiftl by lia; unfold x; lia).
    unfold x at 1. rewrite <- Z.shiftl_mul_pow2, Z.lor_assoc, <- Z.shiftl_lor by lia.
    replace (Z.lor (2 * z + 1) (2 * z)) with (2 * z + 1).
    - rewrite lor_shiftl by lia. unfold x. lia.
    - assert (Z.lor (2 * z) 1 = 2 * z + 1) as <-.
      { pose proof (lor_shiftl z 1 1 ltac:(lia) ltac:(lia)) as L. rewrite Z.shiftl_mul_pow2 in L by lia.
        by rewrite (Z.mul_comm z) in L. }
      by rewrite (Z.lor_comm (Z.lor _ _) (2 * z)), Z.lor_assoc, Z.lor_diag. }
  assert (2 ^ k <= x) by (unfold x; nia). rewrite u64_small by lia.
  replace (x + 2 ^ k - 1 + 1) with ((2 * z + 2) * 2 ^ k) by (unfold x; lia). unfold x.
  rewrite <- !Z.shiftl_mul_pow2, <- Z.shiftl_land by lia. done.
Qed.

Lemma TOPBIT_test x : 0 <= x < 2 ^ 32 -> negb (Z.land x TOPBIT =? 0) = (2 ^ 31 <=? x).
Proof.
  intros Hx. change TOPBIT with (2 ^ 31). destruct (Z.leb_spec (2 ^ 31) x) as [H|H].
  - apply negb_true_iff, Z.eqb_neq. intros H0.
    assert (Z.testbit (Z.land x (2 ^ 31)) 31 = true) as Hb; [|by rewrite H0 in Hb].
    rewrite Z.land_spec, Z.pow2_bits_true, andb_true_r, Z.testbit_true by lia.
    replace (x / 2 ^ 31) with 1; [done|]. apply (Z.div_unique x (2 ^ 31) 1 (x - 2 ^ 31)); lia.
  - apply negb_false_iff, Z.eqb_eq, Z.bits_inj'. intros i Hi. rewrite Z.land_spec, Z.bits_0.
    destruct (decide (i = 31)) as [->|Hn]; [|by rewrite Z.pow2_bits_false, andb_false_r by lia].
    rewrite Z.pow2_bits_true, andb_true_r, Z.testbit_false by lia. by rewrite Z.div_small by lia.
Qed.

Lemma goodmask_inv x : 0 <= x < 2 ^ 32 -> goodmask x = true -> exists n, 0 <= n <= 32 /\ x = bitstomask n.
Proof.
  intros Hx Hg. unfold goodmask in Hg. destruct (Z.eqb_spec x 0) as [->|Hn]; [by exists 0|]. cbn [orb] in Hg.
  apply andb_true_iff in Hg as [Hc%Z.eqb_eq Ht]. rewrite TOPBIT_test, Z.leb_le in Ht by done.
  destruct (odd_part x ltac:(lia)) as (k&z&Hk&Hz&->). rewrite CRCS1B_eq in Hc by lia.
  assert (k < 32) as Hk32. { apply (Z.pow_lt_mono_r_iff 2); [lia|lia|]. nia. }
  assert (2 ^ 32 = 2 ^ (32 - k) * 2 ^ k) as E32 by (rewrite <- Z.pow_add_r by lia; f_equal; lia).
  assert (2 * 2 ^ 31 = 2 ^ (32 - k) * 2 ^ k) as E31 by (rewrite <- E32; done).
  assert (2 ^ (32 - k) = 2 * 2 ^ (32 - k - 1)) as Eh by (rewrite <- Z.pow_succ_r by lia; f_equal; lia).
  assert (2 * z + 1 + 1 = 2 ^ (32 - k)) as E.
  { apply one_string; [lia| |]; [nia|]. replace (2 * z + 1 + 1) with (2 * z + 2) by lia.
    apply (Z.mul_eq_0_l _ (2 ^ k)); lia. }
  exists (32 - k). split; [lia|]. unfold bitstomask, ABITS.
  rewrite (proj2 (Z.ltb_lt 0 _)), (proj2 (Z.leb_le _ 32)) by lia. cbn [andb].
  replace (32 - (32 - k)) with k by lia. rewrite Z.shiftl_mul_pow2, Z.mul_1_l by lia. unfold u32, Z.lnot.
  apply (Z.mod_unique _ _ (-1)); [lia|]. lia.
Qed.

(** The inverse of [bitstomask], on all counts. *)
Definition bits_ok (n : Z) : bool := goodmask (bitstomask n) && (masktobits (bitstomask n) =? n).

Lemma masktobits_bitstomask n : 0 <= n <= 32 -> goodmask (bitstomask n) = true /\ masktobits (bitstomask n) = n.
Proof.
  intros Hn. assert (bits_ok n = true) as H by (apply (below_forall 33 bits_ok); [vm_compute; reflexivity|lia]).
  apply andb_true_iff in H as [H1 H2%Z.eqb_eq]. done.
Qed.

(** [goodmask] recognises, without a loop, exactly the masks that [bitstomask] makes;
    [masktobits] gives the count back for them, and -1 for any other number. *)
Theorem goodmask_correct x :
  0 <= x < 2 ^ 32 ->
  (goodmask x = true <-> exists n, 0 <= n <= 32 /\ x = bitstomask n) /\
  (forall n, 0 <= n <= 32 -> masktobits x = n <-> x = bitstomask n) /\
  (goodmask x = false -> masktobits x = -1).
Proof.
  intros Hx. split; [split; [by apply goodmask_inv|by intros (n&Hn&->); apply masktobits_bitstomask]|]. split.
  - intros n Hn. split; [|intros ->; by apply masktobits_bitstomask].
    intros E. destruct (goodmask x) eqn:Hg.
    + destruct (goodmask_inv x Hx Hg) as (n'&Hn'&->). f_equal. rewrite <- E. symmetry. by apply masktobits_bitstomask.
    + unfold masktobits in E. rewrite Hg in E. cbn in E. lia.
  - intros Hg. unfold masktobits. by rewrite Hg.
Qed.

Lemma goodmask_correct_witness :
  (goodmask 0xffffff80 = true <-> exists n, 0 <= n <= 32 /\ 0xffffff80 = bitstomask n) /\
  (forall n, 0 <= n <= 32 -> masktobits 0xffffff80 = n <-> 0xffffff80 = bitstomask n) /\
  (goodmask 0xffffff80 = false -> masktobits 0xffffff80 = -1).
Proof. apply goodmask_correct. by_decide. Defined.
