(* ===== verification/SubnetText.v ===== *)
(** The texts of subnets and ranges: what [subnetporttot] and [rangetot] print is read back
    by [ttosubnet] and [ttorange]. *)
From S2P Require Import Prelude Numbers Address AddressText Subnet SubnetTheorems.

Lemma length_pos {A} (l : list A) k : (1 <= length l <= k)%nat -> l <> [].
Proof. destruct l; [cbn; lia|done]. Qed.

(** * Decimal numbers *)

Lemma dec_text_spec n k :
  0 <= n < 10 ^ Z.of_nat (S k) -> (k < 19)%nat ->
  ultot_text n 10 = Some (dec_text n) /\ Forall (fun c => isdigit c = true) (dec_text n) /\
  (1 <= length (dec_text n) <= S k)%nat /\ ttoul_text (dec_text n) 10 = Ok n /\
  (n <> 0 -> ttoul_text (dec_text n) 0 = Ok n).
Proof.
  intros Hn Hk. destruct (digits_small 10 n k) as (_&Hd&Hl); [lia|done|lia|].
  assert (0 <= n < 2 ^ 64) as Hn64.
  { split; [lia|]. apply (Z.lt_le_trans _ (10 ^ Z.of_nat (S k))); [lia|].
    transitivity (10 ^ 19); [apply Z.pow_le_mono_r; lia|by vm_compute]. }
  assert (Hu : ultot_text n 10 = Some (dec_text n)) by done.
  pose proof (ttoul_text_printed n 10 _ Hn64 Hu) as Hp. change (read_base 10) with 10 in Hp.
  split; [done|]. split.
  { unfold dec_text. apply Forall_fmap. eapply Forall_impl; [exact Hd|]. intros d Hd'. by apply hex_digit_isdigit. }
  split; [unfold dec_text; by rewrite length_fmap|]. split; [done|]. intros Hn0. rewrite <- Hp.
  destruct (digits_loop_head 10 64 n []) as (d&t&Ed&Hd0); [lia|split; [lia|]|].
  { apply (Z.lt_le_trans _ (2 ^ 64)); [lia|by vm_compute]. }
  unfold dec_text, digits in *. rewrite Ed in *. apply Forall_cons in Hd as [Hd Ht]. rewrite fmap_cons.
  assert ((hex_digit d =? 48) = false) as H48.
  { apply Z.eqb_neq. destruct (hex_digit_isdigit d Hd). lia. }
  unfold ttoul_text. change (0 =? 0) with true. change (10 =? 0) with false. cbv iota. change (chr "0") with 48.
  rewrite H48, andb_false_r. by destruct (hex_digit <$> t).
Qed.

Lemma ultot_fits n k rest :
  0 <= n < 10 ^ Z.of_nat (S k) -> (k < 19)%nat -> Z.of_nat (S k) < rest ->
  ultot n 10 rest = (Z.of_nat (length (dec_text n)) + 1, dec_text n ++ [0]).
Proof.
  intros Hn Hk Hr. destruct (dec_text_spec n k Hn Hk) as (Hu&_&Hl&_). unfold ultot. rewrite Hu.
  rewrite (proj2 (Z.ltb_lt 0 rest)), (proj2 (Z.ltb_ge rest _)) by lia. done.
Qed.

(** * Scanning *)

Lemma memchr_found pre c rest n :
  c ∉ pre -> Z.of_nat (length pre) < n -> memchr (pre ++ c :: rest) c n = Ok (Some (Z.of_nat (length pre))).
Proof.
  intros Hc Hn. unfold memchr. remember (Z.to_nat n) as k eqn:Ek. assert (length pre < k)%nat as Hk by lia. clear n Hn Ek.
  revert k Hk. induction pre as [|x pre IH]; intros [|k] Hk; cbn [length] in Hk; try lia; cbn [app memchr_at].
  - by rewrite Z.eqb_refl.
  - apply not_elem_of_cons in Hc as [Hx Hc]. rewrite (proj2 (Z.eqb_neq x c)), IH, bind_Ok by (done || congruence || lia).
    cbn [option_map length]. do 2 f_equal. lia.
Qed.

Lemma memchr_absent pre c rest :
  c ∉ pre -> memchr (pre ++ rest) c (Z.of_nat (length pre)) = Ok None.
Proof.
  intros Hc. unfold memchr. rewrite Nat2Z.id. induction pre as [|x pre IH]; [by destruct rest|].
  apply not_elem_of_cons in Hc as [Hx Hc]. cbn [app length memchr_at].
  by rewrite (proj2 (Z.eqb_neq x c)), IH, bind_Ok by (done || congruence).
Qed.

Lemma source_prefix pre rest :
  pre <> [] -> source (pre ++ rest) (Z.of_nat (length pre)) = Some pre.
Proof.
  intros Hp. unfold source. destruct pre as [|c pre]; [done|]. rewrite (proj2 (Z.eqb_neq _ 0)) by (cbn; lia).
  rewrite (proj2 (Z.leb_le _ _)) by (rewrite length_app; lia). by rewrite Nat2Z.id, take_app_length.
Qed.

Lemma drop_past pre c (rest : list Z) : drop (Z.to_nat (Z.of_nat (length pre) + 1)) (pre ++ c :: rest) = rest.
Proof. replace (Z.to_nat (Z.of_nat (length pre) + 1)) with (S (length pre)) by lia. by rewrite drop_middle. Qed.

(** A text whose characters all satisfy [f] does not contain one that does not. *)
Lemma chars_not (f : Z -> bool) c t : f c = false -> Forall (fun x => f x = true) t -> c ∉ t.
Proof. intros Hc Ht Hin. rewrite Forall_forall in Ht. specialize (Ht _ Hin). congruence. Qed.

Lemma chars_nonzero (f : Z -> bool) t :
  f 0 = false -> Forall (fun x => f x = true) t -> Forall (fun c => c <> 0) t.
Proof. intros H0 Ht. eapply Forall_impl; [exact Ht|]. intros c Hc ->. congruence. Qed.

(** * Addresses inside texts *)

Definition addr_char (c : Z) : bool := dotted_char c || colon_char c.

Lemma address_text a :
  wf_addr a ->
  exists t, (forall n, Z.of_nat (length t) < n -> addrtot a 0 n = (Z.of_nat (length t) + 1, t ++ [0])) /\
    Forall (fun c => addr_char c = true) t /\ t <> [] /\ (length t <= 40)%nat /\
    (forall rest af, af = AF_UNSPEC \/ af = sin_family a ->
       ttoaddr_num (t ++ rest) (Z.of_nat (length t)) af = Ok (mk_ip (sin_family a) 0 (sin_addr a))).
Proof.
  intros Ha. destruct (addrtot_text a 0 Ha (or_introl eq_refl)) as (t&Ht&_&Hne&Hl&Hp). exists t. split_and!; try done.
  - intros n Hn. rewrite (addrtot_eq a 0 t n Ha Ht). unfold store_text.
    by rewrite (proj2 (Z.ltb_lt 0 n)), (proj2 (Z.ltb_ge n _)) by lia.
  - destruct Ha as [Hb [[Hf Hlen]|[Hf Hlen]]]; rewrite Hf in Ht.
    + change (Some (normal4 (sin_addr a)) = Some t) in Ht. apply (inj Some) in Ht. subst t.
      destruct (normal4_chars _ Hb Hlen) as [Hc _]. eapply Forall_impl; [exact Hc|].
      intros c Hc'. unfold addr_char. by rewrite Hc'.
    + change (Some (normal6 (sin_addr a) true) = Some t) in Ht. apply (inj Some) in Ht. subst t.
      destruct (normal6_chars _ true Hb Hlen) as [Hc _]. eapply Forall_impl; [exact Hc|].
      intros c Hc'. unfold addr_char. by rewrite Hc', orb_true_r.
  - intros rest af Haf. unfold ttoaddr_num, addr_source. rewrite source_prefix by done. cbn [defined].
    rewrite bind_Ok. destruct t; [done|]. by rewrite bind_Ok, Hp.
Qed.

(** * Subnets *)

Lemma clear_host_aligned m p q : clear_host true m p = Ok q -> clear_host false m p = Ok q.
Proof.
  revert m q. induction p as [|b p IH]; intros m q H; [done|]. cbn [clear_host] in *.
  destruct (negb (Z.land b m =? 0)); [done|]. rewrite bind_Ok in *. apply bind_ok in H as (r&Hr&H).
  by rewrite (IH _ _ Hr), bind_Ok.
Qed.

Lemma initsubnet_aligned s : wf_subnet s -> initsubnet (addr s) (maskbits s) (chr "0") = Ok s.
Proof.
  intros (Ha&Hm&Hz). destruct (initsubnet_spec (addr s) (maskbits s) Ha Hm) as [_ Hx].
  fold (host_bits s) in Hx. rewrite Hz, initsubnet_eq in Hx by auto. rewrite initsubnet_eq by auto.
  apply bind_ok in Hx as (p&Hp&E). change (chr "0" =? chr "x") with false.
  rewrite (clear_host_aligned _ _ _ Hp), bind_Ok, E. by destruct s.
Qed.

Lemma subnet_source_text t af :
  Forall (fun c => c <> 0) t -> 47 ∈ t -> subnet_source (t ++ [0]) 0 af = Ok (t ++ [0], Z.of_nat (length t)).
Proof.
  intros Hn Hin. unfold subnet_source. change (0 =? 0) with true. cbv iota. rewrite cstring_nul by done. cbn [defined].
  rewrite bind_Ok. destruct t as [|c t]; [by apply elem_of_nil in Hin|]. rewrite bind_Ok.
  destruct (Z.of_nat (length (c :: t)) =? 8) eqn:E; [|done]. rewrite bool_decide_eq_false_2; [done|].
  replace 8%nat with (length (c :: t)) by lia. rewrite take_app_length. intros E0.
  rewrite E0 in Hin. revert Hin. by_decide.
Qed.

Lemma ttoulb_printed m rest n base upb :
  m <> [] -> ttoul_text m base = Ok n -> n <= upb -> ttoulb (m ++ rest) (Z.of_nat (length m)) base upb = Ok n.
Proof.
  intros Hm Hp Hn. unfold ttoulb, ttoul. rewrite source_prefix by done. cbn [defined].
  rewrite bind_Ok, Hp, bind_Ok, (proj2 (Z.ltb_ge upb n)) by done. done.
Qed.

Lemma setportof_eq a port : wf_addr a -> 0 <= port < 2 ^ 16 -> setportof port a = mk_ip (sin_family a) port (sin_addr a).
Proof.
  intros [_ Hf] Hp. unfold setportof. rewrite u16_small by done. by destruct Hf as [[-> _]|[-> _]].
Qed.

(** The port of a subnet's text. *)
Definition port_text (port : Z) : list Z := if port =? 0 then [] else 58 :: dec_text port.

(** Reading the port that follows the digits [m] of the mask. *)
Lemma scan_port a m :
  wf_addr a -> 0 <= sin_port a < 2 ^ 16 -> Forall (fun c => isdigit c = true) m ->
  let mask := (m ++ port_text (sin_port a)) ++ [0] in
  let mlen := Z.of_nat (length (m ++ port_text (sin_port a))) in
  let a0 := mk_ip (sin_family a) 0 (sin_addr a) in
  (colon ← memchr mask (chr ":") mlen;
   match colon with
   | None => Ok (setportof 0 a0, mlen)
   | Some c =>
       port ← ttoulb (drop (Z.to_nat (c + 1)) mask) (mlen - (c + 1)) 0 0xFFFF;
       Ok (setportof port a0, c)
   end) = Ok (a, Z.of_nat (length m)).
Proof.
  intros Ha Hp Hm mask mlen a0. assert (Hno : 58 ∉ m) by by apply (chars_not isdigit).
  assert (Ha0 : wf_addr a0) by done. unfold mask, mlen, port_text. change (chr ":") with 58.
  destruct (Z.eqb_spec (sin_port a) 0) as [E|Hn].
  - rewrite app_nil_r, memchr_absent, bind_Ok, setportof_eq by done. unfold a0. cbn. rewrite <- E. by destruct a.
  - destruct (dec_text_spec (sin_port a) 4) as (_&_&Hl&_&Hr); [cbn; lia|lia|]. rewrite <- app_assoc. cbn [app].
    rewrite memchr_found, bind_Ok, drop_past by (done || (rewrite length_app; cbn [length]; lia)).
    rewrite length_app. cbn [length]. replace (Z.of_nat _ - _) with (Z.of_nat (length (dec_text (sin_port a)))) by lia.
    rewrite (ttoulb_printed _ _ (sin_port a)); [|by apply (length_pos _ _ Hl)|by apply Hr|lia]. rewrite bind_Ok, setportof_eq by done.
    unfold a0. cbn. by destruct a.
Qed.

Lemma ttosubnet_text s t af :
  wf_subnet s -> 0 <= sin_port (addr s) < 2 ^ 16 ->
  Forall (fun c => addr_char c = true) t -> t <> [] ->
  (forall rest af, af = AF_UNSPEC \/ af = sin_family (addr s) ->
     ttoaddr_num (t ++ rest) (Z.of_nat (length t)) af = Ok (mk_ip (sin_family (addr s)) 0 (sin_addr (addr s)))) ->
  af = AF_UNSPEC \/ af = sin_family (addr s) ->
  ttosubnet ((t ++ 47 :: dec_text (maskbits s) ++ port_text (sin_port (addr s))) ++ [0]) 0 af = Ok s.
Proof.
  intros Hs Hport Hc Hne Haddr Haf. pose proof Hs as (Ha&Hm&_).
  assert (0 <= maskbits s <= 128) as Hm128.
  { destruct (wf_addr_read _ Ha) as [_ ?]. unfold addr_bits in Hm. lia. }
  destruct (dec_text_spec (maskbits s) 2) as (_&Hmd&Hml&Hmp&_); [cbn; lia|lia|].
  pose proof (length_pos _ _ Hml) as Hm0.
  set (m := dec_text (maskbits s)) in *. set (q := port_text (sin_port (addr s))).
  pose proof (chars_nonzero _ _ eq_refl Hc) as Htn. pose proof (chars_nonzero _ _ eq_refl Hmd) as Hmn.
  assert (Hq : Forall (fun c => c <> 0) q).
  { unfold q, port_text. destruct (_ =? 0); [constructor|]. constructor; [done|].
    destruct (dec_text_spec (sin_port (addr s)) 4) as (_&?&_); [cbn; lia|lia|]. by apply (chars_nonzero isdigit). }
  unfold ttosubnet.
  rewrite subnet_source_text; [|apply Forall_app_2; [done|constructor; [done|by apply Forall_app_2]]|set_solver].
  rewrite bind_Ok, <- app_assoc. cbn [app]. change (chr "/") with 47.
  rewrite memchr_found by (by apply (chars_not addr_char) || (rewrite length_app; cbn [length]; lia)).
  rewrite bind_Ok, drop_past, Haddr, bind_Ok by done. cbn [addrtypeof sin_family].
  replace (if af =? AF_UNSPEC then sin_family (addr s) else af) with (sin_family (addr s))
    by (destruct Haf as [-> | ->]; [done|by destruct (_ =? _)]).
  assert ((if sin_family (addr s) =? AF_INET then Ok 32 else if sin_family (addr s) =? AF_INET6 then Ok 128
           else Ugh "unknown address family in ttosubnet") = Ok (addr_bits (addr s))) as ->.
  { unfold addr_bits. by destruct Ha as [_ [[-> ->]|[-> ->]]]. }
  rewrite bind_Ok. replace (Z.of_nat _ - _) with (Z.of_nat (length (m ++ q))) by (rewrite !length_app; cbn [length]; rewrite length_app; lia).
  pose proof (scan_port (addr s) m Ha Hport Hmd) as Hscan. cbn zeta in Hscan. fold q in Hscan.
  apply bind_ok in Hscan as (colon&Hcol&Hscan). rewrite Hcol, bind_Ok, Hscan, bind_Ok, <- app_assoc.
  unfold subnet_mask. rewrite (ttoulb_printed _ _ (maskbits s)), bind_Ok by (done || lia). by apply initsubnet_aligned.
Qed.

(** What [subnettot] and [subnetporttot] store when there is room. *)
Lemma subnetporttot_text s t dstlen :
  wf_subnet s -> 0 <= sin_port (addr s) < 2 ^ 16 -> (length t <= 40)%nat -> 68 <= dstlen ->
  (forall n, Z.of_nat (length t) < n -> addrtot (addr s) 0 n = (Z.of_nat (length t) + 1, t ++ [0])) ->
  Forall (fun c => addr_char c = true) t ->
  exists len, subnetporttot s 0 dstlen =
    Ok (len, (t ++ 47 :: dec_text (maskbits s) ++ port_text (sin_port (addr s))) ++ [0]) /\ len <= dstlen.
Proof.
  intros (Ha&Hm&_) Hport Hl Hd Hat Hc.
  assert (0 <= maskbits s <= 128) as Hm128.
  { destruct (wf_addr_read _ Ha) as [_ ?]. unfold addr_bits in Hm. lia. }
  destruct (dec_text_spec (maskbits s) 2) as (_&Hmd&Hml&_); [cbn; lia|lia|].
  assert (Hsub : subnettot s 0 dstlen = (Z.of_nat (length t) + 1 + (Z.of_nat (length (dec_text (maskbits s))) + 1),
                   (t ++ 47 :: dec_text (maskbits s)) ++ [0])).
  { unfold subnettot. change (negb (0 =? 0)) with false. cbv iota. rewrite Hat by lia.
    rewrite (proj2 (Z.ltb_lt _ dstlen)), u64_small, (ultot_fits _ 2), removelast_last by (cbn; lia).
    by rewrite <- !app_assoc. }
  unfold subnetporttot. rewrite Hsub. assert (portof (addr s) = sin_port (addr s)) as ->.
  { unfold portof. by destruct Ha as [_ [[-> _]|[-> _]]]. }
  unfold port_text. destruct (Z.eqb_spec (sin_port (addr s)) 0) as [E|Hn].
  - eexists. split; [by rewrite app_nil_r|lia].
  - pose proof (chars_nonzero _ _ eq_refl Hc). pose proof (chars_nonzero _ _ eq_refl Hmd).
    destruct (dec_text_spec (sin_port (addr s)) 4) as (_&_&Hpl&_); [cbn; lia|lia|].
    rewrite cstring_nul by (apply Forall_app_2; [done|by constructor]). cbn [defined]. rewrite bind_Ok, length_app. cbn [length].
    unfold ULTOT_BUF. rewrite (proj2 (Z.ltb_ge dstlen _)), u16_small, (ultot_fits _ 4) by (done || lia || (cbn; lia)).
    eexists. split; [rewrite <- !app_assoc; cbn [app]; rewrite <- app_assoc; reflexivity|lia].
Qed.



(** A count of 0 means "apply strlen" to the routines that [ttosubnet] calls, also for the
    empty rest of a counted text: with the nine characters [10.0.0.0/] given, the mask is taken
    from whatever follows them, and without a NUL the scan leaves the object. *)
Theorem ttosubnet_reads_beyond :
  ttosubnet (str "10.0.0.0/16" ++ [0]) 9 AF_INET = Ok (mk_subnet (mk_ip AF_INET 0 [10; 0; 0; 0]) 16) /\
  ttosubnet (str "10.0.0.0/" ++ [0]) 9 AF_INET = Ugh "empty string" /\
  ttosubnet (str "10.0.0.0/") 9 AF_INET = Abort.
Proof. vm_compute. done. Qed.

(** * Ranges *)

(** A range as [ttorange] makes it. *)
Definition wf_v4_range (x : ip_range) : Prop :=
  wf_addr (r_start x) /\ wf_addr (r_end x) /\ sin_family (r_start x) = AF_INET /\ sin_family (r_end x) = AF_INET /\
  sin_port (r_start x) = 0 /\ sin_port (r_end x) = 0 /\ addr_value (r_start x) <= addr_value (r_end x).

Lemma port0_eq a : sin_port a = 0 -> mk_ip (sin_family a) 0 (sin_addr a) = a.
Proof. intros H. destruct a. cbn in *. by rewrite H. Qed.

(** [rangetot] fits every IPv4 range into 128 bytes, and [ttorange] reads it back; when
    0.0.0.0 is ruled out, exactly the ranges that start there are refused. *)
Theorem range_text_roundtrip x dstlen non_zero :
  wf_v4_range x -> 128 <= dstlen ->
  exists len t, rangetot x 0 dstlen = (len, t) /\ len <= dstlen /\
    ttorange t 0 AF_INET non_zero =
      (if non_zero && (addr_value (r_start x) =? 0) then Ugh "'0.0.0.0' not allowed in range" else Ok x).
Proof.
  intros (Hs&He&Fs&Fe&Ps&Pe&Hle) Hd.
  destruct (address_text _ Hs) as (t1&Ha1&Hc1&Hn1&Hl1&Hr1). destruct (address_text _ He) as (t2&Ha2&Hc2&Hn2&Hl2&Hr2).
  exists (Z.of_nat (length t1) + 1 + (Z.of_nat (length t2) + 1)), ((t1 ++ 45 :: t2) ++ [0]). split; [|split; [lia|]].
  - unfold rangetot. rewrite Ha1 by lia.
    rewrite (proj2 (Z.ltb_lt 0 dstlen)), (proj2 (Z.ltb_lt (_ - 1) (dstlen - 1))), removelast_last by lia. cbn [andb].
    replace (Z.of_nat (length t1) + 1 - 1 + 1) with (Z.of_nat (length t1) + 1) by lia.
    rewrite (proj2 (Z.ltb_lt (Z.of_nat (length t1) + 1) dstlen)), Ha2 by lia. by rewrite <- !app_assoc.
  - unfold ttorange. change (negb (AF_INET =? AF_INET)) with false. change (0 =? 0) with true. cbv iota.
    pose proof (chars_nonzero _ _ eq_refl Hc1). pose proof (chars_nonzero _ _ eq_refl Hc2).
    rewrite cstring_nul by (apply Forall_app_2; [done|by constructor]). cbn [defined]. rewrite !bind_Ok.
    rewrite <- app_assoc. cbn [app]. change (chr "-") with 45.
    rewrite memchr_found by (by apply (chars_not addr_char) || (rewrite length_app; cbn [length]; lia)).
    rewrite bind_Ok, Hr1, bind_Ok, drop_past by auto.
    replace (Z.of_nat (length (t1 ++ 45 :: t2)) - _) with (Z.of_nat (length t2)) by (rewrite length_app; cbn [length]; lia).
    rewrite Hr2, bind_Ok, !port0_eq by auto. fold (addr_value (r_start x)) (addr_value (r_end x)).
    rewrite (proj2 (Z.ltb_ge _ _)) by done. destruct (_ && _); [done|]. by destruct x.
Qed.

Lemma range_text_roundtrip_witness :
  let x := mk_range (mk_ip AF_INET 0 [10; 0; 0; 1]) (mk_ip AF_INET 0 [10; 0; 0; 99]) in
  exists len t, rangetot x 0 147 = (len, t) /\ len <= 147 /\
    ttorange t 0 AF_INET true =
      (if true && (addr_value (r_start x) =? 0) then Ugh "'0.0.0.0' not allowed in range" else Ok x).
Proof.
  apply (range_text_roundtrip (mk_range (mk_ip AF_INET 0 [10; 0; 0; 1]) (mk_ip AF_INET 0 [10; 0; 0; 99])) 147 true);
    [|by_decide].
  split_and!; try done; [split; [by_decide|by left]..|by_decide].
Defined.

(** * The regression tables of the sources *)

(** [rtab] of ttosubnet.c *)
Definition ttosubnet_rtab : list (Z * string * option string) := [
  (4, "1.2.3.0/255.255.255.0", Some "1.2.3.0/24");
  (4, "1.2.3.0/24", Some "1.2.3.0/24");
  (4, "1.2.3.0/24:10", Some "1.2.3.0/24:10");
  (4, "1.2.3.0/24:-1", None);
  (4, "1.2.3.0/24:none", None);
  (4, "1.2.3.0/24:", None);
  (4, "1.2.3.0/24:0x10", Some "1.2.3.0/24:16");
  (4, "1.2.3.0/24:0X10", Some "1.2.3.0/24:16");
  (4, "1.2.3.0/24:010", Some "1.2.3.0/24:8");
  (4, "1.2.3.1/255.255.255.240", Some "1.2.3.0/28");
  (4, "1.2.3.1/32", Some "1.2.3.1/32");
  (4, "1.2.3.1/0", Some "0.0.0.0/0");
  (4, "1.2.3.1/255.255.127.0", None);
  (4, "128.009.000.032/32", Some "128.9.0.32/32");
  (4, "128.0x9.0.32/32", None);
  (4, "0x80090020/32", Some "128.9.0.32/32");
  (4, "0x800x0020/32", None);
  (4, "128.9.0.32/0xffFF0000", Some "128.9.0.0/16");
  (4, "128.9.0.32/0xff0000FF", None);
  (4, "128.9.0.32/0x0000ffFF", None);
  (4, "128.9.0.32/0x00ffFF0000", None);
  (4, "128.9.0.32/0xffFF", None);
  (4, "128.9.0.32.27/32", None);
  (4, "128.9.0k32/32", None);
  (4, "328.9.0.32/32", None);
  (4, "128.9..32/32", None);
  (4, "10/8", Some "10.0.0.0/8");
  (4, "10.0/8", Some "10.0.0.0/8");
  (4, "10.0.0/8", Some "10.0.0.0/8");
  (4, "10.0.1/24", Some "10.0.1.0/24");
  (4, "_", None);
  (4, "_/_", None);
  (4, "1.2.3.1", None);
  (4, "1.2.3.1/_", None);
  (4, "1.2.3.1/24._", None);
  (4, "1.2.3.1/99", None);
  (4, "localhost/32", None);
  (4, "%default", Some "0.0.0.0/0");
  (6, "3049:1::8007:2040/0", Some "::/0");
  (6, "3049:1::8007:2040/128", Some "3049:1::8007:2040/128");
  (6, "3049:1::192.168.0.1/128", None);
  (6, "3049:1::8007::2040/128", None);
  (6, "3049:1::8007:2040/ffff:0", None);
  (6, "3049:1::8007:2040/64", Some "3049:1::/64");
  (6, "3049:1::8007:2040/64:53", Some "3049:1::/64:53");
  (6, "3049:1::8007:2040/ffff:", None);
  (6, "3049:1::8007:2040/0000:ffff::0", None);
  (6, "3049:1::8007:2040/ff1f:0", None);
  (6, "3049:1::8007:x:2040/128", None);
  (6, "3049:1t::8007:2040/128", None);
  (6, "3049:1::80071:2040/128", None);
  (6, "::/21", Some "::/21");
  (6, "::1/128", Some "::1/128");
  (6, "1::/21", Some "1::/21");
  (6, "1::2/128", Some "1::2/128");
  (6, "1:0:0:0:0:0:0:2/128", Some "1::2/128");
  (6, "1:0:0:0:3:0:0:2/128", Some "1::3:0:0:2/128");
  (6, "1:0:0:3:0:0:0:2/128", Some "1::3:0:0:0:2/128");
  (6, "1:0:3:0:0:0:0:2/128", Some "1:0:3::2/128");
  (6, "abcd:ef01:2345:6789:0:00a:000:20/128", Some "abcd:ef01:2345:6789:0:a:0:20/128");
  (6, "3049:1::8007:2040/ffff:ffff:", None);
  (6, "3049:1::8007:2040/ffff:88:", None);
  (6, "3049:12::9000:3200/ffff:fff0", None);
  (6, "3049:12::9000:3200/28", Some "3049:10::/28");
  (6, "3049:12::9000:3200/ff00:", None);
  (6, "3049:12::9000:3200/ffff:", None);
  (6, "3049:12::9000:3200/128_", None);
  (6, "3049:12::9000:3200/", None);
  (6, "%default", Some "::/0")].

(** [rtab] of rangetosubnet.c *)
Definition rangetosubnet_rtab : list (Z * string * string * option string) := [
  (4, "1.2.3.0", "1.2.3.255", Some "1.2.3.0/24");
  (4, "1.2.3.0", "1.2.3.7", Some "1.2.3.0/29");
  (4, "1.2.3.240", "1.2.3.255", Some "1.2.3.240/28");
  (4, "0.0.0.0", "255.255.255.255", Some "0.0.0.0/0");
  (4, "1.2.3.4", "1.2.3.4", Some "1.2.3.4/32");
  (4, "1.2.3.0", "1.2.3.254", None);
  (4, "1.2.3.0", "1.2.3.126", None);
  (4, "1.2.3.0", "1.2.3.125", None);
  (4, "1.2.0.0", "1.2.255.255", Some "1.2.0.0/16");
  (4, "1.2.0.0", "1.2.0.255", Some "1.2.0.0/24");
  (4, "1.2.255.0", "1.2.255.255", Some "1.2.255.0/24");
  (4, "1.2.255.0", "1.2.254.255", None);
  (4, "1.2.255.1", "1.2.255.255", None);
  (4, "1.2.0.1", "1.2.255.255", None);
  (6, "1:2:3:4:5:6:7:0", "1:2:3:4:5:6:7:ffff", Some "1:2:3:4:5:6:7:0/112");
  (6, "1:2:3:4:5:6:7:0", "1:2:3:4:5:6:7:fff", Some "1:2:3:4:5:6:7:0/116");
  (6, "1:2:3:4:5:6:7:f0", "1:2:3:4:5:6:7:ff", Some "1:2:3:4:5:6:7:f0/124")].

(** [rtab] of iprange.c *)
Definition iprange_rtab : list (Z * string * string * Z) := [
  (4, "1.2.255.0", "1.2.254.255", 1);
  (4, "1.2.3.0", "1.2.3.7", 3);
  (4, "1.2.3.0", "1.2.3.255", 8);
  (4, "1.2.3.240", "1.2.3.255", 4);
  (4, "0.0.0.0", "255.255.255.255", 32);
  (4, "1.2.3.4", "1.2.3.4", 0);
  (4, "1.2.3.0", "1.2.3.254", 8);
  (4, "1.2.3.0", "1.2.3.126", 7);
  (4, "1.2.3.0", "1.2.3.125", 7);
  (4, "1.2.0.0", "1.2.255.255", 16);
  (4, "1.2.0.0", "1.2.0.255", 8);
  (4, "1.2.255.0", "1.2.255.255", 8);
  (4, "1.2.255.1", "1.2.255.255", 8);
  (4, "1.2.0.1", "1.2.255.255", 16);
  (6, "1:2:3:4:5:6:7:0", "1:2:3:4:5:6:7:ffff", 16);
  (6, "1:2:3:4:5:6:7:0", "1:2:3:4:5:6:7:fff", 12);
  (6, "1:2:3:4:5:6:7:f0", "1:2:3:4:5:6:7:ff", 4)].

Definition family_of (family : Z) : Z := if family =? 4 then AF_INET else AF_INET6.

Section Regress.
Context (gethostbyname2 : list Z -> Z -> option (Z * list Z)) (getnetbyname : list Z -> option (Z * Z)).

(** A row of [regress] in ttosubnet.c, which looks at the texts only after an error. *)
Definition ttosubnet_row (r : Z * string * option string) : bool :=
  let '(family, input, output) := r in
  match ttosubnet (str input ++ [0]) 0 (family_of family), output with
  | Ok _, Some _ | Ugh _, None => true
  | _, _ => false
  end.

(** The output column as well. *)
Definition ttosubnet_output (r : Z * string * option string) : bool :=
  let '(family, input, output) := r in
  match ttosubnet (str input ++ [0]) 0 (family_of family), output with
  | Ok s, Some o =>
      match subnetporttot s 0 100 with
      | Ok (n, t) => (n <=? 100) && bool_decide (t = str o ++ [0])
      | _ => false
      end
  | Ugh _, None => true
  | _, _ => false
  end.

(** A row of [regress] in rangetosubnet.c. *)
Definition rangetosubnet_row (r : Z * string * string * option string) : bool :=
  let '(family, first, last, output) := r in
  let af := family_of family in
  match ttoaddr gethostbyname2 getnetbyname (str first ++ [0]) 0 af,
        ttoaddr gethostbyname2 getnetbyname (str last ++ [0]) 0 af with
  | Ok a, Ok b =>
      match rangetosubnet a b, output with
      | Ugh _, None => true
      | Ok sub, Some o =>
          let '(n, t) := subnettot sub 0 100 in (n <=? 100) && bool_decide (t = str o ++ [0])
      | _, _ => false
      end
  | _, _ => false
  end.

(** A row of [regress] in iprange.c. *)
Definition iprange_row (r : Z * string * string * Z) : bool :=
  let '(family, low, high, range) := r in
  let af := family_of family in
  match ttoaddr gethostbyname2 getnetbyname (str high ++ [0]) 0 af,
        ttoaddr gethostbyname2 getnetbyname (str low ++ [0]) 0 af with
  | Ok h, Ok l => bool_decide (iprange_bits h l = Ok range)
  | _, _ => false
  end.

End Regress.

(** The definitions pass the regression tables of ttosubnet.c, rangetosubnet.c and iprange.c,
    the unchecked output column of ttosubnet.c included. *)
Theorem subnet_regression :
  forallb ttosubnet_row ttosubnet_rtab && forallb ttosubnet_output ttosubnet_rtab &&
  forallb (rangetosubnet_row (fun _ _ => None) (fun _ => None)) rangetosubnet_rtab &&
  forallb (iprange_row (fun _ _ => None) (fun _ => None)) iprange_rtab = true.
Proof. vm_compute. reflexivity. Qed.
