(* ===== verification/Asn1.v ===== *)
(** ASN.1: the DER lengths and strings of lib/libswan/asn1.c, and the table of object
    identifiers of lib/libswan/oid.c.

    A [chunk_t] is the list of its bytes; advancing its pointer drops bytes, and a read
    through the pointer of an empty chunk is undefined ([Abort]). *)
From S2P Require Import Prelude.

Definition ASN1_OID : Z := 6.
Definition ASN1_PRINTABLESTRING : Z := 19.
Definition ASN1_T61STRING : Z := 20.
Definition ASN1_IA5STRING : Z := 22.
Definition ASN1_SEQUENCE : Z := 48.
Definition ASN1_SET : Z := 49.

(** [~(size_t) 0] *)
Definition ASN1_INVALID_LENGTH : Z := 2 ^ 64 - 1.
Definition ASN1_MAX_LEN_LEN : Z := 4.

(** * Lengths *)

(** [while (n-- > 0) { len = 256 * len + *blob->ptr++; blob->len--; }] *)
Fixpoint asn1_length_loop (n : nat) (len : Z) (blob : list Z) : Z * list Z :=
  match n, blob with
  | S n', b :: blob' => asn1_length_loop n' (u64 (256 * len + b)) blob'
  | _, _ => (len, blob)
  end.

(** The length, and the blob with the tag and the length octets consumed. *)
Definition asn1_length (blob : list Z) : Z * list Z :=
  match blob with
  | _ :: n :: blob =>
      let blen := Z.of_nat (length blob) in
      if Z.land n 128 =? 0 then
        if blen <? n then (ASN1_INVALID_LENGTH, blob) else (n, blob)
      else
        let n := Z.land n 127 in
        if blen <? n then (ASN1_INVALID_LENGTH, blob)
        else if 8 <? n then (ASN1_INVALID_LENGTH, blob)
        else
          let '(len, blob) := asn1_length_loop (Z.to_nat n) 0 blob in
          if Z.of_nat (length blob) <? len then (ASN1_INVALID_LENGTH, blob) else (len, blob)
  | _ => (ASN1_INVALID_LENGTH, blob)
  end.

Definition code_asn1_length (length : Z) : list Z :=
  if length <? 128 then [u8 length]
  else if length <? 256 then [129; u8 length]
  else if length <? 65536 then [130; u8 (Z.shiftr length 8); u8 (Z.land length 255)]
  else [131; u8 (Z.shiftr length 16); u8 (Z.land (Z.shiftr length 8) 255); u8 (Z.land length 255)].

(** The object with its tag and length filled in, the data still zero. *)
Definition build_asn1_object (type datalen : Z) : list Z :=
  u8 type :: code_asn1_length datalen ++ replicate (Z.to_nat datalen) 0.

Definition printablestring_charset : list Z :=
  str "ABCDEFGHIJKLMNOPQRSTUVWXYZabcdefghijklmnopqrstuvwxyz0123456789 '()+,-./:=?".

(** [strchr(set, c) == NULL]: the terminating NUL of the set counts. *)
Definition is_printablestring (s : list Z) : bool :=
  forallb (fun c => match strchr printablestring_charset c with Some _ => true | None => false end) s.

(** * Object identifiers *)

Record oid_t := mk_oid {
  octet : Z;
  down : bool;
  next : nat;
  oid_name : string
}.

Definition oid_names : list oid_t :=
  [
   mk_oid 2 true 7 "ITU-T Administration";
   mk_oid 130 true 0 EmptyString;
   mk_oid 6 true 0 "Germany ITU-T member";
   mk_oid 1 true 0 "Deutsche Telekom AG";
   mk_oid 10 true 0 EmptyString;
   mk_oid 7 true 0 EmptyString;
   mk_oid 20 false 0 "ND";
   mk_oid 9 true 18 "data";
   mk_oid 146 true 0 EmptyString;
   mk_oid 38 true 0 EmptyString;
   mk_oid 137 true 0 EmptyString;
   mk_oid 147 true 0 EmptyString;
   mk_oid 242 true 0 EmptyString;
   mk_oid 44 true 0 EmptyString;
   mk_oid 100 true 0 "pilot";
   mk_oid 1 true 0 "pilotAttributeType";
   mk_oid 1 false 17 "UID";
   mk_oid 25 false 0 "DC";
   mk_oid 85 true 51 "X.500";
   mk_oid 4 true 36 "X.509";
   mk_oid 3 false 21 "CN";
   mk_oid 4 false 22 "S";
   mk_oid 5 false 23 "SN";
   mk_oid 6 false 24 "C";
   mk_oid 7 false 25 "L";
   mk_oid 8 false 26 "ST";
   mk_oid 10 false 27 "O";
   mk_oid 11 false 28 "OU";
   mk_oid 12 false 29 "T";
   mk_oid 13 false 30 "D";
   mk_oid 36 false 31 "userCertificate";
   mk_oid 41 false 32 "N";
   mk_oid 42 false 33 "G";
   mk_oid 43 false 34 "I";
   mk_oid 45 false 35 "ID";
   mk_oid 72 false 0 "role";
   mk_oid 29 true 0 "id-ce";
   mk_oid 9 false 38 "subjectDirectoryAttrs";
   mk_oid 14 false 39 "subjectKeyIdentifier";
   mk_oid 15 false 40 "keyUsage";
   mk_oid 16 false 41 "privateKeyUsagePeriod";
   mk_oid 17 false 42 "subjectAltName";
   mk_oid 18 false 43 "issuerAltName";
   mk_oid 19 false 44 "basicConstraints";
   mk_oid 21 false 45 "reasonCode";
   mk_oid 31 false 46 "crlDistributionPoints";
   mk_oid 32 false 47 "certificatePolicies";
   mk_oid 35 false 48 "authorityKeyIdentifier";
   mk_oid 37 false 49 "extendedKeyUsage";
   mk_oid 55 false 50 "targetInformation";
   mk_oid 56 false 0 "noRevAvail";
   mk_oid 42 true 80 EmptyString;
   mk_oid 134 true 0 EmptyString;
   mk_oid 72 true 0 EmptyString;
   mk_oid 134 true 0 EmptyString;
   mk_oid 247 true 0 EmptyString;
   mk_oid 13 true 0 "RSADSI";
   mk_oid 1 true 77 "PKCS";
   mk_oid 1 true 67 "PKCS-1";
   mk_oid 1 false 60 "rsaEncryption";
   mk_oid 2 false 61 "md2WithRSAEncryption";
   mk_oid 4 false 62 "md5WithRSAEncryption";
   mk_oid 5 false 63 "sha-1WithRSAEncryption";
   mk_oid 11 false 64 "sha256WithRSAEncryption";
   mk_oid 12 false 65 "sha384WithRSAEncryption";
   mk_oid 13 false 66 "sha512WithRSAEncryption";
   mk_oid 14 false 0 "sha224WithRSAEncryption";
   mk_oid 7 true 74 "PKCS-7";
   mk_oid 1 false 69 "data";
   mk_oid 2 false 70 "signedData";
   mk_oid 3 false 71 "envelopedData";
   mk_oid 4 false 72 "signedAndEnvelopedData";
   mk_oid 5 false 73 "digestedData";
   mk_oid 6 false 0 "encryptedData";
   mk_oid 9 true 0 "PKCS-9";
   mk_oid 1 false 76 "E";
   mk_oid 2 false 0 "unstructuredName";
   mk_oid 2 true 0 "digestAlgorithm";
   mk_oid 2 false 79 "md2";
   mk_oid 5 false 0 "md5";
   mk_oid 43 true 133 EmptyString;
   mk_oid 6 true 121 "dod";
   mk_oid 1 true 0 "internet";
   mk_oid 4 true 92 "private";
   mk_oid 1 true 0 "enterprise";
   mk_oid 137 true 0 EmptyString;
   mk_oid 49 true 0 EmptyString;
   mk_oid 1 true 0 EmptyString;
   mk_oid 1 true 0 EmptyString;
   mk_oid 2 true 0 EmptyString;
   mk_oid 2 true 0 EmptyString;
   mk_oid 75 false 0 "TCGID";
   mk_oid 5 true 0 "security";
   mk_oid 5 true 0 "mechanisms";
   mk_oid 7 true 0 "id-pkix";
   mk_oid 1 true 97 "id-pe";
   mk_oid 1 false 0 "authorityInfoAccess";
   mk_oid 3 true 107 "id-kp";
   mk_oid 1 false 99 "serverAuth";
   mk_oid 2 false 100 "clientAuth";
   mk_oid 3 false 101 "codeSigning";
   mk_oid 4 false 102 "emailProtection";
   mk_oid 5 false 103 "ipsecEndSystem";
   mk_oid 6 false 104 "ipsecTunnel";
   mk_oid 7 false 105 "ipsecUser";
   mk_oid 8 false 106 "timeStamping";
   mk_oid 9 false 0 "ocspSigning";
   mk_oid 10 true 112 "id-aca";
   mk_oid 1 false 109 "authenticationInfo";
   mk_oid 2 false 110 "accessIdentity";
   mk_oid 3 false 111 "chargingIdentity";
   mk_oid 4 false 0 "group";
   mk_oid 48 true 0 "id-ad";
   mk_oid 1 true 0 "ocsp";
   mk_oid 1 false 115 "basic";
   mk_oid 2 false 116 "nonce";
   mk_oid 3 false 117 "crl";
   mk_oid 4 false 118 "response";
   mk_oid 5 false 119 "noCheck";
   mk_oid 6 false 120 "archiveCutoff";
   mk_oid 7 false 0 "serviceLocator";
   mk_oid 14 true 126 "oiw";
   mk_oid 3 true 0 "secsig";
   mk_oid 2 true 0 "algorithms";
   mk_oid 26 false 125 "sha-1";
   mk_oid 29 false 0 "sha-1WithRSASignature";
   mk_oid 36 true 0 "TeleTrusT";
   mk_oid 3 true 0 "algorithm";
   mk_oid 3 true 0 "signatureAlgorithm";
   mk_oid 1 true 0 "rsaSignature";
   mk_oid 2 false 131 "rsaSigWithripemd160";
   mk_oid 3 false 132 "rsaSigWithripemd128";
   mk_oid 4 false 0 "rsaSigWithripemd256";
   mk_oid 96 true 0 EmptyString;
   mk_oid 134 true 0 EmptyString;
   mk_oid 72 true 0 EmptyString;
   mk_oid 1 true 0 "organization";
   mk_oid 101 true 144 "gov";
   mk_oid 3 true 0 "csor";
   mk_oid 4 true 0 "nistalgorithm";
   mk_oid 2 true 0 "hashalgs";
   mk_oid 1 false 142 "id-SHA-256";
   mk_oid 2 false 143 "id-SHA-384";
   mk_oid 3 false 0 "id-SHA-512";
   mk_oid 134 true 0 EmptyString;
   mk_oid 248 true 0 EmptyString;
   mk_oid 66 true 0 EmptyString;
   mk_oid 1 true 0 EmptyString;
   mk_oid 1 false 149 "nsCertType";
   mk_oid 3 false 150 "nsRevocationUrl";
   mk_oid 13 false 0 "nsComment"
  ].

Definition OID_UNKNOWN : Z := -1.
Definition OID_PKCS9_EMAIL : Z := 75.

(** The loop of [known_oid]; every round moves forward in the table, whose length is
    enough fuel ([known_oid_total]). *)
Fixpoint known_oid_loop (fuel : nat) (oid : nat) (object : list Z) : outcome string Z :=
  match fuel, object with
  | _, [] => Ok OID_UNKNOWN
  | S fuel', c :: object' =>
      e ← defined (oid_names !! oid);
      if octet e =? c then
        match object' with
        | [] => Ok (if down e then OID_UNKNOWN else Z.of_nat oid)
        | _ => if down e then known_oid_loop fuel' (S oid) object' else Ok OID_UNKNOWN
        end
      else
        match next e with
        | O => Ok OID_UNKNOWN
        | n => known_oid_loop fuel' n object
        end
  | O, _ => Abort
  end.

Definition known_oid (object : list Z) : outcome string Z :=
  known_oid_loop (length oid_names) 0 object.

(** * Lemmas *)

Lemma asn1_length_loop_rest n : forall len blob,
  (n <= length blob)%nat ->
  (asn1_length_loop n len blob).2 = drop n blob.
Proof.
  induction n as [|n IH]; intros len [|b blob] H; cbn in *; try lia; [done|done|]. apply IH. lia.
Qed.

Lemma asn1_length_loop_nonneg n : forall len blob,
  0 <= len -> 0 <= (asn1_length_loop n len blob).1.
Proof.
  induction n as [|n IH]; intros len [|b blob] H; cbn; try done.
  apply IH. pose proof (u64_bound (256 * len + b)). lia.
Qed.

(** A valid length is one the rest of the blob holds; the tag and at least one length
    octet are consumed. *)
Lemma asn1_length_spec blob len rest :
  Forall byteZ blob -> asn1_length blob = (len, rest) -> len <> ASN1_INVALID_LENGTH ->
  0 <= len <= Z.of_nat (length rest) /\ (length rest + 2 <= length blob)%nat /\ Forall byteZ rest.
Proof.
  intros Hb. unfold asn1_length. destruct blob as [|t [|n blob]].
  1,2: by intros [= <- _] Hn.
  apply Forall_cons in Hb as [_ Hb]. apply Forall_cons in Hb as [Hn Hb].
  destruct (Z.land n 128 =? 0).
  - destruct (Z.ltb_spec (Z.of_nat (length blob)) n) as [Hl|Hl]; intros [= <- <-]; [done|].
    intros _. unfold byteZ in Hn. cbn [length]. split; [lia|]. split; [lia|done].
  - destruct (Z.ltb_spec (Z.of_nat (length blob)) (Z.land n 127)) as [Hl|Hl]; [by intros [= <- _]|].
    destruct (8 <? Z.land n 127); [by intros [= <- _]|].
    pose proof (asn1_length_loop_rest (Z.to_nat (Z.land n 127)) 0 blob ltac:(lia)) as Hr.
    pose proof (asn1_length_loop_nonneg (Z.to_nat (Z.land n 127)) 0 blob ltac:(lia)) as Hnn.
    destruct (asn1_length_loop _ _ _) as [l b']. cbn in Hr, Hnn. subst b'.
    destruct (Z.ltb_spec (Z.of_nat (length (drop (Z.to_nat (Z.land n 127)) blob))) l);
      intros [= <- <-]; [done|]. intros _. rewrite length_drop in *. cbn [length].
    split; [lia|]. split; [lia|]. by apply Forall_drop.
Qed.

Lemma length_code_asn1_length n : (1 <= length (code_asn1_length n) <= 4)%nat.
Proof. unfold code_asn1_length. repeat case_match; cbn; lia. Qed.

Lemma code_asn1_length_bytes n : Forall byteZ (code_asn1_length n).
Proof.
  unfold code_asn1_length.
  repeat case_match; repeat (constructor; [first [apply u8_bound|unfold byteZ; lia]|]); constructor.
Qed.

(** The long form: [k] length octets. *)
Lemma asn1_length_long tag ls rest n :
  (1 <= length ls <= 8)%nat -> asn1_length_loop (length ls) 0 (ls ++ rest) = (n, rest) ->
  n <= Z.of_nat (length rest) ->
  asn1_length (tag :: (128 + Z.of_nat (length ls)) :: ls ++ rest) = (n, rest).
Proof.
  intros Hl Hloop Hn. set (k := length ls) in *. cbn [asn1_length].
  assert (Z.land (128 + Z.of_nat k) 128 = 128 /\ Z.land (128 + Z.of_nat k) 127 = Z.of_nat k) as [-> ->].
  { clear -Hl. do 9 (destruct k as [|k]; [first [lia|by split]|]). lia. }
  change (128 =? 0) with false. cbv iota zeta. rewrite length_app. fold k.
  destruct (Z.ltb_spec (Z.of_nat (k + length rest)) (Z.of_nat k)); [lia|].
  destruct (Z.ltb_spec 8 (Z.of_nat k)); [lia|]. rewrite Nat2Z.id, Hloop.
  destruct (Z.ltb_spec (Z.of_nat (length rest)) n); [lia|done].
Qed.

Lemma asn1_length_code tag n rest :
  0 <= n < 2 ^ 24 -> n <= Z.of_nat (length rest) ->
  asn1_length (tag :: code_asn1_length n ++ rest) = (n, rest).
Proof.
  intros Hn Hr. unfold code_asn1_length. destruct (Z.ltb_spec n 128); [|destruct (Z.ltb_spec n 256);
    [|destruct (Z.ltb_spec n 65536)]].
  - cbn [app asn1_length]. rewrite u8_small by lia.
    rewrite (below_forall 128 (fun n => Z.land n 128 =? 0) eq_refl n) by lia.
    destruct (Z.ltb_spec (Z.of_nat (length rest)) n); [lia|done].
  - apply (asn1_length_long tag [u8 n] rest); [cbn; lia| |done].
    cbn. rewrite u8_small by lia. by rewrite u64_small by lia.
  - apply (asn1_length_long tag [u8 (Z.shiftr n 8); u8 (Z.land n 255)] rest); [cbn; lia| |done].
    cbn -[Z.mul Z.add]. change 255 with (Z.ones 8). rewrite Z.land_ones, Z.shiftr_div_pow2 by lia.
    change (2 ^ 8) with 256. rewrite !u8_small by (change (2 ^ 8) with 256; div_lia).
    rewrite (u64_small (256 * 0 + _)) by div_lia. rewrite u64_small by div_lia. f_equal. div_lia.
  - apply (asn1_length_long tag [u8 (Z.shiftr n 16); u8 (Z.land (Z.shiftr n 8) 255); u8 (Z.land n 255)] rest);
      [cbn; lia| |done].
    cbn -[Z.mul Z.add]. change 255 with (Z.ones 8). rewrite !Z.land_ones, !Z.shiftr_div_pow2 by lia.
    change (2 ^ 8) with 256. change (2 ^ 16) with 65536.
    rewrite !u8_small by (change (2 ^ 8) with 256; div_lia).
    rewrite (u64_small (256 * 0 + _)) by div_lia. rewrite (u64_small (256 * (256 * 0 + _) + _)) by div_lia.
    rewrite u64_small by div_lia. f_equal. div_lia.
Qed.

(** The shape of the table: a row that continues has a row below it, and the links go
    forward and stay in the table. *)
Definition oid_row_ok (i : nat) (e : oid_t) : Prop :=
  (down e = true -> S i < length oid_names)%nat /\
  (next e = 0 \/ i < next e < length oid_names)%nat.

#[local] Instance oid_row_ok_dec i e : Decision (oid_row_ok i e).
Proof. apply _. Defined.

Lemma oid_table_ok i e : oid_names !! i = Some e -> oid_row_ok i e.
Proof.
  assert (forallb (fun i => match oid_names !! i with
                            | Some e => bool_decide (oid_row_ok i e) | None => true end)
    (seq 0 (length oid_names)) = true) as H by (vm_compute; reflexivity).
  intros Hi. rewrite forallb_forall in H. specialize (H i). rewrite Hi in H.
  apply bool_decide_eq_true in H; [done|]. apply in_seq. apply lookup_lt_Some in Hi. lia.
Qed.

Lemma known_oid_loop_total fuel : forall oid object,
  (oid < length oid_names)%nat -> (length oid_names - oid <= fuel)%nat ->
  exists z, known_oid_loop fuel oid object = Ok z /\
    (z = OID_UNKNOWN \/ 0 <= z < Z.of_nat (length oid_names)).
Proof.
  induction fuel as [|fuel IH]; intros oid object Ho Hf; [lia|].
  destruct object as [|c object]; cbn [known_oid_loop]; [eexists; split; [done|by left]|].
  destruct (lookup_lt_is_Some_2 _ _ Ho) as [e He]. rewrite He. cbn [defined mbind outcome_bind].
  destruct (oid_table_ok oid e He) as [Hd Hn]. destruct (octet e =? c).
  - destruct object as [|c' object].
    + eexists. split; [done|]. destruct (down e); [by left|]. right. lia.
    + destruct (down e); [|eexists; split; [done|by left]]. apply IH; [auto|lia].
  - destruct (next e) as [|n] eqn:E; [eexists; split; [done|by left]|]. apply IH; lia.
Qed.

Lemma known_oid_total object :
  exists z, known_oid object = Ok z /\ (z = OID_UNKNOWN \/ 0 <= z < Z.of_nat (length oid_names)).
Proof. apply known_oid_loop_total; [|lia]. vm_compute. lia. Qed.
