(* ===== verification/X509dn.v ===== *)
(** Distinguished names: lib/libswan/x509dn.c.

    The DER parser that walks over the relative distinguished names, the comparison with
    and without wildcards, the text form and the reader of the text form. *)
From S2P Require Import Prelude Numbers Address Asn1.

Record x501rdn_t := mk_x501rdn {
  rdn_name : string;
  rdn_oid : list Z;
  rdn_type : Z
}.

#[export] Instance x501rdn_eq_dec : EqDecision x501rdn_t.
Proof. solve_decision. Defined.

Definition oid_ND : list Z := [2; 130; 6; 1; 10; 7; 20].
Definition oid_UID : list Z := [9; 146; 38; 137; 147; 242; 44; 100; 1; 1].
Definition oid_DC : list Z := [9; 146; 38; 137; 147; 242; 44; 100; 1; 25].
Definition oid_CN : list Z := [85; 4; 3].
Definition oid_S : list Z := [85; 4; 4].
Definition oid_SN : list Z := [85; 4; 5].
Definition oid_C : list Z := [85; 4; 6].
Definition oid_L : list Z := [85; 4; 7].
Definition oid_ST : list Z := [85; 4; 8].
Definition oid_O : list Z := [85; 4; 10].
Definition oid_OU : list Z := [85; 4; 11].
Definition oid_T : list Z := [85; 4; 12].
Definition oid_D : list Z := [85; 4; 13].
Definition oid_N : list Z := [85; 4; 41].
Definition oid_G : list Z := [85; 4; 42].
Definition oid_I : list Z := [85; 4; 43].
Definition oid_ID : list Z := [85; 4; 45].
Definition oid_E : list Z := [42; 134; 72; 134; 247; 13; 1; 9; 1].
Definition oid_UN : list Z := [42; 134; 72; 134; 247; 13; 1; 9; 2].
Definition oid_TCGID : list Z := [43; 6; 1; 4; 1; 137; 49; 1; 1; 2; 2; 75].

Definition x501rdns : list x501rdn_t :=
  [
   mk_x501rdn "ND" oid_ND ASN1_PRINTABLESTRING;
   mk_x501rdn "UID" oid_UID ASN1_PRINTABLESTRING;
   mk_x501rdn "DC" oid_DC ASN1_PRINTABLESTRING;
   mk_x501rdn "CN" oid_CN ASN1_PRINTABLESTRING;
   mk_x501rdn "S" oid_S ASN1_PRINTABLESTRING;
   mk_x501rdn "SN" oid_SN ASN1_PRINTABLESTRING;
   mk_x501rdn "serialNumber" oid_SN ASN1_PRINTABLESTRING;
   mk_x501rdn "C" oid_C ASN1_PRINTABLESTRING;
   mk_x501rdn "L" oid_L ASN1_PRINTABLESTRING;
   mk_x501rdn "ST" oid_ST ASN1_PRINTABLESTRING;
   mk_x501rdn "O" oid_O ASN1_PRINTABLESTRING;
   mk_x501rdn "OU" oid_OU ASN1_PRINTABLESTRING;
   mk_x501rdn "T" oid_T ASN1_PRINTABLESTRING;
   mk_x501rdn "D" oid_D ASN1_PRINTABLESTRING;
   mk_x501rdn "N" oid_N ASN1_PRINTABLESTRING;
   mk_x501rdn "G" oid_G ASN1_PRINTABLESTRING;
   mk_x501rdn "I" oid_I ASN1_PRINTABLESTRING;
   mk_x501rdn "ID" oid_ID ASN1_PRINTABLESTRING;
   mk_x501rdn "E" oid_E ASN1_IA5STRING;
   mk_x501rdn "Email" oid_E ASN1_IA5STRING;
   mk_x501rdn "emailAddress" oid_E ASN1_IA5STRING;
   mk_x501rdn "UN" oid_UN ASN1_IA5STRING;
   mk_x501rdn "unstructuredName" oid_UN ASN1_IA5STRING;
   mk_x501rdn "TCGID" oid_TCGID ASN1_PRINTABLESTRING
  ].

(** * Parsing *)

(** [init_rdn]: the RDNs of the DN, and whether there is one. *)
Definition init_rdn (dn : list Z) : outcome string (list Z * bool) :=
  t ← defined (head dn);
  if negb (t =? ASN1_SEQUENCE) then Ugh "DN is not a SEQUENCE"
  else
    let '(len, dn) := asn1_length dn in
    if len =? ASN1_INVALID_LENGTH then Ugh "Invalid RDN length"
    else Ok (take (Z.to_nat len) dn, 0 <? len).

(** What [get_next_rdn] leaves: the cursors, and the attribute it found. *)
Record rdn_result := mk_rdn {
  res_rdn : list Z;
  res_attribute : list Z;
  res_oid : list Z;
  res_type : Z;
  res_value : list Z;
  res_next : bool
}.

(** The first half of [get_next_rdn]: the next SET when all attributes are parsed. *)
Definition next_set (rdn attribute : list Z) : outcome string (list Z * list Z) :=
  match attribute with
  | [] =>
      t ← defined (head rdn);
      if negb (t =? ASN1_SET) then Ugh "RDN is not a SET"
      else
        let '(len, rdn) := asn1_length rdn in
        if (len <? 1) || (len =? ASN1_INVALID_LENGTH) then Ugh "Invalid attribute length"
        else Ok (drop (Z.to_nat len) rdn, take (Z.to_nat len) rdn)
  | _ => Ok (rdn, attribute)
  end.

Definition get_next_rdn (rdn attribute : list Z) : outcome string rdn_result :=
  '(rdn, attribute) ← next_set rdn attribute;
  t ← defined (head attribute);
  if negb (t =? ASN1_SEQUENCE) then Ugh "attributeTypeAndValue is not a SEQUENCE"
  else
    let '(blen, attribute) := asn1_length attribute in
    if (blen <? 1) || (blen =? ASN1_INVALID_LENGTH) then Ugh "Invalid attribute body length"
    else
      let body := take (Z.to_nat blen) attribute in
      let attribute := drop (Z.to_nat blen) attribute in
      t ← defined (head body);
      if negb (t =? ASN1_OID) then Ugh "attributeType is not an OID"
      else
        let '(olen, body) := asn1_length body in
        if olen =? ASN1_INVALID_LENGTH then Ugh "Invalid attribute OID length"
        else
          let oid := take (Z.to_nat olen) body in
          let body := drop (Z.to_nat olen) body in
          if Z.of_nat (length body) <? 2 then Ugh "Invalid value in RDN"
          else
            type ← defined (head body);
            let '(vlen, body) := asn1_length body in
            if vlen =? ASN1_INVALID_LENGTH then Ugh "Invalid attribute string length"
            else
              Ok (mk_rdn rdn attribute oid type (take (Z.to_nat vlen) body)
                    ((0 <? length rdn)%nat || (0 <? length attribute)%nat)).

(** * Comparing *)

(** [strneq]: equal for [n] characters or up to a common NUL. *)
Fixpoint strneq_n (n : nat) (a b : list Z) : bool :=
  match n, a, b with
  | S n', x :: a', y :: b' => (x =? y) && ((x =? 0) || strneq_n n' a' b')
  | _, _, _ => true
  end.

(** [strncaseeq]: the same, up to case. *)
Fixpoint strncaseeq_n (n : nat) (a b : list Z) : bool :=
  match n, a, b with
  | S n', x :: a', y :: b' =>
      (tolower x =? tolower y) && ((x =? 0) || strncaseeq_n n' a' b')
  | _, _, _ => true
  end.

(** The values of two attributes with the same OID. *)
Definition match_value (oid : list Z) (type_a type_b : Z) (va vb : list Z) : outcome string bool :=
  if negb (length va =? length vb)%nat then Ok false
  else
    k ← known_oid oid;
    if (type_a =? type_b) &&
       ((type_a =? ASN1_PRINTABLESTRING) || ((type_a =? ASN1_IA5STRING) && (k =? OID_PKCS9_EMAIL)))
    then Ok (strncaseeq_n (length vb) va vb)
    else Ok (strneq_n (length vb) va vb).

(** The loop of [match_dn]; [wild] is whether wildcards count, [w] how many so far.  The
    fuel is the number of octets left ([match_dn_total]). *)
Fixpoint match_dn_loop (fuel : nat) (wild : bool) (ra aa rb ab : list Z) (na nb : bool) (w : Z) :
  outcome string (bool * Z) :=
  if na && nb then
    match fuel with
    | O => Abort
    | S fuel' =>
        match get_next_rdn ra aa with
        | Abort => Abort
        | Ugh _ => Ok (false, w)
        | Ok x =>
            match get_next_rdn rb ab with
            | Abort => Abort
            | Ugh _ => Ok (false, w)
            | Ok y =>
                let go := match_dn_loop fuel' wild (res_rdn x) (res_attribute x) (res_rdn y)
                            (res_attribute y) (res_next x) (res_next y) in
                if bool_decide (res_oid x <> res_oid y) then Ok (false, w)
                else if wild && bool_decide (res_value y = [chr "*"]) then go (w + 1)
                else
                  m ← match_value (res_oid x) (res_type x) (res_type y) (res_value x) (res_value y);
                  if (m : bool) then go w else Ok (false, w)
            end
        end
    end
  else Ok (negb (na || nb), w).

(** [match_dn]: whether the names match, and the wildcards counted. *)
Definition match_dn (a b : list Z) (wild : bool) : outcome string (bool * Z) :=
  if negb wild && negb (length a =? length b)%nat then Ok (false, 0)
  else if negb wild && bool_decide (a = b) then Ok (true, 0)
  else
    match init_rdn a with
    | Abort => Abort
    | Ugh _ => Ok (false, 0)
    | Ok (ra, na) =>
        match init_rdn b with
        | Abort => Abort
        | Ugh _ => Ok (false, 0)
        | Ok (rb, nb) => match_dn_loop (length ra + length rb) wild ra [] rb [] na nb 0
        end
    end.

Definition same_dn (a b : list Z) : outcome string bool :=
  '(m, _) ← match_dn a b false; Ok m.

Fixpoint dn_count_loop (fuel : nat) (rdn attribute : list Z) (next : bool) (w : Z) : outcome string Z :=
  if next then
    match fuel with
    | O => Abort
    | S fuel' =>
        match get_next_rdn rdn attribute with
        | Abort => Abort
        | Ugh _ => Ok (-1)
        | Ok x => dn_count_loop fuel' (res_rdn x) (res_attribute x) (res_next x)
                    (if bool_decide (res_value x = [chr "*"]) then w + 1 else w)
        end
    end
  else Ok w.

Definition dn_count_wildcards (dn : list Z) : outcome string Z :=
  match init_rdn dn with
  | Abort => Abort
  | Ugh _ => Ok (-1)
  | Ok (rdn, next) => dn_count_loop (length rdn) rdn [] next 0
  end.

(** * The text form *)

(** The chunk [str] of the formatter: the bytes the cursor has passed, and the space left.
    [vsnprintf] truncates to [len - 1] characters and stores a NUL. *)
Definition format_chunk (ch : list Z * Z) (text : list Z) : list Z * Z :=
  let '(out, len) := ch in
  if 0 <? len then
    let ret := Z.of_nat (length text) in
    if len <? ret then (out ++ take (Z.to_nat (len - 1)) text ++ [0], 0)
    else if ret =? len then (out ++ take (Z.to_nat (len - 1)) text ++ [0], 0)
    else (out ++ text, len - ret)
  else ch.

(** ["%02X"] *)
Definition hex_octet (b : Z) : list Z :=
  let digit d := if d <? 10 then chr "0" + d else chr "A" + (d - 10) in
  [digit (b / 16); digit (b mod 16)].

Definition hex_str (bin : list Z) (ch : list Z * Z) : list Z * Z :=
  fold_left (fun ch b => format_chunk ch (hex_octet b)) bin (format_chunk ch (str "0x")).

Fixpoint dn_parse_loop (fuel : nat) (rdn attribute : list Z) (next first : bool) (ch : list Z * Z) :
  outcome string (list Z * Z) :=
  if next then
    match fuel with
    | O => Abort
    | S fuel' =>
        x ← get_next_rdn rdn attribute;
        let ch := if first then ch else format_chunk ch (str ", ") in
        k ← known_oid (res_oid x);
        ch ← (if k =? OID_UNKNOWN then Ok (hex_str (res_oid x) ch)
              else e ← defined (oid_names !! Z.to_nat k); Ok (format_chunk ch (str (oid_name e))));
        let ch := format_chunk ch (chr "=" :: before_nul (res_value x)) in
        dn_parse_loop fuel' (res_rdn x) (res_attribute x) (res_next x) false ch
    end
  else Ok ch.

(** [dn_parse]; [None] is a chunk whose pointer is [NULL]. *)
Definition dn_parse (dn : option (list Z)) (ch : list Z * Z) : outcome string (list Z * Z) :=
  match dn with
  | None => Ok (format_chunk ch (str "(empty)"))
  | Some dn =>
      '(rdn, next) ← init_rdn dn;
      dn_parse_loop (length rdn) rdn [] next true ch
  end.

(** [dntoa]: the bytes passed by the cursor and the value returned. *)
Definition dntoa (dstlen : Z) (dn : option (list Z)) : outcome string (list Z * Z) :=
  match dn_parse dn ([], dstlen) with
  | Abort => Abort
  | Ok (out, len) => Ok (out, dstlen - len)
  | Ugh _ =>
      let '(out, len) := hex_str (from_option id [] dn) ([], dstlen) in
      Ok (out, dstlen - len)
  end.

(** * Reading the text form *)

Inductive state_t := SEARCH_OID | READ_OID | SEARCH_NAME | READ_NAME | UNKNOWN_OID.

(** The variables of [atodn]: [name_] is what the chunk [name] points at, [dn_body] what
    has been written from [dn->ptr + 1 + ASN1_MAX_LEN_LEN] on. *)
Record atodn_t := mk_atodn {
  at_state : state_t;
  at_oid : list Z;
  at_name : list Z;
  at_whitespace : nat;
  at_pos : nat;
  dn_body : list Z;
  dn_seq_len : Z;
  at_ugh : option string
}.

(** The search of the OID in [x501rdns]. *)
Definition find_rdn (oid : list Z) : option nat :=
  fst <$> list_find (fun e => length (str (rdn_name e)) = length oid /\
                              strncaseeq_n (length oid) (str (rdn_name e)) oid = true) x501rdns.

Definition IDTOA_BUF : Z := 512.

(** The end of a name: encode the RDN, if there is room. *)
Definition emit_rdn (s : atodn_t) : outcome string atodn_t :=
  rdn ← defined (x501rdns !! at_pos s);
  let name := take (length (at_name s) - at_whitespace s) (at_name s) in
  let oid := rdn_oid rdn in
  let oid_len := code_asn1_length (Z.of_nat (length oid)) in
  let name_len := code_asn1_length (Z.of_nat (length name)) in
  let rdn_seq_len := 1 + Z.of_nat (length oid_len) + Z.of_nat (length oid) + 1 +
                     Z.of_nat (length name_len) + Z.of_nat (length name) in
  let seq_len := code_asn1_length rdn_seq_len in
  let rdn_set_len := 1 + Z.of_nat (length seq_len) + rdn_seq_len in
  let set_len := code_asn1_length rdn_set_len in
  if IDTOA_BUF <? 1 + ASN1_MAX_LEN_LEN + Z.of_nat (length (dn_body s)) + 1 + Z.of_nat (length set_len) +
                  1 + Z.of_nat (length seq_len) + 1 + Z.of_nat (length oid_len) +
                  Z.of_nat (length oid) + 1 + Z.of_nat (length name_len) + Z.of_nat (length name)
  then Ok (mk_atodn UNKNOWN_OID (at_oid s) name (at_whitespace s) (at_pos s) (dn_body s)
             (dn_seq_len s) (Some "DN is too big"))
  else
    let type := if (rdn_type rdn =? ASN1_PRINTABLESTRING) && negb (is_printablestring name)
                then ASN1_T61STRING else rdn_type rdn in
    let body := dn_body s ++ ASN1_SET :: set_len ++ ASN1_SEQUENCE :: seq_len ++
                ASN1_OID :: oid_len ++ oid ++ type :: name_len ++ name in
    Ok (mk_atodn SEARCH_OID (at_oid s) [] (at_whitespace s) (at_pos s) body
          (dn_seq_len s + 1 + Z.of_nat (length set_len) + rdn_set_len) (at_ugh s)).

(** The loop of [atodn], over the characters with the terminating NUL.  [escape_char]
    drops one of two equal separators, so the pair is one character of the name. *)
Fixpoint atodn_loop (src : list Z) (s : atodn_t) : outcome string atodn_t :=
  match src with
  | [] => Ok s
  | c :: src' =>
      match at_state s with
      | SEARCH_OID =>
          atodn_loop src'
            (if (c =? chr " ") || (c =? chr "/") || (c =? chr ",") then s
             else mk_atodn READ_OID [c] (at_name s) (at_whitespace s) (at_pos s) (dn_body s)
                    (dn_seq_len s) (at_ugh s))
      | READ_OID =>
          atodn_loop src'
            (if negb ((c =? chr " ") || (c =? chr "=")) then
               mk_atodn READ_OID (at_oid s ++ [c]) (at_name s) (at_whitespace s) (at_pos s)
                 (dn_body s) (dn_seq_len s) (at_ugh s)
             else
               match find_rdn (at_oid s) with
               | None => mk_atodn UNKNOWN_OID (at_oid s) (at_name s) (at_whitespace s)
                           (length x501rdns) (dn_body s) (dn_seq_len s)
                           (Some "unknown OID in ID_DER_ASN1_DN")
               | Some pos => mk_atodn SEARCH_NAME [] (at_name s) (at_whitespace s) pos
                               (dn_body s) (dn_seq_len s) (at_ugh s)
               end)
      | SEARCH_NAME =>
          atodn_loop src'
            (if (c =? chr " ") || (c =? chr "=") then s
             else mk_atodn READ_NAME (at_oid s) [c] 0 (at_pos s) (dn_body s) (dn_seq_len s)
                    (at_ugh s))
      | READ_NAME =>
          if negb ((c =? chr ",") || (c =? chr "/") || (c =? 0)) then
            atodn_loop src'
              (mk_atodn READ_NAME (at_oid s) (at_name s ++ [c])
                 (if c =? chr " " then S (at_whitespace s) else O) (at_pos s) (dn_body s)
                 (dn_seq_len s) (at_ugh s))
          else
            match src' with
            | c' :: src'' =>
                if c' =? c then
                  atodn_loop src''
                    (mk_atodn READ_NAME (at_oid s) (at_name s ++ [c]) (at_whitespace s) (at_pos s)
                       (dn_body s) (dn_seq_len s) (at_ugh s))
                else s ← emit_rdn s; atodn_loop src' s
            | [] => s ← emit_rdn s; atodn_loop src' s
            end
      | UNKNOWN_OID => atodn_loop src' s
      end
  end.

(** [atodn]: the DN, and the error if there was one (the DN is completed all the same). *)
Definition atodn (src : list Z) : outcome string (list Z * option string) :=
  s ← atodn_loop (before_nul src ++ [0]) (mk_atodn SEARCH_OID [] [] 0 0 [] 0 None);
  Ok (ASN1_SEQUENCE :: code_asn1_length (dn_seq_len s) ++ dn_body s, at_ugh s).

(** [escape_char(src, esc)]: drop the first doubled [esc] of the string. *)
Fixpoint escape_char (s : list Z) (esc : Z) : list Z :=
  match s with
  | c :: s' =>
      if c =? esc then
        match s' with
        | c' :: s'' => if c' =? esc then c :: s'' else c :: escape_char s' esc
        | [] => [c]
        end
      else c :: escape_char s' esc
  | [] => []
  end.

Lemma escape_char_pair c rest : escape_char (c :: c :: rest) c = c :: rest.
Proof. cbn. by rewrite Z.eqb_refl. Qed.

(** * The parser is safe and makes progress *)

Lemma init_rdn_spec dn :
  dn <> [] -> Forall byteZ dn ->
  (exists e, init_rdn dn = Ugh e) \/
  exists rdn, init_rdn dn = Ok (rdn, (0 <? Z.of_nat (length rdn))) /\ Forall byteZ rdn /\
    (length rdn + 2 <= length dn)%nat.
Proof.
  intros Hne Hb. destruct dn as [|t dn]; [done|]. unfold init_rdn. cbn [head defined mbind outcome_bind].
  destruct (negb (t =? ASN1_SEQUENCE)); [left; eauto|].
  destruct (asn1_length (t :: dn)) as [len rest] eqn:E.
  destruct (Z.eqb_spec len ASN1_INVALID_LENGTH); [left; eauto|].
  destruct (asn1_length_spec _ _ _ Hb E) as (Hl&Hr&Hbr); [done|].
  right. exists (take (Z.to_nat len) rest). rewrite length_take, Nat.min_l by lia.
  rewrite Z2Nat.id by lia. split; [done|]. split; [by apply Forall_take|]. lia.
Qed.

Lemma next_set_spec rdn attribute :
  rdn <> [] \/ attribute <> [] -> Forall byteZ rdn -> Forall byteZ attribute ->
  (exists e, next_set rdn attribute = Ugh e) \/
  exists rdn' attribute', next_set rdn attribute = Ok (rdn', attribute') /\ attribute' <> [] /\
    Forall byteZ rdn' /\ Forall byteZ attribute' /\
    (length rdn' + length attribute' <= length rdn + length attribute)%nat.
Proof.
  intros Hne Hb Hba. destruct attribute as [|x attribute].
  2:{ right. by exists rdn, (x :: attribute). }
  destruct rdn as [|t rdn]; [by destruct Hne|]. unfold next_set. cbn [head defined mbind outcome_bind].
  destruct (negb (t =? ASN1_SET)); [left; eauto|].
  destruct (asn1_length (t :: rdn)) as [len rest] eqn:E.
  destruct (Z.ltb_spec len 1); [left; eauto|]. cbn [orb].
  destruct (Z.eqb_spec len ASN1_INVALID_LENGTH); [left; eauto|].
  destruct (asn1_length_spec _ _ _ Hb E) as (Hl&Hr&Hbr); [done|].
  right. do 2 eexists. split; [done|]. split.
  - intros Hn%(f_equal length). rewrite length_take in Hn. cbn in Hn. lia.
  - split; [by apply Forall_drop|]. split; [by apply Forall_take|].
    rewrite length_take, length_drop. lia.
Qed.

(** One step of the parser: an error, or an attribute and strictly fewer octets left. *)
Lemma get_next_rdn_spec rdn attribute :
  rdn <> [] \/ attribute <> [] -> Forall byteZ rdn -> Forall byteZ attribute ->
  (exists e, get_next_rdn rdn attribute = Ugh e) \/
  exists x, get_next_rdn rdn attribute = Ok x /\
    Forall byteZ (res_rdn x) /\ Forall byteZ (res_attribute x) /\
    (length (res_rdn x) + length (res_attribute x) < length rdn + length attribute)%nat /\
    (res_next x = true -> res_rdn x <> [] \/ res_attribute x <> []).
Proof.
  intros Hne Hb Hba. unfold get_next_rdn.
  destruct (next_set_spec _ _ Hne Hb Hba) as [[e ->]|(rdn'&[|t attr]&->&Hne'&Hb'&Hba'&Hl)];
    cbn [mbind outcome_bind]; [left; eauto|done|].
  cbn [head defined mbind outcome_bind]. destruct (negb (t =? ASN1_SEQUENCE)); [left; eauto|].
  destruct (asn1_length (t :: attr)) as [blen rest] eqn:E.
  destruct (Z.ltb_spec blen 1); [left; eauto|]. cbn [orb].
  destruct (Z.eqb_spec blen ASN1_INVALID_LENGTH); [left; eauto|].
  destruct (asn1_length_spec _ _ _ Hba' E) as (Hbl&Hr&Hbr); [done|].
  pose proof (Forall_take _ (Z.to_nat blen) _ Hbr) as Hbody.
  destruct (take (Z.to_nat blen) rest) as [|t' body] eqn:Eb.
  { apply (f_equal length) in Eb. rewrite length_take in Eb. cbn in Eb. lia. }
  cbn [head defined mbind outcome_bind]. destruct (negb (t' =? ASN1_OID)); [left; eauto|].
  destruct (asn1_length (t' :: body)) as [olen body'] eqn:Eo.
  destruct (Z.eqb_spec olen ASN1_INVALID_LENGTH); [left; eauto|].
  destruct (Z.ltb_spec (Z.of_nat (length (drop (Z.to_nat olen) body'))) 2); [left; eauto|].
  destruct (drop (Z.to_nat olen) body') as [|ty body''] eqn:Ed; [cbn in *; lia|].
  cbn [head defined mbind outcome_bind].
  destruct (asn1_length (ty :: body'')) as [vlen body3] eqn:Ev.
  destruct (Z.eqb_spec vlen ASN1_INVALID_LENGTH); [left; eauto|].
  right. eexists. split; [reflexivity|]. cbn [res_rdn res_attribute res_next].
  split; [done|]. split; [by apply Forall_drop|].
  split; [rewrite length_drop; cbn [length] in *; lia|].
  intros Hn. apply orb_true_iff in Hn as [Hn|Hn]; apply Nat.ltb_lt in Hn; [left|right];
    intros Hz; rewrite Hz in Hn; cbn in Hn; lia.
Qed.

(** * What the parser finds, and what it means for two names to match *)

Record attr := mk_attr {
  attr_oid : list Z;
  attr_type : Z;
  attr_value : list Z
}.

Definition res_attr (x : rdn_result) : attr := mk_attr (res_oid x) (res_type x) (res_value x).

(** The attributes from a position of the parser on. *)
Inductive parses : list Z -> list Z -> bool -> list attr -> Prop :=
  | parses_done rdn attribute : parses rdn attribute false []
  | parses_step rdn attribute x l :
      get_next_rdn rdn attribute = Ok x ->
      parses (res_rdn x) (res_attribute x) (res_next x) l ->
      parses rdn attribute true (res_attr x :: l).

(** The attributes of a distinguished name. *)
Definition dn_parses (dn : list Z) (l : list attr) : Prop :=
  exists rdn next, init_rdn dn = Ok (rdn, next) /\ parses rdn [] next l.

(** What [strneq] and [strncaseeq] compare. *)
Definition fold_name (t : list Z) : nat * list Z := (length t, tolower <$> before_nul t).
Definition exact_name (t : list Z) : nat * list Z := (length t, before_nul t).

(** Case is ignored for printable strings and e-mail addresses of the same type. *)
Definition ignore_case (oid : list Z) (type_a type_b : Z) : Prop :=
  type_a = type_b /\
  (type_a = ASN1_PRINTABLESTRING \/ type_a = ASN1_IA5STRING /\ known_oid oid = Ok OID_PKCS9_EMAIL).

Definition values_match (x y : attr) : Prop :=
  exact_name (attr_value x) = exact_name (attr_value y) \/
  ignore_case (attr_oid x) (attr_type x) (attr_type y) /\
  fold_name (attr_value x) = fold_name (attr_value y).

Definition is_wild (y : attr) : bool := bool_decide (attr_value y = [chr "*"]).

Definition attr_match (wild : bool) (x y : attr) : Prop :=
  attr_oid x = attr_oid y /\ (wild && is_wild y = true \/ values_match x y).

Definition wild_count (wild : bool) (l : list attr) : Z :=
  if wild then Z.of_nat (length (filter (fun y => is_wild y = true) l)) else 0.

Lemma tolower_0 x : tolower x = 0 -> x = 0.
Proof. unfold tolower. destruct (_ && _) eqn:E; [|done]. lia. Qed.

Lemma strncaseeq_fold a b :
  length a = length b ->
  strncaseeq_n (length a) a b = true <-> tolower <$> before_nul a = tolower <$> before_nul b.
Proof.
  revert b; induction a as [|x a IH]; intros [|y b] Hl; try done.
  injection Hl as Hl. cbn [length strncaseeq_n before_nul].
  rewrite andb_true_iff, orb_true_iff, Z.eqb_eq, IH by done.
  destruct (Z.eqb_spec x 0) as [->|Hx], (Z.eqb_spec y 0) as [->|Hy].
  - tauto.
  - split; [|done]. intros [H _]. symmetry in H. by apply tolower_0 in H.
  - split; [|done]. intros [H _]. by apply tolower_0 in H.
  - rewrite !fmap_cons. split.
    + intros [-> [Hz| ->]]; done.
    + intros [= -> ->]. auto.
Qed.

Lemma strneq_before_nul a b :
  length a = length b -> strneq_n (length a) a b = true <-> before_nul a = before_nul b.
Proof.
  revert b; induction a as [|x a IH]; intros [|y b] Hl; try done.
  injection Hl as Hl. cbn [length strneq_n before_nul].
  rewrite andb_true_iff, orb_true_iff, Z.eqb_eq, IH by done.
  destruct (Z.eqb_spec x 0) as [->|Hx], (Z.eqb_spec y 0) as [->|Hy].
  - tauto.
  - split; [|done]. intros [H _]. by subst.
  - split; [|done]. by intros [H _].
  - split; [|intros [= -> ->]; auto]. intros [-> [Hz| ->]]; done.
Qed.

Lemma match_value_spec x y :
  exists m, match_value (attr_oid x) (attr_type x) (attr_type y) (attr_value x) (attr_value y) = Ok m /\
    (m = true <-> values_match x y).
Proof.
  unfold match_value, values_match, ignore_case, fold_name, exact_name.
  destruct (Nat.eqb_spec (length (attr_value x)) (length (attr_value y))) as [Hl|Hl]; cbn [negb].
  2:{ exists false. split; [done|]. split; [done|]. by intros [[= ?]|[_ [= ?]]]. }
  destruct (known_oid_total (attr_oid x)) as (k&->&_). cbn [mbind outcome_bind].
  rewrite <- Hl. destruct (_ && _) eqn:E; eexists; (split; [reflexivity|]).
  - rewrite strncaseeq_fold by done. split.
    + intros H. right. split; [|by f_equal]. rewrite andb_true_iff, orb_true_iff, andb_true_iff, !Z.eqb_eq in E.
      destruct E as [? [?|[? ->]]]; auto.
    + intros [H|[_ H]]; injection H as H; [by rewrite H|done].
  - rewrite strneq_before_nul by done. split.
    + intros H. left. by f_equal.
    + intros [H|[[Ht Hk] _]]; [by injection H|]. exfalso. rewrite <- not_true_iff_false in E. apply E.
      rewrite andb_true_iff, orb_true_iff, andb_true_iff, !Z.eqb_eq. split; [done|].
      destruct Hk as [?|[? [= ?]]]; auto.
Qed.

(** A position of the parser from which it can go on. *)
Definition cursor_ok (rdn attribute : list Z) (next : bool) : Prop :=
  Forall byteZ rdn /\ Forall byteZ attribute /\ (next = true -> rdn <> [] \/ attribute <> []).

Lemma get_next_rdn_cursor rdn attribute :
  cursor_ok rdn attribute true ->
  (exists e, get_next_rdn rdn attribute = Ugh e) \/
  exists x, get_next_rdn rdn attribute = Ok x /\ cursor_ok (res_rdn x) (res_attribute x) (res_next x) /\
    (length (res_rdn x) + length (res_attribute x) < length rdn + length attribute)%nat.
Proof.
  intros (Hb&Hba&Hn). destruct (get_next_rdn_spec rdn attribute (Hn eq_refl) Hb Hba)
    as [?|(x&Hx&H1&H2&Hl&Hnx)]; [by left|]. right. by exists x.
Qed.

Lemma parses_stuck rdn attribute e l : get_next_rdn rdn attribute = Ugh e -> ~ parses rdn attribute true l.
Proof. intros He Hp. inversion Hp; congruence. Qed.

Lemma parses_cons rdn attribute x l :
  get_next_rdn rdn attribute = Ok x ->
  parses rdn attribute true l <->
  exists l', l = res_attr x :: l' /\ parses (res_rdn x) (res_attribute x) (res_next x) l'.
Proof.
  intros Hx. split.
  - inversion 1 as [|? ? y l' Hy Hp]; subst. rewrite Hx in Hy. injection Hy as <-. eauto.
  - intros (l'&->&Hp). by econstructor.
Qed.

(** The comparison loop decides whether the attributes match one by one. *)
Definition loop_decides (wild : bool) (ra aa rb ab : list Z) (na nb : bool) (w : Z)
  (o : outcome string (bool * Z)) : Prop :=
  exists m w', o = Ok (m, w') /\
    (m = true <-> exists la lb, parses ra aa na la /\ parses rb ab nb lb /\
                    Forall2 (attr_match wild) la lb) /\
    (m = true -> forall lb, parses rb ab nb lb -> w' = w + wild_count wild lb).

Lemma loop_refuses wild ra aa rb ab na nb w w' :
  (forall la lb, parses ra aa na la -> parses rb ab nb lb -> Forall2 (attr_match wild) la lb -> False) ->
  loop_decides wild ra aa rb ab na nb w (Ok (false, w')).
Proof.
  intros H. exists false, w'. split; [done|]. split; [|done]. split; [done|].
  intros (la&lb&Ha&Hb&Hm). destruct (H la lb Ha Hb Hm).
Qed.

Lemma wild_count_cons wild y l :
  wild_count wild (y :: l) = wild_count wild l + (if wild && is_wild y then 1 else 0).
Proof.
  unfold wild_count. destruct wild; [|done]. rewrite filter_cons. cbn [andb].
  destruct (is_wild y); [rewrite decide_True by done|rewrite decide_False by done]; cbn [length]; lia.
Qed.

Lemma loop_step wild ra aa rb ab x y w w1 o :
  get_next_rdn ra aa = Ok x -> get_next_rdn rb ab = Ok y -> attr_match wild (res_attr x) (res_attr y) ->
  w1 = w + (if wild && is_wild (res_attr y) then 1 else 0) ->
  loop_decides wild (res_rdn x) (res_attribute x) (res_rdn y) (res_attribute y) (res_next x) (res_next y) w1 o ->
  loop_decides wild ra aa rb ab true true w o.
Proof.
  intros Hx Hy Hm -> (m&w'&->&Hi&Hw). exists m, w'. split; [done|]. split.
  - rewrite Hi. split.
    + intros (la&lb&Ha&Hb&Hf). exists (res_attr x :: la), (res_attr y :: lb).
      split; [by econstructor|]. split; [by econstructor|]. by constructor.
    + intros (la&lb&Ha&Hb&Hf). apply (parses_cons _ _ _ _ Hx) in Ha as (la'&->&Ha).
      apply (parses_cons _ _ _ _ Hy) in Hb as (lb'&->&Hb). apply Forall2_cons in Hf as [_ Hf]. eauto.
  - intros Ht lb Hb. apply (parses_cons _ _ _ _ Hy) in Hb as (lb'&->&Hb).
    rewrite (Hw Ht lb' Hb), wild_count_cons. lia.
Qed.

Lemma loop_mismatch wild ra aa rb ab x y w w' :
  get_next_rdn ra aa = Ok x -> get_next_rdn rb ab = Ok y ->
  ~ attr_match wild (res_attr x) (res_attr y) ->
  loop_decides wild ra aa rb ab true true w (Ok (false, w')).
Proof.
  intros Hx Hy Hm. apply loop_refuses. intros la lb Ha Hb Hf.
  apply (parses_cons _ _ _ _ Hx) in Ha as (la'&->&_).
  apply (parses_cons _ _ _ _ Hy) in Hb as (lb'&->&_). by apply Forall2_cons in Hf as [? _].
Qed.

Lemma loop_end wild ra aa rb ab na nb w :
  na && nb = false -> loop_decides wild ra aa rb ab na nb w (Ok (negb (na || nb), w)).
Proof.
  intros H. destruct na, nb; try done; cbn [orb negb].
  1,2: apply loop_refuses; intros la lb; do 3 inversion 1; congruence.
  exists true, w. split; [done|]. split.
  - split; [|done]. intros _. exists [], []. repeat split; constructor.
  - intros _ lb. inversion 1. destruct wild; cbn; lia.
Qed.

Lemma match_dn_loop_spec wild fuel : forall ra aa rb ab na nb w,
  cursor_ok ra aa na -> cursor_ok rb ab nb ->
  (length ra + length aa + length rb + length ab <= fuel)%nat ->
  loop_decides wild ra aa rb ab na nb w (match_dn_loop fuel wild ra aa rb ab na nb w).
Proof.
  induction fuel as [|fuel IH]; intros ra aa rb ab na nb w Ha Hb Hf.
  all: destruct (na && nb) eqn:En; cbn [match_dn_loop]; rewrite En; [|by apply loop_end].
  all: apply andb_true_iff in En as [-> ->].
  { destruct Ha as (_&_&Hn). destruct ra, aa; cbn in Hf; try lia. by destruct (Hn eq_refl). }
  destruct (get_next_rdn_cursor _ _ Ha) as [[e He]|(x&Hx&Hcx&Hlx)].
  { rewrite He. apply loop_refuses. intros la lb Hp. by apply (parses_stuck _ _ _ _ He) in Hp. }
  rewrite Hx. destruct (get_next_rdn_cursor _ _ Hb) as [[e He]|(y&Hy&Hcy&Hly)].
  { rewrite He. apply loop_refuses. intros la lb _ Hp. by apply (parses_stuck _ _ _ _ He) in Hp. }
  rewrite Hy. case_bool_decide as Ho.
  { eapply loop_mismatch; eauto. by intros [? _]. }
  change (bool_decide (res_value y = [chr "*"])) with (is_wild (res_attr y)).
  destruct (wild && is_wild (res_attr y)) eqn:Ew.
  - apply (loop_step _ _ _ _ _ x y w (w + 1)); [done|done|by split; [|left]|by rewrite Ew|].
    apply IH; auto. lia.
  - destruct (match_value_spec (res_attr x) (res_attr y)) as (m&Hm&Hi). cbn in Hm. rewrite Hm.
    cbn [mbind outcome_bind]. destruct m.
    + apply (loop_step _ _ _ _ _ x y w w); [done|done|split; [done|right; by apply Hi]|rewrite Ew; lia|].
      apply IH; auto. lia.
    + eapply loop_mismatch; eauto. intros [_ [Hw|Hv]]; [congruence|]. by apply Hi in Hv.
Qed.

Lemma init_rdn_cursor dn :
  dn <> [] -> Forall byteZ dn ->
  (exists e, init_rdn dn = Ugh e) \/ exists rdn next, init_rdn dn = Ok (rdn, next) /\ cursor_ok rdn [] next.
Proof.
  intros Hne Hb. destruct (init_rdn_spec dn Hne Hb) as [?|(rdn&->&Hbr&_)]; [by left|right].
  do 2 eexists. split; [done|]. split; [done|]. split; [constructor|]. intros H. left. intros ->. done.
Qed.

(** When both names are worth parsing, [match_dn] decides the match. *)
Lemma match_dn_decides a b wild :
  a <> [] -> b <> [] -> Forall byteZ a -> Forall byteZ b ->
  (wild = true \/ length a = length b /\ a <> b) ->
  exists m w, match_dn a b wild = Ok (m, w) /\
    (m = true <-> exists la lb, dn_parses a la /\ dn_parses b lb /\ Forall2 (attr_match wild) la lb) /\
    (m = true -> forall lb, dn_parses b lb -> w = wild_count wild lb).
Proof.
  intros Ha Hb Hba Hbb Hw. unfold match_dn.
  assert (negb wild && negb (length a =? length b)%nat = false /\ negb wild && bool_decide (a = b) = false)
    as [-> ->].
  { destruct Hw as [->|[Hl Hn]]; [done|]. rewrite Hl, Nat.eqb_refl, bool_decide_eq_false_2 by done.
    by rewrite !andb_false_r. }
  destruct (init_rdn_cursor a Ha Hba) as [[e He]|(ra&na&Hra&Hca)].
  { rewrite He. exists false, 0. split; [done|]. split; [|done]. split; [done|].
    intros (la&lb&(?&?&?&_)&_). congruence. }
  rewrite Hra. destruct (init_rdn_cursor b Hb Hbb) as [[e He]|(rb&nb&Hrb&Hcb)].
  { rewrite He. exists false, 0. split; [done|]. split; [|done]. split; [done|].
    intros (la&lb&_&(?&?&?&_)&_). congruence. }
  rewrite Hrb. destruct (match_dn_loop_spec wild (length ra + length rb) ra [] rb [] na nb 0 Hca Hcb)
    as (m&w&->&Hi&Hc); [cbn; lia|].
  exists m, w. split; [done|]. unfold dn_parses. split.
  - rewrite Hi. split.
    + intros (la&lb&H1&H2&H3). exists la, lb. eauto 10.
    + intros (la&lb&(?&?&H1&Hp)&(?&?&H2&Hp')&H3). exists la, lb.
      rewrite Hra in H1. rewrite Hrb in H2. injection H1 as <- <-. injection H2 as <- <-. auto.
  - intros Ht lb (?&?&H2&Hp). rewrite Hrb in H2. injection H2 as <- <-. rewrite (Hc Ht lb Hp). lia.
Qed.

(** * The encoding *)

Definition tlv (tag : Z) (content : list Z) : list Z :=
  tag :: code_asn1_length (Z.of_nat (length content)) ++ content.

(** An RDN of one attribute, and a DN of such RDNs. *)
Definition rdn_der (x : attr) : list Z :=
  tlv ASN1_SET (tlv ASN1_SEQUENCE (tlv ASN1_OID (attr_oid x) ++ tlv (attr_type x) (attr_value x))).
Definition dn_der (l : list attr) : list Z := tlv ASN1_SEQUENCE (concat (rdn_der <$> l)).

Lemma asn1_length_tlv tag content rest :
  Z.of_nat (length content) < 2 ^ 24 ->
  asn1_length (tlv tag content ++ rest) = (Z.of_nat (length content), content ++ rest).
Proof.
  intros H. unfold tlv. cbn [app]. rewrite <- app_assoc. apply asn1_length_code; [lia|].
  rewrite length_app. lia.
Qed.

Lemma asn1_length_tlv1 tag content :
  Z.of_nat (length content) < 2 ^ 24 ->
  asn1_length (tlv tag content) = (Z.of_nat (length content), content).
Proof.
  intros H. pose proof (asn1_length_tlv tag content [] H) as E. by rewrite !app_nil_r in E.
Qed.

Lemma head_tlv tag content rest : head (tlv tag content ++ rest) = Some tag.
Proof. done. Qed.

Lemma head_tlv1 tag content : head (tlv tag content) = Some tag.
Proof. done. Qed.

Lemma length_tlv tag content :
  length (tlv tag content) =
  (1 + length (code_asn1_length (Z.of_nat (length content))) + length content)%nat.
Proof. unfold tlv. cbn [length]. rewrite length_app. lia. Qed.

Lemma tlv_longer tag content : (length content + 2 <= length (tlv tag content))%nat.
Proof. rewrite length_tlv. pose proof (length_code_asn1_length (Z.of_nat (length content))). lia. Qed.

Lemma valid_length n : Z.of_nat n < 2 ^ 24 -> (Z.of_nat n =? ASN1_INVALID_LENGTH) = false.
Proof. intros H. apply Z.eqb_neq. unfold ASN1_INVALID_LENGTH. lia. Qed.

Lemma init_rdn_der content :
  Z.of_nat (length content) < 2 ^ 24 ->
  init_rdn (tlv ASN1_SEQUENCE content) = Ok (content, 0 <? Z.of_nat (length content)).
Proof.
  intros H. unfold init_rdn. rewrite asn1_length_tlv1 by done. cbn [head tlv defined mbind outcome_bind].
  change (negb (ASN1_SEQUENCE =? ASN1_SEQUENCE)) with false. cbv iota. rewrite valid_length by done.
  rewrite Nat2Z.id, take_ge by lia. done.
Qed.

Lemma next_set_der content rest :
  0 < Z.of_nat (length content) < 2 ^ 24 ->
  next_set (tlv ASN1_SET content ++ rest) [] = Ok (rest, content).
Proof.
  intros H. unfold next_set. rewrite asn1_length_tlv, head_tlv by lia. cbn [defined mbind outcome_bind].
  change (negb (ASN1_SET =? ASN1_SET)) with false. cbv iota. rewrite valid_length by lia.
  destruct (Z.ltb_spec (Z.of_nat (length content)) 1); [lia|]. cbn [orb].
  by rewrite Nat2Z.id, drop_app_length, take_app_length.
Qed.

(** The parser reads back one RDN. *)
Lemma get_next_rdn_der x rest :
  Z.of_nat (length (rdn_der x)) < 2 ^ 24 ->
  get_next_rdn (rdn_der x ++ rest) [] =
  Ok (mk_rdn rest [] (attr_oid x) (attr_type x) (attr_value x) (0 <? length rest)%nat).
Proof.
  intros H. unfold rdn_der in *.
  pose proof (tlv_longer ASN1_SET (tlv ASN1_SEQUENCE (tlv ASN1_OID (attr_oid x) ++ tlv (attr_type x) (attr_value x)))).
  pose proof (tlv_longer ASN1_SEQUENCE (tlv ASN1_OID (attr_oid x) ++ tlv (attr_type x) (attr_value x))) as Hs.
  pose proof (tlv_longer (attr_type x) (attr_value x)) as Hv.
  pose proof (tlv_longer ASN1_OID (attr_oid x)) as Ho. rewrite length_app in Hs.
  assert (length (tlv ASN1_OID (attr_oid x) ++ tlv (attr_type x) (attr_value x)) =
    length (tlv ASN1_OID (attr_oid x)) + length (tlv (attr_type x) (attr_value x)))%nat as Hb by apply length_app.
  unfold get_next_rdn. rewrite next_set_der by lia. cbn [mbind outcome_bind].
  rewrite head_tlv1, asn1_length_tlv1 by lia. cbn [defined mbind outcome_bind].
  change (negb (ASN1_SEQUENCE =? ASN1_SEQUENCE)) with false. cbv iota.
  rewrite valid_length, (proj2 (Z.ltb_ge _ 1)) by lia. cbn [orb].
  rewrite Nat2Z.id, take_ge, drop_ge by lia. rewrite head_tlv, asn1_length_tlv by lia.
  cbn [defined mbind outcome_bind]. change (negb (ASN1_OID =? ASN1_OID)) with false. cbv iota.
  rewrite valid_length by lia. rewrite Nat2Z.id, drop_app_length, take_app_length.
  rewrite (proj2 (Z.ltb_ge _ 2)), head_tlv1, asn1_length_tlv1 by lia.
  cbn [defined mbind outcome_bind]. rewrite valid_length by lia. rewrite Nat2Z.id, take_ge by lia.
  by rewrite orb_false_r.
Qed.
