(* ===== verification/DnTheorems.v ===== *)
(** Distinguished names: what the comparison decides, that the reader of the text form
    always builds a name the parser accepts, and that text and DER go back and forth. *)
From S2P Require Import Prelude Numbers Address Asn1 X509dn.

Lemma parses_der l :
  Z.of_nat (length (concat (rdn_der <$> l))) < 2 ^ 24 ->
  parses (concat (rdn_der <$> l)) [] (0 <? length (concat (rdn_der <$> l)))%nat l.
Proof.
  induction l as [|x l IH]; intros H; [constructor|].
  rewrite fmap_cons in *. cbn [concat] in *. rewrite length_app in *.
  assert (0 < length (rdn_der x))%nat as Hp.
  { unfold rdn_der. set (c := tlv ASN1_SEQUENCE _). pose proof (tlv_longer ASN1_SET c). lia. }
  rewrite (proj2 (Nat.ltb_lt 0 (length (rdn_der x) + _))) by lia.
  pose proof (get_next_rdn_der x (concat (rdn_der <$> l)) ltac:(lia)) as E.
  apply (parses_cons _ _ _ _ E). exists l. split; [by destruct x|]. apply IH. lia.
Qed.

(** Every DN of one-attribute RDNs is parsed back. *)
Lemma dn_parses_der l : Z.of_nat (length (dn_der l)) < 2 ^ 24 -> dn_parses (dn_der l) l.
Proof.
  intros H. unfold dn_der in *. pose proof (tlv_longer ASN1_SEQUENCE (concat (rdn_der <$> l))).
  do 2 eexists. split; [apply init_rdn_der; lia|].
  replace (0 <? Z.of_nat _) with (0 <? length (concat (rdn_der <$> l)))%nat.
  - apply parses_der. lia.
  - destruct (Nat.ltb_spec 0 (length (concat (rdn_der <$> l)))), (Z.ltb_spec 0 (Z.of_nat (length (concat (rdn_der <$> l))))); lia.
Qed.

(** * The reader builds well-formed names *)

(** The attribute [atodn] makes of a row of the table and a name. *)
Definition row_attr (row : x501rdn_t) (name : list Z) : attr :=
  mk_attr (rdn_oid row)
    (if (rdn_type row =? ASN1_PRINTABLESTRING) && negb (is_printablestring name)
     then ASN1_T61STRING else rdn_type row) name.

Definition from_table (x : attr) : Prop := exists row name, row ∈ x501rdns /\ x = row_attr row name.

(** The room [emit_rdn] asks for is the length of the encoding. *)
Lemma emit_rdn_spec s row :
  x501rdns !! at_pos s = Some row ->
  let name := take (length (at_name s) - at_whitespace s) (at_name s) in
  let der := rdn_der (row_attr row name) in
  emit_rdn s =
  Ok (if IDTOA_BUF <? 5 + Z.of_nat (length (dn_body s ++ der))
      then mk_atodn UNKNOWN_OID (at_oid s) name (at_whitespace s) (at_pos s) (dn_body s)
             (dn_seq_len s) (Some "DN is too big")
      else mk_atodn SEARCH_OID (at_oid s) [] (at_whitespace s) (at_pos s) (dn_body s ++ der)
             (dn_seq_len s + Z.of_nat (length der)) (at_ugh s)).
Proof.
  intros Hp. cbv zeta. unfold emit_rdn. rewrite Hp. cbn [defined mbind outcome_bind].
  set (name := take _ (at_name s)). unfold rdn_der, row_attr. cbn [attr_oid attr_type attr_value].
  set (type := if _ && _ then ASN1_T61STRING else rdn_type row).
  set (sq := tlv ASN1_OID (rdn_oid row) ++ tlv type name).
  assert (Z.of_nat (length sq) =
    1 + Z.of_nat (length (code_asn1_length (Z.of_nat (length (rdn_oid row))))) + Z.of_nat (length (rdn_oid row)) +
    1 + Z.of_nat (length (code_asn1_length (Z.of_nat (length name)))) + Z.of_nat (length name)) as Hsq.
  { unfold sq. rewrite length_app, !length_tlv. lia. }
  rewrite <- Hsq. set (st := tlv ASN1_SEQUENCE sq).
  assert (Z.of_nat (length st) = 1 + Z.of_nat (length (code_asn1_length (Z.of_nat (length sq)))) +
    Z.of_nat (length sq)) as Hst by (unfold st; rewrite length_tlv; lia).
  rewrite <- Hst.
  assert (Z.of_nat (length (tlv ASN1_SET st)) = 1 + Z.of_nat (length (code_asn1_length (Z.of_nat (length st)))) +
    Z.of_nat (length st)) as Hset by (rewrite length_tlv; lia).
  rewrite length_app. match goal with |- (if IDTOA_BUF <? ?a then _ else _) = Ok (if IDTOA_BUF <? ?b then _ else _) =>
    replace a with b by (unfold ASN1_MAX_LEN_LEN; lia) end.
  destruct (IDTOA_BUF <? _); [done|]. f_equal. f_equal.
  - unfold tlv at 1, st, tlv at 1, sq, tlv. cbn [app]. rewrite <- !app_assoc. done.
  - lia.
Qed.

Record atodn_inv (s : atodn_t) : Prop := {
  ai_body : exists l, dn_body s = concat (rdn_der <$> l) /\ Forall from_table l;
  ai_len : dn_seq_len s = Z.of_nat (length (dn_body s));
  ai_room : 5 + Z.of_nat (length (dn_body s)) <= IDTOA_BUF;
  ai_pos : at_state s = SEARCH_NAME \/ at_state s = READ_NAME -> (at_pos s < length x501rdns)%nat;
}.

Lemma emit_rdn_inv s :
  atodn_inv s -> at_state s = READ_NAME -> exists s', emit_rdn s = Ok s' /\ atodn_inv s'.
Proof.
  intros [[l [Hl Ht]] Hn Hr Hp] Hs. destruct (lookup_lt_is_Some_2 _ _ (Hp (or_intror Hs))) as [row Hrow].
  rewrite (emit_rdn_spec s row Hrow). eexists. split; [reflexivity|].
  set (x := row_attr row _). destruct (Z.ltb_spec IDTOA_BUF (5 + Z.of_nat (length (dn_body s ++ rdn_der x)))).
  - split; cbn; eauto.
  - split; cbn [dn_body dn_seq_len at_state]; [| |lia|by intros [?|?]].
    + exists (l ++ [x]). rewrite fmap_app, concat_app, Hl. cbn. rewrite app_nil_r. split; [done|].
      apply Forall_app; split; [done|]. constructor; [|constructor]. exists row, (attr_value x).
      split; [by eapply list_elem_of_lookup_2|done].
    + rewrite length_app, Hn. lia.
Qed.

Lemma find_rdn_bound oid pos : find_rdn oid = Some pos -> (pos < length x501rdns)%nat.
Proof.
  unfold find_rdn. destruct (list_find _ x501rdns) as [[i e]|] eqn:E; [|done]. cbn. intros [= ->].
  apply list_find_Some in E as [E _]. by apply lookup_lt_Some in E.
Qed.

(** Every step that only changes the scanner keeps the invariant. *)
Lemma atodn_inv_scan s s' :
  atodn_inv s -> dn_body s' = dn_body s -> dn_seq_len s' = dn_seq_len s ->
  (at_state s' = SEARCH_NAME \/ at_state s' = READ_NAME -> (at_pos s' < length x501rdns)%nat) ->
  atodn_inv s'.
Proof. intros [Hb Hl Hr _] Eb El Hp. split; rewrite ?Eb, ?El; done. Qed.

Lemma atodn_loop_inv n : forall src s,
  (length src <= n)%nat -> atodn_inv s -> exists s', atodn_loop src s = Ok s' /\ atodn_inv s'.
Proof.
  induction n as [|n IH]; intros [|c src] s Hn Hs; cbn in Hn; try lia; [by exists s|by exists s|].
  cbn [atodn_loop]. destruct (at_state s) eqn:Est.
  - apply IH; [lia|]. case_match; [done|]. apply (atodn_inv_scan s); [done..|]. by intros [?|?].
  - apply IH; [lia|]. case_match; [apply (atodn_inv_scan s); [done..|]; by intros [?|?]|].
    destruct (find_rdn (at_oid s)) as [pos|] eqn:Ef; apply (atodn_inv_scan s); try done.
    + intros _. by eapply find_rdn_bound.
    + by intros [?|?].
  - apply IH; [lia|]. case_match; [done|]. apply (atodn_inv_scan s); [done..|].
    intros _. cbn. apply (ai_pos _ Hs). auto.
  - assert (at_pos s < length x501rdns)%nat as Hp by (apply (ai_pos _ Hs); auto).
    case_match; [apply IH; [lia|]; by apply (atodn_inv_scan s)|].
    destruct (emit_rdn_inv s Hs Est) as (s'&He&Hs'). rewrite He. cbn [mbind outcome_bind].
    destruct src as [|c' src]; [apply IH; [cbn; lia|done]|].
    destruct (c' =? c); [|by apply IH; [cbn in *; lia|]].
    apply IH; [cbn in *; lia|]. by apply (atodn_inv_scan s).
  - by apply IH; [lia|].
Qed.

(** * Text and back *)

(** An RDN of the text form: a row of the table and a value. *)
Definition entry : Type := x501rdn_t * list Z.

Definition entry_attr (e : entry) : attr := row_attr e.1 e.2.
Definition entry_text (e : entry) : list Z := str (rdn_name e.1) ++ [chr "="] ++ e.2.

Fixpoint dn_text (l : list entry) : list Z :=
  match l with
  | [] => []
  | [e] => entry_text e
  | e :: l' => entry_text e ++ str ", " ++ dn_text l'
  end.

(** A character that neither ends a name nor has to be escaped. *)
Definition plain_char (c : Z) : Prop := c <> chr "," /\ c <> chr "/" /\ c <> 0.

(** A value that the text form carries as it is. *)
Definition plain_value (v : list Z) : Prop :=
  Forall plain_char v /\
  (exists c v', v = c :: v' /\ c <> chr " " /\ c <> chr "=") /\
  (exists v' c, v = v' ++ [c] /\ c <> chr " ").

(** A row whose acronym is the one the printer uses for its OID. *)
Definition canonical (row : x501rdn_t) : Prop :=
  row ∈ x501rdns /\
  exists k e, known_oid (rdn_oid row) = Ok k /\ k <> OID_UNKNOWN /\
    oid_names !! Z.to_nat k = Some e /\ oid_name e = rdn_name row.

Definition plain_entry (e : entry) : Prop := canonical e.1 /\ plain_value e.2.

(** The acronyms are read back as the row they come from. *)
Lemma find_rdn_row row :
  row ∈ x501rdns ->
  exists pos, find_rdn (str (rdn_name row)) = Some pos /\ x501rdns !! pos = Some row.
Proof.
  assert (Forall (fun row => exists pos, find_rdn (str (rdn_name row)) = Some pos /\
    x501rdns !! pos = Some row) x501rdns) as H.
  { repeat (constructor; [eexists; split; vm_compute; reflexivity|]). constructor. }
  rewrite Forall_forall in H. auto.
Qed.

Definition acronym_char (c : Z) : bool :=
  negb ((c =? chr " ") || (c =? chr "=") || (c =? chr "/") || (c =? chr ",") || (c =? 0)).

Lemma acronym_chars row :
  row ∈ x501rdns -> exists c a, str (rdn_name row) = c :: a /\ forallb acronym_char (c :: a) = true.
Proof.
  assert (Forall (fun row => exists c a, str (rdn_name row) = c :: a /\
    forallb acronym_char (c :: a) = true) x501rdns) as H.
  { repeat (constructor; [do 2 eexists; split; vm_compute; reflexivity|]). constructor. }
  rewrite Forall_forall in H. auto.
Qed.

Lemma read_oid chars : forall rest s,
  at_state s = READ_OID -> forallb acronym_char chars = true ->
  atodn_loop (chars ++ rest) s =
  atodn_loop rest (mk_atodn READ_OID (at_oid s ++ chars) (at_name s) (at_whitespace s) (at_pos s)
                     (dn_body s) (dn_seq_len s) (at_ugh s)).
Proof.
  induction chars as [|c chars IH]; intros rest s Hs Hc.
  - rewrite app_nil_r. destruct s. cbn in Hs. by subst.
  - cbn [forallb] in Hc. apply andb_true_iff in Hc as [Hc Hcs]. cbn [app atodn_loop]. rewrite Hs.
    unfold acronym_char in Hc. destruct ((c =? chr " ") || (c =? chr "=")); [done|]. cbn [negb].
    rewrite IH by done. cbn [at_oid at_name at_whitespace at_pos dn_body dn_seq_len at_ugh].
    by rewrite <- app_assoc.
Qed.

Lemma read_name chars : forall rest s,
  at_state s = READ_NAME -> Forall plain_char chars ->
  exists ws, atodn_loop (chars ++ rest) s =
    atodn_loop rest (mk_atodn READ_NAME (at_oid s) (at_name s ++ chars) ws (at_pos s)
                       (dn_body s) (dn_seq_len s) (at_ugh s)) /\
    (chars = [] -> ws = at_whitespace s) /\
    (forall v c, chars = v ++ [c] -> c <> chr " " -> ws = O).
Proof.
  induction chars as [|c chars IH]; intros rest s Hs Hc.
  - exists (at_whitespace s). rewrite app_nil_r. split; [destruct s; cbn in Hs; by subst|].
    split; [done|]. by intros [|? ?] ? ?.
  - apply Forall_cons in Hc as [(H1&H2&H3) Hcs]. cbn [app atodn_loop]. rewrite Hs.
    rewrite (proj2 (Z.eqb_neq c _) H1), (proj2 (Z.eqb_neq c _) H2), (proj2 (Z.eqb_neq c _) H3). cbn [orb negb].
    destruct (IH rest (mk_atodn READ_NAME (at_oid s) (at_name s ++ [c])
      (if c =? chr " " then S (at_whitespace s) else O) (at_pos s) (dn_body s) (dn_seq_len s) (at_ugh s)))
      as (ws&->&Hn&Hl); [done|done|].
    cbn [at_oid at_name at_whitespace at_pos dn_body dn_seq_len at_ugh] in *.
    exists ws. rewrite <- app_assoc. split; [done|]. split; [done|].
    intros [|x v] d E Hd; injection E as -> E.
    + subst chars. rewrite Hn by done. by rewrite (proj2 (Z.eqb_neq d _) Hd).
    + by apply (Hl v d).
Qed.

Lemma acronym_char_spec c :
  acronym_char c = true -> c <> chr " " /\ c <> chr "=" /\ c <> chr "/" /\ c <> chr "," /\ c <> 0.
Proof. unfold acronym_char. intros H. repeat split; intros ->; discriminate H. Qed.

(** The scanner reads one RDN and encodes it, if there is room. *)
Lemma read_entry e sep rest s :
  e.1 ∈ x501rdns -> plain_value e.2 -> at_state s = SEARCH_OID ->
  (sep = chr "," \/ sep = 0) -> head rest <> Some sep ->
  5 + Z.of_nat (length (dn_body s ++ rdn_der (entry_attr e))) <= IDTOA_BUF ->
  exists pos,
    atodn_loop (entry_text e ++ sep :: rest) s =
    atodn_loop rest (mk_atodn SEARCH_OID [] [] 0 pos (dn_body s ++ rdn_der (entry_attr e))
      (dn_seq_len s + Z.of_nat (length (rdn_der (entry_attr e)))) (at_ugh s)).
Proof.
  intros Hrow (Hv&(v0&v1&Ev&Hs1&Hs2)&(v2&v3&Ev'&Hs3)) Hs Hsep Hrest Hroom.
  destruct (find_rdn_row _ Hrow) as (pos&Hf&Hp). destruct (acronym_chars _ Hrow) as (c&a&Ea&Hc).
  exists pos. unfold entry_text. rewrite Ea, <- !app_assoc. cbn [app].
  cbn [forallb] in Hc. apply andb_true_iff in Hc as [Hc Hca]. apply acronym_char_spec in Hc as (H1&H2&H3&H4&H5).
  cbn [atodn_loop]. rewrite Hs.
  rewrite (proj2 (Z.eqb_neq c _) H1), (proj2 (Z.eqb_neq c _) H3), (proj2 (Z.eqb_neq c _) H4). cbn [orb].
  rewrite read_oid by done. cbn [atodn_loop at_state].
  change (negb ((chr "=" =? chr " ") || (chr "=" =? chr "="))) with false. cbv iota.
  cbn [at_oid at_name at_whitespace at_pos dn_body dn_seq_len at_ugh app]. rewrite <- Ea, Hf.
  rewrite Ev at 1. cbn [app atodn_loop at_state].
  rewrite (proj2 (Z.eqb_neq v0 _) Hs1), (proj2 (Z.eqb_neq v0 _) Hs2). cbn [orb].
  cbn [at_oid at_name at_whitespace at_pos dn_body dn_seq_len at_ugh app].
  pose proof Hv as Hv'. rewrite Ev in Hv'. apply Forall_cons in Hv' as [_ Hv1].
  edestruct (read_name v1 (sep :: rest)) as (ws&->&Hn&Hl); [|exact Hv1|]; [done|].
  cbn [at_oid at_name at_whitespace at_pos dn_body dn_seq_len at_ugh app] in *.
  assert (ws = O) as ->.
  { destruct v2 as [|x v2]; rewrite Ev in Ev'; injection Ev' as -> Ev'; [by apply Hn|].
    by apply (Hl v2 v3). }
  clear Hn Hl. rewrite <- Ev. cbn [atodn_loop at_state].
  assert (negb ((sep =? chr ",") || (sep =? chr "/") || (sep =? 0)) = false) as -> by (destruct Hsep as [-> | ->]; done).
  rewrite (emit_rdn_spec _ e.1) by done. cbn [at_oid at_name at_whitespace at_pos dn_body dn_seq_len at_ugh].
  rewrite Nat.sub_0_r, take_ge by lia. fold (entry_attr e). rewrite (proj2 (Z.ltb_ge _ _)) by lia.
  cbn [mbind outcome_bind]. destruct rest as [|c' rest]; [done|].
  destruct (Z.eqb_spec c' sep) as [->|]; [done|]. done.
Qed.

Lemma atodn_text l : forall s,
  l <> [] -> Forall (fun e => e.1 ∈ x501rdns /\ plain_value e.2) l -> at_state s = SEARCH_OID ->
  5 + Z.of_nat (length (dn_body s ++ concat (rdn_der <$> (entry_attr <$> l)))) <= IDTOA_BUF ->
  exists pos,
    atodn_loop (dn_text l ++ [0]) s =
    Ok (mk_atodn SEARCH_OID [] [] 0 pos (dn_body s ++ concat (rdn_der <$> (entry_attr <$> l)))
      (dn_seq_len s + Z.of_nat (length (concat (rdn_der <$> (entry_attr <$> l))))) (at_ugh s)).
Proof.
  induction l as [|e l IH]; intros s Hne Hl Hs Hroom; [done|]. apply Forall_cons in Hl as [[Hrow Hv] Hl].
  rewrite !fmap_cons in *. cbn [concat] in *. rewrite app_assoc in Hroom.
  rewrite length_app in Hroom. destruct l as [|e' l].
  - cbn [dn_text]. destruct (read_entry e 0 [] s) as [pos ->]; auto; [lia|].
    exists pos. cbn. by rewrite app_nil_r.
  - change (dn_text (e :: e' :: l)) with (entry_text e ++ str ", " ++ dn_text (e' :: l)).
    rewrite <- !app_assoc. change (str ", " ++ dn_text (e' :: l) ++ [0]) with
      (chr "," :: chr " " :: (dn_text (e' :: l) ++ [0])).
    destruct (read_entry e (chr ",") (chr " " :: (dn_text (e' :: l) ++ [0])) s) as [pos ->]; auto;
      [lia|].
    cbn [atodn_loop at_state]. change ((chr " " =? chr " ") || _ || _) with true. cbv iota.
    destruct (IH (mk_atodn SEARCH_OID [] [] 0 pos (dn_body s ++ rdn_der (entry_attr e))
      (dn_seq_len s + Z.of_nat (length (rdn_der (entry_attr e)))) (at_ugh s))) as [pos' ->]; auto.
    + cbn [dn_body]. rewrite length_app. lia.
    + exists pos'. cbn [dn_body dn_seq_len at_ugh]. rewrite <- app_assoc, length_app.
      do 2 f_equal. lia.
Qed.

(** What the printer adds for the RDNs that are left. *)
Definition print_text (first : bool) (l : list entry) : list Z :=
  match l with
  | [] => []
  | _ => (if first then [] else str ", ") ++ dn_text l
  end.

Lemma print_text_cons first e l :
  print_text first (e :: l) =
  (if first then [] else str ", ") ++ (str (rdn_name e.1) ++ chr "=" :: e.2) ++ print_text false l.
Proof.
  unfold print_text. f_equal. destruct l as [|e' l].
  - by rewrite app_nil_r.
  - change (dn_text (e :: e' :: l)) with (entry_text e ++ str ", " ++ dn_text (e' :: l)).
    unfold entry_text. by rewrite <- !app_assoc.
Qed.

Lemma format_chunk_room out len text :
  Z.of_nat (length text) < len -> format_chunk (out, len) text = (out ++ text, len - Z.of_nat (length text)).
Proof.
  intros H. unfold format_chunk. rewrite (proj2 (Z.ltb_lt 0 len)), (proj2 (Z.ltb_ge len _)) by lia.
  by rewrite (proj2 (Z.eqb_neq _ len)) by lia.
Qed.

Lemma before_nul_plain v : Forall plain_char v -> before_nul v = v.
Proof.
  induction 1 as [|c v (_&_&Hc) Hv IH]; [done|]. cbn. by rewrite (proj2 (Z.eqb_neq c 0) Hc), IH.
Qed.

Lemma format_attr out len n v :
  Z.of_nat (length n + S (length v)) < len ->
  format_chunk (format_chunk (out, len) n) (chr "=" :: v) =
  (out ++ n ++ chr "=" :: v, len - Z.of_nat (length n + S (length v))).
Proof.
  intros H. rewrite !format_chunk_room by (cbn [length]; lia). rewrite <- app_assoc.
  f_equal. cbn [length]. lia.
Qed.

(** The printer, on one RDN. *)
Lemma dn_parse_step fuel e rest (first : bool) out len :
  plain_entry e -> Z.of_nat (length (rdn_der (entry_attr e))) < 2 ^ 24 ->
  let sep := if first then [] else str ", " in
  Z.of_nat (length sep + (length (str (rdn_name e.1)) + S (length e.2))) < len ->
  dn_parse_loop (S fuel) (rdn_der (entry_attr e) ++ rest) [] true first (out, len) =
  dn_parse_loop fuel rest [] (0 <? length rest)%nat false
    (out ++ sep ++ str (rdn_name e.1) ++ chr "=" :: e.2,
     len - Z.of_nat (length sep + (length (str (rdn_name e.1)) + S (length e.2)))).
Proof.
  intros [(Hrow&k&r&Hk&Hku&Hr&Hname) (Hv&_&_)] Hlen sep Hroom.
  cbn [dn_parse_loop]. rewrite get_next_rdn_der, bind_Ok by lia. cbv beta zeta.
  cbn [res_oid res_rdn res_attribute res_value res_next].
  assert (attr_oid (entry_attr e) = rdn_oid e.1) as -> by reflexivity.
  rewrite Hk, bind_Ok. cbv beta. rewrite (proj2 (Z.eqb_neq k _) Hku), Hr.
  unfold defined. rewrite !bind_Ok. cbv beta. rewrite Hname.
  assert (attr_value (entry_attr e) = e.2) as -> by reflexivity. rewrite (before_nul_plain e.2 Hv).
  unfold sep in *. destruct first.
  - cbn [length] in Hroom. rewrite format_attr by lia. done.
  - rewrite format_chunk_room by lia. rewrite format_attr by lia. rewrite <- app_assoc. do 2 f_equal. lia.
Qed.

Lemma dn_parse_loop_text l : forall fuel first out len,
  Forall plain_entry l ->
  Z.of_nat (length (concat (rdn_der <$> (entry_attr <$> l)))) < 2 ^ 24 ->
  (length (concat (rdn_der <$> (entry_attr <$> l))) <= fuel)%nat ->
  Z.of_nat (length (print_text first l)) < len ->
  dn_parse_loop fuel (concat (rdn_der <$> (entry_attr <$> l))) []
    (0 <? length (concat (rdn_der <$> (entry_attr <$> l))))%nat first (out, len) =
  Ok (out ++ print_text first l, len - Z.of_nat (length (print_text first l))).
Proof.
  induction l as [|e l IH]; intros fuel first out len Hl Hlen Hf Hroom.
  - cbn. rewrite app_nil_r, Z.sub_0_r. by destruct fuel.
  - apply Forall_cons in Hl as [He Hl]. rewrite print_text_cons in *. rewrite !fmap_cons in *.
    cbn [concat] in *. rewrite !length_app in *. cbn [length] in Hroom.
    pose proof (tlv_longer ASN1_SET (tlv ASN1_SEQUENCE (tlv ASN1_OID (attr_oid (entry_attr e)) ++
      tlv (attr_type (entry_attr e)) (attr_value (entry_attr e))))) as Hp.
    fold (rdn_der (entry_attr e)) in Hp.
    rewrite (proj2 (Nat.ltb_lt 0 (length (rdn_der (entry_attr e)) + _))) by lia.
    destruct fuel as [|fuel]; [lia|]. rewrite dn_parse_step by (done || lia).
    rewrite IH by (done || lia). rewrite <- !app_assoc. cbn [length app]. do 2 f_equal. lia.
Qed.

Lemma before_nul_id t : Forall (fun c => c <> 0) t -> before_nul t = t.
Proof.
  induction 1 as [|c t Hc Ht IH]; [done|]. cbn. by rewrite (proj2 (Z.eqb_neq c 0) Hc), IH.
Qed.

Lemma entry_text_no_nul e : plain_entry e -> Forall (fun c => c <> 0) (entry_text e).
Proof.
  intros [[Hrow _] (Hv&_&_)]. unfold entry_text. apply Forall_app; split.
  - destruct (acronym_chars _ Hrow) as (c&a&->&Hc). apply Forall_forall. intros x Hx.
    rewrite forallb_forall in Hc. apply list_elem_of_In in Hx.
    by apply Hc, acronym_char_spec in Hx as (_&_&_&_&?).
  - constructor; [done|]. eapply Forall_impl; [exact Hv|]. by intros c (_&_&?).
Qed.

Lemma dn_text_no_nul l : Forall plain_entry l -> Forall (fun c => c <> 0) (dn_text l).
Proof.
  induction 1 as [|e l He Hl IH]; [constructor|]. destruct l as [|e' l]; [by apply entry_text_no_nul|].
  change (dn_text (e :: e' :: l)) with (entry_text e ++ str ", " ++ dn_text (e' :: l)).
  apply Forall_app; split; [by apply entry_text_no_nul|]. apply Forall_app; split; [by_decide|done].
Qed.

Lemma dn_parse_text l dstlen :
  l <> [] -> Forall plain_entry l -> Z.of_nat (length (concat (rdn_der <$> (entry_attr <$> l)))) < 2 ^ 24 ->
  Z.of_nat (length (dn_text l)) < dstlen ->
  dn_parse (Some (dn_der (entry_attr <$> l))) ([], dstlen) =
  Ok (dn_text l, dstlen - Z.of_nat (length (dn_text l))).
Proof.
  intros Hne Hl Hlen Hd. unfold dn_parse, dn_der. rewrite init_rdn_der, bind_Ok by done. cbv beta iota.
  replace (0 <? Z.of_nat _) with (0 <? length (concat (rdn_der <$> (entry_attr <$> l))))%nat.
  - assert (print_text true l = dn_text l) as E by by destruct l.
    rewrite dn_parse_loop_text; rewrite ?E; [done|done|done|lia|done].
  - destruct (Nat.ltb_spec 0 (length (concat (rdn_der <$> (entry_attr <$> l))))),
      (Z.ltb_spec 0 (Z.of_nat (length (concat (rdn_der <$> (entry_attr <$> l)))))); lia.
Qed.

(** * Properties *)

(** [atodn] never leaves its buffer of [IDTOA_BUF] bytes and never aborts: whatever
    the text, it builds a DER name that the parser accepts, whose attributes all come from
    its table of acronyms. *)
Theorem atodn_wellformed (src : list Z) :
  exists dn ugh l, atodn src = Ok (dn, ugh) /\ dn = dn_der l /\ dn_parses dn l /\
    Forall from_table l /\ Z.of_nat (length dn) <= IDTOA_BUF.
Proof.
  unfold atodn.
  destruct (atodn_loop_inv (length (before_nul src ++ [0])) (before_nul src ++ [0])
    (mk_atodn SEARCH_OID [] [] 0 0 [] 0 None)) as (s&->&[[l [Hb Ht]] Hl Hr _]); [lia| |].
  { split; cbn; [by exists []|done|unfold IDTOA_BUF; lia|by intros [?|?]]. }
  rewrite bind_Ok. exists (dn_der l), (at_ugh s), l.
  assert (Z.of_nat (length (dn_der l)) <= IDTOA_BUF) as Hlen.
  { unfold dn_der. rewrite length_tlv, <- Hb.
    pose proof (length_code_asn1_length (Z.of_nat (length (dn_body s)))). lia. }
  split; [unfold dn_der, tlv; by rewrite Hl, Hb|]. split; [done|]. split; [|done].
  apply dn_parses_der. unfold IDTOA_BUF in Hlen. lia.
Qed.


Definition row_CN : x501rdn_t := mk_x501rdn "CN" oid_CN ASN1_PRINTABLESTRING.
Definition row_O : x501rdn_t := mk_x501rdn "O" oid_O ASN1_PRINTABLESTRING.

Lemma canonical_CN : canonical row_CN.
Proof.
  split; [by_decide|]. exists 20, (mk_oid 3 false 21 "CN"). repeat split; vm_compute; congruence.
Defined.

Lemma canonical_O : canonical row_O.
Proof.
  split; [by_decide|]. exists 26, (mk_oid 10 false 27 "O"). repeat split; vm_compute; congruence.
Defined.


Lemma values_match_sym x y : attr_oid x = attr_oid y -> values_match x y -> values_match y x.
Proof.
  intros Ho [H|[[Ht Hk] H]]; [by left|]. right. split; [|done]. split; [done|].
  rewrite <- Ht, <- Ho. done.
Qed.

Lemma attr_match_sym x y : attr_match false x y -> attr_match false y x.
Proof. intros [Ho [?|Hv]]; [done|]. split; [done|]. right. by apply values_match_sym. Qed.

(** Without wildcards, the names are equal or have matching attributes. *)
Definition dn_eqv (a b : list Z) : Prop :=
  a = b \/ length a = length b /\
  exists la lb, dn_parses a la /\ dn_parses b lb /\ Forall2 (attr_match false) la lb.

Lemma same_dn_decides a b :
  Forall byteZ a -> Forall byteZ b -> exists m, same_dn a b = Ok m /\ (m = true <-> dn_eqv a b).
Proof.
  intros Ha Hb. unfold same_dn, dn_eqv. destruct (decide (a = b)) as [->|Hne].
  { exists true. unfold match_dn. rewrite Nat.eqb_refl, bool_decide_eq_true_2 by done. split; [done|]. tauto. }
  destruct (decide (length a = length b)) as [Hl|Hl].
  - assert (a <> [] /\ b <> []) as [Ha' Hb'] by (split; intros ->; [destruct b|destruct a]; done).
    destruct (match_dn_decides a b false) as (m&w&->&Hi&_); auto. rewrite bind_Ok. exists m. split; [done|].
    rewrite Hi. split; [by right|]. by intros [?|[_ ?]].
  - exists false. unfold match_dn. rewrite (proj2 (Nat.eqb_neq _ _) Hl). split; [done|]. split; [done|].
    intros [?|[? _]]; done.
Qed.

Lemma dn_eqv_sym a b : dn_eqv a b -> dn_eqv b a.
Proof.
  intros [->|(Hl&lx&ly&Hx&Hy&Hf)]; [by left|]. right. split; [done|]. exists ly, lx.
  split; [done|]. split; [done|]. apply Forall2_flip. eapply Forall2_impl; [exact Hf|].
  intros u v. apply attr_match_sym.
Qed.

(** [same_dn] always answers, and answers yes exactly when the names are equal octet
    for octet or have the same length and attributes that match one by one; the relation is
    reflexive and symmetric. *)
Theorem same_dn_correct (a b : list Z) (Ha : Forall byteZ a) (Hb : Forall byteZ b) :
  (exists m, same_dn a b = Ok m /\ (m = true <-> dn_eqv a b)) /\
  same_dn a a = Ok true /\ same_dn b a = same_dn a b.
Proof.
  split; [by apply same_dn_decides|]. split.
  - destruct (same_dn_decides a a Ha Ha) as (m&->&Hi). f_equal. apply Hi. by left.
  - destruct (same_dn_decides a b Ha Hb) as (m&->&Hi), (same_dn_decides b a Hb Ha) as (m'&->&Hi').
    f_equal. apply eq_true_iff_eq. rewrite Hi, Hi'. split; apply dn_eqv_sym.
Qed.

(** The DER name with one common name, of the given string type. *)
Definition cn_dn (type : Z) (s : string) : list Z := dn_der [mk_attr oid_CN type (str s)].

Lemma same_dn_correct_witness :
  Forall byteZ (cn_dn ASN1_PRINTABLESTRING "East") /\
  same_dn (cn_dn ASN1_PRINTABLESTRING "east") (cn_dn ASN1_PRINTABLESTRING "East") = Ok true.
Proof.
  assert (Forall byteZ (cn_dn ASN1_PRINTABLESTRING "East")) as H1 by by_decide.
  assert (Forall byteZ (cn_dn ASN1_PRINTABLESTRING "east")) as H2 by by_decide.
  split; [exact H1|].
  rewrite (proj2 (proj2 (same_dn_correct _ _ H1 H2))). vm_compute. reflexivity.
Defined.

(** [same_dn] is not transitive: case is ignored only between strings of the same
    type, so a T.61 name equals a printable one that equals another printable one in a
    different case, while the first and the last differ. *)
Theorem same_dn_not_transitive :
  same_dn (cn_dn ASN1_T61STRING "east") (cn_dn ASN1_PRINTABLESTRING "east") = Ok true /\
  same_dn (cn_dn ASN1_PRINTABLESTRING "east") (cn_dn ASN1_PRINTABLESTRING "EAST") = Ok true /\
  same_dn (cn_dn ASN1_T61STRING "east") (cn_dn ASN1_PRINTABLESTRING "EAST") = Ok false.
Proof. vm_compute. auto. Qed.

(** C29: with wildcards, [match_dn] on non-empty names always answers, yes exactly when the
    attributes match one by one, where the value "*" of the second name matches anything,
    and then the number it counts is the number of such values. *)
Theorem match_dn_wild_correct (a b : list Z) (Ha : Forall byteZ a) (Hb : Forall byteZ b)
  (Hna : a <> []) (Hnb : b <> []) :
  exists m w, match_dn a b true = Ok (m, w) /\
    (m = true <-> exists la lb, dn_parses a la /\ dn_parses b lb /\ Forall2 (attr_match true) la lb) /\
    (m = true -> forall lb, dn_parses b lb ->
       w = Z.of_nat (length (filter (fun y => attr_value y = [chr "*"]) lb))).
Proof.
  destruct (match_dn_decides a b true) as (m&w&Hm&Hi&Hw); auto.
  exists m, w. split; [done|]. split; [done|]. intros Ht lb Hlb. rewrite (Hw Ht lb Hlb).
  unfold wild_count, is_wild. do 2 f_equal. apply list_filter_iff. intros y. apply bool_decide_eq_true.
Qed.

Lemma match_dn_wild_correct_witness :
  match_dn (dn_der [mk_attr oid_C 19 (str "CA"); mk_attr oid_CN 19 (str "joe")])
    (dn_der [mk_attr oid_C 19 (str "CA"); mk_attr oid_CN 19 (str "*")]) true = Ok (true, 1) /\
  exists m w, match_dn (dn_der [mk_attr oid_C 19 (str "CA"); mk_attr oid_CN 19 (str "joe")])
    (dn_der [mk_attr oid_C 19 (str "CA"); mk_attr oid_CN 19 (str "*")]) true = Ok (m, w) /\ m = true.
Proof.
  split; [vm_compute; reflexivity|].
  destruct (match_dn_wild_correct (dn_der [mk_attr oid_C 19 (str "CA"); mk_attr oid_CN 19 (str "joe")])
    (dn_der [mk_attr oid_C 19 (str "CA"); mk_attr oid_CN 19 (str "*")])) as (m&w&Hm&_&_).
  - by_decide.
  - by_decide.
  - discriminate.
  - discriminate.
  - exists m, w. split; [exact Hm|]. assert (match_dn
      (dn_der [mk_attr oid_C 19 (str "CA"); mk_attr oid_CN 19 (str "joe")])
      (dn_der [mk_attr oid_C 19 (str "CA"); mk_attr oid_CN 19 (str "*")]) true = Ok (true, 1)) as H
      by (vm_compute; reflexivity). congruence.
Defined.

(** An empty name is read before its length is looked at: every entry point that
    parses (with wildcards, counting them, printing) reads the octet after the end of an
    empty chunk. *)
Theorem dn_empty_read (b : list Z) :
  match_dn [] b true = Abort /\ dn_count_wildcards [] = Abort /\ dntoa 512 (Some []) = Abort.
Proof. done. Qed.

(** What [atodn] does with text at its edges: an RDN that stops before its value, or
    before its equals sign, at the end of the text is dropped without an error; and an
    escaped comma after a space at the end of a value loses the comma and keeps the space. *)
Theorem atodn_edges :
  atodn (str "CN=east, O=") = atodn (str "CN=east") /\
  atodn (str "CN=east, nonsense") = atodn (str "CN=east") /\
  atodn (str "CN=east") = Ok (cn_dn ASN1_PRINTABLESTRING "east", None) /\
  atodn (str "CN=a,,") = Ok (cn_dn ASN1_PRINTABLESTRING "a,", None) /\
  atodn (str "CN=a ,,") = Ok (cn_dn ASN1_PRINTABLESTRING "a ", None).
Proof. vm_compute. auto. Qed.
