(* ===== verification/Id.v ===== *)
(** Identities: lib/libswan/id.c (comparison of [struct id], and the two routines
    that make identities safe for the shell) and [resolve_myid] of
    programs/pluto/myid.c. *)
From S2P Require Import Prelude Numbers Address AddressText Asn1 X509dn DnTheorems.

Definition ID_FROMCERT : Z := -3.
Definition ID_IMPOSSIBLE : Z := -2.
Definition ID_MYID : Z := -1.
Definition ID_NONE : Z := 0.
Definition ID_IPV4_ADDR : Z := 1.
Definition ID_FQDN : Z := 2.
Definition ID_USER_FQDN : Z := 3.
Definition ID_IPV6_ADDR : Z := 5.
Definition ID_DER_ASN1_DN : Z := 9.
Definition ID_KEY_ID : Z := 11.
Definition ID_NULL : Z := 13.

(** [struct id]; [name] is the contents of the chunk. *)
Record id := mk_id {
  kind : Z;
  ip_addr : ip_address;
  name : list Z
}.

#[export] Instance id_eq_dec : EqDecision id.
Proof. solve_decision. Defined.

Fixpoint drop_dots (r : list Z) : list Z :=
  match r with
  | c :: r' => if c =? chr "." then drop_dots r' else r
  | [] => []
  end.

(** [while (al > 0 && ptr[al - 1] == '.') al--;] *)
Definition strip_dots (t : list Z) : list Z := rev (drop_dots (rev t)).

Section Compare.
(** What [%myid] stands for ([myids[myid_state]]). *)
Context (myid : id).

Definition resolve_myid (a : id) : id := if kind a =? ID_MYID then myid else a.

Definition any_id (a : id) : outcome string bool :=
  let a := resolve_myid a in
  let k := kind a in
  if k =? ID_NONE then Ok true
  else if (k =? ID_IPV4_ADDR) || (k =? ID_IPV6_ADDR) then Ok (isanyaddr (ip_addr a))
  else if (k =? ID_FQDN) || (k =? ID_USER_FQDN) || (k =? ID_DER_ASN1_DN) || (k =? ID_KEY_ID)
          || (k =? ID_NULL) then Ok false
  else Abort.

Definition same_id (a b : id) : outcome string bool :=
  let a := resolve_myid a in
  let b := resolve_myid b in
  if (kind b =? ID_NONE) || (kind a =? ID_NONE) then Ok true
  else if negb (kind a =? kind b) then Ok false
  else
    let k := kind a in
    if k =? ID_NULL then Ok true
    else if (k =? ID_IPV4_ADDR) || (k =? ID_IPV6_ADDR) then Ok (sameaddr (ip_addr a) (ip_addr b))
    else if (k =? ID_FQDN) || (k =? ID_USER_FQDN) then
      let an := strip_dots (name a) in
      let bn := strip_dots (name b) in
      Ok ((length an =? length bn)%nat && strncaseeq_n (length an) an bn)
    else if (k =? ID_FROMCERT) || (k =? ID_DER_ASN1_DN) then same_dn (name a) (name b)
    else if k =? ID_KEY_ID then
      Ok ((length (name a) =? length (name b))%nat && bool_decide (name a = name b))
    else Abort.

(** [duplicate_id]: a private copy. *)
Definition duplicate_id (src : id) : id := src.

End Compare.

(** * Making identities safe for the shell *)

Definition is_metachar (c : Z) : bool :=
  (c =? 39) || (c =? 92) || (c =? 34) || (c =? 96) || (c =? 36).

(** [snprintf(dst, dstlen, "\\03%o", c)]: a backslash, "03" and the octal value. *)
Definition escape_char (c : Z) : list Z := [92; 48; 51] ++ oct_text c.

(** The loop of [escape_metachar] on the characters of [src], with [dstlen] bytes
    left; the result is what is stored, with its NUL. *)
Fixpoint escape_loop (src : list Z) (dstlen : Z) (out : list Z) : outcome string (list Z) :=
  match src with
  | c :: src' =>
      if 5 <? dstlen then
        if is_metachar c then
          let e := escape_char c in
          let n := Z.of_nat (length e) in
          passert (n <? dstlen) ;;
          escape_loop src' (dstlen - n) (out ++ e)
        else
          passert (1 <? dstlen) ;;
          escape_loop src' (dstlen - 1) (out ++ [c])
      else passert (1 <=? dstlen) ;; Ok (out ++ [0])
  | [] => passert (1 <=? dstlen) ;; Ok (out ++ [0])
  end.

Definition escape_metachar (src : list Z) (dstlen : Z) : outcome string (list Z) :=
  escape_loop (before_nul src) dstlen [].

Definition is_safe_char (c : Z) : bool :=
  isdigit c || ((97 <=? c) && (c <=? 122)) || ((65 <=? c) && (c <=? 90))
  || (c =? chr "_") || (c =? chr "-") || (c =? chr ".").

Fixpoint remove_loop (src : list Z) (dstlen : Z) (out : list Z) : list Z :=
  match src with
  | c :: src' =>
      if 1 <? dstlen then
        if is_safe_char c then remove_loop src' (dstlen - 1) (out ++ [c])
        else remove_loop src' dstlen out
      else out
  | [] => out
  end.

Definition remove_metachar (src : list Z) (dstlen : Z) : outcome string (list Z) :=
  passert (1 <=? dstlen) ;;
  Ok (remove_loop (before_nul src) dstlen [] ++ [0]).

(** * When identities are the same *)

Lemma fold_name_eq a b :
  length a = length b /\ strncaseeq_n (length a) a b = true <-> fold_name a = fold_name b.
Proof.
  unfold fold_name. split.
  - intros [Hl Hc]. apply strncaseeq_fold in Hc; [congruence|done].
  - intros [= Hl Hc]. split; [done|]. by apply strncaseeq_fold.
Qed.

(** Case analysis on membership in a literal list. *)
Ltac elem_cases H :=
  repeat (apply elem_of_cons in H as [H|H]); [..|by apply elem_of_nil in H].

Section Same.
Context (myid : id).

(** A kind that [same_id] knows, apart from the wildcard. *)
Definition known_kind (k : Z) : Prop :=
  k ∈ [ID_NULL; ID_IPV4_ADDR; ID_IPV6_ADDR; ID_FQDN; ID_USER_FQDN; ID_FROMCERT; ID_DER_ASN1_DN;
       ID_KEY_ID].

Definition good_id (a : id) : Prop :=
  let a := resolve_myid myid a in
  known_kind (kind a) /\
  (kind a = ID_IPV4_ADDR \/ kind a = ID_IPV6_ADDR -> wf_addr (ip_addr a)) /\
  Forall byteZ (name a).

(** What makes two identities of a known kind the same. *)
Definition id_eqv (a b : id) : Prop :=
  kind a = kind b /\
  (kind a = ID_IPV4_ADDR \/ kind a = ID_IPV6_ADDR ->
   sin_family (ip_addr a) = sin_family (ip_addr b) /\ sin_addr (ip_addr a) = sin_addr (ip_addr b)) /\
  (kind a = ID_FQDN \/ kind a = ID_USER_FQDN ->
   fold_name (strip_dots (name a)) = fold_name (strip_dots (name b))) /\
  (kind a = ID_FROMCERT \/ kind a = ID_DER_ASN1_DN -> dn_eqv (name a) (name b)) /\
  (kind a = ID_KEY_ID -> name a = name b).

Lemma memcmp_0 a b : length a = length b -> memcmp a b = 0 <-> a = b.
Proof.
  revert b; induction a as [|x a IH]; intros [|y b] Hl; try done. injection Hl as Hl.
  cbn [memcmp]. destruct (Z.ltb_spec x y), (Z.ltb_spec y x); try lia;
    try (split; [done|]; intros [= -> _]; lia).
  rewrite IH by done. split; [|by intros [= _ ->]]. intros ->. f_equal. lia.
Qed.

Lemma sameaddr_iff a b :
  wf_addr a -> wf_addr b ->
  sameaddr a b = true <-> sin_family a = sin_family b /\ sin_addr a = sin_addr b.
Proof.
  intros [_ Ha] [_ Hb]. unfold sameaddr, addrcmp, addrtypeof. rewrite Z.eqb_eq.
  destruct (Z.eqb_spec (sin_family a) (sin_family b)) as [Hf|Hf]; simpl negb; cbv iota.
  2:{ split; [by case_match|]. by intros [? _]. }
  assert (length (sin_addr a) = length (sin_addr b)) as Hl
    by (unfold AF_INET, AF_INET6 in *; lia).
  assert (exists n, (n = 4 \/ n = 16) /\ addrbytesptr_read a = (n, sin_addr a) /\
    addrbytesptr_read b = (n, sin_addr b) /\ length (sin_addr a) = Z.to_nat n) as (n&Hn&->&->&Hla).
  { unfold addrbytesptr_read. rewrite <- Hf. destruct Ha as [[-> Hla]|[-> Hla]]; simpl.
    - exists 4. auto.
    - exists 16. auto. }
  rewrite Z.ltb_irrefl, Z.eqb_refl. rewrite !take_ge by lia. cbn [negb].
  pose proof (memcmp_0 (sin_addr a) (sin_addr b) Hl) as Hm.
  destruct (Z.eqb_spec (memcmp (sin_addr a) (sin_addr b)) 0) as [Hc|Hc]; simpl negb; cbv iota.
  - tauto.
  - split; [by case_match|]. intros [_ ?]. tauto.
Qed.

(** On known kinds [same_id] decides [id_eqv]. *)
Lemma same_id_decides a b :
  good_id a -> good_id b ->
  exists r, same_id myid a b = Ok r /\ (r = true <-> id_eqv (resolve_myid myid a) (resolve_myid myid b)).
Proof.
  unfold good_id, same_id. generalize (resolve_myid myid a) (resolve_myid myid b).
  intros x y (Hkx&Hx&Hbx) (Hky&Hy&Hby). unfold id_eqv. unfold known_kind in *.
  destruct (Z.eqb_spec (kind x) (kind y)) as [Hk|Hk].
  2:{ exists false. split; [|by split; [|intros [? _]]].
      elem_cases Hkx; elem_cases Hky; by rewrite Hkx, Hky. }
  rewrite <- Hk in *. clear Hky. destruct (same_dn_decides (name x) (name y) Hbx Hby) as (m&Hm&Hi).
  elem_cases Hkx; rewrite Hkx in *.
  6,7: (exists m; split; [exact Hm|]; rewrite Hi).
  all: try (eexists; split; [reflexivity|]).
  all: try (rewrite sameaddr_iff by auto).
  all: try (rewrite andb_true_iff, Nat.eqb_eq).
  all: try (rewrite bool_decide_eq_true); try (rewrite fold_name_eq).
  all: unfold ID_NULL, ID_IPV4_ADDR, ID_IPV6_ADDR, ID_FQDN, ID_USER_FQDN, ID_FROMCERT, ID_DER_ASN1_DN,
    ID_KEY_ID in *; intuition congruence.
Qed.

(** An identity that is not a distinguished name. *)
Definition not_dn (a : id) : Prop := kind a <> ID_FROMCERT /\ kind a <> ID_DER_ASN1_DN.

Lemma id_eqv_refl a : id_eqv a a.
Proof. split; [done|]. split; [done|]. split; [done|]. split; [by left|done]. Qed.

Lemma id_eqv_sym a b : id_eqv a b -> id_eqv b a.
Proof.
  intros (Hk&H1&H2&H3&H4). unfold id_eqv. rewrite <- Hk.
  split; [done|]. split; [intros H; destruct (H1 H); auto|].
  split; [intros H; symmetry; auto|]. split; [intros H; apply dn_eqv_sym; auto|].
  intros H; symmetry; auto.
Qed.

Lemma id_eqv_trans a b c : not_dn b -> id_eqv a b -> id_eqv b c -> id_eqv a c.
Proof.
  intros [Hd1 Hd2] (Hk&H1&H2&H3&H4) (Hk'&H1'&H2'&H3'&H4'). unfold id_eqv. rewrite Hk in *.
  split; [done|]. split; [intros H; destruct (H1 H), (H1' H); split; congruence|].
  split; [intros H; rewrite H2; auto|]. split; [by intros [?|?]|].
  intros H; rewrite H4; auto.
Qed.

(** A wildcard on either side is the same as anything. *)
Lemma same_id_none a b : kind a = ID_NONE -> same_id myid a b = Ok true.
Proof.
  intros Ha. unfold same_id, resolve_myid at 2 4. rewrite Ha. simpl. rewrite Ha. simpl.
  by rewrite orb_true_r.
Qed.

End Same.

(** On identities of known kinds (no wildcard) [same_id] never aborts, answers
    exactly [id_eqv], is reflexive and symmetric, and is transitive through any identity
    that is not a distinguished name. *)
Theorem same_id_equivalence (myid a b c : id)
  (Ha : good_id myid a) (Hb : good_id myid b) (Hc : good_id myid c) :
  (exists r, same_id myid a b = Ok r /\
     (r = true <-> id_eqv (resolve_myid myid a) (resolve_myid myid b))) /\
  same_id myid a a = Ok true /\ same_id myid b a = same_id myid a b /\
  (not_dn (resolve_myid myid b) -> same_id myid a b = Ok true -> same_id myid b c = Ok true ->
   same_id myid a c = Ok true).
Proof.
  pose proof (same_id_decides myid) as HD. split; [by apply HD|]. split; [|split].
  - destruct (HD a a Ha Ha) as (r & -> & Hi). f_equal. apply Hi, id_eqv_refl.
  - destruct (HD a b Ha Hb) as (r & -> & Hi), (HD b a Hb Ha) as (r' & -> & Hi').
    f_equal. apply eq_true_iff_eq. rewrite Hi, Hi'. split; apply id_eqv_sym.
  - destruct (HD a b Ha Hb) as (r & -> & Hi), (HD b c Hb Hc) as (r' & -> & Hi'),
      (HD a c Ha Hc) as (r'' & -> & Hi'').
    intros Hd [= ->] [= ->]. f_equal. apply Hi''. eapply id_eqv_trans; [done|by apply Hi|by apply Hi'].
Qed.

Definition no_id : id := mk_id ID_NONE (mk_ip 0 0 []) [].
Definition fqdn_id (s : string) : id := mk_id ID_FQDN (mk_ip 0 0 []) (str s).

Lemma fqdn_good myid s : good_id myid (fqdn_id s).
Proof.
  split; [|split; [intros [H|H]; discriminate H|apply str_bytes]].
  apply (bool_decide_eq_true_1 _). reflexivity.
Defined.

Lemma same_id_equivalence_witness :
  same_id no_id (fqdn_id "East.Example.ORG.") (fqdn_id "east.example.org") = Ok true /\
  same_id no_id (fqdn_id "east.example.org") (fqdn_id "East.Example.ORG.") = Ok true.
Proof.
  split; [vm_compute; reflexivity|].
  rewrite (proj1 (proj2 (proj2 (same_id_equivalence no_id (fqdn_id "East.Example.ORG.")
    (fqdn_id "east.example.org") (fqdn_id "west") (fqdn_good _ _) (fqdn_good _ _) (fqdn_good _ _))))).
  vm_compute; reflexivity.
Defined.

(** The wildcard kind [ID_NONE] is the same as any identity whatever, so with it
    [same_id] is not transitive: two different names are both the same as it. *)
Theorem same_id_wildcard (myid : id) :
  (forall b, same_id myid no_id b = Ok true) /\ (forall a, same_id myid a no_id = Ok true) /\
  same_id myid (fqdn_id "east") (fqdn_id "west") = Ok false.
Proof.
  split; [intros b; by apply same_id_none|]. split; [|reflexivity].
  intros a. reflexivity.
Qed.

(** * The shell-safe forms *)

Definition escape_one (c : Z) : list Z := if is_metachar c then escape_char c else [c].

(** A character that ends a word, or expands, between double or single quotes. *)
Definition is_quote (c : Z) : bool := (c =? 39) || (c =? 34) || (c =? 96) || (c =? 36).

Lemma metachar_cases c : is_metachar c = true -> c ∈ [39; 92; 34; 96; 36].
Proof. unfold is_metachar. rewrite !orb_true_iff, !Z.eqb_eq. set_solver. Qed.

Lemma escape_one_len c : (1 <= length (escape_one c) <= 6)%nat.
Proof.
  unfold escape_one. destruct (is_metachar c) eqn:E; [|simpl; lia].
  apply metachar_cases in E. elem_cases E; subst c; by_decide.
Qed.

Lemma escape_one_safe c : Forall (fun x => is_quote x = false) (escape_one c).
Proof.
  unfold escape_one. destruct (is_metachar c) eqn:E.
  - apply metachar_cases in E. elem_cases E; subst c; by_decide.
  - repeat constructor. unfold is_metachar, is_quote in *. lia.
Qed.

(** One round of the loop. *)
Lemma escape_loop_cons c src dstlen out :
  escape_loop (c :: src) dstlen out =
  if 5 <? dstlen then
    if Z.of_nat (length (escape_one c)) <? dstlen
    then escape_loop src (dstlen - Z.of_nat (length (escape_one c))) (out ++ escape_one c)
    else Abort
  else if 1 <=? dstlen then Ok (out ++ [0]) else Abort.
Proof.
  cbn [escape_loop]. unfold escape_one, passert. destruct (5 <? dstlen).
  - destruct (is_metachar c).
    + by destruct (_ <? dstlen).
    + change (Z.of_nat (length [c])) with 1. by destruct (1 <? dstlen).
  - by destruct (1 <=? dstlen).
Qed.

Lemma escape_loop_ok src : forall dstlen out dst,
  escape_loop src dstlen out = Ok dst ->
  exists k, dst = out ++ concat (escape_one <$> take k src) ++ [0] /\
    Z.of_nat (length dst) <= Z.of_nat (length out) + dstlen /\
    ((length src <= k)%nat \/ Z.of_nat (length out) + dstlen < Z.of_nat (length dst) + 5).
Proof.
  induction src as [|c src IH]; intros dstlen out dst.
  - simpl. unfold passert. destruct (Z.leb_spec 1 dstlen); [|done]. intros [= <-].
    exists O. rewrite length_app. simpl. split; [done|]. lia.
  - rewrite escape_loop_cons. destruct (Z.ltb_spec 5 dstlen).
    + destruct (Z.ltb_spec (Z.of_nat (length (escape_one c))) dstlen); [|done].
      intros Hd. apply IH in Hd as (k & -> & Hl & Hk). exists (S k).
      rewrite firstn_cons, fmap_cons. cbn [concat length]. rewrite <- !app_assoc in *.
      rewrite !length_app in *. split; [done|]. lia.
    + destruct (Z.leb_spec 1 dstlen); [|done]. intros [= <-]. exists O.
      rewrite length_app. simpl. split; [done|]. lia.
Qed.

(** Whenever [escape_metachar] returns, the stored text is the escaped form of a
    prefix of the source with its NUL, it fits the buffer, none of the characters
    quote, double quote, backquote and dollar is in it, and the source was cut short
    only when fewer than 5 bytes were left. *)
Theorem escape_metachar_safe (src : list Z) (dstlen : Z) (dst : list Z)
  (H : escape_metachar src dstlen = Ok dst) :
  exists k, dst = concat (escape_one <$> take k (before_nul src)) ++ [0] /\
    Z.of_nat (length dst) <= dstlen /\
    Forall (fun x => is_quote x = false) dst /\
    ((length (before_nul src) <= k)%nat \/ dstlen < Z.of_nat (length dst) + 5).
Proof.
  apply escape_loop_ok in H as (k & Hd & Hl & Hk). exists k. simpl in *.
  split; [done|]. split; [lia|]. split; [|lia]. subst dst.
  apply Forall_app; split; [|by repeat constructor].
  apply Forall_concat, Forall_fmap, Forall_true. apply escape_one_safe.
Qed.

Lemma escape_metachar_safe_witness :
  escape_metachar (str "C=CA, O=a'b") 512 = Ok (str "C=CA, O=a\0347b" ++ [0]) /\
  exists k, str "C=CA, O=a\0347b" ++ [0] =
    concat (escape_one <$> take k (before_nul (str "C=CA, O=a'b"))) ++ [0] /\
    Z.of_nat (length (str "C=CA, O=a\0347b" ++ [0])) <= 512 /\
    Forall (fun x => is_quote x = false) (str "C=CA, O=a\0347b" ++ [0]) /\
    ((length (before_nul (str "C=CA, O=a'b")) <= k)%nat \/
     512 < Z.of_nat (length (str "C=CA, O=a\0347b" ++ [0])) + 5).
Proof.
  assert (escape_metachar (str "C=CA, O=a'b") 512 = Ok (str "C=CA, O=a\0347b" ++ [0])) as H
    by (vm_compute; reflexivity).
  split; [exact H|]. exact (escape_metachar_safe _ _ _ H).
Defined.

Lemma escape_loop_plain src : forall rest dstlen out,
  Forall (fun c => is_metachar c = false) src -> Z.of_nat (length src) + 5 < dstlen ->
  escape_loop (src ++ rest) dstlen out =
  escape_loop rest (dstlen - Z.of_nat (length src)) (out ++ src).
Proof.
  induction src as [|c src IH]; intros rest dstlen out Hs Hl; [by rewrite Z.sub_0_r, app_nil_r|].
  apply Forall_cons in Hs as [Hc Hs]. change (length (c :: src)) with (S (length src)) in *.
  change ((c :: src) ++ rest) with (c :: (src ++ rest)).
  rewrite escape_loop_cons. unfold escape_one. rewrite Hc. cbn [length].
  destruct (Z.ltb_spec 5 dstlen); [|lia]. destruct (Z.ltb_spec (Z.of_nat 1) dstlen); [|lia].
  rewrite IH by (done || lia). rewrite <- app_assoc. f_equal; lia.
Qed.

Lemma before_nul_app a b : Forall (fun c => c <> 0) a -> before_nul (a ++ b) = a ++ before_nul b.
Proof.
  induction 1 as [|c a Hc Ha IH]; [done|]. cbn. destruct (Z.eqb_spec c 0); [done|]. by rewrite IH.
Qed.

(** [escape_metachar] aborts the daemon on some identities: with a buffer of
    [dstlen] bytes, [dstlen - 6] ordinary characters followed by a backquote or a
    backslash (whose escape takes 6 bytes) fail its own "no truncation" assertion. *)
Theorem escape_metachar_aborts (src rest : list Z) (c dstlen : Z)
  (Hp : Forall (fun x => is_metachar x = false /\ x <> 0) src)
  (Hc : c = 96 \/ c = 92) (Hl : Z.of_nat (length src) = dstlen - 6) :
  escape_metachar (src ++ c :: rest) dstlen = Abort.
Proof.
  unfold escape_metachar. rewrite before_nul_app by (eapply Forall_impl; [exact Hp|naive_solver]).
  rewrite escape_loop_plain by (lia || (eapply Forall_impl; [exact Hp|naive_solver])).
  assert (before_nul (c :: rest) = c :: before_nul rest) as -> by (destruct Hc as [-> | ->]; done).
  rewrite escape_loop_cons. replace (dstlen - Z.of_nat (length src)) with 6 by lia.
  by destruct Hc as [-> | ->].
Qed.

Lemma escape_metachar_aborts_witness :
  escape_metachar (replicate 506 97 ++ [96]) 512 = Abort.
Proof.
  apply (escape_metachar_aborts (replicate 506 97) [] 96 512).
  - apply Forall_replicate. split; [reflexivity|discriminate].
  - left; reflexivity.
  - reflexivity.
Defined.

Lemma remove_loop_spec src : forall dstlen out,
  1 <= dstlen ->
  remove_loop src dstlen out =
  out ++ take (Z.to_nat (dstlen - 1)) (filter (fun c => is_safe_char c = true) src).
Proof.
  induction src as [|c src IH]; intros dstlen out Hd.
  - cbn. by rewrite take_nil, app_nil_r.
  - cbn [remove_loop]. destruct (Z.ltb_spec 1 dstlen).
    + rewrite filter_cons. destruct (is_safe_char c) eqn:E; cbn [decide].
      * rewrite IH by lia. rewrite decide_True by done.
        replace (Z.to_nat (dstlen - 1)) with (S (Z.to_nat (dstlen - 1 - 1))) by lia.
        by rewrite firstn_cons, <- app_assoc.
      * rewrite IH by lia. by rewrite decide_False by done.
    + replace (dstlen - 1) with 0 by lia. by rewrite app_nil_r.
Qed.

(** [remove_metachar] stores exactly the letters, digits, dots, dashes and
    underscores of the source, as many as fit, with a NUL: it always returns, and what
    it stores fits the buffer. *)
Theorem remove_metachar_correct (src : list Z) (dstlen : Z) (Hd : 1 <= dstlen) :
  exists dst, remove_metachar src dstlen = Ok (dst ++ [0]) /\
    dst = take (Z.to_nat (dstlen - 1)) (filter (fun c => is_safe_char c = true) (before_nul src)) /\
    Z.of_nat (length (dst ++ [0])) <= dstlen /\
    Forall (fun c => is_metachar c = false /\ is_safe_char c = true) dst.
Proof.
  exists (take (Z.to_nat (dstlen - 1)) (filter (fun c => is_safe_char c = true) (before_nul src))).
  unfold remove_metachar, passert. destruct (Z.leb_spec 1 dstlen); [|lia].
  rewrite remove_loop_spec by done. split; [reflexivity|]. split; [done|]. split.
  - rewrite length_app, length_take. simpl. lia.
  - apply Forall_take, Forall_forall. intros c [Hc _]%list_elem_of_filter. split; [|done].
    destruct (is_metachar c) eqn:E; [|done]. apply metachar_cases in E. by elem_cases E; subst c.
Qed.

Lemma remove_metachar_correct_witness :
  exists dst, remove_metachar (str "joe`reboot`") 100 = Ok (dst ++ [0]) /\ dst = str "joereboot".
Proof.
  destruct (remove_metachar_correct (str "joe`reboot`") 100) as (dst & H & Hd & _ & _); [lia|].
  exists dst. split; [exact H|]. rewrite Hd. vm_compute. reflexivity.
Defined.
