(* ===== verification/IdMatch.v ===== *)
(** Matching of identities in lib/libswan/id.c: [match_id], [id_count_wildcards] and the
    comparison of distinguished names whose RDNs stand in any order.

    The latter hands the text of the names to NSS; what it uses of NSS is the class [Nss],
    and the theorems hold for every instance of it. *)
From S2P Require Import Prelude Numbers Address Asn1 X509dn DnTheorems Id.

(** The part of NSS that id.c calls: an AVA (attribute type and value) with its tag, its
    decoded value and its comparison ([SECEqual] or not), and the reader of names.  A
    [CERTRDN] is its array of AVAs, a [CERTName] its array of RDNs. *)
Class Nss := {
  CERTAVA : Type;
  CERT_GetAVATag : CERTAVA -> Z;
  CERT_DecodeAVAValue : CERTAVA -> option (list Z);
  CERT_CompareAVA : CERTAVA -> CERTAVA -> bool;
  CERT_AsciiToName : list Z -> option (list (list CERTAVA))
}.

Definition MAX_WILDCARDS : Z := 15.
Definition ASN1_BUF_LEN : Z := 512.

Section Match.
Context `{Nss}.

(** The value of an AVA of the second name is a lone star. *)
Definition star (ava_b : CERTAVA) : bool :=
  match CERT_DecodeAVAValue ava_b with
  | Some val_b => bool_decide (val_b = [chr "*"])
  | None => false
  end.

(** The inner loop of [match_rdn]; [wild] is [has_wild != NULL].  The result says whether
    [matched] went up, and the new [*has_wild]. *)
Fixpoint match_ava (wild : bool) (avas_a : list CERTAVA) (ava_b : CERTAVA) (has_wild : bool) :
  bool * bool :=
  match avas_a with
  | ava_a :: avas_a' =>
      if CERT_GetAVATag ava_a =? CERT_GetAVATag ava_b then
        if wild && star ava_b then (true, true)
        else if CERT_CompareAVA ava_a ava_b then (true, has_wild)
        else match_ava wild avas_a' ava_b has_wild
      else match_ava wild avas_a' ava_b has_wild
  | [] => (false, has_wild)
  end.

(** The outer loop: [matched], [ava_num] and [*has_wild]. *)
Fixpoint match_avas (wild : bool) (rdn_a avas_b : list CERTAVA) (matched ava_num : Z)
  (has_wild : bool) : Z * Z * bool :=
  match avas_b with
  | ava_b :: avas_b' =>
      let '(m, has_wild) := match_ava wild rdn_a ava_b has_wild in
      match_avas wild rdn_a avas_b' (if m : bool then matched + 1 else matched) (ava_num + 1) has_wild
  | [] => (matched, ava_num, has_wild)
  end.

(** [match_rdn] and what it leaves in [*has_wild], which the caller has set to FALSE. *)
Definition match_rdn (rdn_a rdn_b : list CERTAVA) (wild : bool) : bool * bool :=
  let '(matched, ava_num, has_wild) := match_avas wild rdn_a rdn_b 0 0 false in
  ((0 <? matched) && (matched =? ava_num), has_wild).

Fixpoint find_rdn_match (wild : bool) (rdns_a : list (list CERTAVA)) (rdn_b : list CERTAVA) :
  option bool :=
  match rdns_a with
  | rdn_a :: rdns_a' =>
      let '(m, has_wild) := match_rdn rdn_a rdn_b wild in
      if m : bool then Some has_wild else find_rdn_match wild rdns_a' rdn_b
  | [] => None
  end.

(** The outer loop of [match_dn_unordered]: [matched], [rdn_num] and [*wildcards]. *)
Fixpoint match_rdns (wild : bool) (rdns_a rdns_b : list (list CERTAVA)) (matched rdn_num w : Z) :
  Z * Z * Z :=
  match rdns_b with
  | rdn_b :: rdns_b' =>
      match find_rdn_match wild rdns_a rdn_b with
      | Some has_wild =>
          match_rdns wild rdns_a rdns_b' (matched + 1) (rdn_num + 1)
            (if wild && has_wild then w + 1 else w)
      | None => match_rdns wild rdns_a rdns_b' matched (rdn_num + 1) w
      end
  | [] => (matched, rdn_num, w)
  end.

(** The C string [dntoa] leaves in a local buffer; a name it prints nothing of leaves the
    buffer uninitialised. *)
Definition dn_buffer (dn : list Z) : outcome string (list Z) :=
  '(out, _) ← dntoa ASN1_BUF_LEN (Some dn);
  defined (if decide (out = []) then None else Some (before_nul out)).

(** [wild] is [wildcards != NULL], [w] is [*wildcards]. *)
Definition match_dn_unordered (a b : list Z) (wild : bool) (w : Z) : outcome string (bool * Z) :=
  abuf ← dn_buffer a;
  bbuf ← dn_buffer b;
  match CERT_AsciiToName abuf, CERT_AsciiToName bbuf with
  | Some a_name, Some b_name =>
      let '(matched, rdn_num, w) := match_rdns wild a_name b_name 0 0 w in
      Ok ((0 <? matched) && (0 <? rdn_num) && (matched =? rdn_num), w)
  | _, _ => Ok (false, w)
  end.

Definition same_dn_any_order (a b : list Z) : outcome string bool :=
  '(ret, _) ← match_dn a b false;
  if ret : bool then Ok true
  else '(ret, _) ← match_dn_unordered a b false 0; Ok ret.

Definition match_dn_any_order_wild (a b : list Z) : outcome string (bool * Z) :=
  '(ret, w) ← match_dn a b true;
  if ret : bool then Ok (true, w) else match_dn_unordered a b true 0.

Definition match_id (myid a b : id) : outcome string (bool * Z) :=
  if kind b =? ID_NONE then Ok (true, MAX_WILDCARDS)
  else if negb (kind a =? kind b) then Ok (false, 0)
  else if kind a =? ID_DER_ASN1_DN then match_dn_any_order_wild (name a) (name b)
  else ret ← same_id myid a b; Ok (ret, 0).

(** The logging call of [idtoa] is not part of the result. *)
Definition id_count_wildcards (i : id) : outcome string Z :=
  if kind i =? ID_NONE then Ok MAX_WILDCARDS
  else if kind i =? ID_DER_ASN1_DN then dn_count_wildcards (name i)
  else Ok 0.

End Match.

(** * What the loops decide *)

Section MatchSpec.
Context `{Nss}.

(** An AVA of the second name finds its counterpart, up to a star. *)
Definition ava_matches (wild : bool) (x y : CERTAVA) : Prop :=
  CERT_GetAVATag x = CERT_GetAVATag y /\ (wild && star y = true \/ CERT_CompareAVA x y = true).

Definition rdn_matches (wild : bool) (ra rb : list CERTAVA) : Prop :=
  rb <> [] /\ Forall (fun y => Exists (fun x => ava_matches wild x y) ra) rb.

(** Every RDN of the second name has a counterpart in the first. *)
Definition name_covers (wild : bool) (na nb : list (list CERTAVA)) : Prop :=
  nb <> [] /\ Forall (fun rb => Exists (fun ra => rdn_matches wild ra rb) na) nb.

#[export] Instance ava_matches_dec wild x y : Decision (ava_matches wild x y).
Proof. unfold ava_matches. apply _. Defined.
#[export] Instance rdn_matches_dec wild ra rb : Decision (rdn_matches wild ra rb).
Proof. unfold rdn_matches. destruct rb; [right; naive_solver|].
  destruct (decide (Forall (fun y => Exists (fun x => ava_matches wild x y) ra) (c :: rb)));
    [by left|right; naive_solver]. Defined.

Lemma match_ava_spec wild ra y hw :
  match_ava wild ra y hw =
  if decide (Exists (fun x => ava_matches wild x y) ra) then (true, hw || (wild && star y))
  else (false, hw).
Proof.
  induction ra as [|x ra IH]; cbn [match_ava].
  { rewrite decide_False; [done|]. intros He. inversion He. }
  destruct (Z.eqb_spec (CERT_GetAVATag x) (CERT_GetAVATag y)) as [Ht|Ht].
  2:{ rewrite IH. apply decide_ext. rewrite Exists_cons. unfold ava_matches at 2. tauto. }
  destruct (wild && star y) eqn:Ew.
  { rewrite decide_True; [by rewrite orb_true_r|]. left. split; [done|by left]. }
  destruct (CERT_CompareAVA x y) eqn:Ec.
  - rewrite decide_True; [by rewrite orb_false_r|]. left. split; [done|by right].
  - rewrite IH. apply decide_ext. rewrite Exists_cons. unfold ava_matches at 2.
    rewrite Ew, Ec. intuition congruence.
Qed.

(** The counters: how many AVAs match and how many there are. *)
Lemma match_avas_spec wild ra rb : forall m n hw,
  exists k h, match_avas wild ra rb m n hw = (m + k, n + Z.of_nat (length rb), h) /\
    0 <= k <= Z.of_nat (length rb) /\
    (k = Z.of_nat (length rb) <-> Forall (fun y => Exists (fun x => ava_matches wild x y) ra) rb) /\
    (k = Z.of_nat (length rb) -> h = hw || existsb (fun y => wild && star y) rb).
Proof.
  induction rb as [|y rb IH]; intros m n hw; cbn [match_avas length existsb].
  { exists 0, hw. rewrite !Z.add_0_r, orb_false_r. naive_solver. }
  rewrite match_ava_spec. case_decide as Hy.
  - destruct (IH (m + 1) (n + 1) (hw || (wild && star y))) as (k&h&->&Hk&Hi&Hh).
    exists (k + 1), h. split; [do 2 f_equal; lia|]. split; [lia|]. split.
    + rewrite Forall_cons, <- Hi. split; [intros; split; [done|lia]|intros [_ ?]; lia].
    + intros Hk'. rewrite (Hh ltac:(lia)). by rewrite orb_assoc.
  - destruct (IH m (n + 1) hw) as (k&h&->&Hk&_). exists k, h.
    split; [do 2 f_equal; lia|]. split; [lia|]. rewrite Forall_cons. split; [split; [lia|tauto]|lia].
Qed.

Lemma match_rdn_spec wild ra rb :
  exists h, match_rdn ra rb wild = (bool_decide (rdn_matches wild ra rb), h) /\
    (rdn_matches wild ra rb -> h = wild && existsb star rb).
Proof.
  unfold match_rdn. destruct (match_avas_spec wild ra rb 0 0 false) as (k&h&->&Hk&Hi&Hh).
  exists h. split.
  - f_equal. apply eq_true_iff_eq. rewrite bool_decide_eq_true, andb_true_iff, Z.ltb_lt, Z.eqb_eq.
    unfold rdn_matches. rewrite <- Hi. destruct rb; cbn [length] in *; split; intros []; try lia; done || lia.
  - intros [_ Hf]. rewrite (Hh (proj2 Hi Hf)). cbn [orb]. clear. induction rb as [|y rb IH]; [by destruct wild|].
    cbn [existsb]. rewrite IH. by destruct wild.
Qed.

Lemma find_rdn_match_spec wild na rb :
  find_rdn_match wild na rb =
  if decide (Exists (fun ra => rdn_matches wild ra rb) na) then Some (wild && existsb star rb) else None.
Proof.
  induction na as [|ra na IH]; cbn [find_rdn_match].
  { rewrite decide_False; [done|]. intros He. inversion He. }
  destruct (match_rdn_spec wild ra rb) as (h&->&Hh). case_bool_decide as Hm.
  - rewrite decide_True by (by left). by rewrite Hh.
  - rewrite IH. apply decide_ext. rewrite Exists_cons. tauto.
Qed.

Lemma match_rdns_spec wild na nb : forall m n w,
  exists k, match_rdns wild na nb m n w =
    (m + k, n + Z.of_nat (length nb),
     w + Z.of_nat (length (filter (fun rb => wild && existsb star rb = true /\
                                    Exists (fun ra => rdn_matches wild ra rb) na) nb))) /\
    0 <= k <= Z.of_nat (length nb) /\
    (k = Z.of_nat (length nb) <-> Forall (fun rb => Exists (fun ra => rdn_matches wild ra rb) na) nb).
Proof.
  induction nb as [|rb nb IH]; intros m n w; cbn [match_rdns length].
  { exists 0. rewrite !Z.add_0_r. split; [done|]. split; [lia|]. split; [constructor|done]. }
  rewrite find_rdn_match_spec, filter_cons. destruct (decide (Exists _ _)) as [He|He].
  - set (h := wild && existsb star rb).
    destruct (IH (m + 1) (n + 1) (if wild && h then w + 1 else w)) as (k&->&Hk&Hi).
    exists (k + 1). split; [|split; [lia|rewrite Forall_cons, <- Hi; intuition lia]].
    assert (Hwh : wild && h = h) by (unfold h; by destruct wild). rewrite Hwh.
    f_equal; [f_equal; lia|]. destruct h; case_decide; intuition (try congruence); cbn [length]; lia.
  - destruct (IH m (n + 1) w) as (k&->&Hk&Hi). exists k.
    split; [|split; [lia|rewrite Forall_cons; split; [lia|tauto]]]. rewrite decide_False by tauto.
    f_equal; f_equal; lia.
Qed.

End MatchSpec.

(** * Printing a name always ends *)

(** A name that has at least one RDN, or does not parse at all. *)
Definition has_rdns (dn : list Z) : Prop :=
  dn <> [] /\ Forall byteZ dn /\ forall rdn, init_rdn dn <> Ok (rdn, false).

(** Something has been written, or there is room to do so. *)
Definition live (ch : list Z * Z) : Prop := fst ch <> [] \/ 0 < snd ch.

Lemma app_nonempty (a b : list Z) : a <> [] \/ b <> [] -> a ++ b <> [].
Proof. intros Hab He. apply app_eq_nil in He as [-> ->]. naive_solver. Qed.

Lemma format_chunk_live ch t : live ch -> live (format_chunk ch t).
Proof.
  destruct ch as [out len]. unfold format_chunk, live. cbn [fst snd].
  destruct (Z.ltb_spec 0 len); [|done]. intros Hl.
  destruct (Z.ltb_spec len (Z.of_nat (length t))); [|destruct (Z.eqb_spec (Z.of_nat (length t)) len)];
    cbn [fst snd]; try (right; lia); left; do 2 (apply app_nonempty; right); discriminate.
Qed.

Lemma format_chunk_writes ch c t : live ch -> fst (format_chunk ch (c :: t)) <> [].
Proof.
  destruct ch as [out len]. unfold format_chunk, live. cbn [fst snd].
  destruct (Z.ltb_spec 0 len); [|intros [?|?]; [done|lia]]. intros Hl.
  repeat case_match; cbn [fst]; apply app_nonempty; right; try discriminate; apply app_nonempty; by right.
Qed.

Lemma hex_octets_live bin : forall ch, live ch -> live (fold_left (fun ch b => format_chunk ch (hex_octet b)) bin ch).
Proof. induction bin as [|b bin IH]; intros ch Hl; [done|]. apply IH. by apply format_chunk_live. Qed.

(** The loop ends, in an error or with a text. *)
Lemma dn_parse_loop_total fuel : forall rdn attribute next first ch,
  cursor_ok rdn attribute next -> (length rdn + length attribute <= fuel)%nat -> live ch ->
  (exists e, dn_parse_loop fuel rdn attribute next first ch = Ugh e) \/
  exists ch', dn_parse_loop fuel rdn attribute next first ch = Ok ch' /\
    (next = true \/ fst ch <> [] -> fst ch' <> []).
Proof.
  induction fuel as [|fuel IH]; intros rdn attribute next first ch Hc Hf Hl;
    (destruct next; [|right; exists ch; split; [done|naive_solver]]).
  { destruct Hc as (_&_&Hn). destruct (Hn eq_refl) as [?|?]; destruct rdn, attribute; cbn in *; done || lia. }
  cbn [dn_parse_loop]. destruct (get_next_rdn_cursor _ _ Hc) as [[e ->]|(x&->&Hcx&Hlx)]; [left; by exists e|].
  rewrite bind_Ok. destruct (known_oid_total (res_oid x)) as (k&->&Hk). rewrite bind_Ok.
  set (ch1 := if first then ch else format_chunk ch (str ", ")).
  assert (Hl1 : live ch1) by (unfold ch1; destruct first; [done|by apply format_chunk_live]).
  assert (exists ch2, (if k =? OID_UNKNOWN then Ok (hex_str (res_oid x) ch1)
            else e ← defined (oid_names !! Z.to_nat k); Ok (format_chunk ch1 (str (oid_name e)))) =
            Ok (E := string) ch2 /\ live ch2) as (ch2&->&Hl2).
  { destruct (Z.eqb_spec k OID_UNKNOWN) as [|Hu].
    { eexists. split; [done|]. by apply hex_octets_live, format_chunk_live. }
    destruct Hk as [?|Hk]; [done|].
    destruct (lookup_lt_is_Some_2 oid_names (Z.to_nat k)) as [e ->]; [lia|].
    eexists. split; [done|by apply format_chunk_live]. }
  rewrite bind_Ok. pose proof (format_chunk_writes ch2 (chr "=") (before_nul (res_value x)) Hl2) as Hw.
  destruct (IH (res_rdn x) (res_attribute x) (res_next x) false
    (format_chunk ch2 (chr "=" :: before_nul (res_value x))) Hcx) as [?|(ch'&->&Hw')];
    [lia|by left|by left|right; exists ch'; auto].
Qed.

(** [dntoa] on a name with RDNs, or on one that does not parse, returns with a text. *)
Lemma dn_buffer_total dn : has_rdns dn -> exists t, dn_buffer dn = Ok t.
Proof.
  intros (Hne&Hb&Hr). unfold dn_buffer.
  assert (exists out n, dntoa ASN1_BUF_LEN (Some dn) = Ok (out, n) /\ out <> []) as (out&n&->&Ho).
  2:{ rewrite bind_Ok, decide_False by done. by eexists. }
  assert (Hhex : fst (hex_str dn ([], ASN1_BUF_LEN)) <> []).
  { destruct dn as [|d dn]; [done|]. unfold hex_str. cbn [fold_left].
    assert (Hx : forall bin ch, fst ch <> [] ->
      fst (fold_left (fun ch b => format_chunk ch (hex_octet b)) bin ch) <> []).
    { induction bin as [|b bin IH]; intros ch Hc; [done|]. apply IH. apply format_chunk_writes. by left. }
    apply Hx, format_chunk_writes, format_chunk_live. by right. }
  unfold dntoa. change (default [] (Some dn)) with dn.
  destruct (hex_str dn ([], ASN1_BUF_LEN)) as [ho hl] eqn:Eh.
  unfold dn_parse. destruct (init_rdn_cursor dn Hne Hb) as [[e ->]|(rdn&next&Hi&Hc)].
  { by exists ho, (ASN1_BUF_LEN - hl). }
  rewrite Hi. rewrite bind_Ok. destruct next; [|by destruct (Hr rdn)].
  destruct (dn_parse_loop_total (length rdn) rdn [] true true ([], ASN1_BUF_LEN) Hc)
    as [[e ->]|([out l]&->&Hw)]; [cbn; lia|by right| |].
  - by exists ho, (ASN1_BUF_LEN - hl).
  - exists out, (ASN1_BUF_LEN - l). auto.
Qed.

(** * Properties *)

Section Unordered.
Context `{Nss}.

Lemma match_dn_unordered_spec a b ta tb wild w :
  dn_buffer a = Ok ta -> dn_buffer b = Ok tb ->
  exists m w', match_dn_unordered a b wild w = Ok (m, w') /\
    (m = true <-> exists na nb, CERT_AsciiToName ta = Some na /\ CERT_AsciiToName tb = Some nb /\
                  name_covers wild na nb) /\
    (forall nb, m = true -> CERT_AsciiToName tb = Some nb ->
       w' = w + Z.of_nat (length (filter (fun rb => wild && existsb star rb = true) nb))).
Proof.
  intros Ha Hb. unfold match_dn_unordered. rewrite Ha, Hb, !bind_Ok.
  destruct (CERT_AsciiToName ta) as [na|]; [|exists false, w; naive_solver].
  destruct (CERT_AsciiToName tb) as [nb|]; [|exists false, w; naive_solver].
  destruct (match_rdns_spec wild na nb 0 0 w) as (k&->&Hk&Hi).
  assert (Hm : (0 <? 0 + k) && (0 <? 0 + Z.of_nat (length nb)) && (0 + k =? 0 + Z.of_nat (length nb)) = true
               <-> name_covers wild na nb).
  { unfold name_covers. rewrite <- Hi, !andb_true_iff, !Z.ltb_lt, Z.eqb_eq.
    destruct nb; cbn [length] in *; [naive_solver lia|]. split; [|intros []]; intuition (done || lia). }
  do 2 eexists. split; [done|]. split; [rewrite Hm; naive_solver|].
  intros nb' Ht [= <-]. apply Hm in Ht as [_ Ht]. do 3 f_equal. clear -Ht.
  induction Ht as [|rb nb Hrb Hf IH]; [done|]. rewrite !filter_cons.
  do 2 case_decide; cbn [length]; intuition congruence.
Qed.


(** The comment of [match_dn_unordered] promises an equal number of RDNs; the code counts
    those of the second name only.  More RDNs in the first name never make it fail: whoever
    holds a certificate for a longer name passes for the shorter one. *)
Theorem match_dn_unordered_superset (a a' b ta ta' tb : list Z) (na na' : list (list CERTAVA))
  (wild : bool) (w w1 : Z)
  (Ha : dn_buffer a = Ok ta) (Ha' : dn_buffer a' = Ok ta') (Hb : dn_buffer b = Ok tb)
  (Hna : CERT_AsciiToName ta = Some na) (Hna' : CERT_AsciiToName ta' = Some na')
  (Hsub : na ⊆ na') (Hm : match_dn_unordered a b wild w = Ok (true, w1)) :
  match_dn_unordered a' b wild w = Ok (true, w1).
Proof.
  destruct (match_dn_unordered_spec a b ta tb wild w Ha Hb) as (m&v&Hs&Hi&Hv).
  destruct (match_dn_unordered_spec a' b ta' tb wild w Ha' Hb) as (m'&v'&Hs'&Hi'&Hv').
  rewrite Hs in Hm. injection Hm as -> ->. destruct (proj1 Hi eq_refl) as (na0&nb&H1&Hnb&Hne&Hc).
  assert (m' = true) as ->.
  { apply Hi'. exists na', nb. do 3 (split; [done|]). simplify_eq. eapply Forall_impl; [exact Hc|].
    intros rb. rewrite !Exists_exists. intros (ra&Hra&?). exists ra. split; [by apply Hsub|done]. }
  by rewrite Hs', (Hv nb eq_refl Hnb), (Hv' nb eq_refl Hnb).
Qed.

(** A name that is an empty SEQUENCE (which a peer may send as its identity) is printed as
    nothing at all: the comparison then reads a local buffer that was never written. *)
Theorem match_dn_empty_sequence (b : list Z) (Hb : has_rdns b) :
  match_dn_any_order_wild [ASN1_SEQUENCE; 0] b = Abort.
Proof.
  destruct Hb as (Hnb&Hbb&Hr).
  destruct (match_dn_decides [ASN1_SEQUENCE; 0] b true) as (m&w&Hm&Hi&_); [done|done|by_decide|done|by left|].
  unfold match_dn_any_order_wild. rewrite Hm, bind_Ok. destruct m; [|done].
  destruct (proj1 Hi eq_refl) as (la&lb&(rdn&next&Hia&Hpa)&(rdn'&next'&Hib&Hpb)&Hf).
  vm_compute in Hia. injection Hia as <- <-. inversion Hpa; subst. apply Forall2_nil_inv_l in Hf as ->.
  inversion Hpb; subst. by destruct (Hr rdn').
Qed.

End Unordered.

(** Identities that [same_id] takes for the same also match, in [match_id]; for a
    distinguished name this needs one that parses. *)
Theorem same_id_match_id `{Nss} (myid a b : id) (Ha : good_id myid a) (Hb : good_id myid b)
  (Hka : kind a <> ID_MYID) (Hkb : kind b <> ID_MYID)
  (Hdn : kind a = ID_DER_ASN1_DN -> exists la, dn_parses (name a) la)
  (Hs : same_id myid a b = Ok true) :
  exists w, match_id myid a b = Ok (true, w).
Proof.
  destruct (same_id_decides myid a b Ha Hb) as (m&Hm&Hi). rewrite Hs in Hm. injection Hm as <-.
  pose proof (proj1 Hi eq_refl) as He. unfold good_id in Ha, Hb. unfold resolve_myid in *.
  rewrite (proj2 (Z.eqb_neq _ _) Hka) in *. rewrite (proj2 (Z.eqb_neq _ _) Hkb) in *.
  destruct Ha as (Hna&_&Hba), Hb as (Hnb&_&Hbb), He as (Hk&_&_&He&_). unfold match_id.
  assert (kind b =? ID_NONE = false) as ->.
  { unfold known_kind in Hnb. apply Z.eqb_neq. intros Hn. rewrite Hn in Hnb. by elem_cases Hnb. }
  rewrite Hk, Z.eqb_refl. cbn [negb]. destruct (Z.eqb_spec (kind b) ID_DER_ASN1_DN) as [Hd|_].
  2:{ exists 0. by rewrite Hs. }
  destruct (Hdn (eq_trans Hk Hd)) as (la0&Hpa0). unfold match_dn_any_order_wild.
  assert (exists la lb, dn_parses (name a) la /\ dn_parses (name b) lb /\ Forall2 (attr_match true) la lb)
    as (la&lb&Hpa&Hpb&Hf).
  { destruct (He ltac:(right; congruence)) as [<-|(_&la'&lb&Hpa'&Hpb&Hf)].
    - exists la0, la0. do 2 (split; [done|]). apply Forall_Forall2_diag, Forall_true. intros x. split; [done|]. right. by left.
    - exists la', lb. do 2 (split; [done|]).
      eapply Forall2_impl; [exact Hf|]. intros x y [Ho [Hc|Hv]]; [done|]. split; [done|by right]. }
  destruct (match_dn_decides (name a) (name b) true) as (m&w&->&Hm&_); [| |done|done|by left|].
  - intros Hn. rewrite Hn in Hpa. by destruct Hpa as (?&?&?&_).
  - intros Hn. rewrite Hn in Hpb. by destruct Hpb as (?&?&?&_).
  - rewrite bind_Ok. replace m with true by (symmetry; apply Hm; eauto). by exists w.
Qed.

(** * A reader of names, for the witnesses *)

(** Cut a text at each separator. *)
Fixpoint split_at (sep : Z) (t acc : list Z) : list (list Z) :=
  match t with
  | c :: t' => if c =? sep then acc :: split_at sep t' [] else split_at sep t' (acc ++ [c])
  | [] => [acc]
  end.

(** "C=CA, CN=joe": one AVA per RDN, its tag the value of the key's octets. *)
#[local] Instance plain_nss : Nss := {
  CERTAVA := list Z * list Z;
  CERT_GetAVATag x := be_decode (fst x);
  CERT_DecodeAVAValue x := Some (snd x);
  CERT_CompareAVA x y := bool_decide (x = y);
  CERT_AsciiToName t :=
    Some ((fun rdn => match split_at (chr "=") (filter (fun c => c <> chr " ") rdn) [] with
                      | k :: v => [(k, concat v)]
                      | [] => []
                      end) <$> split_at (chr ",") t [])
}.

Definition joe_dn : list Z := dn_der [mk_attr oid_O 19 (str "Acme"); mk_attr oid_CN 19 (str "joe")].
Definition guest_dn : list Z :=
  dn_der [mk_attr oid_CN 19 (str "joe"); mk_attr oid_OU 19 (str "guests"); mk_attr oid_O 19 (str "Acme")].
Definition acme_dn : list Z := dn_der [mk_attr oid_CN 19 (str "*"); mk_attr oid_O 19 (str "Acme")].

Lemma has_rdns_der l : l <> [] -> dn_parses (dn_der l) l -> Forall byteZ (dn_der l) -> has_rdns (dn_der l).
Proof.
  intros Hl (rdn&next&Hi&Hp) Hb. split; [|split; [done|]].
  - intros He. rewrite He in Hi. discriminate.
  - intros rdn' Hr. rewrite Hr in Hi. injection Hi as _ <-. inversion Hp. by subst.
Defined.

Lemma joe_rdns : has_rdns joe_dn.
Proof. apply has_rdns_der; [done|apply dn_parses_der; vm_compute; reflexivity|by_decide]. Defined.
Lemma acme_rdns : has_rdns acme_dn.
Proof. apply has_rdns_der; [done|apply dn_parses_der; vm_compute; reflexivity|by_decide]. Defined.


Lemma match_dn_unordered_superset_witness :
  match_dn_unordered joe_dn acme_dn true 0 = Ok (true, 1) /\
  match_dn_unordered guest_dn acme_dn true 0 = Ok (true, 1).
Proof.
  split; [vm_compute; reflexivity|].
  eapply (match_dn_unordered_superset joe_dn guest_dn acme_dn).
  1-5: vm_compute; reflexivity.
  - by_decide.
  - vm_compute. reflexivity.
Defined.

Lemma match_dn_empty_sequence_witness : match_dn_any_order_wild [48; 0] acme_dn = Abort.
Proof. exact (match_dn_empty_sequence acme_dn acme_rdns). Defined.

Lemma same_id_match_id_witness :
  match_id no_id (fqdn_id "East.Example.ORG.") (fqdn_id "east.example.org") = Ok (true, 0) /\
  exists w, match_id no_id (fqdn_id "East.Example.ORG.") (fqdn_id "east.example.org") = Ok (true, w).
Proof.
  split; [reflexivity|].
  apply (same_id_match_id no_id (fqdn_id "East.Example.ORG.") (fqdn_id "east.example.org"));
    try apply fqdn_good; try discriminate. reflexivity.
Defined.
