(* ===== verification/AddressPool.v ===== *)
(** The address pools of programs/pluto/addresspool.c, and the places of the daemon that
    take, give back and share leases (connections.c, ikev1_xauth.c, ikev2_child.c).

    A pool is its record; the list of leases is a list, a pointer into it ([pp], [ll]) a
    position.  [pluto_pools] is a list of pools under their pointers, newest first. *)
From S2P Require Import Prelude Numbers Address AddressText Subnet Id IdMatch.

Record lease_addr := mk_lease {
  index : Z;
  thatid : id;
  refcnt : Z;
  lingering_since : Z
}.

Record ip_pool := mk_pool {
  pool_refcount : Z;
  r : ip_range;
  size : Z;
  used : Z;
  lingering : Z;
  leases : list lease_addr
}.

(** [enum connection_kind] of include/pluto_constants.h *)
Inductive connection_kind := CK_GROUP | CK_TEMPLATE | CK_PERMANENT | CK_INSTANCE | CK_GOING_AWAY.

#[export] Instance connection_kind_eq_dec : EqDecision connection_kind.
Proof. solve_decision. Defined.

(** What the pools see of a [struct connection]: its kind, its pool, and the identity,
    address and lease flag of [spd.that]. *)
Record connection := mk_conn {
  c_kind : connection_kind;
  c_pool : option nat;
  that_id : id;
  client_addr : ip_address;
  has_lease : bool
}.

#[export] Instance lease_addr_eq_dec : EqDecision lease_addr.
Proof. solve_decision. Defined.
#[export] Instance ip_pool_eq_dec : EqDecision ip_pool.
Proof. solve_decision. Defined.
#[export] Instance connection_eq_dec : EqDecision connection.
Proof. solve_decision. Defined.

(** [ntohl(a.u.v4.sin_addr.s_addr)] *)
Definition v4_value (a : ip_address) : Z := be_decode (sin_addr a).

Definition set_leases (p : ip_pool) (ls : list lease_addr) : ip_pool :=
  mk_pool (pool_refcount p) (r p) (size p) (used p) (lingering p) ls.
Definition set_used (p : ip_pool) (n : Z) : ip_pool :=
  mk_pool (pool_refcount p) (r p) (size p) (u32 n) (lingering p) (leases p).
Definition set_lingering (p : ip_pool) (n : Z) : ip_pool :=
  mk_pool (pool_refcount p) (r p) (size p) (used p) (u32 n) (leases p).
Definition set_pool_refcount (p : ip_pool) (n : Z) : ip_pool :=
  mk_pool (u32 n) (r p) (size p) (used p) (lingering p) (leases p).
Definition set_refcnt (p : lease_addr) (n : Z) : lease_addr :=
  mk_lease (index p) (thatid p) (u32 n) (lingering_since p).
Definition set_has_lease (c : connection) (b : bool) : connection :=
  mk_conn (c_kind c) (c_pool c) (that_id c) (client_addr c) b.
Definition set_c_pool (c : connection) (p : option nat) : connection :=
  mk_conn (c_kind c) p (that_id c) (client_addr c) (has_lease c).
Definition set_c_kind (c : connection) (k : connection_kind) : connection :=
  mk_conn k (c_pool c) (that_id c) (client_addr c) (has_lease c).

(** * Leases *)

Definition free_lease_entry (h : lease_addr) (next : list lease_addr) : list lease_addr := next.

Fixpoint free_lease_list (head : list lease_addr) : list lease_addr :=
  match head with
  | h :: next => free_lease_list (free_lease_entry h next)
  | [] => []
  end.

Fixpoint ref_to_lease (ls : list lease_addr) (i : Z) : option nat :=
  match ls with
  | p :: ls' => if index p =? i then Some O else S <$> ref_to_lease ls' i
  | [] => None
  end.

(** The loop of [lease_an_address]: where it stops, the first free index it saw, and the
    lingering lease it remembers. *)
Fixpoint lease_scan (ls : list lease_addr) (n : nat) (i : Z) (ll : option (nat * lease_addr)) :
  outcome string (nat * Z * option (nat * lease_addr)) :=
  match ls with
  | p :: ls' =>
      passert (i <=? index p) ;;
      if i <? index p then Ok (n, i, ll)
      else
        let ll' :=
          if (refcnt p =? 0) &&
             match ll with
             | None => true
             | Some (_, l) => lingering_since l <? lingering_since p  (* monobefore *)
             end
          then Some (n, p) else ll in
        lease_scan ls' (S n) (u32 (index p + 1)) ll'
  | [] => Ok (n, i, ll)
  end.

Section Pool.
Context (myid : id) (uniqueIDs : bool).

(** [((c)->spd.that.id.kind != ID_NULL || (ID_NONE && uniqueIDs))] *)
Definition could_share_lease (c : connection) : bool :=
  negb (kind (that_id c) =? ID_NULL) || (negb (ID_NONE =? 0) && uniqueIDs).

(** [now] is [mononow()]. *)
Definition rel_lease_addr (now : Z) (pool : ip_pool) (c : connection) :
  outcome string (ip_pool * connection) :=
  if negb (has_lease c) then Ok (pool, c)
  else
    passert (addrtypeof (client_addr c) =? AF_INET) ;;
    let i := u32 (v4_value (client_addr c) - v4_value (r_start (r pool))) in
    passert (i <? size pool) ;;
    pp ← defined (ref_to_lease (leases pool) i);
    p ← defined (leases pool !! pp);
    pool' ←
      (if could_share_lease c then
         passert (0 <? refcnt p) ;;
         let p := set_refcnt p (refcnt p - 1) in
         if refcnt p =? 0 then
           let p := mk_lease (index p) (thatid p) (refcnt p) now in
           Ok (set_leases (set_lingering pool (lingering pool + 1)) (<[pp := p]> (leases pool)))
         else Ok (set_leases pool (<[pp := p]> (leases pool)))
       else
         passert (refcnt p =? 1) ;;
         Ok (set_used (set_leases pool (take pp (leases pool) ++
                 free_lease_entry p (drop (S pp) (leases pool)))) (used pool - 1)));
    Ok (pool', set_has_lease c false).

(** The search of [share_lease]. *)
Fixpoint share_scan (ls : list lease_addr) (who : id) (n : nat) :
  outcome string (option (nat * lease_addr)) :=
  match ls with
  | p :: ls' =>
      b ← same_id myid (thatid p) who;
      if (b : bool) then Ok (Some (n, p)) else share_scan ls' who (S n)
  | [] => Ok None
  end.

Definition share_lease (pool : ip_pool) (c : connection) : outcome string (option Z * ip_pool) :=
  if negb (could_share_lease c) then Ok (None, pool)
  else
    f ← share_scan (leases pool) (that_id c) 0;
    match f with
    | Some (n, p) =>
        let pool := if refcnt p =? 0
                    then set_used (set_lingering pool (lingering pool - 1)) (used pool + 1)
                    else pool in
        Ok (Some (index p), set_leases pool (<[n := set_refcnt p (refcnt p + 1)]> (leases pool)))
    | None => Ok (None, pool)
    end.

(** The allocation of [lease_an_address] when nothing can be shared: the index leased. *)
Definition new_lease (pool : ip_pool) (c : connection) : outcome string (Z * ip_pool) :=
  '(pp, i, ll) ← lease_scan (leases pool) 0 0 None;
  if i <? size pool then
    let a := mk_lease i (duplicate_id (that_id c)) 1 0 in
    Ok (i, set_leases (set_used pool (used pool + 1))
             (take pp (leases pool) ++ a :: drop pp (leases pool)))
  else
    match ll with
    | Some (n, l) =>
        let l' := mk_lease (index l) (duplicate_id (that_id c)) (u32 (refcnt l + 1))
                    (lingering_since l) in
        Ok (index l, set_leases (set_lingering pool (lingering pool - 1)) (<[n := l']> (leases pool)))
    | None =>
        passert (size pool =? used pool) ;;
        Ugh "no free address in addresspool"
    end.

(** On an error the pool is as it was. *)
Definition lease_an_address (pool : ip_pool) (c : connection) :
  outcome string (ip_address * ip_pool) :=
  '(s, pool) ← share_lease pool c;
  '(i, pool) ← match s with
               | Some i => Ok (i, pool)
               | None => new_lease pool c
               end;
  let addr := u32 (v4_value (r_start (r pool)) + i) in
  ipa ← initaddr (be_encode 4 addr) AF_INET;
  Ok (ipa, pool).

End Pool.

(** * Pools *)

Definition pools := list (nat * ip_pool).

(** Dereference of a pool pointer: [None] is a dangling one. *)
Fixpoint pool_at (ps : pools) (p : nat) : option ip_pool :=
  match ps with
  | (q, pool) :: ps' => if decide (q = p) then Some pool else pool_at ps' p
  | [] => None
  end.

(** A store through a pool pointer. *)
Definition pool_set (ps : pools) (p : nat) (pool : ip_pool) : pools :=
  (fun e => if decide (e.1 = p) then (p, pool) else e) <$> ps.

Fixpoint free_addresspool (ps : pools) (p : nat) : pools :=
  match ps with
  | (q, pool) :: ps' => if decide (q = p) then ps' else (q, pool) :: free_addresspool ps' p
  | [] => []
  end.

Definition unreference_addresspool (ps : pools) (c : connection) :
  outcome string (pools * connection) :=
  p ← defined (c_pool c);
  pool ← defined (pool_at ps p);
  passert (0 <? pool_refcount pool) ;;
  let pool := set_pool_refcount pool (pool_refcount pool - 1) in
  let ps := pool_set ps p pool in
  let ps := if pool_refcount pool =? 0 then free_addresspool ps p else ps in
  Ok (ps, set_c_pool c None).

Definition reference_addresspool (ps : pools) (p : nat) : outcome string pools :=
  pool ← defined (pool_at ps p);
  Ok (pool_set ps p (set_pool_refcount pool (pool_refcount pool + 1))).

Fixpoint find_addresspool (pool_range : ip_range) (ps : pools) : outcome string (option nat) :=
  match ps with
  | (h, hp) :: ps' =>
      let a := pool_range in
      let b := r hp in
      let sc := addrcmp (r_start a) (r_start b) in
      if (sc =? 0) && (addrcmp (r_end a) (r_end b) =? 0) then Ok (Some h)
      else if (if sc <? 0 then addrcmp (r_end a) (r_start b) <? 0
               else 0 <? addrcmp (r_start a) (r_end b))
      then find_addresspool pool_range ps'
      else Ugh "ERROR: partial overlap of addresspool"
  | [] => Ok None
  end.

(** [new] is the address [alloc_thing] gives; the result is [NULL] on an overlap. *)
Definition install_addresspool (ps : pools) (new : nat) (pool_range : ip_range) :
  option nat * pools :=
  match find_addresspool pool_range ps with
  | Ok (Some p) => (Some p, ps)
  | Ok None =>
      let size := u32 (v4_value (r_end pool_range) - v4_value (r_start pool_range) + 1) in
      (Some new, (new, mk_pool 0 pool_range size 0 0 []) :: ps)
  | _ => (None, ps)
  end.

(** * The callers *)

Section Callers.
Context (myid : id) (uniqueIDs : bool).

(** [lease_an_address(c, ...)] through the pool pointer of the connection. *)
Definition lease_for (ps : pools) (c : connection) : outcome string (ip_address * pools) :=
  p ← defined (c_pool c);
  pool ← defined (pool_at ps p);
  '(ipa, pool) ← lease_an_address myid uniqueIDs pool c;
  Ok (ipa, pool_set ps p pool).

(** [ikev2_cp_reply_state]: what it does to the connection and its pool; [Ugh] is
    [STF_INTERNAL_ERROR]. *)
Definition ikev2_cp_reply_state (ps : pools) (c : connection) :
  outcome string (pools * connection) :=
  '(ipv4, ps) ← lease_for ps c;
  Ok (ps, mk_conn (c_kind c) (c_pool c) (that_id c) ipv4 true).

(** [get_internal_addresses]: the address and whether it is a lease; the DNS servers of the
    connection ([dns1], [dns2]) are copied when they are set. *)
Definition get_internal_addresses (ps : pools) (c : connection) (dns1 dns2 : ip_address) :
  outcome string (ip_address * option ip_address * option ip_address * bool * pools) :=
  '(ipaddr, got_lease, ps) ←
    match c_pool c with
    | Some _ => '(ipaddr, ps) ← lease_for ps c; Ok (ipaddr, true, ps)
    | None =>
        passert (negb (isanyaddr (client_addr c))) ;;
        Ok (client_addr c, false, ps)
    end;
  Ok (ipaddr, if isanyaddr dns1 then None else Some dns1,
      if isanyaddr dns2 then None else Some dns2, got_lease, ps).

(** The part of [modecfg_resp] that makes the address the client's. *)
Definition modecfg_client_addr (use_modecfg_addr_as_client_addr got_lease : bool)
  (ipaddr : ip_address) (c : connection) : connection :=
  if use_modecfg_addr_as_client_addr && negb (sameaddr (client_addr c) ipaddr)
  then mk_conn (c_kind c) (c_pool c) (that_id c) ipaddr (got_lease || has_lease c)
  else c.

(** [delete_connection]: the lease and the pool of the connection.  [release_connection],
    which comes between the two, leaves both alone. *)
Definition delete_connection (now : Z) (ps : pools) (c : connection) :
  outcome string (pools * connection) :=
  passert (bool_decide (c_kind c <> CK_GOING_AWAY)) ;;
  '(ps, c) ←
    (if bool_decide (c_kind c = CK_INSTANCE) then
       let c := set_c_kind c CK_GOING_AWAY in
       match c_pool c with
       | Some p =>
           pool ← defined (pool_at ps p);
           '(pool, c) ← rel_lease_addr uniqueIDs now pool c;
           Ok (pool_set ps p pool, c)
       | None => Ok (ps, c)
       end
     else Ok (ps, c));
  match c_pool c with
  | Some _ => unreference_addresspool ps c
  | None => Ok (ps, c)
  end.

(** [unshare_connection]: the copy of a connection counts as a user of the pool. *)
Definition unshare_connection (ps : pools) (c : connection) : outcome string pools :=
  match c_pool c with
  | Some p => reference_addresspool ps p
  | None => Ok ps
  end.

(** [check_connection_end]: the range of an end may not clash with a pool. *)
Definition check_connection_end (ps : pools) (this : ip_range) : bool :=
  if v4_value (r_start this) =? 0 then true
  else match find_addresspool this ps with Ok _ => true | _ => false end.

(** [add_connection]: the ranges of the left and of the right end; one that starts at
    0.0.0.0 is no pool. *)
Definition add_connection_pool (ps : pools) (new1 new2 : nat) (left right : ip_range)
  (c : connection) : pools * connection :=
  let '(ps, c) :=
    if v4_value (r_start left) =? 0 then (ps, c)
    else let '(p, ps) := install_addresspool ps new1 left in (ps, set_c_pool c p) in
  if v4_value (r_start right) =? 0 then (ps, c)
  else let '(p, ps) := install_addresspool ps new2 right in (ps, set_c_pool c p).

(** [add_connection] as far as pools go; [Ugh] is the refusal of the connection.  [c] is
    what the whack message says of the other fields. *)
Definition add_connection (ps : pools) (new1 new2 : nat) (left right : ip_range)
  (c : connection) : outcome string (pools * connection) :=
  if check_connection_end ps right && check_connection_end ps left then
    let '(ps, c) := add_connection_pool ps new1 new2 left right c in
    ps ← unshare_connection ps c;
    Ok (ps, c)
  else Ugh "attempt to load incomplete connection".

(** [instantiate]: the copy of the template, under the identity found in phase 1 if there
    is one. *)
Definition instantiate `{Nss} (ps : pools) (c : connection) (his_id : option id) :
  outcome string (pools * connection) :=
  passert (bool_decide (c_kind c = CK_TEMPLATE)) ;;
  match his_id with
  | Some h =>
      ok ← (if kind (that_id c) =? ID_FROMCERT then Ok true
            else '(m, _) ← match_id myid h (that_id c); Ok m);
      passert ok
  | None => Ok tt
  end ;;
  let d := mk_conn (c_kind c) (c_pool c) (default (that_id c) his_id) (client_addr c)
             (has_lease c) in
  ps ← unshare_connection ps d;
  Ok (ps, set_c_kind d CK_INSTANCE).

(** [do_file_authentication]: the pool of a user replaces the one of the connection. *)
Definition xauth_user_pool (ps : pools) (new : nat) (pool_range : ip_range) (c : connection) :
  outcome string (pools * connection) :=
  if v4_value (r_start pool_range) =? 0 then Ok (ps, c)
  else
    '(ps, c) ← match c_pool c with
               | Some _ => unreference_addresspool ps c
               | None => Ok (ps, c)
               end;
    let '(p, ps) := install_addresspool ps new pool_range in
    Ok (ps, set_c_pool c p).

End Callers.
