(* ===== verification/PoolSpec.v ===== *)
(** What an address pool promises: the abstract pool (a finite map from leased indices to
    the identity and the number of users of the lease), the invariant of the detailed one,
    and the refinement between the two for every operation of addresspool.c. *)
From stdpp Require Import sorting.
From S2P Require Import Prelude Numbers Address AddressText Subnet Id IdMatch AddressPool.

(** * The abstract pool *)

Notation apool := (gmap Z (id * Z)).

Definition abs_lease (l : lease_addr) : Z * (id * Z) := (index l, (thatid l, refcnt l)).
Definition abs_leases (ls : list lease_addr) : apool := list_to_map (abs_lease <$> ls).
Definition abs_pool (p : ip_pool) : apool := abs_leases (leases p).

(** * The invariant *)

Definition sorted_leases (ls : list lease_addr) : Prop := StronglySorted Z.lt (index <$> ls).

Definition linger_count (ls : list lease_addr) : Z :=
  Z.of_nat (length (filter (fun l => refcnt l = 0) ls)).

Definition wf_lease (id_ok : id -> Prop) (sz : Z) (l : lease_addr) : Prop :=
  0 <= index l < sz /\ 0 <= refcnt l < 2 ^ 32 /\ id_ok (thatid l).

Definition wf_range (x : ip_range) : Prop :=
  v4_addr (r_start x) /\ v4_addr (r_end x) /\ 0 < v4_value (r_start x) <= v4_value (r_end x).

Record wf_pool (id_ok : id -> Prop) (p : ip_pool) : Prop := {
  wf_r : wf_range (r p);
  wf_size : size p = v4_value (r_end (r p)) - v4_value (r_start (r p)) + 1;
  wf_sorted : sorted_leases (leases p);
  wf_leases : Forall (wf_lease id_ok (size p)) (leases p);
  wf_lingering : lingering p = linger_count (leases p);
}.

(** The [used] counter counts the leases. *)
Definition accounted (p : ip_pool) : Prop := used p = Z.of_nat (length (leases p)).

(** * Sorted lists of leases *)

Lemma sorted_middle l1 l l2 :
  sorted_leases (l1 ++ l :: l2) <->
  sorted_leases l1 /\ sorted_leases l2 /\
  Forall (fun x => index x < index l) l1 /\ Forall (fun x => index l < index x) l2.
Proof.
  unfold sorted_leases. rewrite fmap_app, fmap_cons. induction l1 as [|a l1 IH]; csimpl.
  - split.
    + inversion_clear 1 as [|? ? Hs Hf]. split; [constructor|]. split; [done|]. split; [done|].
      rewrite Forall_fmap in Hf. exact Hf.
    + intros (_&Hs&_&Hf). constructor; [done|]. rewrite Forall_fmap. exact Hf.
  - split.
    + inversion_clear 1 as [|? ? Hs Hf]. apply IH in Hs as (H1&H2&H3&H4).
      apply Forall_app in Hf as [Hf1 Hf2]. apply Forall_cons in Hf2 as [Hf2 _].
      split; [by constructor|]. split; [done|]. split; [by constructor|done].
    + intros (H1&H2&H3&H4). inversion_clear H1 as [|? ? H1' Hf].
      apply Forall_cons in H3 as [H3 H3']. constructor; [by apply IH|].
      apply Forall_app; split; [done|]. constructor; [done|]. apply Forall_fmap.
      eapply Forall_impl; [exact H4|]. cbn. lia.
Qed.

Lemma sorted_same_index l1 l l' l2 :
  index l' = index l -> sorted_leases (l1 ++ l :: l2) -> sorted_leases (l1 ++ l' :: l2).
Proof. unfold sorted_leases. rewrite !fmap_app, !fmap_cons. by intros ->. Qed.

Lemma sorted_remove l1 l l2 : sorted_leases (l1 ++ l :: l2) -> sorted_leases (l1 ++ l2).
Proof.
  unfold sorted_leases. rewrite !fmap_app, fmap_cons. induction l1 as [|a l1 IH]; csimpl.
  - by inversion 1.
  - inversion_clear 1 as [|? ? Hs Hf]. constructor; [auto|].
    apply Forall_app in Hf as [Hf1 Hf2]. apply Forall_cons in Hf2 as [_ Hf2]. by apply Forall_app.
Qed.

Lemma sorted_NoDup ls : sorted_leases ls -> NoDup (abs_lease <$> ls).*1.
Proof.
  unfold sorted_leases. induction ls as [|l ls IH]; csimpl; [constructor|].
  inversion_clear 1 as [|? ? Hs Hf]. constructor; [|auto].
  intros (x & Hx & (y & -> & Hy)%list_elem_of_fmap)%list_elem_of_fmap. cbn in Hx.
  rewrite Forall_fmap, Forall_forall in Hf. specialize (Hf y Hy). cbn in Hf. lia.
Qed.

(** * The abstract map of a list *)

Lemma abs_middle l1 l l2 :
  sorted_leases (l1 ++ l :: l2) ->
  abs_leases (l1 ++ l :: l2) = <[index l := (thatid l, refcnt l)]> (abs_leases (l1 ++ l2)).
Proof.
  intros Hs. unfold abs_leases.
  rewrite (list_to_map_proper _ (abs_lease <$> l :: (l1 ++ l2))); [done|by apply sorted_NoDup|].
  apply fmap_Permutation. by rewrite Permutation_middle.
Qed.

Lemma abs_lookup ls i x :
  sorted_leases ls ->
  abs_leases ls !! i = Some x <-> exists l, l ∈ ls /\ index l = i /\ x = (thatid l, refcnt l).
Proof.
  intros Hs. unfold abs_leases. rewrite <- elem_of_list_to_map by by apply sorted_NoDup.
  rewrite list_elem_of_fmap. unfold abs_lease. split.
  - intros (l & [= -> ->] & Hl). eauto.
  - intros (l & Hl & <- & ->). eauto.
Qed.

Lemma abs_lookup_middle l1 l l2 :
  sorted_leases (l1 ++ l :: l2) ->
  abs_leases (l1 ++ l :: l2) !! index l = Some (thatid l, refcnt l) /\
  abs_leases (l1 ++ l2) !! index l = None.
Proof.
  intros Hs. split; [by rewrite abs_middle, lookup_insert_eq|].
  destruct (abs_leases (l1 ++ l2) !! index l) as [x|] eqn:E; [|done].
  apply abs_lookup in E as (y & Hy & Hi & _); [|by eapply sorted_remove].
  apply sorted_middle in Hs as (_&_&H1&H2). rewrite Forall_forall in H1, H2.
  apply elem_of_app in Hy as [Hy|Hy]; [apply H1 in Hy|apply H2 in Hy]; lia.
Qed.

Lemma abs_update l1 l l' l2 :
  sorted_leases (l1 ++ l :: l2) -> index l' = index l ->
  abs_leases (l1 ++ l' :: l2) =
  <[index l := (thatid l', refcnt l')]> (abs_leases (l1 ++ l :: l2)).
Proof.
  intros Hs Hi. rewrite !abs_middle by (done || by eapply sorted_same_index).
  by rewrite Hi, insert_insert_eq.
Qed.

Lemma abs_remove l1 l l2 :
  sorted_leases (l1 ++ l :: l2) ->
  abs_leases (l1 ++ l2) = delete (index l) (abs_leases (l1 ++ l :: l2)).
Proof.
  intros Hs. rewrite abs_middle by done. rewrite delete_insert_id; [done|].
  by apply abs_lookup_middle.
Qed.

(** * Positions and counters *)

Lemma linger_count_middle l1 l l2 :
  linger_count (l1 ++ l :: l2) =
  linger_count (l1 ++ l2) + (if refcnt l =? 0 then 1 else 0).
Proof.
  unfold linger_count. rewrite !filter_app, filter_cons, !length_app.
  destruct (Z.eqb_spec (refcnt l) 0); [rewrite decide_True by done|rewrite decide_False by done];
    cbn [length]; lia.
Qed.

Lemma insert_middle {A} (l1 : list A) x y l2 n :
  n = length l1 -> <[n := y]> (l1 ++ x :: l2) = l1 ++ y :: l2.
Proof. intros ->. rewrite insert_app_r_alt, Nat.sub_diag by lia. done. Qed.

Lemma ref_to_lease_spec ls i :
  match ref_to_lease ls i with
  | Some n => exists l1 l l2, ls = l1 ++ l :: l2 /\ n = length l1 /\ index l = i
  | None => Forall (fun l => index l <> i) ls
  end.
Proof.
  induction ls as [|l ls IH]; cbn; [constructor|]. destruct (Z.eqb_spec (index l) i).
  - by exists [], l, ls.
  - destruct (ref_to_lease ls i) as [n'|]; cbn.
    + destruct IH as (l1&x&l2&->&->&Hx). by exists (l :: l1), x, l2.
    + by constructor.
Qed.

(** * The scan of [lease_an_address] *)

(** The length of the run of consecutive indices, from [i], at the head of the list. *)
Fixpoint run (i : Z) (ls : list lease_addr) : nat :=
  match ls with
  | p :: ls' => if index p =? i then S (run (i + 1) ls') else O
  | [] => O
  end.

(** The lingering lease the scan remembers, over the leases it visits. *)
Fixpoint pick (ls : list lease_addr) (n : nat) (ll : option (nat * lease_addr)) :
  option (nat * lease_addr) :=
  match ls with
  | p :: ls' =>
      pick ls' (S n)
        (if (refcnt p =? 0) &&
            match ll with None => true | Some (_, l) => lingering_since l <? lingering_since p end
         then Some (n, p) else ll)
  | [] => ll
  end.

Lemma lease_scan_run sz ls : forall n i ll,
  sz < 2 ^ 32 -> 0 <= i -> sorted_leases ls -> Forall (fun l => i <= index l < sz) ls ->
  lease_scan ls n i ll =
  Ok ((n + run i ls)%nat, i + Z.of_nat (run i ls), pick (take (run i ls) ls) n ll).
Proof.
  induction ls as [|p ls IH]; intros n i ll Hz Hi Hs Hf; cbn [lease_scan run].
  - cbn. by rewrite Nat.add_0_r, Z.add_0_r.
  - apply Forall_cons in Hf as [Hp Hf]. unfold passert. rewrite (proj2 (Z.leb_le _ _)) by lia. cbn [mbind outcome_bind].
    destruct (Z.eqb_spec (index p) i) as [<-|Hne].
    + rewrite Z.ltb_irrefl. unfold u32. rewrite Z.mod_small by lia.
      apply (sorted_middle [] p ls) in Hs as (_&Hs&_&Hlt).
      rewrite IH; [|lia|lia|done|].
      * cbn [take pick]. f_equal. f_equal. f_equal; lia.
      * apply Forall_and; split; [|by eapply Forall_impl; [exact Hf|cbn; lia]].
        eapply Forall_impl; [exact Hlt|]. cbn. lia.
    + rewrite (proj2 (Z.ltb_lt _ _)) by lia. cbn. by rewrite Nat.add_0_r, Z.add_0_r.
Qed.

(** The run is a prefix with the indices [i], [i+1], ...; what follows lies above. *)
Lemma run_spec ls : forall i,
  sorted_leases ls -> Forall (fun l => i <= index l) ls ->
  exists l1 l2, ls = l1 ++ l2 /\ length l1 = run i ls /\
    (forall j, i <= j < i + Z.of_nat (run i ls) -> exists l, l ∈ l1 /\ index l = j) /\
    Forall (fun l => index l < i + Z.of_nat (run i ls)) l1 /\
    Forall (fun l => i + Z.of_nat (run i ls) < index l) l2.
Proof.
  induction ls as [|p ls IH]; intros i Hs Hf; cbn [run].
  - exists [], []. split; [done|]. split; [done|]. split; [lia|]. split; constructor.
  - apply Forall_cons in Hf as [Hp Hf]. pose proof Hs as Hs'.
    apply (sorted_middle [] p ls) in Hs as (_&Hs&_&Hlt).
    destruct (Z.eqb_spec (index p) i) as [<-|Hne].
    + destruct (IH (index p + 1)) as (l1&l2&->&Hl&Hj&H1&H2); [done|eapply Forall_impl; [exact Hlt|cbn; lia]|].
      exists (p :: l1), l2. split; [done|]. split; [cbn; lia|].
      set (k := run (index p + 1) (l1 ++ l2)) in *. split; [|split].
      * intros j Hjj. destruct (decide (j = index p)) as [->|].
        -- exists p. split; [apply list_elem_of_here|done].
        -- destruct (Hj j) as (l&Hin&<-); [lia|]. exists l. split; [by apply list_elem_of_further|done].
      * constructor; [lia|]. eapply Forall_impl; [exact H1|]. cbn. lia.
      * eapply Forall_impl; [exact H2|]. cbn. lia.
    + exists [], (p :: ls). split; [done|]. split; [done|]. split; [lia|]. split; [constructor|].
      constructor; [lia|]. eapply Forall_impl; [exact Hlt|]. cbn. lia.
Qed.

(** What the scan remembers of the leases [seen]: one that lingers, the latest to do so. *)
Definition remembers (ll : option (nat * lease_addr)) (seen : list lease_addr) : Prop :=
  match ll with
  | None => Forall (fun l => refcnt l <> 0) seen
  | Some (m, l) =>
      refcnt l = 0 /\ seen !! m = Some l /\
      Forall (fun l' => refcnt l' = 0 -> lingering_since l' <= lingering_since l) seen
  end.

Lemma remembers_step ll seen p :
  remembers ll seen ->
  remembers
    (if (refcnt p =? 0) &&
        match ll with None => true | Some (_, l) => lingering_since l <? lingering_since p end
     then Some (length seen, p) else ll) (seen ++ [p]).
Proof.
  intros H. destruct (Z.eqb_spec (refcnt p) 0) as [Hr|Hr]; cbn [andb].
  - destruct ll as [[m l]|]; [destruct (Z.ltb_spec (lingering_since l) (lingering_since p))|].
    + destruct H as (_&_&Hf). split; [done|]. split; [by rewrite list_lookup_middle|].
      apply Forall_app; split; [|constructor; [lia|constructor]].
      eapply Forall_impl; [exact Hf|]. cbn. lia.
    + destruct H as (Hz&Hm&Hf). split; [done|]. split; [by apply lookup_app_l_Some|].
      apply Forall_app; split; [done|]. by constructor; [|constructor].
    + split; [done|]. split; [by rewrite list_lookup_middle|].
      apply Forall_app; split; [|constructor; [lia|constructor]].
      eapply Forall_impl; [exact H|]. cbn. done.
  - destruct ll as [[m l]|].
    + destruct H as (H0&Hm&Hf). split; [done|]. split; [by apply lookup_app_l_Some|].
      apply Forall_app; split; [done|]. by constructor; [|constructor].
    + apply Forall_app; split; [done|]. by constructor; [|constructor].
Qed.

Lemma pick_spec ls : forall seen ll,
  remembers ll seen -> remembers (pick ls (length seen) ll) (seen ++ ls).
Proof.
  induction ls as [|p ls IH]; intros seen ll H; cbn [pick]; [by rewrite app_nil_r|].
  replace (seen ++ p :: ls) with ((seen ++ [p]) ++ ls) by by rewrite <- app_assoc.
  replace (S (length seen)) with (length (seen ++ [p])) by (rewrite length_app; cbn; lia).
  apply IH. by apply remembers_step.
Qed.

(** * Every operation on a pool, against the abstract one *)

(** Every index of the pool is leased; with [busy], to somebody. *)
Definition full (sz : Z) (m : apool) : Prop := forall j, 0 <= j < sz -> is_Some (m !! j).
Definition busy (sz : Z) (m : apool) : Prop :=
  forall j, 0 <= j < sz -> exists w n, m !! j = Some (w, n) /\ 0 < n.

(** What [lease_an_address] may do without sharing: take the first free index, or, when
    there is none, one whose lease lingers. *)
Inductive fresh_lease (sz : Z) (m : apool) (i : Z) : Prop :=
  | fresh_new : 0 <= i < sz -> m !! i = None -> (forall j, 0 <= j < i -> is_Some (m !! j)) ->
      fresh_lease sz m i
  | fresh_takeover w : 0 <= i < sz -> full sz m -> m !! i = Some (w, 0) -> fresh_lease sz m i.

Section Refinement.
Context (myid : id) (uniqueIDs : bool).
Context (id_ok : id -> Prop).

Lemma range_size p : wf_pool id_ok p -> 0 < size p < 2 ^ 32.
Proof.
  intros H. rewrite (wf_size _ _ H). destruct (wf_r _ _ H) as ((_&Ls&Bs)&(_&Le&Be)&Hlt).
  pose proof (be_decode_bound _ Bs) as Es. pose proof (be_decode_bound _ Be) as Ee.
  unfold v4_value in *. rewrite Ls in Es. rewrite Le in Ee.
  change (2 ^ (8 * Z.of_nat 4)) with (2 ^ 32) in *. lia.
Qed.

Lemma linger_count_bound ls : 0 <= linger_count ls <= Z.of_nat (length ls).
Proof.
  unfold linger_count. pose proof (length_filter (fun l => refcnt l = 0) ls). lia.
Qed.

(** Distinct indices below [sz]: no more than [sz] of them. *)
Lemma sorted_length sz ls : forall i,
  sorted_leases ls -> Forall (fun l => i <= index l < sz) ls -> i <= sz ->
  Z.of_nat (length ls) <= sz - i.
Proof.
  induction ls as [|p ls IH]; intros i Hs Hf Hi; cbn [length]; [lia|].
  apply Forall_cons in Hf as [Hp Hf].
  apply (sorted_middle [] p ls) in Hs as (_&Hs&_&Hlt).
  specialize (IH (index p + 1) Hs). rewrite Nat2Z.inj_succ.
  cut (Z.of_nat (length ls) <= sz - (index p + 1)); [lia|]. apply IH; [|lia].
  apply Forall_and; split; [eapply Forall_impl; [exact Hlt|cbn; lia]|].
  eapply Forall_impl; [exact Hf|cbn; lia].
Qed.

Lemma lease_bounds p : wf_pool id_ok p -> Forall (fun l => 0 <= index l < size p) (leases p).
Proof. intros H. eapply Forall_impl; [apply (wf_leases _ _ H)|]. unfold wf_lease. tauto. Qed.

Lemma leases_length p : wf_pool id_ok p -> Z.of_nat (length (leases p)) <= size p.
Proof.
  intros H. pose proof (range_size p H).
  pose proof (sorted_length (size p) (leases p) 0 (wf_sorted _ _ H) (lease_bounds p H)). lia.
Qed.

(** Replacing one lease by another of the same index keeps the pool well formed. *)
Lemma wf_update p l1 l l' l2 p' :
  wf_pool id_ok p -> leases p = l1 ++ l :: l2 -> index l' = index l -> 0 <= refcnt l' < 2 ^ 32 ->
  id_ok (thatid l') -> r p' = r p -> size p' = size p -> leases p' = l1 ++ l' :: l2 ->
  lingering p' = lingering p - (if refcnt l =? 0 then 1 else 0) + (if refcnt l' =? 0 then 1 else 0) ->
  wf_pool id_ok p' /\ abs_pool p' = <[index l := (thatid l', refcnt l')]> (abs_pool p).
Proof.
  intros [H1 H2 H3 H4 H5] Hl Hi Hr Hid Er Es El Elg. rewrite Hl in *. split.
  - split; rewrite ?Er, ?Es, ?El; [done|done|by eapply sorted_same_index| |].
    + apply Forall_app in H4 as [H4 H4']. apply Forall_cons in H4' as [Hc H4'].
      apply Forall_app; split; [done|]. constructor; [|done]. unfold wf_lease in *. rewrite Hi. tauto.
    + rewrite Elg, H5, !linger_count_middle. lia.
  - unfold abs_pool. rewrite El, Hl. by apply abs_update.
Qed.

Lemma wf_insert p i who l1 l2 p' :
  wf_pool id_ok p -> leases p = l1 ++ l2 -> 0 <= i < size p -> id_ok who ->
  Forall (fun l => index l < i) l1 -> Forall (fun l => i < index l) l2 ->
  r p' = r p -> size p' = size p -> lingering p' = lingering p ->
  leases p' = l1 ++ mk_lease i who 1 0 :: l2 ->
  wf_pool id_ok p' /\ abs_pool p' = <[i := (who, 1)]> (abs_pool p).
Proof.
  intros [H1 H2 H3 H4 H5] Hl Hi Hid Hf1 Hf2 Er Es Elg El. rewrite Hl in *.
  assert (sorted_leases (l1 ++ mk_lease i who 1 0 :: l2)) as Hs.
  { apply sorted_middle. split; [|split]; [| |split; [exact Hf1|exact Hf2]].
    - unfold sorted_leases in *. rewrite fmap_app, StronglySorted_app in H3. tauto.
    - unfold sorted_leases in *. rewrite fmap_app, StronglySorted_app in H3. tauto. }
  split.
  - split; rewrite ?Er, ?Es, ?El, ?Elg; [done|done|done| |].
    + apply Forall_app in H4 as [H4 H4']. apply Forall_app; split; [done|]. constructor; [|done].
      unfold wf_lease; cbn. split; [lia|]. split; [lia|done].
    + rewrite H5, linger_count_middle. cbn. lia.
  - unfold abs_pool. rewrite El, Hl. by apply abs_middle.
Qed.

Lemma wf_remove p l1 l l2 p' :
  wf_pool id_ok p -> leases p = l1 ++ l :: l2 -> refcnt l <> 0 ->
  r p' = r p -> size p' = size p -> lingering p' = lingering p -> leases p' = l1 ++ l2 ->
  wf_pool id_ok p' /\ abs_pool p' = delete (index l) (abs_pool p).
Proof.
  intros [H1 H2 H3 H4 H5] Hl Hr Er Es Elg El. rewrite Hl in *. split.
  - split; rewrite ?Er, ?Es, ?El, ?Elg; [done|done|by eapply sorted_remove| |].
    + apply Forall_app in H4 as [H4 H4']. apply Forall_cons in H4' as [_ H4']. by apply Forall_app.
    + rewrite H5, linger_count_middle. destruct (Z.eqb_spec (refcnt l) 0); [done|lia].
  - unfold abs_pool. rewrite El, Hl. by apply abs_remove.
Qed.

Lemma abs_some p l1 l2 j :
  wf_pool id_ok p -> leases p = l1 ++ l2 -> (exists l, l ∈ l1 /\ index l = j) ->
  is_Some (abs_pool p !! j).
Proof.
  intros H Hl (l & Hin & <-). exists (thatid l, refcnt l).
  apply abs_lookup; [apply H|]. exists l. rewrite Hl. split; [|done]. apply elem_of_app; auto.
Qed.

Lemma abs_none p l1 l2 i :
  wf_pool id_ok p -> leases p = l1 ++ l2 ->
  Forall (fun l => index l < i) l1 -> Forall (fun l => i < index l) l2 -> abs_pool p !! i = None.
Proof.
  intros H Hl H1 H2. destruct (abs_pool p !! i) as [x|] eqn:E; [|done].
  apply abs_lookup in E as (l & Hin & Hi & _); [|apply H]. rewrite Hl in Hin.
  rewrite Forall_forall in H1, H2. apply elem_of_app in Hin as [Hin|Hin];
    [apply H1 in Hin|apply H2 in Hin]; lia.
Qed.

(** A pool all of whose leases are in use is busy. *)
Lemma abs_busy p :
  wf_pool id_ok p -> full (size p) (abs_pool p) -> Forall (fun l => refcnt l <> 0) (leases p) ->
  busy (size p) (abs_pool p).
Proof.
  intros H Hf Hr j Hj. destruct (Hf j Hj) as [[w n] E]. exists w, n. split; [done|].
  apply abs_lookup in E as (l & Hin & _ & [= -> ->]); [|apply H].
  rewrite Forall_forall in Hr. pose proof (wf_leases _ _ H) as Hw. rewrite Forall_forall in Hw.
  specialize (Hr l Hin). destruct (Hw l Hin) as (_&?&_). lia.
Qed.

Lemma used_bound p : wf_pool id_ok p -> accounted p -> u32 (used p) = used p.
Proof.
  intros H Ha. pose proof (range_size p H). pose proof (leases_length p H).
  unfold u32. rewrite Ha. rewrite Z.mod_small; lia.
Qed.

(** Allocation at the first gap. *)
Lemma new_at_gap p c l1 l2 :
  wf_pool id_ok p -> id_ok (that_id c) -> leases p = l1 ++ l2 ->
  let i := Z.of_nat (length l1) in
  i < size p -> (forall j, 0 <= j < i -> exists l, l ∈ l1 /\ index l = j) ->
  Forall (fun l => index l < i) l1 -> Forall (fun l => i < index l) l2 ->
  let p' := set_leases (set_used p (used p + 1)) (l1 ++ mk_lease i (that_id c) 1 0 :: l2) in
  wf_pool id_ok p' /\ r p' = r p /\ fresh_lease (size p) (abs_pool p) i /\
  abs_pool p' = <[i := (that_id c, 1)]> (abs_pool p) /\ (accounted p -> accounted p').
Proof.
  intros H Hid Hl i Hlt Hj Hf1 Hf2 p'.
  destruct (wf_insert p i (that_id c) l1 l2 p') as [Hwf Habs]; try done; [lia|].
  split; [done|]. split; [done|]. split; [|split; [done|]].
  - apply fresh_new; [lia|by eapply abs_none|]. intros j ?. eapply abs_some; eauto.
  - intros Ha. pose proof (leases_length p' Hwf) as Hlen. pose proof (range_size p' Hwf).
    unfold accounted in *. cbn in *. rewrite Ha, Hl, !length_app in *. cbn [length] in *.
    unfold u32. rewrite Z.mod_small; lia.
Qed.

(** Taking over a lingering lease of a full pool. *)
Lemma new_takeover p c m l :
  wf_pool id_ok p -> id_ok (that_id c) -> full (size p) (abs_pool p) ->
  refcnt l = 0 -> leases p !! m = Some l ->
  let l' := mk_lease (index l) (that_id c) (u32 (refcnt l + 1)) (lingering_since l) in
  let p' := set_leases (set_lingering p (lingering p - 1)) (<[m := l']> (leases p)) in
  wf_pool id_ok p' /\ r p' = r p /\ fresh_lease (size p) (abs_pool p) (index l) /\
  abs_pool p' = <[index l := (that_id c, 1)]> (abs_pool p) /\ (accounted p -> accounted p').
Proof.
  intros H Hid Hfull Hr Hm l' p'. pose proof (take_drop_middle _ _ _ Hm) as Hl. symmetry in Hl.
  set (l1 := take m (leases p)) in *. set (l2 := drop (S m) (leases p)) in *.
  assert (length l1 = m) as Hlen by (unfold l1; rewrite length_take; apply lookup_lt_Some in Hm; lia).
  assert (leases p' = l1 ++ l' :: l2) as El by (cbn; rewrite Hl at 1; by apply insert_middle).
  assert (refcnt l' = 1) as Hr' by (cbn; by rewrite Hr).
  pose proof (wf_lingering _ _ H) as Hlg. rewrite Hl, linger_count_middle, Hr in Hlg.
  pose proof (linger_count_bound (l1 ++ l2)). pose proof (leases_length p H) as Hlp.
  pose proof (range_size p H). rewrite Hl, !length_app in Hlp. rewrite length_app in *.
  cbn [length Z.eqb] in *.
  assert (l ∈ leases p) as Hin by by eapply list_elem_of_lookup_2.
  pose proof (wf_leases _ _ H) as Hw. rewrite Forall_forall in Hw. destruct (Hw l Hin) as (Hi&_&_).
  destruct (wf_update p l1 l l' l2 p') as [Hwf Habs]; try done; [lia| |].
  { rewrite Hr, Hr'. cbn. unfold u32. rewrite Z.mod_small; lia. }
  rewrite Hr' in Habs. split; [done|]. split; [done|]. split; [|split; [done|]].
  - apply (fresh_takeover _ _ _ (thatid l)); [done|done|]. apply abs_lookup; [apply H|].
    exists l. by rewrite Hr.
  - unfold accounted. cbn. by rewrite length_insert.
Qed.

Lemma new_lease_spec p c :
  wf_pool id_ok p -> id_ok (that_id c) ->
  match new_lease p c with
  | Ok (i, p') =>
      wf_pool id_ok p' /\ r p' = r p /\ fresh_lease (size p) (abs_pool p) i /\
      abs_pool p' = <[i := (that_id c, 1)]> (abs_pool p) /\ (accounted p -> accounted p')
  | Ugh e => e = "no free address in addresspool" /\ busy (size p) (abs_pool p)
  | Abort => busy (size p) (abs_pool p) /\ ~ accounted p
  end.
Proof.
  intros H Hid. pose proof (range_size p H) as Hsz. unfold new_lease.
  rewrite (lease_scan_run (size p)) by (apply H || apply lease_bounds || lia; done).
  cbn [mbind outcome_bind]. rewrite Z.add_0_l, Nat.add_0_l.
  destruct (run_spec (leases p) 0 (wf_sorted _ _ H)) as (l1&l2&Hl&Hlen&Hj&Hf1&Hf2).
  { eapply Forall_impl; [apply lease_bounds, H|cbn; lia]. }
  rewrite Z.add_0_l in *. rewrite <- Hlen in *.
  destruct (Z.ltb_spec (Z.of_nat (length l1)) (size p)) as [Hlt|Hge].
  { rewrite Hl, take_app_length, drop_app_length. by apply new_at_gap. }
  assert (full (size p) (abs_pool p)) as Hfull.
  { intros j ?. eapply abs_some; [done|exact Hl|]. apply Hj. lia. }
  pose proof (leases_length p H) as Hlp. rewrite Hl, length_app in Hlp.
  assert (l2 = []) as -> by (destruct l2; [done|cbn in Hlp; lia]). rewrite app_nil_r in *.
  assert (take (length l1) (leases p) = leases p) as -> by (rewrite Hl; apply firstn_all).
  pose proof (pick_spec (leases p) [] None (Forall_nil_2 _)) as Hp. cbn [length app] in Hp.
  destruct (pick (leases p) 0 None) as [[m l]|].
  - destruct Hp as (Hr&Hm&_). by apply new_takeover.
  - unfold passert. pose proof (abs_busy p H Hfull Hp).
    destruct (Z.eqb_spec (size p) (used p)); cbn [mbind outcome_bind]; [done|].
    split; [done|]. unfold accounted. rewrite Hl. lia.
Qed.

(** * Sharing and releasing *)

(** [same_id] answers on the identities the pool meets. *)
Context (Hsame : forall a b, id_ok a -> id_ok b -> exists x, same_id myid a b = Ok x).

(** Nobody in the pool has this identity. *)
Definition stranger (m : apool) (who : id) : Prop :=
  forall j w n, m !! j = Some (w, n) -> same_id myid w who = Ok false.

(** The same below an index. *)
Definition stranger_below (i : Z) (m : apool) (who : id) : Prop :=
  forall j w n, j < i -> m !! j = Some (w, n) -> same_id myid w who = Ok false.

Lemma share_scan_spec sz ls who : forall n,
  Forall (wf_lease id_ok sz) ls -> id_ok who ->
  (exists l1 l l2, ls = l1 ++ l :: l2 /\
    share_scan myid ls who n = Ok (Some ((n + length l1)%nat, l)) /\
    same_id myid (thatid l) who = Ok true /\
    Forall (fun l => same_id myid (thatid l) who = Ok false) l1) \/
  (share_scan myid ls who n = Ok None /\
   Forall (fun l => same_id myid (thatid l) who = Ok false) ls).
Proof.
  induction ls as [|l ls IH]; intros n Hw Hid; cbn [share_scan]; [by right|].
  apply Forall_cons in Hw as [(_&_&Hl) Hw]. destruct (Hsame _ _ Hl Hid) as [[] Hb]; rewrite Hb;
    cbn [mbind outcome_bind].
  - left. exists [], l, ls. cbn. by rewrite Nat.add_0_r.
  - destruct (IH (S n) Hw Hid) as [(l1&x&l2&->&->&Hx&Hfx)|[-> Hf]].
    + left. exists (l :: l1), x, l2. split; [done|]. split; [cbn; do 3 f_equal; lia|]. split; [done|by constructor].
    + right. split; [done|]. by constructor.
Qed.

Lemma stranger_before p l1 l l2 who :
  wf_pool id_ok p -> leases p = l1 ++ l :: l2 ->
  Forall (fun l => same_id myid (thatid l) who = Ok false) l1 -> stranger_below (index l) (abs_pool p) who.
Proof.
  intros H Hl Hf j w n Hj Hw. apply abs_lookup in Hw as (x&Hx&<-&[= -> ->]); [|apply H].
  pose proof (wf_sorted _ _ H) as Hs. rewrite Hl in Hs, Hx. apply sorted_middle in Hs as (_&_&_&Hs2).
  rewrite Forall_forall in Hf, Hs2. apply elem_of_app in Hx as [Hx|[->|Hx]%elem_of_cons]; [auto|lia|].
  specialize (Hs2 x Hx). lia.
Qed.

Lemma share_lease_spec p c :
  wf_pool id_ok p -> id_ok (that_id c) ->
  (forall l, l ∈ leases p -> refcnt l + 1 < 2 ^ 32) ->
  (exists i w n p', share_lease myid uniqueIDs p c = Ok (Some i, p') /\
    could_share_lease uniqueIDs c = true /\
    abs_pool p !! i = Some (w, n) /\ same_id myid w (that_id c) = Ok true /\
    stranger_below i (abs_pool p) (that_id c) /\
    wf_pool id_ok p' /\ r p' = r p /\ abs_pool p' = <[i := (w, n + 1)]> (abs_pool p) /\
    (n <> 0 -> accounted p -> accounted p')) \/
  (share_lease myid uniqueIDs p c = Ok (None, p) /\
   (could_share_lease uniqueIDs c = true -> stranger (abs_pool p) (that_id c))).
Proof.
  intros H Hid Hov. unfold share_lease. destruct (could_share_lease uniqueIDs c); cbn [negb]; [|by right].
  destruct (share_scan_spec (size p) (leases p) (that_id c) 0 (wf_leases _ _ H) Hid)
    as [(l1&l&l2&Hl&->&Hx&Hf)|[-> Hf]]; cbn [mbind outcome_bind].
  - left. rewrite Nat.add_0_l. set (l' := set_refcnt l (refcnt l + 1)).
    set (q := if refcnt l =? 0 then set_used _ _ else p).
    assert (leases q = l1 ++ l :: l2) as -> by (unfold q; by destruct (refcnt l =? 0)).
    rewrite insert_middle by done.
    assert (l ∈ leases p) as Hin by (rewrite Hl; apply elem_of_app; right; apply list_elem_of_here).
    pose proof (wf_leases _ _ H) as Hw. rewrite Forall_forall in Hw. destruct (Hw l Hin) as (Hi&Hr&Hil).
    assert (refcnt l' = refcnt l + 1) as Hr'.
    { cbn. specialize (Hov l Hin). unfold u32. rewrite Z.mod_small; lia. }
    pose proof (wf_lingering _ _ H) as Hlg. pose proof (range_size p H). pose proof (leases_length p H).
    pose proof (linger_count_bound (leases p)) as Hb. rewrite <- Hlg in Hb.
    rewrite Hl, linger_count_middle in Hlg.
    destruct (wf_update p l1 l l' l2 (set_leases q (l1 ++ l' :: l2))) as [Hwf Habs]; try done;
      try (by unfold q; destruct (refcnt l =? 0)).
    { specialize (Hov l Hin). lia. }
    { rewrite Hr'. unfold q. destruct (Z.eqb_spec (refcnt l) 0) as [E|E]; cbn.
      - rewrite E in *. cbn [Z.eqb] in Hlg. rewrite Hlg. change (0 + 1 =? 0) with false. unfold u32.
        pose proof (linger_count_bound (l1 ++ l2)). rewrite Z.mod_small; lia.
      - destruct (Z.eqb_spec (refcnt l + 1) 0); lia. }
    rewrite Hr' in Habs. exists (index l), (thatid l), (refcnt l). eexists. split; [reflexivity|].
    split; [done|]. split; [apply abs_lookup; [apply H|by exists l]|]. split; [done|].
    split; [by apply (stranger_before p l1 l l2)|]. split; [done|]. split; [by unfold q; destruct (refcnt l =? 0)|]. split; [done|].
    intros Hn. unfold q. destruct (Z.eqb_spec (refcnt l) 0); [done|].
    unfold accounted. cbn. by rewrite Hl, !length_app.
  - right. split; [done|]. intros _ j w n Hj. apply abs_lookup in Hj as (l&Hin&_&[= -> ->]); [|apply H].
    rewrite Forall_forall in Hf. auto.
Qed.

(** The address of an index. *)
Definition index_addr (p : ip_pool) (i : Z) : ip_address :=
  mk_ip AF_INET 0 (be_encode 4 (v4_value (r_start (r p)) + i)).

Lemma index_addr_value p i :
  wf_pool id_ok p -> 0 <= i < size p ->
  v4_addr (index_addr p i) /\ v4_value (index_addr p i) = v4_value (r_start (r p)) + i /\
  u32 (v4_value (r_start (r p)) + i) = v4_value (r_start (r p)) + i.
Proof.
  intros H Hi. destruct (wf_r _ _ H) as (_&(_&Le&Be)&Hlt). rewrite (wf_size _ _ H) in Hi.
  pose proof (be_decode_bound _ Be) as Ee. rewrite Le in Ee.
  change (2 ^ (8 * Z.of_nat 4)) with (2 ^ 32) in *. unfold v4_value in * |-.
  split; [split; [done|]; split; [apply length_be_encode|apply be_encode_bytes]|].
  unfold index_addr, v4_value at 1, u32. cbn [sin_addr]. rewrite be_decode_encode.
  change (2 ^ (8 * Z.of_nat 4)) with (2 ^ 32). unfold v4_value. rewrite Z.mod_small by lia. done.
Qed.

Lemma abs_index p i w n : wf_pool id_ok p -> abs_pool p !! i = Some (w, n) -> 0 <= i < size p /\ id_ok w.
Proof.
  intros H Hi. apply abs_lookup in Hi as (l&Hin&<-&[= -> ->]); [|apply H].
  pose proof (wf_leases _ _ H) as Hw. rewrite Forall_forall in Hw. destruct (Hw l Hin) as (?&_&?). done.
Qed.

Lemma abs_nonneg p i w n : wf_pool id_ok p -> abs_pool p !! i = Some (w, n) -> 0 <= n.
Proof.
  intros H Hi. apply abs_lookup in Hi as (l&Hl&_&[= -> ->]); [|apply H].
  pose proof (wf_leases _ _ H) as Hf. rewrite Forall_forall in Hf. by destruct (Hf l Hl) as (_&[? _]&_).
Qed.

(** No count is about to wrap around. *)
Lemma abs_room p :
  wf_pool id_ok p -> (forall i w n, abs_pool p !! i = Some (w, n) -> n + 1 < 2 ^ 32) ->
  forall l, l ∈ leases p -> refcnt l + 1 < 2 ^ 32.
Proof.
  intros H Hb l Hl. apply (Hb (index l) (thatid l)). apply abs_lookup; [apply H|by exists l].
Qed.

(** The last step of [lease_an_address]: the index becomes an address. *)
Lemma lease_address p i :
  wf_pool id_ok p -> 0 <= i < size p ->
  (ipa ← initaddr (be_encode 4 (u32 (v4_value (r_start (r p)) + i))) AF_INET; Ok (ipa, p)) =
  Ok (E := string) (index_addr p i, p).
Proof.
  intros H Hi. destruct (index_addr_value p i H Hi) as (_&_&->).
  unfold initaddr. rewrite length_be_encode. done.
Qed.

(** What a lease does to the abstract pool: it is shared with the first lease of the same
    identity, or it is a fresh one and no lease of that identity could be shared. *)
Inductive leased (share : bool) (sz : Z) (who : id) (m : apool) (i : Z) : apool -> Prop :=
  | leased_shared w n :
      share = true -> m !! i = Some (w, n) -> same_id myid w who = Ok true -> stranger_below i m who ->
      leased share sz who m i (<[i := (w, n + 1)]> m)
  | leased_fresh :
      (share = true -> stranger m who) -> fresh_lease sz m i ->
      leased share sz who m i (<[i := (who, 1)]> m).

Lemma lease_an_address_spec p c :
  wf_pool id_ok p -> id_ok (that_id c) -> (forall l, l ∈ leases p -> refcnt l + 1 < 2 ^ 32) ->
  match lease_an_address myid uniqueIDs p c with
  | Ok (ipa, p') =>
      wf_pool id_ok p' /\ r p' = r p /\
      exists i, 0 <= i < size p /\ ipa = index_addr p i /\
        leased (could_share_lease uniqueIDs c) (size p) (that_id c) (abs_pool p) i (abs_pool p') /\
        (accounted p -> (forall w, abs_pool p !! i = Some (w, 0) -> full (size p) (abs_pool p) /\
           (could_share_lease uniqueIDs c = true -> stranger (abs_pool p) (that_id c))) -> accounted p')
  | Ugh e => e = "no free address in addresspool" /\ busy (size p) (abs_pool p) /\
      (could_share_lease uniqueIDs c = true -> stranger (abs_pool p) (that_id c))
  | Abort => busy (size p) (abs_pool p) /\ ~ accounted p /\
      (could_share_lease uniqueIDs c = true -> stranger (abs_pool p) (that_id c))
  end.
Proof.
  intros H Hid Hov. unfold lease_an_address.
  destruct (share_lease_spec p c H Hid Hov) as [(i&w&n&p'&->&Hc&Hi&Hw&Hsb&Hwf&Hr&Habs&Hacc)|[-> Hs]];
    cbn [mbind outcome_bind].
  - destruct (abs_index p i w n H Hi) as [Hb _]. assert (size p' = size p) as Hz
      by (by rewrite (wf_size _ _ Hwf), (wf_size _ _ H), Hr).
    pose proof (lease_address p' i Hwf ltac:(by rewrite Hz)) as E. cbn [mbind] in E. rewrite E.
    split; [done|]. split; [done|]. exists i. split; [done|].
    split; [unfold index_addr; by rewrite Hr|]. split.
    + rewrite Habs. by apply leased_shared.
    + intros Ha Hf. apply Hacc; [|done]. intros ->. destruct (Hf w Hi) as [_ Hst].
      specialize (Hst Hc i w 0 Hi). congruence.
  - pose proof (new_lease_spec p c H Hid) as Hn. destruct (new_lease p c) as [[i p']|e|];
      cbn [mbind outcome_bind]; [|by destruct Hn|by destruct Hn].
    destruct Hn as (Hwf&Hr&Hf&Habs&Hacc). assert (size p' = size p) as Hz
      by (by rewrite (wf_size _ _ Hwf), (wf_size _ _ H), Hr).
    assert (0 <= i < size p) as Hb by by destruct Hf.
    pose proof (lease_address p' i Hwf ltac:(by rewrite Hz)) as E. cbn [mbind] in E. rewrite E.
    split; [done|]. split; [done|]. exists i. split; [done|].
    split; [unfold index_addr; by rewrite Hr|]. split; [|auto].
    rewrite Habs. by apply leased_fresh.
Qed.

(** [ref_to_lease] finds the lease of an index. *)
Lemma ref_to_lease_abs p i w n :
  wf_pool id_ok p -> abs_pool p !! i = Some (w, n) ->
  exists l1 l l2, leases p = l1 ++ l :: l2 /\ ref_to_lease (leases p) i = Some (length l1) /\
    index l = i /\ thatid l = w /\ refcnt l = n /\ 0 <= refcnt l < 2 ^ 32 /\ id_ok (thatid l).
Proof.
  intros H Hi. pose proof Hi as Hi'. apply abs_lookup in Hi as (l&Hin&Hl&[= -> ->]); [|apply H].
  pose proof (ref_to_lease_spec (leases p) i) as Hr.
  destruct (ref_to_lease (leases p) i) as [k|]; [|rewrite Forall_forall in Hr; by apply Hr in Hin].
  destruct Hr as (l1&x&l2&El&->&Hx). exists l1, x, l2.
  assert (x ∈ leases p) as Hinx by (rewrite El; apply elem_of_app; right; apply list_elem_of_here).
  assert (abs_pool p !! i = Some (thatid x, refcnt x)) as Hx'
    by (apply abs_lookup; [apply H|by exists x]).
  rewrite Hi' in Hx'. injection Hx' as -> ->.
  pose proof (wf_leases _ _ H) as Hw. rewrite Forall_forall in Hw. by destruct (Hw x Hinx) as (_&?&?).
Qed.

(** The pool after the release of the lease [l]. *)
Definition released (share : bool) (now : Z) (p : ip_pool) (l1 : list lease_addr) (l : lease_addr)
  (l2 : list lease_addr) : ip_pool :=
  if share then
    if refcnt l =? 1 then
      set_leases (set_lingering p (lingering p + 1)) (l1 ++ mk_lease (index l) (thatid l) 0 now :: l2)
    else set_leases p (l1 ++ set_refcnt l (refcnt l - 1) :: l2)
  else set_used (set_leases p (l1 ++ l2)) (used p - 1).

Lemma rel_lease_at now p c i l1 l l2 :
  has_lease c = true -> sin_family (client_addr c) = AF_INET ->
  u32 (v4_value (client_addr c) - v4_value (r_start (r p))) = i -> i < size p ->
  leases p = l1 ++ l :: l2 -> ref_to_lease (leases p) i = Some (length l1) ->
  0 < refcnt l < 2 ^ 32 -> (could_share_lease uniqueIDs c = false -> refcnt l = 1) ->
  rel_lease_addr uniqueIDs now p c =
  Ok (released (could_share_lease uniqueIDs c) now p l1 l l2, set_has_lease c false).
Proof.
  intros Hh Hf Hi Hlt El Hr Hn H1. unfold rel_lease_addr, addrtypeof, released. rewrite Hh, Hf, Hi.
  cbv zeta. rewrite Z.eqb_refl, (proj2 (Z.ltb_lt i (size p))), Hr by done.
  cbn [negb mbind outcome_bind passert defined].
  rewrite (eq_trans (f_equal (.!! length l1) El) (list_lookup_middle l1 l2 l _ eq_refl)).
  cbn [mbind outcome_bind defined].
  assert (u32 (refcnt l - 1) = refcnt l - 1) as Hu by (apply u32_small; lia).
  destruct (could_share_lease uniqueIDs c).
  - rewrite (proj2 (Z.ltb_lt 0 (refcnt l))) by lia.
    cbn [passert mbind outcome_bind refcnt set_refcnt index thatid]. rewrite Hu, El, !insert_middle by done.
    destruct (Z.eqb_spec (refcnt l) 1) as [->|]; [done|].
    destruct (Z.eqb_spec (refcnt l - 1) 0); [lia|]. done.
  - rewrite H1 by done. cbn [Z.eqb passert mbind outcome_bind]. unfold free_lease_entry.
    rewrite El, take_app_length, drop_app_ge by lia.
    replace (S (length l1) - length l1)%nat with 1%nat by lia. done.
Qed.

Lemma released_spec share now p l1 l l2 :
  wf_pool id_ok p -> leases p = l1 ++ l :: l2 -> 0 < refcnt l < 2 ^ 32 -> id_ok (thatid l) ->
  let p' := released share now p l1 l l2 in
  wf_pool id_ok p' /\ r p' = r p /\ (accounted p -> accounted p') /\
  abs_pool p' = if share then <[index l := (thatid l, refcnt l - 1)]> (abs_pool p)
                else delete (index l) (abs_pool p).
Proof.
  intros H El Hn Hid. cbv zeta. pose proof (wf_lingering _ _ H) as Hlg.
  pose proof (leases_length p H) as Hlen. pose proof (range_size p H).
  rewrite El, linger_count_middle in Hlg. pose proof (linger_count_bound (l1 ++ l2)) as Hb.
  rewrite El, !length_app in *. cbn [length] in *.
  unfold released. destruct share; [destruct (Z.eqb_spec (refcnt l) 1) as [E|E]|].
  - edestruct (wf_update p l1 l (mk_lease (index l) (thatid l) 0 now) l2) as [Hwf Habs];
      [exact H|exact El|done|done|done|..|split; [exact Hwf|split; [done|split]]]; try done.
    + cbn. rewrite E in *. cbn [Z.eqb] in *. rewrite u32_small; lia.
    + unfold accounted. cbn. rewrite El, !length_app. done.
    + rewrite Habs. cbn. by rewrite E.
  - assert (u32 (refcnt l - 1) = refcnt l - 1) as Hu by (apply u32_small; lia).
    edestruct (wf_update p l1 l (set_refcnt l (refcnt l - 1)) l2) as [Hwf Habs];
      [exact H|exact El|done|cbn; lia|done|..|split; [exact Hwf|split; [done|split]]]; try done.
    + cbn. rewrite Hu. destruct (Z.eqb_spec (refcnt l) 0), (Z.eqb_spec (refcnt l - 1) 0); lia.
    + unfold accounted. cbn. rewrite El, !length_app. done.
    + rewrite Habs. cbn. by rewrite Hu.
  - edestruct (wf_remove p l1 l l2) as [Hwf Habs];
      [exact H|exact El|lia|..|split; [exact Hwf|split; [done|split; [|exact Habs]]]]; try done.
    unfold accounted. cbn. intros ->. rewrite El, !length_app. cbn [length]. rewrite u32_small; lia.
Qed.

Lemma rel_lease_addr_spec now p c i w n :
  wf_pool id_ok p -> has_lease c = true -> v4_addr (client_addr c) ->
  v4_value (client_addr c) = v4_value (r_start (r p)) + i ->
  abs_pool p !! i = Some (w, n) -> 0 < n -> (could_share_lease uniqueIDs c = false -> n = 1) ->
  exists p', rel_lease_addr uniqueIDs now p c = Ok (p', set_has_lease c false) /\
    wf_pool id_ok p' /\ r p' = r p /\ (accounted p -> accounted p') /\
    abs_pool p' = if could_share_lease uniqueIDs c then <[i := (w, n - 1)]> (abs_pool p)
                  else delete i (abs_pool p).
Proof.
  intros H Hh (Hf&_&_) Hv Hi Hn H1.
  destruct (abs_index p i w n H Hi) as [Hb _]. pose proof (range_size p H) as Hsz.
  destruct (ref_to_lease_abs p i w n H Hi) as (l1&l&l2&El&Hr&<-&<-&<-&Hlr&Hlo).
  eexists. split.
  - apply (rel_lease_at now p c (index l) l1 l l2); auto; [rewrite Hv, u32_small; lia|lia..].
  - apply released_spec; [done|done|lia|done].
Qed.

End Refinement.
