(* ===== verification/PoolSystem.v ===== *)
(** The daemon as its address pools see it: connections are added, instantiated, ask for
    addresses (IKEv2 configuration payload, IKEv1 mode config) and are deleted, in any
    order.  [handle] runs one such event with the routines of [AddressPool]; the invariant
    [daemon_ok] ties the reference counts of pools and leases to the connections, and holds
    in every reachable state. *)
From stdpp Require Import sorting fin_maps.
From S2P Require Import Prelude Numbers Address AddressText Subnet X509dn Id IdMatch AddressPool PoolSpec.

(** * Lists of pools *)

Section Pools.
Implicit Types ps : pools.

Lemma pool_at_elem ps p pool : pool_at ps p = Some pool -> (p, pool) ∈ ps.
Proof.
  induction ps as [|[q x] ps IH]; cbn [pool_at]; [done|]. case_decide.
  - intros [= ->]. subst. left.
  - intros Hp. right. by apply IH.
Qed.

Lemma pool_at_None ps p : pool_at ps p = None <-> p ∉ ps.*1.
Proof.
  induction ps as [|[q x] ps IH]; cbn [pool_at fmap list_fmap fst]; [set_solver|].
  rewrite not_elem_of_cons. case_decide; [naive_solver|]. rewrite IH. naive_solver.
Qed.

Lemma pool_at_set ps p pool q :
  pool_at (pool_set ps p pool) q =
  if decide (q = p) then (if pool_at ps p then Some pool else None) else pool_at ps q.
Proof.
  unfold pool_set. induction ps as [|[h x] ps IH]; cbn [fmap list_fmap pool_at fst].
  { by case_decide. }
  destruct (decide (h = p)) as [->|Hh]; cbn [pool_at].
  - destruct (decide (p = q)) as [->|Hq]; [by rewrite !decide_True by done|].
    rewrite IH. rewrite !decide_False by congruence. done.
  - rewrite IH. destruct (decide (h = q)) as [->|Hq]; [by rewrite decide_False by done|].
    done.
Qed.

Lemma pool_set_absent ps p pool : p ∉ ps.*1 -> pool_set ps p pool = ps.
Proof.
  unfold pool_set. induction ps as [|[h x] ps IH]; [done|]. cbn [fmap list_fmap fst].
  intros [Hh Hp]%not_elem_of_cons. rewrite decide_False by done. f_equal. by apply IH.
Qed.

Lemma pool_set_id ps p pool : NoDup ps.*1 -> pool_at ps p = Some pool -> pool_set ps p pool = ps.
Proof.
  induction ps as [|[h x] ps IH]; [done|]. intros [Hh Hn]%NoDup_cons. cbn [pool_at]. case_decide as He.
  - intros [= ->]. subst h. unfold pool_set. cbn [fmap list_fmap fst]. rewrite decide_True by done.
    f_equal. by apply pool_set_absent.
  - intros Hp. unfold pool_set. cbn [fmap list_fmap fst]. rewrite decide_False by done. f_equal. by apply IH.
Qed.

Lemma pool_set_keys ps p pool : (pool_set ps p pool).*1 = ps.*1.
Proof.
  unfold pool_set. induction ps as [|[h x] ps IH]; cbn; [done|]. f_equal; [by case_decide; subst|exact IH].
Qed.

Lemma free_keys ps p : (free_addresspool ps p).*1 `sublist_of` ps.*1.
Proof.
  induction ps as [|[h x] ps IH]; cbn [free_addresspool fmap list_fmap fst]; [done|].
  case_decide; cbn [fmap list_fmap fst]; by constructor.
Qed.

Lemma pool_at_free ps p q :
  NoDup ps.*1 -> pool_at (free_addresspool ps p) q = if decide (q = p) then None else pool_at ps q.
Proof.
  induction ps as [|[h x] ps IH]; cbn [free_addresspool pool_at fmap list_fmap fst]; [by case_decide|].
  intros [Hh Hn]%NoDup_cons. destruct (decide (h = p)) as [->|Hp]; cbn [pool_at].
  - destruct (decide (q = p)) as [->|Hq]; [by apply pool_at_None|]. by rewrite decide_False by congruence.
  - rewrite IH by done. destruct (decide (h = q)) as [->|Hq]; [by rewrite decide_False by done|done].
Qed.

End Pools.

(** * Ranges *)

Definition same_bounds (a b : ip_range) : Prop :=
  v4_value (r_start a) = v4_value (r_start b) /\ v4_value (r_end a) = v4_value (r_end b).

Definition disjoint_ranges (a b : ip_range) : Prop :=
  v4_value (r_end a) < v4_value (r_start b) \/ v4_value (r_end b) < v4_value (r_start a).

Lemma disjoint_ranges_sym a b : disjoint_ranges a b -> disjoint_ranges b a.
Proof. unfold disjoint_ranges. lia. Qed.

(** [find_addresspool] on IPv4 ranges: the pool with these bounds, nothing when the range is
    apart from every pool, and an error when it overlaps one. *)
Lemma find_addresspool_spec x ps :
  wf_range x -> Forall (fun e => wf_range (r e.2)) ps ->
  match find_addresspool x ps with
  | Ok (Some p) => exists pool, (p, pool) ∈ ps /\ same_bounds x (r pool)
  | Ok None => Forall (fun e => disjoint_ranges x (r e.2)) ps
  | Ugh _ => Exists (fun e => ~ disjoint_ranges x (r e.2) /\ ~ same_bounds x (r e.2)) ps
  | Abort => False
  end.
Proof.
  intros (Hxs&Hxe&Hx). induction 1 as [|[h hp] ps (Hs&He&Hh) Hf IH]; cbn [find_addresspool fst snd].
  { constructor. }
  cbn [snd] in Hs, He, Hh. rewrite !addrcmp_v4 by done.
  fold (v4_value (r_start x)) (v4_value (r_end x)) (v4_value (r_start (r hp))) (v4_value (r_end (r hp))).
  assert (Hno : ~ disjoint_ranges x (r hp) -> ~ same_bounds x (r hp) ->
    Exists (fun e => ~ disjoint_ranges x (r e.2) /\ ~ same_bounds x (r e.2)) ((h, hp) :: ps))
    by (intros; left; done).
  assert (Hyes : disjoint_ranges x (r hp) ->
    match find_addresspool x ps with
    | Ok (Some p) => exists pool, (p, pool) ∈ (h, hp) :: ps /\ same_bounds x (r pool)
    | Ok None => Forall (fun e => disjoint_ranges x (r e.2)) ((h, hp) :: ps)
    | Ugh _ => Exists (fun e => ~ disjoint_ranges x (r e.2) /\ ~ same_bounds x (r e.2)) ((h, hp) :: ps)
    | Abort => False
    end).
  { intros Hd. destruct (find_addresspool x ps) as [[p|]| |]; [|by constructor|by right|done].
    destruct IH as (pool&?&?). exists pool. split; [by right|done]. }
  unfold disjoint_ranges, same_bounds in *.
  destruct (Z.compare_spec (v4_value (r_start x)) (v4_value (r_start (r hp)))) as [E1|E1|E1],
    (Z.compare_spec (v4_value (r_end x)) (v4_value (r_end (r hp)))) as [E2|E2|E2],
    (Z.compare_spec (v4_value (r_end x)) (v4_value (r_start (r hp)))) as [E3|E3|E3],
    (Z.compare_spec (v4_value (r_start x)) (v4_value (r_end (r hp)))) as [E4|E4|E4];
    cbn -[find_addresspool]; try lia; try (apply Hno; lia); try (apply Hyes; lia).
  all: exists hp; split; [left|done].
Qed.

(** * Counting connections *)

Definition count (P : connection -> bool) (m : gmap nat connection) : Z :=
  Z.of_nat (base.size (filter (fun kc => P kc.2 = true) m)).

Definition one (b : bool) : Z := if b then 1 else 0.

Lemma count_new P m k c : m !! k = None -> count P (<[k := c]> m) = count P m + one (P c).
Proof.
  intros Hk. unfold count, one. destruct (P c) eqn:E.
  - rewrite map_filter_insert_True by done. rewrite map_size_insert_None; [lia|].
    apply map_lookup_filter_None. by left.
  - rewrite map_filter_insert_False by (cbn; congruence). rewrite delete_id by done. lia.
Qed.

Lemma count_delete P m k c : m !! k = Some c -> count P (delete k m) = count P m - one (P c).
Proof.
  intros Hk. rewrite <- (insert_delete_id m k c Hk) at 2. rewrite count_new by apply lookup_delete_eq. lia.
Qed.

Lemma count_update P m k c c' :
  m !! k = Some c -> count P (<[k := c']> m) = count P m - one (P c) + one (P c').
Proof.
  intros Hk. rewrite <- insert_delete_eq, count_new by apply lookup_delete_eq.
  by rewrite (count_delete _ _ _ _ Hk).
Qed.

Lemma count_pos P m k c : m !! k = Some c -> P c = true -> 0 < count P m.
Proof.
  intros Hk Hp. pose proof (count_delete P m k c Hk). rewrite Hp in *. unfold one, count in *. lia.
Qed.

(** A single one that satisfies [P] is the only one. *)
Lemma count_unique P m k k' c c' :
  m !! k = Some c -> m !! k' = Some c' -> P c = true -> P c' = true -> count P m <= 1 -> k = k'.
Proof.
  intros Hk Hk' Hp Hp' Hc. destruct (decide (k = k')) as [|Hn]; [done|].
  pose proof (count_delete P m k c Hk) as Hd. rewrite Hp in Hd.
  assert (0 < count P (delete k m)); [|unfold one in *; lia].
  apply (count_pos P _ k' c'); [|done]. by rewrite lookup_delete_ne.
Qed.

Lemma count_ext P Q m : (forall k c, m !! k = Some c -> P c = Q c) -> count P m = count Q m.
Proof.
  intros He. unfold count. do 2 f_equal. apply map_filter_ext. intros k c Hk. cbn. by rewrite (He k c Hk).
Qed.

Lemma count_nonneg P m : 0 <= count P m.
Proof. unfold count. lia. Qed.

Lemma count_le_size P m : count P m <= Z.of_nat (base.size m).
Proof. unfold count. apply inj_le, map_subseteq_size, map_filter_subseteq. Qed.

Lemma count_zero P m : (forall k c, m !! k = Some c -> P c = false) -> count P m = 0.
Proof.
  intros Hp. unfold count. replace (filter _ m) with (∅ : gmap nat connection); [by rewrite map_size_empty|].
  symmetry. apply map_eq. intros k. rewrite lookup_empty, map_lookup_filter_None.
  right. intros c Hk. cbn. by rewrite (Hp k c Hk).
Qed.

(** * The daemon *)

Record daemon := mk_daemon {
  d_pools : pools;
  conns : gmap nat connection
}.

(** The connections are named by their addresses; [new], [new1], [new2] are what
    [alloc_thing] gives for a pool. *)
Inductive event :=
  | Add (k new1 new2 : nat) (wm_left wm_right : ip_range) (c : connection)
  | Instantiate (t k : nat) (his_id : option id)
  | CfgRequest (k : nat)
  | ModeCfg (k : nat) (as_client : bool) (dns1 dns2 : ip_address)
  | Delete (now : Z) (k : nat).

Section Daemon.
Context `{Nss} (myid : id) (uniqueIDs : bool).

(** One event; [Ugh] is a request that is refused, [Abort] the end of the daemon. *)
Definition handle (d : daemon) (e : event) : outcome string daemon :=
  let ps := d_pools d in
  match e with
  | Add k new1 new2 wm_left wm_right c =>
      '(ps, c) ← add_connection ps new1 new2 wm_left wm_right c;
      Ok (mk_daemon ps (<[k := c]> (conns d)))
  | Instantiate t k his_id =>
      c ← defined (conns d !! t);
      '(ps, c) ← instantiate myid ps c his_id;
      Ok (mk_daemon ps (<[k := c]> (conns d)))
  | CfgRequest k =>
      c ← defined (conns d !! k);
      '(ps, c) ← ikev2_cp_reply_state myid uniqueIDs ps c;
      Ok (mk_daemon ps (<[k := c]> (conns d)))
  | ModeCfg k as_client dns1 dns2 =>
      c ← defined (conns d !! k);
      '(ipaddr, _, _, got_lease, ps) ← get_internal_addresses myid uniqueIDs ps c dns1 dns2;
      Ok (mk_daemon ps (<[k := modecfg_client_addr as_client got_lease ipaddr c]> (conns d)))
  | Delete now k =>
      c ← defined (conns d !! k);
      '(ps, _) ← delete_connection uniqueIDs now ps c;
      Ok (mk_daemon ps (delete k (conns d)))
  end.

(** A peer's identity: of a known kind, and not a wildcard. *)
Definition peer_ok (i : id) : Prop := good_id myid i /\ kind i <> ID_MYID.

(** What the whack message may say of a range: nothing, or an IPv4 range without 0.0.0.0. *)
Definition range_ok (x : ip_range) : Prop := v4_value (r_start x) = 0 \/ wf_range x.

(** A connection that an IKE exchange runs on, once the peer has named itself. *)
Definition active (c : connection) : Prop :=
  (c_kind c = CK_INSTANCE \/ c_kind c = CK_PERMANENT) /\ peer_ok (that_id c).

(** What the rest of the daemon guarantees when it calls into the pools. *)
Definition enabled (d : daemon) (e : event) : Prop :=
  match e with
  | Add k new1 new2 wm_left wm_right c =>
      conns d !! k = None /\ pool_at (d_pools d) new1 = None /\ pool_at (d_pools d) new2 = None /\
      new1 <> new2 /\ range_ok wm_left /\ range_ok wm_right /\
      c_pool c = None /\ has_lease c = false /\ c_kind c ∈ [CK_GROUP; CK_TEMPLATE; CK_PERMANENT]
  | Instantiate t k his_id =>
      conns d !! k = None /\
      exists c, conns d !! t = Some c /\ c_kind c = CK_TEMPLATE /\
        forall h, his_id = Some h ->
          kind (that_id c) = ID_FROMCERT \/ exists w, match_id myid h (that_id c) = Ok (true, w)
  | CfgRequest k => exists c p, conns d !! k = Some c /\ active c /\ c_pool c = Some p
  | ModeCfg k _ _ _ =>
      exists c, conns d !! k = Some c /\ active c /\
        (c_pool c = None -> isanyaddr (client_addr c) = false)
  | Delete _ k => is_Some (conns d !! k)
  end.

Definition no_daemon : daemon := mk_daemon [] ∅.

(** The states after [n] events; one that is refused changes nothing. *)
Inductive reach : Z -> daemon -> Prop :=
  | reach_start : reach 0 no_daemon
  | reach_step n d e d' :
      reach n d -> enabled d e -> handle d e = Ok d' \/ (exists m, handle d e = Ugh m) /\ d' = d ->
      reach (n + 1) d'.

(** * The invariant *)

Definition uses_pool (p : nat) (c : connection) : bool := bool_decide (c_pool c = Some p).

(** [c] holds the lease of index [i] of its pool. *)
Definition holds (p : nat) (pool : ip_pool) (i : Z) (c : connection) : bool :=
  uses_pool p c && has_lease c && bool_decide (client_addr c = index_addr pool i).

Record pool_ok (n : Z) (cs : gmap nat connection) (p : nat) (pool : ip_pool) : Prop := {
  pk_wf : wf_pool peer_ok pool;
  pk_refcount : pool_refcount pool = count (uses_pool p) cs;
  pk_refcnt i w m : abs_pool pool !! i = Some (w, m) -> m <= n;
  pk_null i w m : abs_pool pool !! i = Some (w, m) -> kind w = ID_NULL -> m = 1;
  pk_holders i w m : abs_pool pool !! i = Some (w, m) -> count (holds p pool i) cs <= m
}.

Definition lease_ok (ps : pools) (c : connection) : Prop :=
  active c /\ exists p pool i w m,
    c_pool c = Some p /\ pool_at ps p = Some pool /\ client_addr c = index_addr pool i /\
    abs_pool pool !! i = Some (w, m) /\ same_id myid w (that_id c) = Ok true.

Record conn_ok (ps : pools) (c : connection) : Prop := {
  ck_kind : c_kind c <> CK_GOING_AWAY;
  ck_pool p : c_pool c = Some p -> is_Some (pool_at ps p);
  ck_lease : has_lease c = true -> lease_ok ps c
}.

Record daemon_ok (n : Z) (d : daemon) : Prop := {
  dk_nodup : NoDup (d_pools d).*1;
  dk_size : Z.of_nat (base.size (conns d)) <= n;
  dk_pools p pool : pool_at (d_pools d) p = Some pool -> pool_ok n (conns d) p pool;
  dk_apart p q x y : p <> q -> pool_at (d_pools d) p = Some x -> pool_at (d_pools d) q = Some y ->
    disjoint_ranges (r x) (r y);
  dk_conns k c : conns d !! k = Some c -> conn_ok (d_pools d) c
}.

(** * The invariant under changes of connections and pools *)

Lemma index_addr_r pool pool' i : r pool' = r pool -> index_addr pool' i = index_addr pool i.
Proof. intros Hr. unfold index_addr. by rewrite Hr. Qed.

Lemma holds_r p pool pool' i c : r pool' = r pool -> holds p pool' i c = holds p pool i c.
Proof. intros Hr. unfold holds. by rewrite (index_addr_r pool pool' i Hr). Qed.

Lemma count_holds_r p pool pool' i cs :
  r pool' = r pool -> count (holds p pool' i) cs = count (holds p pool i) cs.
Proof. intros Hr. apply count_ext. intros _ c _. by apply holds_r. Qed.

Lemma holds_uses p pool i c : holds p pool i c = true -> c_pool c = Some p /\ has_lease c = true /\
  client_addr c = index_addr pool i.
Proof.
  unfold holds, uses_pool. intros Hh. apply andb_true_iff in Hh as [[Hp%bool_decide_eq_true Hl]%andb_true_iff
    Hc%bool_decide_eq_true]. done.
Qed.

Lemma holds_not_uses p pool i c : c_pool c <> Some p -> holds p pool i c = false.
Proof. intros Hc. unfold holds, uses_pool. by rewrite bool_decide_eq_false_2. Qed.

(** Distinct indices of a pool are distinct addresses. *)
Lemma index_addr_inj pool i j :
  wf_pool peer_ok pool -> 0 <= i < size pool -> 0 <= j < size pool ->
  index_addr pool i = index_addr pool j -> i = j.
Proof.
  intros Hw Hi Hj He. destruct (index_addr_value peer_ok pool i Hw Hi) as (_&Hvi&_).
  destruct (index_addr_value peer_ok pool j Hw Hj) as (_&Hvj&_). rewrite He in Hvi. lia.
Qed.

(** A pool whose connections change without a new user or holder. *)
Lemma pool_ok_conns n n' cs cs' p pool :
  pool_ok n cs p pool -> n <= n' -> count (uses_pool p) cs' = count (uses_pool p) cs ->
  (forall i, count (holds p pool i) cs' <= count (holds p pool i) cs) -> pool_ok n' cs' p pool.
Proof.
  intros [Hw Hr Hc Hn Hh] Hnn Hu Hi. split; [done|congruence| |done|].
  - intros i w m Hl. pose proof (Hc i w m Hl). lia.
  - intros i w m Hl. pose proof (Hh i w m Hl). pose proof (Hi i). lia.
Qed.

(** The count of a lease can still go up. *)
Lemma refcnt_room n cs p pool :
  pool_ok n cs p pool -> n + 1 < 2 ^ 32 -> forall l, l ∈ leases pool -> refcnt l + 1 < 2 ^ 32.
Proof.
  intros Hpo Hn. apply (abs_room peer_ok); [apply Hpo|]. intros i w m Hi.
  pose proof (pk_refcnt _ _ _ _ Hpo _ _ _ Hi). lia.
Qed.

(** A connection keeps its lease as long as the pool keeps it. *)
Lemma conn_ok_pools ps ps' c :
  conn_ok ps c ->
  (forall p, c_pool c = Some p -> is_Some (pool_at ps p) -> is_Some (pool_at ps' p)) ->
  (forall p pool i w m, has_lease c = true -> c_pool c = Some p -> pool_at ps p = Some pool ->
     client_addr c = index_addr pool i -> abs_pool pool !! i = Some (w, m) ->
     exists pool' m', pool_at ps' p = Some pool' /\ r pool' = r pool /\
       abs_pool pool' !! i = Some (w, m')) ->
  conn_ok ps' c.
Proof.
  intros [Hk Hp Hl] Hps Hle. split; [done|eauto|]. intros Hh.
  destruct (Hl Hh) as (Ha&p&pool&i&w&m&H1&H2&H3&H4&H5). split; [done|].
  destruct (Hle p pool i w m Hh H1 H2 H3 H4) as (pool'&m'&H6&H7&H8).
  exists p, pool', i, w, m'. do 2 (split; [done|]). by rewrite (index_addr_r pool).
Qed.

(** The pools keep their ranges and leases. *)
Definition keeps (ps ps' : pools) : Prop :=
  forall p pool, pool_at ps p = Some pool ->
    exists pool', pool_at ps' p = Some pool' /\ r pool' = r pool /\ abs_pool pool' = abs_pool pool.

Lemma conn_ok_keeps ps ps' c : conn_ok ps c -> keeps ps ps' -> conn_ok ps' c.
Proof.
  intros Hc Hk. apply (conn_ok_pools ps); [done| |].
  - intros p _ [pool Hp]. destruct (Hk p pool Hp) as (pool'&->&_). done.
  - intros p pool i w m _ _ Hp _ Ha. destruct (Hk p pool Hp) as (pool'&H1&H2&H3).
    exists pool', m. by rewrite H3.
Qed.

(** * Leasing *)

Lemma peer_same a b : peer_ok a -> peer_ok b -> exists x, same_id myid a b = Ok x.
Proof. intros [Ha _] [Hb _]. destruct (same_id_decides myid a b Ha Hb) as (x&Hx&_). by exists x. Qed.

Lemma peer_same_refl a : peer_ok a -> same_id myid a a = Ok true.
Proof.
  intros [Ha _]. destruct (same_id_decides myid a a Ha Ha) as (x&->&Hx). f_equal. apply Hx, id_eqv_refl.
Qed.

Lemma peer_same_kind a b : peer_ok a -> peer_ok b -> same_id myid a b = Ok true -> kind a = kind b.
Proof.
  intros [Ha Hka] [Hb Hkb] Hs. destruct (same_id_decides myid a b Ha Hb) as (x&Hx&Hi).
  rewrite Hs in Hx. injection Hx as <-. destruct (proj1 Hi eq_refl) as [Hk _]. unfold resolve_myid in Hk.
  by rewrite (proj2 (Z.eqb_neq _ _) Hka), (proj2 (Z.eqb_neq _ _) Hkb) in Hk.
Qed.

Lemma could_share_kind c : could_share_lease uniqueIDs c = false <-> kind (that_id c) = ID_NULL.
Proof.
  unfold could_share_lease. change (negb (ID_NONE =? 0)) with false. cbn [andb]. rewrite orb_false_r.
  by rewrite negb_false_iff, Z.eqb_eq.
Qed.

Lemma lease_refcount pool c ipa pool' :
  lease_an_address myid uniqueIDs pool c = Ok (ipa, pool') -> pool_refcount pool' = pool_refcount pool.
Proof.
  unfold lease_an_address. intros Hl. apply bind_ok in Hl as ([s pool1]&Hs&Hl).
  apply bind_ok in Hl as ([i pool2]&Hn&Hl). inv_ok. transitivity (pool_refcount pool1).
  - destruct s; [by inv_ok|]. unfold new_lease in Hn. apply bind_ok in Hn as ([[pp j] ll]&_&Hn).
    destruct (j <? size pool1); [by inv_ok|]. destruct ll as [[? ?]|]; by inv_ok.
  - unfold share_lease in Hs. destruct (negb _); [by inv_ok|]. apply bind_ok in Hs as (f&_&Hs).
    destruct f as [[? l]|]; [|by inv_ok]. destruct (refcnt l =? 0); by inv_ok.
Qed.

(** Nobody holds an index that is free or lingers. *)
Lemma fresh_unheld n d p pool i k c :
  daemon_ok n d -> pool_at (d_pools d) p = Some pool -> fresh_lease (size pool) (abs_pool pool) i ->
  conns d !! k = Some c -> holds p pool i c = false.
Proof.
  intros Hd Hp Hf Hk. destruct (holds p pool i c) eqn:Hh; [|done]. exfalso.
  pose proof (dk_pools _ _ Hd p pool Hp) as Hpo. destruct (holds_uses p pool i c Hh) as (Hc&Hl&Ha).
  destruct (ck_lease _ _ (dk_conns _ _ Hd k c Hk) Hl) as (_&p'&pool'&j&w&m&H1&H2&H3&H4&_).
  assert (p' = p) as -> by congruence. assert (pool' = pool) as -> by congruence.
  destruct (abs_index peer_ok pool j w m (pk_wf _ _ _ _ Hpo) H4) as [Hj _].
  assert (i = j) as ->.
  { apply (index_addr_inj pool); [apply Hpo| |done|congruence]. by destruct Hf. }
  pose proof (count_pos (holds p pool j) _ k c Hk Hh).
  destruct Hf as [_ Hn _|w' _ _ Hn]; [congruence|]. pose proof (pk_holders _ _ _ _ Hpo j w' 0 Hn). lia.
Qed.

Definition leased_conn (c : connection) (ipa : ip_address) : connection :=
  mk_conn (c_kind c) (c_pool c) (that_id c) ipa true.

(** How many hold an index after the connection of [k] became [c']. *)
Lemma count_leased cs k c c' p pool i j :
  wf_pool peer_ok pool -> 0 <= i < size pool -> 0 <= j < size pool -> cs !! k = Some c ->
  c' = c \/ c' = leased_conn c (index_addr pool i) ->
  count (holds p pool j) (<[k := c']> cs) <= count (holds p pool j) cs + one (bool_decide (j = i)).
Proof.
  intros Hw Hi Hj Hk Hc. rewrite (count_update _ _ _ _ _ Hk).
  assert (one (holds p pool j c') <= one (holds p pool j c) + one (bool_decide (j = i))).
  2:{ lia. }
  destruct Hc as [->| ->]; [unfold one; repeat case_match; lia|].
  destruct (holds p pool j (leased_conn _ _)) eqn:Hh; [|unfold one; repeat case_match; lia].
  apply holds_uses in Hh as (_&_&He). cbn in He.
  rewrite (bool_decide_eq_true_2 (j = i)); [unfold one; repeat case_match; lia|].
  symmetry. by apply (index_addr_inj pool).
Qed.

Lemma lease_pool_ok n d p pool pool' k c c' i :
  daemon_ok n d -> 0 <= n -> pool_at (d_pools d) p = Some pool -> conns d !! k = Some c -> c_pool c = Some p ->
  active c -> 0 <= i < size pool -> wf_pool peer_ok pool' -> r pool' = r pool ->
  pool_refcount pool' = pool_refcount pool ->
  leased myid (could_share_lease uniqueIDs c) (size pool) (that_id c) (abs_pool pool) i (abs_pool pool') ->
  c' = c \/ c' = leased_conn c (index_addr pool i) ->
  pool_ok (n + 1) (<[k := c']> (conns d)) p pool'.
Proof.
  intros Hd Hn Hp Hk Hc [_ Hpeer] Hi Hw Hr Hrc Hle Hc'. pose proof (dk_pools _ _ Hd p pool Hp) as Hpo.
  assert (Hcj : forall j w m, abs_pool pool' !! j = Some (w, m) ->
    count (holds p pool' j) (<[k := c']> (conns d)) <= count (holds p pool j) (conns d) + one (bool_decide (j = i))).
  { intros j w m Hj. rewrite (count_holds_r p pool pool') by done.
    apply count_leased with c; [apply Hpo|done| |done|done].
    destruct (abs_index peer_ok pool' j w m Hw Hj) as [Hb _]. destruct Hw as [_ Hs _ _ _].
    rewrite Hs, Hr, <- (wf_size _ _ (pk_wf _ _ _ _ Hpo)) in Hb. done. }
  split; [done| | | |].
  - rewrite Hrc, (pk_refcount _ _ _ _ Hpo), (count_update _ _ _ _ _ Hk).
    assert (uses_pool p c' = uses_pool p c) as -> by (destruct Hc' as [->| ->]; done). lia.
  - intros j w m Hj. destruct Hle as [w0 m0 _ H0 _ _|_ _]; apply lookup_insert_Some in Hj as [[-> [= <- <-]]|[_ Hj]];
      try (pose proof (pk_refcnt _ _ _ _ Hpo _ _ _ H0)); try (pose proof (pk_refcnt _ _ _ _ Hpo _ _ _ Hj)); lia.
  - intros j w m Hj Hnull. destruct Hle as [w0 m0 Hsh H0 Hs _|_ _];
      apply lookup_insert_Some in Hj as [[-> [= <- <-]]|[_ Hj]]; try done; try by apply (pk_null _ _ _ _ Hpo j w m).
    exfalso. destruct (abs_index peer_ok pool j w0 m0 (pk_wf _ _ _ _ Hpo) H0) as [_ Hw0].
    rewrite (peer_same_kind w0 (that_id c)) in Hnull by done.
    apply could_share_kind in Hnull. congruence.
  - intros j w m Hj. pose proof (Hcj j w m Hj) as Hb. destruct Hle as [w0 m0 _ H0 _ _|_ Hf];
      apply lookup_insert_Some in Hj as [[-> [= <- <-]]|[Hne Hj]].
    + rewrite bool_decide_eq_true_2 in Hb by done. pose proof (pk_holders _ _ _ _ Hpo _ _ _ H0). cbn in Hb. lia.
    + rewrite bool_decide_eq_false_2 in Hb by done. pose proof (pk_holders _ _ _ _ Hpo _ _ _ Hj). cbn in Hb. lia.
    + rewrite bool_decide_eq_true_2 in Hb by done. rewrite (count_zero (holds p pool j)) in Hb; [cbn in Hb; lia|].
      intros k2 c2 Hk2. by apply (fresh_unheld n d p pool j k2).
    + rewrite bool_decide_eq_false_2 in Hb by done. pose proof (pk_holders _ _ _ _ Hpo _ _ _ Hj). cbn in Hb. lia.
Qed.

(** The connections under the new pool: the holders keep their leases. *)
Lemma lease_conn_ok n d p pool pool' i c k2 c2 :
  daemon_ok n d -> pool_at (d_pools d) p = Some pool -> conns d !! k2 = Some c2 -> r pool' = r pool ->
  leased myid (could_share_lease uniqueIDs c) (size pool) (that_id c) (abs_pool pool) i (abs_pool pool') ->
  conn_ok (pool_set (d_pools d) p pool') c2.
Proof.
  intros Hd Hp Hk2 Hr Hle. apply (conn_ok_pools (d_pools d)); [by apply (dk_conns _ _ Hd k2)| |].
  - intros q _ [x Hx]. rewrite pool_at_set, Hp. case_decide; done.
  - intros q x j w m Hl Hc Hx Ha Hj. rewrite pool_at_set, Hp. case_decide as Hq; [|by exists x, m].
    subst q. assert (x = pool) as -> by congruence. exists pool'.
    assert (Hh : holds p pool j c2 = true).
    { unfold holds, uses_pool. rewrite Hl. by rewrite !bool_decide_eq_true_2. }
    destruct Hle as [w0 m0 _ H0 _ _|_ Hf].
    + destruct (decide (j = i)) as [->|Hne]; [rewrite lookup_insert_eq|rewrite lookup_insert_ne by done].
      * exists (m0 + 1). naive_solver.
      * by exists m.
    + destruct (decide (j = i)) as [->|Hne]; [|rewrite lookup_insert_ne by done; by exists m].
      by rewrite (fresh_unheld n d p pool i k2 c2) in Hh.
Qed.

Lemma pools_apart ps p pool pool' :
  pool_at ps p = Some pool -> r pool' = r pool ->
  (forall a b x y, a <> b -> pool_at ps a = Some x -> pool_at ps b = Some y -> disjoint_ranges (r x) (r y)) ->
  forall a b x y, a <> b -> pool_at (pool_set ps p pool') a = Some x ->
    pool_at (pool_set ps p pool') b = Some y -> disjoint_ranges (r x) (r y).
Proof.
  intros Hp Hr Hd a b x y Hab. rewrite !pool_at_set, Hp. repeat case_decide; subst; try done; intros; simplify_eq.
  - rewrite Hr. by apply (Hd p b).
  - rewrite Hr. by apply (Hd a p).
  - by apply (Hd a b).
Qed.

(** A pool that the connection of [k] does not use. *)
Lemma pool_ok_other n n' cs k c c' q pool :
  pool_ok n cs q pool -> n <= n' -> cs !! k = Some c -> c_pool c' = c_pool c -> c_pool c <> Some q ->
  pool_ok n' (<[k := c']> cs) q pool.
Proof.
  intros Hpo Hn Hk Hc Hq. apply (pool_ok_conns n n' cs); [done|done| |].
  - rewrite (count_update _ _ _ _ _ Hk). unfold uses_pool. rewrite Hc. lia.
  - intros i. rewrite (count_update _ _ _ _ _ Hk), !holds_not_uses by congruence. lia.
Qed.

(** A lease for the connection of [k], whether the connection takes the address or not. *)
Lemma daemon_lease n d k c p :
  daemon_ok n d -> 0 <= n -> n + 1 < 2 ^ 32 -> conns d !! k = Some c -> active c -> c_pool c = Some p ->
  match lease_for myid uniqueIDs (d_pools d) c with
  | Ok (ipa, ps') => forall c', c' = c \/ c' = leased_conn c ipa ->
      daemon_ok (n + 1) (mk_daemon ps' (<[k := c']> (conns d)))
  | Ugh _ => True
  | Abort => exists pool, pool_at (d_pools d) p = Some pool /\ busy (size pool) (abs_pool pool) /\ ~ accounted pool
  end.
Proof.
  intros Hd Hn0 Hn Hk Hac Hc. pose proof Hac as [_ Hpeer]. unfold lease_for. rewrite Hc. cbn [defined]. rewrite bind_Ok.
  destruct (ck_pool _ _ (dk_conns _ _ Hd k c Hk) p Hc) as [pool Hp]. rewrite Hp. cbn [defined]. rewrite bind_Ok.
  pose proof (dk_pools _ _ Hd p pool Hp) as Hpo. pose proof (pk_wf _ _ _ _ Hpo) as Hw.
  pose proof (refcnt_room n _ p pool Hpo Hn) as Hb.
  pose proof (lease_an_address_spec myid uniqueIDs peer_ok peer_same pool c Hw Hpeer Hb) as Hs.
  destruct (lease_an_address myid uniqueIDs pool c) as [[ipa pool']|e|] eqn:El; cbn [mbind outcome_bind];
    [|done|by exists pool; destruct Hs as (?&?&_)].
  destruct Hs as (Hw'&Hr&i&Hi&->&Hle&_).
  intros c' Hc'. assert (Hcp : c_pool c' = c_pool c) by (by destruct Hc' as [->| ->]).
  split; cbn [d_pools conns].
  - rewrite pool_set_keys. apply Hd.
  - rewrite map_size_insert_Some by done. pose proof (dk_size _ _ Hd). lia.
  - intros q x. rewrite pool_at_set, Hp. case_decide as Hq; [intros [= <-]; subst q|intros Hx].
    + apply (lease_pool_ok n d p pool pool' k c c' i); auto. by apply (lease_refcount pool c _ _ El).
    + apply (pool_ok_other n (n + 1) _ k c); [by apply (dk_pools _ _ Hd)|lia|done|done|congruence].
  - apply (pools_apart _ _ pool); [done|done|apply (dk_apart _ _ Hd)].
  - intros k2 c2. destruct (decide (k2 = k)) as [->|Hne]; [rewrite lookup_insert_eq|rewrite lookup_insert_ne by done].
    2:{ intros Hk2. by apply (lease_conn_ok n d p pool pool' i c k2). }
    intros [= <-]. pose proof (lease_conn_ok n d p pool pool' i c k c Hd Hp Hk Hr Hle) as Hck.
    destruct Hc' as [->| ->]; [done|]. destruct Hck as [Hkd Hpl _]. split; [done|done|]. intros _.
    split; [done|]. exists p, pool', i. cbn [leased_conn client_addr c_pool that_id].
    rewrite pool_at_set, Hp, decide_True by done. rewrite (index_addr_r pool pool' i Hr).
    destruct Hle as [w0 m0 _ H0 Hsm _|_ Hf]; rewrite lookup_insert_eq.
    + by exists w0, (m0 + 1).
    + exists (that_id c), 1. do 4 (split; [done|]). by apply peer_same_refl.
Qed.

(** * Deleting *)

(** What deleting the connection of [k] leaves of a lease it may have had in [pool]. *)
Record let_go (n : Z) (cs : gmap nat connection) (k p : nat) (pool pool' : ip_pool) : Prop := {
  lg_wf : wf_pool peer_ok pool';
  lg_r : r pool' = r pool;
  lg_refcount : pool_refcount pool' = pool_refcount pool;
  lg_leases i w m : abs_pool pool' !! i = Some (w, m) ->
    m <= n /\ (kind w = ID_NULL -> m = 1) /\ count (holds p pool i) (delete k cs) <= m;
  lg_kept k2 c2 i w m : k2 <> k -> cs !! k2 = Some c2 -> holds p pool i c2 = true ->
    abs_pool pool !! i = Some (w, m) -> exists m', abs_pool pool' !! i = Some (w, m')
}.

Lemma let_go_nothing n cs k c p pool :
  pool_ok n cs p pool -> cs !! k = Some c -> let_go n cs k p pool pool.
Proof.
  intros Hpo Hk. split; [apply Hpo|done|done| |naive_solver].
  intros i w m Hi. split; [by apply (pk_refcnt _ _ _ _ Hpo i w)|].
  split; [by apply (pk_null _ _ _ _ Hpo i w)|]. rewrite (count_delete _ _ _ _ Hk).
  pose proof (pk_holders _ _ _ _ Hpo i w m Hi). unfold one. case_match; lia.
Qed.

Lemma rel_refcount now pool c pool' c' :
  rel_lease_addr uniqueIDs now pool c = Ok (pool', c') -> pool_refcount pool' = pool_refcount pool.
Proof.
  unfold rel_lease_addr. destruct (negb (has_lease c)); intros Hl; [by inv_ok|].
  apply bind_ok in Hl as (?&_&Hl). apply bind_ok in Hl as (?&_&Hl). apply bind_ok in Hl as (pp&_&Hl).
  apply bind_ok in Hl as (l&_&Hl). apply bind_ok in Hl as (pool1&Hp&Hl). inv_ok.
  destruct (could_share_lease uniqueIDs c); apply bind_ok in Hp as (?&_&Hp); [|by inv_ok].
  destruct (_ =? _); by inv_ok.
Qed.

(** Only the connection of [k] gives up the lease at [i]. *)
Lemma let_go_lease n d k c p pool i w m pool' :
  daemon_ok n d -> pool_at (d_pools d) p = Some pool -> conns d !! k = Some c -> holds p pool i c = true ->
  active c -> abs_pool pool !! i = Some (w, m) -> same_id myid w (that_id c) = Ok true ->
  wf_pool peer_ok pool' -> r pool' = r pool -> pool_refcount pool' = pool_refcount pool ->
  abs_pool pool' = (if could_share_lease uniqueIDs c then <[i := (w, m - 1)]> (abs_pool pool)
                    else delete i (abs_pool pool)) ->
  let_go n (conns d) k p pool pool'.
Proof.
  intros Hd Hp Hk Hh [_ Hpeer] Hi Hs Hw Hr Hrc Habs. pose proof (dk_pools _ _ Hd p pool Hp) as Hpo.
  destruct (abs_index peer_ok pool i w m (pk_wf _ _ _ _ Hpo) Hi) as [Hib Hwok].
  pose proof (peer_same_kind w (that_id c) Hwok Hpeer Hs) as Hkind.
  pose proof (let_go_nothing n (conns d) k c p pool Hpo Hk) as Hno.
  split; [done|done|done| |].
  - intros j w' m' Hj. rewrite Habs in Hj. destruct (decide (j = i)) as [->|Hne].
    + destruct (could_share_lease uniqueIDs c) eqn:Esh; [|by rewrite lookup_delete_eq in Hj].
      rewrite lookup_insert_eq in Hj. injection Hj as <- <-.
      pose proof (pk_refcnt _ _ _ _ Hpo i w m Hi). split; [lia|]. split.
      * intros Hnull. rewrite Hkind in Hnull. apply could_share_kind in Hnull. congruence.
      * rewrite (count_delete _ _ _ _ Hk), Hh. pose proof (pk_holders _ _ _ _ Hpo i w m Hi). cbn. lia.
    + apply (lg_leases _ _ _ _ _ _ Hno). destruct (could_share_lease uniqueIDs c).
      * by rewrite lookup_insert_ne in Hj.
      * by rewrite lookup_delete_ne in Hj.
  - intros k2 c2 j w' m' Hne Hk2 Hh2 Hj. rewrite Habs. destruct (could_share_lease uniqueIDs c) eqn:Esh.
    + destruct (decide (j = i)) as [->|Hji]; [rewrite lookup_insert_eq|rewrite lookup_insert_ne by done; by exists m'].
      exists (m - 1). naive_solver.
    + destruct (decide (j = i)) as [->|Hji]; [|rewrite lookup_delete_ne by done; by exists m'].
      exfalso. apply Hne. apply could_share_kind in Esh. rewrite <- Hkind in Esh.
      apply (count_unique (holds p pool i) (conns d) k2 k c2 c); try done.
      rewrite <- (pk_null _ _ _ _ Hpo i w m Hi Esh). by apply (pk_holders _ _ _ _ Hpo i w).
Qed.

Lemma daemon_release n d k c p now pool :
  daemon_ok n d -> conns d !! k = Some c -> c_pool c = Some p -> pool_at (d_pools d) p = Some pool ->
  exists pool' c', rel_lease_addr uniqueIDs now pool c = Ok (pool', c') /\ c_pool c' = Some p /\
    let_go n (conns d) k p pool pool'.
Proof.
  intros Hd Hk Hc Hp. pose proof (dk_pools _ _ Hd p pool Hp) as Hpo.
  destruct (has_lease c) eqn:Hl.
  2:{ exists pool, c. unfold rel_lease_addr. rewrite Hl. split; [done|]. split; [done|].
      by apply (let_go_nothing n _ k c). }
  destruct (ck_lease _ _ (dk_conns _ _ Hd k c Hk) Hl) as (Hac&p'&x&i&w&m&H1&H2&H3&H4&H5).
  assert (p' = p) as -> by congruence. assert (x = pool) as -> by congruence.
  assert (Hh : holds p pool i c = true).
  { unfold holds, uses_pool. rewrite Hl. by rewrite !bool_decide_eq_true_2. }
  pose proof (count_pos _ _ k c Hk Hh) as Hpos. pose proof (pk_holders _ _ _ _ Hpo i w m H4) as Hm.
  destruct (abs_index peer_ok pool i w m (pk_wf _ _ _ _ Hpo) H4) as [Hib Hwok].
  destruct (index_addr_value peer_ok pool i (pk_wf _ _ _ _ Hpo) Hib) as (Hv4&Hv&_).
  destruct (rel_lease_addr_spec uniqueIDs peer_ok now pool c i w m) as (pool'&Hrel&Hw&Hr&_&Habs);
    [apply Hpo|done|by rewrite H3|by rewrite H3|done|lia| |].
  { intros Hsh. apply (pk_null _ _ _ _ Hpo i w m H4). destruct Hac as [_ Hpeer].
    rewrite (peer_same_kind w (that_id c)) by done. by apply could_share_kind in Hsh. }
  exists pool', (set_has_lease c false). split; [done|]. split; [done|].
  apply (let_go_lease n d k c p pool i w m); try done. by apply (rel_refcount now pool c _ _ Hrel).
Qed.

Lemma rel_lease_kind now pool c kd :
  rel_lease_addr uniqueIDs now pool (set_c_kind c kd) =
  '(pool', c') ← rel_lease_addr uniqueIDs now pool c; Ok (pool', set_c_kind c' kd).
Proof.
  unfold rel_lease_addr. change (has_lease (set_c_kind c kd)) with (has_lease c).
  change (could_share_lease uniqueIDs (set_c_kind c kd)) with (could_share_lease uniqueIDs c).
  change (client_addr (set_c_kind c kd)) with (client_addr c). destruct (has_lease c); [|done]. cbn [negb].
  repeat match goal with
  | |- (?a ≫= _) = ((?a ≫= _) ≫= _) => destruct a; cbn [mbind outcome_bind]; try done
  end.
Qed.

(** The pools after [k] has let go of its lease and the pool has lost a user. *)
Lemma pools_unreferenced ps p pool' :
  NoDup ps.*1 -> is_Some (pool_at ps p) -> 0 < pool_refcount pool' < 2 ^ 32 ->
  exists ps2, (forall c, c_pool c = Some p ->
      unreference_addresspool (pool_set ps p pool') c = Ok (ps2, set_c_pool c None)) /\
    NoDup ps2.*1 /\
    forall q, pool_at ps2 q =
      if decide (q = p) then
        if pool_refcount pool' =? 1 then None else Some (set_pool_refcount pool' (pool_refcount pool' - 1))
      else pool_at ps q.
Proof.
  intros Hnd [x Hx] Hrc. set (pool2 := set_pool_refcount pool' (pool_refcount pool' - 1)).
  assert (Hrc2 : pool_refcount pool2 = pool_refcount pool' - 1) by (apply u32_small; lia).
  set (ps1 := pool_set (pool_set ps p pool') p pool2).
  assert (Hk1 : ps1.*1 = ps.*1) by (unfold ps1; by rewrite !pool_set_keys).
  assert (Hat : forall q, pool_at ps1 q = if decide (q = p) then Some pool2 else pool_at ps q).
  { intros q. unfold ps1. rewrite pool_at_set. case_decide as Hq.
    - by rewrite pool_at_set, decide_True, Hx by done.
    - by rewrite pool_at_set, decide_False by done. }
  exists (if pool_refcount pool2 =? 0 then free_addresspool ps1 p else ps1). split; [|split].
  - intros c Hc. unfold unreference_addresspool. rewrite Hc. cbn [defined]. rewrite bind_Ok, pool_at_set, decide_True by done.
    rewrite Hx. cbn [defined]. rewrite bind_Ok. rewrite (proj2 (Z.ltb_lt 0 (pool_refcount pool'))) by lia. done.
  - destruct (_ =? _); [|by rewrite Hk1]. eapply sublist_NoDup; [|apply free_keys]. by rewrite Hk1.
  - intros q. rewrite Hrc2. destruct (Z.eqb_spec (pool_refcount pool' - 1) 0), (Z.eqb_spec (pool_refcount pool') 1);
      try lia; [|by rewrite Hat]. rewrite pool_at_free by (by rewrite Hk1). case_decide; [done|].
    by rewrite Hat, decide_False by done.
Qed.

Lemma daemon_forget n d k c p pool pool' :
  daemon_ok n d -> n < 2 ^ 32 -> conns d !! k = Some c -> c_pool c = Some p ->
  pool_at (d_pools d) p = Some pool -> let_go n (conns d) k p pool pool' ->
  exists ps2, (forall c, c_pool c = Some p ->
      unreference_addresspool (pool_set (d_pools d) p pool') c = Ok (ps2, set_c_pool c None)) /\
    daemon_ok n (mk_daemon ps2 (delete k (conns d))).
Proof.
  intros Hd Hn Hk Hc Hp Hlg. pose proof (dk_pools _ _ Hd p pool Hp) as Hpo.
  assert (Hu : uses_pool p c = true) by (by apply bool_decide_eq_true_2).
  assert (Hrc : pool_refcount pool' = count (uses_pool p) (conns d))
    by (rewrite (lg_refcount _ _ _ _ _ _ Hlg); apply Hpo).
  pose proof (count_pos _ _ k c Hk Hu). pose proof (count_le_size (uses_pool p) (conns d)). pose proof (dk_size _ _ Hd).
  pose proof (count_delete (uses_pool p) _ k c Hk) as Hcd. rewrite Hu in Hcd. cbn [one] in Hcd.
  destruct (pools_unreferenced (d_pools d) p pool') as (ps2&Hun&Hnd&Hat); [apply Hd|by exists pool|lia|].
  exists ps2. split; [done|]. split; cbn [d_pools conns].
  - done.
  - rewrite map_size_delete_Some by done. lia.
  - intros q x. rewrite Hat. case_decide as Hq; [subst q|intros Hx].
    + destruct (Z.eqb_spec (pool_refcount pool') 1); [done|]. intros [= <-].
      split; [|rewrite Hcd, <- Hrc; apply u32_small; lia| | |].
      * destruct (lg_wf _ _ _ _ _ _ Hlg). by split.
      * intros i w m Hi. apply (lg_leases _ _ _ _ _ _ Hlg i w m Hi).
      * intros i w m Hi. apply (lg_leases _ _ _ _ _ _ Hlg i w m Hi).
      * intros i w m Hi. rewrite (count_holds_r p pool); [|apply Hlg].
        apply (lg_leases _ _ _ _ _ _ Hlg i w m Hi).
    + apply (pool_ok_conns n n (conns d)); [by apply (dk_pools _ _ Hd)|done| |].
      * rewrite (count_delete _ _ _ _ Hk). unfold uses_pool. rewrite bool_decide_eq_false_2 by congruence. cbn. lia.
      * intros i. rewrite (count_delete _ _ _ _ Hk), holds_not_uses by congruence. cbn. lia.
  - intros a b x y Hab. rewrite !Hat. pose proof (lg_r _ _ _ _ _ _ Hlg) as Hr.
    repeat case_decide; subst; try done; try (destruct (_ =? _); [done|]); intros; simplify_eq;
      cbn [r set_pool_refcount]; rewrite ?Hr.
    + by apply (dk_apart _ _ Hd p b).
    + by apply (dk_apart _ _ Hd a p).
    + by apply (dk_apart _ _ Hd a b).
  - intros k2 c2 [Hne Hk2]%lookup_delete_Some. apply (conn_ok_pools (d_pools d)); [by apply (dk_conns _ _ Hd k2)| |].
    + intros q Hq [x Hx]. rewrite Hat. case_decide; [subst q|by exists x].
      destruct (Z.eqb_spec (pool_refcount pool') 1); [|by eexists]. exfalso. apply Hne.
      apply (count_unique (uses_pool p) (conns d) k k2 c c2); try done; [by apply bool_decide_eq_true_2|lia].
    + intros q x i w m Hl Hq Hx Ha Hi. rewrite Hat. case_decide; [subst q|by exists x, m].
      destruct (Z.eqb_spec (pool_refcount pool') 1).
      { exfalso. apply Hne. apply (count_unique (uses_pool p) (conns d) k k2 c c2); try done;
          [by apply bool_decide_eq_true_2|lia]. }
      assert (x = pool) as -> by congruence. eexists.
      destruct (lg_kept _ _ _ _ _ _ Hlg k2 c2 i w m) as (m'&Hm'); [done|done| |done|].
      { unfold holds, uses_pool. rewrite Hl. by rewrite !bool_decide_eq_true_2. }
      exists m'. split; [done|]. split; [apply Hlg|done].
Qed.

(** * Adding *)

Lemma new_pool_ok n d new x :
  daemon_ok n d -> pool_at (d_pools d) new = None -> wf_range x ->
  pool_ok n (conns d) new (mk_pool 0 x (u32 (v4_value (r_end x) - v4_value (r_start x) + 1)) 0 0 []).
Proof.
  intros Hd Hnew Hx. pose proof Hx as (_&(_&Hl&Hb)&Hlt). split; try done.
  - split; try done; [|constructor]. apply u32_small. cbn [r]. pose proof (be_decode_bound _ Hb) as Hv.
    fold (v4_value (r_end x)) in Hv. rewrite Hl in Hv. lia.
  - symmetry. apply count_zero. intros k c Hk. apply bool_decide_eq_false_2. intros Hc.
    destruct (ck_pool _ _ (dk_conns _ _ Hd k c Hk) new Hc) as [? ?]. congruence.
Qed.

Lemma daemon_install n ps cs new x :
  daemon_ok n (mk_daemon ps cs) -> pool_at ps new = None -> wf_range x ->
  let '(o, ps') := install_addresspool ps new x in
  daemon_ok n (mk_daemon ps' cs) /\ (forall p, o = Some p -> is_Some (pool_at ps' p)) /\
  (forall q, q <> new -> pool_at ps' q = pool_at ps q).
Proof.
  intros Hd Hnew Hx.
  assert (Hf : Forall (fun e => wf_range (r e.2)) ps).
  { apply Forall_forall. intros [p pool] Hin. cbn [snd].
    assert (pool_at ps p = Some pool) as Hp.
    { pose proof (dk_nodup _ _ Hd) as Hnd. cbn [d_pools] in Hnd. clear -Hin Hnd.
      induction ps as [|[h y] ps IH]; [by apply elem_of_nil in Hin|]. cbn [pool_at].
      apply NoDup_cons in Hnd as [Hh Hnd]. apply elem_of_cons in Hin as [[= -> ->]|Hin]; [by rewrite decide_True|].
      rewrite decide_False; [by apply IH|]. intros ->. apply Hh. by apply (list_elem_of_fmap_2 fst _ (p, pool)). }
    apply (wf_r peer_ok), (dk_pools _ _ Hd p pool Hp). }
  pose proof (find_addresspool_spec x ps Hx Hf) as Hs. unfold install_addresspool.
  destruct (find_addresspool x ps) as [[p|]|e|]; [| |done|done].
  { split; [done|]. split; [|done]. intros p' [= <-]. destruct Hs as (pool&Hin&_).
    destruct (pool_at ps p) eqn:Hp; [done|]. apply pool_at_None in Hp. exfalso. apply Hp.
    by apply (list_elem_of_fmap_2 fst _ (p, pool)). }
  set (np := mk_pool 0 x _ 0 0 []).
  assert (Hat : forall q, pool_at ((new, np) :: ps) q = if decide (q = new) then Some np else pool_at ps q).
  { intros q. cbn [pool_at]. repeat case_decide; congruence. }
  assert (Hdis : forall q y, pool_at ps q = Some y -> disjoint_ranges x (r y)).
  { intros q y Hq. rewrite Forall_forall in Hs. by apply (Hs (q, y)), pool_at_elem. }
  split; [|split].
  - split; cbn [d_pools conns].
    + cbn. constructor; [by apply pool_at_None|apply Hd].
    + apply Hd.
    + intros q y. rewrite Hat. case_decide; [intros [= <-]; subst q|apply (dk_pools _ _ Hd)].
      by apply (new_pool_ok n (mk_daemon ps cs)).
    + intros a b y z Hab. rewrite !Hat. repeat case_decide; subst; try done; intros; simplify_eq.
      * by apply (Hdis b).
      * by apply disjoint_ranges_sym, (Hdis a).
      * by apply (dk_apart _ _ Hd a b).
    + intros k c Hk. apply (conn_ok_keeps ps); [by apply (dk_conns _ _ Hd k)|]. intros q y Hq. exists y.
      rewrite Hat, decide_False by congruence. done.
  - intros p [= <-]. rewrite Hat, decide_True by done. by eexists.
  - intros q Hq. by rewrite Hat, decide_False.
Qed.

(** A new connection counts as a user of its pool. *)
Lemma daemon_new_conn n ps cs k c :
  daemon_ok n (mk_daemon ps cs) -> n + 1 < 2 ^ 32 -> cs !! k = None -> c_kind c <> CK_GOING_AWAY ->
  has_lease c = false -> (forall p, c_pool c = Some p -> is_Some (pool_at ps p)) ->
  exists ps', unshare_connection ps c = Ok ps' /\ daemon_ok (n + 1) (mk_daemon ps' (<[k := c]> cs)).
Proof.
  intros Hd Hn Hk Hkd Hl Hp.
  assert (Hholds : forall p pool i, holds p pool i c = false) by (intros; unfold holds; rewrite Hl; by rewrite andb_false_r).
  assert (Hother : forall q pool, pool_at ps q = Some pool -> c_pool c <> Some q -> pool_ok (n + 1) (<[k := c]> cs) q pool).
  { intros q pool Hq Hne. apply (pool_ok_conns n (n + 1) cs); [by apply (dk_pools _ _ Hd)|lia| |].
    - rewrite count_new by done. unfold uses_pool at 2. rewrite bool_decide_eq_false_2 by done. cbn. lia.
    - intros i. rewrite count_new, Hholds by done. cbn. lia. }
  assert (Hsz : Z.of_nat (base.size (<[k := c]> cs)) <= n + 1).
  { rewrite map_size_insert_None by done. pose proof (dk_size _ _ Hd) as Hs. cbn [conns] in Hs. lia. }
  unfold unshare_connection. destruct (c_pool c) as [p|] eqn:Hc.
  2:{ exists ps. split; [done|]. split; cbn [d_pools conns]; [apply Hd|done|by intros; apply Hother|apply Hd|].
      intros k2 c2 [[-> <-]|[_ Hk2]]%lookup_insert_Some; [|by apply (dk_conns _ _ Hd k2)].
      split; [done|by rewrite Hc|by rewrite Hl]. }
  destruct (Hp p eq_refl) as [pool Hpp]. unfold reference_addresspool. rewrite Hpp. cbn [defined]. rewrite bind_Ok.
  eexists. split; [done|]. pose proof (dk_pools _ _ Hd p pool Hpp) as Hpo. cbn [conns] in Hpo.
  set (pool' := set_pool_refcount pool _).
  assert (Hrc : pool_refcount pool' = pool_refcount pool + 1).
  { pose proof (count_nonneg (uses_pool p) cs). pose proof (count_le_size (uses_pool p) cs).
    pose proof (dk_size _ _ Hd). cbn [conns] in *. apply u32_small. rewrite (pk_refcount _ _ _ _ Hpo). lia. }
  assert (Hkeep : keeps ps (pool_set ps p pool')).
  { intros q x Hx. rewrite pool_at_set, Hpp. case_decide; [subst q|by exists x].
    exists pool'. assert (x = pool) as -> by congruence. done. }
  split; cbn [d_pools conns]; [rewrite pool_set_keys; apply Hd|done| | |].
  - intros q x. rewrite pool_at_set, Hpp. case_decide as Hq; [intros [= <-]; subst q|intros; apply Hother; congruence].
    split; [| |intros i w m Hi|intros i w m Hi|intros i w m Hi].
    + destruct (pk_wf _ _ _ _ Hpo). by split.
    + rewrite Hrc, count_new, (pk_refcount _ _ _ _ Hpo) by done. unfold uses_pool at 3.
      by rewrite bool_decide_eq_true_2.
    + pose proof (pk_refcnt _ _ _ _ Hpo i w m Hi). lia.
    + by apply (pk_null _ _ _ _ Hpo i w m).
    + rewrite count_new, Hholds, (count_holds_r p pool) by done. pose proof (pk_holders _ _ _ _ Hpo i w m Hi). cbn. lia.
  - apply (pools_apart _ _ pool); [done|done|apply (dk_apart _ _ Hd)].
  - intros k2 c2 [[-> <-]|[_ Hk2]]%lookup_insert_Some.
    + split; [done| |by rewrite Hl]. intros q. rewrite Hc. intros [= <-]. rewrite pool_at_set, Hpp, decide_True by done. by eexists.
    + apply (conn_ok_keeps ps); [by apply (dk_conns _ _ Hd k2)|done].
Qed.

(** * One event *)

Lemma daemon_ok_le n n' d : daemon_ok n d -> n <= n' -> daemon_ok n' d.
Proof.
  intros [H1 H2 H3 H4 H5] Hn. split; [done|lia| |done|done]. intros p pool Hp.
  by apply (pool_ok_conns n n' (conns d)); [apply H3| | |].
Qed.

Lemma handle_add n d k new1 new2 x y c :
  daemon_ok n d -> n + 1 < 2 ^ 32 -> enabled d (Add k new1 new2 x y c) ->
  match handle d (Add k new1 new2 x y c) with
  | Ok d' => daemon_ok (n + 1) d' | Ugh _ => True | Abort => False
  end.
Proof.
  intros Hd Hn (Hk&H1&H2&H12&Hx&Hy&Hc&Hl&Hkd). destruct d as [ps cs]. cbn [d_pools conns] in *.
  unfold handle, add_connection. cbn [d_pools conns]. destruct (check_connection_end ps y && _); [|done].
  unfold add_connection_pool.
  assert (exists ps1 c1, (if v4_value (r_start x) =? 0 then (ps, c)
     else let '(p, ps) := install_addresspool ps new1 x in (ps, set_c_pool c p)) = (ps1, c1) /\
     daemon_ok n (mk_daemon ps1 cs) /\ pool_at ps1 new2 = None /\ has_lease c1 = false /\
     c_kind c1 = c_kind c /\ forall p, c_pool c1 = Some p -> is_Some (pool_at ps1 p)) as (ps1&c1&->&Hd1&H21&Hl1&Hk1&Hp1).
  { destruct (Z.eqb_spec (v4_value (r_start x)) 0) as [|Hx0].
    { exists ps, c. do 5 (split; [done|]). by rewrite Hc. }
    destruct Hx as [?|Hx]; [done|]. pose proof (daemon_install n ps cs new1 x Hd H1 Hx) as Hi.
    destruct (install_addresspool ps new1 x) as [o ps']. destruct Hi as (Hd'&Ho&Hq).
    exists ps', (set_c_pool c o). split; [done|]. split; [done|]. split; [rewrite Hq; auto|]. split; [done|]. split; [done|exact Ho]. }
  assert (exists ps2 c2, (if v4_value (r_start y) =? 0 then (ps1, c1)
     else let '(p, ps) := install_addresspool ps1 new2 y in (ps, set_c_pool c1 p)) = (ps2, c2) /\
     daemon_ok n (mk_daemon ps2 cs) /\ has_lease c2 = false /\ c_kind c2 = c_kind c /\
     forall p, c_pool c2 = Some p -> is_Some (pool_at ps2 p)) as (ps2&c2&->&Hd2&Hl2&Hk2&Hp2).
  { destruct (Z.eqb_spec (v4_value (r_start y)) 0) as [|Hy0]; [by exists ps1, c1|].
    destruct Hy as [?|Hy]; [done|]. pose proof (daemon_install n ps1 cs new2 y Hd1 H21 Hy) as Hi.
    destruct (install_addresspool ps1 new2 y) as [o ps']. destruct Hi as (Hd'&Ho&Hq).
    by exists ps', (set_c_pool c1 o). }
  destruct (daemon_new_conn n ps2 cs k c2 Hd2 Hn Hk) as (ps3&->&Hd3); [|done|done|by rewrite !bind_Ok].
  rewrite Hk2. intros He. rewrite He in Hkd. by elem_cases Hkd.
Qed.

Lemma handle_instantiate n d t k his_id :
  daemon_ok n d -> n + 1 < 2 ^ 32 -> enabled d (Instantiate t k his_id) ->
  exists d', handle d (Instantiate t k his_id) = Ok d' /\ daemon_ok (n + 1) d'.
Proof.
  intros Hd Hn (Hk&c&Ht&Hkd&Hm). destruct d as [ps cs]. cbn [d_pools conns] in *.
  unfold handle. cbn [d_pools conns]. rewrite Ht. cbn [defined]. rewrite bind_Ok. unfold instantiate.
  rewrite bool_decide_eq_true_2 by done. cbn [passert]. rewrite bind_Ok.
  assert (match his_id with
    | Some h => ok ← (if kind (that_id c) =? ID_FROMCERT then Ok true
                      else '(m, _) ← match_id myid h (that_id c); Ok m); passert ok
    | None => Ok tt end = Ok (E := string) tt) as ->.
  { destruct his_id as [h|]; [|done]. destruct (Hm h eq_refl) as [Hf|[w Hw]].
    - by rewrite (proj2 (Z.eqb_eq _ _) Hf).
    - rewrite Hw. by destruct (_ =? _). }
  rewrite bind_Ok. pose proof (dk_conns _ _ Hd t c Ht) as [_ Hp Hl]. cbn [d_pools] in *.
  assert (Hnl : has_lease c = false).
  { destruct (has_lease c); [|done]. destruct (Hl eq_refl) as ([[?|?] _]&_); congruence. }
  set (d := mk_conn (c_kind c) _ _ _ _).
  destruct (daemon_new_conn n ps cs k (set_c_kind d CK_INSTANCE) Hd Hn Hk) as (ps'&Hu&Hd'); [done|done|exact Hp|].
  change (unshare_connection ps (set_c_kind d CK_INSTANCE)) with (unshare_connection ps d) in Hu.
  rewrite Hu, !bind_Ok. by eexists.
Qed.

Lemma handle_delete n d now k :
  daemon_ok n d -> n < 2 ^ 32 -> enabled d (Delete now k) ->
  exists d', handle d (Delete now k) = Ok d' /\ daemon_ok n d'.
Proof.
  intros Hd Hn [c Hk]. unfold handle. rewrite Hk. cbn [defined]. rewrite bind_Ok. unfold delete_connection.
  pose proof (dk_conns _ _ Hd k c Hk) as [Hkd Hpl _].
  rewrite (bool_decide_eq_true_2 (c_kind c <> CK_GOING_AWAY)) by done. cbn [passert]. rewrite bind_Ok.
  destruct (c_pool c) as [p|] eqn:Hc.
  - destruct (Hpl p eq_refl) as [pool Hp]. change (c_pool (set_c_kind c CK_GOING_AWAY)) with (c_pool c).
    rewrite Hc, Hp. case_bool_decide as Hi.
    + cbn [defined]. rewrite bind_Ok, rel_lease_kind.
      destruct (daemon_release n d k c p now pool Hd Hk Hc Hp) as (pool'&c'&->&Hc'&Hlg). rewrite !bind_Ok.
      change (c_pool (set_c_kind c' CK_GOING_AWAY)) with (c_pool c'). rewrite Hc'.
      destruct (daemon_forget n d k c p pool pool' Hd Hn Hk Hc Hp Hlg) as (ps2&Hun&Hd').
      rewrite Hun, bind_Ok by done. by eexists.
    + rewrite bind_Ok, Hc. pose proof (let_go_nothing n (conns d) k c p pool (dk_pools _ _ Hd p pool Hp) Hk) as Hlg.
      destruct (daemon_forget n d k c p pool pool Hd Hn Hk Hc Hp Hlg) as (ps2&Hun&Hd').
      rewrite (pool_set_id _ _ _ (dk_nodup _ _ Hd) Hp) in Hun. rewrite Hun, bind_Ok by done. by eexists.
  - change (c_pool (set_c_kind c CK_GOING_AWAY)) with (c_pool c). rewrite Hc.
    assert (exists c', (if bool_decide (c_kind c = CK_INSTANCE) then Ok (d_pools d, set_c_kind c CK_GOING_AWAY)
      else Ok (d_pools d, c)) = Ok (E := string) (d_pools d, c') /\ c_pool c' = None) as (c'&->&Hc').
    { case_bool_decide; eexists; split; done. }
    rewrite bind_Ok, Hc', bind_Ok. eexists. split; [done|]. split; cbn [d_pools conns]; try apply Hd.
    + rewrite map_size_delete_Some by done. pose proof (dk_size _ _ Hd). lia.
    + intros q x Hx. apply (pool_ok_conns n n (conns d)); [by apply (dk_pools _ _ Hd)|done| |].
      * rewrite (count_delete _ _ _ _ Hk). unfold uses_pool at 2. rewrite bool_decide_eq_false_2 by congruence. cbn. lia.
      * intros i. rewrite (count_delete _ _ _ _ Hk), holds_not_uses by congruence. cbn. lia.
    + intros k2 c2 [_ Hk2]%lookup_delete_Some. by apply (dk_conns _ _ Hd k2).
Qed.

(** The pool of the connection of [k] is all in use, and its [used] counter is off. *)
Definition miscounted (d : daemon) (k : nat) : Prop :=
  exists c p pool, conns d !! k = Some c /\ c_pool c = Some p /\ pool_at (d_pools d) p = Some pool /\
    busy (size pool) (abs_pool pool) /\ ~ accounted pool.

Lemma handle_request n d k :
  daemon_ok n d -> 0 <= n -> n + 1 < 2 ^ 32 -> enabled d (CfgRequest k) ->
  match handle d (CfgRequest k) with
  | Ok d' => daemon_ok (n + 1) d' | Ugh _ => True | Abort => miscounted d k
  end.
Proof.
  intros Hd Hn0 Hn (c&p&Hk&Hac&Hc). unfold handle. rewrite Hk. cbn [defined]. rewrite bind_Ok.
  unfold ikev2_cp_reply_state. pose proof (daemon_lease n d k c p Hd Hn0 Hn Hk Hac Hc) as Hl.
  destruct (lease_for _ _ _ _) as [[ipa ps']|e|]; cbn [mbind outcome_bind]; [|done|].
  - apply Hl. by right.
  - destruct Hl as (pool&?&?&?). by exists c, p, pool.
Qed.

Lemma handle_modecfg n d k as_client dns1 dns2 :
  daemon_ok n d -> 0 <= n -> n + 1 < 2 ^ 32 -> enabled d (ModeCfg k as_client dns1 dns2) ->
  match handle d (ModeCfg k as_client dns1 dns2) with
  | Ok d' => daemon_ok (n + 1) d' | Ugh _ => True | Abort => miscounted d k
  end.
Proof.
  intros Hd Hn0 Hn (c&Hk&Hac&Hany). unfold handle. rewrite Hk. cbn [defined]. rewrite bind_Ok.
  unfold get_internal_addresses. destruct (c_pool c) as [p|] eqn:Hc.
  - pose proof (daemon_lease n d k c p Hd Hn0 Hn Hk Hac Hc) as Hl.
    destruct (lease_for _ _ _ _) as [[ipa ps']|e|]; cbn [mbind outcome_bind]; [|done|].
    + apply Hl. unfold modecfg_client_addr. destruct (_ && _); [by right|by left].
    + destruct Hl as (pool&?&?&?). by exists c, p, pool.
  - rewrite (Hany eq_refl). cbn [negb passert]. rewrite !bind_Ok.
    assert (modecfg_client_addr as_client false (client_addr c) c = c) as ->.
    { unfold modecfg_client_addr. destruct c. by destruct (_ && _). }
    rewrite insert_id by done. apply (daemon_ok_le n); [by destruct d|lia].
Qed.

(** Whatever the event, the daemon stays well formed, or dies of a miscounted pool. *)
Lemma handle_ok n d e :
  daemon_ok n d -> 0 <= n -> n + 1 < 2 ^ 32 -> enabled d e ->
  match handle d e with
  | Ok d' => daemon_ok (n + 1) d'
  | Ugh _ => True
  | Abort => exists k, (e = CfgRequest k \/ exists b x y, e = ModeCfg k b x y) /\ miscounted d k
  end.
Proof.
  intros Hd Hn0 Hn He. destruct e as [k new1 new2 x y c|t k his_id|k|k b x y|now k].
  - pose proof (handle_add n d k new1 new2 x y c Hd Hn He). by destruct (handle _ _).
  - by destruct (handle_instantiate n d t k his_id Hd Hn He) as (d'&->&?).
  - pose proof (handle_request n d k Hd Hn0 Hn He) as Hr. destruct (handle _ _); [done|done|]. exists k. eauto.
  - pose proof (handle_modecfg n d k b x y Hd Hn0 Hn He) as Hr. destruct (handle _ _); [done|done|]. exists k. eauto 10.
  - destruct (handle_delete n d now k Hd ltac:(lia) He) as (d'&->&?). apply (daemon_ok_le n); [done|lia].
Qed.

Lemma reach_ok n d : reach n d -> n < 2 ^ 32 -> 0 <= n /\ daemon_ok n d.
Proof.
  induction 1 as [|n d e d' Hr IH He Hs]; intros Hn.
  { split; [lia|]. split; cbn [no_daemon d_pools conns]; try done. constructor. }
  destruct (IH ltac:(lia)) as [Hn0 Hd]. split; [lia|]. destruct Hs as [Hs|[_ ->]].
  - pose proof (handle_ok n d e Hd Hn0 Hn He) as Hok. by rewrite Hs in Hok.
  - apply (daemon_ok_le n); [done|lia].
Qed.

End Daemon.
