(* ===== verification/PoolTheorems.v ===== *)
(** The properties of the address pools: what holds in every reachable state of the daemon
    of [PoolSystem], what the single operations promise, and where they fail. *)
From stdpp Require Import sorting fin_maps.
From S2P Require Import Prelude Numbers Address AddressText Subnet X509dn Id IdMatch AddressPool PoolSpec PoolSystem.

Section Reachable.
Context `{Nss} (myid : id) (uniqueIDs : bool).

Lemma peer_same_sym_trans w a b :
  peer_ok myid w -> peer_ok myid a -> peer_ok myid b -> not_dn w ->
  same_id myid w a = Ok true -> same_id myid w b = Ok true -> same_id myid a b = Ok true.
Proof.
  intros [Hw Hkw] [Ha _] [Hb _] Hn H1 H2. pose proof (same_id_decides myid) as HD.
  destruct (HD w a Hw Ha) as (x1&E1&I1), (HD w b Hw Hb) as (x2&E2&I2), (HD a b Ha Hb) as (x&->&I3).
  rewrite H1 in E1. rewrite H2 in E2. simplify_eq. f_equal. apply I3. apply (id_eqv_trans _ (resolve_myid myid w)).
  - unfold resolve_myid. by rewrite (proj2 (Z.eqb_neq _ _) Hkw).
  - by apply id_eqv_sym, I1.
  - by apply I2.
Qed.



(** Whatever the sequence of events, none of the assertions of addresspool.c can fail and
    no freed pool is touched, with one exception: a request for an address in a pool that is
    all in use and whose [used] counter does not count its leases. *)
Theorem pools_abort_only_on_miscount (n : Z) (d : daemon) (e : event)
  (Hr : reach myid uniqueIDs n d) (Hn : n + 1 < 2 ^ 32) (He : enabled myid d e)
  (Hab : handle myid uniqueIDs d e = Abort) :
  exists k c p pool, (e = CfgRequest k \/ exists b x y, e = ModeCfg k b x y) /\
    conns d !! k = Some c /\ c_pool c = Some p /\ pool_at (d_pools d) p = Some pool /\
    busy (size pool) (abs_pool pool) /\ used pool <> Z.of_nat (length (leases pool)).
Proof.
  destruct (reach_ok myid uniqueIDs n d Hr ltac:(lia)) as [Hn0 Hd].
  pose proof (handle_ok myid uniqueIDs n d e Hd Hn0 Hn He) as Hok. rewrite Hab in Hok.
  destruct Hok as (k&Hke&c&p&pool&?&?&?&?&?). exists k, c, p, pool. auto 10.
Qed.

(** A request in a pool that has an address nobody uses is always served: the connection
    gets an address of its pool and holds its lease. *)
Theorem lease_served (n : Z) (d : daemon) (k : nat) (c : connection) (p : nat) (pool : ip_pool)
  (Hr : reach myid uniqueIDs n d) (Hn : n + 1 < 2 ^ 32) (He : enabled myid d (CfgRequest k))
  (Hk : conns d !! k = Some c) (Hc : c_pool c = Some p) (Hp : pool_at (d_pools d) p = Some pool)
  (Hfree : ~ busy (size pool) (abs_pool pool)) :
  exists d' c' i, handle myid uniqueIDs d (CfgRequest k) = Ok d' /\ conns d' !! k = Some c' /\
    has_lease c' = true /\ 0 <= i < size pool /\ client_addr c' = index_addr pool i.
Proof.
  destruct (reach_ok myid uniqueIDs n d Hr ltac:(lia)) as [Hn0 Hd]. destruct He as (c0&p0&Hk0&[_ Hpeer]&_).
  assert (c0 = c) as -> by congruence. pose proof (dk_pools _ _ _ Hd p pool Hp) as Hpo.
  pose proof (refcnt_room myid n _ p pool Hpo Hn) as Hb.
  pose proof (lease_an_address_spec myid uniqueIDs (peer_ok myid) (peer_same myid) pool c
    (pk_wf _ _ _ _ _ Hpo) Hpeer Hb) as Hs.
  unfold handle. rewrite Hk. cbn [defined]. rewrite bind_Ok. unfold ikev2_cp_reply_state, lease_for.
  rewrite Hc. cbn [defined]. rewrite bind_Ok, Hp. cbn [defined]. rewrite bind_Ok.
  destruct (lease_an_address myid uniqueIDs pool c) as [[ipa pool']|e|]; [|by destruct Hs as (_&?&_)|by destruct Hs].
  destruct Hs as (_&_&i&Hi&->&_). rewrite !bind_Ok. do 2 eexists. exists i. split; [reflexivity|].
  cbn [conns]. rewrite lookup_insert_eq. done.
Qed.

End Reachable.

(** * Single operations *)

Section Operations.
Context (myid : id) (uniqueIDs : bool).

(** The lease that [share_lease] finds. *)
Definition first_match (m : apool) (who : id) (i : Z) : Prop :=
  (exists w n, m !! i = Some (w, n) /\ same_id myid w who = Ok true) /\ stranger_below myid i m who.

Lemma first_match_unique m who i j : first_match m who i -> first_match m who j -> i = j.
Proof.
  intros [(w&n&Hw&Hs) Hb] [(w'&n'&Hw'&Hs') Hb']. destruct (Z.lt_trichotomy i j) as [Hl|[He|Hl]]; [|done|].
  - rewrite (Hb' i w n Hl Hw) in Hs. congruence.
  - rewrite (Hb j w' n' Hl Hw') in Hs'. congruence.
Qed.

(** Counting up or down leaves the match where it is. *)
Lemma first_match_count m who i w n n' :
  m !! i = Some (w, n) -> first_match m who i -> first_match (<[i := (w, n')]> m) who i.
Proof.
  intros Hi [(w0&n0&H0&Hs) Hb]. split.
  - exists w, n'. rewrite lookup_insert_eq. split; [done|]. congruence.
  - intros j x k Hj. rewrite lookup_insert_ne by lia. by apply Hb.
Qed.

Lemma leased_first_match sz who m i m' :
  peer_ok myid who -> leased myid true sz who m i m' ->
  first_match m' who i /\ forall j, first_match m who j -> j = i.
Proof.
  intros Hp [w n _ Hw Hs Hb|Hst Hf].
  - assert (Hm : first_match m who i) by (split; [by exists w, n|done]).
    split; [by apply (first_match_count _ _ _ w n)|]. intros j Hj. by apply (first_match_unique m who).
  - specialize (Hst eq_refl). split.
    + split.
      * exists who, 1. rewrite lookup_insert_eq. split; [done|]. by apply peer_same_refl.
      * intros j w n Hj. rewrite lookup_insert_ne by lia. apply Hst.
    + intros j [(w&n&Hw&Hs) _]. rewrite (Hst j w n Hw) in Hs. congruence.
Qed.

Lemma leased_counts pool share sz who i m' :
  wf_pool (peer_ok myid) pool -> leased myid share sz who (abs_pool pool) i m' ->
  exists w n, m' !! i = Some (w, n) /\ 0 < n /\
    (n = 1 \/ exists n0, abs_pool pool !! i = Some (w, n0) /\ n = n0 + 1) /\
    forall j, j <> i -> m' !! j = abs_pool pool !! j.
Proof.
  intros Hw [w n _ H0 _ _|_ _]; do 2 eexists; rewrite lookup_insert_eq; split; try reflexivity.
  - pose proof (abs_nonneg _ _ _ _ _ Hw H0). split; [lia|]. split; [right; by exists n|].
    intros j Hj. by rewrite lookup_insert_ne.
  - split; [lia|]. split; [by left|]. intros j Hj. by rewrite lookup_insert_ne.
Qed.

(** A peer that gives its address back and asks again gets the same address, as long as
    nobody came in between. *)
Theorem lease_again_same_address (now : Z) (pool pool1 pool2 : ip_pool) (c c2 : connection)
  (ipa : ip_address) (Hw : wf_pool (peer_ok myid) pool) (Hpeer : peer_ok myid (that_id c))
  (Hb : forall i w m, abs_pool pool !! i = Some (w, m) -> m + 1 < 2 ^ 32)
  (Hsh : could_share_lease uniqueIDs c = true)
  (Hlease : lease_an_address myid uniqueIDs pool c = Ok (ipa, pool1))
  (Hrel : rel_lease_addr uniqueIDs now pool1 (leased_conn c ipa) = Ok (pool2, c2)) :
  exists pool3, lease_an_address myid uniqueIDs pool2 c2 = Ok (ipa, pool3).
Proof.
  pose proof (lease_an_address_spec myid uniqueIDs _ (peer_same myid) pool c Hw Hpeer (abs_room _ _ Hw Hb)) as Hs.
  rewrite Hlease, Hsh in Hs. destruct Hs as (Hw1&Hr1&i&Hi&->&Hle&_).
  destruct (leased_first_match _ _ _ _ _ Hpeer Hle) as [Hfm _].
  destruct (leased_counts _ _ _ _ _ _ Hw Hle) as (w&n&Hn&Hpos&Hcount&Hother).
  destruct (index_addr_value _ pool i Hw Hi) as (Hv4&Hv&_).
  set (c1 := leased_conn c (index_addr pool i)) in *.
  assert (Hsh1 : could_share_lease uniqueIDs c1 = true) by exact Hsh.
  destruct (rel_lease_addr_spec uniqueIDs (peer_ok myid) now pool1 c1 i w n)
    as (pool2'&Hrel'&Hw2&Hr2&_&Habs2); [done|done|done|by rewrite Hr1|done|lia|congruence|].
  rewrite Hrel in Hrel'. injection Hrel' as <- ->. rewrite Hsh1 in Habs2.
  pose proof (first_match_count _ _ _ w n (n - 1) Hn Hfm) as Hfm2. rewrite <- Habs2 in Hfm2.
  assert (Hb2 : forall j x m, abs_pool pool2 !! j = Some (x, m) -> m + 1 < 2 ^ 32).
  { intros j x m. rewrite Habs2. intros [[-> [= <- <-]]|[Hne Hj]]%lookup_insert_Some.
    - destruct Hcount as [-> |(m0&H0&->)]; [lia|]. pose proof (Hb _ _ _ H0). lia.
    - apply (Hb j x). by rewrite <- (Hother j) by done. }
  pose proof (lease_an_address_spec myid uniqueIDs _ (peer_same myid) pool2 (set_has_lease c1 false) Hw2 Hpeer
    (abs_room _ _ Hw2 Hb2)) as Hs.
  change (could_share_lease uniqueIDs (set_has_lease c1 false)) with (could_share_lease uniqueIDs c1) in Hs.
  destruct Hfm2 as [(w2&n2&Hn2&Hs2) Hsb2].
  destruct (lease_an_address myid uniqueIDs pool2 _) as [[ipb pool3]|e|].
  - destruct Hs as (_&_&j&Hj&->&Hle2&_). rewrite Hsh1 in Hle2. exists pool3. do 2 f_equal.
    destruct (leased_first_match _ _ _ _ _ Hpeer Hle2) as [_ Hu]. rewrite (Hu i); [|split; [by exists w2, n2|done]].
    unfold index_addr. by rewrite Hr2, Hr1.
  - destruct Hs as (_&_&Hst). specialize (Hst Hsh1 i w2 n2 Hn2). cbn in Hst. congruence.
  - destruct Hs as (_&_&Hst). specialize (Hst Hsh1 i w2 n2 Hn2). cbn in Hst. congruence.
Qed.

(** In a full pool the scan passes all leases. *)
Lemma full_run pool :
  wf_pool (peer_ok myid) pool -> full (size pool) (abs_pool pool) ->
  Z.of_nat (run 0 (leases pool)) = size pool /\ take (run 0 (leases pool)) (leases pool) = leases pool.
Proof.
  intros Hw Hf. pose proof (lease_bounds _ pool Hw) as Hb. rewrite Forall_forall in Hb.
  destruct (run_spec (leases pool) 0) as (l1&l2&Hl&Hlen&Hin&H1&H2).
  { apply Hw. }
  { apply Forall_forall. intros l Hl. by apply Hb. }
  rewrite Forall_forall in H1, H2. set (k := run 0 (leases pool)) in *.
  assert (size pool <= Z.of_nat k).
  { destruct (Z.le_gt_cases (size pool) (Z.of_nat k)) as [|Hlt]; [done|].
    destruct (Hf (Z.of_nat k) ltac:(lia)) as [[w m] Hk]. apply abs_lookup in Hk as (l&Hlin&Hi&_); [|apply Hw].
    rewrite Hl in Hlin. apply elem_of_app in Hlin as [Hx|Hx]; [specialize (H1 l Hx)|specialize (H2 l Hx)]; lia. }
  assert (l2 = []) as ->.
  { destruct l2 as [|l l2]; [done|]. specialize (H2 l ltac:(left)). specialize (Hb l ltac:(rewrite Hl; set_solver)). lia. }
  rewrite app_nil_r in Hl. split; [|rewrite Hl, <- Hlen; apply firstn_all].
  pose proof (leases_length _ pool Hw). rewrite Hl in *. rewrite Hlen in *. lia.
Qed.

(** A newcomer to a full pool takes over the address that was given back last: of all
    lingering leases it gets the one that began to linger latest, not the longest lingerer
    that the code means to remember. *)
Theorem lease_takes_latest_lingerer (pool pool' : ip_pool) (c : connection) (ipa : ip_address)
  (Hw : wf_pool (peer_ok myid) pool) (Hpeer : peer_ok myid (that_id c))
  (Hf : full (size pool) (abs_pool pool)) (Hst : stranger myid (abs_pool pool) (that_id c))
  (Hb : forall i w m, abs_pool pool !! i = Some (w, m) -> m + 1 < 2 ^ 32)
  (Hlease : lease_an_address myid uniqueIDs pool c = Ok (ipa, pool')) :
  exists l, l ∈ leases pool /\ refcnt l = 0 /\ ipa = index_addr pool (index l) /\
    Forall (fun l' => refcnt l' = 0 -> lingering_since l' <= lingering_since l) (leases pool).
Proof.
  unfold lease_an_address in Hlease.
  destruct (share_lease_spec myid uniqueIDs _ (peer_same myid) pool c Hw Hpeer (abs_room _ _ Hw Hb))
    as [(i&w&n&p'&_&_&Hi&Hs&_)|[Hs _]].
  { rewrite (Hst i w n Hi) in Hs. congruence. }
  rewrite Hs, bind_Ok in Hlease. destruct (full_run pool Hw Hf) as [Hrun Htake].
  pose proof (range_size _ pool Hw). unfold new_lease in Hlease.
  rewrite (lease_scan_run (size pool)), bind_Ok, Htake in Hlease; [|lia|lia|apply Hw|by apply (lease_bounds (peer_ok myid))].
  rewrite Z.add_0_l, Hrun, Z.ltb_irrefl in Hlease.
  pose proof (pick_spec (leases pool) [] None ltac:(constructor)) as Hp. cbn [length app] in Hp.
  destruct (pick (leases pool) 0 None) as [[k l]|].
  2:{ destruct (size pool =? used pool); cbn in Hlease; discriminate. }
  destruct Hp as (Hr0&Hk&Hall). apply list_elem_of_lookup_2 in Hk. rewrite bind_Ok in Hlease.
  exists l. split; [done|]. split; [done|]. split; [|done].
  pose proof (lease_bounds _ pool Hw) as Hlb. rewrite Forall_forall in Hlb.
  destruct (index_addr_value _ pool (index l) Hw (Hlb l Hk)) as (_&_&Hu).
  cbn [r set_leases set_lingering] in Hlease. rewrite Hu in Hlease. apply bind_ok in Hlease as (a&Ha&He).
  injection He as <- _. unfold initaddr in Ha. cbn in Ha. by injection Ha as <-.
Qed.

(** [could_share_lease] is meant to leave [ID_NONE] out; as written it does not, and the
    wildcard is the same as anybody.  A peer without an identity is given the address of the
    first lease in the pool, whoever holds it. *)
Theorem lease_none_gets_first (pool : ip_pool) (c : connection) (l : lease_addr) (rest : list lease_addr)
  (Hw : wf_pool (peer_ok myid) pool) (Hk : kind (that_id c) = ID_NONE) (Hl : leases pool = l :: rest) :
  exists pool', lease_an_address myid uniqueIDs pool c = Ok (index_addr pool (index l), pool') /\
    leases pool' = set_refcnt l (refcnt l + 1) :: rest.
Proof.
  pose proof (lease_bounds _ pool Hw) as Hlb. rewrite Forall_forall in Hlb.
  destruct (index_addr_value _ pool (index l) Hw (Hlb l ltac:(rewrite Hl; left))) as (_&_&Hu).
  unfold lease_an_address, share_lease, could_share_lease. rewrite Hk, Hl. cbn [share_scan].
  assert (same_id myid (thatid l) (that_id c) = Ok true) as ->.
  { unfold same_id. replace (resolve_myid myid (that_id c)) with (that_id c)
      by (unfold resolve_myid; by rewrite Hk). by rewrite Hk. }
  change (negb (ID_NONE =? ID_NULL) || negb (ID_NONE =? 0) && uniqueIDs) with true. cbn [negb]. rewrite !bind_Ok.
  set (q := if refcnt l =? 0 then _ else pool).
  assert (r q = r pool /\ leases q = leases pool) as [Hr Hq] by (unfold q; by destruct (refcnt l =? 0)).
  cbn [r set_leases]. rewrite Hr, Hu. eexists. split; [reflexivity|]. cbn. by rewrite Hq, Hl.
Qed.

Lemma unreference_keys ps c ps' c' : unreference_addresspool ps c = Ok (ps', c') -> ps'.*1 `sublist_of` ps.*1.
Proof.
  unfold unreference_addresspool. intros Hu. apply bind_ok in Hu as (p&_&Hu). apply bind_ok in Hu as (pool&_&Hu).
  apply bind_ok in Hu as (?&_&Hu). inv_ok. destruct (_ =? _); [|by rewrite pool_set_keys].
  etransitivity; [apply free_keys|]. by rewrite pool_set_keys.
Qed.

Lemma find_keys x ps q : find_addresspool x ps = Ok (Some q) -> q ∈ ps.*1.
Proof.
  induction ps as [|[h y] ps IH]; cbn [find_addresspool]; [done|].
  destruct (_ && _); [intros [= ->]; left|]. destruct (if _ <? 0 then _ else _); [right; auto|done].
Qed.

(** The pool that XAUTH installs for a single user is never counted as used: when the
    connection that got it is deleted, the daemon aborts. *)
Theorem xauth_user_pool_aborts (now : Z) (ps ps' : pools) (new : nat) (x : ip_range) (c c' : connection)
  (Hnew : pool_at ps new = None) (Hx : v4_value (r_start x) <> 0)
  (Hxa : xauth_user_pool ps new x c = Ok (ps', c')) (Hc' : c_pool c' = Some new) :
  delete_connection uniqueIDs now ps' c' = Abort.
Proof.
  unfold xauth_user_pool in Hxa. rewrite (proj2 (Z.eqb_neq _ _) Hx) in Hxa.
  apply bind_ok in Hxa as ([ps1 c1]&Hun&Hin).
  assert (Hk1 : new ∉ ps1.*1).
  { apply pool_at_None in Hnew. intros Hn1. apply Hnew. destruct (c_pool c); [|by inv_ok].
    apply unreference_keys in Hun. by apply (elem_of_sublist _ _ _ Hn1 Hun). }
  unfold install_addresspool in Hin. destruct (find_addresspool x ps1) as [[q|]|e|] eqn:Ef; inv_ok; try done.
  { exfalso. cbn in Hc'. injection Hc' as ->. by apply Hk1, (find_keys x). }
  unfold delete_connection. destruct (bool_decide (_ <> CK_GOING_AWAY)); [|done]. cbn [passert]. rewrite bind_Ok.
  set (np := mk_pool 0 x _ 0 0 []). cbn [c_pool set_c_pool set_c_kind].
  assert (Hun0 : forall ps c, c_pool c = Some new -> unreference_addresspool ((new, np) :: ps) c = Abort).
  { intros ps0 c0 Hc0. unfold unreference_addresspool. rewrite Hc0. cbn [defined]. rewrite bind_Ok.
    cbn [pool_at]. by rewrite decide_True. }
  case_bool_decide; [|rewrite bind_Ok; by apply Hun0].
  cbn [pool_at]. rewrite decide_True by done. cbn [defined]. rewrite bind_Ok. unfold rel_lease_addr.
  destruct (has_lease _); cbn [negb].
  - do 2 (match goal with |- context [passert ?b] => destruct b; cbn [passert]; [rewrite bind_Ok|done] end). done.
  - rewrite !bind_Ok. cbn [c_pool set_c_pool set_c_kind]. unfold pool_set. cbn [fmap list_fmap fst].
    rewrite decide_True by done. by apply Hun0.
Qed.

End Operations.

(** * A pool of one address *)

Definition v4 (a b c d : Z) : ip_address := mk_ip AF_INET 0 [a; b; c; d].
Definition one_range : ip_range := mk_range (v4 10 0 0 1) (v4 10 0 0 1).
Definition no_range : ip_range := mk_range (mk_ip AF_UNSPEC 0 []) (mk_ip AF_UNSPEC 0 []).
Definition roadwarriors : connection := mk_conn CK_TEMPLATE None no_id (v4 0 0 0 0) false.

#[local] Existing Instance plain_nss.

(** Alice takes the address, gives it back and takes it again; then Bob asks. *)
Definition comeback : list event :=
  [Add 0 10 11 one_range no_range roadwarriors;
   Instantiate 0 1 (Some (fqdn_id "alice")); CfgRequest 1; Delete 5 1;
   Instantiate 0 1 (Some (fqdn_id "alice")); CfgRequest 1;
   Instantiate 0 2 (Some (fqdn_id "bob"))].

Definition after (es : list event) : daemon :=
  foldl (fun d e => match handle no_id true d e with Ok d' => d' | _ => d end) no_daemon es.

Lemma fqdn_peer s : peer_ok no_id (fqdn_id s).
Proof. split; [apply fqdn_good|discriminate]. Defined.

Lemma one_range_ok : wf_range one_range.
Proof.
  split; [|split; [|vm_compute; split; [reflexivity|discriminate]]];
    (split; [reflexivity|]; split; [reflexivity|]; by_decide).
Defined.

Lemma enabled_instantiate d k c s :
  conns d !! k = None -> conns d !! 0%nat = Some c -> c_kind c = CK_TEMPLATE -> that_id c = no_id ->
  enabled no_id d (Instantiate 0 k (Some (fqdn_id s))).
Proof.
  intros Hk H0 Hc Hi. split; [done|]. exists c. do 2 (split; [done|]). intros h [= <-]. right. exists 15.
  by rewrite Hi.
Defined.

Lemma enabled_request d k c s p :
  conns d !! k = Some c -> c_kind c = CK_INSTANCE -> that_id c = fqdn_id s -> c_pool c = Some p ->
  enabled no_id d (CfgRequest k).
Proof.
  intros Hk Hc Hi Hp. exists c, p. split; [done|]. split; [|done]. split; [by left|]. rewrite Hi. apply fqdn_peer.
Defined.

Lemma comeback_reach i : (i <= 7)%nat -> reach no_id true (Z.of_nat i) (after (take i comeback)).
Proof.
  assert (Hstep : forall j e, reach no_id true (Z.of_nat j) (after (take j comeback)) ->
    enabled no_id (after (take j comeback)) e ->
    handle no_id true (after (take j comeback)) e = Ok (after (take (S j) comeback)) ->
    reach no_id true (Z.of_nat (S j)) (after (take (S j) comeback))).
  { intros j e Hr He Hh. rewrite Nat2Z.inj_succ, <- Z.add_1_r. apply (reach_step _ _ _ _ e _ Hr He). by left. }
  assert (H0 : reach no_id true (Z.of_nat 0) (after (take 0 comeback))) by constructor.
  assert (H1 : reach no_id true (Z.of_nat 1) (after (take 1 comeback))).
  { apply (Hstep 0%nat (Add 0 10 11 one_range no_range roadwarriors)); [done| |vm_compute; reflexivity].
    do 3 (split; [reflexivity|]). split; [discriminate|]. split; [right; apply one_range_ok|].
    split; [by left|]. do 2 (split; [reflexivity|]). by_decide. }
  assert (H2 : reach no_id true (Z.of_nat 2) (after (take 2 comeback))).
  { eapply Hstep; [exact H1|eapply (enabled_instantiate _ 1 _ "alice")|]; vm_compute; reflexivity. }
  assert (H3 : reach no_id true (Z.of_nat 3) (after (take 3 comeback))).
  { eapply Hstep; [exact H2|eapply (enabled_request _ 1 _ "alice")|]; vm_compute; reflexivity. }
  assert (H4 : reach no_id true (Z.of_nat 4) (after (take 4 comeback))).
  { eapply (Hstep 3%nat (Delete 5 1)); [exact H3| |vm_compute; reflexivity]. by_decide. }
  assert (H5 : reach no_id true (Z.of_nat 5) (after (take 5 comeback))).
  { eapply Hstep; [exact H4|eapply (enabled_instantiate _ 1 _ "alice")|]; vm_compute; reflexivity. }
  assert (H6 : reach no_id true (Z.of_nat 6) (after (take 6 comeback))).
  { eapply Hstep; [exact H5|eapply (enabled_request _ 1 _ "alice")|]; vm_compute; reflexivity. }
  assert (H7 : reach no_id true (Z.of_nat 7) (after (take 7 comeback))).
  { eapply Hstep; [exact H6|eapply (enabled_instantiate _ 2 _ "bob")|]; vm_compute; reflexivity. }
  intros Hi. do 8 (destruct i as [|i]; [assumption|]). lia.
Defined.

(** C37: [share_lease] counts a lease that comes back from lingering as used once more, though
    [used] has counted it all along.  So the peers of a pool bring the daemon down: one of
    them leaves and returns, and when the pool is all in use the next request fails the
    assertion that [size] equals [used]. *)
Theorem comeback_aborts :
  reach no_id true 7 (after comeback) /\ enabled no_id (after comeback) (CfgRequest 2) /\
  handle no_id true (after comeback) (CfgRequest 2) = Abort.
Proof.
  split; [apply (comeback_reach 7); lia|]. split; [|vm_compute; reflexivity].
  eapply (enabled_request _ 2 _ "bob"); vm_compute; reflexivity.
Qed.

(** * Witnesses *)

(** Two connections of Alice share the address. *)
Definition sharing : list event :=
  take 3 comeback ++ [Instantiate 0 2 (Some (fqdn_id "alice")); CfgRequest 2].

Lemma sharing_reach : reach no_id true 5 (after sharing).
Proof.
  pose proof (comeback_reach 3 ltac:(lia)) as H3. change (Z.of_nat 3) with 3 in H3.
  assert (H4 : reach no_id true (3 + 1) (after (take 4 sharing))).
  { eapply (reach_step _ _ 3 _ (Instantiate 0 2 (Some (fqdn_id "alice")))); [exact H3| |left; vm_compute; reflexivity].
    eapply (enabled_instantiate _ 2 _ "alice"); vm_compute; reflexivity. }
  eapply (reach_step _ _ 4 _ (CfgRequest 2)); [exact H4| |left; vm_compute; reflexivity].
  eapply (enabled_request _ 2 _ "alice"); vm_compute; reflexivity.
Defined.



Lemma pools_abort_only_on_miscount_witness :
  exists k c p pool, CfgRequest 2 = CfgRequest k /\ conns (after comeback) !! k = Some c /\
    c_pool c = Some p /\ pool_at (d_pools (after comeback)) p = Some pool /\
    used pool <> Z.of_nat (length (leases pool)).
Proof.
  destruct (pools_abort_only_on_miscount no_id true 7 (after comeback) (CfgRequest 2)
    (comeback_reach 7 ltac:(lia)) ltac:(lia)) as (k&c&p&pool&[He|(b&x&y&He)]&Hk&Hc&Hp&_&Hu).
  - eapply (enabled_request _ 2 _ "bob"); vm_compute; reflexivity.
  - vm_compute. reflexivity.
  - exists k, c, p, pool. auto.
  - discriminate He.
Defined.

Lemma lease_served_witness :
  exists d' c' i, handle no_id true (after (take 2 comeback)) (CfgRequest 1) = Ok d' /\
    conns d' !! 1%nat = Some c' /\ has_lease c' = true /\ 0 <= i < 1.
Proof.
  destruct (lease_served no_id true 2 (after (take 2 comeback)) 1
    (mk_conn CK_INSTANCE (Some 10%nat) (fqdn_id "alice") (v4 0 0 0 0) false) 10 (mk_pool 2 one_range 1 0 0 [])
    (comeback_reach 2 ltac:(lia)) ltac:(lia)) as (d'&c'&i&H1&H2&H3&H4&_);
    try (vm_compute; reflexivity).
  - eapply (enabled_request _ 1 _ "alice"); vm_compute; reflexivity.
  - intros Hb. destruct (Hb 0 ltac:(vm_compute; split; [discriminate|reflexivity])) as (w&m&Hw&_). discriminate Hw.
  - exists d', c', i. auto.
Defined.

(** Two addresses, both lingering, Alice's for longer. *)
Definition two_range : ip_range := mk_range (v4 10 0 0 1) (v4 10 0 0 2).
Definition lingerers : ip_pool :=
  mk_pool 1 two_range 2 2 2 [mk_lease 0 (fqdn_id "alice") 0 3; mk_lease 1 (fqdn_id "bob") 0 7].
Definition carol : connection := mk_conn CK_INSTANCE (Some 10%nat) (fqdn_id "carol") (v4 0 0 0 0) false.
Definition nobody : connection := mk_conn CK_INSTANCE (Some 10%nat) no_id (v4 0 0 0 0) false.

Lemma lingerers_wf : wf_pool (peer_ok no_id) lingerers.
Proof.
  split.
  - split; [|split; [|vm_compute; split; [reflexivity|discriminate]]];
      (split; [reflexivity|]; split; [reflexivity|]; by_decide).
  - reflexivity.
  - repeat constructor.
  - repeat (apply Forall_cons; split); [| |apply Forall_nil; exact I];
      (split; [cbn; lia|]; split; [cbn; lia|apply fqdn_peer]).
  - reflexivity.
Defined.

Lemma lingerers_lookup i w m : abs_pool lingerers !! i = Some (w, m) ->
  (w = fqdn_id "alice" \/ w = fqdn_id "bob") /\ m = 0.
Proof.
  intros Hi. apply abs_lookup in Hi as (l&Hl&_&[= -> ->]); [|apply lingerers_wf].
  apply elem_of_cons in Hl as [->|[->|Hl]%elem_of_cons]; [auto|auto|]. by apply elem_of_nil in Hl.
Qed.

Lemma lease_again_same_address_witness :
  exists ipa pool1 pool2 c2, lease_an_address no_id true lingerers carol = Ok (ipa, pool1) /\
    rel_lease_addr true 9 pool1 (leased_conn carol ipa) = Ok (pool2, c2) /\
    exists pool3, lease_an_address no_id true pool2 c2 = Ok (ipa, pool3).
Proof.
  do 4 eexists. split; [vm_compute; reflexivity|]. split; [vm_compute; reflexivity|].
  refine (lease_again_same_address no_id true 9 lingerers _ _ carol _ _ lingerers_wf (fqdn_peer "carol") _ _ _ _).
  - intros i w m Hi. apply lingerers_lookup in Hi as [_ ->]. lia.
  - reflexivity.
  - vm_compute. reflexivity.
  - vm_compute. reflexivity.
Defined.

Lemma lease_takes_latest_lingerer_witness :
  exists pool', lease_an_address no_id true lingerers carol = Ok (v4 10 0 0 2, pool') /\
  exists l, l ∈ leases lingerers /\ v4 10 0 0 2 = index_addr lingerers (index l).
Proof.
  eexists. split; [vm_compute; reflexivity|].
  destruct (lease_takes_latest_lingerer no_id true lingerers
    (mk_pool 1 two_range 2 2 1 [mk_lease 0 (fqdn_id "alice") 0 3; mk_lease 1 (fqdn_id "carol") 1 7])
    carol (v4 10 0 0 2) lingerers_wf (fqdn_peer "carol")) as (l&H1&_&H2&_).
  - intros j Hj. assert (j = 0 \/ j = 1) as [-> | ->] by (cbn in Hj; lia); by_decide.
  - intros j w m Hj. by apply lingerers_lookup in Hj as [[-> | ->] _].
  - intros i w m Hi. apply lingerers_lookup in Hi as [_ ->]. lia.
  - vm_compute. reflexivity.
  - exists l. auto.
Defined.

Lemma lease_none_gets_first_witness :
  exists pool', lease_an_address no_id true lingerers nobody = Ok (index_addr lingerers 0, pool').
Proof.
  destruct (lease_none_gets_first no_id true lingerers nobody (mk_lease 0 (fqdn_id "alice") 0 3)
    [mk_lease 1 (fqdn_id "bob") 0 7] lingerers_wf) as (pool'&H1&_); [reflexivity|reflexivity|].
  by exists pool'.
Defined.

Lemma xauth_user_pool_aborts_witness :
  exists ps' c', xauth_user_pool [] 10 one_range (mk_conn CK_INSTANCE None (fqdn_id "carol") (v4 0 0 0 0) false)
      = Ok (ps', c') /\ delete_connection true 0 ps' c' = Abort.
Proof.
  do 2 eexists. split; [vm_compute; reflexivity|].
  eapply (xauth_user_pool_aborts true 0 [] _ 10 one_range
    (mk_conn CK_INSTANCE None (fqdn_id "carol") (v4 0 0 0 0) false)); try (vm_compute; reflexivity).
  vm_compute. discriminate.
Defined.
