(* ===== verification/TrafficSelector.v ===== *)
(** IKEv2 traffic selectors: what pluto offers for a connection, how it weighs the selectors of
    the peer, and what it installs (programs/pluto/ikev2_child.c, the check of the responder's
    selectors in ikev2_parent.c, find_host_pair of hostpair.c, trusted_ca_nss of x509.c).

    The lists of selectors are those that [ikev2_parse_ts] found; [None] is its -1. *)
From S2P Require Import Prelude Numbers Address AddressText Subnet X509dn Id IdMatch AddressPool Stf.

Definition IKEv2_TS_IPV4_ADDR_RANGE : Z := 7.
Definition IKEv2_TS_IPV6_ADDR_RANGE : Z := 8.

Record traffic_selector := mk_ts {
  ts_type : Z;
  ipprotoid : Z;
  startport : Z;
  endport : Z;
  net : ip_range
}.

(** What the negotiation uses of [struct end], [struct spd_route] and [struct connection]. *)
Record spd_end := mk_end {
  e_id : id;
  e_host_addr : ip_address;
  e_host_port : Z;
  e_client : ip_subnet;
  e_has_client : bool;
  e_has_port_wildcard : bool;
  e_port : Z;
  e_protocol : Z;
  e_ca : option (list Z)
}.

Record spd_route := mk_spd {
  this : spd_end;
  that : spd_end
}.

(** The routes are [c->spd] and those that [spd_next] leads to. *)
Record ts_conn := mk_tconn {
  tc_kind : connection_kind;
  tc_policy : Z;
  tc_spd : spd_route;
  tc_spd_next : list spd_route
}.

#[export] Instance traffic_selector_eq_dec : EqDecision traffic_selector.
Proof. solve_decision. Defined.
#[export] Instance spd_end_eq_dec : EqDecision spd_end.
Proof. solve_decision. Defined.
#[export] Instance spd_route_eq_dec : EqDecision spd_route.
Proof. solve_decision. Defined.
#[export] Instance ts_conn_eq_dec : EqDecision ts_conn.
Proof. solve_decision. Defined.

Definition spds (c : ts_conn) : list spd_route := tc_spd c :: tc_spd_next c.

Definition POLICY_GROUP : Z := Z.shiftl 1 17.
Definition POLICY_IKEV2_ALLOW_NARROWING : Z := Z.shiftl 1 28.

(** * Offering *)

(** The four 32-bit words of an IPv6 address. *)
Fixpoint words6 (n : nat) (bytes : list Z) : list Z :=
  match n with
  | O => []
  | S n' => be_decode (take 4 bytes) :: words6 n' (drop 4 bytes)
  end.
Definition bytes6 (ws : list Z) : list Z := concat (be_encode 4 <$> ws).

Definition with_bytes (a : ip_address) (bytes : list Z) : ip_address :=
  mk_ip (sin_family a) (sin_port a) bytes.

(** The first and the last address under a mask, word by word. *)
Definition range_words (mask ws : list Z) : list Z * list Z :=
  (zip_with Z.land ws mask, zip_with (fun w m => Z.lor w (u32 (Z.lnot m))) ws mask).

(** [subnet => range]; [garbage] is what the mask of [bitstomask6] holds before it is set. *)
Definition client_range (garbage : list Z) (a : ip_address) (maskbits : Z) : Z * ip_range :=
  if sin_family a =? AF_INET then
    let '(lo, hi) := range_words [bitstomask maskbits] [be_decode (sin_addr a)] in
    (IKEv2_TS_IPV4_ADDR_RANGE, mk_range (with_bytes a (bytes6 lo)) (with_bytes a (bytes6 hi)))
  else if sin_family a =? AF_INET6 then
    let '(lo, hi) := range_words (bitstomask6 garbage maskbits) (words6 4 (sin_addr a)) in
    (IKEv2_TS_IPV6_ADDR_RANGE, mk_range (with_bytes a (bytes6 lo)) (with_bytes a (bytes6 hi)))
  else (0, mk_range a a).

Definition ikev2_end_to_ts (garbage : list Z) (e : spd_end) : traffic_selector :=
  let '(type, range) := client_range garbage (addr (e_client e)) (maskbits (e_client e)) in
  let '(lo, hi) := if (e_port e =? 0) || e_has_port_wildcard e then (0, 65535) else (e_port e, e_port e) in
  mk_ts type (e_protocol e) lo hi range.

(** * Weighing *)

Definition ikev2_match_protocol (proto ts_proto : Z) (superset_ok subset_ok : bool) : Z :=
  if proto =? ts_proto then 255
  else if superset_ok && (ts_proto =? 0) then 1
  else if subset_ok && (proto =? 0) then 1
  else 0.

Definition ikev2_match_port_range (port : Z) (ts : traffic_selector) (superset_ok subset_ok : bool) : Z :=
  let low := port in
  let high := if port =? 0 then 65535 else port in
  if endport ts <? startport ts then 0
  else if (startport ts =? low) && (endport ts =? high) then 1 + (high - low)
  else if superset_ok && (startport ts <=? low) && (high <=? endport ts) then 1 + (high - low)
  else if subset_ok && (low <=? startport ts) && (endport ts <=? high)
  then 1 + (endport ts - startport ts)
  else 0.

(** The best weight so far, and [*best_tsi_i] and [*best_tsr_i]. *)
Abbreviation best := (Z * (Z * Z))%type.

(** The two loops of the port and protocol fits, for weights [wi] and [wr] of one selector
    each; 0 means that it does not match. *)
Fixpoint fit_tsr (wr : traffic_selector -> Z) (fi i j : Z) (tsr : list traffic_selector) (b : best) : best :=
  match tsr with
  | [] => b
  | t :: tsr' =>
      let fr := wr t in
      fit_tsr wr fi i (j + 1) tsr'
        (if fr =? 0 then b else if fst b <? fi + fr then (fi + fr, (i, j)) else b)
  end.

Fixpoint fit_tsi (wi wr : traffic_selector -> Z) (i : Z) (tsi tsr : list traffic_selector) (b : best) : best :=
  match tsi with
  | [] => b
  | t :: tsi' =>
      let fi := wi t in
      fit_tsi wi wr (i + 1) tsi' tsr (if fi =? 0 then b else fit_tsr wr fi i 0 tsr b)
  end.

Definition ends (sr : spd_route) (role : original_role) : spd_end * spd_end :=
  if is_initiator role then (this sr, that sr) else (that sr, this sr).

Section Fit.
Context (d : ts_conn) (sr : spd_route) (role : original_role) (tsi tsr : list traffic_selector).

Definition narrowing : bool := negb (Z.land (tc_policy d) POLICY_IKEV2_ALLOW_NARROWING =? 0).
Definition superset_ok : bool := negb (is_initiator role) && narrowing.
Definition subset_ok : bool := is_initiator role && narrowing.

Definition ikev2_evaluate_connection_protocol_fit (best_i : Z * Z) : best :=
  let '(ei, er) := ends sr role in
  fit_tsi (fun t => ikev2_match_protocol (e_protocol ei) (ipprotoid t) superset_ok subset_ok)
          (fun t => ikev2_match_protocol (e_protocol er) (ipprotoid t) superset_ok subset_ok)
          0 tsi tsr (-1, best_i).

Definition ikev2_evaluate_connection_port_fit (best_i : Z * Z) : best :=
  let '(ei, er) := ends sr role in
  fit_tsi (fun t => ikev2_match_port_range (e_port ei) t superset_ok subset_ok)
          (fun t => ikev2_match_port_range (e_port er) t superset_ok subset_ok)
          0 tsi tsr (-1, best_i).

(** Short-circuit conjunction. *)
Definition andm (a b : outcome string bool) : outcome string bool :=
  x ← a; if x : bool then b else Ok false.

(** The weight of one pair of selectors whose addresses fit into the policy. *)
Definition pair_fit (ei er : spd_end) (ti tr : traffic_selector) : outcome string (option Z) :=
  ok ← andm (addrinsubnet (r_start (net ti)) (e_client ei))
      (andm (addrinsubnet (r_end (net ti)) (e_client ei))
      (andm (addrinsubnet (r_start (net tr)) (e_client er))
            (addrinsubnet (r_end (net tr)) (e_client er))));
  if negb ok then Ok None
  else
    ts_range1 ← iprange_bits (r_start (net ti)) (r_end (net ti));
    let fitbits1 := maskbits (e_client ei) + ts_range1 in
    ts_range2 ← iprange_bits (r_start (net tr)) (r_end (net tr));
    let fitbits2 := maskbits (e_client er) + ts_range2 in
    let fitbits := Z.shiftl fitbits1 8 + fitbits2 in
    let fitbits :=
      if negb (e_port ei =? 0) && (startport ti =? e_port ei) && (endport ti =? e_port ei)
      then Z.shiftl fitbits 1 else fitbits in
    let fitbits :=
      if negb (e_port er =? 0) && (startport tr =? e_port er) && (endport tr =? e_port er)
      then Z.shiftl fitbits 1 else fitbits in
    Ok (Some fitbits).

Fixpoint pairs_fit (ei er : spd_end) (pairs : list (traffic_selector * traffic_selector)) (bestfit : Z) :
  outcome string Z :=
  match pairs with
  | [] => Ok bestfit
  | (ti, tr) :: pairs' =>
      f ← pair_fit ei er ti tr;
      pairs_fit ei er pairs'
        (match f with Some fitbits => if bestfit <? fitbits then fitbits else bestfit | None => bestfit end)
  end.

(** Every selector of [tsi] with every one of [tsr], in the order of the nested loops. *)
Definition all_pairs : list (traffic_selector * traffic_selector) :=
  ti ← tsi; tr ← tsr; [(ti, tr)].

Definition ikev2_evaluate_connection_fit : outcome string Z :=
  let '(ei, er) := ends sr role in pairs_fit ei er all_pairs (-1).

End Fit.

(** * Trying a route *)

(** The variables of the search: [bestfit_n], [bestfit_p], the best indices, and the best
    connection and route so far. [bestfit_pr] keeps its first value, -1. *)
Record search := mk_search {
  s_n : Z;
  s_p : Z;
  s_best : Z * Z;
  s_found : option (ts_conn * spd_route)
}.

Definition no_match : search := mk_search (-1) (-1) (-1, -1) None.

(** One pass of a search loop: the addresses are weighed on route [sr], ports and protocols on
    route [srp]; the indices move even if the route is then rejected. *)
Definition try_route (role : original_role) (tsi tsr : list traffic_selector)
    (d : ts_conn) (sr srp : spd_route) (s : search) : outcome string search :=
  bfit_n ← ikev2_evaluate_connection_fit sr role tsi tsr;
  if s_n s <? bfit_n then
    let '(bfit_p, best_i) := ikev2_evaluate_connection_port_fit d srp role tsi tsr (s_best s) in
    if s_p s <? bfit_p then
      let '(bfit_pr, best_i) := ikev2_evaluate_connection_protocol_fit d srp role tsi tsr best_i in
      if -1 <? bfit_pr then Ok (mk_search bfit_n bfit_p best_i (Some (d, sr)))
      else Ok (mk_search (s_n s) (s_p s) best_i (s_found s))
    else Ok (mk_search (s_n s) (s_p s) best_i (s_found s))
  else Ok s.

(** * The initiator *)

(** [setportof(htons(port), &a)] *)
Definition narrowed_end (e : spd_end) (client : ip_subnet) (ts : traffic_selector) : outcome string spd_end :=
  let port := startport ts in
  let host_addr := setportof port (e_host_addr e) in
  let client := mk_subnet (setportof port (addr client)) (maskbits client) in
  inside ← (if subnetishost client then addrinsubnet host_addr client else Ok false);
  Ok (mk_end (e_id e) host_addr (e_host_port e) client (negb inside) (e_has_port_wildcard e)
        port (ipprotoid ts) (e_ca e)).

(** [rangetosubnet(from, to, &tmp)] with its result ignored: after an error [tmp] is still the
    [garbage] of the stack. *)
Definition tmp_subnet (garbage : ip_subnet) (x : ip_range) : outcome string ip_subnet :=
  match rangetosubnet (r_start x) (r_end x) with
  | Ok s => Ok s
  | Ugh _ => Ok garbage
  | Abort => Abort
  end.

(** The selectors and the route that the TS block of [ikev2_process_ts_and_rest] leaves in the
    state and in the connection. *)
Definition ikev2_process_ts (garbage_i garbage_r : ip_subnet) (c : ts_conn)
    (tsi tsr : option (list traffic_selector)) :
  outcome string (traffic_selector * traffic_selector * spd_route) :=
  match tsi, tsr with
  | Some tsi, Some tsr =>
      s ← try_route ORIGINAL_INITIATOR tsi tsr c (tc_spd c) (tc_spd c) no_match;
      if (0 <? s_n s) && (0 <? s_p s) then
        st_ts_this ← defined (tsi !! Z.to_nat (fst (s_best s)));
        st_ts_that ← defined (tsr !! Z.to_nat (snd (s_best s)));
        tmp_subnet_i ← tmp_subnet garbage_i (net st_ts_this);
        tmp_subnet_r ← tmp_subnet garbage_r (net st_ts_that);
        new_this ← narrowed_end (this (tc_spd c)) tmp_subnet_i st_ts_this;
        new_that ← narrowed_end (that (tc_spd c)) tmp_subnet_r st_ts_that;
        Ok (st_ts_this, st_ts_that, mk_spd new_this new_that)
      else Ugh "v2N_TS_UNACCEPTABLE"
  | _, _ => Ugh "v2N_TS_UNACCEPTABLE"
  end.

(** * The responder *)

Record host_pair := mk_hp {
  me_addr : ip_address;
  me_port : option Z;
  him_addr : ip_address;
  him_port : option Z;
  hp_connections : list ts_conn
}.

(** A pair whose port is not specific ([None]) takes any. *)
Definition port_matches (p : option Z) (port : Z) : bool :=
  match p with Some q => q =? port | None => true end.

Section Responder.
Context `{Nss}.
(** [pluto_port], [pluto_nat_port], our own identity, and the certificate database: whether
    there is one, and whether a CA is a root and who issued it. *)
Context (pluto_port pluto_nat_port : Z) (myid : id).
Context (CERT_GetDefaultCertDB : bool) (CERT_FindCertByName : list Z -> option (bool * list Z)).

Definition hp_matches (myaddr : ip_address) (myport : Z) (hisaddr : ip_address) (hisport : Z) (p : host_pair) : bool :=
  sameaddr (me_addr p) myaddr && port_matches (me_port p) myport &&
  sameaddr (him_addr p) hisaddr && port_matches (him_port p) hisport.

(** An instance with ID_NULL at the head of the pair's connections hides the pair. *)
Definition hp_ignored (p : host_pair) : bool :=
  match hp_connections p with
  | c :: _ => bool_decide (tc_kind c = CK_INSTANCE) && (kind (e_id (that (tc_spd c))) =? ID_NULL)
  | [] => false
  end.

(** The pair, and the list with the pair moved to its front. *)
Definition find_host_pair (myaddr : ip_address) (myport : Z) (hisaddr : ip_address) (hisport : Z)
    (host_pairs : list host_pair) : option host_pair * list host_pair :=
  let norm port := if port =? pluto_nat_port then pluto_port else port in
  let fits p := negb (hp_ignored p) && hp_matches myaddr (norm myport) hisaddr (norm hisport) p in
  match list_find (fun p => fits p = true) host_pairs with
  | None => (None, host_pairs)
  | Some (i, p) => (Some p, p :: delete i host_pairs)
  end.

Definition MAX_CA_PATH_LEN : nat := 7.

(** The walk up the chain of CAs. *)
Fixpoint ca_chain (fuel : nat) (a b : list Z) : outcome string bool :=
  match fuel with
  | O => Ok false
  | S fuel' =>
      match CERT_FindCertByName a with
      | None | Some (true, _) => Ok false
      | Some (false, i_dn) =>
          m ← same_dn_any_order i_dn b;
          if m : bool then Ok true else ca_chain fuel' i_dn b
      end
  end.

Definition trusted_ca_nss (a b : option (list Z)) : outcome string bool :=
  _ ← dntoa ASN1_BUF_LEN a;
  _ ← dntoa ASN1_BUF_LEN b;
  match b, a with
  | None, _ => Ok true
  | Some _, None => Ok false
  | Some b, Some a =>
      m ← same_dn_any_order a b;
      if m : bool then Ok true
      else if negb CERT_GetDefaultCertDB then Ok false
      else ca_chain MAX_CA_PATH_LEN a b
  end.

(** Whether connection [d] of the host pair may stand in for [c]. *)
Definition eligible (c d : ts_conn) : outcome string bool :=
  if negb (Z.land (tc_policy d) POLICY_GROUP =? 0) then Ok false
  else
    andm (same_id myid (e_id (this (tc_spd c))) (e_id (this (tc_spd d))))
    (andm ('(m, _) ← match_id myid (e_id (that (tc_spd c))) (e_id (that (tc_spd d))); Ok m)
          (trusted_ca_nss (e_ca (that (tc_spd c))) (e_ca (that (tc_spd d))))).

Section Search.
Context (role : original_role) (tsi tsr : list traffic_selector) (c : ts_conn).

(** The routes [srs] of [d]; [srp] is the route whose ports and protocols are weighed. *)
Fixpoint try_routes (d : ts_conn) (srp : spd_route -> spd_route) (srs : list spd_route) (s : search) :
  outcome string search :=
  match srs with
  | [] => Ok s
  | sr :: srs' => s' ← try_route role tsi tsr d sr (srp sr) s; try_routes d srp srs' s'
  end.

(** The connections of a host pair that was found for the route [sra] of [c]: their ports and
    protocols are taken from [sra]. *)
Fixpoint try_connections (sra : spd_route) (ds : list ts_conn) (s : search) : outcome string search :=
  match ds with
  | [] => Ok s
  | d :: ds' =>
      ok ← eligible c d;
      s' ← (if ok : bool then try_routes d (fun _ => sra) (spds d) s else Ok s);
      try_connections sra ds' s'
  end.

(** Only the first host pair that is found is looked at. *)
Fixpoint try_host_pairs (sras : list spd_route) (host_pairs : list host_pair) (s : search) :
  outcome string (search * list host_pair) :=
  match sras with
  | [] => Ok (s, host_pairs)
  | sra :: sras' =>
      match find_host_pair (e_host_addr (this sra)) (e_host_port (this sra))
              (e_host_addr (that sra)) (e_host_port (that sra)) host_pairs with
      | (None, host_pairs) => try_host_pairs sras' host_pairs s
      | (Some hp, host_pairs) => s' ← try_connections sra (hp_connections hp) s; Ok (s', host_pairs)
      end
  end.

End Search.

(** The child state: whether it is a new one, its connection, and its selectors. *)
Record child := mk_child {
  cst_new : bool;
  st_connection : ts_conn;
  st_ts_this : traffic_selector;
  st_ts_that : traffic_selector
}.

Definition ikev2_resp_accept_child_ts (garbage_i garbage_r : list Z) (host_pairs : list host_pair)
    (c : ts_conn) (role : original_role) (create_child_sa : bool) (tsi tsr : option (list traffic_selector)) :
  outcome string (child * list host_pair) :=
  match tsi, tsr with
  | Some tsi, Some tsr =>
      s ← try_routes role tsi tsr c (fun sr => sr) (spds c) no_match;
      '(s, host_pairs) ← try_host_pairs role tsi tsr c (spds c) host_pairs s;
      match s_found s with
      | None => Ugh (if is_initiator role then "STF_FAIL" else "v2N_NO_PROPOSAL_CHOSEN")
      | Some (b, bsr) =>
          '(t1, t2) ←
            (if is_initiator role then
               t1 ← defined (tsi !! Z.to_nat (fst (s_best s)));
               t2 ← defined (tsr !! Z.to_nat (snd (s_best s)));
               Ok (t1, t2)
             else Ok (ikev2_end_to_ts garbage_i (this bsr), ikev2_end_to_ts garbage_r (that bsr)));
          Ok (mk_child (negb create_child_sa) b t1 t2, host_pairs)
      end
  | _, _ => Ugh "v2N_TS_UNACCEPTABLE"
  end.

End Responder.
