(* ===== verification/TrafficTheorems.v ===== *)
(** What the traffic selector negotiation of [TrafficSelector] guarantees, and where it does
    not keep to the policy. *)
From S2P Require Import Prelude Numbers Address AddressText Subnet SubnetTheorems X509dn Id IdMatch AddressPool TrafficSelector Stf.

(** * Offers *)

(** The number that a list of 32-bit words stands for. *)
Fixpoint words_value (ws : list Z) : Z :=
  match ws with [] => 0 | w :: ws' => w * 2 ^ (32 * Z.of_nat (length ws')) + words_value ws' end.

Definition wordZ (w : Z) : Prop := 0 <= w < 2 ^ 32.

(** The mask words of [len] words with [H] host bits. *)
Fixpoint host_masks (len : nat) (H : Z) : list Z :=
  match len with
  | O => []
  | S len' =>
      let L := 32 * Z.of_nat len' in
      (2 ^ 32 - 2 ^ Z.max 0 (H - L)) :: host_masks len' (Z.min H L)
  end.

Lemma words_value_bound ws : Forall wordZ ws -> 0 <= words_value ws < 2 ^ (32 * Z.of_nat (length ws)).
Proof.
  induction 1 as [|w ws Hw _ IH]; [cbn; lia|]. cbn [words_value length]. unfold wordZ in Hw.
  replace (32 * Z.of_nat (S (length ws))) with (32 + 32 * Z.of_nat (length ws)) by lia. rewrite Z.pow_add_r by lia. nia.
Qed.

(** One word under its mask. *)
Lemma word_under_mask w h :
  wordZ w -> 0 <= h <= 32 ->
  Z.land w (2 ^ 32 - 2 ^ h) = w - w mod 2 ^ h /\
  Z.lor w (u32 (Z.lnot (2 ^ 32 - 2 ^ h))) = w - w mod 2 ^ h + 2 ^ h - 1.
Proof.
  intros Hw Hh. assert (2 ^ h <= 2 ^ 32) by (apply Z.pow_le_mono_r; lia). unfold wordZ in Hw.
  pose proof (Z.div_mod w (2 ^ h) ltac:(lia)) as Hd. pose proof (Z.mod_pos_bound w (2 ^ h) ltac:(lia)) as Hm. split.
  - replace (Z.land w (2 ^ 32 - 2 ^ h)) with (Z.land w (Z.lnot (2 ^ h - 1))); [by rewrite land_lnot_ones, floor_mod by lia|].
    assert (Hmod : 2 ^ 32 - 2 ^ h = Z.land (Z.lnot (2 ^ h - 1)) (2 ^ 32 - 1)).
    { rewrite land_mask by lia. unfold Z.lnot. apply (Z.mod_unique _ _ (-1)); lia. }
    rewrite Hmod, Z.land_assoc, land_mask, land_lnot_ones by lia. symmetry. apply Z.mod_small. rewrite floor_mod by lia.
    pose proof (Z.div_pos w (2 ^ h)). nia.
  - assert (u32 (Z.lnot (2 ^ 32 - 2 ^ h)) = 2 ^ h - 1) as ->.
    { unfold u32, Z.lnot. symmetry. apply (Z.mod_unique _ _ (-1)); lia. }
    replace w with (Z.lor (Z.shiftl (w / 2 ^ h) h) (w mod 2 ^ h)) at 1
      by (rewrite lor_shiftl by lia; lia).
    rewrite <- Z.lor_assoc. replace (Z.lor (w mod 2 ^ h) (2 ^ h - 1)) with (2 ^ h - 1).
    + rewrite lor_shiftl by lia. lia.
    + rewrite Z.sub_1_r, <- Z.ones_equiv, <- (Z.land_ones w h), Z.lor_comm by lia. symmetry.
      apply Z.bits_inj'. intros i Hi. rewrite Z.lor_spec, Z.land_spec. destruct (Z.testbit (Z.ones h) i); [done|].
      by rewrite andb_false_r.
Qed.

Lemma range_words_spec ws : forall H,
  Forall wordZ ws -> 0 <= H <= 32 * Z.of_nat (length ws) ->
  exists lo hi, range_words (host_masks (length ws) H) ws = (lo, hi) /\
    Forall wordZ lo /\ Forall wordZ hi /\ length lo = length ws /\ length hi = length ws /\
    words_value lo = words_value ws - words_value ws mod 2 ^ H /\
    words_value hi = words_value ws - words_value ws mod 2 ^ H + 2 ^ H - 1.
Proof.
  unfold range_words. induction ws as [|w ws IH]; intros H Hws HH.
  { exists [], []. cbn in *. replace H with 0 by lia. split_and!; done. }
  apply Forall_cons in Hws as [Hw Hws]. cbn [length host_masks zip_with] in *.
  set (L := 32 * Z.of_nat (length ws)) in *. set (h := Z.max 0 (H - L)).
  destruct (IH (Z.min H L) Hws ltac:(lia)) as (lo&hi&E&Hlo&Hhi&Llo&Lhi&Vlo&Vhi). injection E as -> ->.
  destruct (word_under_mask w h Hw ltac:(unfold h; lia)) as [-> ->].
  pose proof (Z.mod_pos_bound w (2 ^ h) ltac:(lia)) as Hm. pose proof (Z.div_mod w (2 ^ h) ltac:(lia)) as Hd.
  assert (2 ^ h <= 2 ^ 32) by (apply Z.pow_le_mono_r; unfold h; lia). unfold wordZ in Hw.
  pose proof (Z.div_pos w (2 ^ h)). assert (w - w mod 2 ^ h + 2 ^ h - 1 < 2 ^ 32) as Hhigh.
  { replace (2 ^ 32) with (2 ^ (32 - h) * 2 ^ h) in * by (rewrite <- Z.pow_add_r by (unfold h; lia); f_equal; lia).
    assert (w / 2 ^ h < 2 ^ (32 - h)) by (apply Z.div_lt_upper_bound; lia). nia. }
  do 2 eexists. split; [reflexivity|]. pose proof (words_value_bound ws Hws) as Hv. fold L in Hv.
  split_and!; [constructor; [unfold wordZ; nia|done]|constructor; [unfold wordZ; nia|done]|by cbn; rewrite Llo|by cbn; rewrite Lhi| |];
    cbn [words_value]; rewrite ?Llo, ?Lhi, ?Vlo, ?Vhi; fold L.
  all: destruct (Z.le_gt_cases H L) as [Hle|Hgt].
  1,3: replace h with 0 by (unfold h; lia); rewrite Z.min_l by lia; rewrite mod_multiple by lia; rewrite Z.mod_1_r; lia.
  all: replace h with (H - L) by (unfold h; lia); rewrite Z.min_r, (Z.mod_small (words_value ws)) by lia;
    replace (2 ^ H) with (2 ^ (H - L + L)) by (f_equal; lia); rewrite mod_bytes by lia.
  - ring.
  - rewrite Z.pow_add_r by lia. ring.
Qed.

Lemma bytes6_value ws :
  Forall wordZ ws ->
  be_decode (bytes6 ws) = words_value ws /\ Forall byteZ (bytes6 ws) /\ length (bytes6 ws) = (4 * length ws)%nat.
Proof.
  induction 1 as [|w ws Hw _ (IH&Hb&Hl)]; [done|]. unfold bytes6. rewrite fmap_cons, concat_cons. fold (bytes6 ws).
  pose proof (be_encode_bytes 4 w). rewrite be_decode_app, be_decode_encode, IH, Hl, length_app, length_be_encode, Hl by done.
  split_and!; [|by apply Forall_app_2|cbn [length]; lia]. cbn [words_value]. f_equal. rewrite Z.mod_small by exact Hw.
  do 2 f_equal. lia.
Qed.

Lemma words6_value n : forall bs,
  Forall byteZ bs -> length bs = (4 * n)%nat ->
  words_value (words6 n bs) = be_decode bs /\ Forall wordZ (words6 n bs) /\ length (words6 n bs) = n.
Proof.
  induction n as [|n IH]; intros bs Hb Hl; [by destruct bs|]. cbn [words6].
  assert (Ht : Forall byteZ (take 4 bs)) by by apply Forall_take. assert (Hd : Forall byteZ (drop 4 bs)) by by apply Forall_drop.
  destruct (IH (drop 4 bs) Hd) as (Hv&Hw&Hn); [rewrite length_drop; lia|].
  assert (length (take 4 bs) = 4%nat) as L4 by (rewrite length_take; lia).
  pose proof (be_decode_bound _ Ht) as Bt. rewrite L4 in Bt.
  split_and!; [|constructor; [exact Bt|done]|cbn; lia].
  replace (be_decode bs) with (be_decode (take 4 bs ++ drop 4 bs)) by by rewrite take_drop. rewrite be_decode_app by done. cbn [words_value]. rewrite Hv, Hn, length_drop.
  do 3 f_equal. lia.
Qed.

(** The masks that the code computes. *)
Definition masks_agree (n : Z) : bool :=
  ((32 <? n) || bool_decide ([bitstomask n] = host_masks 1 (32 - n))) &&
  ((n =? 0) || bool_decide (bitstomask6 [] n = host_masks 4 (128 - n))).

Lemma masks_agree_all n : 0 <= n <= 128 -> masks_agree n = true.
Proof. intros Hn. apply (below_forall 129 masks_agree); [vm_compute; reflexivity|lia]. Qed.

Lemma bitstomask_host n : 0 <= n <= 32 -> [bitstomask n] = host_masks 1 (32 - n).
Proof.
  intros Hn. pose proof (masks_agree_all n ltac:(lia)) as H. apply andb_true_iff in H as [H _].
  rewrite (proj2 (Z.ltb_ge 32 n)) in H by lia. by apply bool_decide_eq_true in H.
Qed.

Lemma bitstomask6_host g n : 0 < n <= 128 -> bitstomask6 g n = host_masks 4 (128 - n).
Proof.
  intros Hn. transitivity (bitstomask6 [] n); [unfold bitstomask6; repeat case_match; try done; lia|].
  pose proof (masks_agree_all n ltac:(lia)) as H. apply andb_true_iff in H as [_ H].
  rewrite (proj2 (Z.eqb_neq n 0)) in H by lia. by apply bool_decide_eq_true in H.
Qed.

(** The range of a client subnet, from its words. *)
Lemma client_range_words a masks ws lo hi h :
  wf_addr a -> Forall wordZ ws -> length (sin_addr a) = (4 * length ws)%nat -> words_value ws = addr_value a ->
  masks = host_masks (length ws) h -> 0 <= h <= addr_bits a -> range_words masks ws = (lo, hi) ->
  addr_value a mod 2 ^ h = 0 ->
  wf_addr (with_bytes a (bytes6 lo)) /\ wf_addr (with_bytes a (bytes6 hi)) /\
  addr_value (with_bytes a (bytes6 lo)) = addr_value a /\
  addr_value (with_bytes a (bytes6 hi)) = addr_value a + 2 ^ h - 1.
Proof.
  intros Ha Hws Hlen Hv -> Hh E Hz. unfold addr_bits in Hh.
  destruct (range_words_spec ws h Hws ltac:(lia)) as (lo'&hi'&E'&Hlo&Hhi&Llo&Lhi&Vlo&Vhi).
  rewrite E' in E. injection E as -> ->. rewrite Hv, Hz, Z.sub_0_r in Vlo, Vhi.
  destruct (bytes6_value lo Hlo) as (Bl&Cl&Dl). destruct (bytes6_value hi Hhi) as (Bh&Ch&Dh).
  unfold wf_addr, addr_value at 1 3, with_bytes. cbn [sin_addr sin_family]. rewrite Bl, Bh, Dl, Dh, Llo, Lhi, <- Hlen.
  destruct Ha as [_ Hf]. split_and!; done.
Qed.

Lemma client_range_spec garbage s :
  wf_subnet s -> (sin_family (addr s) = AF_INET6 -> maskbits s <> 0) ->
  exists ty x, client_range garbage (addr s) (maskbits s) = (ty, x) /\
    wf_addr (r_start x) /\ wf_addr (r_end x) /\
    addr_value (r_start x) = addr_value (addr s) /\
    addr_value (r_end x) = addr_value (addr s) + 2 ^ host_bits s - 1.
Proof.
  intros (Ha&Hm&Hz) H6. unfold client_range. set (a := addr s) in *. set (n := maskbits s) in *.
  assert (Hh : 0 <= host_bits s <= addr_bits a) by (unfold host_bits; fold a n; lia).
  pose proof Ha as [Hb [[Hf Hl]|[Hf Hl]]]; rewrite Hf.
  - change (AF_INET =? AF_INET) with true. cbv iota. destruct (range_words _ _) as [lo hi] eqn:Er.
    do 2 eexists. split; [reflexivity|]. cbn [r_start r_end].
    apply (client_range_words a [bitstomask n] [be_decode (sin_addr a)]); try done.
    + constructor; [|constructor]. pose proof (be_decode_bound _ Hb) as B. by rewrite Hl in B.
    + cbn [words_value length]. unfold addr_value. change (2 ^ (32 * Z.of_nat 0)) with 1. lia.
    + rewrite bitstomask_host by (unfold addr_bits in Hm; lia). unfold host_bits, addr_bits. fold a n. by rewrite Hl.
  - change (AF_INET6 =? AF_INET) with false. change (AF_INET6 =? AF_INET6) with true. cbv iota.
    destruct (range_words _ _) as [lo hi] eqn:Er. do 2 eexists. split; [reflexivity|]. cbn [r_start r_end].
    destruct (words6_value 4 (sin_addr a) Hb Hl) as (Hv&Hw&Hlen). specialize (H6 Hf).
    apply (client_range_words a (bitstomask6 garbage n) (words6 4 (sin_addr a))); try done.
    rewrite bitstomask6_host by (unfold addr_bits in Hm; lia). unfold host_bits, addr_bits. fold a n. by rewrite Hl.
Qed.

(** For a proper client subnet, [ikev2_end_to_ts] offers exactly its addresses, its protocol
    and its port, or all ports. The IPv6 subnet [::/0] is left out. *)
Theorem end_to_ts_exact garbage e :
  wf_subnet (e_client e) -> (sin_family (addr (e_client e)) = AF_INET6 -> maskbits (e_client e) <> 0) ->
  let ts := ikev2_end_to_ts garbage e in
  wf_addr (r_start (net ts)) /\ wf_addr (r_end (net ts)) /\
  (forall x, wf_addr x -> sin_family x = sin_family (addr (e_client e)) ->
     in_subnet x (e_client e) <-> addr_value (r_start (net ts)) <= addr_value x <= addr_value (r_end (net ts))) /\
  ipprotoid ts = e_protocol e /\
  (startport ts, endport ts) =
    if (e_port e =? 0) || e_has_port_wildcard e then (0, 65535) else (e_port e, e_port e).
Proof.
  intros Hs H6 ts. unfold ts, ikev2_end_to_ts.
  destruct (client_range_spec garbage (e_client e) Hs H6) as (ty&x&->&Ws&We&Vs&Ve).
  destruct ((e_port e =? 0) || e_has_port_wildcard e); cbn [net ipprotoid startport endport];
    (split_and!; [done|done| |done|done]); intros y Hy Hf; unfold in_subnet; rewrite Vs, Ve; intuition lia.
Qed.

(** For the IPv6 client [::/0] the last address of the offer is made from uninitialised
    memory: only its first word is all ones. *)
Theorem default6_offer_is_garbage e g0 g1 g2 g3 :
  e_client e = mk_subnet (mk_ip AF_INET6 0 (replicate 16 0)) 0 ->
  sin_addr (r_end (net (ikev2_end_to_ts [g0; g1; g2; g3] e))) =
  replicate 4 255 ++ be_encode 4 (u32 (Z.lnot g1)) ++ be_encode 4 (u32 (Z.lnot g2)) ++ be_encode 4 (u32 (Z.lnot g3)).
Proof.
  intros He. unfold ikev2_end_to_ts. rewrite He. cbn [addr maskbits]. unfold client_range. cbn [sin_family].
  change (AF_INET6 =? AF_INET) with false. change (AF_INET6 =? AF_INET6) with true. cbv iota.
  change (words6 4 (sin_addr (mk_ip AF_INET6 0 (replicate 16 0)))) with [0; 0; 0; 0].
  change (bitstomask6 [g0; g1; g2; g3] 0) with [0; g1; g2; g3]. unfold range_words. cbn [zip_with]. rewrite !Z.lor_0_l.
  destruct ((e_port e =? 0) || e_has_port_wildcard e); cbn [net r_end with_bytes sin_addr]; unfold bytes6;
    rewrite !fmap_cons, !concat_cons, fmap_nil; cbn [concat]; by rewrite app_nil_r.
Qed.

Definition any_id : id := mk_id ID_NONE (mk_ip AF_UNSPEC 0 []) [].
Definition an_end (s : ip_subnet) (port protocol : Z) : spd_end :=
  mk_end any_id (mk_ip AF_INET 0 [192; 0; 2; 1]) 500 s true false port protocol None.
Definition default6 : ip_subnet := mk_subnet (mk_ip AF_INET6 0 (replicate 16 0)) 0.

Lemma end_to_ts_exact_witness :
  let e := an_end net10_7 0 6 in
  let ts := ikev2_end_to_ts [] e in
  wf_addr (r_start (net ts)) /\ wf_addr (r_end (net ts)) /\
  (forall x, wf_addr x -> sin_family x = AF_INET ->
     in_subnet x net10_7 <-> addr_value (r_start (net ts)) <= addr_value x <= addr_value (r_end (net ts))) /\
  ipprotoid ts = 6 /\ (startport ts, endport ts) = (0, 65535).
Proof. apply (end_to_ts_exact [] (an_end net10_7 0 6)); [apply net10_7_wf|done]. Defined.

Lemma default6_offer_is_garbage_witness :
  sin_addr (r_end (net (ikev2_end_to_ts [0; 0xffffffff; 0; 0xffffffff] (an_end default6 0 0)))) =
  replicate 4 255 ++ replicate 4 0 ++ replicate 4 255 ++ replicate 4 0.
Proof. apply (default6_offer_is_garbage (an_end default6 0 0) 0 0xffffffff 0 0xffffffff). reflexivity. Defined.

(** * Ports and protocols *)

(** The ports that a policy port stands for. *)
Definition port_high (port : Z) : Z := if port =? 0 then 65535 else port.

(** [ikev2_match_port_range] counts the ports that policy and selector have in common, if the
    two are equal or one contains the other in a direction that is allowed; else it gives 0, for
    a selector whose ports are out of order too. *)
Theorem match_port_range_correct port ts superset subset :
  0 <= port < 2 ^ 16 -> 0 <= startport ts < 2 ^ 16 -> 0 <= endport ts < 2 ^ 16 ->
  let low := port in let high := port_high port in
  let f := ikev2_match_port_range port ts superset subset in
  (0 < f <->
     startport ts <= endport ts /\
     ((startport ts = low /\ endport ts = high) \/
      (superset = true /\ startport ts <= low /\ high <= endport ts) \/
      (subset = true /\ low <= startport ts /\ endport ts <= high))) /\
  (f = 0 \/ f = Z.min high (endport ts) - Z.max low (startport ts) + 1).
Proof.
  intros Hp Hs He low high f. assert (low <= high) as Hlh by (unfold low, high, port_high; destruct (_ =? _) eqn:E; lia).
  unfold f, ikev2_match_port_range. fold (port_high port). fold high. fold low.
  destruct (Z.ltb_spec (endport ts) (startport ts)); [split; [lia|by left]|].
  destruct superset, subset; cbn [andb]; repeat case_match; (split; [intuition (discriminate || lia)|lia]).
Qed.

Lemma match_port_range_correct_witness :
  let ts := mk_ts 7 6 1000 2000 (mk_range (mk_ip AF_INET 0 [10; 0; 0; 1]) (mk_ip AF_INET 0 [10; 0; 0; 1])) in
  let f := ikev2_match_port_range 0 ts false true in
  (0 < f <->
     1000 <= 2000 /\
     ((1000 = 0 /\ 2000 = 65535) \/ (false = true /\ 1000 <= 0 /\ 65535 <= 2000) \/
      (true = true /\ 0 <= 1000 /\ 2000 <= 65535))) /\
  (f = 0 \/ f = Z.min 65535 2000 - Z.max 0 1000 + 1).
Proof.
  apply (match_port_range_correct 0
    (mk_ts 7 6 1000 2000 (mk_range (mk_ip AF_INET 0 [10; 0; 0; 1]) (mk_ip AF_INET 0 [10; 0; 0; 1]))) false true); cbn; lia.
Defined.

(** ** The nested loops *)

Section Loops.
Context (wi wr : traffic_selector -> Z).

(** Selectors [ti] and [tr] match, with the weight [w] together. *)
Definition matches (ti tr : traffic_selector) (w : Z) : Prop := wi ti <> 0 /\ wr tr <> 0 /\ w = wi ti + wr tr.

(** [r] is the better one of [b] and the matching pairs of the lists. *)
Definition improves (i : Z) (tsi tsr : list traffic_selector) (b r : best) : Prop :=
  (forall ti tr w, ti ∈ tsi -> tr ∈ tsr -> matches ti tr w -> w <= fst r) /\
  (r = b \/ exists x y ti tr, tsi !! x = Some ti /\ tsr !! y = Some tr /\
     matches ti tr (fst r) /\ fst b < fst r /\ snd r = (i + Z.of_nat x, Z.of_nat y)).

Lemma fit_tsr_spec ti i tsr : forall j b,
  wi ti <> 0 ->
  let r := fit_tsr wr (wi ti) i j tsr b in
  fst b <= fst r /\ (forall tr w, tr ∈ tsr -> matches ti tr w -> w <= fst r) /\
  (r = b \/ exists y tr, tsr !! y = Some tr /\ matches ti tr (fst r) /\ fst b < fst r /\ snd r = (i, j + Z.of_nat y)).
Proof.
  induction tsr as [|t tsr IH]; intros j b Hwi; cbn [fit_tsr].
  { split; [lia|]. split; [|by left]. intros tr w Hin. by apply elem_of_nil in Hin. }
  set (b' := if wr t =? 0 then b else if fst b <? wi ti + wr t then (wi ti + wr t, (i, j)) else b).
  assert (Hb' : fst b <= fst b' /\ (forall w, matches ti t w -> w <= fst b') /\
    (b' = b \/ (matches ti t (fst b') /\ fst b < fst b' /\ snd b' = (i, j)))).
  { unfold b', matches. destruct (Z.eqb_spec (wr t) 0); [intuition lia|].
    destruct (Z.ltb_spec (fst b) (wi ti + wr t)); cbn; intuition lia. }
  destruct Hb' as (H1&H2&H3). destruct (IH (j + 1) b' Hwi) as (I1&I2&I3). split; [lia|]. split.
  - intros tr w [->|Hin]%elem_of_cons Hm; [specialize (H2 w Hm); lia|by apply (I2 tr)].
  - destruct I3 as [->|(y&tr&Hy&Hm&Hlt&Hs)].
    + destruct H3 as [->|(Hm&Hlt&Hs)]; [by left|]. right. exists 0%nat, t. rewrite Hs, Z.add_0_r. done.
    + right. exists (S y), tr. split; [done|]. split; [done|]. split; [lia|]. rewrite Hs. f_equal. lia.
Qed.

Lemma fit_tsi_spec tsi tsr : forall i b,
  let r := fit_tsi wi wr i tsi tsr b in fst b <= fst r /\ improves i tsi tsr b r.
Proof.
  induction tsi as [|t tsi IH]; intros i b; cbn [fit_tsi].
  { split; [lia|]. split; [|by left]. intros ti tr w Hin. by apply elem_of_nil in Hin. }
  set (b' := if wi t =? 0 then b else fit_tsr wr (wi t) i 0 tsr b).
  assert (Hb' : fst b <= fst b' /\ (forall tr w, tr ∈ tsr -> matches t tr w -> w <= fst b') /\
    (b' = b \/ exists y tr, tsr !! y = Some tr /\ matches t tr (fst b') /\ fst b < fst b' /\ snd b' = (i, 0 + Z.of_nat y))).
  { unfold b'. destruct (Z.eqb_spec (wi t) 0) as [E|Hn]; [|by apply fit_tsr_spec].
    split; [lia|]. split; [|by left]. by intros tr w _ [? _]. }
  destruct Hb' as (H1&H2&H3). destruct (IH (i + 1) b') as (I1&I2&I3). split; [lia|]. split.
  - intros ti tr w [->|Hin]%elem_of_cons Htr Hm; [specialize (H2 tr w Htr Hm); lia|by apply (I2 ti tr)].
  - destruct I3 as [->|(x&y&ti&tr&Hx&Hy&Hm&Hlt&Hs)].
    + destruct H3 as [->|(y&tr&Hy&Hm&Hlt&Hs)]; [by left|]. right. exists 0%nat, y, t, tr.
      split_and!; try done. rewrite Hs. f_equal. lia.
    + right. exists (S x), y, ti, tr. split_and!; try done; [lia|]. rewrite Hs. f_equal. lia.
Qed.

End Loops.

(** * Addresses *)

Definition wf_ts (t : traffic_selector) : Prop := wf_addr (r_start (net t)) /\ wf_addr (r_end (net t)).

(** Both ends of the selector's range are addresses of the subnet. *)
Definition ts_inside (t : traffic_selector) (s : ip_subnet) : Prop :=
  in_subnet (r_start (net t)) s /\ in_subnet (r_end (net t)) s.

Lemma ts_inside_all t s x :
  ts_inside t s -> sin_family x = sin_family (addr s) ->
  addr_value (r_start (net t)) <= addr_value x <= addr_value (r_end (net t)) -> in_subnet x s.
Proof. intros [[_ H1] [_ H2]] Hf Hx. split; [done|lia]. Qed.

Lemma in_subnet_family a b s : in_subnet a s -> in_subnet b s -> sin_family b = sin_family a.
Proof. intros [-> _] [-> _]. done. Qed.

(** The weight of a pair, present exactly when both selectors are inside the policy. *)
Lemma pair_fit_spec ei er ti tr :
  wf_subnet (e_client ei) -> wf_subnet (e_client er) -> wf_ts ti -> wf_ts tr ->
  exists f, pair_fit ei er ti tr = Ok f /\
    match f with
    | Some w => 0 <= w /\ ts_inside ti (e_client ei) /\ ts_inside tr (e_client er)
    | None => ~ (ts_inside ti (e_client ei) /\ ts_inside tr (e_client er))
    end.
Proof.
  intros Hi Hr [Ws1 We1] [Ws2 We2]. unfold pair_fit, andm. rewrite !addrinsubnet_spec by done.
  repeat case_bool_decide; cbn [mbind outcome_bind negb]; try (exists None; split; [done|unfold ts_inside; tauto]).
  rewrite !iprange_bits_spec, !bind_Ok by eauto using in_subnet_family.
  eexists. split; [reflexivity|]. split; [|by unfold ts_inside].
  pose proof (bit_length_nonneg (Z.abs (addr_value (r_end (net ti)) - addr_value (r_start (net ti))))).
  pose proof (bit_length_nonneg (Z.abs (addr_value (r_end (net tr)) - addr_value (r_start (net tr))))).
  destruct Hi as (_&Hi&_), Hr as (_&Hr&_).
  repeat case_match; rewrite ?Z.shiftl_nonneg; apply Z.add_nonneg_nonneg; rewrite ?Z.shiftl_nonneg; lia.
Qed.

Lemma pairs_fit_spec ei er pairs : forall b,
  wf_subnet (e_client ei) -> wf_subnet (e_client er) -> Forall (fun p => wf_ts (fst p) /\ wf_ts (snd p)) pairs -> -1 <= b ->
  exists f, pairs_fit ei er pairs b = Ok f /\ b <= f /\
    (f = b \/ exists p, p ∈ pairs /\ ts_inside (fst p) (e_client ei) /\ ts_inside (snd p) (e_client er)) /\
    (forall p, p ∈ pairs -> ts_inside (fst p) (e_client ei) -> ts_inside (snd p) (e_client er) -> 0 <= f).
Proof.
  induction pairs as [|[ti tr] pairs IH]; intros b Hi Hr Hp Hb; cbn [pairs_fit].
  { exists b. split; [done|]. split; [lia|]. split; [by left|]. intros p Hin. by apply elem_of_nil in Hin. }
  apply Forall_cons in Hp as [[Wi Wr] Hp]. destruct (pair_fit_spec ei er ti tr Hi Hr Wi Wr) as (f&->&Hf). rewrite bind_Ok.
  set (b' := match f with Some w => if b <? w then w else b | None => b end).
  assert (Hb' : b <= b' /\ (b' = b \/ ts_inside ti (e_client ei) /\ ts_inside tr (e_client er)) /\
                (ts_inside ti (e_client ei) -> ts_inside tr (e_client er) -> 0 <= b')).
  { unfold b'. destruct f as [w|]; [destruct (Z.ltb_spec b w)|]; intuition lia. }
  destruct Hb' as (H1&H2&H3). destruct (IH b' Hi Hr Hp ltac:(lia)) as (g&->&Hg&Hex&Hall). exists g.
  split; [done|]. split; [lia|]. split.
  - destruct Hex as [->|(p&Hin&?)]; [|right; exists p; split; [by right|done]].
    destruct H2 as [->|H2]; [by left|]. right. exists (ti, tr). split; [by left|done].
  - intros p [->|Hin]%elem_of_cons Ha Hc; [specialize (H3 Ha Hc); lia|by apply (Hall p)].
Qed.

Lemma elem_of_all_pairs tsi tsr p : p ∈ all_pairs tsi tsr <-> fst p ∈ tsi /\ snd p ∈ tsr.
Proof.
  unfold all_pairs. rewrite list_elem_of_bind. split.
  - intros (ti&Hp&Hti). apply list_elem_of_bind in Hp as (tr&Hp&Htr). apply list_elem_of_singleton in Hp as ->. done.
  - intros [Hi Hr]. exists (fst p). split; [|done]. apply list_elem_of_bind. exists (snd p).
    split; [|done]. apply list_elem_of_singleton. by destruct p.
Qed.

Lemma connection_fit_spec sr role tsi tsr :
  wf_subnet (e_client (this sr)) -> wf_subnet (e_client (that sr)) -> Forall wf_ts tsi -> Forall wf_ts tsr ->
  let '(ei, er) := ends sr role in
  exists f, ikev2_evaluate_connection_fit sr role tsi tsr = Ok f /\ -1 <= f /\
    (-1 < f <-> exists ti tr, ti ∈ tsi /\ tr ∈ tsr /\ ts_inside ti (e_client ei) /\ ts_inside tr (e_client er)).
Proof.
  intros Ht Hu Hi Hr. unfold ikev2_evaluate_connection_fit. destruct (ends sr role) as [ei er] eqn:E.
  assert (wf_subnet (e_client ei) /\ wf_subnet (e_client er)) as [We1 We2].
  { unfold ends in E. destruct (is_initiator role); by injection E as <- <-. }
  destruct (pairs_fit_spec ei er (all_pairs tsi tsr) (-1) We1 We2) as (f&->&Hf&Hex&Hall); [|lia|].
  { apply Forall_forall. intros p Hp. apply elem_of_all_pairs in Hp as [H1 H2]. rewrite Forall_forall in Hi, Hr. auto. }
  exists f. split; [done|]. split; [done|]. split.
  - intros Hlt. destruct Hex as [->|(p&Hp&?)]; [lia|]. apply elem_of_all_pairs in Hp as [H1 H2]. eauto.
  - intros (ti&tr&H1&H2&H3&H4). specialize (Hall (ti, tr)). rewrite elem_of_all_pairs in Hall. specialize (Hall (conj H1 H2) H3 H4). lia.
Qed.

(** [ikev2_evaluate_connection_fit] always answers; it is not -1 exactly when some selector of
    each side has both its ends inside the policy of that side. *)
Theorem connection_fit_correct sr role tsi tsr :
  wf_subnet (e_client (this sr)) -> wf_subnet (e_client (that sr)) -> Forall wf_ts tsi -> Forall wf_ts tsr ->
  let '(ei, er) := ends sr role in
  exists f, ikev2_evaluate_connection_fit sr role tsi tsr = Ok f /\
    (f <> -1 <-> exists ti tr, ti ∈ tsi /\ tr ∈ tsr /\ ts_inside ti (e_client ei) /\ ts_inside tr (e_client er)).
Proof.
  intros Ht Hu Hi Hr. pose proof (connection_fit_spec sr role tsi tsr Ht Hu Hi Hr) as H.
  destruct (ends sr role). destruct H as (f&->&Hf&H). exists f. split; [done|]. rewrite <- H. lia.
Qed.

Definition ts_example (a b : ip_address) : traffic_selector := mk_ts 7 0 0 65535 (mk_range a b).
Definition peer_end : spd_end := an_end (mk_subnet (mk_ip AF_INET 0 [172; 16; 0; 0]) 16) 0 0.
Definition our_conn : ts_conn := mk_tconn CK_PERMANENT 0 (mk_spd (an_end net10_7 0 0) peer_end) [].
Definition ts_peer : traffic_selector := ts_example (mk_ip AF_INET 0 [172; 16; 0; 0]) (mk_ip AF_INET 0 [172; 16; 255; 255]).
Definition ts_ours : traffic_selector := ts_example (mk_ip AF_INET 0 [10; 7; 64; 0]) (mk_ip AF_INET 0 [10; 7; 127; 255]).
Definition ts_all : traffic_selector := ts_example (mk_ip AF_INET 0 [0; 0; 0; 0]) (mk_ip AF_INET 0 [255; 255; 255; 255]).

Lemma peer_end_wf : wf_subnet (e_client peer_end).
Proof. split; [split; [by_decide|by left]|]. split; by_decide. Qed.
Lemma ts_peer_wf : wf_ts ts_peer.
Proof. split; (split; [by_decide|by left]). Qed.
Lemma ts_ours_wf : wf_ts ts_ours.
Proof. split; (split; [by_decide|by left]). Qed.

Lemma connection_fit_correct_witness :
  exists f, ikev2_evaluate_connection_fit (tc_spd our_conn) ORIGINAL_INITIATOR [ts_ours] [ts_peer] = Ok f /\
    (f <> -1 <-> exists ti tr, ti ∈ [ts_ours] /\ tr ∈ [ts_peer] /\ ts_inside ti net10_7 /\ ts_inside tr (e_client peer_end)).
Proof.
  apply (connection_fit_correct (tc_spd our_conn) ORIGINAL_INITIATOR [ts_ours] [ts_peer]);
    [apply net10_7_wf|apply peer_end_wf|apply Forall_singleton, ts_ours_wf|apply Forall_singleton, ts_peer_wf].
Defined.

(** * The initiator *)

(** The weights of one selector against one end of the policy. *)
Definition port_weight (d : ts_conn) (role : original_role) (e : spd_end) (t : traffic_selector) : Z :=
  ikev2_match_port_range (e_port e) t (superset_ok d role) (subset_ok d role).
Definition protocol_weight (d : ts_conn) (role : original_role) (e : spd_end) (t : traffic_selector) : Z :=
  ikev2_match_protocol (e_protocol e) (ipprotoid t) (superset_ok d role) (subset_ok d role).

(** Either nothing matches, or the indices are those of a pair that does. *)
Definition picks (wi wr : traffic_selector -> Z) (tsi tsr : list traffic_selector) (old : Z * Z) (r : best) : Prop :=
  r = (-1, old) \/
  -1 < fst r /\ exists x y ti tr, snd r = (Z.of_nat x, Z.of_nat y) /\ tsi !! x = Some ti /\ tsr !! y = Some tr /\
    wi ti <> 0 /\ wr tr <> 0.

Lemma fit_tsi_picks wi wr tsi tsr old : picks wi wr tsi tsr old (fit_tsi wi wr 0 tsi tsr (-1, old)).
Proof.
  destruct (fit_tsi_spec wi wr tsi tsr 0 (-1, old)) as [_ [_ [H|(x&y&ti&tr&Hx&Hy&(Hi&Hr&_)&Hlt&Hs)]]]; [by left|].
  right. split; [done|]. exists x, y, ti, tr. by rewrite Hs, Z.add_0_l.
Qed.

(** What a search step that accepts a route has seen. *)
Lemma try_route_accepts role tsi tsr d sr srp s s' :
  wf_subnet (e_client (this sr)) -> wf_subnet (e_client (that sr)) -> Forall wf_ts tsi -> Forall wf_ts tsr ->
  -1 <= s_n s -> -1 <= s_p s -> try_route role tsi tsr d sr srp s = Ok s' ->
  (s_n s' = s_n s /\ s_p s' = s_p s /\ s_found s' = s_found s) \/
  (let '(ei, er) := ends sr role in
   let '(pi, pr) := ends srp role in
   s_n s < s_n s' /\ s_p s < s_p s' /\ s_found s' = Some (d, sr) /\
   (exists ti tr, ti ∈ tsi /\ tr ∈ tsr /\ ts_inside ti (e_client ei) /\ ts_inside tr (e_client er)) /\
   (exists ti tr, ti ∈ tsi /\ tr ∈ tsr /\ port_weight d role pi ti <> 0 /\ port_weight d role pr tr <> 0) /\
   (exists x y ti tr, s_best s' = (Z.of_nat x, Z.of_nat y) /\ tsi !! x = Some ti /\ tsr !! y = Some tr /\
      protocol_weight d role pi ti <> 0 /\ protocol_weight d role pr tr <> 0)).
Proof.
  intros Ht Hu Hi Hr Hn Hp H. unfold try_route in H. pose proof (connection_fit_spec sr role tsi tsr Ht Hu Hi Hr) as Hfit.
  destruct (ends sr role) as [ei er]. destruct Hfit as (f&Ef&_&Hfit). rewrite Ef, bind_Ok in H.
  destruct (Z.ltb_spec (s_n s) f); [|left; by injection H as <-].
  unfold ikev2_evaluate_connection_port_fit, ikev2_evaluate_connection_protocol_fit in H.
  destruct (ends srp role) as [pi pr].
  pose proof (fit_tsi_picks (port_weight d role pi) (port_weight d role pr) tsi tsr (s_best s)) as Hport.
  unfold port_weight in Hport at 3 4. destruct (fit_tsi _ _ 0 tsi tsr (-1, s_best s)) as [bp best_i].
  destruct (Z.ltb_spec (s_p s) bp); [|left; by injection H as <-].
  pose proof (fit_tsi_picks (protocol_weight d role pi) (protocol_weight d role pr) tsi tsr best_i) as Hproto.
  unfold protocol_weight in Hproto at 3 4. destruct (fit_tsi _ _ 0 tsi tsr (-1, best_i)) as [bpr best_j].
  destruct (Z.ltb_spec (-1) bpr); [|left; by injection H as <-]. injection H as <-. right. cbn [s_n s_p s_found s_best].
  split; [done|]. split; [done|]. split; [done|]. split; [apply Hfit; lia|]. split.
  - destruct Hport as [[= -> ->]|(_&x&y&ti&tr&_&Hx&Hy&?&?)]; [lia|]. exists ti, tr. split_and!; [by eapply list_elem_of_lookup_2|by eapply list_elem_of_lookup_2|done|done].
  - destruct Hproto as [[= -> ->]|(_&x&y&ti&tr&Hs&Hx&Hy&?&?)]; [lia|]. cbn in Hs. subst. by exists x, y, ti, tr.
Qed.

Lemma in_subnet_port x s port : in_subnet x (mk_subnet (setportof port (addr s)) (maskbits s)) <-> in_subnet x s.
Proof. unfold in_subnet, host_bits, addr_bits, addr_value, setportof. cbn. by destruct (_ || _). Qed.

(** The client of an accepted selector whose range is a subnet. *)
Lemma narrowed_client garbage e t s s' e' :
  wf_ts t -> ts_inside t (e_client e) -> rangetosubnet (r_start (net t)) (r_end (net t)) = Ok s ->
  tmp_subnet garbage (net t) = Ok s' -> narrowed_end e s' t = Ok e' ->
  forall x, in_subnet x (e_client e') -> in_subnet x (e_client e).
Proof.
  intros [Ws We] Hin Hr Ht Hn x Hx. unfold tmp_subnet in Ht. rewrite Hr in Ht. injection Ht as <-.
  unfold narrowed_end in Hn. apply bind_ok in Hn as (b&_&Hn). injection Hn as <-. cbn [e_client] in Hx.
  apply in_subnet_port in Hx. pose proof (in_subnet_family _ _ _ (proj1 Hin) (proj2 Hin)) as Hf.
  destruct (rangetosubnet_spec _ _ Ws We (eq_sym Hf)) as [_ Hspec]. apply Hspec in Hr as (Hw&Ha&He).
  destruct Hx as [Hfx Hx]. rewrite Ha in *. destruct Hin as [[F1 V1] [F2 V2]]. apply (ts_inside_all t); [by split|congruence|lia].
Qed.


Definition kept_route : spd_route :=
  mk_spd (mk_end any_id (mk_ip AF_INET 0 [192; 0; 2; 1]) 500 net10_7 true false 0 0 None)
         (mk_end any_id (mk_ip AF_INET 0 [192; 0; 2; 1]) 500 (e_client peer_end) true false 0 0 None).


(** C40: with more than one selector the three fits are not taken of one pair: a peer that adds
    the range of all addresses in front of an acceptable selector has it installed, and the
    client of the connection becomes 0.0.0.0/0, outside the policy 10.7.64.0/18. *)
Theorem initiator_accepts_outside_policy :
  exists sr', ikev2_process_ts net10 net10 our_conn (Some [ts_all; ts_ours]) (Some [ts_peer]) = Ok (ts_all, ts_peer, sr') /\
    ~ ts_inside ts_all (e_client (this (tc_spd our_conn))) /\
    e_client (this sr') = mk_subnet (mk_ip AF_INET 0 [0; 0; 0; 0]) 0.
Proof. eexists. split; [vm_compute; reflexivity|]. split; [|reflexivity]. intros [[_ H] _]. revert H. by_decide. Qed.

(** The result of [rangetosubnet] is not looked at: when the accepted range is not a subnet,
    the client of the connection becomes what the stack held. *)
Theorem initiator_client_is_garbage :
  let t := ts_example (mk_ip AF_INET 0 [10; 7; 64; 0]) (mk_ip AF_INET 0 [10; 7; 64; 99]) in
  let installs gi := exists sr',
    ikev2_process_ts gi net10 our_conn (Some [t]) (Some [ts_peer]) = Ok (t, ts_peer, sr') /\ e_client (this sr') = gi in
  installs net10 /\ installs default6.
Proof. split; (eexists; split; [vm_compute; reflexivity|reflexivity]). Qed.

(** * The responder *)

Section Responder.
Context {nss : Nss}.
Context (pluto_port pluto_nat_port : Z) (myid : id).
Context (CERT_GetDefaultCertDB : bool) (CERT_FindCertByName : list Z -> option (bool * list Z)).

Definition wf_conn (d : ts_conn) : Prop :=
  Forall (fun sr => wf_subnet (e_client (this sr)) /\ wf_subnet (e_client (that sr))) (spds d).

Section Search.
Context (role : original_role) (tsi tsr : list traffic_selector) (c : ts_conn) (hps : list host_pair).
Hypothesis (Hi : Forall wf_ts tsi) (Hr : Forall wf_ts tsr).

(** The connections that may be chosen: [c], and those of its host pairs that stand in for it. *)
Definition may_choose (b : ts_conn) : Prop :=
  b = c \/ exists hp, hp ∈ hps /\ b ∈ hp_connections hp /\
    eligible myid CERT_GetDefaultCertDB CERT_FindCertByName c b = Ok true.

(** What the search has found so far is a route that takes one of the offers. *)
Definition found_ok (s : search) : Prop :=
  -1 <= s_n s /\ -1 <= s_p s /\
  match s_found s with
  | None => True
  | Some (b, bsr) =>
      may_choose b /\ bsr ∈ spds b /\
      let '(ei, er) := ends bsr role in
      exists ti tr, ti ∈ tsi /\ tr ∈ tsr /\ ts_inside ti (e_client ei) /\ ts_inside tr (e_client er)
  end.

Lemma try_routes_ok d srp srs : forall s s',
  wf_conn d -> may_choose d -> (forall sr, sr ∈ srs -> sr ∈ spds d) -> found_ok s ->
  try_routes role tsi tsr d srp srs s = Ok s' -> found_ok s'.
Proof.
  induction srs as [|sr srs IH]; intros s s' Hw Hm Hin Hs H; cbn [try_routes] in H; [by injection H as <-|].
  apply bind_ok in H as (s1&H1&H). assert (Hsr : sr ∈ spds d) by (apply Hin; by left).
  pose proof Hw as Hw'. unfold wf_conn in Hw'. rewrite Forall_forall in Hw'. destruct (Hw' sr Hsr) as [W1 W2].
  apply (IH s1); [done|done|intros x Hx; apply Hin; by right| |done]. destruct Hs as (Hn&Hp&Hf).
  destruct (try_route_accepts role tsi tsr d sr (srp sr) s s1 W1 W2 Hi Hr Hn Hp H1) as [(E1&E2&E3)|Hacc].
  - unfold found_ok. by rewrite E1, E2, E3.
  - unfold found_ok. destruct (ends sr role) as [ei er] eqn:Ee, (ends (srp sr) role). destruct Hacc as (Hlt&Hlt'&Hfd&Hin'&_).
    rewrite Hfd, Ee. split; [lia|]. split; [lia|]. done.
Qed.

Lemma try_connections_ok sra hp ds : forall s s',
  hp ∈ hps -> (forall d, d ∈ ds -> d ∈ hp_connections hp /\ wf_conn d) -> found_ok s ->
  try_connections myid CERT_GetDefaultCertDB CERT_FindCertByName role tsi tsr c sra ds s = Ok s' -> found_ok s'.
Proof.
  induction ds as [|d ds IH]; intros s s' Hhp Hin Hs H; cbn [try_connections] in H; [by injection H as <-|].
  apply bind_ok in H as (ok&Hok&H). apply bind_ok in H as (s1&H1&H). destruct (Hin d ltac:(by left)) as [Hd Hw].
  apply (IH s1); [done|intros x Hx; apply Hin; by right| |done]. destruct ok; [|by injection H1 as <-].
  apply (try_routes_ok d (fun _ => sra) (spds d) s); [done|right; by exists hp|done|done|done].
Qed.

Lemma find_host_pair_spec a pa b pb l :
  let '(hp, l') := find_host_pair pluto_port pluto_nat_port a pa b pb l in
  l' ≡ₚ l /\ match hp with Some p => p ∈ l | None => True end.
Proof.
  unfold find_host_pair. destruct (list_find _ l) as [[i p]|] eqn:E; [|done].
  apply list_find_Some in E as (Hl&_&_). split; [|by eapply list_elem_of_lookup_2].
  symmetry. by apply delete_Permutation.
Qed.

Lemma try_host_pairs_ok sras : forall l s s' l',
  l ≡ₚ hps -> (forall hp d, hp ∈ hps -> d ∈ hp_connections hp -> wf_conn d) -> found_ok s ->
  try_host_pairs pluto_port pluto_nat_port myid CERT_GetDefaultCertDB CERT_FindCertByName role tsi tsr c sras l s = Ok (s', l') ->
  found_ok s' /\ l' ≡ₚ hps.
Proof.
  induction sras as [|sra sras IH]; intros l s s' l' Hl Hw Hs H; cbn [try_host_pairs] in H; [by injection H as <- <-|].
  pose proof (find_host_pair_spec (e_host_addr (this sra)) (e_host_port (this sra))
    (e_host_addr (that sra)) (e_host_port (that sra)) l) as Hfind.
  destruct (find_host_pair _ _ _ _ _ _ l) as [[hp|] l1]; destruct Hfind as [Hp Hin].
  - apply bind_ok in H as (s1&H1&H). injection H as <- <-. split; [|by rewrite Hp]. rewrite Hl in Hin.
    apply (try_connections_ok sra hp (hp_connections hp) s s1); [done| |done|done]. intros d Hd. split; [done|]. by apply (Hw hp).
  - apply (IH l1 s); [by rewrite Hp|done|done|done].
Qed.

End Search.


End Responder.

Definition one_host : traffic_selector := ts_example (mk_ip AF_INET 0 [172; 16; 9; 9]) (mk_ip AF_INET 0 [172; 16; 9; 9]).


(** A responder does not narrow its answer to the offer: an initiator that offers one host of
    its network is given the whole network 172.16.0.0/16 of the policy. *)
Theorem responder_widens_offer :
  exists ch hps, ikev2_resp_accept_child_ts (H := plain_nss) 500 4500 any_id false (fun _ => None)
      [] [] [] our_conn ORIGINAL_RESPONDER false (Some [one_host]) (Some [ts_ours]) = Ok (ch, hps) /\
    ipprotoid (st_ts_that ch) = ipprotoid one_host /\
    net (st_ts_that ch) = mk_range (mk_ip AF_INET 0 [172; 16; 0; 0]) (mk_ip AF_INET 0 [172; 16; 255; 255]).
Proof. do 2 eexists. split; [vm_compute; reflexivity|]. split; reflexivity. Qed.
