(* ===== verification/TrafficWire.v ===== *)
(** Traffic selector payloads on the wire: [ikev2_emit_ts], [ikev2_calc_emit_ts] and
    [ikev2_parse_ts] of programs/pluto/ikev2_child.c, on the packet codec of [Packet].

    Parsing is total and keeps to its stream and its array whatever the peer sent, emission
    writes the format of RFC 7296, and the selectors that were emitted are those parsed. *)
From S2P Require Import Prelude EnumNames Constants Packet PacketSpec PacketObject PacketNest PacketDescs Stf.
From S2P Require Import PacketTheorems Address Subnet SubnetTheorems X509dn Id AddressPool TrafficSelector TrafficTheorems.

(** * Model *)

Definition IKEv2_TS_FC_ADDR_RANGE : Z := 9.
Definition ISAKMP_PAYLOAD_NONCRITICAL : Z := 0.

(** The members of the two local structures of [ikev2_emit_ts] that it does not set. *)
Record its_garbage := mk_its {
  isat_length : Z;
  isat_res1 : Z;
  isat_res2 : Z;
  isat1_type : Z;
  isat1_sellen : Z
}.

(** [its], the fixed part of the payload. *)
Definition its (g : its_garbage) (lt : Z) : list fval :=
  [FNum lt; FNum ISAKMP_PAYLOAD_NONCRITICAL; FNum (isat_length g); FNum 1;
   FNum (isat_res1 g); FNum (isat_res2 g)].

(** The [n] octets of an address that [out_raw] is given; those of another member of the union
    are left undefined. *)
Definition addr_octets {E} (n : nat) (a : ip_address) : outcome E (list Z) :=
  if decide (length (sin_addr a) = n) then Ok (sin_addr a) else Abort.

Definition emit_addresses (n : nat) (s e : string) (ts : traffic_selector) (o : nat) (st : pstate)
  : outcome (stf_status * pstate) pstate :=
  lo ← addr_octets n (r_start (net ts));
  st1 ← or_internal (out_raw lo o s st);
  hi ← addr_octets n (r_end (net ts));
  or_internal (out_raw hi o e st1).

(** [ts_pbs] and [ts_pbs2] are the numbers of the two local streams. *)
Definition ikev2_emit_ts (g : its_garbage) (outpbs ts_pbs ts_pbs2 : nat) (lt : Z) (ts : traffic_selector)
    (st : pstate) : outcome (stf_status * pstate) pstate :=
  st1 ← or_internal (out_struct (its g lt) ikev2_ts_desc outpbs (Some ts_pbs) st);
  if ts_type ts =? IKEv2_TS_FC_ADDR_RANGE then Ugh (STF_INTERNAL_ERROR, st1)
  else
    let '(type, sellen) :=
      if ts_type ts =? IKEv2_TS_IPV4_ADDR_RANGE then (IKEv2_TS_IPV4_ADDR_RANGE, 2 * 4 + 8)
      else if ts_type ts =? IKEv2_TS_IPV6_ADDR_RANGE then (IKEv2_TS_IPV6_ADDR_RANGE, 2 * 16 + 8)
      else (isat1_type g, isat1_sellen g) in
    let its1 := [FNum type; FNum (ipprotoid ts); FNum sellen; FNum (startport ts); FNum (endport ts)] in
    st2 ← or_internal (out_struct its1 ikev2_ts1_desc ts_pbs (Some ts_pbs2) st1);
    st3 ← (if ts_type ts =? IKEv2_TS_IPV4_ADDR_RANGE then
             emit_addresses 4 "ipv4 start" "ipv4 end" ts ts_pbs2 st2
           else if ts_type ts =? IKEv2_TS_IPV6_ADDR_RANGE then
             emit_addresses 16 "ipv6 start" "ipv6 end" ts ts_pbs2 st2
           else Ugh (STF_FAIL, st2));
    st4 ← close_output_pbs ts_pbs2 st3;
    close_output_pbs ts_pbs st4.

(** The loop over the routes; every call of [ikev2_emit_ts] finds its own garbage. *)
Fixpoint emit_routes (g : nat -> its_garbage) (outpbs ts_pbs ts_pbs2 : nat) (np : Z)
    (ts_i ts_r : traffic_selector) (sr : list spd_route) (st : pstate)
  : outcome (stf_status * pstate) pstate :=
  match sr with
  | [] => Ok st
  | _ :: sr' =>
      st1 ← ikev2_emit_ts (g (2 * length sr')%nat) outpbs ts_pbs ts_pbs2 ISAKMP_NEXT_v2TSr ts_i st;
      st2 ← ikev2_emit_ts (g (2 * length sr' + 1)%nat) outpbs ts_pbs ts_pbs2 np ts_r st1;
      emit_routes g outpbs ts_pbs ts_pbs2 np ts_i ts_r sr' st2
  end.

Definition ikev2_calc_emit_ts (g : nat -> its_garbage) (outpbs ts_pbs ts_pbs2 : nat)
    (role : original_role) (c0 : ts_conn) (np : Z) (st_ts_this st_ts_that : traffic_selector) (st : pstate)
  : outcome (stf_status * pstate) pstate :=
  let '(ts_i, ts_r) :=
    if is_initiator role then (st_ts_this, st_ts_that) else (st_ts_that, st_ts_this) in
  emit_routes g outpbs ts_pbs ts_pbs2 np ts_i ts_r (spds c0) st.

(** [if (!in_xxx(...)) return -1;] *)
Definition or_minus1 {A} (c : outcome diag A) : outcome unit A :=
  match c with Ok a => Ok a | Ugh _ => Ugh tt | Abort => Abort end.

(** The two addresses of an entry of a [family] with addresses of [len] octets. *)
Definition parse_range (family len : Z) (name : string) (addr : nat) (st : pstate)
  : outcome unit (ip_range * pstate) :=
  '(s, st1) ← or_minus1 (in_raw len addr name st);
  '(e, st2) ← or_minus1 (in_raw len addr name st1);
  Ok (mk_range (mk_ip family 0 s) (mk_ip family 0 e), st2).

(** One round of the loop: the entry [array[i]]. *)
Definition parse_ts1 (i array_max : Z) (pbs addr : nat) (st : pstate)
  : outcome unit (traffic_selector * pstate) :=
  '(ts1, st1) ← or_minus1 (in_struct ikev2_ts1_desc pbs (Some addr) st);
  if array_max <=? i then Ugh tt
  else
    match ts1 with
    | [FNum type; FNum proto; FNum _; FNum lo; FNum hi] =>
        '(range, st2) ←
          (if type =? IKEv2_TS_IPV4_ADDR_RANGE then parse_range AF_INET 4 "ipv4 ts" addr st1
           else if type =? IKEv2_TS_IPV6_ADDR_RANGE then parse_range AF_INET6 16 "ipv6 ts" addr st1
           else Ugh tt);
        q ← get_pbs st2 addr;
        if pbs_left q =? 0 then Ok (mk_ts type proto lo hi range, st2) else Ugh tt
    | _ => Abort
    end.

Fixpoint parse_ts_loop (n : nat) (i array_max : Z) (pbs addr : nat) (st : pstate)
  : outcome unit (list traffic_selector * pstate) :=
  match n with
  | O => Ok ([], st)
  | S n' =>
      '(ts, st1) ← parse_ts1 i array_max pbs addr st;
      '(tss, st2) ← parse_ts_loop n' (i + 1) array_max pbs addr st1;
      Ok (ts :: tss, st2)
  end.

(** [Ugh] is the -1; the number returned is the length of the list of entries filled in. *)
Definition ikev2_parse_ts (isat_num array_max : Z) (pbs addr : nat) (st : pstate)
  : outcome unit (list traffic_selector * pstate) :=
  parse_ts_loop (Z.to_nat isat_num) 0 array_max pbs addr st.

(** * Well-formed selectors and their wire format *)

Definition ts_family (ts : traffic_selector) : Z :=
  if ts_type ts =? IKEv2_TS_IPV4_ADDR_RANGE then AF_INET else AF_INET6.

Definition wire_ts (ts : traffic_selector) : Prop :=
  (ts_type ts = IKEv2_TS_IPV4_ADDR_RANGE \/ ts_type ts = IKEv2_TS_IPV6_ADDR_RANGE) /\
  byteZ (ipprotoid ts) /\ 0 <= startport ts < 2 ^ 16 /\ 0 <= endport ts < 2 ^ 16 /\
  wf_addr (r_start (net ts)) /\ sin_family (r_start (net ts)) = ts_family ts /\
  wf_addr (r_end (net ts)) /\ sin_family (r_end (net ts)) = ts_family ts.

Definition addr_size (ts : traffic_selector) : nat := if ts_type ts =? IKEv2_TS_IPV4_ADDR_RANGE then 4 else 16.
Definition ts_size (ts : traffic_selector) : nat := 8 + 2 * addr_size ts.

(** RFC 7296, section 3.13.1: one selector. *)
Definition ts1_wire (ts : traffic_selector) : list Z :=
  [ts_type ts; ipprotoid ts] ++ be_encode 2 (Z.of_nat (ts_size ts)) ++
  be_encode 2 (startport ts) ++ be_encode 2 (endport ts) ++
  sin_addr (r_start (net ts)) ++ sin_addr (r_end (net ts)).

(** RFC 7296, section 3.13: a payload with these selectors, followed by a payload [np]. *)
Definition ts_wire (np : Z) (tss : list traffic_selector) : list Z :=
  let body := concat (ts1_wire <$> tss) in
  [np; 0] ++ be_encode 2 (8 + Z.of_nat (length body)) ++ [Z.of_nat (length tss); 0; 0; 0] ++ body.

(** A parsed selector: the addresses carry no port. *)
Definition portless (ts : traffic_selector) : traffic_selector :=
  let strip a := mk_ip (sin_family a) 0 (sin_addr a) in
  mk_ts (ts_type ts) (ipprotoid ts) (startport ts) (endport ts)
    (mk_range (strip (r_start (net ts))) (strip (r_end (net ts)))).

Lemma wire_ts_sizes ts :
  wire_ts ts -> length (sin_addr (r_start (net ts))) = addr_size ts /\
              length (sin_addr (r_end (net ts))) = addr_size ts.
Proof.
  intros (Ht&_&_&_&(_&Hs)&Hfs&(_&He)&Hfe). unfold ts_family, addr_size in *.
  destruct Ht as [Ht|Ht]; rewrite Ht in *; cbn in *; rewrite Hfs in Hs; rewrite Hfe in He;
    destruct Hs as [[? ?]|[? ?]], He as [[? ?]|[? ?]]; done.
Qed.

Lemma length_ts1_wire ts : wire_ts ts -> length (ts1_wire ts) = ts_size ts.
Proof.
  intros H. apply wire_ts_sizes in H as [H1 H2]. unfold ts1_wire, ts_size.
  rewrite !length_app, !length_be_encode, H1, H2. cbn [length]. lia.
Qed.

(** * Emission *)

Lemma its_valid g np :
  known_payload np ->
  valid_fields ikev2_ts_desc (sd_fields ikev2_ts_desc) (its g np) fs0 /\
  (forall total, wire (len_bytes total) (sd_fields ikev2_ts_desc) (its g np) fs0 =
    [np; 0] ++ be_encode 2 total ++ [1; 0; 0; 0]) /\
  (forall total, host_values total (sd_fields ikev2_ts_desc) (its g np) fs0 =
    [FNum np; FNum 0; FNum total; FNum 1; FBytes [0]; FBytes [0; 0]]).
Proof.
  intros [Hb [s Hs]]. assert (np mod 2 ^ (8 * 1) = np) as Hm by (apply Z.mod_small; exact Hb).
  split; [|split].
  - unfold its. cbn [sd_fields ikev2_ts_desc ikev2ts_fields valid_fields fd_type fd_size val_num].
    cbn [deferred is_lenfld andb fd_type]. rewrite Hm. split; [eauto|]. split; [|vm_compute; eauto 10].
    unfold check_value, enum_check, enum_of. cbn [fd_type fd_desc]. by rewrite Hs.
  - intros total. unfold its. cbn [sd_fields ikev2_ts_desc ikev2ts_fields wire fd_type fd_size val_num].
    cbn [deferred is_lenfld andb fd_type]. rewrite Hm. change (Z.to_nat 1) with 1%nat. rewrite be_encode_1 by done.
    done.
  - intros total. unfold its. cbn [sd_fields ikev2_ts_desc ikev2ts_fields host_values fd_type fd_size val_num].
    cbn [deferred is_lenfld andb fd_type]. rewrite Hm. done.
Qed.

(** The fixed part of one selector; [sellen] is the member that is not sent. *)
Definition its1 (sellen : Z) (ts : traffic_selector) : list fval :=
  [FNum (ts_type ts); FNum (ipprotoid ts); FNum sellen; FNum (startport ts); FNum (endport ts)].

Lemma its1_valid sellen ts :
  wire_ts ts ->
  valid_fields ikev2_ts1_desc (sd_fields ikev2_ts1_desc) (its1 sellen ts) fs0 /\
  (forall total, wire (len_bytes total) (sd_fields ikev2_ts1_desc) (its1 sellen ts) fs0 =
    [ts_type ts; ipprotoid ts] ++ be_encode 2 total ++ be_encode 2 (startport ts) ++ be_encode 2 (endport ts)) /\
  (forall total, host_values total (sd_fields ikev2_ts1_desc) (its1 sellen ts) fs0 =
    [FNum (ts_type ts); FNum (ipprotoid ts); FNum total; FNum (startport ts); FNum (endport ts)]).
Proof.
  intros (Ht&Hp&Hlo&Hhi&_).
  assert (ts_type ts mod 2 ^ (8 * 1) = ts_type ts) as Hm1 by (destruct Ht as [-> | ->]; done).
  assert (byteZ (ts_type ts)) as Hb by (destruct Ht as [-> | ->]; by_decide).
  assert (ipprotoid ts mod 2 ^ (8 * 1) = ipprotoid ts) as Hm2 by (apply Z.mod_small; exact Hp).
  assert (forall n, 0 <= n < 2 ^ 16 -> n mod 2 ^ (8 * 2) = n) as Hm by (intros n Hn; apply Z.mod_small; exact Hn).
  unfold its1. cbn [sd_fields ikev2_ts1_desc ikev2ts1_fields valid_fields wire host_values fd_type fd_size val_num].
  cbn [deferred is_lenfld andb negb immediate fs0 next_fs fd_type]. rewrite Hm1, Hm2, !Hm by done.
  change (Z.to_nat 1) with 1%nat. rewrite !be_encode_1 by done. split; [|done]. split; [by eexists|]. split.
  - unfold check_value, enum_check, enum_of. cbn [fd_type fd_desc]. destruct Ht as [-> | ->]; done.
  - repeat (split; [by eexists|]; split; [done|]). done.
Qed.

Lemma emit_addresses_wrote s e ts o st q :
  wire_ts ts -> ps_pbs st !! o = Some q -> wf_pbs (ps_mem st) q ->
  2 * Z.of_nat (addr_size ts) <= roof q - cur q ->
  exists st', emit_addresses (addr_size ts) s e ts o st = Ok st' /\
    wrote [] o (sin_addr (r_start (net ts)) ++ sin_addr (r_end (net ts))) st st'.
Proof.
  intros Hts Hq Hw Hr. apply wire_ts_sizes in Hts as [H1 H2]. unfold emit_addresses, addr_octets.
  rewrite !decide_True, !bind_Ok by done.
  destruct (out_raw_wrote (sin_addr (r_start (net ts))) o s st q) as (st1&->&W1); [done|done|lia|].
  cbn [or_internal]. rewrite !bind_Ok.
  destruct (wrote_stream _ _ _ _ _ _ W1 Hq Hw ltac:(lia)) as [Hq1 Hw1].
  destruct (out_raw_wrote (sin_addr (r_end (net ts))) o e st1 _ Hq1 Hw1) as (st2&->&W2); [simpl; lia|].
  exists st2. split; [done|]. change (@nil nat) with (@nil nat ++ []). by eapply wrote_app.
Qed.

Lemma emit_ts_wrote g outs o1 o2 np ts st p :
  wire_ts ts -> known_payload np -> ps_pbs st !! outs = Some p -> wf_pbs (ps_mem st) p ->
  outs <> o1 -> outs <> o2 -> o1 <> o2 -> 8 + Z.of_nat (ts_size ts) <= roof p - cur p ->
  exists st', ikev2_emit_ts g outs o1 o2 np ts st = Ok st' /\ wrote [o1; o2] outs (ts_wire np [ts]) st st'.
Proof.
  intros Hts Hnp Hp Hwp N1 N2 N3 Hroom. destruct (its_valid g np Hnp) as (Hv&Hwire&_).
  assert (ts_size ts = 8 + 2 * addr_size ts)%nat as Hsz by done.
  assert ((addr_size ts = 4 \/ addr_size ts = 16)%nat) as Has by (unfold addr_size; case_match; lia).
  destruct (object_wrote _ ikev2_ts_desc outs o1 st p eq_refl Hp Hwp N1 Hv) as (st1&q1&Ho1&Hq1&Hw1&Hc1&Hr1&Close1); [cbn; lia|].
  destruct (its1_valid (if ts_type ts =? IKEv2_TS_IPV4_ADDR_RANGE then 2 * 4 + 8 else 2 * 16 + 8) ts Hts) as (Hv1&Hwire1&_).
  destruct (object_wrote _ ikev2_ts1_desc o1 o2 st1 q1 eq_refl Hq1 Hw1 N3 Hv1) as (st2&q2&Ho2&Hq2&Hw2&Hc2&Hr2&Close2); [cbn in *; lia|].
  cbn [sd_size ikev2_ts_desc ikev2_ts1_desc] in *.
  destruct (emit_addresses_wrote (if ts_type ts =? IKEv2_TS_IPV4_ADDR_RANGE then "ipv4 start" else "ipv6 start")
    (if ts_type ts =? IKEv2_TS_IPV4_ADDR_RANGE then "ipv4 end" else "ipv6 end") ts o2 st2 q2 Hts Hq2 Hw2) as (st3&Ho3&W3); [lia|].
  destruct (wire_ts_sizes ts Hts) as [L1 L2].
  destruct (Close2 (stf_status * pstate)%type [] _ _ W3) as (st4&Ho4&W4); [apply not_elem_of_nil|rewrite length_app; lia..|].
  rewrite Hwire1 in W4. rewrite length_app, L1, L2 in W4.
  replace (8 + Z.of_nat (addr_size ts + addr_size ts)) with (Z.of_nat (ts_size ts)) in W4 by lia.
  assert (wrote [o2] o1 (ts1_wire ts) st1 st4) as W4' by (unfold ts1_wire; rewrite <- !app_assoc in W4; exact W4).
  destruct (Close1 (stf_status * pstate)%type [o2] _ _ W4') as (st5&Ho5&W5);
    [by apply not_elem_of_cons; split; [|apply not_elem_of_nil]|rewrite length_ts1_wire by done; lia..|].
  exists st5. split.
  - unfold ikev2_emit_ts. rewrite Ho1. cbn [or_internal]. rewrite bind_Ok.
    unfold addr_size, its1 in *. destruct Hts as [[Ht|Ht] _]; rewrite !Ht in *; cbn [Z.eqb Pos.eqb IKEv2_TS_IPV4_ADDR_RANGE IKEv2_TS_IPV6_ADDR_RANGE IKEv2_TS_FC_ADDR_RANGE] in *;
      cbn in Ho2; rewrite Ho2; cbn [or_internal]; rewrite bind_Ok, Ho3, bind_Ok, Ho4, bind_Ok; exact Ho5.
  - unfold ts_wire. cbn [fmap list_fmap concat length]. rewrite app_nil_r. rewrite Hwire in W5. rewrite <- !app_assoc in W5. exact W5.
Qed.

(** * Parsing *)

Lemma in_raw_reads bs o name st q :
  ps_pbs st !! o = Some q -> wf_pbs (ps_mem st) q -> Z.of_nat (length bs) <= roof q - cur q ->
  load_bytes (ps_mem st) (cur q) (length bs) = Some bs ->
  in_raw (Z.of_nat (length bs)) o name st =
  Ok (bs, put_pbs o (set_cur (cur q + Z.of_nat (length bs)) q) st).
Proof.
  intros Hq Hw Hr Hld. unfold in_raw, get_pbs. rewrite Hq. cbn [defined]. rewrite bind_Ok, (wf_pbs_left _ _ Hw).
  rewrite (proj2 (Z.ltb_ge _ _)), Nat2Z.id, Hld by lia. done.
Qed.

Lemma parse_range_reads family n name addr st q a b :
  ps_pbs st !! addr = Some q -> wf_pbs (ps_mem st) q -> 2 * Z.of_nat n <= roof q - cur q ->
  length a = n -> length b = n ->
  load_bytes (ps_mem st) (cur q) (length (a ++ b)) = Some (a ++ b) ->
  parse_range family (Z.of_nat n) name addr st =
  Ok (mk_range (mk_ip family 0 a) (mk_ip family 0 b),
      put_pbs addr (set_cur (cur q + 2 * Z.of_nat n) q) st).
Proof.
  intros Hq Hw Hr La Lb Hld. apply load_bytes_cat in Hld as [Ha Hb]. unfold parse_range.
  rewrite <- La at 1. rewrite (in_raw_reads a addr name st q) by (done || lia). cbn [or_minus1]. rewrite bind_Ok.
  rewrite <- Lb at 1. destruct Hw as (?&?&Hm).
  erewrite (in_raw_reads b addr name);
    [|apply lookup_insert_eq|split; cbn; [lia|split; [lia|done]]|cbn; lia|exact Hb].
  cbn [or_minus1]. rewrite bind_Ok. unfold put_pbs. cbn [ps_mem ps_pbs]. rewrite insert_insert_eq, set_cur_set_cur.
  cbn [cur set_cur]. rewrite La, Lb. do 5 f_equal. lia.
Qed.

(** A round of the loop reads back one selector. *)
Lemma parse_ts1_reads ts i array_max pbs addr st p :
  wire_ts ts -> ps_pbs st !! pbs = Some p -> wf_pbs (ps_mem st) p -> pbs <> addr -> i < array_max ->
  Z.of_nat (ts_size ts) <= roof p - cur p ->
  load_bytes (ps_mem st) (cur p) (length (ts1_wire ts)) = Some (ts1_wire ts) ->
  exists st', parse_ts1 i array_max pbs addr st = Ok (portless ts, st') /\ ps_mem st' = ps_mem st /\
    ps_pbs st' !! pbs = Some (set_cur (cur p + Z.of_nat (ts_size ts)) p).
Proof.
  intros Hts Hp Hw Hne Hi Hroom Hld. destruct (its1_valid 0 ts Hts) as (Hv&Hwire&Hhost).
  destruct (wire_ts_sizes ts Hts) as [L1 L2]. assert (ts_size ts = 8 + 2 * addr_size ts)%nat as Hsz by done.
  assert ((addr_size ts = 4 \/ addr_size ts = 16)%nat) as Has by (unfold addr_size; case_match; lia).
  set (total := Z.of_nat (ts_size ts)) in *.
  assert (ts1_wire ts = wire (len_bytes total) (sd_fields ikev2_ts1_desc) (its1 0 ts) fs0 ++
    (sin_addr (r_start (net ts)) ++ sin_addr (r_end (net ts)))) as Hsplit
    by (rewrite Hwire; unfold ts1_wire; by rewrite <- !app_assoc).
  rewrite Hsplit in Hld. apply load_bytes_cat in Hld as [Hfix Hrest].
  assert (length (wire (len_bytes total) (sd_fields ikev2_ts1_desc) (its1 0 ts) fs0) = 8%nat) as L0
    by (rewrite Hwire, !length_app, !length_be_encode; done).
  rewrite L0 in Hrest. unfold parse_ts1.
  rewrite (in_struct_wire (its1 0 ts) ikev2_ts1_desc pbs addr st p total); [|done|done|done|done|done| |cbn; lia|exact Hfix].
  2:{ split; [|left; done]. repeat (constructor; [unfold len_fits; cbn; (done || lia)|]). constructor. }
  cbn [or_minus1]. rewrite bind_Ok, Hhost, (proj2 (Z.leb_gt _ _)) by done. set (st1 := mk_ps _ _).
  destruct Hw as (?&?&Hm). set (q := mk_pbs _ _ _ _ _ _ _) in st1.
  assert (forall name, parse_range (ts_family ts) (Z.of_nat (addr_size ts)) name addr st1 =
    Ok (net (portless ts), put_pbs addr (set_cur (cur q + 2 * Z.of_nat (addr_size ts)) q) st1)) as Hrange.
  { intros name. destruct Hts as (_&_&_&_&_&Fs&_&Fe). unfold portless. rewrite Fs, Fe.
    apply parse_range_reads; try done;
      [cbn; rewrite lookup_insert_ne by done; apply lookup_insert_eq
      |split; cbn; [lia|split; [lia|intros x Hx; apply Hm; lia]]|cbn; lia]. }
  exists (put_pbs addr (set_cur (cur q + 2 * Z.of_nat (addr_size ts)) q) st1). split; [|split; [done|]].
  - assert (forall name, (x ← parse_range (ts_family ts) (Z.of_nat (addr_size ts)) name addr st1;
      let '(range, st2) := x in q ← get_pbs st2 addr;
      if pbs_left q =? 0 then Ok (mk_ts (ts_type ts) (ipprotoid ts) (startport ts) (endport ts) range, st2) else Ugh tt) =
      Ok (portless ts, put_pbs addr (set_cur (cur q + 2 * Z.of_nat (addr_size ts)) q) st1)) as Hall.
    { intros name. rewrite Hrange, bind_Ok. unfold get_pbs. cbn [ps_pbs put_pbs]. rewrite lookup_insert_eq.
      run_ok. unfold pbs_left.
      match goal with |- context [u64 ?x] => replace x with 0 by (cbn [roof cur set_cur q sd_size ikev2_ts1_desc]; lia) end.
      done. }
    unfold ts_family in Hall. unfold addr_size in Hall at 1.
    destruct Hts as [[Ht|Ht] _]; rewrite !Ht in *; apply Hall.
  - cbn [ps_pbs put_pbs st1]. rewrite !lookup_insert_ne by done. apply lookup_insert_eq.
Qed.

Lemma parse_ts_loop_reads tss : forall i array_max pbs addr st p,
  Forall wire_ts tss -> ps_pbs st !! pbs = Some p -> wf_pbs (ps_mem st) p -> pbs <> addr ->
  i + Z.of_nat (length tss) <= array_max ->
  let w := concat (ts1_wire <$> tss) in
  Z.of_nat (length w) <= roof p - cur p -> load_bytes (ps_mem st) (cur p) (length w) = Some w ->
  exists st', parse_ts_loop (length tss) i array_max pbs addr st = Ok (portless <$> tss, st').
Proof.
  induction tss as [|ts tss IH]; intros i array_max pbs addr st p Hts Hp Hw Hne Hi w Hroom Hld; [by eexists|].
  apply Forall_cons in Hts as [Ht Hts]. pose proof (length_ts1_wire ts Ht) as Hlen.
  subst w. rewrite fmap_cons in Hroom, Hld. rewrite fmap_cons. cbn [concat length parse_ts_loop] in *. rewrite length_app, Hlen in Hroom.
  apply load_bytes_cat in Hld as [Hld1 Hld2]. rewrite Hlen in Hld2.
  destruct (parse_ts1_reads ts i array_max pbs addr st p) as (st1&->&Hm1&Hp1); try done; [lia..|]. rewrite bind_Ok.
  destruct Hw as (?&?&Hm).
  destruct (IH (i + 1) array_max pbs addr st1 _ Hts Hp1) as [st2 ->]; [|done|lia|cbn [roof cur set_cur]; lia| |by eexists].
  - split; cbn [start cur roof set_cur]; [lia|]. rewrite Hm1. split; [lia|done].
  - by rewrite Hm1.
Qed.

(** ** Whatever the peer sent *)

Lemma in_raw_inv n o name st q :
  0 <= n -> ps_pbs st !! o = Some q -> wf_pbs (ps_mem st) q -> mem_ok (ps_mem st) ->
  match in_raw n o name st with
  | Abort => False
  | Ugh _ => True
  | Ok (bs, st') => Z.of_nat (length bs) = n /\ Forall byteZ bs /\ n <= roof q - cur q /\
      st' = put_pbs o (set_cur (cur q + n) q) st
  end.
Proof.
  intros Hn Hq Hw Hok. unfold in_raw, get_pbs. rewrite Hq. cbn [defined]. rewrite bind_Ok, (wf_pbs_left _ _ Hw).
  destruct (Z.ltb_spec (roof q - cur q) n); [done|]. destruct Hw as (?&?&Hm).
  destruct (load_bytes_mapped (ps_mem st) (cur q) (Z.to_nat n)) as [bs Hbs]; [intros x Hx; apply Hm; lia|].
  rewrite Hbs. run_ok. split_and!; [|by eapply load_bytes_ok|done|done].
  apply length_load_bytes in Hbs. lia.
Qed.

Lemma ts1_members vs :
  Forall2 member_ok (removelast (sd_fields ikev2_ts1_desc)) vs ->
  exists type proto len lo hi, vs = [FNum type; FNum proto; FNum len; FNum lo; FNum hi] /\
    byteZ proto /\ 0 <= lo < 2 ^ 16 /\ 0 <= hi < 2 ^ 16.
Proof.
  cbn [removelast sd_fields ikev2_ts1_desc ikev2ts1_fields]. intros H.
  repeat match goal with
  | H : Forall2 _ (_ :: _) _ |- _ => apply Forall2_cons_inv_l in H as (?&?&?&?&->)
  | H : Forall2 _ [] _ |- _ => apply Forall2_nil_inv_l in H as ->
  | H : member_ok _ _ |- _ => destruct H as (?&->&?)
  | H : exists _, _ |- _ => destruct H
  | H : _ /\ _ |- _ => destruct H
  end. subst. do 5 eexists. split_and!; try reflexivity; done.
Qed.

Lemma parse_range_inv family n name addr st q :
  ps_pbs st !! addr = Some q -> wf_pbs (ps_mem st) q -> mem_ok (ps_mem st) ->
  match parse_range family (Z.of_nat n) name addr st with
  | Abort => False
  | Ugh _ => True
  | Ok (range, st') => exists a b, range = mk_range (mk_ip family 0 a) (mk_ip family 0 b) /\
      length a = n /\ length b = n /\ Forall byteZ a /\ Forall byteZ b /\ 2 * Z.of_nat n <= roof q - cur q /\
      st' = put_pbs addr (set_cur (cur q + 2 * Z.of_nat n) q) st
  end.
Proof.
  intros Hq Hw Hok. unfold parse_range.
  pose proof (in_raw_inv (Z.of_nat n) addr name st q ltac:(lia) Hq Hw Hok) as R1.
  destruct (in_raw (Z.of_nat n) addr name st) as [[a st1]| |]; [|done|done]. cbn [or_minus1]. rewrite bind_Ok.
  destruct R1 as (La&Ba&Hr&->). destruct Hw as (?&?&Hm). set (q1 := set_cur _ q).
  pose proof (in_raw_inv (Z.of_nat n) addr name (put_pbs addr q1 st) q1 ltac:(lia) (lookup_insert_eq _ _ _)) as R2.
  specialize (R2 ltac:(split; cbn; [lia|split; [lia|done]]) Hok).
  destruct (in_raw (Z.of_nat n) addr name (put_pbs addr q1 st)) as [[b st2]| |]; [|done|done].
  cbn [or_minus1]. rewrite bind_Ok. destruct R2 as (Lb&Bb&Hr2&->). cbn [roof cur set_cur q1] in *.
  exists a, b. split_and!; try done; try lia. unfold put_pbs, q1. cbn [ps_mem ps_pbs].
  rewrite insert_insert_eq, set_cur_set_cur. do 3 f_equal. cbn [cur set_cur]. lia.
Qed.

(** Memory is as before, and the stream [pbs] has moved [n] bytes on. *)
Definition read_on (n : Z) (pbs : nat) (p : pb_stream) (st st' : pstate) : Prop :=
  ps_mem st' = ps_mem st /\ ps_pbs st' !! pbs = Some (set_cur (cur p + n) p) /\ 0 <= n <= roof p - cur p.

Definition parsed_ok (i array_max : Z) (pbs : nat) (p : pb_stream) (st : pstate)
    (r : outcome unit (traffic_selector * pstate)) : Prop :=
  match r with
  | Abort => False
  | Ugh _ => True
  | Ok (ts, st') => wire_ts ts /\ portless ts = ts /\ i < array_max /\ read_on (Z.of_nat (ts_size ts)) pbs p st st'
  end.

Lemma parse_ts1_inv i array_max pbs addr st p :
  ps_pbs st !! pbs = Some p -> wf_pbs (ps_mem st) p -> mem_ok (ps_mem st) -> pbs <> addr ->
  parsed_ok i array_max pbs p st (parse_ts1 i array_max pbs addr st).
Proof.
  intros Hp Hw Hok Hne. unfold parse_ts1.
  pose proof (in_struct_inv ikev2_ts1_desc pbs (Some addr) st p eq_refl Hp Hw Hok ltac:(congruence)) as Hin.
  destruct (in_struct ikev2_ts1_desc pbs (Some addr) st) as [[vs st1]| |] eqn:Hi; [|done|done]. cbn [or_minus1].
  apply in_struct_members in Hi; [|done|done]. apply ts1_members in Hi as (type&proto&len&lo&hi&->&Hpr&Hlo&Hhi).
  destruct Hin as (e&He&Hm1&Hpbs). rewrite bind_Ok. destruct (Z.leb_spec array_max i); [done|].
  destruct Hw as (?&?&Hm). cbn [sd_size ikev2_ts1_desc] in *. set (q := mk_pbs _ _ _ _ _ _ _) in Hpbs.
  assert (ps_pbs st1 !! addr = Some q) as Hq by (rewrite Hpbs, lookup_insert_ne by done; apply lookup_insert_eq).
  assert (forall family n name, type = IKEv2_TS_IPV4_ADDR_RANGE /\ family = AF_INET /\ n = 4%nat \/
      type = IKEv2_TS_IPV6_ADDR_RANGE /\ family = AF_INET6 /\ n = 16%nat ->
    parsed_ok i array_max pbs p st (x ← parse_range family (Z.of_nat n) name addr st1;
      let '(range, st2) := x in q ← get_pbs st2 addr;
      if pbs_left q =? 0 then Ok (mk_ts type proto lo hi range, st2) else Ugh tt)) as Hrest.
  { intros family n name Hty. pose proof (parse_range_inv family n name addr st1 q Hq) as R.
    rewrite Hm1 in R. specialize (R ltac:(split; cbn; [lia|split; [lia|intros x Hx; apply Hm; lia]]) Hok).
    destruct (parse_range family (Z.of_nat n) name addr st1) as [[range st2]| |]; [|done|done]. rewrite bind_Ok.
    destruct R as (a&b&->&La&Lb&Ba&Bb&Hr&->). unfold get_pbs. cbn [ps_pbs put_pbs]. rewrite lookup_insert_eq.
    run_ok.
    match goal with |- context [pbs_left ?x =? 0] => destruct (Z.eqb_spec (pbs_left x) 0) as [Hl|]; [|done] end.
    unfold pbs_left in Hl. cbn [roof cur set_cur q] in Hl, Hr. rewrite u64_small in Hl by lia.
    split; [|split; [done|split; [done|]]].
    - unfold wire_ts, ts_family, wf_addr. cbn [ts_type ipprotoid startport endport net r_start r_end sin_family sin_addr].
      destruct Hty as [(->&->&->)|(->&->&->)]; split_and!; (done || auto || lia).
    - unfold read_on, ts_size, addr_size. cbn [ps_mem ps_pbs put_pbs ts_type].
      rewrite !lookup_insert_ne by done. rewrite Hpbs, lookup_insert_eq. split; [done|].
      destruct Hty as [(->&_&->)|(->&_&->)]; cbn [IKEv2_TS_IPV4_ADDR_RANGE IKEv2_TS_IPV6_ADDR_RANGE Z.eqb Pos.eqb];
        (split; [do 2 f_equal|]); lia. }
  destruct (Z.eqb_spec type IKEv2_TS_IPV4_ADDR_RANGE) as [->|]; [apply (Hrest AF_INET 4%nat); auto|].
  destruct (Z.eqb_spec type IKEv2_TS_IPV6_ADDR_RANGE) as [->|]; [apply (Hrest AF_INET6 16%nat); auto|done].
Qed.

Lemma parse_ts_loop_inv n : forall i array_max pbs addr st p,
  ps_pbs st !! pbs = Some p -> wf_pbs (ps_mem st) p -> mem_ok (ps_mem st) -> pbs <> addr ->
  match parse_ts_loop n i array_max pbs addr st with
  | Abort => False
  | Ugh _ => True
  | Ok (tss, st') => length tss = n /\ (n <> 0%nat -> i + Z.of_nat n <= array_max) /\ Forall wire_ts tss /\
      Forall (fun ts => portless ts = ts) tss /\
      read_on (Z.of_nat (sum_list (ts_size <$> tss))) pbs p st st'
  end.
Proof.
  induction n as [|n IH]; intros i array_max pbs addr st p Hp Hw Hok Hne; cbn [parse_ts_loop].
  { split_and!; try done. split_and!; [done|by rewrite Z.add_0_r, set_cur_cur|cbn; destruct Hw; lia..]. }
  pose proof (parse_ts1_inv i array_max pbs addr st p Hp Hw Hok Hne) as R.
  destruct (parse_ts1 i array_max pbs addr st) as [[ts st1]| |]; [|done|done]. rewrite bind_Ok.
  destruct R as (Hts&Hpl&Hi&Hm1&Hp1&Hr1). destruct Hw as (?&?&Hm).
  assert (wf_pbs (ps_mem st1) (set_cur (cur p + Z.of_nat (ts_size ts)) p)) as Hw1
    by (rewrite Hm1; split; cbn [start cur roof set_cur]; [lia|split; [lia|done]]).
  specialize (IH (i + 1) array_max pbs addr st1 _ Hp1 Hw1 ltac:(by rewrite Hm1) Hne).
  destruct (parse_ts_loop n (i + 1) array_max pbs addr st1) as [[tss st2]| |]; [|done|done]. rewrite bind_Ok.
  destruct IH as (Hlen&Hmax&Hwf&Hpls&Hm2&Hp2&Hr2). cbn [cur roof set_cur] in *.
  split_and!; [cbn; lia|destruct n; [cbn; lia|intros _; specialize (Hmax ltac:(done)); lia]|by constructor|by constructor|].
  change (sum_list (ts_size <$> ts :: tss)) with (ts_size ts + sum_list (ts_size <$> tss))%nat. unfold read_on. rewrite Hm2, Hp2, set_cur_set_cur, Nat2Z.inj_add.
  split_and!; [done|do 2 f_equal; lia|lia..].
Qed.

(** * Properties *)

(** C24: whatever bytes a peer put into a traffic selector payload, [ikev2_parse_ts] neither stops
    the process nor reads outside the payload; when it succeeds it has filled in as many entries
    as the payload announced, no more than the array holds, each of them a well-formed selector
    whose addresses belong to the announced family, and it has consumed exactly their bytes. *)
Theorem parse_ts_safe isat_num array_max pbs addr st p :
  0 <= isat_num -> 0 <= array_max ->
  ps_pbs st !! pbs = Some p -> wf_pbs (ps_mem st) p -> mem_ok (ps_mem st) -> pbs <> addr ->
  match ikev2_parse_ts isat_num array_max pbs addr st with
  | Abort => False
  | Ugh _ => True
  | Ok (tss, st') => Z.of_nat (length tss) = isat_num /\ isat_num <= array_max /\ Forall wire_ts tss /\
      read_on (Z.of_nat (sum_list (ts_size <$> tss))) pbs p st st'
  end.
Proof.
  intros Hn Ha Hp Hw Hok Hne. pose proof (parse_ts_loop_inv (Z.to_nat isat_num) 0 array_max pbs addr st p Hp Hw Hok Hne) as R.
  unfold ikev2_parse_ts. destruct (parse_ts_loop _ _ _ _ _ _) as [[tss st']| |]; [|done|done].
  destruct R as (Hl&Hmax&Hwf&_&Hr). split_and!; [lia| |done|done].
  destruct (decide (isat_num = 0)); [lia|]. specialize (Hmax ltac:(lia)). lia.
Qed.

(** An IPv4 selector on the wire. *)
Definition ts10_bytes : list Z := [7; 6; 0; 16; 0; 22; 0; 22; 10; 0; 0; 0; 10; 255; 255; 255].

Lemma parse_ts_safe_witness :
  exists tss st', ikev2_parse_ts 1 16 0 1 (message ts10_bytes 0) = Ok (tss, st') /\
    Forall wire_ts tss /\ ps_mem st' = ps_mem (message ts10_bytes 0).
Proof.
  pose proof (parse_ts_safe 1 16 0 1 (message ts10_bytes 0) (message_pbs ts10_bytes) ltac:(lia) ltac:(lia)
    (message_lookup _ _) (message_wf ts10_bytes 0 ltac:(by_decide))
    ltac:(by apply buffer_ok; repeat constructor) ltac:(by_decide)) as H.
  destruct (ikev2_parse_ts 1 16 0 1 (message ts10_bytes 0)) as [[tss st']| |] eqn:He.
  - exists tss, st'. destruct H as (_&_&Hwf&Hm&_). split; [first [exact He|reflexivity]|]. split; [exact Hwf|exact Hm].
  - exfalso. revert He. vm_compute. discriminate.
  - destruct H.
Defined.

Lemma emit_routes_wrote outs o1 o2 np ts_i ts_r sr : forall g st p,
  wire_ts ts_i -> wire_ts ts_r -> known_payload np -> ps_pbs st !! outs = Some p -> wf_pbs (ps_mem st) p ->
  outs <> o1 -> outs <> o2 -> o1 <> o2 ->
  let w := concat (replicate (length sr) (ts_wire ISAKMP_NEXT_v2TSr [ts_i] ++ ts_wire np [ts_r])) in
  Z.of_nat (length w) <= roof p - cur p ->
  exists st' T, emit_routes g outs o1 o2 np ts_i ts_r sr st = Ok st' /\ wrote T outs w st st'.
Proof.
  assert (forall np ts, wire_ts ts -> Z.of_nat (length (ts_wire np [ts])) = 8 + Z.of_nat (ts_size ts)) as Hl.
  { intros n ts Hts. unfold ts_wire. cbn [fmap list_fmap concat]. rewrite !length_app, length_be_encode, length_ts1_wire by done.
    cbn [length]. lia. }
  assert (known_payload ISAKMP_NEXT_v2TSr) as Htsr by (split; [by_decide|by eexists]).
  induction sr as [|r sr IH]; intros g st p Hi Hr Hnp Hp Hw N1 N2 N3 w Hroom.
  { exists st, []. split; [done|]. exists p. cbn. rewrite Z.add_0_r, set_cur_cur. done. }
  subst w. cbn [length replicate concat emit_routes] in *. rewrite !length_app, !Nat2Z.inj_add, !Hl in Hroom by done.
  destruct (emit_ts_wrote (g (2 * length sr)%nat) outs o1 o2 _ ts_i st p Hi Htsr Hp Hw N1 N2 N3) as (st1&->&W1); [lia|].
  destruct (wrote_stream _ _ _ _ _ _ W1 Hp Hw) as [Hp1 Hw1]; [rewrite Hl by done; lia|]. rewrite bind_Ok.
  destruct (emit_ts_wrote (g (2 * length sr + 1)%nat) outs o1 o2 _ ts_r st1 _ Hr Hnp Hp1 Hw1 N1 N2 N3) as (st2&->&W2);
    [cbn [roof cur set_cur]; rewrite Hl by done; lia|].
  destruct (wrote_stream _ _ _ _ _ _ W2 Hp1 Hw1) as [Hp2 Hw2]; [cbn [roof cur set_cur]; rewrite !Hl by done; lia|].
  rewrite bind_Ok.
  destruct (IH g st2 _ Hi Hr Hnp Hp2 Hw2 N1 N2 N3) as (st3&T&->&W3); [cbn [roof cur set_cur]; rewrite !Hl by done; lia|].
  exists st3, (([o1; o2] ++ [o1; o2]) ++ T). split; [done|].
  eapply wrote_app; [eapply wrote_app; [exact W1|exact W2]|exact W3].
Qed.

(** [ikev2_calc_emit_ts] always succeeds on well-formed selectors when there is room, and what it
    adds to the message is exactly, for each route of the connection, a TSi payload and a TSr
    payload in the format of RFC 7296, with one selector each: that of the state, the same for
    every route. Uninitialised members of its local structures never reach the message. *)
Theorem calc_emit_ts_correct g outs o1 o2 role c0 np this that st p :
  wire_ts this -> wire_ts that -> known_payload np -> ps_pbs st !! outs = Some p -> wf_pbs (ps_mem st) p ->
  outs <> o1 -> outs <> o2 -> o1 <> o2 ->
  let '(ts_i, ts_r) := if is_initiator role then (this, that) else (that, this) in
  let w := concat (replicate (length (spds c0)) (ts_wire ISAKMP_NEXT_v2TSr [ts_i] ++ ts_wire np [ts_r])) in
  Z.of_nat (length w) <= roof p - cur p ->
  exists st', ikev2_calc_emit_ts g outs o1 o2 role c0 np this that st = Ok st' /\
    ps_pbs st' !! outs = Some (set_cur (cur p + Z.of_nat (length w)) p) /\
    load_bytes (ps_mem st') (cur p) (length w) = Some w /\
    (forall x, x < cur p \/ cur p + Z.of_nat (length w) <= x -> ps_mem st' !! x = ps_mem st !! x).
Proof.
  intros Ht1 Ht2 Hnp Hp Hw N1 N2 N3. unfold ikev2_calc_emit_ts.
  assert (wire_ts (if is_initiator role then this else that) /\ wire_ts (if is_initiator role then that else this)) as [Hi Hr]
    by (destruct (is_initiator role); done).
  destruct (is_initiator role); cbv iota beta; intros Hroom.
  all: destruct (emit_routes_wrote outs o1 o2 np _ _ (spds c0) g st p Hi Hr Hnp Hp Hw N1 N2 N3 Hroom)
    as (st'&T&->&(q&Hq&Hc&Hld&Hfr&_)); rewrite Hp in Hq; injection Hq as <-; exists st'; split_and!; done.
Qed.

(** A selector for 10.0.0.0/8, TCP port 22, and what is unset while it is emitted. *)
Definition ts10 : traffic_selector :=
  mk_ts IKEv2_TS_IPV4_ADDR_RANGE 6 22 22
    (mk_range (mk_ip AF_INET 0 [10; 0; 0; 0]) (mk_ip AF_INET 0 [10; 255; 255; 255])).
Definition unset : its_garbage := mk_its 77 78 79 80 81.

Lemma ts10_wf : wire_ts ts10.
Proof. split_and!; by_decide. Qed.

Definition conn10 (more : list spd_route) : ts_conn :=
  mk_tconn CK_PERMANENT 0 (mk_spd (an_end net10 22 6) (an_end net10 22 6)) more.

Lemma calc_emit_ts_correct_witness :
  exists st', ikev2_calc_emit_ts (fun _ => unset) 0 1 2 ORIGINAL_INITIATOR (conn10 []) 0 ts10 ts10
                (message (replicate 64 0) 0) = Ok st' /\
    load_bytes (ps_mem st') 4096 48 = Some (ts_wire 45 [ts10] ++ ts_wire 0 [ts10]).
Proof.
  destruct (calc_emit_ts_correct (fun _ => unset) 0 1 2 ORIGINAL_INITIATOR (conn10 []) 0 ts10 ts10
    (message (replicate 64 0) 0) (message_pbs (replicate 64 0)) ts10_wf ts10_wf
    ltac:(split; [by_decide|by eexists]) (message_lookup _ _) (message_wf (replicate 64 0) 0 ltac:(by_decide))
    ltac:(by_decide) ltac:(by_decide) ltac:(by_decide) ltac:(by_decide)) as (st'&H1&_&H2&_).
  exists st'. split; [exact H1|exact H2].
Defined.

(** C25: a peer that reads an emitted payload gets the selector back: [ikev2_emit_ts] succeeds,
    [in_struct] on the payload finds the next payload type, one selector and zero padding, and
    [ikev2_parse_ts] returns that selector. *)
Theorem ts_roundtrip g outs o1 o2 np ts st p ins pd addr array_max :
  wire_ts ts -> known_payload np -> ps_pbs st !! outs = Some p -> wf_pbs (ps_mem st) p ->
  outs <> o1 -> outs <> o2 -> o1 <> o2 -> ins <> pd -> pd <> addr -> 1 <= array_max ->
  let len := 8 + Z.of_nat (ts_size ts) in
  len <= roof p - cur p ->
  exists st1 st2 st3,
    ikev2_emit_ts g outs o1 o2 np ts st = Ok st1 /\
    in_struct ikev2_ts_desc ins (Some pd) (put_pbs ins (init_pbs (cur p) len "payload") st1) =
      Ok ([FNum np; FNum 0; FNum len; FNum 1; FBytes [0]; FBytes [0; 0]], st2) /\
    ikev2_parse_ts 1 array_max pd addr st2 = Ok ([portless ts], st3).
Proof.
  intros Hts Hnp Hp Hw N1 N2 N3 N4 N5 Hmax len Hroom. destruct (its_valid g np Hnp) as (Hv&Hwire&Hhost).
  destruct (emit_ts_wrote g outs o1 o2 np ts st p Hts Hnp Hp Hw N1 N2 N3 Hroom) as (st1&H1&W).
  exists st1. destruct Hw as (?&?&Hm). pose proof (wrote_mapped _ _ _ _ _ _ _ W Hm) as Hm1.
  destruct W as (q&Hq&_&Hld&_). rewrite Hp in Hq. injection Hq as <-.
  assert (ts_size ts = 8 + 2 * addr_size ts)%nat as Hsz by done.
  assert ((addr_size ts = 4 \/ addr_size ts = 16)%nat) as Has by (unfold addr_size; case_match; lia).
  set (st1' := put_pbs ins (init_pbs (cur p) len "payload") st1).
  assert (wf_pbs (ps_mem st1') (init_pbs (cur p) len "payload")) as Hw1
    by (split; cbn [start cur roof init_pbs]; [lia|split; [lia|intros x Hx; apply Hm1; lia]]).
  assert (ts_wire np [ts] = wire (len_bytes len) (sd_fields ikev2_ts_desc) (its g np) fs0 ++ ts1_wire ts) as Hsplit.
  { rewrite Hwire. unfold ts_wire. cbn [fmap list_fmap concat]. rewrite app_nil_r, length_ts1_wire by done. done. }
  rewrite Hsplit in Hld. apply load_bytes_cat in Hld as [Hfix Hrest].
  rewrite Hwire, !length_app, length_be_encode in Hrest.
  destruct (parse_ts_loop_reads [ts] 0 array_max pd addr (mk_ps (ps_mem st1)
    (<[ins := set_cur (cur p + len) (init_pbs (cur p) len "payload")]>
      (<[pd := mk_pbs (Some ins) (Some ikev2_ts_desc) (sd_name ikev2_ts_desc) (cur p) (cur p + 8) (cur p + len) None]>
        (ps_pbs st1'))))
    (mk_pbs (Some ins) (Some ikev2_ts_desc) (sd_name ikev2_ts_desc) (cur p) (cur p + 8) (cur p + len) None))
    as [st3 H3]; try done.
  - by constructor.
  - cbn. rewrite lookup_insert_ne by done. apply lookup_insert_eq.
  - split; cbn [start cur roof]; [lia|split; [lia|intros x Hx; apply Hm1; lia]].
  - cbn [fmap list_fmap concat]. rewrite app_nil_r, length_ts1_wire by done. cbn [roof cur]. lia.
  - cbn [fmap list_fmap concat]. rewrite app_nil_r. exact Hrest.
  - eexists _, st3. split; [done|]. split; [|exact H3].
    rewrite (in_struct_wire (its g np) ikev2_ts_desc ins pd st1' (init_pbs (cur p) len "payload") len);
      [by rewrite Hhost|done|apply lookup_insert_eq|done|done|done| |cbn; lia|exact Hfix].
    split; [|left; done]. repeat (constructor; [unfold len_fits; cbn; (done || lia)|]). constructor.
Qed.

Lemma ts_roundtrip_witness :
  exists st1 st2 st3,
    ikev2_emit_ts unset 0 1 2 45 ts10 (message (replicate 64 0) 0) = Ok st1 /\
    in_struct ikev2_ts_desc 3 (Some 4%nat) (put_pbs 3 (init_pbs 4096 24 "payload") st1) =
      Ok ([FNum 45; FNum 0; FNum 24; FNum 1; FBytes [0]; FBytes [0; 0]], st2) /\
    ikev2_parse_ts 1 16 4 5 st2 = Ok ([ts10], st3).
Proof.
  apply (ts_roundtrip unset 0 1 2 45 ts10 (message (replicate 64 0) 0) (message_pbs (replicate 64 0)) 3 4 5 16);
    [exact ts10_wf|split; [by_decide|by eexists]|apply message_lookup|apply message_wf; by_decide|by_decide..].
Defined.
