(* ===== verification/Replay.v ===== *)
(** The anti-replay window of KLIPS: the window routines and the two steps of the receive
    state machine that use them, in linux/net/ipsec/ipsec_rcv.c.

    Integers are kept at their widths: the window size is a [__u8], the bitmap a [__u64],
    and [1 << diff] is an [int], so it is only defined for [diff] below 32, and bit 31 makes
    it negative: as a 64-bit mask it then covers the bits 31 to 63. *)
From S2P Require Import Prelude.

(** What the steps use of [struct ipsec_sa]. *)
Record ipsec_sa := mk_sa {
  ips_replaywin : Z;
  ips_replaywin_lastseq : Z;
  ips_replaywin_bitmap : Z;
  ips_replaywin_maxdiff : Z;
  ips_auth_errs : Z;
  ips_replaywin_errs : Z
}.

#[export] Instance ipsec_sa_eq_dec : EqDecision ipsec_sa.
Proof. solve_decision. Defined.

(** [1 << diff], converted to the type of the bitmap. *)
Definition bit_mask {E} (diff : Z) : outcome E Z :=
  passert (diff <? 32) ;; Ok (u64 (s32 (Z.shiftl 1 diff))).

(** [bitmap << diff] *)
Definition bitmap_shl {E} (bitmap diff : Z) : outcome E Z :=
  passert (diff <? 64) ;; Ok (u64 (Z.shiftl bitmap diff)).

Definition set_replaywin (sa : ipsec_sa) (w : Z) : ipsec_sa :=
  mk_sa (u8 w) (ips_replaywin_lastseq sa) (ips_replaywin_bitmap sa) (ips_replaywin_maxdiff sa)
    (ips_auth_errs sa) (ips_replaywin_errs sa).
Definition set_bitmap (sa : ipsec_sa) (b : Z) : ipsec_sa :=
  mk_sa (ips_replaywin sa) (ips_replaywin_lastseq sa) b (ips_replaywin_maxdiff sa)
    (ips_auth_errs sa) (ips_replaywin_errs sa).
Definition set_lastseq (sa : ipsec_sa) (seq maxdiff : Z) : ipsec_sa :=
  mk_sa (ips_replaywin sa) seq (ips_replaywin_bitmap sa) maxdiff (ips_auth_errs sa)
    (ips_replaywin_errs sa).
Definition count_auth_err (sa : ipsec_sa) : ipsec_sa :=
  mk_sa (ips_replaywin sa) (ips_replaywin_lastseq sa) (ips_replaywin_bitmap sa)
    (ips_replaywin_maxdiff sa) (u32 (ips_auth_errs sa + 1)) (ips_replaywin_errs sa).
Definition count_replay_err (sa : ipsec_sa) : ipsec_sa :=
  mk_sa (ips_replaywin sa) (ips_replaywin_lastseq sa) (ips_replaywin_bitmap sa)
    (ips_replaywin_maxdiff sa) (ips_auth_errs sa) (u32 (ips_replaywin_errs sa + 1)).

(** [pfkey_sa_process]: a new SA starts with an empty window. *)
Definition new_sa (sadb_sa_replay : Z) : ipsec_sa := mk_sa (u8 sadb_sa_replay) 0 0 0 0 0.

(** [enum ipsec_rcv_value] of linux/include/libreswan/ipsec_rcv.h *)
Inductive ipsec_rcv_value :=
  | IPSEC_RCV_PENDING | IPSEC_RCV_LASTPROTO | IPSEC_RCV_OK | IPSEC_RCV_BADPROTO | IPSEC_RCV_BADLEN
  | IPSEC_RCV_ESP_BADALG | IPSEC_RCV_3DES_BADBLOCKING | IPSEC_RCV_ESP_DECAPFAIL
  | IPSEC_RCV_DECAPFAIL | IPSEC_RCV_SAIDNOTFOUND | IPSEC_RCV_IPCOMPALONE | IPSEC_RCV_IPCOMPFAILED
  | IPSEC_RCV_SAIDNOTLIVE | IPSEC_RCV_FAILEDINBOUND | IPSEC_RCV_LIFETIMEFAILED | IPSEC_RCV_BADAUTH
  | IPSEC_RCV_REPLAYFAILED | IPSEC_RCV_AUTHFAILED | IPSEC_RCV_REPLAYROLLED | IPSEC_RCV_BAD_DECRYPT
  | IPSEC_RCV_REALLYBAD | IPSEC_RCV_ERRMEMALLOC.

#[export] Instance ipsec_rcv_value_eq_dec : EqDecision ipsec_rcv_value.
Proof. solve_decision. Defined.

(** What the steps use of [struct ipsec_rcv_state]; [has_auth] is the condition on
    [authfuncs], the OCF session and [ixt_a] that both of them start with. *)
Record ipsec_rcv_state := mk_irs {
  has_auth : bool;
  replay : Z;
  authenticator : option (list Z);
  hash : list Z;
  authlen : nat;
  auth_checked : bool
}.

Definition set_hash (irs : ipsec_rcv_state) (h : list Z) (checked : bool) : ipsec_rcv_state :=
  mk_irs (has_auth irs) (replay irs) (authenticator irs) h (authlen irs) checked.

Section Window.
(** The module parameter; a negative value leaves the window of the SA alone. *)
Context (ipsec_replaywin_override : Z).

Definition override (sa : ipsec_sa) : ipsec_sa :=
  if 0 <=? ipsec_replaywin_override then set_replaywin sa ipsec_replaywin_override else sa.

Definition ipsec_checkreplaywindow (sa : ipsec_sa) (seq : Z) : outcome string (bool * ipsec_sa) :=
  let sa := override sa in
  if ips_replaywin sa =? 0 then Ok (true, sa)
  else if seq =? 0 then Ok (false, sa)
  else if ips_replaywin_lastseq sa <? seq then Ok (true, sa)
  else
    let diff := u32 (ips_replaywin_lastseq sa - seq) in
    if ips_replaywin sa <=? diff then Ok (false, sa)
    else
      bit ← bit_mask diff;
      Ok (Z.land (ips_replaywin_bitmap sa) bit =? 0, sa).

Definition ipsec_updatereplaywindow (sa : ipsec_sa) (seq : Z) : outcome string (bool * ipsec_sa) :=
  let sa := override sa in
  if ips_replaywin sa =? 0 then Ok (true, sa)
  else if seq =? 0 then Ok (false, sa)
  else if ips_replaywin_lastseq sa <? seq then
    let diff := u32 (seq - ips_replaywin_lastseq sa) in
    bitmap ← (if diff <? ips_replaywin sa
              then b ← bitmap_shl (ips_replaywin_bitmap sa) diff; Ok (Z.lor b 1)
              else Ok 1);
    let d := u32 (u32 (seq - ips_replaywin_lastseq sa) - 1) in
    let maxdiff := if ips_replaywin_maxdiff sa <? d then d else ips_replaywin_maxdiff sa in
    Ok (true, set_lastseq (set_bitmap sa bitmap) seq maxdiff)
  else
    let diff := u32 (ips_replaywin_lastseq sa - seq) in
    if ips_replaywin sa <=? diff then Ok (false, sa)
    else
      bit ← bit_mask diff;
      if negb (Z.land (ips_replaywin_bitmap sa) bit =? 0) then Ok (false, sa)
      else Ok (true, set_bitmap sa (Z.lor (ips_replaywin_bitmap sa) bit)).

(** [rcv_calc_auth] is the function pointer of [proto_funcs]: it computes the hash. *)
Definition ipsec_rcv_auth_calc
  (rcv_calc_auth : option (ipsec_rcv_state -> ipsec_rcv_value * ipsec_rcv_state))
  (sa : ipsec_sa) (irs : ipsec_rcv_state) :
  outcome string (ipsec_rcv_value * ipsec_sa * ipsec_rcv_state) :=
  if has_auth irs then
    match authenticator irs with
    | None => Ok (IPSEC_RCV_BADAUTH, count_auth_err sa, irs)
    | Some _ =>
        '(ok, sa) ← ipsec_checkreplaywindow sa (u32 (replay irs));
        if negb ok then Ok (IPSEC_RCV_REPLAYFAILED, count_replay_err sa, irs)
        else
          match rcv_calc_auth with
          | None => Ok (IPSEC_RCV_BADAUTH, sa, irs)
          | Some f => let '(rv, irs) := f irs in Ok (rv, sa, irs)
          end
    end
  else Ok (IPSEC_RCV_OK, sa, irs).

(** [ipsec_sa_rm] takes the SA out of the table; the last result says whether it did. *)
Definition ipsec_rcv_auth_chk (sa : ipsec_sa) (irs : ipsec_rcv_state) :
  outcome string (ipsec_rcv_value * ipsec_sa * ipsec_rcv_state * bool) :=
  if auth_checked irs then Ok (IPSEC_RCV_OK, sa, irs, false)
  else if has_auth irs then
    a ← defined (authenticator irs);
    if negb (bool_decide (take (authlen irs) (hash irs) = take (authlen irs) a))
    then Ok (IPSEC_RCV_AUTHFAILED, count_auth_err sa, irs, false)
    else
      let irs := set_hash irs (replicate (authlen irs) 0 ++ drop (authlen irs) (hash irs)) false in
      if negb (ips_replaywin sa =? 0) && (replay irs =? 0)
      then Ok (IPSEC_RCV_REPLAYROLLED, sa, irs, true)
      else
        '(ok, sa) ← ipsec_updatereplaywindow sa (u32 (replay irs));
        if negb ok then Ok (IPSEC_RCV_REPLAYROLLED, count_replay_err sa, irs, false)
        else Ok (IPSEC_RCV_OK, sa, set_hash irs (hash irs) true, false)
  else Ok (IPSEC_RCV_OK, sa, irs, false).

End Window.

(** * The window a receiver should keep (RFC 4303, section 3.4.3) *)

Record window := mk_window { w_last : Z; w_seen : gset Z }.

Definition accepts (W : Z) (w : window) (seq : Z) : bool :=
  (0 <? seq) && ((w_last w <? seq) || ((w_last w - seq <? W) && bool_decide (seq ∉ w_seen w))).

Definition accept (w : window) (seq : Z) : window :=
  mk_window (Z.max (w_last w) seq) ({[seq]} ∪ w_seen w).

(** The SA keeps the window [w]: bit [d] of the map stands for [lastseq - d]. *)
Record keeps_window (ov W : Z) (sa : ipsec_sa) (w : window) : Prop := {
  kw_win : ips_replaywin (override ov sa) = W;
  kw_last : ips_replaywin_lastseq sa = w_last w;
  kw_range : 0 <= w_last w < 2 ^ 32;
  kw_seen s : s ∈ w_seen w -> 1 <= s <= w_last w;
  kw_bits d : 0 <= d < W -> Z.testbit (ips_replaywin_bitmap sa) d = bool_decide (w_last w - d ∈ w_seen w)
}.

(** * Bits *)

Lemma bit_mask_pow2 d : 0 <= d < 31 -> @bit_mask string d = Ok (2 ^ d).
Proof.
  intros Hd. unfold bit_mask. rewrite (proj2 (Z.ltb_lt d 32)) by lia. cbn [passert]. rewrite bind_Ok. f_equal.
  apply Z.eqb_eq. apply (below_forall 31 (fun d => u64 (s32 (Z.shiftl 1 d)) =? 2 ^ d)); [reflexivity|lia].
Qed.

Lemma bit_mask_32 d :
  0 <= d < 32 -> exists m, @bit_mask string d = Ok m /\ 0 <= m /\ Z.testbit m d = true.
Proof.
  intros Hd. unfold bit_mask. rewrite (proj2 (Z.ltb_lt d 32)) by lia. cbn [passert]. rewrite bind_Ok.
  eexists. split; [done|]. split; [apply u64_bound|].
  apply (below_forall 32 (fun d => Z.testbit (u64 (s32 (Z.shiftl 1 d))) d)); [reflexivity|lia].
Qed.

Lemma land_pow2 b d : 0 <= d -> (Z.land b (2 ^ d) =? 0) = negb (Z.testbit b d).
Proof.
  intros Hd. destruct (Z.testbit b d) eqn:E; cbn [negb].
  - apply Z.eqb_neq. intros H0. assert (Z.testbit (Z.land b (2 ^ d)) d = false) as Hf by (by rewrite H0, Z.bits_0).
    by rewrite Z.land_spec, E, Z.pow2_bits_true in Hf.
  - apply Z.eqb_eq. apply Z.bits_inj'. intros i Hi. rewrite Z.land_spec, Z.bits_0.
    destruct (decide (i = d)) as [->|Hn]; [by rewrite E|]. by rewrite Z.pow2_bits_false, andb_false_r.
Qed.

(** A bit of the shifted map. *)
Lemma shifted_bit b diff i :
  0 <= diff -> 0 <= i < 64 ->
  Z.testbit (Z.lor (u64 (Z.shiftl b diff)) 1) i = (i =? 0) || Z.testbit b (i - diff).
Proof.
  intros Hd Hi. rewrite Z.lor_spec. unfold u64. rewrite Z.mod_pow2_bits_low by lia. rewrite Z.shiftl_spec by lia.
  rewrite orb_comm. destruct (Z.eqb_spec i 0) as [->|Hn]; [done|]. change 1 with (2 ^ 0).
  by rewrite Z.pow2_bits_false by lia.
Qed.

Lemma override_window ov sa sa' :
  ips_replaywin sa = ips_replaywin sa' -> ips_replaywin (override ov sa) = ips_replaywin (override ov sa').
Proof. intros He. unfold override. by destruct (0 <=? ov). Qed.

Lemma override_idem ov sa : override ov (override ov sa) = override ov sa.
Proof. unfold override. by destruct (0 <=? ov) eqn:E. Qed.

Lemma override_fields ov sa :
  ips_replaywin_lastseq (override ov sa) = ips_replaywin_lastseq sa /\
  ips_replaywin_bitmap (override ov sa) = ips_replaywin_bitmap sa.
Proof. unfold override. by destruct (0 <=? ov). Qed.

(** * Refinement *)

Section Refines.
Context (ov W : Z).
Hypothesis HW : 0 < W <= 31.

(** The decision both routines make on a late packet. *)
Lemma late_bit sa w seq :
  keeps_window ov W sa w -> 0 < seq <= w_last w -> w_last w - seq < W ->
  @bit_mask string (u32 (ips_replaywin_lastseq sa - seq)) = Ok (2 ^ (w_last w - seq)) /\
  (Z.land (ips_replaywin_bitmap sa) (2 ^ (w_last w - seq)) =? 0) = bool_decide (seq ∉ w_seen w).
Proof.
  intros Hk Hs Hd. pose proof (kw_range _ _ _ _ Hk). rewrite (kw_last _ _ _ _ Hk), u32_small by lia.
  rewrite bit_mask_pow2 by lia. split; [done|]. rewrite land_pow2, (kw_bits _ _ _ _ Hk) by lia.
  replace (w_last w - (w_last w - seq)) with seq by lia. by rewrite bool_decide_not.
Qed.

Lemma check_refines sa w seq :
  keeps_window ov W sa w -> 0 <= seq < 2 ^ 32 ->
  ipsec_checkreplaywindow ov sa seq = Ok (accepts W w seq, override ov sa).
Proof.
  intros Hk Hs. unfold ipsec_checkreplaywindow, accepts. pose proof (kw_range _ _ _ _ Hk) as Hr.
  destruct (override_fields ov sa) as [Hl Hb]. rewrite (kw_win _ _ _ _ Hk), Hl, Hb, (kw_last _ _ _ _ Hk).
  rewrite (proj2 (Z.eqb_neq W 0)) by lia.
  destruct (Z.eqb_spec seq 0) as [->|]; [done|]. rewrite (proj2 (Z.ltb_lt 0 seq)) by lia. cbn [andb].
  destruct (Z.ltb_spec (w_last w) seq); [done|]. cbn [orb]. rewrite u32_small by lia.
  destruct (Z.leb_spec W (w_last w - seq)); [by rewrite (proj2 (Z.ltb_ge _ _))|].
  rewrite (proj2 (Z.ltb_lt _ _)) by done. cbn [andb].
  destruct (late_bit sa w seq Hk ltac:(lia) ltac:(lia)) as [Hm Hn].
  rewrite (kw_last _ _ _ _ Hk), u32_small in Hm by lia. by rewrite Hm, bind_Ok, Hn.
Qed.

(** The map after a packet beyond the right edge. *)
Lemma advance_bits sa w seq d :
  keeps_window ov W sa w -> w_last w < seq -> 0 <= d < W ->
  Z.testbit (if seq - w_last w <? W then Z.lor (u64 (Z.shiftl (ips_replaywin_bitmap sa) (seq - w_last w))) 1 else 1) d =
  bool_decide (seq - d ∈ {[seq]} ∪ w_seen w).
Proof.
  intros Hk Hs Hd. pose proof (kw_seen _ _ _ _ Hk) as Hseen.
  assert (Hout : d <> 0 -> w_last w < seq - d -> seq - d ∉ {[seq]} ∪ w_seen w).
  { intros Hd0 Hlt [He%elem_of_singleton|Hin]%elem_of_union; [lia|]. specialize (Hseen _ Hin). lia. }
  destruct (Z.eqb_spec d 0) as [->|Hd0].
  { rewrite bool_decide_eq_true_2 by (rewrite Z.sub_0_r; set_solver). destruct (_ <? _); [|done].
    by rewrite shifted_bit by lia. }
  destruct (Z.ltb_spec (seq - w_last w) W).
  - rewrite shifted_bit, (proj2 (Z.eqb_neq d 0)) by lia. cbn [orb].
    destruct (Z.le_gt_cases (seq - w_last w) d) as [Hle|Hgt].
    + rewrite (kw_bits _ _ _ _ Hk) by lia. apply bool_decide_ext.
      replace (w_last w - (d - (seq - w_last w))) with (seq - d) by lia. rewrite elem_of_union, elem_of_singleton.
      split; [auto|]. intros [?|?]; [lia|done].
    + rewrite Z.testbit_neg_r by lia. by rewrite bool_decide_eq_false_2 by (apply Hout; lia).
  - rewrite bool_decide_eq_false_2 by (apply Hout; lia). change 1 with (2 ^ 0). by rewrite Z.pow2_bits_false by lia.
Qed.

Lemma update_refines sa w seq :
  keeps_window ov W sa w -> 0 <= seq < 2 ^ 32 ->
  exists sa', ipsec_updatereplaywindow ov sa seq = Ok (accepts W w seq, sa') /\
    keeps_window ov W sa' (if accepts W w seq then accept w seq else w).
Proof.
  intros Hk Hs. unfold ipsec_updatereplaywindow. pose proof (kw_range _ _ _ _ Hk) as Hr.
  destruct (override_fields ov sa) as [Hl Hb]. pose proof (kw_win _ _ _ _ Hk) as HWin.
  assert (Hk' : keeps_window ov W (override ov sa) w).
  { destruct Hk. split; [by rewrite override_idem|by rewrite Hl|done|done|by rewrite Hb]. }
  rewrite HWin, Hl, Hb, (kw_last _ _ _ _ Hk). rewrite (proj2 (Z.eqb_neq W 0)) by lia. unfold accepts.
  destruct (Z.eqb_spec seq 0) as [->|]; [by exists (override ov sa)|].
  rewrite (proj2 (Z.ltb_lt 0 seq)) by lia. cbn [andb]. destruct (Z.ltb_spec (w_last w) seq) as [Hlt|Hge]; cbn [orb].
  - rewrite (u32_small (seq - w_last w)) by lia.
    assert ((if seq - w_last w <? W then b ← bitmap_shl (ips_replaywin_bitmap sa) (seq - w_last w); Ok (Z.lor b 1)
             else Ok 1) =
            Ok (E := string) (if seq - w_last w <? W then Z.lor (u64 (Z.shiftl (ips_replaywin_bitmap sa) (seq - w_last w))) 1
                else 1)) as ->.
    { destruct (Z.ltb_spec (seq - w_last w) W); [|done]. unfold bitmap_shl.
      by rewrite (proj2 (Z.ltb_lt _ 64)) by lia. }
    rewrite bind_Ok. eexists. split; [reflexivity|]. split; cbn [accept w_last w_seen].
    + by rewrite (override_window ov _ (override ov sa)), override_idem.
    + cbn. lia.
    + lia.
    + intros s [->%elem_of_singleton|Hin]%elem_of_union; [lia|]. pose proof (kw_seen _ _ _ _ Hk s Hin). lia.
    + intros d Hd. rewrite Z.max_r by lia. cbn [ips_replaywin_bitmap set_lastseq set_bitmap].
      by apply advance_bits.
  - rewrite u32_small by lia. destruct (Z.leb_spec W (w_last w - seq)).
    { rewrite (proj2 (Z.ltb_ge _ _)) by done. by exists (override ov sa). }
    rewrite (proj2 (Z.ltb_lt (w_last w - seq) W)) by done. cbn [andb].
    destruct (late_bit sa w seq Hk ltac:(lia) ltac:(lia)) as [Hm Hn].
    rewrite (kw_last _ _ _ _ Hk), u32_small in Hm by lia. rewrite Hm, bind_Ok, Hn.
    case_bool_decide as Hin; cbn [negb]; [|by exists (override ov sa)].
    eexists. split; [reflexivity|]. split; cbn [accept w_last w_seen].
    + by rewrite (override_window ov _ (override ov sa)), override_idem.
    + cbn. rewrite Hl, (kw_last _ _ _ _ Hk). lia.
    + lia.
    + intros s [->%elem_of_singleton|Hs']%elem_of_union; [lia|]. pose proof (kw_seen _ _ _ _ Hk s Hs'). lia.
    + intros d Hd. rewrite Z.max_l by lia. cbn [ips_replaywin_bitmap set_bitmap]. rewrite Z.lor_spec.
      rewrite (kw_bits _ _ _ _ Hk) by done. destruct (decide (d = w_last w - seq)) as [->|Hne].
      * rewrite Z.pow2_bits_true, orb_true_r by lia. symmetry. apply bool_decide_eq_true_2.
        replace (w_last w - (w_last w - seq)) with seq by lia. set_solver.
      * rewrite Z.pow2_bits_false, orb_false_r by lia. apply bool_decide_ext. rewrite elem_of_union, elem_of_singleton.
        split; [auto|]. intros [?|?]; [lia|done].
Qed.

End Refines.

(** * The receive path *)

(** The two steps of one packet, between which steps of other packets on the same SA may
    come: the hash may be computed asynchronously. *)
Inductive rcv_step :=
  | Calc (f : option (ipsec_rcv_state -> ipsec_rcv_value * ipsec_rcv_state)) (irs : ipsec_rcv_state)
  | Chk (irs : ipsec_rcv_state).

(** Run steps on one SA and collect the sequence numbers that pass. *)
Fixpoint run_rcv (ov : Z) (sa : ipsec_sa) (steps : list rcv_step) : outcome string (list Z * ipsec_sa) :=
  match steps with
  | [] => Ok ([], sa)
  | Calc f irs :: steps' =>
      '(_, sa, _) ← ipsec_rcv_auth_calc ov f sa irs;
      run_rcv ov sa steps'
  | Chk irs :: steps' =>
      '(rv, sa, _, _) ← ipsec_rcv_auth_chk ov sa irs;
      '(passed, sa) ← run_rcv ov sa steps';
      Ok (if has_auth irs && negb (auth_checked irs) && bool_decide (rv = IPSEC_RCV_OK)
          then u32 (replay irs) :: passed else passed, sa)
  end.

(** The check comes after the calculation, which refuses a packet without authenticator. *)
Definition step_ok (s : rcv_step) : Prop :=
  match s with Chk irs => is_Some (authenticator irs) | Calc _ _ => True end.

(** Every number that passed is behind the right edge, and marked while in the window. *)
Record guarded (ov W : Z) (sa : ipsec_sa) (passed : Z -> Prop) : Prop := {
  gd_win : ips_replaywin (override ov sa) = W;
  gd_range : 0 <= ips_replaywin_lastseq sa < 2 ^ 32;
  gd_passed s : passed s -> 1 <= s <= ips_replaywin_lastseq sa /\
    (ips_replaywin_lastseq sa - s < W ->
     Z.testbit (ips_replaywin_bitmap sa) (ips_replaywin_lastseq sa - s) = true)
}.

Section Guarded.
Context (ov W : Z).
Hypothesis HW : 0 < W <= 32.

(** The window does not depend on the error counters, nor on applying the override. *)
Lemma guarded_same sa sa' passed :
  guarded ov W sa passed -> ips_replaywin (override ov sa') = W ->
  ips_replaywin_lastseq sa' = ips_replaywin_lastseq sa ->
  ips_replaywin_bitmap sa' = ips_replaywin_bitmap sa -> guarded ov W sa' passed.
Proof. intros [H1 H2 H3] Hw Hl Hb. split; rewrite ?Hl, ?Hb; done. Qed.

Lemma guarded_override sa passed : guarded ov W sa passed -> guarded ov W (override ov sa) passed.
Proof.
  intros Hg. destruct (override_fields ov sa). apply (guarded_same sa); [done| |done|done].
  by rewrite override_idem, (gd_win _ _ _ _ Hg).
Qed.

Lemma guarded_errs sa passed :
  guarded ov W sa passed ->
  guarded ov W (count_auth_err sa) passed /\ guarded ov W (count_replay_err sa) passed.
Proof.
  intros Hg. split; (apply (guarded_same sa); [done| |done|done]); rewrite <- (gd_win _ _ _ _ Hg); by apply override_window.
Qed.

Lemma land_mask_passed b m d : Z.testbit b d = true -> Z.testbit m d = true -> (Z.land b m =? 0) = false.
Proof.
  intros Hb Hm. apply Z.eqb_neq. intros H0. assert (Z.testbit (Z.land b m) d = false) as Hf by (by rewrite H0, Z.bits_0).
  by rewrite Z.land_spec, Hb, Hm in Hf.
Qed.

Lemma check_guarded sa passed seq :
  guarded ov W sa passed -> 0 <= seq < 2 ^ 32 ->
  exists ok, ipsec_checkreplaywindow ov sa seq = Ok (ok, override ov sa).
Proof.
  intros Hg Hs. destruct (override_fields ov sa) as [Hl Hb]. pose proof (gd_range _ _ _ _ Hg).
  unfold ipsec_checkreplaywindow. rewrite (gd_win _ _ _ _ Hg), Hl.
  destruct (W =? 0); [by eexists|]. destruct (seq =? 0); [by eexists|].
  destruct (Z.ltb_spec (ips_replaywin_lastseq sa) seq); [by eexists|]. rewrite u32_small by lia.
  destruct (Z.leb_spec W (ips_replaywin_lastseq sa - seq)); [by eexists|].
  destruct (bit_mask_32 (ips_replaywin_lastseq sa - seq)) as (m&->&_); [lia|]. rewrite bind_Ok. by eexists.
Qed.

Lemma update_guarded sa passed seq :
  guarded ov W sa passed -> 0 <= seq < 2 ^ 32 ->
  exists ok sa', ipsec_updatereplaywindow ov sa seq = Ok (ok, sa') /\
    if ok : bool then ~ passed seq /\ guarded ov W sa' (fun s => s = seq \/ passed s)
    else guarded ov W sa' passed.
Proof.
  intros Hg Hs. destruct (override_fields ov sa) as [Hl Hb]. pose proof (gd_range _ _ _ _ Hg) as Hr.
  pose proof (guarded_override sa passed Hg) as Hgo. pose proof (gd_win _ _ _ _ Hg) as Hwin.
  pose proof (gd_passed _ _ _ _ Hg) as Hp. set (last := ips_replaywin_lastseq sa) in *.
  unfold ipsec_updatereplaywindow. rewrite Hwin, Hl, Hb. rewrite (proj2 (Z.eqb_neq W 0)) by lia.
  destruct (Z.eqb_spec seq 0) as [->|Hs0]; [by exists false, (override ov sa)|].
  destruct (Z.ltb_spec last seq) as [Hlt|Hge].
  - rewrite (u32_small (seq - last)) by lia.
    assert (exists b, (if seq - last <? W then b ← bitmap_shl (ips_replaywin_bitmap sa) (seq - last); Ok (Z.lor b 1)
             else Ok 1) = Ok (E := string) b /\ Z.testbit b 0 = true /\
             forall s, passed s -> seq - s < W -> Z.testbit b (seq - s) = true) as (b&->&Hb0&Hbs).
    { destruct (Z.ltb_spec (seq - last) W) as [Hd|Hd].
      - unfold bitmap_shl. rewrite (proj2 (Z.ltb_lt _ 64)) by lia. cbn [passert]. rewrite !bind_Ok.
        eexists. split; [done|]. split; [by rewrite shifted_bit by lia|]. intros s Hps Hsw.
        destruct (Hp s Hps) as [Hrange Hbit]. rewrite shifted_bit by lia.
        replace (seq - s - (seq - last)) with (last - s) by lia. rewrite Hbit by lia. apply orb_true_r.
      - exists 1. do 2 (split; [done|]). intros s Hps Hsw. destruct (Hp s Hps). lia. }
    rewrite bind_Ok. exists true. eexists. split; [reflexivity|]. split.
    { intros Hps. destruct (Hp seq Hps). lia. }
    split; cbn [ips_replaywin_lastseq ips_replaywin_bitmap set_lastseq set_bitmap].
    + by rewrite (override_window ov _ (override ov sa)), override_idem.
    + done.
    + intros s [->|Hps]; [by rewrite Z.sub_diag; split; [lia|]|]. destruct (Hp s Hps). split; [lia|auto].
  - rewrite u32_small by lia. destruct (Z.leb_spec W (last - seq)); [by exists false, (override ov sa)|].
    destruct (bit_mask_32 (last - seq)) as (m&->&Hm0&Hm); [lia|]. rewrite bind_Ok.
    destruct (Z.land (ips_replaywin_bitmap sa) m =? 0) eqn:El; cbn [negb]; [|by exists false, (override ov sa)].
    exists true. eexists. split; [reflexivity|]. split.
    { intros Hps. destruct (Hp seq Hps) as [_ Hbit].
      by rewrite (land_mask_passed _ m (last - seq) (Hbit ltac:(lia)) Hm) in El. }
    split; cbn [ips_replaywin_lastseq ips_replaywin_bitmap set_bitmap]; rewrite ?Hl.
    + by rewrite (override_window ov _ (override ov sa)), override_idem.
    + done.
    + intros s Hps. rewrite Z.lor_spec. destruct Hps as [->|Hps].
      * split; [lia|]. intros _. by rewrite Hm, orb_true_r.
      * destruct (Hp s Hps) as [? Hbit]. split; [done|]. intros Hd. by rewrite Hbit.
Qed.

Lemma calc_guarded f sa irs passed :
  guarded ov W sa passed ->
  exists rv sa' irs', ipsec_rcv_auth_calc ov f sa irs = Ok (rv, sa', irs') /\ guarded ov W sa' passed.
Proof.
  intros Hg. unfold ipsec_rcv_auth_calc.
  destruct (has_auth irs); [|by exists IPSEC_RCV_OK, sa, irs].
  destruct (authenticator irs); [|do 3 eexists; split; [done|by apply guarded_errs]].
  destruct (check_guarded sa passed (u32 (replay irs)) Hg (u32_bound _)) as (ok&->). rewrite bind_Ok.
  pose proof (guarded_override sa passed Hg) as Hgo.
  destruct ok; cbn [negb]; [|do 3 eexists; split; [done|by apply guarded_errs]].
  destruct f as [f|]; [|by do 3 eexists]. destruct (f irs) as [rv irs']. by do 3 eexists.
Qed.

Lemma chk_guarded sa irs passed :
  guarded ov W sa passed -> is_Some (authenticator irs) ->
  exists rv sa' irs' rm, ipsec_rcv_auth_chk ov sa irs = Ok (rv, sa', irs', rm) /\
    if has_auth irs && negb (auth_checked irs) && bool_decide (rv = IPSEC_RCV_OK)
    then ~ passed (u32 (replay irs)) /\ guarded ov W sa' (fun s => s = u32 (replay irs) \/ passed s)
    else guarded ov W sa' passed.
Proof.
  intros Hg [a Ha]. unfold ipsec_rcv_auth_chk.
  destruct (auth_checked irs) eqn:Eac; cbn [negb].
  { do 4 eexists. split; [reflexivity|]. by rewrite andb_false_r. }
  destruct (has_auth irs) eqn:Eha; cbn [andb]; [|by do 4 eexists].
  rewrite Ha. cbn [defined]. rewrite bind_Ok. case_bool_decide; cbn [negb].
  2:{ do 4 eexists. split; [reflexivity|]. by apply guarded_errs. }
  cbn [replay set_hash]. destruct (negb (ips_replaywin sa =? 0) && (replay irs =? 0)); [by do 4 eexists|].
  destruct (update_guarded sa passed (u32 (replay irs)) Hg (u32_bound _)) as (ok&sa'&->&Hok). rewrite bind_Ok.
  destruct ok; cbn [negb]; do 4 eexists; (split; [reflexivity|]); [done|]. by apply guarded_errs.
Qed.

Lemma run_guarded steps : forall sa passed,
  guarded ov W sa passed -> Forall step_ok steps ->
  exists acc sa', run_rcv ov sa steps = Ok (acc, sa') /\ NoDup acc /\ Forall (fun s => ~ passed s) acc.
Proof.
  induction steps as [|st steps IH]; intros sa passed Hg Hok; cbn [run_rcv].
  { exists [], sa. split; [done|]. split; constructor. }
  apply Forall_cons in Hok as [Hst Hok]. destruct st as [f irs|irs].
  - destruct (calc_guarded f sa irs passed Hg) as (rv&sa'&irs'&->&Hg'). rewrite bind_Ok. by apply IH.
  - destruct (chk_guarded sa irs passed Hg Hst) as (rv&sa'&irs'&rm&->&Hc). rewrite bind_Ok.
    destruct (has_auth irs && _ && _).
    + destruct Hc as [Hnp Hg']. destruct (IH sa' _ Hg' Hok) as (acc&sa2&->&Hnd&Hf). rewrite bind_Ok.
      exists (u32 (replay irs) :: acc), sa2. split; [done|]. rewrite Forall_forall in Hf. split.
      * constructor; [|done]. intros Hin. apply (Hf _ Hin). by left.
      * constructor; [done|]. apply Forall_forall. intros s Hs Hp. apply (Hf s Hs). by right.
    + destruct (IH sa' _ Hc Hok) as (acc&sa2&->&Hnd&Hf). rewrite bind_Ok. by exists acc, sa2.
Qed.

End Guarded.

(** * Properties *)

(** The window an SA ends up with: the override if there is one, else what it was made with. *)
Definition window_size (ov sadb_sa_replay : Z) : Z := if 0 <=? ov then u8 ov else u8 sadb_sa_replay.

Lemma new_sa_window ov r : ips_replaywin (override ov (new_sa r)) = window_size ov r.
Proof. unfold override, window_size. by destruct (0 <=? ov). Qed.

(** Feed sequence numbers to the update, and keep the answers. *)
Fixpoint run_updates (ov : Z) (sa : ipsec_sa) (seqs : list Z) : outcome string (list bool * ipsec_sa) :=
  match seqs with
  | [] => Ok ([], sa)
  | seq :: rest =>
      '(ok, sa) ← ipsec_updatereplaywindow ov sa seq;
      '(oks, sa) ← run_updates ov sa rest;
      Ok (ok :: oks, sa)
  end.

(** The answers the abstract window gives, and the window after them. *)
Fixpoint spec_updates (W : Z) (w : window) (seqs : list Z) : list bool * window :=
  match seqs with
  | [] => ([], w)
  | seq :: rest =>
      let ok := accepts W w seq in
      let '(oks, w') := spec_updates W (if ok then accept w seq else w) rest in
      (ok :: oks, w')
  end.

Lemma run_updates_refines ov W seqs : 0 < W <= 31 -> forall sa w,
  keeps_window ov W sa w -> Forall (fun s => 0 <= s < 2 ^ 32) seqs ->
  exists sa', run_updates ov sa seqs = Ok ((spec_updates W w seqs).1, sa') /\
    keeps_window ov W sa' (spec_updates W w seqs).2.
Proof.
  intros HW. induction seqs as [|seq rest IH]; intros sa w Hk Hf; cbn [run_updates spec_updates]; [by exists sa|].
  apply Forall_cons in Hf as [Hs Hf].
  destruct (update_refines ov W HW sa w seq Hk Hs) as (sa'&->&Hk'). rewrite bind_Ok.
  destruct (IH sa' _ Hk' Hf) as (sa2&->&Hk2). rewrite bind_Ok.
  destruct (spec_updates W _ rest) as [oks w'] eqn:E. cbn [fst snd] in *. by exists sa2.
Qed.

(** C9: on an SA whose window is 1 to 31 packets, from its creation on and for any sequence
    of numbers, [ipsec_updatereplaywindow] returns and answers as the RFC's window does: it
    takes a number that is positive and either beyond the right edge or within the window
    and not taken before. [ipsec_checkreplaywindow] then gives that answer for the next
    number without moving the window. *)
Theorem replay_window_refines ov r seqs next :
  0 < window_size ov r <= 31 -> Forall (fun s => 0 <= s < 2 ^ 32) (next :: seqs) ->
  let spec := spec_updates (window_size ov r) (mk_window 0 ∅) seqs in
  exists sa, run_updates ov (new_sa r) seqs = Ok (spec.1, sa) /\
    keeps_window ov (window_size ov r) sa spec.2 /\
    ipsec_checkreplaywindow ov sa next = Ok (accepts (window_size ov r) spec.2 next, override ov sa).
Proof.
  intros HW [Hn Hf]%Forall_cons spec.
  assert (keeps_window ov (window_size ov r) (new_sa r) (mk_window 0 ∅)) as Hk.
  { split; [apply new_sa_window|done|done|done|]. intros d _. cbn [new_sa ips_replaywin_bitmap].
    by rewrite Z.bits_0. }
  destruct (run_updates_refines ov _ seqs HW _ _ Hk Hf) as (sa&Hrun&Hk').
  exists sa. split; [done|]. split; [done|]. by apply check_refines.
Qed.

Lemma replay_window_refines_witness :
  let spec := spec_updates 8 (mk_window 0 ∅) [5; 3; 5; 20; 12; 13] in
  exists sa, run_updates (-1) (new_sa 8) [5; 3; 5; 20; 12; 13] = Ok (spec.1, sa) /\
    keeps_window (-1) 8 sa spec.2 /\
    ipsec_checkreplaywindow (-1) sa 14 = Ok (accepts 8 spec.2 14, override (-1) sa).
Proof.
  apply (replay_window_refines (-1) 8 [5; 3; 5; 20; 12; 13] 14); [by vm_compute|].
  repeat (apply Forall_cons; split; [lia|]). by apply Forall_nil.
Defined.


(** A packet with sequence number [seq] whose hash is right. *)
Definition good_packet (seq : Z) : ipsec_rcv_state := mk_irs true seq (Some [1; 2; 3]) [1; 2; 3] 3 false.


(** A window of more than 32 packets has no defined behaviour for a packet 32 or more
    behind the right edge but within the window: [1 << diff] shifts an [int] by its width or
    more, in the check and in the update alike. *)
Theorem wide_window_undefined ov sa seq :
  0 < seq <= ips_replaywin_lastseq sa -> ips_replaywin_lastseq sa < 2 ^ 32 ->
  32 <= ips_replaywin_lastseq sa - seq < ips_replaywin (override ov sa) ->
  ipsec_checkreplaywindow ov sa seq = Abort /\ ipsec_updatereplaywindow ov sa seq = Abort.
Proof.
  intros Hs Hl Hd. unfold ipsec_checkreplaywindow, ipsec_updatereplaywindow.
  destruct (override_fields ov sa) as [-> ->].
  rewrite (proj2 (Z.eqb_neq (ips_replaywin (override ov sa)) 0)), (proj2 (Z.eqb_neq seq 0)) by lia.
  rewrite (proj2 (Z.ltb_ge (ips_replaywin_lastseq sa) seq)), u32_small by lia.
  rewrite (proj2 (Z.leb_gt (ips_replaywin (override ov sa)) _)) by lia. unfold bit_mask.
  by rewrite (proj2 (Z.ltb_ge (ips_replaywin_lastseq sa - seq) 32)) by lia.
Qed.

Lemma wide_window_undefined_witness :
  ipsec_checkreplaywindow (-1) (mk_sa 64 100 1 0 0 0) 60 = Abort /\
  ipsec_updatereplaywindow (-1) (mk_sa 64 100 1 0 0 0) 60 = Abort.
Proof. apply (wide_window_undefined (-1) (mk_sa 64 100 1 0 0 0) 60); cbn; lia. Defined.

(** With a window of 32 packets the mask of the oldest place covers the older bits of the
    map too: packet 9 comes first time after 8, 39 and 40, in the window, and is dropped as
    seen before, where the RFC's window takes it. *)
Theorem window_32_drops_fresh :
  (exists sa, run_updates (-1) (new_sa 32) [8; 39; 40; 9] = Ok ([true; true; true; false], sa)) /\
  (spec_updates 32 (mk_window 0 ∅) [8; 39; 40; 9]).1 = [true; true; true; true].
Proof. split; [eexists; vm_compute; reflexivity|vm_compute; reflexivity]. Qed.

(** A packet numbered 0 never reaches the code that expires an SA whose counter rolled
    over: with a window, the calculation step drops it and counts it as a replay. *)
Theorem rollover_never_expires ov f sa irs :
  ips_replaywin (override ov sa) <> 0 -> has_auth irs = true -> is_Some (authenticator irs) -> replay irs = 0 ->
  ipsec_rcv_auth_calc ov f sa irs = Ok (IPSEC_RCV_REPLAYFAILED, count_replay_err (override ov sa), irs).
Proof.
  intros Hw Ha [a Hau] Hr. unfold ipsec_rcv_auth_calc, ipsec_checkreplaywindow. rewrite Ha, Hau, Hr.
  by rewrite (proj2 (Z.eqb_neq _ _) Hw).
Qed.

Lemma rollover_never_expires_witness :
  ipsec_rcv_auth_calc (-1) None (new_sa 32) (good_packet 0)
  = Ok (IPSEC_RCV_REPLAYFAILED, count_replay_err (override (-1) (new_sa 32)), good_packet 0).
Proof. apply (rollover_never_expires (-1)); [by vm_compute|done|by eexists|done]. Defined.
