(* ===== verification/Ikev2Sk.v ===== *)
(** Protected payloads of IKEv2: the padding, encryption and integrity check of
    programs/pluto/ikev2_parent.c, and the message it builds for one fragment.

    Cryptography is a parameter: an algorithm is a record of its sizes and its operations, as
    [struct encrypt_desc] and [struct integ_desc] of include/ike_alg.h are. The laws of those
    operations are stated where they are needed. *)
From S2P Require Import Prelude EnumNames Constants Packet PacketDescs PacketGeneric Stf.

(** [PK11SymKey] *)
Definition symkey : Type := list Z.

Definition MAX_CBC_BLOCK_SIZE : Z := 16.
Definition MAX_DIGEST_LEN : Z := 64.
Definition ISAKMP_NEXT_v2SKF : Z := 53.
Definition NSIZEOF_ikev2_skf : Z := 8.

(** [do_crypt buf key iv enc] is the buffer after the call. [do_aead salt wire_iv aad text tag key
    enc] is the result of the call and the buffers after it. *)
Record encrypt_desc := mk_encrypt {
  enc_blocksize : Z;
  pad_to_blocksize : bool;
  wire_iv_size : Z;
  salt_size : Z;
  aead_tag_size : Z;
  do_crypt : list Z -> symkey -> list Z -> bool -> list Z;
  do_aead : list Z -> list Z -> list Z -> list Z -> list Z -> symkey -> bool -> bool * list Z * list Z
}.

(** [prf key data] is the digest that [hmac_final] writes, [prf_output_size] octets. *)
Record integ_desc := mk_integ {
  integ_output_size : Z;
  prf_output_size : Z;
  prf : symkey -> list Z -> list Z
}.

(** What the routines below use of the IKE SA, [struct state] of the parent. *)
Record sk_state := mk_sk {
  encrypter : encrypt_desc;
  integ : option integ_desc;
  st_original_role : original_role;
  st_skeyid_calculated : bool;
  st_skey_ei_nss : symkey;
  st_skey_er_nss : symkey;
  st_skey_ai_nss : symkey;
  st_skey_ar_nss : symkey;
  st_skey_initiator_salt : list Z;
  st_skey_responder_salt : list Z
}.

Definition ike_alg_is_aead (e : encrypt_desc) : bool := 0 <? aead_tag_size e.
Definition ike_alg_enc_requires_integ (e : encrypt_desc) : bool := negb (ike_alg_is_aead e).

(** The size of the integrity checksum; a cipher without one of its own needs [integ]. *)
Definition integ_size {E} (st : sk_state) : outcome E Z :=
  if ike_alg_enc_requires_integ (encrypter st)
  then i ← defined (integ st); Ok (integ_output_size i) else Ok (aead_tag_size (encrypter st)).

(** The keys of the messages that the original initiator sends, or of the other direction. *)
Definition from_initiator (st : sk_state) : symkey * symkey * list Z :=
  (st_skey_ei_nss st, st_skey_ai_nss st, st_skey_initiator_salt st).
Definition from_responder (st : sk_state) : symkey * symkey * list Z :=
  (st_skey_er_nss st, st_skey_ar_nss st, st_skey_responder_salt st).

(** [wire_iv] stands for the [wire_iv_size] octets at the pointer. *)
Definition construct_enc_iv {E} (wire_iv salt : list Z) (e : encrypt_desc) : outcome E (list Z) :=
  passert (Z.of_nat (length salt) =? salt_size e) ;;
  passert (enc_blocksize e <=? MAX_CBC_BLOCK_SIZE) ;;
  passert (salt_size e + wire_iv_size e <=? enc_blocksize e) ;;
  let counter_size := enc_blocksize e - salt_size e - wire_iv_size e in
  Ok (salt ++ wire_iv ++
      if 0 <? counter_size then replicate (Z.to_nat (counter_size - 1)) 0 ++ [1] else []).

(** ** Sending *)

(** [rnd n] is what [get_rnd_bytes] delivers for [n] octets. *)
Definition emit_wire_iv (rnd : Z -> list Z) (st : sk_state) (pbs : nat) (ps : pstate)
  : outcome (diag * pstate) pstate :=
  let wire_iv_size := wire_iv_size (encrypter st) in
  passert (wire_iv_size <=? MAX_CBC_BLOCK_SIZE) ;;
  out_raw (rnd wire_iv_size) pbs "IV" ps.

(** [pad_up(n, m)]; there is no remainder by 0. *)
Definition pad_up (n m : Z) : option Z :=
  if m =? 0 then None else Some (u64 (m - 1 - u64 (n + m - 1) mod m)).

Definition ikev2_padup_pre_encrypt (st : sk_state) (e_pbs_cipher : nat) (ps : pstate)
  : outcome (diag * pstate) pstate :=
  let blocksize := enc_blocksize (encrypter st) in
  p ← get_pbs ps e_pbs_cipher;
  padding ←
    (if pad_to_blocksize (encrypter st) then
       passert (blocksize <=? MAX_CBC_BLOCK_SIZE) ;;
       n ← defined (pad_up (pbs_offset p) blocksize);
       Ok (if n =? 0 then blocksize else n)
     else Ok 1);
  out_raw (Z.of_nat <$> seq 0 (Z.to_nat padding)) e_pbs_cipher "padding and length" ps.

(** The place of the checksum; [NULL] is an error of the caller. *)
Definition ikev2_authloc (st : sk_state) (e_pbs : nat) (ps : pstate) : outcome stf_status (Z * pstate) :=
  p ← get_pbs ps e_pbs;
  n ← integ_size st;
  if n =? 0 then Ugh STF_INTERNAL_ERROR
  else ps1 ← or_internal_error (out_zero n e_pbs "length of truncated HMAC/KEY" ps); Ok (cur p, ps1).

(** [cipher_cur] is the cursor of [e_pbs_cipher]. *)
Definition ikev2_encrypt_msg (st : sk_state) (auth_start wire_iv_start enc_start integ_start cipher_cur : Z)
    (m : mem) : outcome stf_status mem :=
  let e := encrypter st in
  let '(cipherkey, authkey, salt) :=
    if is_initiator (st_original_role st) then from_initiator st else from_responder st in
  let enc_size := cipher_cur - enc_start in
  wire_iv ← defined (load_bytes m wire_iv_start (Z.to_nat (wire_iv_size e)));
  text ← defined (load_bytes m enc_start (Z.to_nat enc_size));
  if ike_alg_enc_requires_integ e then
    enc_iv ← construct_enc_iv wire_iv salt e;
    m1 ← defined (store_bytes m enc_start (do_crypt e text cipherkey enc_iv true));
    i ← defined (integ st);
    data ← defined (load_bytes m1 auth_start (Z.to_nat (integ_start - auth_start)));
    defined (store_bytes m1 integ_start (prf i authkey data))
  else
    let integ_size := aead_tag_size e in
    let aad_size := enc_start - auth_start - wire_iv_size e in
    aad ← defined (load_bytes m auth_start (Z.to_nat aad_size));
    tag ← defined (load_bytes m (enc_start + enc_size) (Z.to_nat integ_size));
    match do_aead e salt wire_iv aad text tag cipherkey true with
    | (true, text', tag') => defined (store_bytes m enc_start (text' ++ tag'))
    | _ => Ugh STF_FAIL
    end.

(** ** Receiving

    [chunk] is the message from its header to the end of the payload and [iv] the offset of the
    wire IV. The result is that buffer after the call, which decrypts in place, and the plain
    text unless the call failed with [STF_FAIL]. *)

Definition slice (a n : Z) (bs : list Z) : list Z := take (Z.to_nat n) (drop (Z.to_nat a) bs).

(** The padding length is kept in an octet. *)
Definition strip_padding (text : list Z) : option (list Z) :=
  let enc_size := Z.of_nat (length text) in
  let padlen := u8 (default 0 (last text) + 1) in
  if enc_size <? padlen then None else Some (take (Z.to_nat (enc_size - padlen)) text).

Definition ikev2_verify_and_decrypt_sk_payload {E} (st : sk_state) (md_role : original_role)
    (chunk : list Z) (iv : Z) : outcome E (list Z * option (list Z)) :=
  let e := encrypter st in
  let len := Z.of_nat (length chunk) in
  if negb (st_skeyid_calculated st) then Ok (chunk, None) else
  integ_size ← integ_size st;
  if len <? iv + wire_iv_size e + 1 + integ_size then Ok (chunk, None) else
  let enc_start := iv + wire_iv_size e in
  let integ_start := len - integ_size in
  let enc_size := integ_start - enc_start in
  passert (negb (pad_to_blocksize e && (enc_blocksize e =? 0))) ;; (* no remainder by 0 *)
  if pad_to_blocksize e && negb (enc_size mod enc_blocksize e =? 0) then Ok (chunk, None) else
  let '(cipherkey, authkey, salt) :=
    if is_initiator md_role then from_responder st else from_initiator st in
  let wire_iv := slice iv (wire_iv_size e) chunk in
  let text := slice enc_start enc_size chunk in
  let tag := slice integ_start integ_size chunk in
  if ike_alg_enc_requires_integ e then
    i ← defined (integ st);
    let td := prf i authkey (slice 0 integ_start chunk) in
    passert (Z.of_nat (length td) <=? MAX_DIGEST_LEN) ;;
    passert (integ_size <=? Z.of_nat (length td)) ;;
    if negb (bool_decide (slice 0 integ_size td = tag)) then Ok (chunk, None) else
    enc_iv ← construct_enc_iv wire_iv salt e;
    let text' := do_crypt e text cipherkey enc_iv false in
    let chunk' := slice 0 enc_start chunk ++ text' ++ tag in
    Ok (chunk', strip_padding text')
  else
    let aad := slice 0 (enc_start - wire_iv_size e) chunk in
    let '(ok, text', tag') := do_aead e salt wire_iv aad text tag cipherkey false in
    let chunk' := slice 0 enc_start chunk ++ text' ++ tag' in
    Ok (chunk', if ok : bool then strip_padding text' else None).

(** ** A message that holds one fragment *)

(** [struct isakmp_hdr]; [isa_length] is not sent but computed. *)
Record isakmp_hdr := mk_hdr {
  isa_icookie : list Z;
  isa_rcookie : list Z;
  isa_np : Z;
  isa_version : Z;
  isa_xchg : Z;
  isa_flags : Z;
  isa_msgid : list Z;
  isa_length : Z
}.

Definition hdr_members (h : isakmp_hdr) : list fval :=
  [FBytes (isa_icookie h); FBytes (isa_rcookie h); FNum (isa_np h); FNum (isa_version h);
   FNum (isa_xchg h); FNum (isa_flags h); FBytes (isa_msgid h); FNum (isa_length h)].

Definition set_np (np : Z) (h : isakmp_hdr) : isakmp_hdr :=
  mk_hdr (isa_icookie h) (isa_rcookie h) np (isa_version h) (isa_xchg h) (isa_flags h) (isa_msgid h)
    (isa_length h).

(** [struct ikev2_generic] *)
Record ikev2_generic := mk_generic { isag_np : Z; isag_critical : Z; isag_length : Z }.

Definition MIN_MAX_UDP_DATA_v4 : Z := 576 - 20.
Definition MIN_MAX_UDP_DATA_v6 : Z := 1280 - 48.

(** [sizeof(frag_buffer)] *)
Definition frag_buffer_size : Z := Z.max MIN_MAX_UDP_DATA_v4 MIN_MAX_UDP_DATA_v6.

(** [frag_buffer] is an automatic array at address [fb], the only memory that the routine writes
    to; [skf_length] is the member of [e] that it does not set. The streams are [frag_stream] (0),
    [md->rbody] (1), [e_pbs] (2) and [e_pbs_cipher] (3). The result is the fragment. *)
Definition ikev2_record_fragment (rnd : Z -> list Z) (fb : Z) (frag_buffer : list Z) (skf_length : Z)
    (st : sk_state) (hdr : isakmp_hdr) (oe : ikev2_generic) (payload : list Z) (count total : Z)
  : outcome stf_status (list Z) :=
  match init_out_pbs 0 fb frag_buffer_size "reply frag packet" (mk_ps (buffer fb frag_buffer) ∅) with
  | Ok ps0 =>
      ps1 ← or_internal_error
              (out_struct (hdr_members (set_np ISAKMP_NEXT_v2SKF hdr)) isakmp_hdr_desc 0 (Some 1%nat) ps0);
      let e := [FNum (if count =? 1 then isag_np oe else 0); FNum (isag_critical oe); FNum skf_length;
                FNum count; FNum total] in
      ps2 ← or_internal_error (out_struct e ikev2_skf_desc 1 (Some 2%nat) ps1);
      e_pbs ← get_pbs ps2 2;
      let iv := cur e_pbs in
      ps3 ← or_internal_error (emit_wire_iv rnd st 2 ps2);
      e_pbs ← get_pbs ps3 2;
      let encstart := cur e_pbs in
      let ps4 := put_pbs 3 (mk_pbs (Some 2%nat) None "cleartext" encstart encstart (roof e_pbs) None) ps3 in
      ps5 ← or_internal_error (out_raw payload 3 "cleartext fragment" ps4);
      ps6 ← or_internal_error (ikev2_padup_pre_encrypt st 3 ps5);
      e_pbs_cipher ← get_pbs ps6 3;
      ps7 ← close_output_pbs 3 ps6;
      '(authloc, ps8) ← ikev2_authloc st 2 ps7;
      ps9 ← close_output_pbs 2 ps8;
      ps10 ← close_output_pbs 1 ps9;
      ps11 ← close_output_pbs 0 ps10;
      m ← ikev2_encrypt_msg st fb iv encstart authloc (cur e_pbs_cipher) (ps_mem ps11);
      frag_stream ← get_pbs ps11 0;
      defined (load_bytes m (start frag_stream) (Z.to_nat (pbs_offset frag_stream)))
  | _ => Abort
  end.
