(* ===== verification/Ikev2SkTheorems.v ===== *)
(** What protecting a payload promises: a fragment is emitted within its buffer in the format of
    RFC 7383, and the other end recovers the plain text from it. The two ways in which the code
    departs from that promise are theorems as well. *)
From S2P Require Import Prelude EnumNames Constants Packet PacketSpec PacketObject PacketNest PacketDescs PacketGeneric.
From S2P Require Import PacketTheorems Stf Ikev2Sk.

(** * Laws of the algorithms *)

(** A buffer that the cipher accepts. *)
Definition whole_blocks (e : encrypt_desc) (buf : list Z) : Prop :=
  pad_to_blocksize e = true -> (Z.of_nat (length buf)) mod enc_blocksize e = 0.

Record cipher_ok (e : encrypt_desc) : Prop := {
  cipher_block : 0 < enc_blocksize e <= MAX_CBC_BLOCK_SIZE;
  cipher_iv : 0 <= wire_iv_size e;
  cipher_salt : 0 <= salt_size e;
  cipher_counter : salt_size e + wire_iv_size e <= enc_blocksize e;
  cipher_tag : 0 <= aead_tag_size e <= 64;
  crypt_length : forall buf key iv enc, length (do_crypt e buf key iv enc) = length buf;
  crypt_inverse : forall buf key iv, whole_blocks e buf ->
    do_crypt e (do_crypt e buf key iv true) key iv false = buf;
  aead_inverse : forall salt iv aad text tag key, Z.of_nat (length tag) = aead_tag_size e ->
    exists text' tag' tag'', do_aead e salt iv aad text tag key true = (true, text', tag') /\
      length text' = length text /\ length tag' = length tag /\
      do_aead e salt iv aad text' tag' key false = (true, text, tag'');
  cipher_pow2 : exists k, 0 <= k /\ enc_blocksize e = 2 ^ k
}.

Record integ_ok (i : integ_desc) : Prop := {
  integ_sizes : 0 < integ_output_size i <= prf_output_size i /\ prf_output_size i <= MAX_DIGEST_LEN;
  prf_length : forall key data, Z.of_nat (length (prf i key data)) = prf_output_size i
}.

(** The algorithms agreed on, and the salts that go with them. *)
Record suite_ok (st : sk_state) : Prop := {
  suite_cipher : cipher_ok (encrypter st);
  suite_integ : ike_alg_is_aead (encrypter st) = false -> exists i, integ st = Some i /\ integ_ok i;
  suite_isalt : Z.of_nat (length (st_skey_initiator_salt st)) = salt_size (encrypter st);
  suite_rsalt : Z.of_nat (length (st_skey_responder_salt st)) = salt_size (encrypter st)
}.

(** * The protected message *)

Definition sender_keys (st : sk_state) : symkey * symkey * list Z :=
  if is_initiator (st_original_role st) then from_initiator st else from_responder st.

(** The checksum on the wire, and what is written where it goes. *)
Definition icv_size (st : sk_state) : Z :=
  match ike_alg_is_aead (encrypter st), integ st with
  | true, _ => aead_tag_size (encrypter st)
  | false, Some i => integ_output_size i
  | false, None => 0
  end.
Definition digest_size (st : sk_state) : Z :=
  match ike_alg_is_aead (encrypter st), integ st with
  | true, _ => aead_tag_size (encrypter st)
  | false, Some i => prf_output_size i
  | false, None => 0
  end.

Definition enc_iv (e : encrypt_desc) (salt wire_iv : list Z) : list Z :=
  let counter_size := enc_blocksize e - salt_size e - wire_iv_size e in
  salt ++ wire_iv ++ if 0 <? counter_size then replicate (Z.to_nat (counter_size - 1)) 0 ++ [1] else [].

(** [text] encrypted behind [aad] and the wire IV, with the checksum of all of it. *)
Definition sealed (st : sk_state) (aad wire_iv text : list Z) : list Z :=
  let e := encrypter st in
  let '(cipherkey, authkey, salt) := sender_keys st in
  if ike_alg_is_aead e then
    let '(_, text', tag) :=
      do_aead e salt wire_iv aad text (replicate (Z.to_nat (aead_tag_size e)) 0) cipherkey true in
    aad ++ wire_iv ++ text' ++ tag
  else
    let data := aad ++ wire_iv ++ do_crypt e text cipherkey (enc_iv e salt wire_iv) true in
    match integ st with
    | Some i => data ++ take (Z.to_nat (integ_output_size i)) (prf i authkey data)
    | None => data
    end.

(** Padding as RFC 7296 wants it: to whole blocks, the last octet counts those before it. *)
Definition pad_len (e : encrypt_desc) (n : Z) : Z :=
  if pad_to_blocksize e then enc_blocksize e - n mod enc_blocksize e else 1.
Definition padded (e : encrypt_desc) (text : list Z) : list Z :=
  text ++ (Z.of_nat <$> seq 0 (Z.to_nat (pad_len e (Z.of_nat (length text))))).

Section laws.
Context (st : sk_state) (Hst : suite_ok st).
Local Abbreviation e := (encrypter st).

Lemma sender_salt : Z.of_nat (length (snd (sender_keys st))) = salt_size e.
Proof. unfold sender_keys. destruct Hst. by case_match. Qed.

Lemma construct_enc_iv_ok {E} salt wire_iv :
  Z.of_nat (length salt) = salt_size e -> @construct_enc_iv E wire_iv salt e = Ok (enc_iv e salt wire_iv).
Proof.
  intros Hs. destruct (suite_cipher _ Hst). unfold construct_enc_iv. rewrite (proj2 (Z.eqb_eq _ _)) by done.
  rewrite !(proj2 (Z.leb_le _ _)) by (done || tauto). done.
Qed.

Lemma integ_size_ok {E} : @integ_size E st = Ok (icv_size st).
Proof.
  unfold integ_size, icv_size, ike_alg_enc_requires_integ. destruct (ike_alg_is_aead (encrypter st)) eqn:Ha; [done|].
  destruct (suite_integ _ Hst Ha) as (i&->&_). done.
Qed.

Lemma icv_bounds : 0 < icv_size st <= digest_size st /\ digest_size st <= 64.
Proof.
  unfold icv_size, digest_size. destruct (ike_alg_is_aead (encrypter st)) eqn:Ha.
  - apply Z.ltb_lt in Ha. pose proof (cipher_tag _ (suite_cipher _ Hst)). lia.
  - destruct (suite_integ _ Hst Ha) as (i&->&[Hi _]). unfold MAX_DIGEST_LEN in Hi. lia.
Qed.

Lemma pad_len_bounds n : 0 < pad_len e n <= MAX_CBC_BLOCK_SIZE.
Proof.
  destruct (cipher_block _ (suite_cipher _ Hst)) as [H1 H2]. unfold pad_len, MAX_CBC_BLOCK_SIZE in *.
  case_match; [|lia]. pose proof (Z.mod_pos_bound n (enc_blocksize e) H1). lia.
Qed.

Lemma padded_length text :
  Z.of_nat (length (padded e text)) = Z.of_nat (length text) + pad_len e (Z.of_nat (length text)).
Proof.
  unfold padded. rewrite length_app, length_fmap, length_seq. pose proof (pad_len_bounds (Z.of_nat (length text))). lia.
Qed.

Lemma padded_blocks text : whole_blocks e (padded e text).
Proof.
  intros Hp. rewrite padded_length. unfold pad_len. rewrite Hp.
  destruct (cipher_block _ (suite_cipher _ Hst)) as [H1 _].
  set (n := Z.of_nat (length text)). set (b := enc_blocksize e) in *.
  replace (n + (b - n mod b)) with ((n / b + 1) * b) by (pose proof (Z.div_mod n b); lia).
  apply Z.mod_mul. lia.
Qed.

(** Removing the padding undoes adding it. *)
Lemma strip_padded text : strip_padding (padded e text) = Some text.
Proof.
  pose proof (padded_length text) as Hl. pose proof (pad_len_bounds (Z.of_nat (length text))) as Hb.
  unfold strip_padding. set (n := pad_len e (Z.of_nat (length text))) in *.
  assert (last (padded e text) = Some (n - 1)) as ->.
  { unfold padded. fold n. replace (Z.to_nat n) with (S (Z.to_nat (n - 1))) by lia.
    rewrite seq_S, fmap_app, app_assoc, fmap_cons, fmap_nil, last_snoc. f_equal. lia. }
  cbn [default id]. unfold id. replace (n - 1 + 1) with n by lia. unfold MAX_CBC_BLOCK_SIZE in Hb.
  rewrite u8_small, (proj2 (Z.ltb_ge _ _)) by lia. f_equal.
  replace (Z.to_nat _) with (length text) by lia. apply take_app_length.
Qed.

Lemma sealed_length aad wire_iv text :
  Z.of_nat (length (sealed st aad wire_iv text)) =
  Z.of_nat (length aad + length wire_iv + length text) + icv_size st.
Proof.
  unfold sealed, icv_size. destruct (sender_keys st) as [[ck ak] salt]. destruct (suite_cipher _ Hst).
  destruct (ike_alg_is_aead e) eqn:Ha.
  - destruct (aead_inverse0 salt wire_iv aad text (replicate (Z.to_nat (aead_tag_size e)) 0) ck) as (c&t&t'&Hs&Hc&Ht&_).
    + rewrite length_replicate. lia.
    + rewrite Hs, !length_app, Hc, Ht, length_replicate. lia.
  - destruct (suite_integ _ Hst Ha) as (i&->&Hi&Hlen). rewrite !length_app, length_take, crypt_length0.
    specialize (Hlen ak (aad ++ wire_iv ++ do_crypt e text ck (enc_iv e salt wire_iv) true)). lia.
Qed.

(** ** Encryption in the buffer *)

Section encrypt.
Context (m : mem) (fb : Z) (aad wire_iv text : list Z) (Hiv : Z.of_nat (length wire_iv) = wire_iv_size e).
Let iv : Z := fb + Z.of_nat (length aad).
Let enc : Z := iv + Z.of_nat (length wire_iv).
Let icv : Z := enc + Z.of_nat (length text).
Context (Hload : let msg := aad ++ wire_iv ++ text ++ replicate (Z.to_nat (icv_size st)) 0 in
                 load_bytes m fb (length msg) = Some msg).
Context (Hroom : mapped m icv (icv + digest_size st)).

Lemma message_parts :
  load_bytes m fb (length aad) = Some aad /\
  load_bytes m iv (length wire_iv) = Some wire_iv /\
  load_bytes m enc (length text) = Some text /\
  load_bytes m icv (Z.to_nat (icv_size st)) = Some (replicate (Z.to_nat (icv_size st)) 0).
Proof.
  cbn zeta in Hload. apply load_bytes_cat in Hload as [H1 H]. apply load_bytes_cat in H as [H2 H].
  apply load_bytes_cat in H as [H3 H4]. rewrite length_replicate in H4. done.
Qed.

(** The digest is stored whole; what is beyond the checksum is not part of the message. *)
Lemma seal_with_digest key i c :
  integ_ok i -> ike_alg_is_aead e = false -> integ st = Some i -> length c = length text ->
  let data := aad ++ wire_iv ++ c in
  let msg := data ++ take (Z.to_nat (integ_output_size i)) (prf i key data) in
  exists m1 m2, store_bytes m enc c = Some m1 /\
    load_bytes m1 fb (Z.to_nat (icv - fb)) = Some data /\
    store_bytes m1 icv (prf i key data) = Some m2 /\ load_bytes m2 fb (length msg) = Some msg.
Proof.
  intros [Hi Hprf] Ha Hint Hc data msg. unfold digest_size in Hroom. rewrite Ha, Hint in Hroom.
  destruct message_parts as (_&_&H3&_).
  destruct (store_bytes_some m enc c) as [m1 Hm1].
  { intros x Hx. rewrite Hc in Hx. by eapply load_bytes_is_some. }
  assert (load_bytes m1 fb (length data) = Some data) as Hdata.
  { pose proof (load_store_middle m fb (aad ++ wire_iv) text (replicate (Z.to_nat (icv_size st)) 0) c m1) as Hmid.
    rewrite <- !app_assoc in Hmid. specialize (Hmid Hload Hc).
    rewrite length_app, Nat2Z.inj_add, Z.add_assoc in Hmid. specialize (Hmid Hm1).
    replace (aad ++ wire_iv ++ c ++ replicate (Z.to_nat (icv_size st)) 0) with (data ++ replicate (Z.to_nat (icv_size st)) 0) in Hmid
      by (unfold data; by rewrite <- !app_assoc).
    by apply load_bytes_cat in Hmid as [? _]. }
  assert (Z.of_nat (length data) = icv - fb) as Hld.
  { unfold data, icv, enc, iv. rewrite !length_app, Hc. lia. }
  destruct (store_bytes_some m1 icv (prf i key data)) as [m2 Hm2].
  { intros x Hx. rewrite Hprf in Hx. eapply store_bytes_mapped; [exact Hm1|exact Hroom|done]. }
  exists m1, m2. split; [done|]. split; [by rewrite <- Hld, Nat2Z.id|]. split; [done|].
  apply load_bytes_cat. split.
  - erewrite load_bytes_ext; [exact Hdata|]. intros x Hx. eapply store_bytes_frame; [exact Hm2|]. lia.
  - pose proof (load_store_same _ _ _ _ Hm2) as Hs. rewrite <- (take_drop (Z.to_nat (integ_output_size i)) (prf i key data)) in Hs at 1 2.
    apply load_bytes_cat in Hs as [Hs _]. rewrite Hld. by replace (fb + (icv - fb)) with icv by lia.
Qed.

Lemma encrypt_msg_seals :
  exists m', ikev2_encrypt_msg st fb iv enc icv icv m = Ok m' /\
    load_bytes m' fb (length (sealed st aad wire_iv text)) = Some (sealed st aad wire_iv text).
Proof.
  unfold ikev2_encrypt_msg, sealed. fold (sender_keys st). pose proof sender_salt as Hs.
  destruct (sender_keys st) as [[ck ak] salt]. cbn [snd] in Hs. destruct message_parts as (H1&H2&H3&H4).
  rewrite <- Hiv, Nat2Z.id, H2. replace (icv - enc) with (Z.of_nat (length text)) by (unfold icv; lia).
  rewrite Nat2Z.id, H3. run_ok. unfold ike_alg_enc_requires_integ.
  destruct (ike_alg_is_aead e) eqn:Ha; cbn [negb].
  - replace (enc - fb - Z.of_nat (length wire_iv)) with (Z.of_nat (length aad)) by (unfold enc, iv; lia).
    rewrite Nat2Z.id, H1. run_ok. change (enc + Z.of_nat (length text)) with icv.
    unfold icv_size in H4. rewrite Ha in H4. rewrite H4. run_ok.
    set (zero := replicate _ 0). destruct (suite_cipher _ Hst).
    destruct (aead_inverse0 salt wire_iv aad text zero ck) as (c&t&t'&Hseal&Hc&Ht&_); [unfold zero; rewrite length_replicate; lia|].
    rewrite Hseal. unfold zero in Ht. rewrite length_replicate in Ht.
    destruct (store_bytes_some m enc (c ++ t)) as [m' Hm'].
    { intros x Hx. rewrite length_app, Hc, Ht in Hx. destruct (decide (x < icv)).
      - eapply load_bytes_is_some; [exact H3|]. unfold icv in *. lia.
      - eapply load_bytes_is_some; [exact H4|]. unfold icv in *. lia. }
    exists m'. rewrite Hm'. split; [done|]. rewrite app_assoc. apply load_bytes_cat. split.
    + erewrite load_bytes_ext; [apply load_bytes_cat; by split|]. intros x Hx. rewrite length_app in Hx.
      eapply store_bytes_frame; [exact Hm'|]. unfold enc, iv. lia.
    + rewrite length_app, Nat2Z.inj_add, Z.add_assoc. by eapply load_store_same.
  - rewrite construct_enc_iv_ok by done. rewrite bind_Ok.
    destruct (suite_integ _ Hst Ha) as (i&Hi&Hok). rewrite Hi.
    destruct (seal_with_digest ak i (do_crypt e text ck (enc_iv e salt wire_iv) true) Hok Ha Hi) as (m1&m2&->&Hd&Hm2&Hl);
      [apply crypt_length, (suite_cipher _ Hst)|].
    cbn [defined]. rewrite !bind_Ok, Hd. cbn [defined]. rewrite bind_Ok, Hm2. by eexists.
Qed.
End encrypt.

(** The digest is written whole: where there is no room for it, the behaviour is undefined. *)
Lemma encrypt_msg_overflow m auth iv enc icv c x :
  ike_alg_is_aead e = false -> icv <= x < icv + digest_size st -> m !! x = None ->
  ikev2_encrypt_msg st auth iv enc icv c m = Abort.
Proof.
  intros Ha Hx Hnone. unfold ikev2_encrypt_msg. fold (sender_keys st).
  destruct (sender_keys st) as [[ck ak] salt]. unfold ike_alg_enc_requires_integ. rewrite Ha. cbn [negb].
  destruct (load_bytes m iv _) as [w|]; [|done]. run_ok.
  destruct (load_bytes m enc _) as [t|]; [|done]. run_ok.
  destruct (construct_enc_iv _ _ _) as [v|d|] eqn:Hv; [|unfold construct_enc_iv, passert in Hv; by repeat case_match|done].
  rewrite bind_Ok. destruct (store_bytes m enc _) as [m1|] eqn:Hm1; [|done]. run_ok.
  unfold digest_size in Hx. rewrite Ha in Hx. destruct (suite_integ _ Hst Ha) as (i&Hi&_&Hprf). rewrite Hi in *.
  run_ok. destruct (load_bytes m1 auth _) as [data|]; [|done]. run_ok.
  destruct (store_bytes m1 icv _) as [m2|] eqn:Hm2; [|done]. exfalso.
  pose proof (load_store_same _ _ _ _ Hm2) as Hl. apply (load_bytes_is_some _ _ _ _ x) in Hl; [|rewrite Hprf; lia].
  rewrite (store_bytes_dom _ _ _ _ x Hm2), (store_bytes_dom _ _ _ _ x Hm1), Hnone in Hl. by destruct Hl.
Qed.

(** ** Decryption at the other end *)

Definition other_role (role : original_role) : original_role :=
  match role with ORIGINAL_INITIATOR => ORIGINAL_RESPONDER | ORIGINAL_RESPONDER => ORIGINAL_INITIATOR end.

Lemma slice_app a x y : a = Z.of_nat (length x) -> slice 0 a (x ++ y) = x.
Proof. intros ->. unfold slice. change (Z.to_nat 0) with 0%nat. rewrite drop_0, Nat2Z.id. apply take_app_length. Qed.

Lemma slice_middle a n x y z :
  a = Z.of_nat (length x) -> n = Z.of_nat (length y) -> slice a n (x ++ y ++ z) = y.
Proof. intros -> ->. unfold slice. rewrite !Nat2Z.id, drop_app_length. apply take_app_length. Qed.

Lemma slice_end a n x y : a = Z.of_nat (length x) -> n = Z.of_nat (length y) -> slice a n (x ++ y) = y.
Proof. intros. rewrite <- (app_nil_r (x ++ y)), <- app_assoc. by apply slice_middle. Qed.

(** Any text of whole blocks is recovered; the padding is what its last octet says. *)
Lemma sealed_opens_text {E} aad wire_iv text :
  Z.of_nat (length wire_iv) = wire_iv_size e -> st_skeyid_calculated st = true -> whole_blocks e text -> text <> [] ->
  exists chunk, @ikev2_verify_and_decrypt_sk_payload E st (other_role (st_original_role st))
    (sealed st aad wire_iv text) (Z.of_nat (length aad)) = Ok (chunk, strip_padding text).
Proof.
  intros Hiv Hk Hwb Hne. unfold ikev2_verify_and_decrypt_sk_payload. rewrite Hk. cbn [negb].
  rewrite integ_size_ok, bind_Ok, sealed_length. pose proof icv_bounds as Hicv.
  assert (0 < length text)%nat as Hpos by (destruct text; [done|cbn; lia]).
  rewrite (proj2 (Z.ltb_ge _ _)) by lia. set (n := Z.of_nat (length aad + _ + _)).
  replace (n + icv_size st - icv_size st) with n by lia.
  replace (n - (Z.of_nat (length aad) + wire_iv_size e)) with (Z.of_nat (length text)) by lia.
  destruct (suite_cipher _ Hst) as [Hblk Hiv0 _ _ _ Hclen Hinv Haead _].
  rewrite (proj2 (Z.eqb_neq (enc_blocksize e) 0)), andb_false_r by lia. cbn [negb]. run_ok.
  assert (pad_to_blocksize e && negb (Z.of_nat (length text) mod enc_blocksize e =? 0) = false) as ->.
  { destruct (pad_to_blocksize e) eqn:Hpad; [|done]. by rewrite (Hwb Hpad). }
  assert ((if is_initiator (other_role (st_original_role st)) then from_responder st else from_initiator st) =
    sender_keys st) as -> by (unfold sender_keys; by destruct (st_original_role st)).
  pose proof sender_salt as Hs. unfold sealed, ike_alg_enc_requires_integ.
  destruct (sender_keys st) as [[ck ak] salt]. cbn [snd] in Hs. rewrite <- Hiv.
  replace (Z.of_nat (length aad) + Z.of_nat (length wire_iv) - Z.of_nat (length wire_iv)) with (Z.of_nat (length aad)) by lia.
  destruct (ike_alg_is_aead e) eqn:Ha; cbn [negb].
  - destruct (Haead salt wire_iv aad text (replicate (Z.to_nat (aead_tag_size e)) 0) ck)
      as (c&t&t'&->&Hc&Ht&Hopen); [apply Z.ltb_lt in Ha; rewrite length_replicate; lia|].
    unfold icv_size. rewrite Ha. rewrite length_replicate in Ht. apply Z.ltb_lt in Ha.
    rewrite slice_app, (slice_middle _ _ aad wire_iv) by lia.
    rewrite (app_assoc aad), (slice_middle _ _ _ c t), (app_assoc _ c), slice_end by (rewrite ?length_app; lia).
    rewrite Hopen. by eexists.
  - destruct (suite_integ _ Hst Ha) as (i&Hi&[Hsz Hprf]). unfold icv_size. rewrite Hi, Ha. run_ok.
    set (c := do_crypt e text ck (enc_iv e salt wire_iv) true).
    assert (length c = length text) as Hc by apply Hclen.
    set (data := aad ++ wire_iv ++ c). assert (Z.of_nat (length data) = n) as Hn by (unfold data; rewrite !length_app; lia).
    set (tag := take _ _).
    assert (Z.of_nat (length tag) = integ_output_size i) as Htag.
    { unfold tag. rewrite length_take. specialize (Hprf ak data). lia. }
    rewrite slice_app, slice_end by lia. pose proof (Hprf ak data) as Hl.
    rewrite !(proj2 (Z.leb_le _ _)) by lia. run_ok.
    rewrite bool_decide_true by done. cbn [negb].
    assert (slice (Z.of_nat (length aad)) (Z.of_nat (length wire_iv)) (data ++ tag) = wire_iv) as ->
      by (unfold data; rewrite <- !app_assoc; by apply slice_middle).
    rewrite construct_enc_iv_ok, bind_Ok by done. assert (data ++ tag = (aad ++ wire_iv) ++ c ++ tag) as ->
      by (unfold data; by rewrite <- !app_assoc).
    rewrite (slice_middle _ (Z.of_nat (length text)) (aad ++ wire_iv) c tag) by (rewrite ?(length_app aad); lia).
    unfold c. rewrite Hinv by done. by eexists.
Qed.

Lemma padded_nonempty text : padded e text <> [].
Proof.
  intros H. pose proof (padded_length text) as Hl. rewrite H in Hl. pose proof (pad_len_bounds (Z.of_nat (length text))). cbn in Hl. lia.
Qed.

Lemma sealed_opens {E} aad wire_iv text :
  Z.of_nat (length wire_iv) = wire_iv_size e -> st_skeyid_calculated st = true ->
  exists chunk, @ikev2_verify_and_decrypt_sk_payload E st (other_role (st_original_role st))
    (sealed st aad wire_iv (padded e text)) (Z.of_nat (length aad)) = Ok (chunk, Some text).
Proof.
  intros Hiv Hk. rewrite <- (strip_padded text). apply sealed_opens_text; [done|done|apply padded_blocks|apply padded_nonempty].
Qed.
End laws.

(** * One fragment *)

Definition skf_members (np critical len count total : Z) : list fval :=
  [FNum np; FNum critical; FNum len; FNum count; FNum total].

(** RFC 7383, section 2.5: the header of the encrypted fragment payload. *)
Definition skf_wire (np critical len count total : Z) : list Z :=
  [np; critical] ++ be_encode 2 len ++ be_encode 2 count ++ be_encode 2 total.

Lemma skf_valid np critical len count total :
  known_payload np -> critical = 0 \/ critical = 0x80 -> 0 <= count < 2 ^ 16 -> 0 <= total < 2 ^ 16 ->
  valid_fields ikev2_skf_desc (sd_fields ikev2_skf_desc) (skf_members np critical len count total) fs0 /\
  (forall n, wire (len_bytes n) (sd_fields ikev2_skf_desc) (skf_members np critical len count total) fs0 =
    skf_wire np critical n count total) /\
  (forall n, host_values n (sd_fields ikev2_skf_desc) (skf_members np critical len count total) fs0 =
    skf_members np critical n count total).
Proof.
  intros [Hb [s Hs]] Hcr Hc Ht. assert (np mod 2 ^ (8 * 1) = np) as Hm by (apply Z.mod_small; exact Hb).
  assert (critical mod 2 ^ (8 * 1) = critical) as Hm' by (destruct Hcr as [-> | ->]; done).
  assert (byteZ critical) as Hb' by (destruct Hcr as [-> | ->]; by_decide).
  assert (forall n, 0 <= n < 2 ^ 16 -> n mod 2 ^ (8 * 2) = n) as Hm2 by (intros n Hn; apply Z.mod_small; exact Hn).
  unfold skf_members, skf_wire.
  cbn [sd_fields ikev2_skf_desc ikev2skf_fields valid_fields wire host_values fd_type fd_size val_num].
  cbn [deferred is_lenfld andb negb immediate fs0 next_fs fd_type]. rewrite Hm, Hm', !Hm2 by done.
  change (Z.to_nat 1) with 1%nat. rewrite !be_encode_1 by done. split; [|done]. split; [by eexists|]. split.
  - unfold check_value, enum_check, enum_of. cbn [fd_type fd_desc]. by rewrite Hs.
  - split; [by eexists|]. split; [by destruct Hcr as [-> | ->]|].
    repeat (split; [by eexists|]; split; [done|]). done.
Qed.

(** A header that the codec accepts. *)
Definition valid_hdr (h : isakmp_hdr) : Prop :=
  length (isa_icookie h) = 8%nat /\ length (isa_rcookie h) = 8%nat /\ length (isa_msgid h) = 4%nat /\
  (byteZ (isa_np h) /\ exists s, @enum_name diag payload_names_ikev1orv2 (isa_np h) = Ok (Some s)) /\
  byteZ (isa_version h) /\
  (byteZ (isa_xchg h) /\ exists s, @enum_name diag exchange_names_ikev1orv2 (isa_xchg h) = Ok (Some s)) /\
  (byteZ (isa_flags h) /\ @testset diag isakmp_flag_names (isa_flags h) = Ok true).

Lemma valid_hdr_fields h :
  valid_hdr h -> valid_fields isakmp_hdr_desc (sd_fields isakmp_hdr_desc) (hdr_members h) fs0.
Proof.
  intros (L1&L2&L3&[Bn [sn Hn]]&Bv&[Bx [sx Hx]]&Bf&Hf). unfold hdr_members.
  assert (forall n, byteZ n -> n mod 2 ^ (8 * 1) = n) as Hm by (intros n Hb; apply Z.mod_small; exact Hb).
  cbn [sd_fields isakmp_hdr_desc isa_fields valid_fields fd_type fd_size val_num].
  cbn [deferred is_lenfld andb negb immediate fs0 next_fs fd_type]. rewrite !Hm by done.
  split; [eexists; split; [done|lia]|]. split; [eexists; split; [done|lia]|].
  unfold check_value, enum_check, enum_of. cbn [fd_type fd_desc]. rewrite Hn, Hx, Hf.
  repeat (split; [by eexists|]; split; [done|]). split; [eexists; split; [done|lia]|]. done.
Qed.

Definition hdr_wire (h : isakmp_hdr) (len : Z) : list Z :=
  wire (len_bytes len) (sd_fields isakmp_hdr_desc) (hdr_members h) fs0.

Lemma length_hdr_wire h len : valid_hdr h -> Z.of_nat (length (hdr_wire h len)) = NSIZEOF_isakmp_hdr.
Proof.
  unfold hdr_wire. intros Hv%valid_hdr_fields. destruct (wf_desc_inv isakmp_hdr_desc eq_refl) as (Hf&Hs&_).
  change NSIZEOF_isakmp_hdr with (sd_size isakmp_hdr_desc). rewrite <- Hs.
  apply (length_wire (len_bytes len) isakmp_hdr_desc _ _ _ Hf Hv (len_bytes_length isakmp_hdr_desc len)).
Qed.

Lemma buffer_outside a bs x : x < a \/ a + Z.of_nat (length bs) <= x -> buffer a bs !! x = None.
Proof.
  revert a; induction bs as [|b bs IH]; intros a Hx; cbn [buffer length] in *; [apply lookup_empty|].
  rewrite lookup_insert_ne by lia. apply IH. lia.
Qed.

Section fragment.
Context (rnd : Z -> list Z) (Hrnd : forall n, 0 <= n -> Z.of_nat (length (rnd n)) = n).
Context (fb : Z) (garbage : list Z) (Hfb : 0 <= fb /\ fb + frag_buffer_size < 2 ^ 63).
Context (Hgarbage : Z.of_nat (length garbage) = frag_buffer_size) (skf_length : Z).
Context (st : sk_state) (Hst : suite_ok st) (hdr : isakmp_hdr) (Hhdr : valid_hdr (set_np ISAKMP_NEXT_v2SKF hdr)).
Context (oe : ikev2_generic) (Hcrit : isag_critical oe = 0 \/ isag_critical oe = 0x80).
Context (count total : Z) (Hcount : 0 <= count < 2 ^ 16) (Htotal : 0 <= total < 2 ^ 16).
Context (payload : list Z).
Let np : Z := if count =? 1 then isag_np oe else 0.
Context (Hnp : known_payload np).
Local Abbreviation e := (encrypter st).

Definition wire_iv : list Z := rnd (wire_iv_size e).

(** The size of the message: the two headers, the wire IV, the text with its padding and the
    checksum. *)
Definition frag_size : Z :=
  36 + wire_iv_size e + Z.of_nat (length (padded e payload)) + icv_size st.

(** The two headers. *)
Definition frag_aad : list Z :=
  hdr_wire (set_np ISAKMP_NEXT_v2SKF hdr) frag_size ++
  skf_wire np (isag_critical oe) (frag_size - NSIZEOF_isakmp_hdr) count total.

Lemma frag_aad_length : Z.of_nat (length frag_aad) = 36.
Proof.
  unfold frag_aad. rewrite length_app, Nat2Z.inj_add, length_hdr_wire by done.
  unfold skf_wire. rewrite !length_app, !length_be_encode. done.
Qed.

Lemma wire_iv_length : Z.of_nat (length wire_iv) = wire_iv_size e.
Proof. apply Hrnd, (cipher_iv _ (suite_cipher _ Hst)). Qed.

Lemma emit_wire_iv_wrote ps q :
  ps_pbs ps !! 2%nat = Some q -> wf_pbs (ps_mem ps) q -> wire_iv_size e <= roof q - cur q ->
  exists ps', emit_wire_iv rnd st 2 ps = Ok ps' /\ wrote [] 2 wire_iv ps ps'.
Proof.
  intros Hq Hw Hr. unfold emit_wire_iv. destruct (suite_cipher _ Hst).
  rewrite (proj2 (Z.leb_le _ _)) by lia. run_ok.
  apply (out_raw_wrote _ _ _ _ q); [done|done|]. pose proof wire_iv_length. unfold wire_iv in *. lia.
Qed.

(** The padding depends on what is in the stream already. *)
Lemma padup_wrote ps q (text : list Z) :
  ps_pbs ps !! 3%nat = Some q -> wf_pbs (ps_mem ps) q -> cur q - start q = Z.of_nat (length text) ->
  let n := pad_len e (Z.of_nat (length text)) in n <= roof q - cur q ->
  exists ps', ikev2_padup_pre_encrypt st 3 ps = Ok ps' /\
    wrote [] 3 (Z.of_nat <$> seq 0 (Z.to_nat n)) ps ps'.
Proof.
  intros Hq Hw Hlen n Hr. pose proof (pad_len_bounds st Hst (Z.of_nat (length text))) as Hb. fold n in Hb.
  destruct (cipher_block _ (suite_cipher _ Hst)) as [B1 B2].
  unfold ikev2_padup_pre_encrypt, get_pbs. rewrite Hq. run_ok.
  match goal with |- context [?c ≫= _] => assert (c = Ok n) as -> end.
  { unfold n, pad_len. destruct (pad_to_blocksize e); [|done]. rewrite (proj2 (Z.leb_le _ _)) by done. cbn [passert].
    rewrite bind_Ok. unfold pad_up. rewrite (proj2 (Z.eqb_neq _ _)) by lia. run_ok. f_equal.
    destruct Hw as (?&?&_). unfold pbs_offset, MAX_CBC_BLOCK_SIZE in *. rewrite Hlen.
    set (k := Z.of_nat (length text)) in *. set (b := enc_blocksize e) in *. rewrite (u64_small k), (u64_small (k + b - 1)) by lia.
    pose proof (Z.mod_pos_bound k b B1) as Hk. pose proof (Z.div_mod k b ltac:(lia)) as Hd.
    assert ((k + b - 1) mod b = if k mod b =? 0 then b - 1 else k mod b - 1) as ->.
    { destruct (Z.eqb_spec (k mod b) 0).
      - symmetry. apply (Z.mod_unique_pos _ _ (k / b)); lia.
      - symmetry. apply (Z.mod_unique_pos _ _ (k / b + 1)); lia. }
    destruct (Z.eqb_spec (k mod b) 0) as [->|Hz]; rewrite u64_small by lia.
    - replace (b - 1 - (b - 1)) with 0 by lia. cbn. lia.
    - rewrite (proj2 (Z.eqb_neq _ _)) by lia. lia. }
  rewrite bind_Ok. apply (out_raw_wrote _ _ _ _ q); [done|done|]. rewrite length_fmap, length_seq. lia.
Qed.

(** The message before it is encrypted. *)
Local Abbreviation plain_message :=
  (frag_aad ++ wire_iv ++ padded e payload ++ replicate (Z.to_nat (icv_size st)) 0).

Lemma plain_message_length : Z.of_nat (length plain_message) = frag_size.
Proof.
  unfold frag_size. rewrite !(length_app frag_aad), !(length_app wire_iv), !(length_app (padded e payload)), length_replicate.
  pose proof frag_aad_length. pose proof wire_iv_length. pose proof (icv_bounds st Hst). lia.
Qed.

(** The text, its padding and the room for the checksum, in the stream of the payload. *)
Lemma fragment_body ps q :
  ps_pbs ps !! 2%nat = Some q -> wf_pbs (ps_mem ps) q -> frag_size - 36 <= roof q - cur q ->
  let enc := cur q + wire_iv_size e in
  let icv := enc + Z.of_nat (length (padded e payload)) in
  exists ps3 ps5 ps6 ps7 ps8 c, emit_wire_iv rnd st 2 ps = Ok ps3 /\
    ps_pbs ps3 !! 2%nat = Some (set_cur enc q) /\
    out_raw payload 3 "cleartext fragment"
      (put_pbs 3 (mk_pbs (Some 2%nat) None "cleartext" enc enc (roof q) None) ps3) = Ok ps5 /\
    ikev2_padup_pre_encrypt st 3 ps5 = Ok ps6 /\ ps_pbs ps6 !! 3%nat = Some c /\ cur c = icv /\
    @close_output_pbs stf_status 3 ps6 = Ok ps7 /\ ikev2_authloc st 2 ps7 = Ok (icv, ps8) /\
    wrote [3%nat] 2 (wire_iv ++ padded e payload ++ replicate (Z.to_nat (icv_size st)) 0) ps ps8.
Proof.
  intros Hq Hw Hroom enc icv. unfold frag_size in Hroom. pose proof (icv_bounds st Hst) as Hicv.
  pose proof wire_iv_length as Liv. pose proof (padded_length st Hst payload) as Lp.
  pose proof (pad_len_bounds st Hst (Z.of_nat (length payload))) as Hpad.
  pose proof (cipher_iv _ (suite_cipher _ Hst)) as Hiv0.
  destruct (emit_wire_iv_wrote ps q Hq Hw) as (ps3&E3&W3); [lia|].
  destruct (wrote_stream _ _ _ _ _ _ W3 Hq Hw ltac:(lia)) as [Hq3 Hw3]. rewrite Liv in Hq3, Hw3. fold enc in Hq3, Hw3.
  set (c0 := mk_pbs (Some 2%nat) None "cleartext" enc enc (roof q) None).
  assert (wf_pbs (ps_mem (put_pbs 3 c0 ps3)) c0) as Hw0.
  { destruct Hw3 as (?&?&Hm). cbn in *. split; cbn; [lia|]. split; [lia|]. intros x Hx. apply Hm. cbn in *. lia. }
  destruct (out_raw_wrote payload 3 "cleartext fragment" (put_pbs 3 c0 ps3) c0 (lookup_insert_eq _ _ _) Hw0) as (ps5&E5&W5);
    [cbn; lia|].
  destruct (wrote_stream _ _ _ _ _ _ W5 (lookup_insert_eq _ _ _) Hw0 ltac:(cbn; lia)) as [Hc5 Hwc5].
  destruct (padup_wrote ps5 _ payload Hc5 Hwc5) as (ps6&E6&W6); [cbn; lia|cbn; lia|].
  pose proof (wrote_app _ _ _ _ _ _ _ _ W5 W6) as W56. fold (padded e payload) in W56.
  destruct (wrote_stream _ _ _ _ _ _ W56 (lookup_insert_eq _ _ _) Hw0 ltac:(cbn; lia)) as [Hc6 _].
  destruct (substream_wrote (E := stf_status) 2 3 ps3 _ "cleartext" _ _ _ Hq3 ltac:(done) ltac:(apply not_elem_of_nil) W56)
    as (ps7&E7&_&W7).
  pose proof (wrote_app _ _ _ _ _ _ _ _ W3 W7) as W37. cbn [app] in W37.
  assert (Z.of_nat (length (wire_iv ++ padded e payload)) = wire_iv_size e + Z.of_nat (length (padded e payload))) as L37
    by (rewrite (length_app wire_iv); lia).
  destruct (wrote_stream _ _ _ _ _ _ W37 Hq Hw ltac:(lia)) as [Hq7 Hw7]. rewrite L37 in Hq7, Hw7.
  destruct (out_raw_wrote (replicate (Z.to_nat (icv_size st)) 0) 2 "length of truncated HMAC/KEY" ps7 _ Hq7 Hw7) as (ps8&E8&W8);
    [rewrite length_replicate; cbn; lia|].
  exists ps3, ps5, ps6, ps7, ps8. eexists. split; [done|]. split; [done|]. split; [done|]. split; [done|].
  split; [exact Hc6|]. split; [done|]. split; [done|]. split.
  - unfold ikev2_authloc, get_pbs. rewrite Hq7. cbn [defined]. rewrite bind_Ok, integ_size_ok, bind_Ok by done.
    rewrite (proj2 (Z.eqb_neq _ _)), out_zero_raw, E8 by lia. cbn [or_internal_error cur set_cur]. rewrite bind_Ok.
    do 2 f_equal. unfold icv, enc. lia.
  - rewrite app_assoc. pose proof (wrote_app _ _ _ _ _ _ _ _ W37 W8) as W. by rewrite app_nil_r in W.
Qed.

Lemma frag_stream_ready :
  exists ps0, init_out_pbs 0 fb frag_buffer_size "reply frag packet" (mk_ps (buffer fb garbage) ∅) = Ok ps0 /\
    ps_pbs ps0 !! 0%nat = Some (init_pbs fb frag_buffer_size "reply frag packet") /\
    wf_pbs (ps_mem ps0) (init_pbs fb frag_buffer_size "reply frag packet") /\
    (forall x, x < fb \/ fb + frag_buffer_size <= x -> ps_mem ps0 !! x = None).
Proof.
  unfold init_out_pbs. pose proof (buffer_mapped fb garbage) as Hmap. rewrite Hgarbage in Hmap.
  destruct (store_bytes_some (buffer fb garbage) fb (replicate (Z.to_nat frag_buffer_size) 0xFA)) as [m Hm].
  { rewrite length_replicate, Z2Nat.id by done. exact Hmap. }
  cbn [ps_mem]. rewrite Hm. run_ok. eexists. split; [done|].
  split; [apply lookup_insert_eq|]. split.
  - destruct Hfb. split; [cbn; lia|]. split; [cbn [init_pbs cur roof]; unfold frag_buffer_size in *; cbn in *; lia|].
    eapply store_bytes_mapped; [exact Hm|exact Hmap].
  - intros x Hx. cbn [ps_mem put_pbs put_mem]. apply eq_None_not_Some. rewrite (store_bytes_dom _ _ _ _ x Hm).
    rewrite buffer_outside by lia. by intros [? ?].
Qed.

(** The two headers around the body of the fragment. *)
Lemma fragment_headers ps0 p0 :
  ps_pbs ps0 !! 0%nat = Some p0 -> wf_pbs (ps_mem ps0) p0 -> frag_size <= roof p0 - cur p0 -> frag_size <= 1232 ->
  exists ps1 ps2 q2,
    out_struct (hdr_members (set_np ISAKMP_NEXT_v2SKF hdr)) isakmp_hdr_desc 0 (Some 1%nat) ps0 = Ok ps1 /\
    out_struct (skf_members np (isag_critical oe) skf_length count total) ikev2_skf_desc 1 (Some 2%nat) ps1 = Ok ps2 /\
    ps_pbs ps2 !! 2%nat = Some q2 /\ wf_pbs (ps_mem ps2) q2 /\ cur q2 = cur p0 + 36 /\ roof q2 = roof p0 /\
    forall body ps8, wrote [3%nat] 2 body ps2 ps8 -> Z.of_nat (length body) = frag_size - 36 ->
      exists ps9 ps10, @close_output_pbs stf_status 2 ps8 = Ok ps9 /\ @close_output_pbs stf_status 1 ps9 = Ok ps10 /\
        wrote [1%nat; 2%nat; 3%nat] 0 (frag_aad ++ body) ps0 ps10.
Proof.
  intros Hp0 Hw0 Hroom Hmax. pose proof (icv_bounds st Hst) as Hicv. pose proof (cipher_iv _ (suite_cipher _ Hst)) as Hiv0.
  assert (36 < frag_size) as Hmin by (unfold frag_size; lia).
  destruct (object_wrote _ isakmp_hdr_desc 0 1 ps0 p0 eq_refl Hp0 Hw0 ltac:(done) (valid_hdr_fields _ Hhdr))
    as (ps1&q1&E1&Hq1&Hw1&C1&R1&Close1); [change (28 <= roof p0 - cur p0); lia|].
  destruct (skf_valid np (isag_critical oe) skf_length count total Hnp Hcrit Hcount Htotal) as (Hv&Hwire&_).
  change (sd_size isakmp_hdr_desc) with 28 in *.
  destruct (object_wrote _ ikev2_skf_desc 1 2 ps1 q1 eq_refl Hq1 Hw1 ltac:(done) Hv) as (ps2&q2&E2&Hq2&Hw2&C2&R2&Close2);
    [change (8 <= roof q1 - cur q1); lia|].
  change (sd_size ikev2_skf_desc) with 8 in *.
  exists ps1, ps2, q2. split; [done|]. split; [done|]. split; [done|]. split; [done|]. split; [lia|]. split; [lia|].
  intros body ps8 W8 Lb. destruct (Close2 stf_status _ _ _ W8) as (ps9&E9&W9); [by_decide|lia..|].
  rewrite Hwire, Lb in W9. replace (8 + (frag_size - 36)) with (frag_size - NSIZEOF_isakmp_hdr) in W9 by (unfold NSIZEOF_isakmp_hdr; lia).
  set (skf := skf_wire np _ _ _ _) in W9.
  assert (length skf = 8%nat) as Lskf by (unfold skf, skf_wire; by rewrite !length_app, !length_be_encode).
  destruct (Close1 stf_status _ _ _ W9) as (ps10&E10&W10); [by_decide|rewrite length_app; lia..|].
  rewrite length_app, Lskf in W10. replace (28 + Z.of_nat (8 + length body)) with frag_size in W10 by lia.
  exists ps9, ps10. split; [done|]. split; [done|]. unfold frag_aad, hdr_wire. fold skf. rewrite <- app_assoc. exact W10.
Qed.

(** Up to the call of [ikev2_encrypt_msg]: the buffer holds the plain message. *)
Lemma fragment_buffer :
  frag_size <= frag_buffer_size ->
  let enc := fb + 36 + wire_iv_size e in
  let icv := enc + Z.of_nat (length (padded e payload)) in
  exists m0, load_bytes m0 fb (length plain_message) = Some plain_message /\
    mapped m0 fb (fb + frag_buffer_size) /\
    (forall x, x < fb \/ fb + frag_buffer_size <= x -> m0 !! x = None) /\
    ikev2_record_fragment rnd fb garbage skf_length st hdr oe payload count total =
    (m ← ikev2_encrypt_msg st fb (fb + 36) enc icv icv m0; defined (load_bytes m fb (Z.to_nat frag_size))).
Proof.
  intros Hsize enc icv. destruct frag_stream_ready as (ps0&E0&Hp0&Hw0&Hout).
  pose proof plain_message_length as Lm. set (p0 := init_pbs fb frag_buffer_size "reply frag packet") in *.
  assert (cur p0 = fb /\ start p0 = fb /\ roof p0 = fb + frag_buffer_size) as (C0&S0&R0) by done.
  destruct (fragment_headers ps0 p0 Hp0 Hw0) as (ps1&ps2&q2&E1&E2&Hq2&Hw2&C2&R2&Close); [lia|exact Hsize|].
  destruct (fragment_body ps2 q2 Hq2 Hw2) as (ps3&ps5&ps6&ps7&ps8&c&E3&Hq3&E5&E6&Hc&Hcc&E7&E8&W8); [lia|].
  destruct (Close _ _ W8) as (ps9&ps10&E9&E10&W).
  { rewrite (length_app frag_aad) in Lm. pose proof frag_aad_length. lia. }
  destruct (wrote_stream _ _ _ _ _ _ W Hp0 Hw0) as [Hp10 (_&_&Hmap)]; [lia|].
  exists (ps_mem ps10). destruct W as (p&Hp&_&Hld&Hfr&_). rewrite Hp0 in Hp. injection Hp as <-. rewrite C0 in Hld, Hfr.
  split; [done|]. split; [exact Hmap|]. split; [intros x Hx; rewrite Hfr by lia; by apply Hout|].
  unfold ikev2_record_fragment. rewrite E0, E1. cbn [or_internal_error]. rewrite bind_Ok. fold np.
  fold (skf_members np (isag_critical oe) skf_length count total). rewrite E2.
  cbn [or_internal_error]. rewrite bind_Ok, (get_pbs_at _ _ _ Hq2), bind_Ok, E3.
  cbn [or_internal_error]. rewrite bind_Ok, (get_pbs_at _ _ _ Hq3), bind_Ok.
  cbn [cur roof set_cur]. rewrite E5. cbn [or_internal_error]. rewrite bind_Ok, E6. cbn [or_internal_error].
  rewrite bind_Ok, (get_pbs_at _ _ _ Hc), bind_Ok, E7, bind_Ok, E8, bind_Ok, E9, bind_Ok, E10, bind_Ok.
  unfold close_output_pbs. rewrite (get_pbs_at _ _ _ Hp10), bind_Ok. unfold close_pbs. cbn [lenfld container set_cur p0 init_pbs].
  rewrite !bind_Ok, (get_pbs_at _ _ _ Hp10), Hcc. replace (cur q2) with (fb + 36) by lia. fold enc icv.
  destruct (ikev2_encrypt_msg _ _ _ _ _ _ _) as [m| |]; [|done|done]. rewrite !bind_Ok.
  unfold pbs_offset. cbn [start cur set_cur]. rewrite Lm, C0, S0.
  replace (fb + frag_size - fb) with frag_size by lia. assert (frag_size <= 1232) by exact Hsize.
  by rewrite u64_small by lia.
Qed.

Definition fragment : list Z := sealed st frag_aad wire_iv (padded e payload).

(** A fragment that fits is the sealed message, octet for octet. *)
Lemma record_fragment_ok :
  frag_size + digest_size st <= frag_buffer_size + icv_size st ->
  ikev2_record_fragment rnd fb garbage skf_length st hdr oe payload count total = Ok fragment.
Proof.
  intros Hroom. pose proof (icv_bounds st Hst) as Hicv. pose proof (cipher_iv _ (suite_cipher _ Hst)) as Hiv0.
  destruct fragment_buffer as (m0&Hld&Hmap&_&->); [lia|].
  pose proof frag_aad_length as La. pose proof wire_iv_length as Liv.
  destruct (encrypt_msg_seals st Hst m0 fb frag_aad wire_iv (padded e payload) Liv Hld) as (m&Henc&Hm).
  { intros x Hx. apply Hmap. unfold frag_size in Hroom. lia. }
  rewrite La, Liv in Henc. rewrite Henc, bind_Ok. pose proof (sealed_length st Hst frag_aad wire_iv (padded e payload)) as Hl.
  replace (Z.to_nat frag_size) with (length (sealed st frag_aad wire_iv (padded e payload))) by (unfold frag_size; lia).
  by rewrite Hm.
Qed.

(** One whose digest does not fit is written beyond the end of [frag_buffer], although the
    message itself does fit. *)
Lemma record_fragment_overflow :
  ike_alg_is_aead e = false -> frag_size <= frag_buffer_size ->
  frag_buffer_size + icv_size st < frag_size + digest_size st ->
  ikev2_record_fragment rnd fb garbage skf_length st hdr oe payload count total = Abort.
Proof.
  intros Ha Hsize Hover. destruct fragment_buffer as (m0&_&_&Hout&->); [done|].
  rewrite (encrypt_msg_overflow st Hst m0 _ _ _ _ _ (fb + frag_buffer_size)); [done|done| |apply Hout; lia].
  unfold frag_size in *. pose proof (icv_bounds st Hst). lia.
Qed.
End fragment.
