(* ===== verification/Fragments.v ===== *)
(** IKE fragmentation: how pluto cuts a message that is too large for one packet into fragments,
    sends and resends them, and how it collects and joins those it receives.

    IKEv2 (RFC 7383): [ikev2_record_fragments], [ikev2_check_fragment], [ikev2_collect_fragment]
    and [ikev2_reassemble_fragments]; IKEv1: [send_frags] and the fragment branch of
    [process_v1_packet]; for both, [release_fragments], [record_outbound_ike_msg] and
    [send_or_resend_ike_msg]. *)
From S2P Require Import Prelude EnumNames Constants Packet PacketDescs PacketGeneric Stf Ikev2Sk.

Definition MAX_IKE_FRAGMENTS : Z := 16.
Definition NON_ESP_MARKER_SIZE : Z := 4.
Definition NSIZEOF_isakmp_ikefrag : Z := 8.
Definition ISAKMP_NEXT_v2NONE : Z := 0.
Definition ISAKMP_NEXT_IKE_FRAGMENTATION : Z := 132.
Definition ISAKMP_FLAGS_v1_ENCRYPTION : Z := 1.
Definition ISAKMP_FRAG_LAST : Z := 1.
Definition POLICY_IKE_FRAG_ALLOW : Z := Z.shiftl 1 32.
Definition POLICY_IKE_FRAG_FORCE : Z := Z.shiftl 1 33.

(** The IKEv1 and the IKEv2 limits are the same numbers. *)
Definition ISAKMP_FRAG_MAXLEN_IPv4 : Z := MIN_MAX_UDP_DATA_v4 - (2 * 4 + 16).
Definition ISAKMP_FRAG_MAXLEN_IPv6 : Z := MIN_MAX_UDP_DATA_v6 - 40.

(** [struct ikev2_frag], as a received fragment; the plain text is computed from [f_cipher]. *)
Record ikev2_frag := mk_frag { f_np : Z; f_index : Z; f_total : Z; f_iv : Z; f_cipher : list Z }.

(** [struct ike_frag] *)
Record ike_frag := mk_frag1 { frag_index : Z; frag_last : bool; frag_data : list Z }.

(** What the routines use of [struct state] and its connection. Exactly one of [ike_frags] and
    [ikev2_frags], the members of a union, is in use. [st_interface] says whether the interface
    has [ike_float] set; an empty [st_tpacket] is the null chunk. *)
Record frag_state := mk_fst {
  st_sk : sk_state;
  st_ikev2 : bool;
  policy : Z;
  ipv4 : bool; (* addr_family == AF_INET *)
  st_interface : option bool;
  st_seen_fragvid : bool;
  st_seen_fragments : bool;
  ike_frags : list ike_frag;
  ikev2_frags : list ikev2_frag;
  st_tfrags : list (list Z);
  st_tpacket : list Z
}.

Definition set_ikev2_frags (l : list ikev2_frag) (st : frag_state) : frag_state :=
  mk_fst (st_sk st) (st_ikev2 st) (policy st) (ipv4 st) (st_interface st) (st_seen_fragvid st)
    (st_seen_fragments st) (ike_frags st) l (st_tfrags st) (st_tpacket st).
Definition set_ike_frags (l : list ike_frag) (st : frag_state) : frag_state :=
  mk_fst (st_sk st) (st_ikev2 st) (policy st) (ipv4 st) (st_interface st) (st_seen_fragvid st)
    (st_seen_fragments st) l (ikev2_frags st) (st_tfrags st) (st_tpacket st).
Definition set_tfrags (l : list (list Z)) (st : frag_state) : frag_state :=
  mk_fst (st_sk st) (st_ikev2 st) (policy st) (ipv4 st) (st_interface st) (st_seen_fragvid st)
    (st_seen_fragments st) (ike_frags st) (ikev2_frags st) l (st_tpacket st).
Definition set_tpacket (p : list Z) (st : frag_state) : frag_state :=
  mk_fst (st_sk st) (st_ikev2 st) (policy st) (ipv4 st) (st_interface st) (st_seen_fragvid st)
    (st_seen_fragments st) (ike_frags st) (ikev2_frags st) (st_tfrags st) p.
Definition set_seen_fragments (st : frag_state) : frag_state :=
  mk_fst (st_sk st) (st_ikev2 st) (policy st) (ipv4 st) (st_interface st) (st_seen_fragvid st)
    true (ike_frags st) (ikev2_frags st) (st_tfrags st) (st_tpacket st).

Definition has_policy (bit : Z) (st : frag_state) : bool := negb (Z.land (policy st) bit =? 0).

Definition release_v2fragments {E} (st : frag_state) : outcome E frag_state :=
  passert (st_ikev2 st) ;; Ok (set_tfrags [] st).

Definition release_v1fragments {E} (st : frag_state) : outcome E frag_state :=
  passert (negb (st_ikev2 st)) ;; Ok (set_ike_frags [] st).

Definition release_fragments {E} (st : frag_state) : outcome E frag_state :=
  if negb (st_ikev2 st) then release_v1fragments st else release_v2fragments st.

(** * IKEv2: collecting *)

(** The members of [struct ikev2_skf] that were received, the offset of the wire IV in the
    packet, and the packet up to the end of the payload. *)
Record skf_md := mk_skf { isaskf_np : Z; isaskf_number : Z; isaskf_total : Z; skf_iv : Z; skf_packet : list Z }.

Definition ikev2_check_fragment (md : skf_md) (st : frag_state) : bool * frag_state :=
  if negb (has_policy POLICY_IKE_FRAG_ALLOW st) then (false, st)
  else if negb (st_seen_fragvid st) then (false, st)
  else if negb (negb (isaskf_number md =? 0) && (isaskf_number md <=? isaskf_total md) &&
                (isaskf_total md <=? MAX_IKE_FRAGMENTS) &&
                xorb (isaskf_number md =? 1) (isaskf_np md =? ISAKMP_NEXT_v2NONE)) then (false, st)
  else
    match ikev2_frags st with
    | i :: _ =>
        if negb (isaskf_total md =? f_total i) then
          if f_total i <? isaskf_total md then (true, set_ikev2_frags [] st) else (false, st)
        else (negb (existsb (fun i => f_index i =? isaskf_number md) (ikev2_frags st)), st)
    | [] => (true, st)
    end.

(** The loop that finds the place of [frag] in the list. *)
Fixpoint insert_frag (frag : ikev2_frag) (l : list ikev2_frag) : list ikev2_frag :=
  match l with
  | [] => [frag]
  | i :: l' => if f_index frag <? f_index i then frag :: l else i :: insert_frag frag l'
  end.

Definition ikev2_collect_fragment (md : skf_md) (st : frag_state) : bool * frag_state :=
  let '(good, st1) := ikev2_check_fragment md st in
  if negb good then (false, st1)
  else
    let frag := mk_frag (isaskf_np md) (isaskf_number md) (isaskf_total md) (skf_iv md) (skf_packet md) in
    let st2 := set_ikev2_frags (insert_frag frag (ikev2_frags st1)) st1 in
    let num_frags := Z.of_nat (length (ikev2_frags st2)) in
    if num_frags <? isaskf_total md then (false, st2) else (true, set_seen_fragments st2).

(** * IKEv2: joining *)

(** The first loop: every fragment is decrypted, in its own buffer, until one fails. The plain
    texts are there only if none did. *)
Fixpoint decrypt_frags {E} (sk : sk_state) (role : original_role) (frags : list ikev2_frag)
  : outcome E (list ikev2_frag * option (list (list Z))) :=
  match frags with
  | [] => Ok ([], Some [])
  | f :: frags' =>
      '(buf, plain) ← ikev2_verify_and_decrypt_sk_payload sk role (f_cipher f) (f_iv f);
      let f' := mk_frag (f_np f) (f_index f) (f_total f) (f_iv f) buf in
      match plain with
      | None => Ok (f' :: frags', None)
      | Some p =>
          '(rest, ps) ← decrypt_frags sk role frags';
          Ok (f' :: rest, option_map (cons p) ps)
      end
  end.

(** The second loop: copying into a buffer of [size] octets. *)
Fixpoint copy_frags {E} (size offset : Z) (plains : list (list Z)) : outcome E (list Z) :=
  match plains with
  | [] => Ok []
  | p :: plains' =>
      let n := Z.of_nat (length p) in
      passert (u32 (offset + n) <=? size) ;;
      rest ← copy_frags size (u32 (offset + n)) plains';
      Ok (p ++ rest)
  end.

(** The result is the next payload of the first fragment and the joined text, or [STF_FAIL]. *)
Definition ikev2_reassemble_fragments {E} (role : original_role) (st : frag_state)
  : outcome E (frag_state * option (Z * list Z)) :=
  '(frags, plains) ← decrypt_frags (st_sk st) role (ikev2_frags st);
  let st1 := set_ikev2_frags frags st in
  match plains with
  | None => st2 ← release_fragments st1; Ok (st2, None)
  | Some ps =>
      let size := u32 (Z.of_nat (length (concat ps))) in
      frag ← defined (head frags);
      text ← copy_frags size 0 ps;
      Ok (set_ikev2_frags [] st1, Some (f_np frag, text))
  end.

(** * IKEv2: receiving a fragment

    From the packet to the fragment: [process_packet] takes the header off, and
    [ikev2_decode_payloads] the header of the payload. The streams are [packet_pbs] (0),
    [message_pbs] (1) and the one of the payload (2). *)
Definition skf_of_packet (packet : list Z) : outcome diag skf_md :=
  let ps := mk_ps (buffer 4096 packet) {[ 0%nat := init_pbs 4096 (Z.of_nat (length packet)) "message" ]} in
  '(_, ps1) ← in_struct isakmp_hdr_desc 0 (Some 1%nat) ps;
  '(vs, ps2) ← in_struct ikev2_skf_desc 1 (Some 2%nat) ps1;
  packet_pbs ← get_pbs ps2 0;
  e_pbs ← get_pbs ps2 2;
  cipher ← defined (load_bytes (ps_mem ps2) (start packet_pbs) (Z.to_nat (roof e_pbs - start packet_pbs)));
  match vs with
  | [FNum np; _; _; FNum number; FNum total] =>
      Ok (mk_skf np number total (cur e_pbs - start packet_pbs) cipher)
  | _ => Abort
  end.

(** What [process_v2_packet] does with it: nothing until the message is complete. *)
Definition receive_fragment (role : original_role) (packet : list Z) (st : frag_state)
  : outcome diag (frag_state * option (Z * list Z)) :=
  md ← skf_of_packet packet;
  let '(complete, st1) := ikev2_collect_fragment md st in
  if complete : bool then ikev2_reassemble_fragments role st1 else Ok (st1, None).

(** * IKEv2: cutting *)

(** The text that one fragment takes, kept in an [unsigned int]. *)
Definition frag_len {E} (st : frag_state) : outcome E Z :=
  let e := encrypter (st_sk st) in
  let len := if ipv4 st then ISAKMP_FRAG_MAXLEN_IPv4 else ISAKMP_FRAG_MAXLEN_IPv6 in
  let len := match st_interface st with Some true => u32 (len - NON_ESP_MARKER_SIZE) | _ => len end in
  let len := u32 (len - (NSIZEOF_isakmp_hdr + NSIZEOF_ikev2_skf)) in
  n ← integ_size (st_sk st);
  let len := u32 (len - n) in
  let len := if pad_to_blocksize e then Z.land len (Z.lnot (enc_blocksize e - 1)) else len in
  Ok (u32 (len - 2)).

(** What an execution brings along: the random octets, the garbage in the local variables of
    [ikev2_record_fragment] and the address of its buffer, one of each for each fragment. *)
Record frag_env := mk_env {
  env_rnd : Z -> Z -> list Z;
  env_buffer : Z -> list Z;
  env_address : Z -> Z;
  env_length : Z -> Z
}.

(** The loop: [count] fragments have been recorded, [rest] of the payload is left. It ends after
    as many rounds as there are fragments. *)
Fixpoint record_loop {E} (fuel : nat) (env : frag_env) (sk : sk_state) (hdr : isakmp_hdr) (oe : ikev2_generic)
    (len nfrags count : Z) (rest : list Z) : outcome E (stf_status * list (list Z)) :=
  match fuel with
  | O => Abort
  | S fuel' =>
      let n := Z.to_nat (Z.min (Z.of_nat (length rest)) len) in
      let count := count + 1 in
      match ikev2_record_fragment (env_rnd env count) (env_address env count) (env_buffer env count)
              (env_length env count) sk hdr oe (take n rest) count nfrags with
      | Abort => Abort
      | Ugh ret => Ok (ret, [])
      | Ok frag =>
          match drop n rest with
          | [] => Ok (STF_OK, [frag])
          | rest' =>
              '(ret, frags) ← record_loop fuel' env sk hdr oe len nfrags count rest';
              Ok (ret, frag :: frags)
          end
      end
  end.

Definition ikev2_record_fragments {E} (env : frag_env) (hdr : isakmp_hdr) (e : ikev2_generic)
    (payload : list Z) (st : frag_state) : outcome E (stf_status * frag_state) :=
  st1 ← release_fragments st;
  let st2 := set_tpacket [] st1 in
  len ← frag_len st2;
  passert (negb (Z.of_nat (length payload) =? 0)) ;;
  passert (negb (len =? 0)) ;; (* no division by 0 *)
  let nfrags := u32 ((Z.of_nat (length payload) + len - 1) / len) in
  if MAX_IKE_FRAGMENTS <? nfrags then Ok (STF_INTERNAL_ERROR, st2)
  else
    passert (bool_decide (st_tfrags st2 = [])) ;;
    '(ret, frags) ← record_loop (Z.to_nat nfrags) env (st_sk st2) hdr e len nfrags 0 payload;
    Ok (ret, set_tfrags frags st2).

(** * IKEv1: cutting *)

(** The data that one fragment takes. *)
Definition max_data_len (st : frag_state) : Z :=
  let natt_bonus := match st_interface st with Some true => NON_ESP_MARKER_SIZE | _ => 0 end in
  (if ipv4 st then ISAKMP_FRAG_MAXLEN_IPv4 else ISAKMP_FRAG_MAXLEN_IPv6) -
  (natt_bonus + NSIZEOF_isakmp_hdr + NSIZEOF_isakmp_ikefrag).

(** The header of the message with the next payload, the flags and the length replaced. *)
Definition frag_hdr (packet : list Z) (len : Z) : list Z :=
  take 16 packet ++ [ISAKMP_NEXT_IKE_FRAGMENTATION] ++ slice 17 2 packet ++
  [Z.land (nth 19 packet 0) (Z.lnot ISAKMP_FLAGS_v1_ENCRYPTION)] ++ slice 20 4 packet ++ be_encode 4 len.

Definition frag_payload_hdr (len fragnum : Z) (last : bool) : list Z :=
  [0; 0] ++ be_encode 2 len ++ be_encode 2 1 ++ [u8 fragnum; if last then ISAKMP_FRAG_LAST else 0].

(** The packets of [send_frags]; as many rounds as the message has octets are enough. *)
Fixpoint v1_packets (fuel : nat) (max_data_len fragnum : Z) (packet rest : list Z) : list (list Z) :=
  match fuel, rest with
  | O, _ | _, [] => []
  | S fuel', _ =>
      let data_len := Z.min (Z.of_nat (length rest)) max_data_len in
      let fragpl_len := NSIZEOF_isakmp_ikefrag + data_len in
      let fragnum := u32 (fragnum + 1) in
      let last := Z.of_nat (length rest) =? data_len in
      (frag_hdr packet (NSIZEOF_isakmp_hdr + fragpl_len) ++ frag_payload_hdr fragpl_len fragnum last ++
       take (Z.to_nat data_len) rest)
      :: v1_packets fuel' max_data_len fragnum packet (drop (Z.to_nat data_len) rest)
  end.

(** [send_packet] is called for one packet after the other until it fails. *)
Fixpoint send_all (send_packet : list Z -> bool) (packets : list (list Z)) : bool * list (list Z) :=
  match packets with
  | [] => (true, [])
  | p :: packets' =>
      if send_packet p then let '(ok, sent) := send_all send_packet packets' in (ok, p :: sent)
      else (false, [p])
  end.

Definition send_frags {E} (send_packet : list Z -> bool) (st : frag_state) : outcome E (bool * list (list Z)) :=
  passert (NSIZEOF_isakmp_hdr <=? Z.of_nat (length (st_tpacket st))) ;; (* memcpy of the header *)
  Ok (send_all send_packet
        (v1_packets (length (st_tpacket st)) (max_data_len st) 0 (st_tpacket st) (st_tpacket st))).

(** * Recording and sending *)

Definition record_outbound_ike_msg {E} (msg : list Z) (st : frag_state) : outcome E frag_state :=
  passert (negb (Z.of_nat (length msg) =? 0)) ;;
  st1 ← release_fragments st;
  Ok (set_tpacket msg st1).

Definition should_fragment_ike_msg (st : frag_state) (len : Z) (resending : bool) : bool :=
  let len := match st_interface st with Some true => len + NON_ESP_MARKER_SIZE | _ => len end in
  ((if ipv4 st then ISAKMP_FRAG_MAXLEN_IPv4 else ISAKMP_FRAG_MAXLEN_IPv6) <=? len) &&
  ((resending && has_policy POLICY_IKE_FRAG_ALLOW st && st_seen_fragvid st) ||
   has_policy POLICY_IKE_FRAG_FORCE st || st_seen_fragments st).

Definition send_ikev2_frags (send_packet : list Z -> bool) (st : frag_state) : bool * list (list Z) :=
  send_all send_packet (st_tfrags st).

(** The result of the call and the packets handed to [send_packet]; [main_i1] says whether the
    state is [STATE_MAIN_I1]. *)
Definition send_or_resend_ike_msg {E} (send_packet : list Z -> bool) (main_i1 resending : bool) (st : frag_state)
  : outcome E (bool * list (list Z)) :=
  match st_interface st with
  | None => Ok (false, [])
  | Some ike_float =>
      match st_tfrags st with
      | _ :: _ =>
          passert (st_ikev2 st) ;;
          passert (bool_decide (st_tpacket st = [])) ;;
          Ok (send_ikev2_frags send_packet st)
      | [] =>
          let natt_bonus := if ike_float then NON_ESP_MARKER_SIZE else 0 in
          let len := Z.of_nat (length (st_tpacket st)) in
          passert (negb (len =? 0)) ;;
          if negb (st_ikev2 st) && negb main_i1 && should_fragment_ike_msg st (len + natt_bonus) resending
          then send_frags send_packet st
          else Ok (send_all send_packet [st_tpacket st])
      end
  end.

(** * IKEv1: collecting and joining *)

(** The insertion loop: a fragment with the same index is replaced. *)
Fixpoint insert_frag1 (frag : ike_frag) (l : list ike_frag) : list ike_frag :=
  match l with
  | [] => [frag]
  | i :: l' =>
      if frag_index frag <? frag_index i then frag :: l
      else if frag_index i =? frag_index frag then frag :: l'
      else i :: insert_frag1 frag l'
  end.

(** [last_frag_index]: the last fragment of the list that says it is the last one. *)
Definition last_frag_index (l : list ike_frag) : Z :=
  fold_left (fun acc i => if frag_last i then frag_index i else acc) l 0.

(** The search for a complete message: the fragments from 1 on, up to the last one. *)
Fixpoint complete1 (last prev_index : Z) (l : list ike_frag) : bool :=
  match l with
  | [] => false
  | i :: l' =>
      if negb (frag_index i =? prev_index + 1) then false
      else if frag_index i =? last then true
      else complete1 last (prev_index + 1) l'
  end.

(** The copying loop. *)
Fixpoint whole1 (last : Z) (l : list ike_frag) : list Z :=
  match l with
  | [] => []
  | i :: l' => if frag_index i <=? last then frag_data i ++ whole1 last l' else []
  end.

Inductive frag_event := malformed | ignored | stored | reassembled (packet : list Z).

(** The fragment branch of [process_v1_packet] for a state that was found. [message] is the
    packet behind its header. A complete message goes to [process_packet], which may change the
    state in any way. *)
Definition process_v1_fragment {E} (process_packet : list Z -> frag_state -> frag_state) (message : list Z)
    (st : frag_state) : outcome E (frag_event * frag_state) :=
  if negb (has_policy POLICY_IKE_FRAG_ALLOW st) then Ok (ignored, st)
  else
    let ps := mk_ps (buffer 4096 message) {[ 0%nat := init_pbs 4096 (Z.of_nat (length message)) "message" ]} in
    match in_struct isakmp_ikefrag_desc 0 (Some 1%nat) ps with
    | Abort => Abort
    | Ugh _ => Ok (malformed, st)
    | Ok (vs, ps1) =>
        frag_pbs ← get_pbs ps1 1;
        match vs with
        | [FBytes np; _; FNum len; _; FNum number; FNum flags] =>
            if negb (pbs_room frag_pbs =? len) || negb (bool_decide (np = [0])) || (number =? 0) || (16 <? number)
            then Ok (malformed, st)
            else
              data ← defined (load_bytes (ps_mem ps1) (cur frag_pbs) (Z.to_nat (pbs_left frag_pbs)));
              let frag := mk_frag1 number (negb (Z.land flags 1 =? 0)) data in
              let l := insert_frag1 frag (ike_frags st) in
              let st1 := set_ike_frags l st in
              let last := last_frag_index l in
              if negb (last =? 0) && complete1 last 0 l then
                let packet := whole1 last l in
                st2 ← release_fragments (process_packet packet st1);
                Ok (reassembled packet, set_seen_fragments st2)
              else Ok (stored, st1)
        | _ => Abort
        end
    end.
