(* ===== verification/FragmentTheorems.v ===== *)
(** Fragmentation is transparent: what is cut into fragments is what the other end joins, in
    whatever order the packets arrive and however often. The file also proves where the code
    falls short of that: a forged fragment blocks a message for good, and the largest fragments
    overflow their buffer for one choice of algorithms. *)
From S2P Require Import Prelude EnumNames Constants Packet PacketSpec PacketObject PacketNest PacketDescs PacketGeneric.
From S2P Require Import PacketTheorems Stf Ikev2Sk Ikev2SkTheorems Fragments.

From Stdlib Require Import Sorted.

(** * Cutting *)

(** Pieces of [n] elements; the last one may be shorter. *)
Fixpoint cut {A} (fuel n : nat) (l : list A) : list (list A) :=
  match fuel with
  | O => []
  | S fuel' =>
      take n l :: match drop n l with [] => [] | rest => cut fuel' n rest end
  end.

Definition pieces (n : nat) (l : list Z) : list (list Z) := cut (length l) n l.

Lemma cut_concat {A} fuel n (l : list A) : (0 < n)%nat -> (length l <= fuel * n)%nat -> concat (cut fuel n l) = l.
Proof.
  intros Hn. revert l; induction fuel as [|fuel IH]; intros l Hl; cbn [cut concat].
  - destruct l; [done|]. cbn in Hl. lia.
  - pose proof (take_drop n l) as Htd. destruct (drop n l) as [|x rest] eqn:Hd; cbn [concat].
    + by rewrite app_nil_r in *.
    + rewrite IH; [done|]. rewrite <- Hd, length_drop. lia.
Qed.

Lemma cut_pieces {A} fuel n (l : list A) :
  (0 < n)%nat -> l <> [] -> Forall (fun p => (0 < length p <= n)%nat) (cut fuel n l).
Proof.
  intros Hn. revert l; induction fuel as [|fuel IH]; intros l Hl; cbn [cut]; constructor.
  - rewrite length_take. destruct l; [done|]. cbn. lia.
  - destruct (drop n l) as [|x rest] eqn:Hd; [constructor|]. by apply IH.
Qed.

Lemma cut_length {A} fuel n (l : list A) :
  (0 < n)%nat -> l <> [] -> (length l <= fuel * n)%nat ->
  Z.of_nat (length (cut fuel n l)) = (Z.of_nat (length l) + Z.of_nat n - 1) / Z.of_nat n.
Proof.
  intros Hn. revert l; induction fuel as [|fuel IH]; intros l Hne Hl; cbn [cut length].
  - destruct l; [done|]. cbn in Hl. lia.
  - assert (0 < length l)%nat by (destruct l; [done|cbn; lia]).
    assert (length (drop n l) = length l - n)%nat as Hdl by apply length_drop.
    destruct (drop n l) as [|x rest] eqn:Hd.
    + cbn [length] in *. apply (Z.div_unique_pos _ _ _ (Z.of_nat (length l) - 1)); lia.
    + rewrite Nat2Z.inj_succ, IH, Hdl by (done || lia). cbn [length] in Hdl.
      replace (Z.of_nat (length l) + Z.of_nat n - 1) with (Z.of_nat (length l - n) + Z.of_nat n - 1 + 1 * Z.of_nat n) by lia.
      rewrite Z.div_add by lia. lia.
Qed.

Lemma cut_fuel {A} fuel fuel' n (l : list A) :
  (0 < n)%nat -> l <> [] -> (length l <= fuel * n)%nat -> (length l <= fuel' * n)%nat ->
  cut fuel n l = cut fuel' n l.
Proof.
  intros Hn. revert fuel' l; induction fuel as [|fuel IH]; intros [|fuel'] l Hne H1 H2; cbn [cut];
    [done|destruct l; [done|cbn in *; lia]..|].
  f_equal. destruct (drop n l) as [|x rest] eqn:Hd; [done|].
  assert (length (x :: rest) = length l - n)%nat by (rewrite <- Hd; apply length_drop). apply IH; [done|lia|lia].
Qed.

(** ** The size of the pieces *)

Definition base_len (st : frag_state) : Z :=
  (if ipv4 st then 532 else 1192) - match st_interface st with Some true => 4 | _ => 0 end.

Definition piece_len (st : frag_state) : Z :=
  let e := encrypter (st_sk st) in
  let n := base_len st - 36 - icv_size (st_sk st) in
  (if pad_to_blocksize e then n - n mod enc_blocksize e else n) - 2.

Lemma base_len_bounds st : 528 <= base_len st <= 1192 /\ (ipv4 st = true -> base_len st <= 532).
Proof. unfold base_len. repeat case_match; lia. Qed.

Lemma frag_len_ok {E} st : suite_ok (st_sk st) -> @frag_len E st = Ok (piece_len st) /\ 0 < piece_len st < 1200.
Proof.
  intros Hst. pose proof (icv_bounds _ Hst) as Hicv. pose proof (base_len_bounds st) as [Hb _].
  destruct (suite_cipher _ Hst) as [[B1 B2] _ _ _ _ _ _ _ (k&Hk&Hpow)].
  assert (0 < piece_len st < 1200) as Hp.
  { unfold piece_len, MAX_CBC_BLOCK_SIZE in *. case_match; [|lia].
    pose proof (Z.mod_pos_bound (base_len st - 36 - icv_size (st_sk st)) _ B1). lia. }
  split; [|done]. unfold frag_len. rewrite integ_size_ok, bind_Ok by done. f_equal.
  set (len0 := match st_interface st with Some true => _ | _ => _ end).
  assert (len0 = base_len st) as -> by (unfold len0, base_len; by repeat case_match).
  unfold NSIZEOF_isakmp_hdr, NSIZEOF_ikev2_skf. rewrite (u32_small (base_len st - _)), (u32_small (_ - icv_size _)) by lia.
  unfold piece_len in *. destruct (pad_to_blocksize _); [|rewrite u32_small; lia].
  rewrite Hpow in *. change (28 + 8) with 36. set (n := base_len st - 36 - icv_size (st_sk st)) in *.
  replace (2 ^ k - 1) with (Z.ones k) by (rewrite Z.ones_equiv; lia).
  rewrite <- Z.ldiff_land, Z.ldiff_ones_r, Z.shiftl_mul_pow2, Z.shiftr_div_pow2 by done.
  pose proof (Z.div_mod n (2 ^ k) ltac:(lia)). rewrite u32_small; lia.
Qed.

(** A fragment of a piece is smaller than the limit plus the wire IV. *)
Lemma piece_size st piece :
  suite_ok (st_sk st) -> Z.of_nat (length piece) <= piece_len st ->
  frag_size (st_sk st) piece <= base_len st + wire_iv_size (encrypter (st_sk st)).
Proof.
  intros Hst Hp. unfold frag_size. rewrite padded_length by done. unfold piece_len, pad_len in *.
  destruct (cipher_block _ (suite_cipher _ Hst)) as [B1 _]. set (k := Z.of_nat (length piece)) in *.
  destruct (pad_to_blocksize _); [|lia].
  set (b := enc_blocksize _) in *. set (n := base_len st - 36 - icv_size (st_sk st)) in *.
  pose proof (Z.div_mod n b ltac:(lia)). pose proof (Z.mod_pos_bound n b B1).
  pose proof (Z.div_mod k b ltac:(lia)). pose proof (Z.mod_pos_bound k b B1).
  assert (k / b < n / b) by (apply Z.div_lt_upper_bound; lia). nia.
Qed.

(** * Sending *)

Record env_ok (env : frag_env) : Prop := {
  env_rnd_ok : forall i n, 0 <= n -> Z.of_nat (length (env_rnd env i n)) = n;
  env_buffer_ok : forall i, Z.of_nat (length (env_buffer env i)) = frag_buffer_size;
  env_address_ok : forall i, 0 <= env_address env i /\ env_address env i + frag_buffer_size < 2 ^ 63
}.

(** The digest fits behind the largest fragment. Of the algorithms that pluto has, HMAC_SHA2_512
    with a full IPv6 fragment is the exception. *)
Definition digest_fits (st : frag_state) : Prop :=
  ipv4 st = true \/ digest_size (st_sk st) <= icv_size (st_sk st) + 24.

(** What may be sent as fragments: the message has a header that the codec knows, the first
    payload inside is known and the [critical] octet is one of the two that exist. *)
Record sendable (hdr : isakmp_hdr) (oe : ikev2_generic) : Prop := {
  sendable_hdr : valid_hdr (set_np ISAKMP_NEXT_v2SKF hdr);
  sendable_np : known_payload (isag_np oe) /\ isag_np oe <> ISAKMP_NEXT_v2NONE;
  sendable_critical : isag_critical oe = 0 \/ isag_critical oe = 0x80
}.

Lemma known_none : known_payload 0.
Proof. split; [by_decide|]. by eexists. Qed.

Section send.
Context (env : frag_env) (Henv : env_ok env) (st : frag_state) (Hst : suite_ok (st_sk st)).
Context (hdr : isakmp_hdr) (oe : ikev2_generic) (Hmsg : sendable hdr oe) (Hfits : digest_fits st).

(** Packet number [i] of [n]. *)
Definition packet (n i : Z) (piece : list Z) : list Z := fragment (env_rnd env i) (st_sk st) hdr oe i n piece.

Fixpoint packets (n i : Z) (l : list (list Z)) : list (list Z) :=
  match l with [] => [] | p :: l' => packet n i p :: packets n (i + 1) l' end.

Lemma fragment_np i : known_payload (if i =? 1 then isag_np oe else 0).
Proof. case_match; [apply Hmsg|apply known_none]. Qed.

Lemma record_piece n i piece :
  0 <= i < 2 ^ 16 -> 0 <= n < 2 ^ 16 -> Z.of_nat (length piece) <= piece_len st ->
  ikev2_record_fragment (env_rnd env i) (env_address env i) (env_buffer env i) (env_length env i) (st_sk st) hdr oe
    piece i n = Ok (packet n i piece).
Proof.
  intros Hi Hn Hp. destruct Henv as [Hr Hbuf Ha], Hmsg as [Hh _ Hc].
  apply record_fragment_ok; try done; [apply Hr|apply fragment_np|].
  pose proof (piece_size st piece Hst Hp) as Hs. pose proof (base_len_bounds st) as [Hb H4].
  pose proof (icv_bounds _ Hst) as Hicv. destruct (suite_cipher _ Hst) as [[_ B] _ ? ? _ _ _ _ _]. change frag_buffer_size with 1232.
  unfold MAX_CBC_BLOCK_SIZE in B. destruct Hfits as [Hf|Hf]; [specialize (H4 Hf)|]; lia.
Qed.

Lemma record_loop_ok {E} n fuel i rest :
  0 <= i -> i + Z.of_nat fuel < 2 ^ 16 -> 0 <= n < 2 ^ 16 -> rest <> [] ->
  (length rest <= fuel * Z.to_nat (piece_len st))%nat ->
  @record_loop E fuel env (st_sk st) hdr oe (piece_len st) n i rest =
  Ok (STF_OK, packets n (i + 1) (cut fuel (Z.to_nat (piece_len st)) rest)).
Proof.
  intros Hi Hfuel Hn. destruct (frag_len_ok (E := E) st Hst) as [_ Hpl]. revert i rest Hi Hfuel.
  induction fuel as [|fuel IH]; intros i rest Hi Hfuel Hne Hl; [destruct rest; [done|cbn in Hl; lia]|].
  cbn [record_loop cut packets]. set (k := Z.to_nat (Z.min _ _)).
  assert (take k rest = take (Z.to_nat (piece_len st)) rest /\ drop k rest = drop (Z.to_nat (piece_len st)) rest) as [-> ->].
  { unfold k. destruct (Z.le_ge_cases (Z.of_nat (length rest)) (piece_len st)).
    - rewrite Z.min_l, Nat2Z.id, take_ge, drop_ge by lia. rewrite (take_ge rest), (drop_ge rest) by lia. done.
    - by rewrite Z.min_r. }
  rewrite record_piece; [|lia|done|rewrite length_take; lia].
  destruct (drop _ rest) as [|x rest'] eqn:Hd; [done|]. rewrite IH; [done|lia|lia|done|].
  rewrite <- Hd, length_drop. lia.
Qed.

Definition num_pieces (payload : list Z) : Z := Z.of_nat (length (pieces (Z.to_nat (piece_len st)) payload)).

(** The computations before the loop. *)
Lemma record_fragments_loop {E} payload :
  st_ikev2 st = true -> payload <> [] -> num_pieces payload <= MAX_IKE_FRAGMENTS ->
  (length payload <= Z.to_nat (num_pieces payload) * Z.to_nat (piece_len st))%nat /\
  @ikev2_record_fragments E env hdr oe payload st =
  ('(ret, frags) ← record_loop (Z.to_nat (num_pieces payload)) env (st_sk st) hdr oe (piece_len st)
                     (num_pieces payload) 0 payload;
   Ok (ret, set_tfrags frags (set_tpacket [] st))).
Proof.
  intros H2 Hne Hmax. unfold ikev2_record_fragments, release_fragments, release_v2fragments. rewrite H2. cbn [negb passert].
  rewrite !bind_Ok. destruct (frag_len_ok (E := E) st Hst) as [Hlen Hpl].
  assert (frag_len (E := E) (set_tpacket [] (set_tfrags [] st)) = Ok (piece_len st)) as -> by exact Hlen. rewrite bind_Ok.
  assert (0 < length payload)%nat as Hpos by (destruct payload; [done|cbn; lia]).
  rewrite !(proj2 (Z.eqb_neq _ _)) by lia. cbn [negb passert]. rewrite !bind_Ok.
  set (k := Z.to_nat (piece_len st)) in *.
  assert (length payload <= length payload * k)%nat as Hfuel by nia.
  pose proof (cut_length (length payload) k payload ltac:(lia) Hne Hfuel) as Hn.
  change (Z.of_nat (length (cut (length payload) k payload))) with (num_pieces payload) in Hn. replace (Z.of_nat k) with (piece_len st) in Hn by lia. rewrite <- Hn.
  unfold MAX_IKE_FRAGMENTS in Hmax. assert (0 <= num_pieces payload) by apply Nat2Z.is_nonneg.
  rewrite u32_small, (proj2 (Z.ltb_ge _ _)) by (unfold MAX_IKE_FRAGMENTS; lia).
  cbn [st_tfrags set_tpacket set_tfrags]. rewrite bool_decide_true by done. run_ok.
  split; [|done].
  pose proof (Z.div_mod (Z.of_nat (length payload) + piece_len st - 1) (piece_len st) ltac:(lia)) as Hdm. rewrite <- Hn in Hdm.
  pose proof (Z.mod_pos_bound (Z.of_nat (length payload) + piece_len st - 1) (piece_len st) ltac:(lia)). nia.
Qed.

(** A message that fits into [MAX_IKE_FRAGMENTS] fragments is recorded as that many packets. *)
Lemma record_fragments_ok {E} payload :
  st_ikev2 st = true -> payload <> [] ->
  let l := pieces (Z.to_nat (piece_len st)) payload in
  num_pieces payload <= MAX_IKE_FRAGMENTS ->
  @ikev2_record_fragments E env hdr oe payload st =
  Ok (STF_OK, set_tfrags (packets (num_pieces payload) 1 l) (set_tpacket [] st)).
Proof.
  intros H2 Hne l Hmax. destruct (record_fragments_loop (E := E) payload H2 Hne Hmax) as [Hfuel ->].
  destruct (frag_len_ok (E := E) st Hst) as [_ Hpl]. unfold MAX_IKE_FRAGMENTS in Hmax.
  assert (0 <= num_pieces payload) by apply Nat2Z.is_nonneg.
  rewrite record_loop_ok by (done || lia). rewrite bind_Ok. do 3 f_equal.
  rewrite (cut_fuel (Z.to_nat (num_pieces payload)) (length payload)) by (done || lia || nia). done.
Qed.
End send.

(** * Receiving one packet *)

Lemma sealed_prefix st aad iv text : exists tail, sealed st aad iv text = aad ++ tail.
Proof.
  unfold sealed. destruct (sender_keys st) as [[ck ak] salt]. destruct (ike_alg_is_aead _).
  - destruct (do_aead _ _ _ _ _ _ _) as [[? c] t]. by eexists.
  - destruct (integ st); [|by eexists]. rewrite <- app_assoc. by eexists.
Qed.

Lemma hdr_representable h total : 0 <= total < 2 ^ 32 -> representable isakmp_hdr_desc (hdr_members h) total.
Proof.
  intros Ht. split; [|by left]. repeat (constructor; [unfold len_fits; cbn; (done || lia)|]). constructor.
Qed.

Lemma skf_representable np critical len count n total :
  0 <= total < 2 ^ 16 -> representable ikev2_skf_desc (skf_members np critical len count n) total.
Proof.
  intros Ht. split; [|by left]. repeat (constructor; [unfold len_fits; cbn; (done || lia)|]). constructor.
Qed.

(** An object inside an object, from the start of a message. *)
Lemma in_two_structs vs1 sd1 vs2 sd2 bs tail total1 total2 :
  wf_desc sd1 = true -> valid_fields sd1 (sd_fields sd1) vs1 fs0 -> representable sd1 vs1 total1 ->
  wf_desc sd2 = true -> valid_fields sd2 (sd_fields sd2) vs2 fs0 -> representable sd2 vs2 total2 ->
  bs = wire (len_bytes total1) (sd_fields sd1) vs1 fs0 ++ wire (len_bytes total2) (sd_fields sd2) vs2 fs0 ++ tail ->
  Z.of_nat (length bs) < 2 ^ 62 -> total1 <= Z.of_nat (length bs) -> sd_size sd1 + total2 <= total1 -> sd_size sd2 <= total2 ->
  exists ps1 ps2 q,
    in_struct sd1 0 (Some 1%nat) (message bs 0) = Ok (host_values total1 (sd_fields sd1) vs1 fs0, ps1) /\
    in_struct sd2 1 (Some 2%nat) ps1 = Ok (host_values total2 (sd_fields sd2) vs2 fs0, ps2) /\
    ps_mem ps2 = buffer 4096 bs /\ ps_pbs ps2 !! 0%nat = Some (set_cur (4096 + total1) (message_pbs bs)) /\
    ps_pbs ps2 !! 2%nat = Some q /\ cur q = 4096 + sd_size sd1 + sd_size sd2 /\ roof q = 4096 + sd_size sd1 + total2.
Proof.
  intros W1 V1 R1 W2 V2 R2 Hbs Hlt Ht1 Ht Ht2. pose proof (buffer_load 4096 bs) as Hld. rewrite Hbs in Hld at 2 3.
  apply load_bytes_cat in Hld as [H1 Hld]. apply load_bytes_cat in Hld as [H2 _].
  destruct (wf_desc_inv _ W1) as (F1&S1&B1), (wf_desc_inv _ W2) as (F2&S2&B2).
  pose proof (length_wire (len_bytes total1) sd1 _ _ _ F1 V1 (len_bytes_length sd1 total1)) as L1. rewrite S1 in L1. rewrite L1 in H2.
  rewrite (in_struct_wire vs1 sd1 0 1 (message bs 0) (message_pbs bs) total1 W1 (message_lookup _ _) (message_wf bs 0 Hlt));
    [|done|done|done|cbn [message_pbs init_pbs roof cur]; lia|exact H1].
  set (ps1 := mk_ps _ _). set (p1 := mk_pbs _ _ _ _ _ _ _) in ps1.
  assert (ps_pbs ps1 !! 1%nat = Some p1) as Hp1 by (cbn; rewrite lookup_insert_ne by done; apply lookup_insert_eq).
  assert (wf_pbs (ps_mem ps1) p1) as Hw1.
  { destruct (message_wf bs 0 Hlt) as (?&?&Hm). split; cbn [p1 start cur roof message_pbs init_pbs] in *; [lia|]. split; [lia|].
    intros x Hx. apply Hm. cbn in *. lia. }
  exists ps1. rewrite (in_struct_wire vs2 sd2 1 2 ps1 p1 total2 W2 Hp1 Hw1);
    [|done|done|done|cbn [p1 roof cur message_pbs init_pbs]; lia|exact H2].
  eexists _, _. split; [done|]. split; [done|]. split; [done|]. cbn [ps_pbs]. rewrite !lookup_insert_ne by done.
  split; [apply lookup_insert_eq|]. split; [apply lookup_insert_eq|]. done.
Qed.

Section receive.
Context (rnd : Z -> list Z) (sk : sk_state) (Hsk : suite_ok sk) (hdr : isakmp_hdr) (oe : ikev2_generic).
Context (Hrnd : forall n, 0 <= n -> Z.of_nat (length (rnd n)) = n).
Context (Hmsg : sendable hdr oe) (i n : Z) (Hi : 0 <= i < 2 ^ 16) (Hn : 0 <= n < 2 ^ 16) (piece : list Z).
Context (Hsize : frag_size sk piece < 2 ^ 16).
Local Abbreviation np := (if i =? 1 then isag_np oe else 0).
Local Abbreviation pkt := (fragment rnd sk hdr oe i n piece).

Lemma fragment_length : Z.of_nat (length pkt) = frag_size sk piece.
Proof.
  unfold fragment. rewrite sealed_length by done. unfold frag_size.
  pose proof (frag_aad_length sk hdr (sendable_hdr _ _ Hmsg) oe i n piece). pose proof (wire_iv_length rnd Hrnd sk Hsk). lia.
Qed.

#[local] Opaque in_struct sealed buffer load_bytes wire host_values.

(** The header of the fragment is read back. *)
Lemma skf_of_fragment : skf_of_packet pkt = Ok (mk_skf np i n 36 pkt).
Proof.
  pose proof fragment_length as Hlen. pose proof (buffer_load 4096 pkt) as Hld.
  destruct (sealed_prefix sk (frag_aad sk hdr oe i n piece) (wire_iv rnd sk) (padded (encrypter sk) piece)) as [tail Htail].
  fold pkt in Htail.
  pose proof (icv_bounds sk Hsk) as Hicv. pose proof (cipher_iv _ (suite_cipher _ Hsk)) as Hiv.
  assert (36 < frag_size sk piece) as Hmin by (unfold frag_size; lia).
  destruct (skf_valid np (isag_critical oe) 0 i n) as (Vskf&Wskf&Hskf); [apply (fragment_np hdr), Hmsg|apply Hmsg|done|done|].
  assert (pkt = hdr_wire (set_np ISAKMP_NEXT_v2SKF hdr) (frag_size sk piece) ++
    skf_wire np (isag_critical oe) (frag_size sk piece - NSIZEOF_isakmp_hdr) i n ++ tail) as Hpkt
    by (rewrite Htail; unfold frag_aad; by rewrite <- app_assoc).
  rewrite <- Wskf in Hpkt. unfold hdr_wire in Hpkt.
  pose proof (hdr_representable (set_np ISAKMP_NEXT_v2SKF hdr) (frag_size sk piece) ltac:(lia)) as Rhdr.
  pose proof (skf_representable np (isag_critical oe) 0 i n (frag_size sk piece - NSIZEOF_isakmp_hdr)
    ltac:(unfold NSIZEOF_isakmp_hdr; lia)) as Rskf.
  pose proof (valid_hdr_fields _ (sendable_hdr _ _ Hmsg)) as Vhdr.
  destruct (in_two_structs (hdr_members (set_np ISAKMP_NEXT_v2SKF hdr)) isakmp_hdr_desc
    (skf_members np (isag_critical oe) 0 i n) ikev2_skf_desc pkt tail (frag_size sk piece)
    (frag_size sk piece - NSIZEOF_isakmp_hdr) eq_refl Vhdr Rhdr eq_refl Vskf Rskf Hpkt)
    as (ps1&ps2&q&E1&E2&Hmem&Hp0&Hq&Cq&Rq);
    change (sd_size isakmp_hdr_desc) with 28 in *; change (sd_size ikev2_skf_desc) with 8 in *; unfold NSIZEOF_isakmp_hdr in *; [lia..|].
  unfold skf_of_packet. fold (message pkt 0). rewrite E1, bind_Ok, E2, bind_Ok, (get_pbs_at _ _ _ Hp0), bind_Ok, (get_pbs_at _ _ _ Hq), bind_Ok.
  cbn [start set_cur message_pbs init_pbs]. rewrite Hmem, Cq, Rq, Hskf.
  replace (Z.to_nat _) with (length pkt) by lia. rewrite Hld. done.
Qed.
End receive.

(** * Collecting *)

Lemma filter_same (D D' : gset Z) (l : list Z) :
  (forall x, x ∈ l -> x ∈ D <-> x ∈ D') -> filter (.∈ D) l = filter (.∈ D') l.
Proof.
  induction l as [|x l IH]; intros H; [done|]. rewrite !filter_cons, IH by (intros; apply H; by right).
  specialize (H x ltac:(by left)). repeat case_decide; tauto.
Qed.

Section collect.
Context (g : Z -> ikev2_frag) (Hg : forall i, f_index (g i) = i).

Lemma insert_below k l : Forall (fun x => k < x) l -> insert_frag (g k) (g <$> l) = g k :: (g <$> l).
Proof. destruct l as [|x l]; [done|]. intros [Hx _]%Forall_cons. cbn. by rewrite !Hg, (proj2 (Z.ltb_lt _ _)). Qed.

(** Inserting keeps the list sorted by index: it holds the fragments of [l] that were seen. *)
Lemma insert_frag_sorted (D : gset Z) k l :
  StronglySorted Z.lt l -> k ∈ l -> k ∉ D ->
  insert_frag (g k) (g <$> filter (.∈ D) l) = g <$> filter (.∈ {[k]} ∪ D) l.
Proof.
  intros Hs Hk Hnk. induction Hs as [|x l Hs IH Hx]; [by apply not_elem_of_nil in Hk|].
  apply elem_of_cons in Hk as [<-|Hk].
  - rewrite filter_cons_False, filter_cons_True, fmap_cons by set_solver.
    rewrite insert_below by (apply Forall_forall; intros y [_ Hy]%list_elem_of_filter; by eapply Forall_forall in Hy).
    f_equal. f_equal. apply filter_same. intros y Hy.
    assert (k < y) by (by eapply Forall_forall in Hy). split; [set_solver|]. intros [?%elem_of_singleton|?]%elem_of_union; [lia|done].
  - assert (x < k) by (by eapply Forall_forall in Hk). destruct (decide (x ∈ D)).
    + rewrite !filter_cons_True, !fmap_cons by set_solver. cbn [insert_frag]. rewrite !Hg, (proj2 (Z.ltb_ge _ _)) by lia.
      by rewrite IH.
    + rewrite !filter_cons_False; [by apply IH|set_solver by lia|done].
Qed.
End collect.

(** * From end to end *)

(** The other end of the IKE SA: the same algorithms and keys. *)
Definition other_end (sk : sk_state) : sk_state :=
  mk_sk (encrypter sk) (integ sk) (other_role (st_original_role sk)) (st_skeyid_calculated sk)
    (st_skey_ei_nss sk) (st_skey_er_nss sk) (st_skey_ai_nss sk) (st_skey_ar_nss sk)
    (st_skey_initiator_salt sk) (st_skey_responder_salt sk).

Lemma open_other_end {E} sk role chunk iv :
  @ikev2_verify_and_decrypt_sk_payload E (other_end sk) role chunk iv = ikev2_verify_and_decrypt_sk_payload sk role chunk iv.
Proof. done. Qed.

(** Packets are handed to [receive_fragment] until a message is complete. *)
Fixpoint deliver (role : original_role) (packets : list (list Z)) (st : frag_state)
  : outcome diag (frag_state * option (Z * list Z)) :=
  match packets with
  | [] => Ok (st, None)
  | p :: packets' =>
      '(st1, r) ← receive_fragment role p st;
      match r with
      | Some _ => Ok (st1, r)
      | None => deliver role packets' st1
      end
  end.

(** A state that can receive fragments from [A] and has none. *)
Record receiver (A B : frag_state) : Prop := {
  receiver_sk : st_sk B = other_end (st_sk A);
  receiver_keys : st_skeyid_calculated (st_sk A) = true;
  receiver_ikev2 : st_ikev2 B = true;
  receiver_policy : has_policy POLICY_IKE_FRAG_ALLOW B = true;
  receiver_fragvid : st_seen_fragvid B = true
}.

Lemma copy_frags_ok {E} size offset ps :
  0 <= offset -> offset + Z.of_nat (length (concat ps)) <= size -> size < 2 ^ 32 -> @copy_frags E size offset ps = Ok (concat ps).
Proof.
  intros Ho Hs Hb. revert offset Ho Hs; induction ps as [|p ps IH]; intros offset Ho Hs; [done|]. cbn [copy_frags concat] in *.
  rewrite length_app in Hs. rewrite u32_small, (proj2 (Z.leb_le _ _)) by lia. cbn [passert]. rewrite bind_Ok, IH by lia. done.
Qed.

Section transfer.
Context (env : frag_env) (Henv : env_ok env) (A : frag_state) (HA : suite_ok (st_sk A)).
Context (hdr : isakmp_hdr) (oe : ikev2_generic) (Hmsg : sendable hdr oe) (Hfits : digest_fits A).
Context (payload : list Z) (Hne : payload <> []) (Hmax : num_pieces A payload <= MAX_IKE_FRAGMENTS).

Local Abbreviation n := (num_pieces A payload).
Local Abbreviation ps := (pieces (Z.to_nat (piece_len A)) payload).

Definition piece (i : Z) : list Z := nth (Z.to_nat (i - 1)) ps [].
Definition sent (i : Z) : list Z := packet env A hdr oe n i (piece i).
Definition stored_frag (i : Z) : ikev2_frag := mk_frag (if i =? 1 then isag_np oe else 0) i n 36 (sent i).

Lemma num_pieces_bounds : 1 <= n <= 16.
Proof.
  split; [|exact Hmax]. unfold num_pieces, pieces. destruct payload as [|b l]; [done|]. cbn [length cut]. lia.
Qed.

Lemma piece_bounds i : 1 <= i <= n -> 0 < Z.of_nat (length (piece i)) <= piece_len A.
Proof.
  intros Hi. destruct (frag_len_ok (E := unit) A HA) as [_ Hpl].
  pose proof (cut_pieces (length payload) (Z.to_nat (piece_len A)) payload ltac:(lia) Hne) as Hall.
  unfold num_pieces in Hi. rewrite (Forall_nth _ []) in Hall. specialize (Hall (Z.to_nat (i - 1)) ltac:(unfold pieces in Hi; lia)).
  unfold piece, pieces. lia.
Qed.

Lemma skf_of_sent i : 1 <= i <= n -> skf_of_packet (sent i) = Ok (mk_skf (f_np (stored_frag i)) i n 36 (sent i)).
Proof.
  intros Hi. pose proof num_pieces_bounds. pose proof (piece_bounds i Hi) as Hp.
  pose proof (piece_size A (piece i) HA ltac:(lia)) as Hs. pose proof (base_len_bounds A) as [Hb _].
  destruct (suite_cipher _ HA) as [[_ B] _ ? ? _ _ _ _ _]. unfold MAX_CBC_BLOCK_SIZE in B.
  unfold sent, packet. apply skf_of_fragment; try done; [apply (env_rnd_ok _ Henv)|lia..].
Qed.

Lemma check_sent (D : gset Z) i B :
  receiver A B -> 1 <= i <= n -> ikev2_frags B = stored_frag <$> filter (.∈ D) (seqZ 1 n) ->
  ikev2_check_fragment (mk_skf (f_np (stored_frag i)) i n 36 (sent i)) B = (bool_decide (i ∉ D), B).
Proof.
  intros [_ _ _ Hpol Hvid] Hi Hfr. pose proof num_pieces_bounds as Hn. unfold ikev2_check_fragment. rewrite Hpol, Hvid.
  cbn [negb isaskf_number isaskf_total isaskf_np].
  rewrite (proj2 (Z.eqb_neq i 0)), (proj2 (Z.leb_le i n)), (proj2 (Z.leb_le n _)) by (unfold MAX_IKE_FRAGMENTS; lia).
  assert (xorb (i =? 1) (f_np (stored_frag i) =? ISAKMP_NEXT_v2NONE) = true) as ->.
  { cbn [stored_frag f_np]. destruct (Z.eqb_spec i 1); [|done]. destruct (sendable_np _ _ Hmsg) as [_ H0].
    by rewrite (proj2 (Z.eqb_neq _ _)). }
  cbn [negb andb].
  assert (existsb (fun f => f_index f =? i) (ikev2_frags B) = bool_decide (i ∈ D)) as Hex.
  { rewrite Hfr. apply Bool.eq_iff_eq_true. rewrite existsb_exists, bool_decide_eq_true. split.
    - intros (f&Hf%list_elem_of_In&Heq%Z.eqb_eq). apply list_elem_of_fmap in Hf as (j&->&[Hj _]%list_elem_of_filter).
      cbn in Heq. by subst j.
    - intros HD. exists (stored_frag i). split; [|apply Z.eqb_refl]. apply list_elem_of_In, list_elem_of_fmap.
      exists i. split; [done|]. apply list_elem_of_filter. split; [done|]. apply elem_of_seqZ. lia. }
  destruct (ikev2_frags B) as [|f l] eqn:Hl.
  - cbn in Hex. by rewrite bool_decide_not, <- Hex.
  - assert (f_total f = n) as ->.
    { assert (f ∈ stored_frag <$> filter (.∈ D) (seqZ 1 n)) as (j&->&_)%list_elem_of_fmap by (rewrite <- Hfr; left). done. }
    rewrite Z.eqb_refl. cbn [negb]. by rewrite Hex, bool_decide_not.
Qed.

Lemma seqZ_sorted m len : StronglySorted Z.lt (seqZ m len).
Proof.
  unfold seqZ. generalize (Z.to_nat len) as k. intros k. generalize 0%nat as a. induction k as [|k IH]; intros a; cbn; constructor; [apply IH|].
  apply Forall_forall. intros y (j&->&Hj%elem_of_seq)%list_elem_of_fmap. lia.
Qed.

(** Everything has arrived. *)
Definition all_sent (D : gset Z) : Prop := Forall (.∈ D) (seqZ 1 n).

Lemma collected_complete (D : gset Z) : all_sent D -> filter (.∈ D) (seqZ 1 n) = seqZ 1 n.
Proof.
  unfold all_sent. induction (seqZ 1 n) as [|x l IH]; [done|]. intros [Hx Hl]%Forall_cons.
  by rewrite filter_cons_True, IH.
Qed.

Lemma collect_sent (D : gset Z) i B :
  receiver A B -> 1 <= i <= n -> ikev2_frags B = stored_frag <$> filter (.∈ D) (seqZ 1 n) ->
  ikev2_collect_fragment (mk_skf (f_np (stored_frag i)) i n 36 (sent i)) B =
  if decide (i ∈ D) then (false, B)
  else
    let B' := set_ikev2_frags (stored_frag <$> filter (.∈ {[i]} ∪ D) (seqZ 1 n)) B in
    if decide (all_sent ({[i]} ∪ D)) then (true, set_seen_fragments B') else (false, B').
Proof.
  intros HB Hi Hfr. unfold ikev2_collect_fragment. rewrite (check_sent D) by done.
  destruct (decide (i ∈ D)) as [HD|HD]; [by rewrite bool_decide_false by tauto|]. rewrite bool_decide_true by done.
  cbn [negb isaskf_np isaskf_number isaskf_total skf_iv skf_packet f_np stored_frag].
  fold (stored_frag i). rewrite Hfr, insert_frag_sorted; [|done|apply seqZ_sorted|apply elem_of_seqZ; lia|done].
  cbn [ikev2_frags set_ikev2_frags]. rewrite length_fmap. assert (Z.of_nat (length (seqZ 1 n)) = n) as Hlen.
  { rewrite length_seqZ. pose proof num_pieces_bounds. lia. }
  destruct (decide (all_sent _)) as [Hall|Hall].
  - rewrite collected_complete by done. rewrite Hlen, Z.ltb_irrefl. done.
  - apply not_Forall_Exists in Hall as (x&Hx&Hnx)%Exists_exists; [|apply _].
    pose proof (length_filter_lt (.∈ {[i]} ∪ D) _ x Hx Hnx). rewrite (proj2 (Z.ltb_lt _ _)) by lia. done.
Qed.

Lemma decrypt_sent {E} m len :
  st_skeyid_calculated (st_sk A) = true -> 1 <= m -> m + Z.of_nat len <= n + 1 ->
  exists frags, @decrypt_frags E (other_end (st_sk A)) (st_original_role (other_end (st_sk A)))
      (stored_frag <$> seqZ m (Z.of_nat len)) =
    Ok (frags, Some (piece <$> seqZ m (Z.of_nat len))) /\ f_np <$> frags = f_np ∘ stored_frag <$> seqZ m (Z.of_nat len).
Proof.
  intros Hk. revert m; induction len as [|len IH]; intros m Hm Hlen; [by eexists|].
  rewrite seqZ_cons by lia. replace (Z.pred (Z.of_nat (S len))) with (Z.of_nat len) by lia.
  rewrite !fmap_cons. cbn [decrypt_frags]. rewrite open_other_end. cbn [stored_frag f_cipher f_iv].
  destruct (sealed_opens (st_sk A) HA (E := E) (frag_aad (st_sk A) hdr oe m n (piece m)) (wire_iv (env_rnd env m) (st_sk A)) (piece m))
    as [chunk Hopen]; [apply wire_iv_length; [apply (env_rnd_ok _ Henv)|done]|done|].
  rewrite frag_aad_length in Hopen by apply Hmsg.
  change (st_original_role (other_end (st_sk A))) with (other_role (st_original_role (st_sk A))).
  unfold sent, packet, fragment. rewrite Hopen, bind_Ok.
  destruct (IH (Z.succ m)) as (frags&Hd&Hnp); [lia|lia|].
  change (st_original_role (other_end (st_sk A))) with (other_role (st_original_role (st_sk A))) in Hd.
  rewrite Hd, bind_Ok. eexists. split; [done|]. rewrite !fmap_cons. f_equal. exact Hnp.
Qed.

Lemma pieces_seqZ : piece <$> seqZ 1 n = ps.
Proof.
  apply list_eq. intros j. rewrite list_lookup_fmap. unfold num_pieces. destruct (decide (j < length ps)%nat) as [Hj|Hj].
  - rewrite lookup_seqZ_lt by lia. cbn [fmap option_fmap option_map].
    unfold piece. replace (Z.to_nat (1 + Z.of_nat j - 1)) with j by lia.
    destruct (lookup_lt_is_Some_2 ps j Hj) as [p Hp]. rewrite Hp. f_equal. by apply nth_lookup_Some.
  - rewrite (lookup_seqZ_ge), (lookup_ge_None_2 ps) by lia. done.
Qed.

Lemma pieces_concat : concat ps = payload.
Proof.
  destruct (frag_len_ok (E := unit) A HA) as [_ Hpl]. apply cut_concat; [lia|]. nia.
Qed.

Lemma reassemble_sent {E} B :
  receiver A B -> ikev2_frags B = stored_frag <$> seqZ 1 n ->
  @ikev2_reassemble_fragments E (st_original_role (st_sk B)) B = Ok (set_ikev2_frags [] B, Some (isag_np oe, payload)).
Proof.
  intros [Hsk Hk _ _ _] Hfr. unfold ikev2_reassemble_fragments. rewrite Hsk, Hfr. pose proof num_pieces_bounds as Hn.
  destruct (decrypt_sent (E := E) 1 (Z.to_nat n) Hk) as (frags&Hd&Hnp); [lia|lia|]. rewrite Z2Nat.id in Hd, Hnp by lia.
  rewrite Hd, bind_Ok, pieces_seqZ, pieces_concat.
  assert (length payload <= 16 * 1200)%nat as Hlen.
  { rewrite <- pieces_concat. destruct (frag_len_ok (E := unit) A HA) as [_ Hpl].
    pose proof (cut_pieces (length payload) (Z.to_nat (piece_len A)) payload ltac:(lia) Hne) as Hall.
    fold (pieces (Z.to_nat (piece_len A)) payload) in Hall. unfold num_pieces in Hn.
    assert (length (concat ps) <= length ps * 1200)%nat; [|lia].
    clear Hn Hd. induction Hall as [|x l Hx _ IH]; cbn [concat length]; [lia|]. rewrite length_app. lia. }
  rewrite u32_small by lia. rewrite seqZ_cons in Hnp by lia. rewrite fmap_cons in Hnp.
  destruct frags as [|f frags]; [done|]. injection Hnp as Hf _. cbn [head defined]. rewrite bind_Ok.
  rewrite copy_frags_ok, bind_Ok by (rewrite ?pieces_concat; lia). rewrite pieces_concat, Hf. done.
Qed.

Lemma receiver_frags l B : receiver A B -> receiver A (set_ikev2_frags l B).
Proof. intros []. by constructor. Qed.

Lemma deliver_sent ds (D : gset Z) B :
  receiver A B -> Forall (fun i => 1 <= i <= n) ds ->
  ikev2_frags B = stored_frag <$> filter (.∈ D) (seqZ 1 n) -> ~ all_sent D ->
  exists B', deliver (st_original_role (st_sk B)) (sent <$> ds) B =
    Ok (B', if decide (all_sent (list_to_set ds ∪ D)) then Some (isag_np oe, payload) else None) /\
    (all_sent (list_to_set ds ∪ D) -> ikev2_frags B' = []).
Proof.
  revert D B; induction ds as [|i ds IH]; intros D B HB Hds Hfr HD.
  - exists B. cbn [list_to_set fmap list_fmap deliver]. rewrite decide_False by (by rewrite union_empty_l_L).
    split; [done|]. rewrite union_empty_l_L. done.
  - apply Forall_cons in Hds as [Hi Hds]. rewrite fmap_cons. cbn [deliver]. unfold receive_fragment.
    rewrite skf_of_sent, bind_Ok, (collect_sent D) by done. cbn [list_to_set].
    destruct (decide (i ∈ D)) as [HiD|HiD]; [|destruct (decide (all_sent ({[i]} ∪ D))) as [Hall|Hall]].
    + rewrite bind_Ok. destruct (IH D B HB Hds Hfr HD) as (B'&Hd&Hc). exists B'.
      replace ({[i]} ∪ list_to_set ds ∪ D) with (list_to_set ds ∪ D) by set_solver. done.
    + cbv zeta. rewrite collected_complete by done. set (B1 := set_seen_fragments _).
      assert (receiver A B1) as HB1 by (destruct HB; by constructor).
      change (st_original_role (st_sk B)) with (st_original_role (st_sk B1)). rewrite reassemble_sent, bind_Ok by done.
      assert (all_sent ({[i]} ∪ list_to_set ds ∪ D)) as Hall'.
      { eapply Forall_impl; [exact Hall|]. intros x Hx. cbn in *. set_solver. }
      exists (set_ikev2_frags [] B1). by rewrite decide_True.
    + rewrite bind_Ok. set (B1 := set_ikev2_frags _ B).
      destruct (IH ({[i]} ∪ D) B1 (receiver_frags _ _ HB) Hds eq_refl Hall) as (B'&Hd&Hc). exists B'.
      replace ({[i]} ∪ list_to_set ds ∪ D) with (list_to_set ds ∪ ({[i]} ∪ D)) by set_solver. done.
Qed.
End transfer.

Lemma packets_lookup env A hdr oe n m l j :
  packets env A hdr oe n m l !! j = packet env A hdr oe n (m + Z.of_nat j) <$> l !! j.
Proof.
  revert m j; induction l as [|p l IH]; intros m [|j]; try done; cbn [packets lookup list_lookup].
  - by rewrite Z.add_0_r.
  - rewrite IH. by replace (m + 1 + Z.of_nat j) with (m + Z.of_nat (S j)) by lia.
Qed.

Lemma packets_length env A hdr oe n m l : length (packets env A hdr oe n m l) = length l.
Proof. revert m; induction l as [|p l IH]; intros m; cbn; [done|]. by rewrite IH. Qed.

Lemma packets_nth env A hdr oe payload j :
  (j < length (pieces (Z.to_nat (piece_len A)) payload))%nat ->
  nth j (packets env A hdr oe (num_pieces A payload) 1 (pieces (Z.to_nat (piece_len A)) payload)) [] =
  sent env A hdr oe payload (1 + Z.of_nat j).
Proof.
  intros Hj. destruct (lookup_lt_is_Some_2 _ _ Hj) as [p Hp]. unfold sent, piece.
  replace (Z.to_nat (1 + Z.of_nat j - 1)) with j by lia. rewrite (nth_lookup_Some _ _ _ _ Hp).
  apply nth_lookup_Some. rewrite packets_lookup, Hp. done.
Qed.

(** What every path must carry, and the marker in front of the message. *)
Definition max_udp (st : frag_state) : Z := if ipv4 st then MIN_MAX_UDP_DATA_v4 else MIN_MAX_UDP_DATA_v6.
Definition natt_marker (st : frag_state) : Z := match st_interface st with Some true => NON_ESP_MARKER_SIZE | _ => 0 end.

Lemma packets_fit env A hdr oe payload :
  env_ok env -> suite_ok (st_sk A) -> sendable hdr oe -> payload <> [] ->
  Forall (fun p => Z.of_nat (length p) + natt_marker A <= max_udp A)
    (packets env A hdr oe (num_pieces A payload) 1 (pieces (Z.to_nat (piece_len A)) payload)).
Proof.
  intros Henv HA Hmsg Hne. destruct (frag_len_ok (E := unit) A HA) as [_ Hpl].
  pose proof (cut_pieces (length payload) (Z.to_nat (piece_len A)) payload ltac:(lia) Hne) as Hall.
  fold (pieces (Z.to_nat (piece_len A)) payload) in Hall. generalize 1 as i. generalize (num_pieces A payload) as n. intros n.
  induction Hall as [|p l Hp _ IH]; intros i; cbn [packets]; constructor; [|apply IH].
  unfold packet. rewrite fragment_length; [|done|apply (env_rnd_ok _ Henv)|done].
  pose proof (piece_size A p HA ltac:(lia)) as Hs. destruct (suite_cipher _ HA) as [[_ B] _ ? ? _ _ _ _ _].
  unfold base_len, natt_marker, max_udp, MAX_CBC_BLOCK_SIZE, NON_ESP_MARKER_SIZE, MIN_MAX_UDP_DATA_v4, MIN_MAX_UDP_DATA_v6 in *.
  repeat case_match; lia.
Qed.

(** All the packets of [l] are among those numbered by [ds]. *)
Definition all_arrived (ds : list nat) (l : list (list Z)) : Prop := Forall (.∈ ds) (seq 0 (length l)).

Lemma all_arrived_numbers ds l (n : nat) :
  length l = n ->
  Forall (.∈ (list_to_set ((fun i => 1 + Z.of_nat i) <$> ds) : gset Z) ∪ ∅) (seqZ 1 (Z.of_nat n)) <-> all_arrived ds l.
Proof.
  intros <-. unfold all_arrived. rewrite !Forall_forall. split.
  - intros H i Hi%elem_of_seq. specialize (H (1 + Z.of_nat i) ltac:(apply elem_of_seqZ; lia)).
    rewrite union_empty_r_L, elem_of_list_to_set, list_elem_of_fmap in H. destruct H as (j&Hj&Hin). by replace i with j by lia.
  - intros H x Hx%elem_of_seqZ. rewrite union_empty_r_L, elem_of_list_to_set, list_elem_of_fmap.
    exists (Z.to_nat (x - 1)). split; [lia|]. apply H, elem_of_seq. lia.
Qed.

Lemma filter_none {A} (P : A -> Prop) `{!forall x, Decision (P x)} l : (forall x, ~ P x) -> filter P l = [].
Proof. intros Hn. induction l as [|x l IH]; [done|]. by rewrite filter_cons_False by apply Hn. Qed.

(** ** Properties *)

(** C4: whatever is cut into fragments arrives. [ikev2_record_fragments] succeeds for every message
    that takes at most 16 fragments; when the packets it recorded reach the other end, in any
    order, with repetitions and with packets missing, the other end delivers exactly the message
    and its first payload type, as soon as every packet has come, and nothing before. No packet,
    with the marker that NAT traversal adds, is larger than every path must carry. *)
Theorem fragments_roundtrip env A B hdr oe payload ds :
  env_ok env -> suite_ok (st_sk A) -> sendable hdr oe -> digest_fits A -> st_ikev2 A = true ->
  payload <> [] -> num_pieces A payload <= MAX_IKE_FRAGMENTS ->
  receiver A B -> ikev2_frags B = [] ->
  exists A', @ikev2_record_fragments unit env hdr oe payload A = Ok (STF_OK, A') /\
    Forall (fun p => Z.of_nat (length p) + natt_marker A <= max_udp A) (st_tfrags A') /\
    (Forall (fun i => (i < length (st_tfrags A'))%nat) ds ->
     exists B', deliver (st_original_role (st_sk B)) ((fun i => nth i (st_tfrags A') []) <$> ds) B =
       Ok (B', if decide (all_arrived ds (st_tfrags A')) then Some (isag_np oe, payload) else None)).
Proof.
  intros Henv HA Hmsg Hfits H2 Hne Hmax HB Hfr. rewrite record_fragments_ok by done.
  eexists. split; [done|]. cbn [st_tfrags set_tfrags]. split; [by apply packets_fit|].
  set (l := packets _ _ _ _ _ _ _). intros Hds.
  assert (length l = length (pieces (Z.to_nat (piece_len A)) payload)) as Hl by apply packets_length.
  pose proof (num_pieces_bounds A payload Hne Hmax) as Hn. unfold num_pieces in Hn.
  destruct (deliver_sent env Henv A HA hdr oe Hmsg Hfits payload Hne Hmax ((fun i => 1 + Z.of_nat i) <$> ds) ∅ B HB)
    as (B'&Hd&_).
  - apply Forall_fmap. eapply Forall_impl; [exact Hds|]. intros i Hi. cbn in *. unfold num_pieces. lia.
  - by rewrite Hfr, filter_none by set_solver.
  - unfold all_sent, num_pieces. rewrite seqZ_cons by lia. intros [? _]%Forall_cons. set_solver.
  - exists B'. assert ((fun i => nth i l []) <$> ds = sent env A hdr oe payload <$> ((fun i => 1 + Z.of_nat i) <$> ds)) as ->.
    { rewrite <- list_fmap_compose. apply list_fmap_ext. intros j i Hj. cbn.
      apply packets_nth. rewrite <- Hl. exact (Forall_lookup_1 _ _ _ _ Hds Hj). }
    rewrite Hd. do 3 f_equal. apply decide_ext. by apply all_arrived_numbers.
Qed.

(** ** Examples

    Algorithms with the sizes of AES_CBC and of HMAC_SHA2, for the witnesses. *)

Definition mask (text : list Z) : list Z := Z.lxor 90 <$> text.

Definition mask_cbc : encrypt_desc :=
  mk_encrypt 16 true 16 0 0 (fun buf _ _ _ => mask buf) (fun _ _ _ text tag _ _ => (true, mask text, tag)).

Definition sum_prf (n : Z) (key data : list Z) : list Z :=
  replicate (Z.to_nat n) (u8 (fold_right Z.add 0 (key ++ data))).
Definition sum_sha2_256 : integ_desc := mk_integ 16 32 (sum_prf 32).
Definition sum_sha2_512 : integ_desc := mk_integ 32 64 (sum_prf 64).

Definition example_sk (i : integ_desc) (role : original_role) : sk_state :=
  mk_sk mask_cbc (Some i) role true [1] [2] [3] [4] [] [].

Lemma mask_mask text : mask (mask text) = text.
Proof.
  unfold mask. rewrite <- list_fmap_compose. rewrite (list_fmap_ext _ id); [apply list_fmap_id|].
  intros j x _. cbn. by rewrite <- Z.lxor_assoc, Z.lxor_nilpotent, Z.lxor_0_l.
Qed.

Lemma mask_cbc_ok : cipher_ok mask_cbc.
Proof.
  constructor; try (by_decide || done).
  - intros. apply length_fmap.
  - intros. apply mask_mask.
  - intros salt iv aad text tag key _. exists (mask text), tag, tag. cbn. rewrite mask_mask. split; [done|].
    split; [apply length_fmap|done].
  - by exists 4.
Qed.

Lemma sum_prf_ok out size : 0 < out <= size /\ size <= MAX_DIGEST_LEN -> integ_ok (mk_integ out size (sum_prf size)).
Proof. intros H. constructor; [done|]. intros. cbn. unfold sum_prf. rewrite length_replicate. lia. Qed.

Lemma example_suite_ok i role : integ_ok i -> suite_ok (example_sk i role).
Proof. intros Hi. constructor; [apply mask_cbc_ok| |done|done]. intros _. by exists i. Qed.

(** An initiator that sends and the responder that receives. *)
Definition example_state (i : integ_desc) (role : original_role) (v4 : bool) : frag_state :=
  mk_fst (example_sk i role) true POLICY_IKE_FRAG_ALLOW v4 (Some true) true false [] [] [] [].

Definition example_env : frag_env :=
  mk_env (fun i n => replicate (Z.to_nat n) i) (fun _ => replicate 1232 0) (fun _ => 4096) (fun _ => 0).

(** An IKE_AUTH request; the first payload inside is the initiator's identity. *)
Definition example_hdr : isakmp_hdr :=
  mk_hdr (replicate 8 1) (replicate 8 2) 46 0x20 35 8 [0; 0; 0; 1] 0.
Definition example_generic : ikev2_generic := mk_generic 35 0 0.
Definition octets (n : nat) : list Z := (fun i => u8 (Z.of_nat i)) <$> seq 0 n.

Lemma example_env_ok : env_ok example_env.
Proof. constructor; intros; [cbn; rewrite length_replicate; lia|done|by_decide]. Qed.

Lemma example_sendable : sendable example_hdr example_generic.
Proof.
  constructor; [|split; [split; [by_decide|by eexists]|done]|by left].
  repeat (split; [done|]). split; [split; [by_decide|by eexists]|]. split; [by_decide|].
  split; [split; [by_decide|by eexists]|]. split; [by_decide|done].
Qed.

Lemma example_receiver i : receiver (example_state i ORIGINAL_INITIATOR true) (example_state i ORIGINAL_RESPONDER true).
Proof. by constructor. Qed.

Lemma fragments_roundtrip_witness :
  exists A', @ikev2_record_fragments unit example_env example_hdr example_generic (octets 1000)
    (example_state sum_sha2_256 ORIGINAL_INITIATOR true) = Ok (STF_OK, A') /\
    Forall (fun p => Z.of_nat (length p) + 4 <= 556) (st_tfrags A') /\
    (Forall (fun i => (i < length (st_tfrags A'))%nat) [2; 0; 2; 1]%nat ->
     exists B', deliver ORIGINAL_RESPONDER ((fun i => nth i (st_tfrags A') []) <$> [2; 0; 2; 1]%nat)
       (example_state sum_sha2_256 ORIGINAL_RESPONDER true) =
       Ok (B', if decide (all_arrived [2; 0; 2; 1]%nat (st_tfrags A')) then Some (35, octets 1000) else None)).
Proof.
  apply (fragments_roundtrip example_env (example_state sum_sha2_256 ORIGINAL_INITIATOR true)
    (example_state sum_sha2_256 ORIGINAL_RESPONDER true) example_hdr example_generic (octets 1000) [2; 0; 2; 1]%nat).
  - apply example_env_ok.
  - apply example_suite_ok, sum_prf_ok. by_decide.
  - apply example_sendable.
  - by left.
  - done.
  - done.
  - by_decide.
  - apply example_receiver.
  - done.
Defined.

(** The sizes of AES_CBC with HMAC_SHA2_512_256. *)
Definition cbc_sha2_512 (sk : sk_state) : Prop :=
  let e := encrypter sk in
  (enc_blocksize e, pad_to_blocksize e, wire_iv_size e, aead_tag_size e) = (16, true, 16, 0) /\
  exists i, integ sk = Some i /\ (integ_output_size i, prf_output_size i) = (32, 64).

(** C39: the fragment buffer overflows. With AES_CBC and HMAC_SHA2_512_256 over IPv6, the first
    fragment of a message of 1118 octets or more is a full one, and [ikev2_encrypt_msg] writes the
    untruncated digest of 64 octets, four of them beyond the end of [frag_buffer]. *)
Theorem sha2_512_fragment_overflows env A hdr oe payload :
  env_ok env -> suite_ok (st_sk A) -> sendable hdr oe -> st_ikev2 A = true ->
  cbc_sha2_512 (st_sk A) -> ipv4 A = false ->
  1118 <= Z.of_nat (length payload) -> num_pieces A payload <= MAX_IKE_FRAGMENTS ->
  @ikev2_record_fragments unit env hdr oe payload A = Abort.
Proof.
  intros Henv HA Hmsg H2 (Hsizes&i&Hi&Hint) H4 Hlen Hmax. injection Hsizes as Hb Hp Hiv Htag. injection Hint as Ho Hd.
  assert (ike_alg_is_aead (encrypter (st_sk A)) = false) as Haead by (unfold ike_alg_is_aead; by rewrite Htag).
  assert (icv_size (st_sk A) = 32 /\ digest_size (st_sk A) = 64) as [Hicv Hdig] by (unfold icv_size, digest_size; by rewrite Haead, Hi).
  assert (piece_len A = 1118) as Hpl.
  { unfold piece_len, base_len. rewrite Hp, Hb, Hicv, H4. by repeat case_match. }
  assert (payload <> []) as Hne by (intros ->; cbn in Hlen; lia).
  destruct (record_fragments_loop env A HA hdr oe (E := unit) payload H2 Hne Hmax) as [_ ->].
  pose proof (num_pieces_bounds A payload Hne Hmax) as Hn.
  destruct (Z.to_nat (num_pieces A payload)) as [|fuel] eqn:Hf; [lia|]. cbn [record_loop]. rewrite Hpl, Z.min_r by lia.
  destruct Henv as [Hr Hbuf Ha], Hmsg as [Hh [Hnp _] Hc].
  rewrite record_fragment_overflow; try done; [apply Hr|lia|..].
  all: unfold frag_size; rewrite padded_length by done; unfold pad_len; rewrite Hp, Hb, Hiv, Hicv, ?Hdig, length_take;
    change frag_buffer_size with 1232; rewrite Nat.min_l by lia; done.
Qed.

Lemma sha2_512_fragment_overflows_witness :
  @ikev2_record_fragments unit example_env example_hdr example_generic (octets 2000)
    (example_state sum_sha2_512 ORIGINAL_INITIATOR false) = Abort.
Proof.
  apply sha2_512_fragment_overflows.
  - apply example_env_ok.
  - apply example_suite_ok, sum_prf_ok. by_decide.
  - apply example_sendable.
  - done.
  - split; [done|]. by exists sum_sha2_512.
  - done.
  - by_decide.
  - by_decide.
Defined.

(** * The list of collected fragments, whoever sent them *)

(** Sorted, without repetition, of one message, and with numbers that this message can have. *)
Definition frags_inv (l : list ikev2_frag) : Prop :=
  StronglySorted Z.lt (f_index <$> l) /\
  exists total, total <= MAX_IKE_FRAGMENTS /\ Forall (fun f => f_total f = total /\ 1 <= f_index f <= total) l.

Lemma insert_frag_perm f l : insert_frag f l ≡ₚ f :: l.
Proof.
  induction l as [|x l IH]; [done|]. cbn [insert_frag]. case_match; [done|]. rewrite IH. apply Permutation_swap.
Qed.

Lemma insert_frag_keeps_sorted f l :
  StronglySorted Z.lt (f_index <$> l) -> f_index f ∉ f_index <$> l -> StronglySorted Z.lt (f_index <$> insert_frag f l).
Proof.
  induction l as [|x l IH]; [by repeat constructor|]. rewrite fmap_cons. intros [Hs Hx]%StronglySorted_inv Hf.
  apply not_elem_of_cons in Hf as [Hne Hf]. cbn [insert_frag]. destruct (Z.ltb_spec (f_index f) (f_index x)).
  - rewrite !fmap_cons. constructor; [by constructor|]. constructor; [done|]. eapply Forall_impl; [exact Hx|]. intros y ?. cbn in *. lia.
  - rewrite fmap_cons. constructor; [by apply IH|]. rewrite insert_frag_perm, fmap_cons. constructor; [lia|done].
Qed.

(** As many different numbers from [a] to [b] as there are: all of them, in order. *)
Lemma sorted_full l a b :
  StronglySorted Z.lt l -> Forall (fun x => a <= x <= b) l -> b - a + 1 <= Z.of_nat (length l) ->
  l = seqZ a (Z.of_nat (length l)).
Proof.
  intros Hs. revert a; induction Hs as [|x l Hs IH Hx]; intros a Ha Hl; [done|].
  apply Forall_cons in Ha as [Hax Ha]. cbn [length] in *.
  assert (forall y l', StronglySorted Z.lt l' -> Forall (fun z => y < z <= b) l' -> Z.of_nat (length l') <= Z.max 0 (b - y)) as Hcount.
  { clear. intros y l' Hs. revert y; induction Hs as [|z l' Hs IH Hz]; intros y Hy; [cbn; lia|]. apply Forall_cons in Hy as [Hz' Hy].
    specialize (IH z). cbn [length]. rewrite Forall_forall in IH, Hz, Hy. assert (Z.of_nat (length l') <= Z.max 0 (b - z)); [|lia].
    apply IH. intros w Hw. split; [by apply Hz|apply Hy, Hw]. }
  assert (Forall (fun z => x < z <= b) l) as Hall.
  { rewrite Forall_forall in Hx, Ha |- *. intros w Hw. split; [by apply Hx|apply Ha, Hw]. }
  specialize (Hcount x l Hs Hall). assert (x = a) as -> by lia.
  rewrite seqZ_cons by lia. replace (Z.pred (Z.of_nat (S (length l)))) with (Z.of_nat (length l)) by lia. f_equal.
  apply IH; [|lia]. eapply Forall_impl; [exact Hall|]. intros w Hw. cbn in *. lia.
Qed.

(** What passes [ikev2_check_fragment] may be inserted. *)
Lemma check_passed md st st1 :
  0 <= isaskf_number md -> frags_inv (ikev2_frags st) -> ikev2_check_fragment md st = (true, st1) ->
  frags_inv (ikev2_frags st1) /\ 1 <= isaskf_number md <= isaskf_total md /\ isaskf_total md <= MAX_IKE_FRAGMENTS /\
  isaskf_number md ∉ f_index <$> ikev2_frags st1 /\ Forall (fun f => f_total f = isaskf_total md) (ikev2_frags st1).
Proof.
  intros Hpos Hinv. unfold ikev2_check_fragment. case_match; [done|]. case_match; [done|]. case_match eqn:Hgood; [done|].
  apply negb_false_iff in Hgood. rewrite !andb_true_iff, negb_true_iff, Z.eqb_neq, !Z.leb_le in Hgood. destruct Hgood as [[[? ?] ?] _].
  destruct (ikev2_frags st) as [|f l] eqn:Hl.
  - intros [= <-]. rewrite Hl. repeat split; [constructor|by exists 0|lia..|apply not_elem_of_nil|constructor].
  - destruct (Z.eqb_spec (isaskf_total md) (f_total f)) as [Heq|]; cbn [negb].
    + intros [= Hex <-]. rewrite Hl. apply negb_true_iff in Hex. split; [done|]. split; [lia|]. split; [lia|]. split.
      * intros (g&Hg&Hin)%list_elem_of_fmap. apply not_true_iff_false in Hex. apply Hex, (existsb_exists (fun i => f_index i =? isaskf_number md) (f :: l)).
        exists g. split; [by apply list_elem_of_In|]. by apply Z.eqb_eq.
      * destruct Hinv as [_ (total&_&Hall)]. pose proof (Forall_inv Hall) as [Ht _].
        eapply Forall_impl; [exact Hall|]. intros g [? _]. lia.
    + case_match; [|done]. intros [= <-]. cbn. repeat split; [constructor|by exists 0|lia..|apply not_elem_of_nil|constructor].
Qed.

Lemma check_keeps md st b st1 :
  ikev2_check_fragment md st = (b, st1) -> b = false -> st1 = st.
Proof. unfold ikev2_check_fragment. intros H ->. repeat case_match; naive_solver. Qed.

Lemma collected md st b st' :
  0 <= isaskf_number md -> frags_inv (ikev2_frags st) -> ikev2_collect_fragment md st = (b, st') ->
  frags_inv (ikev2_frags st') /\
  (b = true -> Forall (fun f => f_total f = isaskf_total md) (ikev2_frags st') /\
     0 < isaskf_total md <= Z.of_nat (length (ikev2_frags st'))).
Proof.
  intros Hpos Hinv. unfold ikev2_collect_fragment. destruct (ikev2_check_fragment md st) as [[] st1] eqn:Hc; cbn [negb].
  2:{ apply check_keeps in Hc; [|done]. intros [= <- <-]. by subst. }
  apply check_passed in Hc as (Hinv1&Hn&Hmax&Hnew&Htot); [|done|done].
  set (f := mk_frag _ _ _ _ _). set (l := insert_frag f (ikev2_frags st1)).
  assert (Forall (fun g => f_total g = isaskf_total md) l) as Hl by (unfold l; rewrite insert_frag_perm; by constructor).
  assert (frags_inv l) as Hli.
  { split; [apply insert_frag_keeps_sorted; [apply Hinv1|done]|]. exists (isaskf_total md). split; [done|].
    unfold l. rewrite insert_frag_perm. constructor; [cbn; lia|]. destruct Hinv1 as [_ (total&_&Hall)].
    rewrite Forall_forall in *. intros g Hg. specialize (Htot g Hg). specialize (Hall g Hg). cbn in *. lia. }
  cbn [ikev2_frags set_ikev2_frags]. fold l. destruct (Z.ltb_spec (Z.of_nat (length l)) (isaskf_total md)); intros [= <- <-];
    cbn [ikev2_frags set_ikev2_frags set_seen_fragments]; fold l; (split; [done|]); [done|].
  intros _. split; [done|lia].
Qed.

Lemma frags_inv_length l : frags_inv l -> (length l <= 16)%nat.
Proof.
  intros [Hs (total&Hmax&Hall)]. unfold MAX_IKE_FRAGMENTS in Hmax.
  assert (forall (xs : list Z) a, StronglySorted Z.lt xs -> Forall (fun x => a < x <= 16) xs -> Z.of_nat (length xs) <= Z.max 0 (16 - a)) as Hc.
  { clear. intros xs a H. revert a; induction H as [|x xs Hs IH Hx]; intros a Ha; [cbn; lia|]. apply Forall_cons in Ha as [? Ha].
    cbn [length]. specialize (IH x). rewrite !Forall_forall in IH, Hx, Ha.
    assert (Z.of_nat (length xs) <= Z.max 0 (16 - x)); [|lia]. apply IH. intros y Hy. split; [by apply Hx|apply Ha, Hy]. }
  specialize (Hc (f_index <$> l) 0 Hs). rewrite length_fmap in Hc. enough (Z.of_nat (length l) <= Z.max 0 (16 - 0)) by lia.
  apply Hc, Forall_fmap. eapply Forall_impl; [exact Hall|]. intros f Hf. cbn in *. lia.
Qed.

Lemma frags_inv_full l n :
  frags_inv l -> Forall (fun f => f_total f = n) l -> 0 < n <= Z.of_nat (length l) -> f_index <$> l = seqZ 1 n.
Proof.
  intros [Hs (total&_&Hall)] Hn Hlen.
  assert (Forall (fun x => 1 <= x <= n) (f_index <$> l)) as Hr.
  { apply Forall_fmap. rewrite Forall_forall in *. intros f Hf. specialize (Hall f Hf). specialize (Hn f Hf). cbn in *. lia. }
  pose proof (sorted_full _ 1 n Hs Hr) as Hfull. rewrite length_fmap in Hfull. rewrite Hfull by lia.
  assert (Z.of_nat (length l) = n) as ->; [|done].
  rewrite Hfull in Hr by lia. rewrite Forall_forall in Hr. specialize (Hr (Z.of_nat (length l))). rewrite elem_of_seqZ in Hr. lia.
Qed.

(** C15: collecting keeps the list in order, whatever arrives: no fragment is stored twice or under a
    number that the message does not have, never more than 16. It reports a complete message only
    when the fragments are exactly those from 1 to the total, each once and in order. *)
Theorem collect_invariant md st b st' :
  0 <= isaskf_number md -> frags_inv (ikev2_frags st) -> ikev2_collect_fragment md st = (b, st') ->
  frags_inv (ikev2_frags st') /\ (length (ikev2_frags st') <= 16)%nat /\
  (b = true -> f_index <$> ikev2_frags st' = seqZ 1 (isaskf_total md) /\
     Forall (fun f => f_total f = isaskf_total md) (ikev2_frags st')).
Proof.
  intros Hpos Hinv Hc. destruct (collected _ _ _ _ Hpos Hinv Hc) as [Hinv' Hfull].
  split; [done|]. split; [by apply frags_inv_length|]. intros Hb. destruct (Hfull Hb) as [Htot Hlen].
  split; [by apply frags_inv_full|done].
Qed.

Definition example_skf (np number : Z) : skf_md := mk_skf np number 2 36 [].

Lemma collect_invariant_witness :
  let st := example_state sum_sha2_256 ORIGINAL_RESPONDER true in
  let st1 := snd (ikev2_collect_fragment (example_skf 0 2) st) in
  let r := ikev2_collect_fragment (example_skf 35 1) st1 in
  frags_inv (ikev2_frags (snd r)) /\ (length (ikev2_frags (snd r)) <= 16)%nat /\
  (fst r = true -> f_index <$> ikev2_frags (snd r) = seqZ 1 2 /\
     Forall (fun f => f_total f = 2) (ikev2_frags (snd r))).
Proof.
  apply (collect_invariant (example_skf 35 1)
    (snd (ikev2_collect_fragment (example_skf 0 2) (example_state sum_sha2_256 ORIGINAL_RESPONDER true)))).
  - by_decide.
  - split; [repeat constructor|]. exists 2. split; [by_decide|]. constructor; [by_decide|constructor].
  - apply surjective_pairing.
Defined.

(** ** A forged fragment *)

Lemma decrypt_frags_keeps {E} sk role l l' r :
  @decrypt_frags E sk role l = Ok (l', r) -> f_index <$> l' = f_index <$> l /\ f_total <$> l' = f_total <$> l.
Proof.
  revert l' r; induction l as [|f l IH]; intros l' r H; cbn [decrypt_frags] in H; [by inv_ok|].
  apply bind_ok in H as ([buf plain]&_&H). destruct plain as [p|]; [|by injection H as <- <-].
  apply bind_ok in H as ([rest ps]&Hr&H). injection H as <- <-. destruct (IH _ _ Hr) as [Hi Ht].
  rewrite !fmap_cons. cbn [f_index f_total]. by rewrite Hi, Ht.
Qed.

(** With every number taken, there is no room for another fragment of the message. *)
Lemma full_list_ignores md' st n :
  f_index <$> ikev2_frags st = seqZ 1 n -> Forall (fun f => f_total f = n) (ikev2_frags st) -> 0 < n ->
  0 <= isaskf_number md' -> isaskf_total md' <= n -> ikev2_collect_fragment md' st = (false, st).
Proof.
  intros Hidx Htot Hn Hpos Hle. unfold ikev2_collect_fragment.
  enough (ikev2_check_fragment md' st = (false, st)) as -> by done.
  unfold ikev2_check_fragment. case_match; [done|]. case_match; [done|]. case_match eqn:Hgood; [done|].
  apply negb_false_iff in Hgood. rewrite !andb_true_iff, negb_true_iff, Z.eqb_neq, !Z.leb_le in Hgood. destruct Hgood as [[[? ?] ?] _].
  destruct (ikev2_frags st) as [|f l] eqn:Hl; [rewrite seqZ_cons in Hidx by lia; done|].
  pose proof (Forall_inv Htot) as Hf. cbn in Hf. rewrite Hf. destruct (Z.eqb_spec (isaskf_total md') n); cbn [negb];
    [|by rewrite (proj2 (Z.ltb_ge _ _)) by lia].
  assert (isaskf_number md' ∈ f_index <$> f :: l) as (g&Hg&Hin)%list_elem_of_fmap by (rewrite Hidx; apply elem_of_seqZ; lia).
  assert (existsb (fun i => f_index i =? isaskf_number md') (f :: l) = true) as ->; [|done].
  apply existsb_exists. exists g. split; [by apply list_elem_of_In|]. by apply Z.eqb_eq.
Qed.

(** C38: a fragment is stored before anything about it is verified, and a message of which one
    fragment does not open blocks the exchange for good. The failing [ikev2_reassemble_fragments]
    keeps the collected list, so that every later fragment that does not announce a larger total,
    a retransmission among them, is ignored; it releases the fragments of our own last message
    instead, and resending that one then fails an assertion. *)
Theorem forged_fragment_blocks md st st1 role st2 :
  0 <= isaskf_number md -> frags_inv (ikev2_frags st) ->
  ikev2_collect_fragment md st = (true, st1) -> st_ikev2 st1 = true ->
  @ikev2_reassemble_fragments unit role st1 = Ok (st2, None) ->
  (forall md', 0 <= isaskf_number md' -> isaskf_total md' <= isaskf_total md ->
     ikev2_collect_fragment md' st2 = (false, st2)) /\
  st_tfrags st2 = [] /\
  (st_tpacket st1 = [] -> is_Some (st_interface st1) ->
     forall send_packet main_i1 resending, @send_or_resend_ike_msg unit send_packet main_i1 resending st2 = Abort).
Proof.
  intros Hpos Hinv Hc H2 Hr. destruct (collected _ _ _ _ Hpos Hinv Hc) as [Hinv1 [Htot Hlen]%(fun f => f eq_refl)].
  pose proof (frags_inv_full _ _ Hinv1 Htot Hlen) as Hidx.
  unfold ikev2_reassemble_fragments in Hr. apply bind_ok in Hr as ([frags plains]&Hd&Hr).
  apply decrypt_frags_keeps in Hd as [Hi Ht]. destruct plains as [ps|]; [by inv_ok|].
  apply bind_ok in Hr as (st3&Hrel&[= <-]). unfold release_fragments, release_v2fragments in Hrel.
  cbn [st_ikev2 set_ikev2_frags] in Hrel. rewrite H2 in Hrel. cbn [negb passert] in Hrel. rewrite bind_Ok in Hrel.
  injection Hrel as <-. split; [|split; [done|]].
  - intros md' Hpos' Hle. apply (full_list_ignores _ _ (isaskf_total md)); try done; [|cbn [ikev2_frags set_tfrags set_ikev2_frags]|lia].
    + cbn [ikev2_frags set_tfrags set_ikev2_frags]. by rewrite Hi.
    + apply (Forall_fmap f_total (fun t => t = isaskf_total md)). rewrite Ht. by apply Forall_fmap.
  - intros Htp [b Hb] send main_i1 resending. unfold send_or_resend_ike_msg.
    cbn [st_interface st_tfrags st_tpacket set_tfrags set_ikev2_frags]. by rewrite Hb, Htp.
Qed.

(** Two small fragments as the initiator sends them; the second one is forged. *)
Definition example_fragment (count : Z) : list Z :=
  fragment (fun n => replicate (Z.to_nat n) count) (example_sk sum_sha2_256 ORIGINAL_INITIATOR) example_hdr example_generic
    count 2 [count; 7].
Definition genuine : skf_md := mk_skf 35 1 2 36 (example_fragment 1).
Definition forged : skf_md := mk_skf 0 2 2 36 (replicate 84 0).
Definition awaiting : frag_state :=
  snd (ikev2_collect_fragment forged (example_state sum_sha2_256 ORIGINAL_RESPONDER true)).
Definition poisoned : frag_state :=
  let st1 := snd (ikev2_collect_fragment genuine awaiting) in
  match @ikev2_reassemble_fragments unit ORIGINAL_RESPONDER st1 with Ok (st2, _) => st2 | _ => st1 end.

Lemma forged_fragment_blocks_witness :
  ikev2_collect_fragment (mk_skf 0 2 2 36 (example_fragment 2)) poisoned = (false, poisoned) /\
  @send_or_resend_ike_msg unit (fun _ => true) false true poisoned = Abort.
Proof.
  destruct (forged_fragment_blocks genuine awaiting (snd (ikev2_collect_fragment genuine awaiting)) ORIGINAL_RESPONDER poisoned)
    as (H1&_&H2).
  - by_decide.
  - split; [repeat constructor|]. exists 2. split; [by_decide|]. constructor; [by_decide|constructor].
  - rewrite (surjective_pairing (ikev2_collect_fragment genuine awaiting)) at 1. f_equal.
  - vm_compute. reflexivity.
  - unfold poisoned. cbv zeta.
    assert (match @ikev2_reassemble_fragments unit ORIGINAL_RESPONDER (snd (ikev2_collect_fragment genuine awaiting)) with
            | Ok (_, None) => True | _ => False end) as Hr by (vm_compute; exact I).
    destruct (ikev2_reassemble_fragments _ _) as [[st2 [r|]]| |]; [destruct Hr|reflexivity|destruct Hr..].
  - split; [apply H1; by_decide|]. apply H2; [vm_compute; reflexivity|]. exists true. vm_compute. reflexivity.
Defined.

(** * A padding length of 255 *)

(** The padding is not removed when its length octet is 255. The receiver adds 1 in an octet,
    which gives 0, and takes the padding, which RFC 7296 allows to be that long, for a part of the
    message. *)
Theorem pad_length_255_kept st aad wire_iv text :
  suite_ok st -> st_skeyid_calculated st = true -> Z.of_nat (length wire_iv) = wire_iv_size (encrypter st) ->
  whole_blocks (encrypter st) text -> last text = Some 255 ->
  exists chunk, @ikev2_verify_and_decrypt_sk_payload unit st (other_role (st_original_role st))
    (sealed st aad wire_iv text) (Z.of_nat (length aad)) = Ok (chunk, Some text).
Proof.
  intros Hst Hk Hiv Hwb H. assert (strip_padding text = Some text) as Hstrip.
  { unfold strip_padding. rewrite H. change (u8 (default 0 (Some 255) + 1)) with 0.
    rewrite (proj2 (Z.ltb_ge _ _)) by lia. by rewrite Z.sub_0_r, Nat2Z.id, firstn_all. }
  rewrite <- Hstrip. apply sealed_opens_text; try done. by intros ->.
Qed.

Lemma pad_length_255_kept_witness :
  exists chunk, @ikev2_verify_and_decrypt_sk_payload unit (example_sk sum_sha2_256 ORIGINAL_INITIATOR) ORIGINAL_RESPONDER
    (sealed (example_sk sum_sha2_256 ORIGINAL_INITIATOR) (replicate 32 0) (replicate 16 7) (octets 512)) 32 =
    Ok (chunk, Some (octets 512)).
Proof.
  apply (pad_length_255_kept (example_sk sum_sha2_256 ORIGINAL_INITIATOR) (replicate 32 0) (replicate 16 7) (octets 512)).
  - apply example_suite_ok, sum_prf_ok. by_decide.
  - done.
  - done.
  - by intros _.
  - reflexivity.
Defined.
