(* ===== verification/FragmentV1Theorems.v ===== *)
(** IKEv1 fragmentation: a message that is sent as at most 16 fragments is joined again at the
    other end, in whatever order they arrive; a larger one is sent all the same, and lost. *)
From S2P Require Import Prelude EnumNames Constants Packet PacketSpec PacketObject PacketNest PacketDescs PacketGeneric.
From S2P Require Import PacketTheorems Stf Ikev2Sk Ikev2SkTheorems Fragments FragmentTheorems.
From Stdlib Require Import Sorted.

(** * Sending *)

Definition v1_fragment (packet : list Z) (i : Z) (last : bool) (data : list Z) : list Z :=
  let len := NSIZEOF_isakmp_ikefrag + Z.of_nat (length data) in
  frag_hdr packet (NSIZEOF_isakmp_hdr + len) ++ frag_payload_hdr len i last ++ data.

Fixpoint v1_fragments (packet : list Z) (i : Z) (l : list (list Z)) : list (list Z) :=
  match l with
  | [] => []
  | data :: l' => v1_fragment packet i (match l' with [] => true | _ => false end) data :: v1_fragments packet (i + 1) l'
  end.

Lemma v1_packets_cut fuel m i packet rest :
  (0 < m)%nat -> 0 <= i -> i + Z.of_nat fuel < 2 ^ 32 ->
  rest <> [] -> (length rest <= fuel * m)%nat ->
  v1_packets fuel (Z.of_nat m) i packet rest = v1_fragments packet (i + 1) (cut fuel m rest).
Proof.
  intros Hm. revert i rest; induction fuel as [|fuel IH]; intros i rest Hi Hb Hne Hl; [done|].
  cbn [v1_packets cut v1_fragments]. destruct rest as [|b bs] eqn:Hr; [done|]. rewrite <- Hr in *. rewrite u32_small by lia.
  assert (length (take m rest) = Z.to_nat (Z.min (Z.of_nat (length rest)) (Z.of_nat m))) as Ht by (rewrite length_take; lia).
  assert (take (Z.to_nat (Z.min (Z.of_nat (length rest)) (Z.of_nat m))) rest = take m rest /\
    drop (Z.to_nat (Z.min (Z.of_nat (length rest)) (Z.of_nat m))) rest = drop m rest) as [-> ->].
  { destruct (Z.le_ge_cases (Z.of_nat (length rest)) (Z.of_nat m)).
    - rewrite Z.min_l, Nat2Z.id by lia. rewrite !take_ge, !drop_ge by lia. done.
    - by rewrite Z.min_r, Nat2Z.id by lia. }
  assert (length (drop m rest) = length rest - m)%nat as Hd by apply length_drop.
  unfold v1_fragment. replace (Z.of_nat (length (take m rest))) with (Z.min (Z.of_nat (length rest)) (Z.of_nat m)) by lia.
  destruct (drop m rest) as [|x rest'] eqn:Hdr.
  - cbn [length] in Hd. rewrite (proj2 (Z.eqb_eq _ _)) by lia. by destruct fuel.
  - cbn [length] in Hd. rewrite (proj2 (Z.eqb_neq _ _)) by lia. rewrite IH; [|lia|lia|done|cbn [length]; lia].
    f_equal. destruct fuel as [|fuel]; [lia|done].
Qed.

Lemma max_data_len_bounds st : 400 <= max_data_len st <= 1156.
Proof. unfold max_data_len. repeat case_match; by_decide. Qed.

Definition v1_pieces (st : frag_state) : list (list Z) :=
  cut (length (st_tpacket st)) (Z.to_nat (max_data_len st)) (st_tpacket st).

Lemma v1_fragments_length p i l : length (v1_fragments p i l) = length l.
Proof. revert i; induction l as [|x l IH]; intros i; cbn; [done|]. by rewrite IH. Qed.

Lemma v1_fragments_lookup p i l j data :
  l !! j = Some data ->
  v1_fragments p i l !! j = Some (v1_fragment p (i + Z.of_nat j) (bool_decide (S j = length l)) data).
Proof.
  revert i j; induction l as [|x l IH]; intros i [|j] H; cbn in *; [done|done| |].
  - injection H as ->. rewrite Z.add_0_r. do 2 f_equal. destruct l; [done|]. by rewrite bool_decide_false.
  - rewrite (IH _ _ H). replace (i + 1 + Z.of_nat j) with (i + Z.of_nat (S j)) by lia. do 2 f_equal. apply bool_decide_ext. lia.
Qed.

Lemma send_all_ok l : send_all (fun _ => true) l = (true, l).
Proof. induction l as [|p l IH]; [done|]. cbn. by rewrite IH. Qed.

(** What [send_frags] hands to [send_packet] when that never fails. *)
Lemma send_frags_ok {E} st :
  28 <= Z.of_nat (length (st_tpacket st)) < 2 ^ 31 ->
  @send_frags E (fun _ => true) st = Ok (true, v1_fragments (st_tpacket st) 1 (v1_pieces st)).
Proof.
  intros Hlen. unfold send_frags. rewrite (proj2 (Z.leb_le _ _)) by (unfold NSIZEOF_isakmp_hdr; lia). cbn [passert].
  rewrite bind_Ok, send_all_ok. pose proof (max_data_len_bounds st) as Hm.
  replace (max_data_len st) with (Z.of_nat (Z.to_nat (max_data_len st))) at 1 by lia.
  rewrite v1_packets_cut; [done|lia|done|lia|intros H; rewrite H in Hlen; cbn in Hlen; lia|nia].
Qed.

(** * Receiving one fragment *)

Lemma length_frag_hdr p len : 28 <= Z.of_nat (length p) -> length (frag_hdr p len) = 28%nat.
Proof.
  intros Hp. unfold frag_hdr, slice. rewrite !length_app, !length_take, !length_drop, length_be_encode. cbn [length]. lia.
Qed.

Definition ikefrag_members (len i flags : Z) : list fval :=
  [FBytes [0]; FBytes [0]; FNum len; FNum 1; FNum i; FNum flags].

Lemma ikefrag_valid len i (last : bool) :
  byteZ i ->
  let flags := if last then ISAKMP_FRAG_LAST else 0 in
  valid_fields isakmp_ikefrag_desc (sd_fields isakmp_ikefrag_desc) (ikefrag_members 0 i flags) fs0 /\
  wire (len_bytes len) (sd_fields isakmp_ikefrag_desc) (ikefrag_members 0 i flags) fs0 = frag_payload_hdr len i last /\
  host_values len (sd_fields isakmp_ikefrag_desc) (ikefrag_members 0 i flags) fs0 = ikefrag_members len i flags.
Proof.
  intros Hi flags. assert (byteZ flags) as Hf by (unfold flags; destruct last; by_decide).
  assert (forall n, byteZ n -> n mod 2 ^ (8 * 1) = n) as Hm by (intros n Hb; apply Z.mod_small; exact Hb).
  unfold ikefrag_members, frag_payload_hdr.
  cbn [sd_fields isakmp_ikefrag_desc isafrag_fields valid_fields wire host_values fd_type fd_size val_num].
  cbn [deferred is_lenfld andb negb immediate fs0 next_fs fd_type]. rewrite !Hm by done.
  change (Z.to_nat 1) with 1%nat. rewrite !be_encode_1, u8_small by done. split; [|split; [|done]].
  - repeat (split; [by eexists|]; split; [done|]). done.
  - cbn [replicate app]. by destruct last.
Qed.

Lemma ikefrag_representable len i flags total :
  0 <= total < 2 ^ 16 -> representable isakmp_ikefrag_desc (ikefrag_members len i flags) total.
Proof.
  intros Ht. split; [|by left]. repeat (constructor; [unfold len_fits; cbn; (done || lia)|]). constructor.
Qed.

(** An object that is a whole message. *)
Lemma in_whole_struct vs sd bs body :
  wf_desc sd = true -> valid_fields sd (sd_fields sd) vs fs0 ->
  let total := Z.of_nat (length bs) in
  representable sd vs total -> total < 2 ^ 62 -> bs = wire (len_bytes total) (sd_fields sd) vs fs0 ++ body ->
  exists ps1 q, in_struct sd 0 (Some 1%nat) (message bs 0) = Ok (host_values total (sd_fields sd) vs fs0, ps1) /\
    ps_pbs ps1 !! 1%nat = Some q /\ pbs_room q = total /\
    load_bytes (ps_mem ps1) (cur q) (Z.to_nat (pbs_left q)) = Some body.
Proof.
  intros Hw Hv total Hr Hlt Hbs. pose proof (buffer_load 4096 bs) as Hld. rewrite Hbs in Hld at 2 3.
  apply load_bytes_cat in Hld as [H1 H2]. destruct (wf_desc_inv _ Hw) as (F&S&Hb).
  pose proof (length_wire (len_bytes total) sd _ _ _ F Hv (len_bytes_length sd total)) as L. rewrite S in L. rewrite L in H2.
  assert (total = sd_size sd + Z.of_nat (length body)) as Ht
    by (pose proof (f_equal length Hbs) as Hl; rewrite length_app in Hl; lia).
  rewrite (in_struct_wire vs sd 0 1 (message bs 0) (message_pbs bs) total Hw (message_lookup _ _) (message_wf bs 0 Hlt));
    [|done|done|done|cbn [message_pbs init_pbs roof cur]; unfold total; lia|exact H1].
  eexists _, _. split; [done|]. split; [cbn; rewrite lookup_insert_ne by done; apply lookup_insert_eq|].
  unfold pbs_room, pbs_left. cbn [start roof cur message_pbs init_pbs ps_mem message]. split.
  - rewrite u64_small; unfold total in *; lia.
  - rewrite u64_small by (unfold total in *; lia). replace (Z.to_nat _) with (length body) by (unfold total in *; lia). exact H2.
Qed.

Section receive1.
Context (process_packet : list Z -> frag_state -> frag_state).

(** What the rest of the branch does with the fragment. *)
Definition store_fragment {E} (frag : ike_frag) (st : frag_state) : outcome E (frag_event * frag_state) :=
  let l := insert_frag1 frag (ike_frags st) in
  let st1 := set_ike_frags l st in
  let last := last_frag_index l in
  if negb (last =? 0) && complete1 last 0 l then
    st2 ← release_fragments (process_packet (whole1 last l) st1);
    Ok (reassembled (whole1 last l), set_seen_fragments st2)
  else Ok (stored, st1).

Lemma receive_v1_fragment {E} p i last data st :
  28 <= Z.of_nat (length p) -> byteZ i -> Z.of_nat (length data) <= 1200 ->
  has_policy POLICY_IKE_FRAG_ALLOW st = true ->
  @process_v1_fragment E process_packet (drop 28 (v1_fragment p i last data)) st =
  if (i =? 0) || (16 <? i) then Ok (malformed, st) else store_fragment (mk_frag1 i last data) st.
Proof.
  intros Hp Hi Hd Hpol. set (len := NSIZEOF_isakmp_ikefrag + Z.of_nat (length data)).
  set (bs := frag_payload_hdr len i last ++ data).
  assert (drop 28 (v1_fragment p i last data) = bs) as ->.
  { unfold v1_fragment. rewrite <- (length_frag_hdr p (NSIZEOF_isakmp_hdr + len)) by done. apply drop_app_length. }
  assert (Z.of_nat (length bs) = len) as Hlen.
  { unfold bs, len, frag_payload_hdr. rewrite !length_app, !length_be_encode. cbn [length]. unfold NSIZEOF_isakmp_ikefrag. lia. }
  destruct (ikefrag_valid len i last Hi) as (Hv&Hw&Hh). set (flags := if last then _ else _) in *.
  assert (len < 2 ^ 16) as Hsmall by (unfold len, NSIZEOF_isakmp_ikefrag; lia).
  assert (bs = wire (len_bytes (Z.of_nat (length bs))) (sd_fields isakmp_ikefrag_desc) (ikefrag_members 0 i flags) fs0 ++ data) as Hbs
    by (rewrite Hlen, Hw; done).
  destruct (in_whole_struct (ikefrag_members 0 i flags) isakmp_ikefrag_desc bs data eq_refl Hv) as (ps1&q&Hin&Hq&Hroom&Hload);
    [apply ikefrag_representable; lia|lia|exact Hbs|].
  unfold process_v1_fragment. rewrite Hpol. cbn [negb]. fold (message bs 0). rewrite Hin, Hlen, Hh.
  rewrite (get_pbs_at _ _ _ Hq), bind_Ok. unfold ikefrag_members. rewrite Hroom, Hlen, Z.eqb_refl. cbn [negb].
  rewrite bool_decide_true by done. cbn [negb orb]. case_match; [done|]. rewrite Hload. run_ok.
  assert (negb (Z.land flags 1 =? 0) = last) as -> by (unfold flags; by destruct last). done.
Qed.
End receive1.

(** * Collecting *)

Section collect1.
Context (n : Z) (piece : Z -> list Z).

Definition frag1 (i : Z) : ike_frag := mk_frag1 i (i =? n) (piece i).

(** Insertion keeps the list sorted; a fragment that is there already is replaced by itself. *)
Lemma insert_frag1_sorted (D : gset Z) k l :
  StronglySorted Z.lt l -> k ∈ l ->
  insert_frag1 (frag1 k) (frag1 <$> filter (.∈ D) l) = frag1 <$> filter (.∈ {[k]} ∪ D) l.
Proof.
  intros Hs Hk. induction Hs as [|x l Hs IH Hx]; [by apply not_elem_of_nil in Hk|].
  apply elem_of_cons in Hk as [<-|Hk].
  - rewrite (filter_cons_True (.∈ {[k]} ∪ D)), fmap_cons by set_solver.
    assert (filter (.∈ D) l = filter (.∈ {[k]} ∪ D) l) as <-.
    { apply filter_same. intros y Hy. assert (k < y) by (by eapply Forall_forall in Hy). split; [set_solver|].
      intros [?%elem_of_singleton|?]%elem_of_union; [lia|done]. }
    destruct (decide (k ∈ D)).
    + rewrite filter_cons_True, fmap_cons by done. cbn [insert_frag1 frag1 frag_index]. by rewrite Z.ltb_irrefl, Z.eqb_refl.
    + rewrite filter_cons_False by done. destruct (filter (.∈ D) l) as [|y l'] eqn:Hf; [done|].
      assert (y ∈ filter (.∈ D) l) as [_ Hy]%list_elem_of_filter by (rewrite Hf; left).
      assert (k < y) by (by eapply Forall_forall in Hy). rewrite !fmap_cons. cbn [insert_frag1 frag1 frag_index].
      by rewrite (proj2 (Z.ltb_lt _ _)).
  - assert (x < k) by (by eapply Forall_forall in Hk). destruct (decide (x ∈ D)).
    + rewrite !filter_cons_True, !fmap_cons by set_solver. cbn [insert_frag1 frag1 frag_index].
      rewrite (proj2 (Z.ltb_ge _ _)), (proj2 (Z.eqb_neq _ _)) by lia. by rewrite IH.
    + rewrite !filter_cons_False; [by apply IH|set_solver by lia|done].
Qed.

Lemma last_frag_index_of l : last_frag_index (frag1 <$> l) = if decide (n ∈ l) then n else 0.
Proof.
  unfold last_frag_index. generalize 0. induction l as [|x l IH]; intros a; [done|]. cbn [fmap list_fmap fold_left frag1 frag_last frag_index].
  rewrite IH. destruct (Z.eqb_spec x n) as [->|Hx]; [repeat case_decide; set_solver|].
  apply decide_ext. set_solver.
Qed.

Lemma complete1_of (D : gset Z) len m :
  n = m + Z.of_nat (S len) ->
  complete1 n m (frag1 <$> filter (.∈ D) (seqZ (m + 1) (Z.of_nat (S len)))) =
  bool_decide (Forall (.∈ D) (seqZ (m + 1) (Z.of_nat (S len)))).
Proof.
  revert m; induction len as [|len IH]; intros m Hn.
  - rewrite seqZ_cons by lia. change (seqZ _ (Z.pred _)) with (@nil Z). destruct (decide (m + 1 ∈ D)) as [HD|HD].
    + rewrite filter_cons_True, bool_decide_true by (done || by repeat constructor). cbn [fmap list_fmap complete1 frag1 frag_index].
      rewrite Z.eqb_refl, (proj2 (Z.eqb_eq _ _)) by lia. done.
    + rewrite filter_cons_False, bool_decide_false by (done || by intros [? _]%Forall_cons). done.
  - rewrite seqZ_cons by lia. replace (Z.pred (Z.of_nat (S (S len)))) with (Z.of_nat (S len)) by lia.
    replace (Z.succ (m + 1)) with (m + 1 + 1) by lia. destruct (decide (m + 1 ∈ D)) as [HD|HD].
    + rewrite filter_cons_True, fmap_cons by done. cbn [complete1 frag1 frag_index].
      rewrite Z.eqb_refl, (proj2 (Z.eqb_neq _ _)) by lia. cbn [negb]. rewrite IH by lia. apply bool_decide_ext. rewrite Forall_cons. tauto.
    + rewrite filter_cons_False, bool_decide_false by (done || by intros [? _]%Forall_cons).
      destruct (filter (.∈ D) (seqZ _ _)) as [|y l] eqn:Hf; [done|].
      assert (y ∈ filter (.∈ D) (seqZ (m + 1 + 1) (Z.of_nat (S len)))) as [_ Hy%elem_of_seqZ]%list_elem_of_filter by (rewrite Hf; left).
      rewrite fmap_cons. cbn [complete1 frag1 frag_index]. by rewrite (proj2 (Z.eqb_neq _ _)) by lia.
Qed.

Lemma whole1_of l : Forall (fun i => i <= n) l -> whole1 n (frag1 <$> l) = concat (piece <$> l).
Proof.
  induction 1 as [|i l Hi _ IH]; [done|]. rewrite !fmap_cons. cbn [whole1 concat frag1 frag_index frag_data].
  by rewrite (proj2 (Z.leb_le _ _)), IH.
Qed.
End collect1.

(** * From end to end *)

(** The packets arrive one after the other, until a message is complete. [process_packet] takes the
    header off each of them. *)
Fixpoint deliver1 (process_packet : list Z -> frag_state -> frag_state) (packets : list (list Z)) (st : frag_state)
  : outcome unit (frag_state * option (list Z)) :=
  match packets with
  | [] => Ok (st, None)
  | p :: packets' =>
      '(ev, st1) ← process_v1_fragment process_packet (drop 28 p) st;
      match ev with
      | reassembled packet => Ok (st1, Some packet)
      | _ => deliver1 process_packet packets' st1
      end
  end.

Section transfer1.
Context (process_packet : list Z -> frag_state -> frag_state).
Context (Hprocess : forall p st, st_ikev2 st = false -> st_ikev2 (process_packet p st) = false).
Context (A : frag_state) (HA : 28 <= Z.of_nat (length (st_tpacket A)) < 2 ^ 31).

Local Abbreviation ps := (v1_pieces A).
Local Abbreviation n := (Z.of_nat (length ps)).

Definition v1_piece (i : Z) : list Z := nth (Z.to_nat (i - 1)) ps [].
Definition v1_sent (i : Z) : list Z := v1_fragment (st_tpacket A) i (i =? n) (v1_piece i).

Lemma v1_nonempty : st_tpacket A <> [].
Proof. intros H. rewrite H in HA. cbn in HA. lia. Qed.

Lemma v1_piece_bounds i : 1 <= i <= n -> Z.of_nat (length (v1_piece i)) <= 1200.
Proof.
  intros Hi. pose proof (max_data_len_bounds A) as Hm.
  pose proof (cut_pieces (length (st_tpacket A)) (Z.to_nat (max_data_len A)) (st_tpacket A) ltac:(lia) v1_nonempty) as Hall.
  fold (v1_pieces A) in Hall. rewrite (Forall_nth _ []) in Hall. specialize (Hall (Z.to_nat (i - 1)) ltac:(lia)). unfold v1_piece. lia.
Qed.

Lemma v1_pieces_seqZ : v1_piece <$> seqZ 1 n = ps.
Proof.
  apply list_eq. intros j. rewrite list_lookup_fmap. destruct (decide (j < length ps)%nat) as [Hj|Hj].
  - rewrite lookup_seqZ_lt by lia. cbn [fmap option_fmap option_map].
    unfold v1_piece. replace (Z.to_nat (1 + Z.of_nat j - 1)) with j by lia.
    destruct (lookup_lt_is_Some_2 ps j Hj) as [p Hp]. rewrite Hp. f_equal. by apply nth_lookup_Some.
  - rewrite lookup_seqZ_ge, (lookup_ge_None_2 ps) by lia. done.
Qed.

Lemma v1_pieces_concat : concat ps = st_tpacket A.
Proof. pose proof (max_data_len_bounds A). apply cut_concat; [lia|nia]. Qed.

Lemma v1_pieces_pos : 0 < n.
Proof.
  pose proof v1_nonempty as Hne. unfold v1_pieces. destruct (st_tpacket A); [done|]. cbn [length cut]. lia.
Qed.

Lemma v1_sent_nth j :
  (j < length ps)%nat -> nth j (v1_fragments (st_tpacket A) 1 ps) [] = v1_sent (1 + Z.of_nat j).
Proof.
  intros Hj. destruct (lookup_lt_is_Some_2 ps j Hj) as [p Hp]. apply nth_lookup_Some. rewrite (v1_fragments_lookup _ _ _ _ _ Hp).
  unfold v1_sent, v1_piece. replace (Z.to_nat (1 + Z.of_nat j - 1)) with j by lia. rewrite (nth_lookup_Some _ _ _ _ Hp).
  do 2 f_equal. apply Bool.eq_iff_eq_true. rewrite bool_decide_eq_true, Z.eqb_eq. lia.
Qed.

Lemma v1_picked ds :
  Forall (fun i => (i < length ps)%nat) ds ->
  (fun i => nth i (v1_fragments (st_tpacket A) 1 ps) []) <$> ds = v1_sent <$> ((fun i => 1 + Z.of_nat i) <$> ds).
Proof.
  intros Hds. rewrite <- list_fmap_compose. apply list_fmap_ext. intros j i Hj.
  apply v1_sent_nth. exact (Forall_lookup_1 _ _ _ _ Hds Hj).
Qed.

Lemma store_sent {E} (D : gset Z) i B :
  1 <= i <= n -> st_ikev2 B = false -> ike_frags B = frag1 n v1_piece <$> filter (.∈ D) (seqZ 1 n) ->
  let B1 := set_ike_frags (frag1 n v1_piece <$> filter (.∈ {[i]} ∪ D) (seqZ 1 n)) B in
  exists B', @store_fragment process_packet E (frag1 n v1_piece i) B =
    if decide (Forall (.∈ {[i]} ∪ D) (seqZ 1 n)) then Ok (reassembled (st_tpacket A), B') else Ok (stored, B1).
Proof.
  intros Hi H1 Hfr. cbv zeta. unfold store_fragment. rewrite Hfr, insert_frag1_sorted, last_frag_index_of;
    [|apply seqZ_sorted|apply elem_of_seqZ; lia].
  set (D' := {[i]} ∪ D). destruct (decide (n ∈ filter (.∈ D') (seqZ 1 n))) as [Hlast|Hlast].
  - rewrite (proj2 (Z.eqb_neq _ _)) by (pose proof v1_pieces_pos; lia). cbn [negb andb].
    destruct (length ps) as [|len] eqn:Hlen; [pose proof v1_pieces_pos; lia|].
    pose proof (complete1_of (Z.of_nat (S len)) v1_piece D' len 0 ltac:(lia)) as Hc. change (0 + 1) with 1 in Hc. rewrite Hc.
    destruct (decide (Forall (.∈ D') (seqZ 1 (Z.of_nat (S len))))) as [Hall|Hall].
    + rewrite bool_decide_true by done. unfold release_fragments, release_v1fragments. rewrite Hprocess by done. cbn [negb passert].
      rewrite !bind_Ok. eexists. do 3 f_equal. rewrite whole1_of, <- Hlen.
      * assert (filter (.∈ D') (seqZ 1 n) = seqZ 1 n) as ->; [|by rewrite v1_pieces_seqZ, v1_pieces_concat].
        rewrite Hlen. clear -Hall. induction Hall as [|x l Hx _ IH]; [done|]. by rewrite filter_cons_True, IH.
      * apply Forall_forall. intros x [_ Hx%elem_of_seqZ]%list_elem_of_filter. lia.
    + exists B. by rewrite bool_decide_false.
  - exists B. rewrite decide_False; [done|]. rewrite Forall_forall. intros Hall. apply Hlast, list_elem_of_filter.
    pose proof v1_pieces_pos. split; [apply Hall|]; apply elem_of_seqZ; lia.
Qed.

Lemma deliver1_sent ds (D : gset Z) B :
  n <= 16 -> Forall (fun i => 1 <= i <= n) ds -> st_ikev2 B = false -> has_policy POLICY_IKE_FRAG_ALLOW B = true ->
  ike_frags B = frag1 n v1_piece <$> filter (.∈ D) (seqZ 1 n) -> ~ Forall (.∈ D) (seqZ 1 n) ->
  exists B', deliver1 process_packet (v1_sent <$> ds) B =
    Ok (B', if decide (Forall (.∈ (list_to_set ds : gset Z) ∪ D) (seqZ 1 n)) then Some (st_tpacket A) else None).
Proof.
  intros Hn. revert D B; induction ds as [|i ds IH]; intros D B Hds H1 Hpol Hfr HD.
  - exists B. cbn [fmap list_fmap deliver1 list_to_set]. by rewrite decide_False by (by rewrite union_empty_l_L).
  - apply Forall_cons in Hds as [Hi Hds]. rewrite fmap_cons. cbn [deliver1 list_to_set].
    assert (v1_sent i = v1_fragment (st_tpacket A) i (i =? n) (v1_piece i)) as -> by done.
    rewrite receive_v1_fragment; [|lia|split; lia|by apply v1_piece_bounds|done].
    rewrite (proj2 (Z.eqb_neq _ _)), (proj2 (Z.ltb_ge _ _)) by lia. cbn [orb].
    destruct (store_sent (E := unit) D i B Hi H1 Hfr) as [B' HB']. unfold frag1 at 1 in HB'. rewrite HB'.
    replace ({[i]} ∪ list_to_set ds ∪ D) with (list_to_set ds ∪ ({[i]} ∪ D)) by set_solver.
    destruct (decide (Forall (.∈ {[i]} ∪ D) (seqZ 1 n))) as [Hall|Hall]; rewrite bind_Ok.
    + exists B'. rewrite decide_True; [done|]. eapply Forall_impl; [exact Hall|]. intros x Hx. cbn in *. set_solver.
    + by apply IH.
Qed.

(** Too many fragments: those beyond the sixteenth are refused, the last one among them. *)
Lemma deliver1_lost ds B :
  16 < n <= 255 -> Forall (fun i => 1 <= i <= n) ds -> has_policy POLICY_IKE_FRAG_ALLOW B = true ->
  Forall (fun f => frag_last f = false) (ike_frags B) ->
  exists B', deliver1 process_packet (v1_sent <$> ds) B = Ok (B', None).
Proof.
  intros Hn. revert B; induction ds as [|i ds IH]; intros B Hds Hpol Hfr; [by eexists|].
  apply Forall_cons in Hds as [Hi Hds]. rewrite fmap_cons. cbn [deliver1].
  assert (v1_sent i = v1_fragment (st_tpacket A) i (i =? n) (v1_piece i)) as -> by done.
  rewrite receive_v1_fragment; [|lia|split; lia|by apply v1_piece_bounds|done].
  rewrite (proj2 (Z.eqb_neq i 0)) by lia. cbn [orb]. destruct (Z.ltb_spec 16 i); [rewrite bind_Ok; by apply IH|].
  rewrite (proj2 (Z.eqb_neq i n)) by lia. unfold store_fragment. set (l := insert_frag1 _ _).
  assert (Forall (fun f => frag_last f = false) l) as Hl.
  { unfold l. clear -Hfr. induction Hfr as [|f fs Hf Hfs IH]; cbn [insert_frag1]; [by repeat constructor|].
    repeat case_match; repeat (constructor; try done). }
  assert (last_frag_index l = 0) as ->.
  { unfold last_frag_index. clear -Hl. induction Hl as [|f fs Hf _ IH]; [done|]. cbn [fold_left]. by rewrite Hf. }
  cbn [negb andb Z.eqb]. rewrite bind_Ok. by apply IH.
Qed.
End transfer1.

(** C26: IKEv1 fragments arrive, too: the packets that [send_frags] hands over, for a message that
    takes at most 16 of them, make the receiver process exactly that message as soon as all of
    them have come, in whatever order and with whatever repetitions, and nothing before. *)
Theorem v1_fragments_roundtrip process_packet A B ds :
  28 <= Z.of_nat (length (st_tpacket A)) < 2 ^ 31 -> (length (v1_pieces A) <= 16)%nat ->
  st_ikev2 B = false -> has_policy POLICY_IKE_FRAG_ALLOW B = true -> ike_frags B = [] ->
  (forall p st, st_ikev2 st = false -> st_ikev2 (process_packet p st) = false) ->
  exists packets, @send_frags unit (fun _ => true) A = Ok (true, packets) /\
    (Forall (fun i => (i < length packets)%nat) ds ->
     exists B', deliver1 process_packet ((fun i => nth i packets []) <$> ds) B =
       Ok (B', if decide (all_arrived ds packets) then Some (st_tpacket A) else None)).
Proof.
  intros HA Hmax H1 Hpol Hfr Hproc. rewrite send_frags_ok by done. eexists. split; [done|]. intros Hds.
  rewrite v1_fragments_length in Hds. pose proof (v1_pieces_pos A HA) as Hpos.
  destruct (deliver1_sent process_packet Hproc A HA ((fun i => 1 + Z.of_nat i) <$> ds) ∅ B) as [B' HB']; try done; [lia|..].
  - apply Forall_fmap. eapply Forall_impl; [exact Hds|]. intros i Hi. cbn in *. lia.
  - by rewrite Hfr, filter_none by set_solver.
  - rewrite seqZ_cons by lia. intros [? _]%Forall_cons. set_solver.
  - exists B'. rewrite v1_picked, HB' by done. do 3 f_equal. apply decide_ext, all_arrived_numbers, v1_fragments_length.
Qed.

Definition example_v1 (packet : list Z) : frag_state :=
  mk_fst (example_sk sum_sha2_256 ORIGINAL_INITIATOR) false POLICY_IKE_FRAG_ALLOW true (Some false) true false [] [] [] packet.

Lemma v1_fragments_roundtrip_witness :
  exists packets, @send_frags unit (fun _ => true) (example_v1 (octets 1200)) = Ok (true, packets) /\
    (Forall (fun i => (i < length packets)%nat) [1; 2; 1; 0]%nat ->
     exists B', deliver1 (fun _ st => st) ((fun i => nth i packets []) <$> [1; 2; 1; 0]%nat) (example_v1 []) =
       Ok (B', if decide (all_arrived [1; 2; 1; 0]%nat packets) then Some (octets 1200) else None)).
Proof.
  apply (v1_fragments_roundtrip (fun _ st => st) (example_v1 (octets 1200)) (example_v1 []) [1; 2; 1; 0]%nat).
  - by_decide.
  - by_decide.
  - done.
  - done.
  - done.
  - by intros.
Defined.

(** A larger IKEv1 message is cut into more than 16 fragments and sent without complaint, but
    the other end refuses every fragment beyond the sixteenth and never joins the message. *)
Theorem v1_large_message_lost process_packet A B ds :
  28 <= Z.of_nat (length (st_tpacket A)) < 2 ^ 31 -> (16 < length (v1_pieces A) <= 255)%nat ->
  has_policy POLICY_IKE_FRAG_ALLOW B = true -> ike_frags B = [] ->
  exists packets, @send_frags unit (fun _ => true) A = Ok (true, packets) /\
    (Forall (fun i => (i < length packets)%nat) ds ->
     exists B', deliver1 process_packet ((fun i => nth i packets []) <$> ds) B = Ok (B', None)).
Proof.
  intros HA Hn Hpol Hfr. rewrite send_frags_ok by done. eexists. split; [done|]. intros Hds.
  rewrite v1_fragments_length in Hds.
  destruct (deliver1_lost process_packet A HA ((fun i => 1 + Z.of_nat i) <$> ds) B) as [B' HB']; try done; [lia|..].
  - apply Forall_fmap. eapply Forall_impl; [exact Hds|]. intros i Hi. cbn in *. lia.
  - rewrite Hfr. constructor.
  - exists B'. by rewrite v1_picked.
Qed.

Lemma length_octets k : length (octets k) = k.
Proof. unfold octets. by rewrite length_fmap, length_seq. Qed.

Lemma v1_pieces_count st :
  let k := Z.of_nat (length (st_tpacket st)) in
  0 < k -> Z.of_nat (length (v1_pieces st)) = (k + max_data_len st - 1) / max_data_len st.
Proof.
  intros k Hk. pose proof (max_data_len_bounds st) as Hm. unfold v1_pieces.
  rewrite cut_length, Z2Nat.id; [done|lia|lia|by intros H; unfold k in Hk; rewrite H in Hk|nia].
Qed.

Lemma v1_large_message_lost_witness :
  exists packets, @send_frags unit (fun _ => true) (example_v1 (octets (Z.to_nat 8000))) = Ok (true, packets) /\
    (Forall (fun i => (i < length packets)%nat) (seq 0 17) ->
     exists B', deliver1 (fun _ st => st) ((fun i => nth i packets []) <$> seq 0 17) (example_v1 []) = Ok (B', None)).
Proof.
  apply (v1_large_message_lost (fun _ st => st) (example_v1 (octets (Z.to_nat 8000))) (example_v1 []) (seq 0 17)).
  - cbn [st_tpacket example_v1]. rewrite length_octets. lia.
  - pose proof (v1_pieces_count (example_v1 (octets (Z.to_nat 8000)))) as Hn. cbn [st_tpacket example_v1] in Hn.
    rewrite length_octets in Hn. change (max_data_len _) with 496 in Hn. rewrite Z2Nat.id in Hn by lia.
    change ((8000 + 496 - 1) / 496) with 17 in Hn. specialize (Hn ltac:(lia)). lia.
  - done.
  - done.
Defined.
