(* ===== verification/Ikev2Payloads.v ===== *)
(** The payloads of an IKEv2 message: how programs/pluto/ikev2.c splits a message into payloads
    ([ikev2_decode_payloads]) and compares the payloads it found with those that a state
    transition expects ([ikev2_verify_payloads]).

    A set of payload types is an [lset_t], here a [Z] whose bit [PINDEX np] stands for the
    payload type [np]. *)
From S2P Require Import Prelude EnumNames Constants Packet PacketDescs PacketGeneric Stf Ikev2Sk Fragments.

Definition PAYLIMIT : Z := 30.
Definition LELEM_ROOF : Z := 64.
Definition LELEM (opt : Z) : Z := Z.shiftl 1 opt.

Definition ISAKMP_NEXT_v2SA : Z := 33.
Definition ISAKMP_NEXT_v2KE : Z := 34.
Definition ISAKMP_NEXT_v2IDi : Z := 35.
Definition ISAKMP_NEXT_v2IDr : Z := 36.
Definition ISAKMP_NEXT_v2CERT : Z := 37.
Definition ISAKMP_NEXT_v2CERTREQ : Z := 38.
Definition ISAKMP_NEXT_v2AUTH : Z := 39.
Definition ISAKMP_NEXT_v2Ni : Z := 40.
Definition ISAKMP_NEXT_v2Nr : Z := 40.
Definition ISAKMP_NEXT_v2N : Z := 41.
Definition ISAKMP_NEXT_v2D : Z := 42.
Definition ISAKMP_NEXT_v2V : Z := 43.
Definition ISAKMP_NEXT_v2SK : Z := 46.
Definition ISAKMP_NEXT_v2CP : Z := 47.

Definition ISAKMP_PAYLOAD_CRITICAL : Z := 0x80.
Definition v2N_UNSUPPORTED_CRITICAL_PAYLOAD : Z := 1.
Definition v2N_INVALID_IKE_SPI : Z := 4.
Definition v2N_INVALID_SYNTAX : Z := 7.

Definition PINDEX (n : Z) : Z := n - ISAKMP_v2PAYLOAD_TYPE_BASE.
Definition P (n : Z) : Z := LELEM (PINDEX n).
(** [P(a) | P(b) | ...] *)
Definition payload_set (l : list Z) : Z := fold_right (fun n s => Z.lor (P n) s) 0 l.

Definition everywhere_payloads : Z := payload_set [ISAKMP_NEXT_v2N; ISAKMP_NEXT_v2V].
Definition repeatable_payloads : Z :=
  payload_set [ISAKMP_NEXT_v2N; ISAKMP_NEXT_v2D; ISAKMP_NEXT_v2CP; ISAKMP_NEXT_v2V; ISAKMP_NEXT_v2CERT;
               ISAKMP_NEXT_v2CERTREQ].

(** [struct ikev2_payloads_summary] *)
Record payloads_summary := mk_summary { sum_status : stf_status; sum_seen : Z; sum_repeated : Z }.

(** [struct ikev2_expected_payloads] *)
Record expected_payloads := mk_expected { required : Z; optional : Z }.

(** [struct ikev2_payload_errors] *)
Record payload_errors := mk_errors {
  err_status : stf_status;
  bad_repeat : Z;
  missing : Z;
  unexpected : Z
}.

(** [struct payload_digest]: the type of the payload, the members of its header and the number of
    its stream. *)
Record payload_digest := mk_pd { pd_np : Z; pd_payload : list fval; pd_pbs : nat }.

(** [md->chain[np]], in the order of the message. *)
Definition chain (digest : list payload_digest) (np : Z) : list payload_digest :=
  filter (fun pd => pd_np pd = np) digest.

(** The streams of a [struct msg_digest] have numbers: [packet_pbs] 0, [message_pbs] 1, [clr_pbs] 2
    and the one of [digest[i]] 3 + i. *)
Definition digest_pbs (i : nat) : nat := (3 + i)%nat.

(** [pd->payload.generic.isag_np], the first member of every payload. *)
Definition generic_np (vs : list fval) : option Z :=
  match vs with FNum np :: _ => Some np | _ => None end.

(** The loop of [ikev2_decode_payloads]. [digest] holds the payloads that are on a chain, so its
    length is the index of [pd]. A round takes at least the four octets of a payload header. *)
Fixpoint decode_loop {E} (fuel : nat) (in_pbs : nat) (np seen repeated : Z) (digest : list payload_digest)
    (ps : pstate) : outcome E (payloads_summary * list payload_digest * pstate) :=
  match fuel with
  | O => Abort
  | S fuel' =>
      let malformed := Ok (mk_summary (STF_NOTIFY v2N_INVALID_SYNTAX) seen repeated, digest, ps) in
      if np =? ISAKMP_NEXT_v2NONE then Ok (mk_summary STF_OK seen repeated, digest, ps)
      else if Z.of_nat (length digest) =? PAYLIMIT then malformed
      else
        let pbs := digest_pbs (length digest) in
        match v2_payload_desc np with
        | None =>
            match in_struct ikev2_generic_desc in_pbs (Some pbs) ps with
            | Abort => Abort
            | Ugh _ => malformed
            | Ok (FNum next :: FNum critical :: _, ps1) =>
                if negb (Z.land critical ISAKMP_PAYLOAD_CRITICAL =? 0)
                then Ok (mk_summary (STF_NOTIFY v2N_UNSUPPORTED_CRITICAL_PAYLOAD) seen repeated, digest, ps1)
                else decode_loop fuel' in_pbs next seen repeated digest ps1
            | Ok _ => Abort
            end
        | Some sd =>
            passert (PINDEX np <? LELEM_ROOF) ;;
            let repeated := Z.lor repeated (Z.land seen (P np)) in
            let seen := Z.lor seen (P np) in
            match in_struct sd in_pbs (Some pbs) ps with
            | Abort => Abort
            | Ugh _ => Ok (mk_summary (STF_NOTIFY v2N_INVALID_SYNTAX) seen repeated, digest, ps)
            | Ok (vs, ps1) =>
                next ← defined (generic_np vs);
                let next := if (np =? ISAKMP_NEXT_v2SK) || (np =? ISAKMP_NEXT_v2SKF) then ISAKMP_NEXT_v2NONE
                            else next in
                decode_loop fuel' in_pbs next seen repeated (digest ++ [mk_pd np vs pbs]) ps1
            end
        end
  end.

Definition ikev2_decode_payloads {E} (in_pbs : nat) (np : Z) (digest : list payload_digest) (ps : pstate)
  : outcome E (payloads_summary * list payload_digest * pstate) :=
  p ← get_pbs ps in_pbs;
  decode_loop (S (Z.to_nat (pbs_left p))) in_pbs np 0 0 digest ps.

(** [a & ~b] *)
Definition without (a b : Z) : Z := Z.land a (Z.lnot b).

(** A fragment that stands alone counts as an encrypted payload. *)
Definition skf_as_sk (seen : Z) : Z :=
  if Z.land seen (Z.lor (P ISAKMP_NEXT_v2SKF) (P ISAKMP_NEXT_v2SK)) =? P ISAKMP_NEXT_v2SKF
  then Z.lor (without seen (P ISAKMP_NEXT_v2SKF)) (P ISAKMP_NEXT_v2SK) else seen.

Definition ikev2_verify_payloads (summary : payloads_summary) (payloads : expected_payloads) : payload_errors :=
  let seen := skf_as_sk (sum_seen summary) in
  let req_payloads := required payloads in
  let opt_payloads := optional payloads in
  let bad_repeat := without (sum_repeated summary) repeatable_payloads in
  let missing := without req_payloads seen in
  let unexpected := without (without (without seen req_payloads) opt_payloads) everywhere_payloads in
  mk_errors (if Z.lor (Z.lor bad_repeat missing) unexpected =? 0 then STF_OK else STF_NOTIFY v2N_INVALID_SYNTAX)
    bad_repeat missing unexpected.
