(* ===== verification/PayloadTheorems.v ===== *)
(** What splitting a message into payloads and checking them promises: any octets are read safely
    and completely, the sets of payload types are exact, and a message passes the check exactly if
    its payloads are the expected ones. *)
From S2P Require Import Prelude EnumNames Constants Packet PacketSpec PacketObject PacketNest PacketDescs PacketGeneric.
From S2P Require Import PacketTheorems Stf Ikev2Sk Fragments Ikev2Payloads.

(** * Descriptors of payloads *)

Definition payload_desc_ok (sd : struct_desc) : bool :=
  wf_desc sd && (4 <=? sd_size sd) &&
  match removelast (sd_fields sd) with fp :: _ => match fd_type fp with ft_enum => fd_size fp =? 1 | _ => false end | [] => false end.

Lemma v2_payload_descs_ok : forallb (fun o => match o with Some sd => payload_desc_ok sd | None => true end) v2_payload_descs = true.
Proof. vm_compute. reflexivity. Qed.

Lemma v2_payload_desc_ok np sd : v2_payload_desc np = Some sd -> 0 <= PINDEX np < 21 /\ payload_desc_ok sd = true.
Proof.
  unfold v2_payload_desc, PINDEX. destruct (Z.ltb_spec np ISAKMP_v2PAYLOAD_TYPE_BASE); [done|].
  destruct (Z.leb_spec (Z.of_nat (length v2_payload_descs)) (np - ISAKMP_v2PAYLOAD_TYPE_BASE)) as [|Hl]; [done|].
  intros Hd. split; [cbn in Hl; lia|]. destruct (v2_payload_descs !! _) as [o|] eqn:Ho; cbn in Hd; [|done]. subst o.
  pose proof v2_payload_descs_ok as Hall. rewrite forallb_forall in Hall. apply (Hall (Some sd)).
  apply list_elem_of_In. by eapply list_elem_of_lookup_2.
Qed.

Lemma payload_desc_inv sd : payload_desc_ok sd = true ->
  wf_desc sd = true /\ 4 <= sd_size sd /\ exists fp fps, removelast (sd_fields sd) = fp :: fps /\ fd_type fp = ft_enum.
Proof.
  unfold payload_desc_ok. rewrite !andb_true_iff, Z.leb_le. intros [[Hw Hs] Hf]. split; [done|]. split; [done|].
  destruct (removelast _) as [|fp fps]; [done|]. exists fp, fps. split; [done|]. by destruct (fd_type fp).
Qed.

Lemma payload_members sd ins obj st vs st' :
  mem_ok (ps_mem st) -> payload_desc_ok sd = true -> in_struct sd ins obj st = Ok (vs, st') -> exists np, generic_np vs = Some np.
Proof.
  intros Hm (Hw&_&fp&fps&Hf&Ht)%payload_desc_inv H. apply in_struct_members in H; [|done|done]. rewrite Hf in H.
  inversion H as [|? v ? vs' Hv Hvs]; subst. unfold member_ok in Hv. rewrite Ht in Hv. destruct Hv as (n&->&_). by exists n.
Qed.

Lemma generic_members ins obj st vs st' :
  mem_ok (ps_mem st) -> in_struct ikev2_generic_desc ins obj st = Ok (vs, st') ->
  exists np critical rest, vs = FNum np :: FNum critical :: rest.
Proof.
  intros Hm H. apply in_struct_members in H; [|done|done].
  inversion H as [|? v ? vs' Hv Hvs]; subst. inversion Hvs as [|? v2 ? vs2 Hv2 _]; subst.
  destruct Hv as (n&->&_), Hv2 as (c&->&_). by exists n, c, vs2.
Qed.

(** * Sets of payload types *)

(** What one payload does to the sets [seen] and [repeated]. *)
Definition note_payload (s : Z * Z) (np : Z) : Z * Z := (Z.lor s.1 (P np), Z.lor s.2 (Z.land s.1 (P np))).

Definition occurrences (np : Z) (l : list Z) : nat := length (filter (fun n => n = np) l).

Lemma P_testbit n i : 0 <= PINDEX n -> 0 <= i -> Z.testbit (P n) i = bool_decide (PINDEX n = i).
Proof.
  intros Hn Hi. unfold P, LELEM. rewrite Z.shiftl_spec by done. case_bool_decide as Hd.
  - by rewrite Hd, Z.sub_diag.
  - destruct (Z.lt_ge_cases (i - PINDEX n) 0); [by apply Z.testbit_neg_r|].
    replace 1 with (2 ^ 0) by done. by rewrite Z.pow2_bits_eqb, (proj2 (Z.eqb_neq _ _)) by lia.
Qed.

Lemma P_testbit_payload n np : 0 <= PINDEX n -> 0 <= PINDEX np -> Z.testbit (P n) (PINDEX np) = bool_decide (n = np).
Proof. intros Hn Hp. rewrite P_testbit by done. apply bool_decide_ext. unfold PINDEX. lia. Qed.

Lemma note_payloads_bits l seen repeated np :
  Forall (fun n => 0 <= PINDEX n) l -> 0 <= PINDEX np ->
  let s := fold_left note_payload l (seen, repeated) in
  let before := if Z.testbit seen (PINDEX np) then 1%nat else 0%nat in
  Z.testbit s.1 (PINDEX np) = (0 <? before + occurrences np l)%nat /\
  Z.testbit s.2 (PINDEX np) = Z.testbit repeated (PINDEX np) || (1 <? before + occurrences np l)%nat.
Proof.
  intros Hl Hp. revert seen repeated. induction Hl as [|n l Hn Hl IH]; intros seen repeated; cbn [fold_left].
  - cbn. destruct (Z.testbit seen _); cbn; by rewrite orb_false_r.
  - destruct (IH (note_payload (seen, repeated) n).1 (note_payload (seen, repeated) n).2) as [IH1 IH2].
    rewrite <- surjective_pairing in IH1, IH2. cbv zeta. rewrite IH1, IH2. cbn [note_payload fst snd].
    rewrite !Z.lor_spec, Z.land_spec, P_testbit_payload by done. unfold occurrences. rewrite filter_cons.
    destruct (Z.testbit seen _), (Z.testbit repeated _); repeat case_decide; repeat case_bool_decide; try done; cbn;
      rewrite ?orb_false_r; try done; split; repeat case_match; lia || done.
Qed.

(** * Splitting *)

(** A payload on a chain: its stream lies between [lo] and [hi]. *)
Definition payload_in (ps : pstate) (lo hi : Z) (pd : payload_digest) : Prop :=
  exists q, ps_pbs ps !! pd_pbs pd = Some q /\ wf_pbs (ps_mem ps) q /\ lo <= start q /\ roof q <= hi.

(** The members of a payload on a chain are those of the descriptor for its type. *)
Definition pd_shape (pd : payload_digest) : Prop :=
  exists sd, v2_payload_desc (pd_np pd) = Some sd /\ Forall2 member_ok (removelast (sd_fields sd)) (pd_payload pd).

(** What the loop does from stream [p] on: [d] are the payloads that it puts on the chains and
    [extra] is the one, if any, whose header it could not read. *)
Record decoded (in_pbs : nat) (p : pb_stream) (n : nat) (acc : Z * Z) (ps ps' : pstate) (s : payloads_summary)
    (d : list payload_digest) (extra : list Z) : Prop := {
  decoded_mem : ps_mem ps' = ps_mem ps;
  decoded_cur : exists c, cur p <= c <= roof p /\ ps_pbs ps' !! in_pbs = Some (set_cur c p);
  decoded_older : forall j, j <> in_pbs -> (j < digest_pbs n)%nat -> ps_pbs ps' !! j = ps_pbs ps !! j;
  decoded_streams : Forall (payload_in ps' (cur p) (roof p)) d;
  decoded_numbers : pd_pbs <$> d = digest_pbs <$> seq n (length d);
  decoded_sets : (sum_seen s, sum_repeated s) = fold_left note_payload ((pd_np <$> d) ++ extra) acc;
  decoded_types : Forall (fun np => 0 <= PINDEX np < 21) ((pd_np <$> d) ++ extra);
  decoded_limit : Z.of_nat (n + length d) <= PAYLIMIT;
  decoded_shapes : Forall pd_shape d;
  decoded_extra : sum_status s = STF_OK -> extra = []
}.

Lemma decoded_nil in_pbs p n seen repeated ps s extra :
  ps_pbs ps !! in_pbs = Some p -> cur p <= roof p -> Z.of_nat n <= PAYLIMIT ->
  (sum_seen s, sum_repeated s) = fold_left note_payload extra (seen, repeated) ->
  Forall (fun np => 0 <= PINDEX np < 21) extra -> (sum_status s = STF_OK -> extra = []) ->
  decoded in_pbs p n (seen, repeated) ps ps s [] extra.
Proof.
  intros Hp Hc Hn Hs Hx He. split; try done.
  - exists (cur p). split; [lia|]. by rewrite set_cur_cur.
  - rewrite Nat.add_0_r. done.
Qed.

Section round.
Context (in_pbs : nat) (Hin : (in_pbs < 3)%nat) (p : pb_stream) (n : nat) (ps : pstate) (sd : struct_desc).
Context (Hp : ps_pbs ps !! in_pbs = Some p) (Hw : wf_pbs (ps_mem ps) p) (Hm : mem_ok (ps_mem ps)).
Context (Hsd : wf_desc sd = true) (Hsize : 4 <= sd_size sd).
Context (vs : list fval) (ps1 : pstate) (Hstruct : in_struct sd in_pbs (Some (digest_pbs n)) ps = Ok (vs, ps1)).

Lemma digest_pbs_ne j : digest_pbs j <> in_pbs.
Proof. unfold digest_pbs. lia. Qed.

(** One header was read: the stream is shorter, and the payload has a stream inside the old one. *)
Lemma round_inv : exists e, cur p + 4 <= e <= roof p /\ ps_mem ps1 = ps_mem ps /\
  ps_pbs ps1 !! in_pbs = Some (set_cur e p) /\ wf_pbs (ps_mem ps1) (set_cur e p) /\
  (forall j, j <> in_pbs -> j <> digest_pbs n -> ps_pbs ps1 !! j = ps_pbs ps !! j) /\
  exists q, ps_pbs ps1 !! digest_pbs n = Some q /\ wf_pbs (ps_mem ps1) q /\ cur p <= start q /\ roof q = e.
Proof.
  pose proof (digest_pbs_ne n) as Hne.
  pose proof (in_struct_inv sd in_pbs (Some (digest_pbs n)) ps p Hsd Hp Hw Hm ltac:(congruence)) as H.
  rewrite Hstruct in H. destruct H as (e&He&Hmem&Hpbs). exists e. rewrite Hpbs, Hmem.
  destruct Hw as (Hw1&Hw2&Hw3).
  split; [lia|]. split; [done|]. split; [by rewrite lookup_insert_eq|].
  split; [split; cbn; [lia|]; split; [lia|done]|].
  split; [intros j Hj1 Hj2; by rewrite !lookup_insert_ne|].
  eexists. rewrite lookup_insert_ne, lookup_insert_eq by done. split; [done|].
  split; [|split; cbn; lia]. split; cbn; [lia|]. split; [lia|]. intros a Ha. apply Hw3. lia.
Qed.

(** An unknown payload is skipped: the next one takes its place. *)
Lemma decoded_skip e acc ps' s d extra :
  cur p + 4 <= e <= roof p -> ps_mem ps1 = ps_mem ps ->
  (forall j, j <> in_pbs -> j <> digest_pbs n -> ps_pbs ps1 !! j = ps_pbs ps !! j) ->
  decoded in_pbs (set_cur e p) n acc ps1 ps' s d extra -> decoded in_pbs p n acc ps ps' s d extra.
Proof.
  intros He Hmem Hold [D1 (c&Hc&D2) D3 D4 D5 D6 D7 D8 DS D9]. split; try done.
  - congruence.
  - exists c. split; [cbn in Hc; lia|]. by rewrite set_cur_set_cur in D2.
  - intros j Hj Hlt. rewrite D3 by done. apply Hold; [done|lia].
  - eapply Forall_impl; [exact D4|]. intros pd (q&Hq&Hwq&Hlo&Hhi). exists q. cbn in *. repeat split; try done; try apply Hwq; lia.
Qed.

(** A known payload goes on its chain. *)
Lemma decoded_step e np seen repeated ps' s d extra :
  cur p + 4 <= e <= roof p -> ps_mem ps1 = ps_mem ps -> 0 <= PINDEX np < 21 -> v2_payload_desc np = Some sd ->
  (forall j, j <> in_pbs -> j <> digest_pbs n -> ps_pbs ps1 !! j = ps_pbs ps !! j) ->
  (exists q, ps_pbs ps1 !! digest_pbs n = Some q /\ wf_pbs (ps_mem ps1) q /\ cur p <= start q /\ roof q = e) ->
  decoded in_pbs (set_cur e p) (S n) (note_payload (seen, repeated) np) ps1 ps' s d extra ->
  decoded in_pbs p n (seen, repeated) ps ps' s (mk_pd np vs (digest_pbs n) :: d) extra.
Proof.
  intros He Hmem Hnp Hdesc Hold (q&Hq&Hwq&Hqs&Hqe) [D1 (c&Hc&D2) D3 D4 D5 D6 D7 D8 DS D9]. split; try done.
  - congruence.
  - exists c. split; [cbn in Hc; lia|]. by rewrite set_cur_set_cur in D2.
  - intros j Hj Hlt. rewrite D3 by (done || unfold digest_pbs in *; lia). apply Hold; [done|lia].
  - constructor.
    + exists q. cbn [pd_pbs]. rewrite D3 by (apply digest_pbs_ne || unfold digest_pbs; lia). rewrite D1. repeat split; try done; try apply Hwq; lia.
    + eapply Forall_impl; [exact D4|]. intros pd (q'&Hq'&Hwq'&Hlo&Hhi). exists q'. cbn in *. repeat split; try done; try apply Hwq'; lia.
  - rewrite !fmap_cons, D5. done.
  - rewrite fmap_cons. constructor; done.
  - cbn [length]. lia.
  - constructor; [|done]. exists sd. split; [done|]. cbn. by eapply in_struct_members.
Qed.
End round.

Lemma decode_loop_decoded {E} fuel in_pbs np seen repeated digest ps p :
  (in_pbs < 3)%nat -> ps_pbs ps !! in_pbs = Some p -> wf_pbs (ps_mem ps) p -> mem_ok (ps_mem ps) ->
  (Z.to_nat (roof p - cur p) < fuel)%nat -> Z.of_nat (length digest) <= PAYLIMIT ->
  exists s d ps' extra, decode_loop (E := E) fuel in_pbs np seen repeated digest ps = Ok (s, digest ++ d, ps') /\
    decoded in_pbs p (length digest) (seen, repeated) ps ps' s d extra.
Proof.
  intros Hin. revert np seen repeated digest ps p. induction fuel as [|fuel IH]; intros np seen repeated digest ps p Hp Hw Hm Hf Hd; [lia|].
  assert (cur p <= roof p) as Hc by (destruct Hw; lia).
  assert (forall s extra, (sum_seen s, sum_repeated s) = fold_left note_payload extra (seen, repeated) ->
    Forall (fun np => 0 <= PINDEX np < 21) extra -> (sum_status s = STF_OK -> extra = []) ->
    exists s0 d ps' extra, Ok (s, digest, ps) = @Ok E _ (s0, digest ++ d, ps') /\
    decoded in_pbs p (length digest) (seen, repeated) ps ps' s0 d extra) as Hstop.
  { intros s extra Hs Hx He. exists s, [], ps, extra. rewrite app_nil_r. split; [done|]. by apply decoded_nil. }
  cbn [decode_loop]. destruct (Z.eqb_spec np ISAKMP_NEXT_v2NONE) as [_|_]; [by apply (Hstop _ [])|].
  destruct (Z.eqb_spec (Z.of_nat (length digest)) PAYLIMIT) as [_|Hlim]; [by apply (Hstop _ [])|].
  destruct (v2_payload_desc np) as [sd|] eqn:Hdesc.
  - destruct (v2_payload_desc_ok _ _ Hdesc) as [Hnp Hsd]. destruct (payload_desc_inv _ Hsd) as (Hwf&Hsize&_).
    rewrite (proj2 (Z.ltb_lt _ _)) by (unfold LELEM_ROOF; lia). run_ok. cbv zeta.
    pose proof (in_struct_inv sd in_pbs (Some (digest_pbs (length digest))) ps p Hwf Hp Hw Hm
      ltac:(intros [= H]; by apply (digest_pbs_ne in_pbs Hin (length digest)))) as Hno.
    destruct (in_struct sd _ _ ps) as [[vs ps1]|u|] eqn:Hs; [|apply (Hstop _ [np]); [done|by constructor|done]|done].
    clear Hno. destruct (payload_members _ _ _ _ _ _ Hm Hsd Hs) as [next Hnext]. rewrite Hnext. run_ok.
    destruct (round_inv in_pbs Hin p _ ps sd Hp Hw Hm Hwf Hsize vs ps1 Hs) as (e&He&Hmem&Hp1&Hw1&Hold&Hq).
    edestruct (IH (if (np =? ISAKMP_NEXT_v2SK) || (np =? ISAKMP_NEXT_v2SKF) then ISAKMP_NEXT_v2NONE else next)
      (Z.lor seen (P np)) (Z.lor repeated (Z.land seen (P np))) (digest ++ [mk_pd np vs (digest_pbs (length digest))]) ps1 (set_cur e p))
      as (s&d&ps'&extra&Heq&Hdec); [done|done|by rewrite Hmem|cbn; lia|rewrite length_app; cbn; lia|].
    rewrite Heq. exists s, (mk_pd np vs (digest_pbs (length digest)) :: d), ps', extra. rewrite <- app_assoc. split; [done|].
    rewrite length_app, Nat.add_1_r in Hdec. by apply (decoded_step in_pbs Hin p _ ps sd Hm Hwf vs ps1 Hs e).
  - pose proof (in_struct_inv ikev2_generic_desc in_pbs (Some (digest_pbs (length digest))) ps p eq_refl Hp Hw Hm
      ltac:(intros [= H]; by apply (digest_pbs_ne in_pbs Hin (length digest)))) as Hno.
    destruct (in_struct _ _ _ ps) as [[vs ps1]|u|] eqn:Hs; [|by apply (Hstop _ [])|done].
    clear Hno. destruct (generic_members _ _ _ _ _ Hm Hs) as (next&critical&rest&->).
    destruct (round_inv in_pbs Hin p _ ps ikev2_generic_desc Hp Hw Hm eq_refl ltac:(done) _ ps1 Hs) as (e&He&Hmem&Hp1&Hw1&Hold&Hq).
    case_match.
    + eexists _, [], ps1, []. rewrite app_nil_r. split; [done|]. apply (decoded_skip in_pbs Hin p _ ps ps1 e); [done|done|done|].
      apply decoded_nil; done || cbn; lia.
    + destruct (IH next seen repeated digest ps1 (set_cur e p)) as (s&d&ps'&extra&Heq&Hdec); [done|done|by rewrite Hmem|cbn; lia|done|].
      exists s, d, ps', extra. split; [done|]. by apply (decoded_skip in_pbs Hin p _ ps ps1 e).
Qed.

Definition member (s np : Z) : bool := Z.testbit s (PINDEX np).

Lemma occurrences_chain np d : occurrences np (pd_np <$> d) = length (chain d np).
Proof.
  unfold occurrences, chain. induction d as [|pd d IH]; [done|]. rewrite fmap_cons, !filter_cons.
  case_decide; cbn; by rewrite IH.
Qed.

Section decode.
Context (in_pbs : nat) (np : Z) (digest : list payload_digest) (ps : pstate) (p : pb_stream).
Context (Hin : (in_pbs < 3)%nat) (Hp : ps_pbs ps !! in_pbs = Some p) (Hw : wf_pbs (ps_mem ps) p).
Context (Hm : mem_ok (ps_mem ps)) (Hd : Z.of_nat (length digest) <= PAYLIMIT).

Lemma decode_payloads_decoded {E} : exists s d ps' extra,
  ikev2_decode_payloads (E := E) in_pbs np digest ps = Ok (s, digest ++ d, ps') /\
  decoded in_pbs p (length digest) (0, 0) ps ps' s d extra.
Proof.
  unfold ikev2_decode_payloads. rewrite (get_pbs_at _ _ _ Hp), bind_Ok. apply decode_loop_decoded; try done.
  rewrite (wf_pbs_left _ _ Hw). lia.
Qed.

End decode.

Lemma decoded_members {in_pbs p k ps ps' s d extra} n :
  decoded in_pbs p k (0, 0) ps ps' s d extra -> 0 <= PINDEX n ->
  member (sum_seen s) n = (0 <? length (chain d n) + occurrences n extra)%nat /\
  member (sum_repeated s) n = (1 <? length (chain d n) + occurrences n extra)%nat.
Proof.
  intros [_ _ _ _ _ Hs Ht _ _ _] Hn.
  assert (Forall (fun np => 0 <= PINDEX np) ((pd_np <$> d) ++ extra)) as Ht' by (eapply Forall_impl; [exact Ht|]; cbn; lia).
  destruct (note_payloads_bits _ 0 0 n Ht' Hn) as [H1 H2]. rewrite <- Hs in H1, H2. unfold member.
  cbn [fst snd] in *. rewrite H1, H2, Z.testbit_0_l. cbn. unfold occurrences. rewrite filter_app, length_app.
  fold (occurrences n (pd_np <$> d)). by rewrite occurrences_chain.
Qed.
(** * Checking *)

Lemma without_empty a b : without a b = 0 <-> forall n, 0 <= PINDEX n -> member a n = true -> member b n = true.
Proof.
  unfold without, member. split.
  - intros H n Hn Ha. apply (f_equal (fun z => Z.testbit z (PINDEX n))) in H.
    rewrite Z.land_spec, Z.lnot_spec, Z.testbit_0_l, Ha in H by done. by destruct (Z.testbit b _).
  - intros H. apply Z.bits_inj'. intros i Hi. rewrite Z.land_spec, Z.lnot_spec, Z.testbit_0_l by done.
    specialize (H (i + ISAKMP_v2PAYLOAD_TYPE_BASE)). unfold PINDEX in H. rewrite Z.add_simpl_r in H.
    destruct (Z.testbit a i); [|done]. by rewrite H.
Qed.

Lemma member_without a b n : 0 <= PINDEX n -> member (without a b) n = member a n && negb (member b n).
Proof. intros Hn. unfold member, without. by rewrite Z.land_spec, Z.lnot_spec. Qed.

Lemma member_lor a b n : member (Z.lor a b) n = member a n || member b n.
Proof. apply Z.lor_spec. Qed.

(** A fragment counts as an encrypted payload unless there is one. *)
Lemma skf_as_sk_member seen n : 0 <= PINDEX n ->
  member (skf_as_sk seen) n =
  if n =? ISAKMP_NEXT_v2SK then member seen ISAKMP_NEXT_v2SK || member seen ISAKMP_NEXT_v2SKF
  else if n =? ISAKMP_NEXT_v2SKF then member seen ISAKMP_NEXT_v2SK && member seen ISAKMP_NEXT_v2SKF
  else member seen n.
Proof.
  intros Hn. unfold skf_as_sk.
  assert ((Z.land seen (Z.lor (P ISAKMP_NEXT_v2SKF) (P ISAKMP_NEXT_v2SK)) =? P ISAKMP_NEXT_v2SKF) =
    (member seen ISAKMP_NEXT_v2SKF && negb (member seen ISAKMP_NEXT_v2SK))) as ->.
  { apply eq_iff_eq_true. rewrite Z.eqb_eq, andb_true_iff, negb_true_iff. split.
    - intros H. pose proof (f_equal (fun z => member z ISAKMP_NEXT_v2SKF) H) as H1.
      pose proof (f_equal (fun z => member z ISAKMP_NEXT_v2SK) H) as H2. unfold member in *.
      rewrite Z.land_spec, Z.lor_spec, !P_testbit_payload in H1, H2 by done. cbn in H1, H2.
      by destruct (Z.testbit seen _), (Z.testbit seen _).
    - intros [H1 H2]. apply Z.bits_inj'. intros i Hi. rewrite Z.land_spec, Z.lor_spec, !P_testbit by done. unfold member in *.
      repeat case_bool_decide; subst; rewrite ?H1, ?H2, ?andb_false_r; done || discriminate. }
  assert (forall a, 0 <= PINDEX a -> member (P a) n = (n =? a)) as HP.
  { intros a Ha. unfold member. rewrite P_testbit_payload by done. rewrite Z.eqb_sym. by case_bool_decide; lia. }
  destruct (member seen ISAKMP_NEXT_v2SKF) eqn:E1, (member seen ISAKMP_NEXT_v2SK) eqn:E2; cbn [andb negb orb];
    rewrite ?member_lor, ?member_without, ?HP by done;
    destruct (Z.eqb_spec n ISAKMP_NEXT_v2SK), (Z.eqb_spec n ISAKMP_NEXT_v2SKF); subst; try discriminate;
    rewrite ?E1, ?E2; cbn [negb]; rewrite ?andb_true_r, ?andb_false_r, ?orb_false_r, ?orb_true_r; done.
Qed.

(** The check passes exactly if no payload that may not repeat does, all required payloads are there and
    all others are optional or allowed everywhere. *)
Lemma verify_payloads_ok s e :
  err_status (ikev2_verify_payloads s e) = STF_OK <->
  forall n, 0 <= PINDEX n ->
    (member (sum_repeated s) n = true -> member repeatable_payloads n = true) /\
    (member (required e) n = true -> member (skf_as_sk (sum_seen s)) n = true) /\
    (member (skf_as_sk (sum_seen s)) n = true ->
     member (required e) n = true \/ member (optional e) n = true \/ member everywhere_payloads n = true).
Proof.
  unfold ikev2_verify_payloads. cbn [err_status].
  transitivity (without (sum_repeated s) repeatable_payloads = 0 /\ without (required e) (skf_as_sk (sum_seen s)) = 0 /\
    without (without (without (skf_as_sk (sum_seen s)) (required e)) (optional e)) everywhere_payloads = 0).
  { cbv zeta. destruct (_ =? 0) eqn:H; [apply Z.eqb_eq in H|apply Z.eqb_neq in H]; rewrite !Z.lor_eq_0_iff in H.
    - tauto.
    - split; [discriminate|tauto]. }
  rewrite !without_empty.
  split.
  - intros (H1&H2&H3) n Hn. split; [by apply H1|]. split; [by apply H2|]. intros Hs. specialize (H3 n Hn).
    rewrite !member_without, Hs in H3 by done. destruct (member (required e) n), (member (optional e) n); auto.
  - intros H. split; [intros n Hn; by apply H|]. split; [intros n Hn; by apply H|]. intros n Hn.
    rewrite !member_without by done. rewrite !andb_true_iff, !negb_true_iff. intros [[Hs Hr] Ho].
    destruct (H n Hn) as (_&_&[?|[?|?]]); congruence.
Qed.

(** * Properties *)


(** The payloads of an IKE_SA_INIT request, without their insides. *)
Definition init_payloads : list Z :=
  [34; 0; 0; 8; 9; 9; 9; 9] ++ [40; 0; 0; 10; 0; 14; 0; 0; 1; 2] ++ [0; 0; 0; 8; 1; 2; 3; 4].

Lemma init_payloads_decoded :
  match ikev2_decode_payloads (E := diag) 1 33 [] (message init_payloads 1) with
  | Ok (s, d, _) => bool_decide (sum_status s = STF_OK) && bool_decide (pd_np <$> d = [33; 34; 40])
  | _ => false
  end = true.
Proof. vm_compute. reflexivity. Qed.


(** A payload type that the check finds: a fragment that stands alone is found as an encrypted payload. *)
Definition found (d : list payload_digest) (n : Z) : Prop :=
  if n =? ISAKMP_NEXT_v2SK then chain d ISAKMP_NEXT_v2SK <> [] \/ chain d ISAKMP_NEXT_v2SKF <> []
  else if n =? ISAKMP_NEXT_v2SKF then chain d ISAKMP_NEXT_v2SK <> [] /\ chain d ISAKMP_NEXT_v2SKF <> []
  else chain d n <> [].

Lemma chain_some d n : (0 <? length (chain d n))%nat = true <-> chain d n <> [].
Proof. rewrite Nat.ltb_lt. destruct (chain d n); cbn; split; (done || lia). Qed.

(** C19: a message that was split without error passes [ikev2_verify_payloads] exactly if every type
    of which it has two payloads may be repeated, it has a payload of each required type, and each
    type that it has is required, optional or allowed everywhere; a fragment counts as an
    encrypted payload. *)
Theorem payload_check_exact {E} in_pbs np ps p s d ps' e :
  (in_pbs < 3)%nat -> ps_pbs ps !! in_pbs = Some p -> wf_pbs (ps_mem ps) p -> mem_ok (ps_mem ps) ->
  ikev2_decode_payloads (E := E) in_pbs np [] ps = Ok (s, d, ps') -> sum_status s = STF_OK ->
  err_status (ikev2_verify_payloads s e) = STF_OK <->
  forall n, 0 <= PINDEX n ->
    ((1 < length (chain d n))%nat -> member repeatable_payloads n = true) /\
    (member (required e) n = true -> found d n) /\
    (found d n -> member (required e) n = true \/ member (optional e) n = true \/ member everywhere_payloads n = true).
Proof.
  intros Hin Hp Hw Hm He Hs. destruct (decode_payloads_decoded in_pbs np [] ps p Hin Hp Hw Hm ltac:(done) (E := E)) as (s'&d'&ps''&extra&He'&D).
  rewrite He in He'. injection He' as <- -> <-. pose proof (decoded_extra _ _ _ _ _ _ _ _ _ D Hs) as ->.
  assert (forall n, 0 <= PINDEX n -> member (sum_seen s) n = (0 <? length (chain d' n))%nat /\
    member (sum_repeated s) n = (1 <? length (chain d' n))%nat) as Hbits.
  { intros n Hn. destruct (decoded_members n D Hn) as [-> ->]. unfold occurrences. cbn. by rewrite Nat.add_0_r. }
  assert (forall n, 0 <= PINDEX n -> member (skf_as_sk (sum_seen s)) n = true <-> found d' n) as Hfound.
  { intros n Hn. rewrite skf_as_sk_member by done. unfold found.
    assert (forall n, 0 <= PINDEX n -> member (sum_seen s) n = (0 <? length (chain d' n))%nat) as Hseen by (intros m Hmm; apply (Hbits m Hmm)).
    rewrite !Hseen by done. repeat case_match; rewrite ?orb_true_iff, ?andb_true_iff, !chain_some; done. }
  rewrite verify_payloads_ok. split; intros H n Hn; destruct (H n Hn) as (H1&H2&H3); rewrite (Hfound n Hn), (proj2 (Hbits n Hn)), Nat.ltb_lt in *; split_and!; done.
Qed.

Definition init_expected : expected_payloads :=
  mk_expected (payload_set [ISAKMP_NEXT_v2SA; ISAKMP_NEXT_v2KE; ISAKMP_NEXT_v2Ni]) 0.

Lemma init_payloads_expected :
  match ikev2_decode_payloads (E := diag) 1 33 [] (message init_payloads 1) with
  | Ok (s, _, _) => bool_decide (sum_status s = STF_OK) &&
      bool_decide (err_status (ikev2_verify_payloads s init_expected) = STF_OK)
  | _ => false
  end = true.
Proof. vm_compute. reflexivity. Qed.

Lemma payload_check_exact_witness :
  exists s d ps', ikev2_decode_payloads (E := diag) 1 33 [] (message init_payloads 1) = Ok (s, d, ps') /\
    err_status (ikev2_verify_payloads s init_expected) = STF_OK /\ found d ISAKMP_NEXT_v2KE.
Proof.
  pose proof init_payloads_expected as H.
  destruct (ikev2_decode_payloads 1 33 [] (message init_payloads 1)) as [[[s d] ps']| |] eqn:He; [|discriminate H..].
  apply andb_true_iff in H as [H1%bool_decide_eq_true H2%bool_decide_eq_true]. exists s, d, ps'.
  pose proof (proj1 (payload_check_exact 1 33 (message init_payloads 1) (message_pbs init_payloads) s d ps' init_expected
    ltac:(lia) (message_lookup _ _) (message_wf init_payloads 1 ltac:(by_decide))
    ltac:(by apply buffer_ok; repeat constructor) He H1) H2 ISAKMP_NEXT_v2KE ltac:(by_decide)) as (_&Hreq&_).
  exact (conj eq_refl (conj H2 (Hreq ltac:(vm_compute; reflexivity)))).
Defined.
