(* ===== verification/Ikev2Proposals.v ===== *)
(** The negotiation of IKEv2 proposals: programs/pluto/ikev2_spdb_struct.c.

    A responder compares the proposals of a security association payload with its own
    ([ikev2_process_sa_payload], [process_transforms]) and answers with the one it chose
    ([ikev2_emit_sa_proposal]); an initiator emits its proposals ([ikev2_emit_sa_proposals]) and
    processes the one that was accepted with the same routine.

    Sets of transform types are [lset_t]s. A pointer to a transform of a local proposal is an
    index into the array of its type. The text that the routines collect for the log does not
    take part in the negotiation. *)
From S2P Require Import Prelude EnumNames Constants Packet PacketDescs Stf Ikev2Payloads.

(** * Data *)

Definition IKEv2_TRANS_TYPE_ENCR : Z := 1.
Definition IKEv2_TRANS_TYPE_PRF : Z := 2.
Definition IKEv2_TRANS_TYPE_INTEG : Z := 3.
Definition IKEv2_TRANS_TYPE_DH : Z := 4.
Definition IKEv2_TRANS_TYPE_ESN : Z := 5.
Definition IKEv2_TRANS_TYPE_ROOF : Z := IKEv2_TRANS_TYPE_ESN + 1.

Definition IKEv2_SEC_PROTO_IKE : Z := 1.
Definition IKEv2_SEC_PROTO_AH : Z := 2.
Definition IKEv2_SEC_PROTO_ESP : Z := 3.

Definition v2_PROPOSAL_LAST : Z := 0.
Definition v2_PROPOSAL_NON_LAST : Z := 2.
Definition v2_TRANSFORM_LAST : Z := 0.
Definition v2_TRANSFORM_NON_LAST : Z := 3.
Definition IKEv2_KEY_LENGTH : Z := 14.
Definition v2N_NO_PROPOSAL_CHOSEN : Z := 14.

(** The position of [STF_FAIL] in its enumeration. *)
Definition STF_FAIL_value : Z := 8.
(** [-(STF_FAIL + v2N_INVALID_SYNTAX)] *)
Definition syntax_failure : Z := - (STF_FAIL_value + v2N_INVALID_SYNTAX).

Record ikev2_transform := mk_tr { tr_id : Z; attr_keylen : Z; tr_valid : bool }.

#[export] Instance ikev2_transform_eq_dec : EqDecision ikev2_transform.
Proof. solve_decision. Defined.

(** An element that was only zeroed. *)
Definition no_transform : ikev2_transform := mk_tr 0 0 false.

(** [struct ikev2_transforms]: four transforms and a sentinel. *)
Abbreviation ikev2_transforms := (list ikev2_transform).
Definition transform_elems : nat := 5.
Definition no_transforms : ikev2_transforms := replicate transform_elems no_transform.
Definition sentinel_transform : nat := (transform_elems - 1)%nat.

Fixpoint valid_prefix (ts : list ikev2_transform) : list ikev2_transform :=
  match ts with
  | [] => []
  | t :: ts' => if tr_valid t then t :: valid_prefix ts' else []
  end.

(** The transforms that [FOR_EACH_TRANSFORM] visits. On exit the iterator has the index that is
    their number. *)
Definition FOR_EACH_TRANSFORM (ts : ikev2_transforms) : list ikev2_transform :=
  valid_prefix (take sentinel_transform ts).

Record ikev2_spi := mk_spi { spi_bytes : list Z; spi_size : Z }.
Definition no_spi : ikev2_spi := mk_spi (replicate 8 0) 0.

Record ikev2_proposal := mk_proposal {
  propnum : Z;
  protoid : Z;
  remote_spi : ikev2_spi;
  transforms : list ikev2_transforms
}.

Definition no_proposal : ikev2_proposal :=
  mk_proposal 0 0 no_spi (replicate (Z.to_nat IKEv2_TRANS_TYPE_ROOF) no_transforms).

(** The types that [FOR_EACH_TRANSFORMS_TYPE] visits. *)
Definition trans_types : list Z := seqZ 1 (IKEv2_TRANS_TYPE_ROOF - 1).

(** [matching_transform] holds NULL or a pointer into the array of the type. *)
Record ikev2_proposal_match := mk_match {
  required_local_transform_types : Z;
  optional_local_transform_types : Z;
  matched_local_transform_types : Z;
  matching_transform : list (option nat)
}.

Definition no_match : ikev2_proposal_match :=
  mk_match 0 0 0 (replicate (Z.to_nat IKEv2_TRANS_TYPE_ROOF) None).

(** [struct ikev2_proposals] without [on_heap]. *)
Record ikev2_proposals := mk_proposals { props_roof : Z; proposal : list ikev2_proposal }.

(** The numbers that [FOR_EACH_PROPOSAL] and [FOR_EACH_PROPOSAL_IN_RANGE] visit. *)
Definition FOR_EACH_PROPOSAL (ps : ikev2_proposals) : list Z := seqZ 1 (props_roof ps - 1).
Definition FOR_EACH_PROPOSAL_IN_RANGE (ps : ikev2_proposals) (base bound : Z) : list Z :=
  let base := if 0 <? base then base else 1 in
  seqZ base (bound `min` props_roof ps - base).

(** A loop over [l] whose body may fail. *)
Fixpoint fold_outcome {E A B} (f : A -> B -> outcome E A) (a : A) (l : list B) : outcome E A :=
  match l with
  | [] => Ok a
  | b :: l' => a' ← f a b; fold_outcome f a' l'
  end.

(** * Comparing one proposal *)

(** The body of the loop that looks for the sentinel of a type: the required and the optional
    types so far. *)
Definition note_local (type : Z) (s : Z * Z) (t : ikev2_transform) : Z * Z :=
  if (type =? IKEv2_TRANS_TYPE_INTEG) && (tr_id t =? 0) then (s.1, Z.lor s.2 (LELEM type))
  else (Z.lor s.1 (LELEM type), s.2).

Definition init_type {E} (lp : ikev2_proposal) (m : ikev2_proposal_match) (type : Z)
  : outcome E ikev2_proposal_match :=
  lts ← defined (transforms lp !! Z.to_nat type);
  let '(required, optional) :=
    fold_left (note_local type) (FOR_EACH_TRANSFORM lts)
      (required_local_transform_types m, optional_local_transform_types m) in
  let sentinel := length (FOR_EACH_TRANSFORM lts) in
  t ← defined (lts !! sentinel);
  passert (negb (tr_valid t)) ;;
  passert (Z.land required optional =? 0) ;;
  Ok (mk_match required optional (matched_local_transform_types m)
        (<[Z.to_nat type := Some sentinel]> (matching_transform m))).

(** The first block of [process_transforms], for one local proposal. *)
Definition init_match {E} (local : ikev2_proposals) (ms : list ikev2_proposal_match) (local_propnum : Z)
  : outcome E (list ikev2_proposal_match) :=
  lp ← defined (proposal local !! Z.to_nat local_propnum);
  m ← defined (ms !! Z.to_nat local_propnum);
  m' ← fold_outcome (init_type lp) (mk_match 0 0 0 (matching_transform m)) trans_types;
  Ok (<[Z.to_nat local_propnum := m']> ms).

(** The attributes of a transform. [inl] is what [process_transforms] returns at once, [inr] the
    key length. A round takes the four octets of an attribute. *)
Fixpoint read_attributes {E} (fuel : nat) (trans_pbs attr_pbs : nat) (keylen : Z) (ps : pstate)
  : outcome E ((Z + Z) * pstate) :=
  match fuel with
  | O => Abort
  | S fuel' =>
      p ← get_pbs ps trans_pbs;
      if pbs_left p =? 0 then Ok (inr keylen, ps)
      else
        match in_struct ikev2_trans_attr_desc trans_pbs (Some attr_pbs) ps with
        | Abort => Abort
        | Ugh _ => Ok (inl syntax_failure, ps)
        | Ok ([FNum isatr_type; FNum isatr_lv], ps1) =>
            if isatr_type =? Z.lor IKEv2_KEY_LENGTH ISAKMP_ATTR_AF_TV
            then read_attributes fuel' trans_pbs attr_pbs isatr_lv ps1
            else Ok (inl 0, ps1)
        | Ok _ => Abort
        end
  end.

(** One transform with its attributes: its type and the transform. *)
Definition read_transform {E} (prop_pbs trans_pbs attr_pbs : nat) (ps : pstate)
  : outcome E ((Z + Z * ikev2_transform) * pstate) :=
  match in_struct ikev2_trans_desc prop_pbs (Some trans_pbs) ps with
  | Abort => Abort
  | Ugh _ => Ok (inl syntax_failure, ps)
  | Ok ([FNum _; FBytes _; FNum _; FNum type; FBytes _; FNum isat_transid], ps1) =>
      if type =? 0 then Ok (inl syntax_failure, ps1)
      else if IKEv2_TRANS_TYPE_ROOF <=? type then Ok (inl 0, ps1)
      else
        p ← get_pbs ps1 trans_pbs;
        '(r, ps2) ← read_attributes (S (Z.to_nat (pbs_left p))) trans_pbs attr_pbs 0 ps1;
        Ok (match r with
            | inl code => inl code
            | inr keylen => inr (type, mk_tr isat_transid keylen true)
            end, ps2)
  | Ok _ => Abort
  end.

(** The check of a mixup of NULL and other integrity transforms: the new first one, or that the
    proposal is to be skipped. *)
Definition note_integrity (first type transid : Z) : option Z :=
  if type =? IKEv2_TRANS_TYPE_INTEG then
    if first <? 0 then Some transid
    else if (first =? 0) || (transid =? 0) then None
    else Some first
  else Some first.

(** The search for a better match: the transforms from index [i] on, up to [best]. *)
Fixpoint better_match (rt : ikev2_transform) (best i : nat) (lts : list ikev2_transform) : option nat :=
  match lts with
  | [] => None
  | lt :: lts' =>
      if decide (best <= i)%nat then None
      else if (tr_id lt =? tr_id rt) && (attr_keylen lt =? attr_keylen rt) then Some i
      else better_match rt best (S i) lts'
  end.

(** One remote transform against one local proposal. The state is the set of matched remote
    types and the matches. *)
Definition match_transform {E} (local : ikev2_proposals) (remote_protoid type : Z) (rt : ikev2_transform)
    (s : Z * list ikev2_proposal_match) (local_propnum : Z) : outcome E (Z * list ikev2_proposal_match) :=
  let '(matched_remote, ms) := s in
  lp ← defined (proposal local !! Z.to_nat local_propnum);
  if protoid lp =? remote_protoid then
    lts ← defined (transforms lp !! Z.to_nat type);
    m ← defined (ms !! Z.to_nat local_propnum);
    best ← defined (mjoin (matching_transform m !! Z.to_nat type));
    passert (bool_decide (best < transform_elems)%nat) ;;
    Ok (match better_match rt best 0 (FOR_EACH_TRANSFORM lts) with
        | None => (matched_remote, ms)
        | Some i =>
            (Z.lor matched_remote (LELEM type),
             <[Z.to_nat local_propnum :=
               mk_match (required_local_transform_types m) (optional_local_transform_types m)
                 (Z.lor (matched_local_transform_types m) (LELEM type))
                 (<[Z.to_nat type := Some i]> (matching_transform m))]> ms)
        end)
  else Ok s.

(** The loop over the remote transforms. [inr] holds the proposed and the matched types. *)
Fixpoint transforms_loop {E} (num : nat) (prop_pbs trans_pbs attr_pbs : nat) (remote_protoid : Z)
    (local : ikev2_proposals) (range : list Z) (proposed matched first_integrity : Z)
    (ms : list ikev2_proposal_match) (ps : pstate)
  : outcome E ((Z + Z * Z) * list ikev2_proposal_match * pstate) :=
  match num with
  | O => Ok (inr (proposed, matched), ms, ps)
  | S num' =>
      '(r, ps1) ← read_transform prop_pbs trans_pbs attr_pbs ps;
      match r with
      | inl code => Ok (inl code, ms, ps1)
      | inr (type, rt) =>
          match note_integrity first_integrity type (tr_id rt) with
          | None => Ok (inl 0, ms, ps1)
          | Some first_integrity =>
              let proposed := Z.lor proposed (LELEM type) in
              '(matched, ms) ← fold_outcome (match_transform local remote_protoid type rt) (matched, ms) range;
              transforms_loop num' prop_pbs trans_pbs attr_pbs remote_protoid local range
                proposed matched first_integrity ms ps1
          end
      end
  end.

(** The last loop: the first local proposal without unmatched and missing types, or 0. *)
Fixpoint first_match {E} (proposed : Z) (ms : list ikev2_proposal_match) (range : list Z) : outcome E Z :=
  match range with
  | [] => Ok 0
  | local_propnum :: range' =>
      m ← defined (ms !! Z.to_nat local_propnum);
      let unmatched := without proposed (matched_local_transform_types m) in
      let missing := without (required_local_transform_types m) (matched_local_transform_types m) in
      if (unmatched =? 0) && (missing =? 0) then Ok local_propnum
      else first_match proposed ms range'
  end.

Definition process_transforms {E} (prop_pbs trans_pbs attr_pbs : nat) (num_remote_transforms remote_protoid : Z)
    (local : ikev2_proposals) (local_propnum_base local_propnum_bound : Z)
    (ms : list ikev2_proposal_match) (ps : pstate)
  : outcome E (Z * list ikev2_proposal_match * pstate) :=
  let range := FOR_EACH_PROPOSAL_IN_RANGE local local_propnum_base local_propnum_bound in
  ms ← fold_outcome (init_match local) ms range;
  '(r, ms, ps) ← transforms_loop (Z.to_nat num_remote_transforms) prop_pbs trans_pbs attr_pbs remote_protoid
                   local range 0 0 (-1) ms ps;
  match r with
  | inl code => Ok (code, ms, ps)
  | inr (proposed, matched) =>
      if without proposed matched =? 0 then
        match_nr ← first_match proposed ms range;
        Ok (match_nr, ms, ps)
      else Ok (0, ms, ps)
  end.

(** * Processing a payload *)

Definition proto_spi_size (protoid : Z) : Z :=
  if protoid =? IKEv2_SEC_PROTO_IKE then 8
  else if (protoid =? IKEv2_SEC_PROTO_AH) || (protoid =? IKEv2_SEC_PROTO_ESP) then 4
  else 0.

(** [best_proposal] is given the transform that the match points at, for one type. *)
Definition best_transform {E} (lp : ikev2_proposal) (m : ikev2_proposal_match) (best : list ikev2_transforms)
    (type : Z) : outcome E (list ikev2_transforms) :=
  i ← defined (mjoin (matching_transform m !! Z.to_nat type));
  lts ← defined (transforms lp !! Z.to_nat type);
  t ← defined (lts !! i);
  bts ← defined (best !! Z.to_nat type);
  Ok (<[Z.to_nat type := <[0%nat := t]> bts]> best).

(** The variables of the loop of [ikev2_process_sa_payload]. *)
Record sa_vars := mk_sv {
  matching_local_propnum : Z;
  next_propnum : Z;
  best_proposal : ikev2_proposal;
  matching_local_proposals : list ikev2_proposal_match;
  sa_streams : pstate
}.

(** [matching_local_propnum = n] *)
Definition set_matching (n : Z) (v : sa_vars) : sa_vars :=
  mk_sv n (next_propnum v) (best_proposal v) (matching_local_proposals v) (sa_streams v).
Definition set_streams (ps : pstate) (v : sa_vars) : sa_vars :=
  mk_sv (matching_local_propnum v) (next_propnum v) (best_proposal v) (matching_local_proposals v) ps.

(** The check of the number of a proposal: the next number expected, or an error. *)
Definition check_propnum (expect_accepted : bool) (roof isap_lp isap_propnum next : Z) : option Z :=
  if expect_accepted then
    if negb (isap_lp =? v2_PROPOSAL_LAST) then None
    else if (isap_propnum <? 1) || (roof <=? isap_propnum) then None
    else Some next
  else if negb (next =? isap_propnum) then None
  else Some (next + 1).

(** The remote SPI: [inl true] ends the loop with an error, [inl false] skips the proposal. *)
Definition read_spi {E} (expect_spi : bool) (isap_protoid isap_spisize : Z) (proposal_pbs : nat) (ps : pstate)
  : outcome E ((bool + ikev2_spi) * pstate) :=
  let size := if expect_spi then proto_spi_size isap_protoid else 0 in
  if expect_spi && (size =? 0) then Ok (inl false, ps)
  else if 8 <? isap_spisize then Ok (inl false, ps)
  else if negb (isap_spisize =? size) then Ok (inl false, ps)
  else if 0 <? size then
    match in_raw size proposal_pbs "remote SPI" ps with
    | Abort => Abort
    | Ugh _ => Ok (inl true, ps)
    | Ok (bs, ps1) => Ok (inr (mk_spi (bs ++ replicate (8 - Z.to_nat size) 0) size), ps1)
    end
  else Ok (inr (mk_spi (replicate 8 0) size), ps).

(** The end of the body: the transforms are compared and a match is captured. [None] is a break. *)
Definition compare_proposal {E} (proposal_pbs trans_pbs attr_pbs : nat) (expect_accepted : bool)
    (local : ikev2_proposals) (isap_lp isap_propnum isap_protoid isap_numtrans : Z) (spi : ikev2_spi) (v : sa_vars)
  : outcome E (option Z * sa_vars) :=
  let base := if expect_accepted then isap_propnum else 1 in
  let bound :=
    if expect_accepted then isap_propnum + 1
    else if negb (matching_local_propnum v =? 0) then matching_local_propnum v else props_roof local in
  '(match_nr, ms, ps) ← process_transforms proposal_pbs trans_pbs attr_pbs isap_numtrans isap_protoid local
                          base bound (matching_local_proposals v) (sa_streams v);
  let v := mk_sv (matching_local_propnum v) (next_propnum v) (best_proposal v) ms ps in
  if match_nr <? 0 then Ok (None, set_matching match_nr v)
  else if 0 <? match_nr then
    passert (match_nr <? props_roof local) ;;
    lp ← defined (proposal local !! Z.to_nat match_nr);
    m ← defined (ms !! Z.to_nat match_nr);
    best ← fold_outcome (best_transform lp m) (transforms no_proposal) trans_types;
    Ok (Some isap_lp, mk_sv match_nr (next_propnum v) (mk_proposal isap_propnum isap_protoid spi best) ms ps)
  else Ok (Some isap_lp, v).

(** The body of the loop: [None] is a break, [Some isap_lp] reaches the condition of the loop. *)
Definition sa_body {E} (sa_payload proposal_pbs trans_pbs attr_pbs : nat) (expect_ike expect_spi expect_accepted : bool)
    (local : ikev2_proposals) (v : sa_vars) : outcome E (option Z * sa_vars) :=
  match in_struct ikev2_prop_desc sa_payload (Some proposal_pbs) (sa_streams v) with
  | Abort => Abort
  | Ugh _ => Ok (None, set_matching syntax_failure v)
  | Ok ([FNum isap_lp; FBytes _; FNum _; FNum isap_propnum; FNum isap_protoid; FNum isap_spisize;
         FNum isap_numtrans], ps1) =>
      let v := set_streams ps1 v in
      match check_propnum expect_accepted (props_roof local) isap_lp isap_propnum (next_propnum v) with
      | None => Ok (None, set_matching syntax_failure v)
      | Some next =>
          let v := mk_sv (matching_local_propnum v) next (best_proposal v) (matching_local_proposals v) ps1 in
          if expect_ike && negb (isap_protoid =? IKEv2_SEC_PROTO_IKE) then Ok (Some isap_lp, v)
          else
            '(r, ps2) ← read_spi expect_spi isap_protoid isap_spisize proposal_pbs ps1;
            let v := set_streams ps2 v in
            match r with
            | inl true => Ok (None, set_matching syntax_failure v)
            | inl false => Ok (Some isap_lp, v)
            | inr spi =>
                compare_proposal proposal_pbs trans_pbs attr_pbs expect_accepted local
                  isap_lp isap_propnum isap_protoid isap_numtrans spi v
            end
      end
  | Ok _ => Abort
  end.

(** A round takes at least the eight octets of a proposal. *)
Fixpoint sa_loop {E} (fuel : nat) (sa_payload proposal_pbs trans_pbs attr_pbs : nat)
    (expect_ike expect_spi expect_accepted : bool) (local : ikev2_proposals) (v : sa_vars) : outcome E sa_vars :=
  match fuel with
  | O => Abort
  | S fuel' =>
      '(r, v) ← sa_body sa_payload proposal_pbs trans_pbs attr_pbs expect_ike expect_spi expect_accepted local v;
      match r with
      | Some isap_lp =>
          if isap_lp =? v2_PROPOSAL_NON_LAST
          then sa_loop fuel' sa_payload proposal_pbs trans_pbs attr_pbs expect_ike expect_spi expect_accepted local v
          else Ok v
      | None => Ok v
      end
  end.

(** [chosen_proposal] is set only when the status is [STF_OK]. *)
Definition ikev2_process_sa_payload {E} (sa_payload proposal_pbs trans_pbs attr_pbs : nat)
    (expect_ike expect_spi expect_accepted : bool) (local : ikev2_proposals) (ps : pstate)
  : outcome E (stf_status * option ikev2_proposal * pstate) :=
  p ← get_pbs ps sa_payload;
  v ← sa_loop (S (Z.to_nat (pbs_left p))) sa_payload proposal_pbs trans_pbs attr_pbs
        expect_ike expect_spi expect_accepted local
        (mk_sv 0 1 no_proposal (replicate (Z.to_nat (props_roof local)) no_match) ps);
  let n := matching_local_propnum v in
  Ok (if n <? 0 then (STF_NOTIFY (- n - STF_FAIL_value), None, sa_streams v)
      else if n =? 0 then
        (if expect_accepted then STF_FAIL else STF_NOTIFY v2N_NO_PROPOSAL_CHOSEN, None, sa_streams v)
      else (STF_OK, Some (best_proposal v), sa_streams v)).

(** * Emission

    [FALSE] is an error, with the streams as it leaves them. *)

(** With [type] [IKEv2_KEY_LENGTH], the only one. *)
Definition ikev2_out_attr (type val : Z) (pbs : nat) (st : pstate) : outcome (diag * pstate) pstate :=
  if type =? IKEv2_KEY_LENGTH then
    passert (Z.shiftr val 16 =? 0) ;;
    passert (Z.land type ISAKMP_ATTR_AF_MASK =? 0) ;;
    out_struct [FNum (Z.lor type ISAKMP_ATTR_AF_TV); FNum val] ikev2_trans_attr_desc pbs None st
  else Abort.

Definition emit_transform (r_proposal_pbs trans_pbs : nat) (type : Z) (last : bool) (t : ikev2_transform)
    (st : pstate) : outcome (diag * pstate) pstate :=
  let trans := [FNum (if last then v2_TRANSFORM_LAST else v2_TRANSFORM_NON_LAST); FNum 0; FNum 0; FNum type;
                FNum 0; FNum (tr_id t)] in
  st1 ← out_struct trans ikev2_trans_desc r_proposal_pbs (Some trans_pbs) st;
  st2 ← (if 0 <? attr_keylen t then ikev2_out_attr IKEv2_KEY_LENGTH (attr_keylen t) trans_pbs st1 else Ok st1);
  close_output_pbs trans_pbs st2.

(** The transforms of a proposal with their types, in the order of the nested loops. *)
Definition all_transforms (p : ikev2_proposal) : list (Z * ikev2_transform) :=
  concat (imap (fun i ts => (fun t => (Z.of_nat i + 1, t)) <$> FOR_EACH_TRANSFORM ts) (drop 1 (transforms p))).

Fixpoint emit_transforms (r_proposal_pbs trans_pbs : nat) (numtrans : Z) (l : list (Z * ikev2_transform))
    (st : pstate) : outcome (diag * pstate) pstate :=
  match l with
  | [] => Ok st
  | (type, t) :: l' =>
      let numtrans := numtrans - 1 in
      st1 ← emit_transform r_proposal_pbs trans_pbs type (numtrans =? 0) t st;
      emit_transforms r_proposal_pbs trans_pbs numtrans l' st1
  end.

Definition emit_proposal (sa_pbs proposal_pbs trans_pbs : nat) (p : ikev2_proposal) (propnum : Z)
    (local_spi : option (list Z)) (last_proposal : Z) (st : pstate) : outcome (diag * pstate) pstate :=
  let numtrans := Z.of_nat (length (all_transforms p)) in
  let prop := [FNum last_proposal; FNum 0; FNum 0; FNum propnum; FNum (protoid p);
               FNum (match local_spi with Some spi => Z.of_nat (length spi) | None => 0 end); FNum numtrans] in
  st1 ← out_struct prop ikev2_prop_desc sa_pbs (Some proposal_pbs) st;
  st2 ← (match local_spi with Some spi => out_raw spi proposal_pbs "our spi" st1 | None => Ok st1 end);
  st3 ← emit_transforms proposal_pbs trans_pbs numtrans (all_transforms p) st2;
  close_output_pbs proposal_pbs st3.

Definition ISAKMP_PAYLOAD_LIBRESWAN_BOGUS : Z := 0x01.

(** [impair] is [DBGP(IMPAIR_SEND_BOGUS_PAYLOAD_FLAG)]. *)
Definition ikev2_emit_sa_proposals (pbs sa_pbs proposal_pbs trans_pbs : nat) (impair : bool)
    (ps : ikev2_proposals) (local_spi : option (list Z)) (next_payload_type : Z) (st : pstate)
  : outcome (diag * pstate) pstate :=
  let critical := if impair then ISAKMP_PAYLOAD_LIBRESWAN_BOGUS else 0 in
  st1 ← out_struct [FNum next_payload_type; FNum critical; FNum 0] ikev2_sa_desc pbs (Some sa_pbs) st;
  st2 ← fold_outcome (fun st propnum =>
          p ← defined (proposal ps !! Z.to_nat propnum);
          emit_proposal sa_pbs proposal_pbs trans_pbs p propnum local_spi
            (if propnum <? props_roof ps - 1 then v2_PROPOSAL_NON_LAST else v2_PROPOSAL_LAST) st)
        st1 (FOR_EACH_PROPOSAL ps);
  close_output_pbs sa_pbs st2.

Definition ikev2_emit_sa_proposal (pbs sa_pbs proposal_pbs trans_pbs : nat) (p : ikev2_proposal)
    (local_spi : option (list Z)) (next_payload_type : Z) (st : pstate) : outcome (diag * pstate) pstate :=
  st1 ← out_struct [FNum next_payload_type; FNum 0; FNum 0] ikev2_sa_desc pbs (Some sa_pbs) st;
  st2 ← emit_proposal sa_pbs proposal_pbs trans_pbs p (propnum p) local_spi v2_PROPOSAL_LAST st1;
  close_output_pbs sa_pbs st2.
