(* ===== verification/Ikev2LocalProposals.v ===== *)
(** The local side of the IKEv2 negotiation in programs/pluto/ikev2_spdb_struct.c: the proposals
    that a connection makes or accepts, built from its configuration or from the defaults, and
    what is made of a proposal that was accepted; with the parts of ike_alg.c and kernel_alg.c
    that these routines use, and [ikev2_process_child_sa_pl] of ikev2_parent.c, which puts them
    together for a child SA.

    The algorithm tables depend on how pluto was built and the tables of the kernel on what the
    kernel has registered; both are arguments. *)
From S2P Require Import Prelude EnumNames Constants Packet Stf Ikev2Payloads Ikev2Proposals.

(** * Algorithms *)

(** Members of [struct encrypt_desc], [struct prf_desc], [struct integ_desc]: [xxx_id] is
    [common.id[IKEv2_ALG_ID]], [xxx_esp_id] is [common.id[IKEv1_ESP_ID]]. *)
Record encrypt_desc := mk_encrypt {
  encrypt_id : Z;
  encrypt_esp_id : Z;
  keylen_omitted : bool;
  key_bit_lengths : list Z;
  keydeflen : Z;
  aead_tag_size : Z
}.
Record prf_desc := mk_prf { prf_id : Z }.
Record integ_desc := mk_integ { integ_id : Z; integ_esp_id : Z }.
(** A DH group is known by its number. *)
Abbreviation oakley_group_desc := Z.

(** The tables of ike_alg.c. *)
Record algorithms := mk_algs {
  encrypt_descriptors : list encrypt_desc;
  prf_descriptors : list prf_desc;
  integ_descriptors : list integ_desc;
  oakley_groups : list oakley_group_desc
}.

(** [lookup_by_id] on each of the tables. *)
Definition ikev2_get_encrypt_desc (algs : algorithms) (id : Z) : option encrypt_desc :=
  List.find (fun d => encrypt_id d =? id) (encrypt_descriptors algs).
Definition ikev2_get_prf_desc (algs : algorithms) (id : Z) : option prf_desc :=
  List.find (fun d => prf_id d =? id) (prf_descriptors algs).
Definition ikev2_get_integ_desc (algs : algorithms) (id : Z) : option integ_desc :=
  List.find (fun d => integ_id d =? id) (integ_descriptors algs).
(** The parameter is a [u_int16_t]. *)
Definition lookup_group (algs : algorithms) (group : Z) : option oakley_group_desc :=
  List.find (fun g => u16 group =? g) (oakley_groups algs).

(** The array is terminated by a zero. *)
Fixpoint has_key_bit_length (keys : list Z) (keylen : Z) : option bool :=
  match keys with
  | [] => None
  | k :: keys' => if k =? 0 then Some false else if k =? keylen then Some true else has_key_bit_length keys' keylen
  end.
Definition encrypt_has_key_bit_length {E} (e : encrypt_desc) (keylen : Z) : outcome E bool :=
  defined (has_key_bit_length (key_bit_lengths e) keylen).
Definition encrypt_max_key_bit_length {E} (e : encrypt_desc) : outcome E Z :=
  defined (key_bit_lengths e !! 0%nat).

(** The key lengths in [encrypt_desc_check], which every algorithm passes when pluto starts. *)
Fixpoint descending {E} (keys : list Z) : outcome E unit :=
  match keys with
  | [] => Abort
  | k :: keys' =>
      if k =? 0 then Ok tt
      else k' ← defined (keys' !! 0%nat); passert (k' <? k) ;; descending keys'
  end.
Definition ESP_NULL : Z := 11.
Definition IKEv2_ENCR_NULL : Z := 11.
Definition encrypt_desc_check {E} (e : encrypt_desc) : outcome E unit :=
  k0 ← defined (key_bit_lengths e !! 0%nat);
  if negb (keydeflen e =? 0) then
    passert (0 <? k0) ;;
    k ← defined (last (key_bit_lengths e));
    passert (k =? 0) ;;
    descending (key_bit_lengths e) ;;
    has ← encrypt_has_key_bit_length e (keydeflen e);
    passert has
  else
    passert ((encrypt_esp_id e =? ESP_NULL) || (encrypt_id e =? IKEv2_ENCR_NULL)) ;;
    passert (k0 =? 0).

Definition ike_alg_is_aead (e : option encrypt_desc) : bool :=
  match e with Some e => 0 <? aead_tag_size e | None => false end.
Definition ike_alg_enc_requires_integ (e : option encrypt_desc) : bool := negb (ike_alg_is_aead e).

(** * The kernel's algorithms *)

Record sadb_alg := mk_sadb { sadb_alg_id : Z; sadb_alg_minbits : Z; sadb_alg_maxbits : Z }.
(** [esp_ealg] and [esp_aalg] *)
Record kernel_algs := mk_kernel { esp_ealg : list sadb_alg; esp_aalg : list sadb_alg }.

Definition K_SADB_EALG_MAX : Z := 255.
Definition SADB_AALG_MAX : Z := 255.

Definition alg_present {E} (max : Z) (table : list sadb_alg) (algo : Z) : outcome E bool :=
  if algo <=? max then
    passert (0 <=? algo) ;;
    a ← defined (table !! Z.to_nat algo);
    Ok (sadb_alg_id a =? algo)
  else Ok false.
Definition ESP_EALG_PRESENT {E} (k : kernel_algs) (algo : Z) : outcome E bool :=
  alg_present K_SADB_EALG_MAX (esp_ealg k) algo.
Definition ESP_AALG_PRESENT {E} (k : kernel_algs) (algo : Z) : outcome E bool :=
  alg_present SADB_AALG_MAX (esp_aalg k) algo.

Definition AUTH_ALGORITHM_NONE : Z := 0.

(** [Abort] is the [bad_case]. *)
Definition alg_info_esp_aa2sadb {E} (auth : Z) : outcome E Z :=
  match auth with
  | 1 (* AUTH_ALGORITHM_HMAC_MD5 *) => Ok 2 (* AH_MD5 *)
  | 2 (* AUTH_ALGORITHM_HMAC_SHA1 *) => Ok 3 (* AH_SHA *)
  | 5 (* AUTH_ALGORITHM_HMAC_SHA2_256 *) => Ok 5 (* AH_SHA2_256 *)
  | 6 (* AUTH_ALGORITHM_HMAC_SHA2_384 *) => Ok 6 (* AH_SHA2_384 *)
  | 7 (* AUTH_ALGORITHM_HMAC_SHA2_512 *) => Ok 7 (* AH_SHA2_512 *)
  | 8 (* AUTH_ALGORITHM_HMAC_RIPEMD *) => Ok 8 (* AH_RIPEMD *)
  | 9 (* AUTH_ALGORITHM_AES_XCBC *) => Ok 9 (* AH_AES_XCBC_MAC *)
  | 10 (* AUTH_ALGORITHM_SIG_RSA *) => Ok 10 (* AH_RSA *)
  | 11 (* AUTH_ALGORITHM_AES_128_GMAC *) => Ok 11 (* AH_AES_128_GMAC *)
  | 12 (* AUTH_ALGORITHM_AES_192_GMAC *) => Ok 12 (* AH_AES_192_GMAC *)
  | 13 (* AUTH_ALGORITHM_AES_256_GMAC *) => Ok 13 (* AH_AES_256_GMAC *)
  | 250 (* AUTH_ALGORITHM_AES_CMAC_96 *) => Ok 250 (* AH_AES_CMAC_96 *)
  | 251 (* AUTH_ALGORITHM_NULL_KAME *) | 0 (* AUTH_ALGORITHM_NONE *) => Ok 0 (* AH_NONE *)
  | _ => Abort
  end.

Definition ESP_CAST : Z := 6.
(** The ciphers with keys of 128, 192 or 256 bits: [ESP_AES_GCM_8], [_12], [_16], [ESP_AES_CCM_8],
    [_12], [_16], [ESP_AES_CTR] and [ESP_CAMELLIAv1]. *)
Definition aes_like : list Z := [18; 19; 20; 14; 15; 16; 13; 22].

(** Whether the result is NULL. *)
Definition check_kernel_encrypt_alg {E} (k : kernel_algs) (alg_id key_len : Z) : outcome E bool :=
  present ← ESP_EALG_PRESENT k alg_id;
  if negb present then Ok false
  else
    a ← defined (esp_ealg k !! Z.to_nat alg_id);
    Ok (if bool_decide (alg_id ∈ aes_like) then bool_decide (key_len ∈ [0; 128; 192; 256])
        else if alg_id =? ESP_CAST then key_len =? 128
        else (key_len =? 0) || negb ((key_len <? sadb_alg_minbits a) || (sadb_alg_maxbits a <? key_len))).

(** * Building proposals *)

Definition set_transforms (ts : list ikev2_transforms) (p : ikev2_proposal) : ikev2_proposal :=
  mk_proposal (propnum p) (protoid p) (remote_spi p) ts.

(** [id] and [attr_keylen] are [unsigned]. *)
Definition append_transform {E} (p : ikev2_proposal) (type id keylen : Z) : outcome E ikev2_proposal :=
  ts ← defined (transforms p !! Z.to_nat type);
  let i := length (FOR_EACH_TRANSFORM ts) in
  passert (bool_decide (i < sentinel_transform)%nat) ;;
  t0 ← defined (ts !! i);
  passert (negb (tr_valid t0)) ;;
  t1 ← defined (ts !! S i);
  passert (negb (tr_valid t1)) ;;
  Ok (set_transforms (<[Z.to_nat type := <[i := mk_tr (u32 id) (u32 keylen) true]> ts]> (transforms p)) p).

(** The proposal as it is left, and whether it succeeded. *)
Definition append_encrypt_transform {E} (p : ikev2_proposal) (encrypt : option encrypt_desc) (keylen : Z)
  : outcome E (bool * ikev2_proposal) :=
  protocol ← enum_short_name ikev2_protocol_names (protoid p);
  match protocol, encrypt with
  | Some _, Some e =>
      if protoid p =? 0 then Ok (false, p)
      else if encrypt_id e =? 0 then Ok (false, p)
      else
        let append p keylen := append_transform p IKEv2_TRANS_TYPE_ENCR (encrypt_id e) keylen in
        valid ← (if 0 <? keylen then encrypt_has_key_bit_length e keylen else Ok true);
        if negb valid then Ok (false, p)
        else if 0 <? keylen then p ← append p keylen; Ok (true, p)
        else if keylen_omitted e then p ← append p 0; Ok (true, p)
        else
          keymaxlen ← encrypt_max_key_bit_length e;
          if keydeflen e =? keymaxlen then
            passert (0 <? keydeflen e) ;;
            p ← append p (keydeflen e); Ok (true, p)
          else
            passert (0 <? keydeflen e) ;;
            passert (0 <? keymaxlen) ;;
            passert (keydeflen e <? keymaxlen) ;;
            if protoid p =? IKEv2_SEC_PROTO_IKE then
              p ← append p keymaxlen; p ← append p (keydeflen e); Ok (true, p)
            else if protoid p =? IKEv2_SEC_PROTO_ESP then
              p ← append p (keydeflen e); p ← append p keymaxlen; Ok (true, p)
            else Ok (true, p)
  | _, _ => Ok (false, p)
  end.

(** ** IKE *)

Record ike_info := mk_ike_info {
  ike_encrypt : option encrypt_desc;
  ike_eklen : Z;
  ike_prf : option prf_desc;
  ike_integ : option integ_desc;
  ike_dh_group : option oakley_group_desc
}.

(** [*proposal = (struct ikev2_proposal) { .protoid = ..., .propnum = ... }] *)
Definition fresh_proposal (protoid propnum : Z) : ikev2_proposal :=
  mk_proposal propnum protoid no_spi (transforms no_proposal).

(** The body of the loop of [ikev2_proposals_from_alg_info_ike]; [false] is a [continue] before
    the proposal is complete. *)
Definition ike_proposal {E} (roof : Z) (info : ike_info) : outcome E (bool * ikev2_proposal) :=
  let p := fresh_proposal IKEv2_SEC_PROTO_IKE roof in
  let ealg := ike_encrypt info in
  '(ok, p) ← append_encrypt_transform p ealg (u32 (ike_eklen info));
  if negb ok then Ok (false, p)
  else
    match ike_prf info with
    | None => Ok (false, p)
    | Some prf =>
        if prf_id prf =? 0 then Ok (false, p)
        else
          p ← append_transform p IKEv2_TRANS_TYPE_PRF (prf_id prf) 0;
          '(ok, p) ←
            (if ike_alg_enc_requires_integ ealg then
               match ike_integ info with
               | None => Ok (false, p)
               | Some integ =>
                   if integ_id integ =? 0 then Ok (false, p)
                   else p ← append_transform p IKEv2_TRANS_TYPE_INTEG (integ_id integ) 0; Ok (true, p)
               end
             else p ← append_transform p IKEv2_TRANS_TYPE_INTEG 0 0; Ok (true, p));
          if negb (ok : bool) then Ok (false, p)
          else
            match ike_dh_group info with
            | None => Ok (false, p)
            | Some group => p ← append_transform p IKEv2_TRANS_TYPE_DH group 0; Ok (true, p)
            end
    end.

(** A round of the loops: the proposal under construction stands at [roof]; a complete one stays. *)
Definition add_proposal {E I} (build : Z -> I -> outcome E (bool * ikev2_proposal)) (proposals_roof : Z)
    (ps : ikev2_proposals) (info : I) : outcome E ikev2_proposals :=
  passert (props_roof ps <? proposals_roof) ;;
  '(ok, p) ← build (props_roof ps) info;
  Ok (mk_proposals (props_roof ps + if ok : bool then 1 else 0) (<[Z.to_nat (props_roof ps) := p]> (proposal ps))).

(** [alg_info_cnt] is the number of elements of the list. *)
Definition proposals_from {E I} (build : Z -> I -> outcome E (bool * ikev2_proposal)) (infos : list I)
  : outcome E ikev2_proposals :=
  let proposals_roof := Z.of_nat (length infos) + 1 in
  fold_outcome (add_proposal build proposals_roof)
    (mk_proposals 1 (replicate (Z.to_nat proposals_roof) no_proposal)) infos.

(** ** Defaults *)

Definition encr (id keylen : Z) : ikev2_transform := mk_tr id keylen true.
Definition ENCR_AES_CBC_128 : ikev2_transform := encr 12 128.
Definition ENCR_AES_CBC_256 : ikev2_transform := encr 12 256.
Definition ENCR_AES_GCM16_128 : ikev2_transform := encr 20 128.
Definition ENCR_AES_GCM16_256 : ikev2_transform := encr 20 256.
Definition PRF_SHA2_512 : ikev2_transform := mk_tr 7 0 true.
Definition PRF_SHA2_256 : ikev2_transform := mk_tr 5 0 true.
Definition PRF_SHA1 : ikev2_transform := mk_tr 2 0 true.
Definition AUTH_NONE : ikev2_transform := mk_tr 0 0 true.
Definition AUTH_SHA2_512_256 : ikev2_transform := mk_tr 14 0 true.
Definition AUTH_SHA2_256_128 : ikev2_transform := mk_tr 12 0 true.
Definition AUTH_SHA1_96 : ikev2_transform := mk_tr 2 0 true.
Definition DH_MODP1536 : ikev2_transform := mk_tr 5 0 true.
Definition DH_MODP2048 : ikev2_transform := mk_tr 14 0 true.
Definition DH_MODP3072 : ikev2_transform := mk_tr 15 0 true.
Definition DH_MODP4096 : ikev2_transform := mk_tr 16 0 true.
Definition DH_MODP8192 : ikev2_transform := mk_tr 18 0 true.

(** An array with the initial elements [ts], the others zero. *)
Definition TR (ts : list ikev2_transform) : ikev2_transforms :=
  ts ++ replicate (transform_elems - length ts) no_transform.

(** The designated initialisers of a proposal: ENCR, INTEG, PRF and DH. *)
Definition default_proposal (protoid : Z) (encr integ prf dh : list ikev2_transform) : ikev2_proposal :=
  mk_proposal 0 protoid no_spi [no_transforms; TR encr; TR prf; TR integ; TR dh; no_transforms].

Definition proposals_of (l : list ikev2_proposal) : ikev2_proposals := mk_proposals (Z.of_nat (length l)) l.

Definition default_ikev2_ike_proposals : ikev2_proposals :=
  let prfs := [PRF_SHA2_512; PRF_SHA2_256; PRF_SHA1] in
  let integs := [AUTH_SHA2_512_256; AUTH_SHA2_256_128; AUTH_SHA1_96] in
  proposals_of
    [no_proposal;
     default_proposal IKEv2_SEC_PROTO_IKE [ENCR_AES_GCM16_256] [AUTH_NONE] prfs
       [DH_MODP2048; DH_MODP3072; DH_MODP4096; DH_MODP8192];
     default_proposal IKEv2_SEC_PROTO_IKE [ENCR_AES_GCM16_128] [AUTH_NONE] prfs
       [DH_MODP2048; DH_MODP3072; DH_MODP4096; DH_MODP8192];
     default_proposal IKEv2_SEC_PROTO_IKE [ENCR_AES_CBC_256] integs prfs [DH_MODP2048; DH_MODP3072; DH_MODP1536];
     default_proposal IKEv2_SEC_PROTO_IKE [ENCR_AES_CBC_128] integs prfs [DH_MODP2048; DH_MODP3072; DH_MODP1536]].

Definition default_ikev2_esp_proposals_missing_esn : ikev2_proposals :=
  proposals_of
    [no_proposal;
     default_proposal IKEv2_SEC_PROTO_ESP [ENCR_AES_GCM16_256] [AUTH_NONE] [] [];
     default_proposal IKEv2_SEC_PROTO_ESP [ENCR_AES_GCM16_128] [AUTH_NONE] [] [];
     default_proposal IKEv2_SEC_PROTO_ESP [ENCR_AES_CBC_256] [AUTH_SHA2_512_256; AUTH_SHA2_256_128] [] [];
     default_proposal IKEv2_SEC_PROTO_ESP [ENCR_AES_CBC_128] [AUTH_SHA2_512_256; AUTH_SHA2_256_128] [] [];
     default_proposal IKEv2_SEC_PROTO_ESP [ENCR_AES_CBC_128] [AUTH_SHA1_96] [] []].

(** The last one is for ESP. *)
Definition default_ikev2_ah_proposals_missing_esn : ikev2_proposals :=
  proposals_of
    [no_proposal;
     default_proposal IKEv2_SEC_PROTO_AH [] [AUTH_SHA2_512_256] [] [];
     default_proposal IKEv2_SEC_PROTO_AH [] [AUTH_SHA2_256_128] [] [];
     default_proposal IKEv2_SEC_PROTO_ESP [] [AUTH_SHA1_96] [] []].

(** [result] is what [*result] holds; an object that is there already stays. *)
Definition ikev2_proposals_from_alg_info_ike {E} (alg_info_ike : option (list ike_info))
    (result : option ikev2_proposals) : outcome E ikev2_proposals :=
  match result, alg_info_ike with
  | Some ps, _ => Ok ps
  | None, None => Ok default_ikev2_ike_proposals
  | None, Some infos => proposals_from ike_proposal infos
  end.

(** ** ESP and AH *)

Definition POLICY_ENCRYPT : Z := LELEM 4.
Definition POLICY_AUTHENTICATE : Z := LELEM 5.
Definition POLICY_PFS : Z := LELEM 8.
Definition POLICY_ESN_NO : Z := LELEM 35.
Definition POLICY_ESN_YES : Z := LELEM 36.

Definition IKEv2_ESN_DISABLED : Z := 0.
Definition IKEv2_ESN_ENABLED : Z := 1.

(** [policy & x] as a condition *)
Definition policy_has (policy x : Z) : bool := negb (Z.land policy x =? 0).

Definition add_esn_transforms {E} (p : ikev2_proposal) (policy : Z) : outcome E ikev2_proposal :=
  ts ← defined (transforms p !! Z.to_nat IKEv2_TRANS_TYPE_ESN);
  t ← defined (ts !! 0%nat);
  passert (negb (tr_valid t)) ;;
  p ← (if policy_has policy POLICY_ESN_YES then append_transform p IKEv2_TRANS_TYPE_ESN IKEv2_ESN_ENABLED 0 else Ok p);
  (if policy_has policy POLICY_ESN_NO then append_transform p IKEv2_TRANS_TYPE_ESN IKEv2_ESN_DISABLED 0 else Ok p).

Definition add_pfs_group_to_proposal {E} (p : ikev2_proposal) (pfs_group : option oakley_group_desc)
  : outcome E ikev2_proposal :=
  match pfs_group with
  | Some group => append_transform p IKEv2_TRANS_TYPE_DH group 0
  | None => Ok p
  end.

(** Which of the two protocols the policy asks for; anything else is a [bad_case]. *)
Inductive esp_ah := USE_ESP | USE_AH.
Definition esp_or_ah {E} (policy : Z) : outcome E esp_ah :=
  let bits := Z.land policy (Z.lor POLICY_ENCRYPT POLICY_AUTHENTICATE) in
  if bits =? POLICY_ENCRYPT then Ok USE_ESP
  else if bits =? POLICY_AUTHENTICATE then Ok USE_AH
  else Abort.

(** The clone of the defaults is completed in place. *)
Definition complete_default {E} (policy : Z) (pfs_group : option oakley_group_desc) (ps : ikev2_proposals) (n : Z)
  : outcome E ikev2_proposals :=
  p ← defined (proposal ps !! Z.to_nat n);
  p ← add_esn_transforms p policy;
  p ← add_pfs_group_to_proposal p pfs_group;
  Ok (mk_proposals (props_roof ps) (<[Z.to_nat n := p]> (proposal ps))).

Record esp_info := mk_esp_info {
  esp_encrypt : option encrypt_desc;
  transid : Z;
  enckeylen : Z;
  esp_integ : option integ_desc;
  auth : Z
}.

(** The body of the loop of [ikev2_proposals_from_alg_info_esp], as [ike_proposal]. *)
Definition esp_proposal {E} (k : kernel_algs) (policy : Z) (pfs_group : option oakley_group_desc)
    (roof : Z) (info : esp_info) : outcome E (bool * ikev2_proposal) :=
  which ← esp_or_ah policy;
  '(ok, p) ←
    match which with
    | USE_ESP =>
        let p := fresh_proposal IKEv2_SEC_PROTO_ESP roof in
        present ← ESP_EALG_PRESENT k (transid info);
        if negb present then Ok (false, p)
        else
          '(ok, p) ← append_encrypt_transform p (esp_encrypt info) (enckeylen info);
          if negb ok then Ok (false, p)
          else
            '(ok, p) ←
              (if negb (auth info =? AUTH_ALGORITHM_NONE) then
                 aalg ← alg_info_esp_aa2sadb (auth info);
                 present ← ESP_AALG_PRESENT k aalg;
                 match present, esp_integ info with
                 | true, Some integ =>
                     p ← append_transform p IKEv2_TRANS_TYPE_INTEG (integ_id integ) 0; Ok (true, p)
                 | _, _ => Ok (false, p)
                 end
               else Ok (true, p));
            if negb (ok : bool) then Ok (false, p)
            else p ← add_pfs_group_to_proposal p pfs_group; Ok (true, p)
    | USE_AH =>
        let p := fresh_proposal IKEv2_SEC_PROTO_AH roof in
        aalg ← alg_info_esp_aa2sadb (auth info);
        present ← ESP_AALG_PRESENT k aalg;
        match present, esp_integ info with
        | true, Some integ => p ← append_transform p IKEv2_TRANS_TYPE_INTEG (integ_id integ) 0; Ok (true, p)
        | _, _ => Ok (false, p)
        end
    end;
  if negb (ok : bool) then Ok (false, p)
  else p ← add_esn_transforms p policy; Ok (true, p).

Definition ikev2_proposals_from_alg_info_esp {E} (k : kernel_algs) (alg_info_esp : option (list esp_info))
    (policy : Z) (pfs_group : option oakley_group_desc) (result : option ikev2_proposals)
  : outcome E ikev2_proposals :=
  match result, alg_info_esp with
  | Some ps, _ => Ok ps
  | None, None =>
      which ← esp_or_ah policy;
      let missing_esn := match which with
                         | USE_ESP => default_ikev2_esp_proposals_missing_esn
                         | USE_AH => default_ikev2_ah_proposals_missing_esn
                         end in
      fold_outcome (complete_default policy pfs_group) missing_esn (FOR_EACH_PROPOSAL missing_esn)
  | None, Some infos => proposals_from (esp_proposal k policy pfs_group) infos
  end.

(** * DH groups *)

(** [for (t = 0; t < transforms->transform[t].valid; t++)]: the index is compared with a truth
    value. [None] when no group was returned. *)
Fixpoint first_modp_loop {E} (fuel : nat) (algs : algorithms) (ts : ikev2_transforms) (t : nat)
  : outcome E (option oakley_group_desc) :=
  match fuel with
  | O => Abort
  | S fuel' =>
      tr ← defined (ts !! t);
      if decide (t < if tr_valid tr then 1 else 0)%nat then
        match lookup_group algs (tr_id tr) with
        | None => first_modp_loop fuel' algs ts (S t)
        | Some group => Ok (Some group)
        end
      else Ok None
  end.

Fixpoint first_modp {E} (algs : algorithms) (ps : ikev2_proposals) (range : list Z)
  : outcome E (option oakley_group_desc) :=
  match range with
  | [] => Ok None
  | n :: range' =>
      p ← defined (proposal ps !! Z.to_nat n);
      ts ← defined (transforms p !! Z.to_nat IKEv2_TRANS_TYPE_DH);
      g ← first_modp_loop (S transform_elems) algs ts 0;
      match g with Some group => Ok (Some group) | None => first_modp algs ps range' end
  end.

Definition OAKLEY_GROUP_MODP2048 : Z := 14.

Definition ikev2_proposals_first_modp {E} (algs : algorithms) (ps : ikev2_proposals)
  : outcome E oakley_group_desc :=
  g ← first_modp algs ps (FOR_EACH_PROPOSAL ps);
  match g with
  | Some group => Ok group
  | None => defined (lookup_group algs OAKLEY_GROUP_MODP2048)
  end.

(** The transforms of the proposals in turn; an access to a missing one is undefined. *)
Fixpoint include_modp {E} (ps : ikev2_proposals) (modp : Z) (range : list Z) : outcome E bool :=
  match range with
  | [] => Ok false
  | n :: range' =>
      p ← defined (proposal ps !! Z.to_nat n);
      ts ← defined (transforms p !! Z.to_nat IKEv2_TRANS_TYPE_DH);
      if existsb (fun t => tr_id t =? modp) (FOR_EACH_TRANSFORM ts) then Ok true else include_modp ps modp range'
  end.
Definition ikev2_proposals_include_modp {E} (ps : ikev2_proposals) (modp : Z) : outcome E bool :=
  include_modp ps modp (FOR_EACH_PROPOSAL ps).

(** * What becomes of an accepted proposal *)

(** The members of [struct trans_attrs] that these routines set. *)
Record trans_attrs := mk_ta {
  ta_encrypt : Z;
  ta_enckeylen : Z;
  ta_integ_hash : Z;
  ta_esn_enabled : bool;
  ta_encrypter : option encrypt_desc;
  ta_prf : option prf_desc;
  ta_integ : option integ_desc;
  ta_group : option oakley_group_desc
}.
Definition no_attrs : trans_attrs := mk_ta 0 0 0 false None None None None.

(** One transform; [None] is [return FALSE]. [encrypt], [enckeylen] and [integ_hash] have 16 bits. *)
Definition note_transform (algs : algorithms) (type : Z) (t : ikev2_transform) (ta : trans_attrs) : option trans_attrs :=
  if type =? IKEv2_TRANS_TYPE_ENCR then
    match ikev2_get_encrypt_desc algs (tr_id t) with
    | None => None
    | Some e =>
        Some (mk_ta (u16 (tr_id t)) (u16 (if 0 <? attr_keylen t then attr_keylen t else keydeflen e))
                (ta_integ_hash ta) (ta_esn_enabled ta) (Some e) (ta_prf ta) (ta_integ ta) (ta_group ta))
    end
  else if type =? IKEv2_TRANS_TYPE_PRF then
    match ikev2_get_prf_desc algs (tr_id t) with
    | None => None
    | Some prf => Some (mk_ta (ta_encrypt ta) (ta_enckeylen ta) (ta_integ_hash ta) (ta_esn_enabled ta)
                          (ta_encrypter ta) (Some prf) (ta_integ ta) (ta_group ta))
    end
  else if type =? IKEv2_TRANS_TYPE_INTEG then
    if tr_id t =? 0 then Some ta
    else
      match ikev2_get_integ_desc algs (tr_id t) with
      | None => None
      | Some integ => Some (mk_ta (ta_encrypt ta) (ta_enckeylen ta) (u16 (integ_id integ)) (ta_esn_enabled ta)
                              (ta_encrypter ta) (ta_prf ta) (Some integ) (ta_group ta))
      end
  else if type =? IKEv2_TRANS_TYPE_DH then
    match lookup_group algs (tr_id t) with
    | None => None
    | Some group => Some (mk_ta (ta_encrypt ta) (ta_enckeylen ta) (ta_integ_hash ta) (ta_esn_enabled ta)
                            (ta_encrypter ta) (ta_prf ta) (ta_integ ta) (Some group))
    end
  else if type =? IKEv2_TRANS_TYPE_ESN then
    let esn b := Some (mk_ta (ta_encrypt ta) (ta_enckeylen ta) (ta_integ_hash ta) b
                         (ta_encrypter ta) (ta_prf ta) (ta_integ ta) (ta_group ta)) in
    if tr_id t =? IKEv2_ESN_ENABLED then esn true
    else if tr_id t =? IKEv2_ESN_DISABLED then esn false
    else None
  else None.

Fixpoint note_transforms {E} (algs : algorithms) (p : ikev2_proposal) (types : list Z) (ta : trans_attrs)
  : outcome E (option trans_attrs) :=
  match types with
  | [] => Ok (Some ta)
  | type :: types' =>
      ts ← defined (transforms p !! Z.to_nat type);
      t ← defined (ts !! 0%nat);
      if tr_valid t then
        match note_transform algs type t ta with
        | None => Ok None
        | Some ta => note_transforms algs p types' ta
        end
      else note_transforms algs p types' ta
  end.

(** The result and [*ta_out]. *)
Definition ikev2_proposal_to_trans_attrs {E} (algs : algorithms) (p : ikev2_proposal)
  : outcome E (bool * trans_attrs) :=
  r ← note_transforms algs p trans_types no_attrs;
  Ok (match r with Some ta => (true, ta) | None => (false, no_attrs) end).

(** The members of [struct ipsec_proto_info] that are set; [present] stays as it was on failure. *)
Record ipsec_proto_info := mk_proto_info { pi_present : bool; pi_spi : list Z; pi_transattrs : trans_attrs }.

Definition ikev2_proposal_to_proto_info {E} (algs : algorithms) (k : kernel_algs) (p : ikev2_proposal)
    (info : ipsec_proto_info) : outcome E (bool * ipsec_proto_info) :=
  let info := mk_proto_info (pi_present info) (take 4 (spi_bytes (remote_spi p))) (pi_transattrs info) in
  '(ok, ta) ← ikev2_proposal_to_trans_attrs algs p;
  if negb ok then Ok (false, info)
  else
    let integ_hash := match ta_integ ta with
                      | None => AUTH_ALGORITHM_NONE
                      | Some i => u16 (if 0 <? integ_esp_id i then integ_esp_id i else integ_id i)
                      end in
    let ta := mk_ta (ta_encrypt ta) (ta_enckeylen ta) integ_hash (ta_esn_enabled ta) (ta_encrypter ta) (ta_prf ta)
                (ta_integ ta) (ta_group ta) in
    '(ok, ta) ←
      (if protoid p =? IKEv2_SEC_PROTO_ESP then
         e ← defined (ta_encrypter ta);
         let encrypt := u16 (if 0 <? encrypt_esp_id e then encrypt_esp_id e else encrypt_id e) in
         ok ← check_kernel_encrypt_alg k encrypt (ta_enckeylen ta);
         Ok (ok, mk_ta encrypt (ta_enckeylen ta) (ta_integ_hash ta) (ta_esn_enabled ta) (ta_encrypter ta) (ta_prf ta)
                   (ta_integ ta) (ta_group ta))
       else Ok (true, ta));
    if negb (ok : bool) then Ok (false, info)
    else Ok (true, mk_proto_info true (pi_spi info) ta).

(** ** The SA payload of a child

    The members of the connection and of the state that take part. *)
Record child_conn := mk_cc {
  cc_policy : Z;
  cc_alg_info_esp : option (list esp_info);
  esp_or_ah_proposals : option ikev2_proposals
}.
Record child_state := mk_cs {
  st_pfs_group : option oakley_group_desc;
  st_accepted_esp_or_ah_proposal : option ikev2_proposal;
  st_oakley : trans_attrs;
  st_proto_info : ipsec_proto_info
}.

(** [alg_pfsgroup] is the result of [ike_alg_pfsgroup(c, c->policy)], [parent_group] the group of
    the IKE SA. *)
Definition ikev2_child_set_pfs (policy : Z) (alg_pfsgroup parent_group : option oakley_group_desc)
  : option oakley_group_desc :=
  match alg_pfsgroup with
  | Some g => Some g
  | None => if policy_has policy POLICY_PFS then parent_group else None
  end.

(** The exchange that carries the payload. *)
Inductive child_exchange := CHILD_OF_AUTH | CREATE_CHILD_INITIATOR | CREATE_CHILD_RESPONDER.

Definition ikev2_process_child_sa_pl {E} (algs : algorithms) (k : kernel_algs)
    (sa_payload proposal_pbs trans_pbs attr_pbs : nat) (exchange : child_exchange)
    (alg_pfsgroup parent_group : option oakley_group_desc) (expect_accepted : bool)
    (c : child_conn) (st : child_state) (ps : pstate)
  : outcome E (stf_status * child_conn * child_state * pstate) :=
  esp_or_ah (cc_policy c) ;;
  let pfs := match exchange with
             | CREATE_CHILD_RESPONDER => ikev2_child_set_pfs (cc_policy c) alg_pfsgroup parent_group
             | _ => st_pfs_group st
             end in
  proposals ← ikev2_proposals_from_alg_info_esp k (cc_alg_info_esp c) (cc_policy c) pfs
                (if expect_accepted then esp_or_ah_proposals c else None);
  let c := mk_cc (cc_policy c) (cc_alg_info_esp c) (Some proposals) in
  '(ret, choice, ps) ← ikev2_process_sa_payload sa_payload proposal_pbs trans_pbs attr_pbs
                         false true expect_accepted proposals ps;
  match ret, choice with
  | STF_OK, Some accepted =>
      '(ret, oakley) ←
        match exchange, pfs with
        | CREATE_CHILD_INITIATOR, Some _ | CREATE_CHILD_RESPONDER, Some _ =>
            '(ok, ta) ← ikev2_proposal_to_trans_attrs algs accepted;
            Ok (if ok : bool then STF_OK else STF_NOTIFY v2N_NO_PROPOSAL_CHOSEN,
                mk_ta (ta_encrypt ta) (ta_enckeylen ta) (ta_integ_hash ta) (ta_esn_enabled ta) (ta_encrypter ta)
                  (ta_prf (st_oakley st)) (ta_integ ta) (ta_group ta))
        | _, _ => Ok (STF_OK, st_oakley st)
        end;
      '(ok, info) ← ikev2_proposal_to_proto_info algs k accepted (st_proto_info st);
      Ok (if ok : bool then ret else STF_NOTIFY v2N_NO_PROPOSAL_CHOSEN, c,
          mk_cs pfs (Some accepted) oakley info, ps)
  | STF_OK, None => Abort
  | _, _ => Ok (STF_NOTIFY v2N_NO_PROPOSAL_CHOSEN, c,
                mk_cs pfs (st_accepted_esp_or_ah_proposal st) (st_oakley st) (st_proto_info st), ps)
  end.

(** [ikev2_copy_cookie_from_sa]: the new [st_icookie]. *)
Definition COOKIE_SIZE : Z := 8.
Definition ikev2_copy_cookie_from_sa {E} (accepted : ikev2_proposal) : outcome E (list Z) :=
  passert (spi_size (remote_spi accepted) =? COOKIE_SIZE) ;;
  Ok (take (Z.to_nat COOKIE_SIZE) (spi_bytes (remote_spi accepted))).
