(* ===== verification/ProposalSpec.v ===== *)
(** What the negotiation of IKEv2 proposals is to choose: when a remote proposal matches a local
    one, as a predicate on lists of transforms, and the proof that the single pass of
    [process_transforms] over the octets of a remote proposal computes it. *)
From S2P Require Import Prelude EnumNames Constants Packet PacketSpec PacketNest PacketDescs Stf.
From S2P Require Import Ikev2Payloads Ikev2Proposals.

(** * The reference *)

(** A remote transform with its type. *)
Abbreviation typed_transform := (Z * ikev2_transform)%type.

Definition same_transform (lt rt : ikev2_transform) : bool :=
  (tr_id lt =? tr_id rt) && (attr_keylen lt =? attr_keylen rt).

Definition offered (rts : list typed_transform) (type : Z) (lt : ikev2_transform) : bool :=
  existsb (fun '(ty, rt) => (ty =? type) && same_transform lt rt) rts.

(** The transforms of a local proposal that have a type. *)
Definition local_transforms (lp : ikev2_proposal) (type : Z) : list ikev2_transform :=
  FOR_EACH_TRANSFORM (default [] (transforms lp !! Z.to_nat type)).

(** The position of the first element with a property; the length if there is none. *)
Fixpoint position {A} (f : A -> bool) (l : list A) : nat :=
  match l with [] => 0 | a :: l' => if f a then 0 else S (position f l') end.

(** The local transform that is preferred among those offered. *)
Definition preferred (lp : ikev2_proposal) (remote_protoid : Z) (rts : list typed_transform) (type : Z) : nat :=
  if protoid lp =? remote_protoid then position (offered rts type) (local_transforms lp type)
  else length (local_transforms lp type).

Definition type_matches (lp : ikev2_proposal) (remote_protoid : Z) (rts : list typed_transform) (type : Z) : bool :=
  (protoid lp =? remote_protoid) && existsb (offered rts type) (local_transforms lp type).

(** NULL integrity may be left out. *)
Definition is_optional (type : Z) (t : ikev2_transform) : bool :=
  (type =? IKEv2_TRANS_TYPE_INTEG) && (tr_id t =? 0).
Definition type_required (lp : ikev2_proposal) (type : Z) : bool :=
  existsb (fun t => negb (is_optional type t)) (local_transforms lp type).
Definition type_optional (lp : ikev2_proposal) (type : Z) : bool :=
  existsb (is_optional type) (local_transforms lp type).
Definition type_proposed (rts : list typed_transform) (type : Z) : bool :=
  existsb (fun '(ty, _) => ty =? type) rts.

(** A local proposal accepts a remote one when every type that was proposed has a common
    transform, and every type that is required was proposed with one. *)
Definition accepts (lp : ikev2_proposal) (remote_protoid : Z) (rts : list typed_transform) : bool :=
  forallb (fun type => implb (type_proposed rts type || type_required lp type)
                             (type_matches lp remote_protoid rts type)) trans_types.

(** All transforms of a remote proposal, read before anything is compared. *)
Fixpoint read_transforms {E} (num : nat) (prop_pbs trans_pbs attr_pbs : nat) (first_integrity : Z) (ps : pstate)
  : outcome E ((Z + list typed_transform) * pstate) :=
  match num with
  | O => Ok (inr [], ps)
  | S num' =>
      '(r, ps1) ← read_transform prop_pbs trans_pbs attr_pbs ps;
      match r with
      | inl code => Ok (inl code, ps1)
      | inr (type, rt) =>
          match note_integrity first_integrity type (tr_id rt) with
          | None => Ok (inl 0, ps1)
          | Some first_integrity =>
              '(r, ps2) ← read_transforms num' prop_pbs trans_pbs attr_pbs first_integrity ps1;
              Ok (match r with inl code => inl code | inr rts => inr ((type, rt) :: rts) end, ps2)
          end
      end
  end.

Definition local_accepts (local : ikev2_proposals) (remote_protoid : Z) (rts : list typed_transform) (n : Z) : bool :=
  match proposal local !! Z.to_nat n with Some lp => accepts lp remote_protoid rts | None => false end.

(** The first number with a property, or 0. *)
Definition first_number (f : Z -> bool) (l : list Z) : Z := default 0 (List.find f l).

(** * Well-formed local proposals *)

Definition wf_transforms (ts : ikev2_transforms) : bool :=
  (length ts =? transform_elems)%nat
  && match ts !! sentinel_transform with Some t => negb (tr_valid t) | None => false end.

(** What the assertions of [process_transforms] need: arrays with their sentinel, and no mixture
    of NULL and other integrity. *)
Definition wf_proposal (lp : ikev2_proposal) : bool :=
  (length (transforms lp) =? Z.to_nat IKEv2_TRANS_TYPE_ROOF)%nat
  && forallb wf_transforms (transforms lp)
  && negb (type_required lp IKEv2_TRANS_TYPE_INTEG && type_optional lp IKEv2_TRANS_TYPE_INTEG).

(** The array may be longer than the proposals in use. *)
Definition wf_proposals (local : ikev2_proposals) : bool :=
  (1 <=? props_roof local) && (props_roof local <=? Z.of_nat (length (proposal local)))
  && forallb wf_proposal (drop 1 (take (Z.to_nat (props_roof local)) (proposal local))).

(** * Sets of types *)

Definition type_set (f : Z -> bool) : Z :=
  fold_right (fun type s => if f type then Z.lor (LELEM type) s else s) 0 trans_types.

Lemma testbit_LELEM type i : 0 <= type -> 0 <= i -> Z.testbit (LELEM type) i = (type =? i).
Proof.
  intros Ht Hi. unfold LELEM. rewrite Z.shiftl_spec by done. destruct (Z.eqb_spec type i) as [->|Hne].
  - by rewrite Z.sub_diag.
  - destruct (Z.lt_ge_cases i type); [apply Z.testbit_neg_r; lia|].
    apply Z.bits_above_log2; [lia|]. change (Z.log2 1) with 0. lia.
Qed.

Lemma testbit_type_set f i : 0 <= i -> Z.testbit (type_set f) i = bool_decide (i ∈ trans_types) && f i.
Proof.
  intros Hi. unfold type_set. assert (Forall (Z.le 0) trans_types) as H by by_decide. revert H.
  generalize trans_types as l. induction l as [|t l IH]; intros Hl; [by rewrite Z.bits_0|].
  apply Forall_cons in Hl as [Ht Hl]. specialize (IH Hl). cbn [fold_right].
  assert (bool_decide (i ∈ t :: l) = (t =? i) || bool_decide (i ∈ l)) as ->.
  { destruct (Z.eqb_spec t i); [subst; apply bool_decide_eq_true; left|].
    apply bool_decide_ext. rewrite elem_of_cons. naive_solver. }
  destruct (f t) eqn:Hf; rewrite ?Z.lor_spec, ?testbit_LELEM, IH by done.
  all: destruct (Z.eqb_spec t i); [subst; rewrite Hf|]; by destruct (bool_decide _).
Qed.

Lemma type_set_ext f g : (forall type, type ∈ trans_types -> f type = g type) -> type_set f = type_set g.
Proof.
  intros H. apply Z.bits_inj'. intros i Hi. rewrite !testbit_type_set by done.
  destruct (bool_decide_reflect (i ∈ trans_types)); [|done]. by rewrite H.
Qed.

Lemma type_set_none : type_set (fun _ => false) = 0.
Proof. done. Qed.

Lemma type_set_add f type :
  type ∈ trans_types -> Z.lor (type_set f) (LELEM type) = type_set (fun ty => f ty || (ty =? type)).
Proof.
  intros Ht. assert (0 <= type) by (apply elem_of_seqZ in Ht; lia). apply Z.bits_inj'. intros i Hi.
  rewrite Z.lor_spec, !testbit_type_set, testbit_LELEM, (Z.eqb_sym type) by done.
  destruct (Z.eqb_spec i type) as [->|]; [rewrite bool_decide_eq_true_2 by done; by destruct (f type)|].
  by destruct (bool_decide (i ∈ trans_types)), (f i).
Qed.

Lemma type_cases type : type ∈ trans_types -> type = 1 \/ type = 2 \/ type = 3 \/ type = 4 \/ type = 5.
Proof. intros H. apply elem_of_seqZ in H. unfold IKEv2_TRANS_TYPE_ROOF, IKEv2_TRANS_TYPE_ESN in H. lia. Qed.

Lemma type_set_zero f : type_set f = 0 <-> forall type, type ∈ trans_types -> f type = false.
Proof.
  split.
  - intros H type Ht. assert (0 <= type) by (apply elem_of_seqZ in Ht; lia).
    pose proof (testbit_type_set f type ltac:(done)) as Hb. rewrite H, Z.bits_0, bool_decide_eq_true_2 in Hb by done. done.
  - intros H. rewrite <- type_set_none. by apply type_set_ext.
Qed.

Lemma type_set_without f g :
  without (type_set f) (type_set g) = type_set (fun ty => f ty && negb (g ty)).
Proof.
  apply Z.bits_inj'. intros i Hi. unfold without. rewrite Z.land_spec, Z.lnot_spec, !testbit_type_set by done.
  by destruct (bool_decide _), (f i), (g i).
Qed.

Lemma type_set_land f g : Z.land (type_set f) (type_set g) = type_set (fun ty => f ty && g ty).
Proof.
  apply Z.bits_inj'. intros i Hi. rewrite Z.land_spec, !testbit_type_set by done.
  by destruct (bool_decide _), (f i), (g i).
Qed.

(** * The matches that the code keeps *)

Definition match_of (h : option nat) (lp : ikev2_proposal) (remote_protoid : Z) (rts : list typed_transform)
  : ikev2_proposal_match :=
  mk_match (type_set (type_required lp)) (type_set (type_optional lp)) (type_set (type_matches lp remote_protoid rts))
    (h :: ((fun type => Some (preferred lp remote_protoid rts type)) <$> trans_types)).

Lemma position_le {A} (f : A -> bool) l : (position f l <= length l)%nat.
Proof. induction l as [|a l IH]; cbn; [done|]. case_match; lia. Qed.

Lemma existsb_position {A} (f : A -> bool) l : existsb f l = bool_decide (position f l < length l)%nat.
Proof.
  induction l as [|a l IH]; [done|]. cbn [existsb position length]. destruct (f a); cbn [orb].
  - symmetry. apply bool_decide_eq_true. lia.
  - rewrite IH. apply bool_decide_ext. lia.
Qed.

Lemma position_or {A} (f g : A -> bool) l :
  position (fun a => f a || g a) l = (position f l `min` position g l)%nat.
Proof. induction l as [|a l IH]; [done|]. cbn [position]. destruct (f a), (g a); cbn [orb]; lia. Qed.

Lemma position_ext {A} (f g : A -> bool) l : (forall a, f a = g a) -> position f l = position g l.
Proof. intros H. induction l as [|a l IH]; [done|]. cbn [position]. by rewrite H, IH. Qed.

Lemma position_none {A} (f : A -> bool) l : (forall a, f a = false) -> position f l = length l.
Proof. intros H. induction l as [|a l IH]; [done|]. cbn [position length]. by rewrite H, IH. Qed.

Lemma better_match_position rt best l : forall i,
  (best <= i + length l)%nat ->
  better_match rt best i l =
    let p := (position (fun lt => same_transform lt rt) l + i)%nat in if decide (p < best)%nat then Some p else None.
Proof.
  induction l as [|lt l IH]; intros i Hb; cbn [better_match position length] in *.
  { rewrite decide_False by lia. done. }
  destruct (decide (best <= i)%nat).
  { rewrite decide_False by (unfold same_transform; case_match; lia). done. }
  fold (same_transform lt rt). destruct (same_transform lt rt).
  - by rewrite decide_True by lia.
  - rewrite IH by lia. cbn zeta. by rewrite Nat.add_succ_comm.
Qed.

Lemma offered_snoc rts type ty rt lt :
  offered (rts ++ [(ty, rt)]) type lt = offered rts type lt || ((ty =? type) && same_transform lt rt).
Proof. unfold offered. rewrite existsb_app. cbn [existsb]. by rewrite orb_false_r. Qed.

(** One more remote transform. *)
Lemma preferred_snoc lp pid rts type ty rt :
  preferred lp pid (rts ++ [(ty, rt)]) type =
  if (protoid lp =? pid) && (ty =? type)
  then (preferred lp pid rts type `min` position (fun lt => same_transform lt rt) (local_transforms lp type))%nat
  else preferred lp pid rts type.
Proof.
  unfold preferred. destruct (protoid lp =? pid); [|done]. cbn [andb]. destruct (Z.eqb_spec ty type) as [->|Hne].
  - rewrite <- position_or. apply position_ext. intros lt. by rewrite offered_snoc, Z.eqb_refl.
  - apply position_ext. intros lt. by rewrite offered_snoc, (proj2 (Z.eqb_neq _ _)), orb_false_r by done.
Qed.

Lemma preferred_le lp pid rts type : (preferred lp pid rts type <= length (local_transforms lp type))%nat.
Proof. unfold preferred. case_match; [apply position_le|done]. Qed.

(** A type has a common transform exactly when the preferred one is not the sentinel. *)
Lemma type_matches_preferred lp pid rts type :
  type_matches lp pid rts type = bool_decide (preferred lp pid rts type < length (local_transforms lp type))%nat.
Proof.
  unfold type_matches, preferred. rewrite existsb_position. destruct (protoid lp =? pid); [done|].
  symmetry. apply bool_decide_eq_false. lia.
Qed.

Lemma valid_prefix_le l : (length (valid_prefix l) <= length l)%nat.
Proof. induction l as [|t l IH]; cbn; [done|]. case_match; cbn; lia. Qed.

Lemma valid_prefix_end l :
  length (valid_prefix l) = length l \/ exists t, l !! length (valid_prefix l) = Some t /\ tr_valid t = false.
Proof.
  induction l as [|t l IH]; [by left|]. cbn [valid_prefix]. destruct (tr_valid t) eqn:Ht; [|right; by exists t].
  cbn [length]. destruct IH as [->|(u&Hu&Hv)]; [by left|]. right. exists u. done.
Qed.

(** The iterator stops at an invalid element of the array. *)
Lemma wf_transforms_sentinel ts :
  wf_transforms ts = true ->
  (length (FOR_EACH_TRANSFORM ts) < transform_elems)%nat /\
  exists t, ts !! length (FOR_EACH_TRANSFORM ts) = Some t /\ tr_valid t = false.
Proof.
  unfold wf_transforms. rewrite andb_true_iff, Nat.eqb_eq. intros [Hl Hs].
  unfold FOR_EACH_TRANSFORM. pose proof (valid_prefix_le (take sentinel_transform ts)) as Hle.
  pose proof (valid_prefix_end (take sentinel_transform ts)) as He.
  rewrite length_take, Hl in Hle, He. change (sentinel_transform `min` transform_elems)%nat with 4%nat in *.
  change transform_elems with 5%nat. split; [lia|]. destruct He as [->|(t&Ht&Hv)].
  - change sentinel_transform with 4%nat in Hs. destruct (ts !! 4%nat) as [t|]; [|done]. exists t.
    by apply negb_true_iff in Hs.
  - exists t. apply lookup_take_Some in Ht as [Ht _]. done.
Qed.

Lemma wf_proposal_inv lp :
  wf_proposal lp = true ->
  length (transforms lp) = 6%nat /\
  (forall type, type ∈ trans_types -> exists ts, transforms lp !! Z.to_nat type = Some ts /\
    wf_transforms ts = true /\ local_transforms lp type = FOR_EACH_TRANSFORM ts) /\
  (forall type, type_required lp type && type_optional lp type = false).
Proof.
  unfold wf_proposal. rewrite !andb_true_iff, Nat.eqb_eq. intros [[Hl Hw] Hi]. split; [done|]. split.
  - intros type Ht. apply elem_of_seqZ in Ht. unfold IKEv2_TRANS_TYPE_ROOF, IKEv2_TRANS_TYPE_ESN in Ht.
    change (Z.to_nat IKEv2_TRANS_TYPE_ROOF) with 6%nat in Hl.
    destruct (lookup_lt_is_Some_2 (transforms lp) (Z.to_nat type)) as [ts Hts]; [lia|]. exists ts. split; [done|].
    split; [|unfold local_transforms; by rewrite Hts]. rewrite forallb_forall in Hw. apply Hw.
    apply list_elem_of_In. by eapply list_elem_of_lookup_2.
  - intros type. destruct (Z.eqb_spec type IKEv2_TRANS_TYPE_INTEG) as [->|Hne]; [by apply negb_true_iff|].
    apply andb_false_iff. right. unfold type_optional, is_optional. rewrite (proj2 (Z.eqb_neq _ _)) by done.
    induction (local_transforms lp type); [done|]. done.
Qed.

(** * The pass over one proposal *)

Lemma note_locals type l : forall r o,
  fold_left (note_local type) l (r, o) =
  (if existsb (fun t => negb (is_optional type t)) l then Z.lor r (LELEM type) else r,
   if existsb (is_optional type) l then Z.lor o (LELEM type) else o).
Proof.
  assert (forall x y, Z.lor (Z.lor x y) y = Z.lor x y) as Hd by (intros; by rewrite <- Z.lor_assoc, Z.lor_diag).
  induction l as [|t l IH]; intros r o; [done|]. cbn [fold_left existsb]. unfold note_local at 2.
  fold (is_optional type t). destruct (is_optional type t); cbn [fst snd negb orb]; rewrite IH.
  all: destruct (existsb _ l), (existsb _ l); by rewrite ?Hd.
Qed.

(** The sets that the first block has collected when it comes to [type], and after it. *)
Definition before (type : Z) (f : Z -> bool) : Z := type_set (fun ty => f ty && (ty <? type)).

Lemma before_add (f : Z -> bool) type :
  type ∈ trans_types -> (if f type then Z.lor (before type f) (LELEM type) else before type f) = before (type + 1) f.
Proof.
  intros Ht. unfold before. destruct (f type) eqn:Hf; [rewrite type_set_add by done|]; apply type_set_ext; intros ty _.
  all: destruct (Z.eqb_spec ty type) as [->|].
  all: rewrite ?Hf, ?orb_true_r, ?orb_false_r; cbn [andb]; try done.
  - symmetry. apply Z.ltb_lt. lia.
  - f_equal. apply eq_true_iff_eq. rewrite !Z.ltb_lt. lia.
  - f_equal. apply eq_true_iff_eq. rewrite !Z.ltb_lt. lia.
Qed.

Lemma init_type_ok {E} lp type m mt :
  wf_proposal lp = true -> type ∈ trans_types ->
  @init_type E lp (mk_match (before type (type_required lp)) (before type (type_optional lp)) m mt) type =
  Ok (mk_match (before (type + 1) (type_required lp)) (before (type + 1) (type_optional lp)) m
        (<[Z.to_nat type := Some (length (local_transforms lp type))]> mt)).
Proof.
  intros Hw Ht. apply wf_proposal_inv in Hw as (_&Hts&Hdis). destruct (Hts type Ht) as (ts&Hl&Hwt&Hlt).
  unfold init_type. rewrite Hl. run_ok. cbn [required_local_transform_types optional_local_transform_types].
  rewrite note_locals. destruct (wf_transforms_sentinel ts Hwt) as (_&t&Htl&Hv). rewrite Htl. run_ok.
  rewrite Hv. run_ok. rewrite <- Hlt. fold (type_required lp type) (type_optional lp type).
  rewrite !(before_add _ type Ht).
  assert (Z.land (before (type + 1) (type_required lp)) (before (type + 1) (type_optional lp)) = 0) as ->; [|by run_ok].
  unfold before. rewrite type_set_land. apply type_set_zero. intros ty _. specialize (Hdis ty).
  destruct (type_required lp ty), (type_optional lp ty); try done; by rewrite ?andb_false_r.
Qed.

Lemma before_end f : before IKEv2_TRANS_TYPE_ROOF f = type_set f.
Proof.
  apply type_set_ext. intros ty Hty. apply elem_of_seqZ in Hty. rewrite (proj2 (Z.ltb_lt _ _)) by lia. apply andb_true_r.
Qed.

Lemma before_first f : before 1 f = 0.
Proof.
  apply type_set_zero. intros ty Hty. apply elem_of_seqZ in Hty. rewrite (proj2 (Z.ltb_ge _ _)) by lia. apply andb_false_r.
Qed.

Lemma preferred_nothing lp pid type : preferred lp pid [] type = length (local_transforms lp type).
Proof. unfold preferred. case_match; [by apply position_none|done]. Qed.

Lemma init_types_ok {E} lp pid h mt :
  wf_proposal lp = true -> length mt = 5%nat ->
  @fold_outcome E _ _ (init_type lp) (mk_match 0 0 0 (h :: mt)) trans_types = Ok (match_of h lp pid []).
Proof.
  intros Hw Hl. rewrite <- (before_first (type_required lp)) at 1. rewrite <- (before_first (type_optional lp)).
  change trans_types with [1; 2; 3; 4; 5]. cbn [fold_outcome].
  do 5 (rewrite (init_type_ok lp) by (done || by_decide); rewrite bind_Ok; cbn [Z.add Pos.add Pos.succ]).
  change 6 with IKEv2_TRANS_TYPE_ROOF. rewrite !before_end. unfold match_of. f_equal. f_equal.
  - rewrite before_first. symmetry. apply type_set_zero. intros ty _. rewrite type_matches_preferred, preferred_nothing.
    apply bool_decide_eq_false. lia.
  - do 5 (destruct mt as [|? mt]; [done|]). destruct mt; [|done].
    change trans_types with [1; 2; 3; 4; 5]. cbn [fmap list_fmap]. by rewrite !preferred_nothing.
Qed.

Section Pass.
Context (local : ikev2_proposals) (pid : Z).

(** The entry of a local proposal says how it compares with the transforms [rts]. *)
Definition tracked (rts : list typed_transform) (ms : list ikev2_proposal_match) (n : Z) : Prop :=
  exists lp h, proposal local !! Z.to_nat n = Some lp /\ wf_proposal lp = true /\
    ms !! Z.to_nat n = Some (match_of h lp pid rts).

(** The table of matches that [ikev2_process_sa_payload] allocates. *)
Definition table_shape (ms : list ikev2_proposal_match) : Prop :=
  Z.of_nat (length ms) = props_roof local /\ Forall (fun m => length (matching_transform m) = 6%nat) ms.

(** The table differs only in the entries of [l]. *)
Definition only_entries (l : list Z) (ms ms' : list ikev2_proposal_match) : Prop :=
  table_shape ms' /\ forall n, 0 <= n -> n ∉ l -> ms' !! Z.to_nat n = ms !! Z.to_nat n.

Lemma tracked_other l rts ms ms' n :
  only_entries l ms ms' -> 0 <= n -> n ∉ l -> tracked rts ms n -> tracked rts ms' n.
Proof. intros [_ H] Hn Hl (lp&h&?&?&Hm). exists lp, h. by rewrite H. Qed.

Lemma only_entries_trans k l ms ms1 ms2 :
  only_entries [k] ms ms1 -> only_entries l ms1 ms2 -> only_entries (k :: l) ms ms2.
Proof.
  intros [_ H1] [Hs H2]. split; [done|]. intros n Hn Hl. apply not_elem_of_cons in Hl as [Hk Hl].
  rewrite H2, H1 by (done || by rewrite list_elem_of_singleton). done.
Qed.

Lemma only_entries_insert k m ms :
  0 <= k -> table_shape ms -> length (matching_transform m) = 6%nat ->
  only_entries [k] ms (<[Z.to_nat k := m]> ms).
Proof.
  intros Hk [Hl Hs] Hm. split.
  - split; [by rewrite length_insert|]. by apply Forall_insert.
  - intros n Hn Hne. rewrite list_elem_of_singleton in Hne. apply list_lookup_insert_ne. lia.
Qed.

Lemma match_of_shape h lp rts : length (matching_transform (match_of h lp pid rts)) = 6%nat.
Proof. done. Qed.

Hypothesis wf_local : wf_proposals local = true.

Lemma local_lookup n :
  1 <= n < props_roof local -> exists lp, proposal local !! Z.to_nat n = Some lp /\ wf_proposal lp = true.
Proof.
  intros Hn. unfold wf_proposals in wf_local. rewrite !andb_true_iff, !Z.leb_le, forallb_forall in wf_local.
  destruct wf_local as [[H1 H2] H3]. destruct (lookup_lt_is_Some_2 (proposal local) (Z.to_nat n)) as [lp Hlp]; [lia|].
  exists lp. split; [done|]. apply H3, list_elem_of_In, list_elem_of_lookup. exists (Z.to_nat n - 1)%nat.
  rewrite lookup_drop. replace (1 + (Z.to_nat n - 1))%nat with (Z.to_nat n) by lia. by rewrite lookup_take_lt by lia.
Qed.

Lemma init_match_ok {E} ms n :
  table_shape ms -> 1 <= n < props_roof local ->
  exists ms', @init_match E local ms n = Ok ms' /\ only_entries [n] ms ms' /\ tracked [] ms' n.
Proof.
  intros Hs Hn. destruct (local_lookup n Hn) as (lp&Hlp&Hw). pose proof Hs as [Hl Hf].
  destruct (lookup_lt_is_Some_2 ms (Z.to_nat n)) as [m Hm]; [lia|].
  pose proof (Forall_lookup_1 _ _ _ _ Hf Hm) as Hmt. cbn in Hmt.
  destruct (matching_transform m) as [|h mt] eqn:Hmm; [done|]. injection Hmt as Hmt.
  unfold init_match. rewrite Hlp, Hm. run_ok. rewrite Hmm, (init_types_ok lp pid h mt Hw Hmt). run_ok.
  eexists. split; [done|]. split; [by apply only_entries_insert; [lia| |]|].
  exists lp, h. split; [done|]. split; [done|]. apply list_lookup_insert_eq. lia.
Qed.

Lemma init_matches_ok {E} l : forall ms,
  table_shape ms -> NoDup l -> Forall (fun n => 1 <= n < props_roof local) l ->
  exists ms', @fold_outcome E _ _ (init_match local) ms l = Ok ms' /\ only_entries l ms ms' /\ Forall (tracked [] ms') l.
Proof.
  induction l as [|n l IH]; intros ms Hs Hd Hl; [by exists ms|].
  apply NoDup_cons in Hd as [Hn Hd]. apply Forall_cons in Hl as [Hr Hl]. cbn [fold_outcome].
  destruct (init_match_ok (E := E) ms n Hs Hr) as (ms1&->&H1&T1). run_ok.
  destruct (IH ms1 (proj1 H1) Hd Hl) as (ms2&->&H2&T2). exists ms2. split; [done|].
  split; [by eapply only_entries_trans|]. constructor; [|done]. eapply tracked_other; eauto. lia.
Qed.

(** ** One remote transform *)

Lemma matching_lookup h lp rts type :
  type ∈ trans_types -> matching_transform (match_of h lp pid rts) !! Z.to_nat type = Some (Some (preferred lp pid rts type)).
Proof.
  intros Ht. by destruct (type_cases type Ht) as [-> |[-> |[-> |[-> | ->]]]].
Qed.

(** The entry after a comparison. *)
Lemma match_of_snoc h lp rts type rt :
  type ∈ trans_types ->
  let best := preferred lp pid (rts ++ [(type, rt)]) type in
  (best < preferred lp pid rts type)%nat ->
  match_of h lp pid (rts ++ [(type, rt)]) =
  mk_match (type_set (type_required lp)) (type_set (type_optional lp))
    (Z.lor (type_set (type_matches lp pid rts)) (LELEM type))
    (<[Z.to_nat type := Some best]> (matching_transform (match_of h lp pid rts))).
Proof.
  intros Ht best Hb. assert (forall ty, ty <> type -> preferred lp pid (rts ++ [(type, rt)]) ty = preferred lp pid rts ty) as Hne.
  { intros ty Hne. rewrite preferred_snoc, (proj2 (Z.eqb_neq type ty)), andb_false_r by done. done. }
  unfold match_of at 1. f_equal.
  - rewrite type_set_add by done. apply type_set_ext. intros ty _. rewrite !type_matches_preferred.
    destruct (Z.eqb_spec ty type) as [->|]; [|by rewrite Hne, orb_false_r].
    rewrite orb_true_r. apply bool_decide_eq_true. pose proof (preferred_le lp pid rts type). unfold best in Hb. lia.
  - unfold best in *. destruct (type_cases type Ht) as [-> |[-> |[-> |[-> | ->]]]];
      change trans_types with [1; 2; 3; 4; 5]; cbn [matching_transform match_of fmap list_fmap];
      rewrite ?(Hne 1), ?(Hne 2), ?(Hne 3), ?(Hne 4), ?(Hne 5) by done; done.
Qed.
Lemma match_of_same h lp rts type rt :
  preferred lp pid (rts ++ [(type, rt)]) type = preferred lp pid rts type ->
  match_of h lp pid (rts ++ [(type, rt)]) = match_of h lp pid rts.
Proof.
  intros Heq. assert (forall ty, preferred lp pid (rts ++ [(type, rt)]) ty = preferred lp pid rts ty) as Hp.
  { intros ty. destruct (decide (ty = type)) as [->|Hne]; [done|].
    rewrite preferred_snoc, (proj2 (Z.eqb_neq type ty)), andb_false_r by done. done. }
  unfold match_of. f_equal.
  - apply type_set_ext. intros ty _. by rewrite !type_matches_preferred, Hp.
  - f_equal. apply list_fmap_ext. intros _ ty _. by rewrite Hp.
Qed.

(** The types that local proposal [n] matched are in the set [g]. *)
Definition recorded (rts : list typed_transform) (g : Z -> bool) (n : Z) : Prop :=
  forall lp type, proposal local !! Z.to_nat n = Some lp -> type ∈ trans_types ->
    type_matches lp pid rts type = true -> g type = true.

Lemma recorded_mono rts (g g' : Z -> bool) n :
  (forall ty, g ty = true -> g' ty = true) -> recorded rts g n -> recorded rts g' n.
Proof. intros H Hr lp ty Hlp Ht Hm. eauto. Qed.

Lemma match_transform_ok {E} rts type rt g ms n :
  table_shape ms -> 1 <= n < props_roof local -> type ∈ trans_types -> tracked rts ms n -> recorded rts g n ->
  exists g' ms', @match_transform E local pid type rt (type_set g, ms) n = Ok (type_set g', ms') /\
    only_entries [n] ms ms' /\ tracked (rts ++ [(type, rt)]) ms' n /\ recorded (rts ++ [(type, rt)]) g' n /\
    forall ty, g ty = true -> g' ty = true.
Proof.
  intros Hs Hn Ht (lp&h&Hlp&Hw&Hm) Hrec. unfold match_transform. rewrite Hlp. run_ok.
  assert (preferred lp pid (rts ++ [(type, rt)]) type = preferred lp pid rts type ->
    exists g' ms', Ok (E := E) (type_set g, ms) = Ok (type_set g', ms') /\
    only_entries [n] ms ms' /\ tracked (rts ++ [(type, rt)]) ms' n /\ recorded (rts ++ [(type, rt)]) g' n /\
    forall ty, g ty = true -> g' ty = true) as Hsame.
  { intros Heq. pose proof (match_of_same h lp rts type rt Heq) as Hmo. exists g, ms. split; [done|].
    split; [by split|]. split; [exists lp, h; by rewrite Hmo|]. split; [|done].
    intros lp' ty Hlp' Hty Htm. rewrite Hlp in Hlp'. injection Hlp' as <-. apply (Hrec lp ty Hlp Hty).
    assert (type_set (type_matches lp pid (rts ++ [(type, rt)])) = type_set (type_matches lp pid rts)) as Hset
      by (injection Hmo; done).
    assert (0 <= ty) by (apply elem_of_seqZ in Hty; lia). pose proof (f_equal (fun s => Z.testbit s ty) Hset) as Hb.
    cbn beta in Hb. rewrite !testbit_type_set, !bool_decide_eq_true_2 in Hb by done. cbn in Hb. by rewrite <- Hb. }
  pose proof (preferred_snoc lp pid rts type type rt) as Hsn. rewrite Z.eqb_refl, andb_true_r in Hsn.
  destruct (protoid lp =? pid) eqn:Hpid; [|by apply Hsame].
  destruct (proj1 (proj2 (wf_proposal_inv lp Hw)) type Ht) as (lts&Hl&Hwt&Hlt). rewrite Hl, Hm. run_ok.
  rewrite matching_lookup by done. cbn [mjoin option_join]. run_ok.
  pose proof (preferred_le lp pid rts type) as Hle. destruct (wf_transforms_sentinel lts Hwt) as [Hlen _].
  rewrite bool_decide_eq_true_2 by (rewrite Hlt in Hle; lia). run_ok. rewrite <- Hlt.
  rewrite better_match_position by lia. rewrite Nat.add_0_r. cbn zeta.
  set (p := position _ _) in *. destruct (decide (p < preferred lp pid rts type)%nat) as [Hlt'|Hge]; [|apply Hsame; lia].
  assert (preferred lp pid (rts ++ [(type, rt)]) type = p) as Hp by lia.
  pose proof (match_of_snoc h lp rts type rt Ht) as Hmo. cbn zeta in Hmo. rewrite Hp in Hmo. specialize (Hmo Hlt').
  rewrite type_set_add by done. eexists _, _. split; [done|].
  change (required_local_transform_types (match_of h lp pid rts)) with (type_set (type_required lp)).
  change (optional_local_transform_types (match_of h lp pid rts)) with (type_set (type_optional lp)).
  change (matched_local_transform_types (match_of h lp pid rts)) with (type_set (type_matches lp pid rts)).
  rewrite <- Hmo. split; [apply only_entries_insert; [lia|done|apply match_of_shape]|].
  split; [exists lp, h; split; [done|]; split; [done|]; apply list_lookup_insert_eq; destruct Hs; lia|].
  split; [|intros ty ->; done].
  intros lp' ty Hlp' Hty Htm. rewrite Hlp in Hlp'. injection Hlp' as <-. destruct (Z.eqb_spec ty type) as [->|Hne]; [apply orb_true_r|].
  rewrite (Hrec lp ty Hlp Hty); [done|]. rewrite type_matches_preferred in Htm |- *.
  rewrite preferred_snoc, (proj2 (Z.eqb_neq type ty)), andb_false_r in Htm by done. done.
Qed.

Lemma match_transforms_ok {E} rts type rt l : forall g ms,
  table_shape ms -> NoDup l -> Forall (fun n => 1 <= n < props_roof local) l -> type ∈ trans_types ->
  Forall (tracked rts ms) l -> Forall (recorded rts g) l ->
  exists g' ms', @fold_outcome E _ _ (match_transform local pid type rt) (type_set g, ms) l = Ok (type_set g', ms') /\
    only_entries l ms ms' /\ Forall (tracked (rts ++ [(type, rt)]) ms') l /\ Forall (recorded (rts ++ [(type, rt)]) g') l /\
    forall ty, g ty = true -> g' ty = true.
Proof.
  induction l as [|n l IH]; intros g ms Hs Hd Hl Ht Htr Hre; [by exists g, ms|].
  apply NoDup_cons in Hd as [Hn Hd]. apply Forall_cons in Hl as [Hr Hl]. apply Forall_cons in Htr as [T0 Htr].
  apply Forall_cons in Hre as [R0 Hre]. cbn [fold_outcome].
  destruct (match_transform_ok (E := E) rts type rt g ms n Hs Hr Ht T0 R0) as (g1&ms1&->&O1&T1&R1&G1). run_ok.
  destruct (IH g1 ms1 (proj1 O1) Hd Hl Ht) as (g2&ms2&->&O2&T2&R2&G2).
  - apply Forall_forall. intros k Hk. rewrite Forall_forall in Htr, Hl. eapply tracked_other; [exact O1| | |by apply Htr].
    + apply Hl in Hk. lia.
    + rewrite list_elem_of_singleton. by intros ->.
  - eapply Forall_impl; [exact Hre|]. intros k. by apply recorded_mono.
  - exists g2, ms2. split; [done|]. split; [by eapply only_entries_trans|].
    split; [constructor; [eapply tracked_other; eauto; lia|done]|]. split; [|by eauto].
    constructor; [|done]. eapply recorded_mono; [exact G2|done].
Qed.
End Pass.

(** * Reading *)

(** Split the members of a structure. *)
Ltac split_members :=
  repeat match goal with H : Forall2 _ (_ :: _) (_ :: _) |- _ => apply Forall2_cons in H as [? H] end.

Lemma enum_name_range {E} (p : enum_range) n s :
  @enum_name E [p] n = Ok (Some s) -> en_first p <= n <= en_last p.
Proof.
  cbn [enum_name]. destruct (range_ok p); [|done]. cbn [passert]. run_ok.
  destruct (Z.leb_spec (en_first p) n), (Z.leb_spec n (en_last p)); cbn [andb]; done.
Qed.

Lemma trans_known ins obj st a b c type d id st' :
  in_struct ikev2_trans_desc ins obj st = Ok ([a; b; c; FNum type; d; id], st') -> type ∈ trans_types.
Proof.
  intros H. apply in_struct_known in H; [|done]. cbn [removelast sd_fields ikev2_trans_desc ikev2trans_fields] in H.
  split_members. match goal with H : member_known _ (FNum type) |- _ => destruct (H eq_refl) as (n&s&[= <-]&Hn) end.
  apply enum_name_range in Hn. apply elem_of_seqZ. cbn [en_first en_last] in Hn. unfold IKEv2_TRANS_TYPE_ROOF, IKEv2_TRANS_TYPE_ESN. lia.
Qed.

Lemma attr_known ins obj st type lv st' :
  in_struct ikev2_trans_attr_desc ins obj st = Ok ([FNum type; lv], st') -> type = Z.lor IKEv2_KEY_LENGTH ISAKMP_ATTR_AF_TV.
Proof.
  intros H. apply in_struct_known in H; [|done]. cbn [removelast sd_fields ikev2_trans_attr_desc ikev2_trans_attr_fields] in H.
  split_members. match goal with H : member_known _ (FNum type) |- _ => destruct (H eq_refl) as (n&s&[= <-]&Hn) end.
  apply enum_name_range in Hn. cbn [en_first en_last] in Hn.
  change (Z.lor IKEv2_KEY_LENGTH ISAKMP_ATTR_AF_TV) with 32782. lia.
Qed.

Lemma read_transform_type {E} prop_pbs trans_pbs attr_pbs ps type rt ps' :
  @read_transform E prop_pbs trans_pbs attr_pbs ps = Ok (inr (type, rt), ps') -> type ∈ trans_types.
Proof.
  unfold read_transform. intros H. destruct (in_struct _ _ _ _) as [[vs ps1]| |] eqn:Hin; [|done|done].
  destruct vs as [|[?|?] [|[?|?] [|[?|?] [|[ty|?] [|[?|?] [|[id|?] [|]]]]]]]; try done.
  apply trans_known in Hin. destruct (ty =? 0), (IKEv2_TRANS_TYPE_ROOF <=? ty); try done. inv_ok.
  case_match; inv_ok. case_match; by simplify_eq.
Qed.

(** * One pass is enough *)

Section OnePass.
Context (local : ikev2_proposals) (pid : Z) (wf_local : wf_proposals local = true).

Lemma range_valid base bound :
  let range := FOR_EACH_PROPOSAL_IN_RANGE local base bound in
  NoDup range /\ Forall (fun n => 1 <= n < props_roof local) range.
Proof.
  cbn zeta. unfold FOR_EACH_PROPOSAL_IN_RANGE. split; [apply NoDup_seqZ|]. apply Forall_forall.
  intros n Hn. apply elem_of_seqZ in Hn. destruct (Z.ltb_spec 0 base); lia.
Qed.

Lemma type_proposed_snoc rts type rt :
  type ∈ trans_types ->
  Z.lor (type_set (type_proposed rts)) (LELEM type) = type_set (type_proposed (rts ++ [(type, rt)])).
Proof.
  intros Ht. rewrite type_set_add by done. apply type_set_ext. intros ty _. unfold type_proposed.
  rewrite existsb_app. cbn [existsb]. by rewrite orb_false_r, (Z.eqb_sym ty).
Qed.

(** What the loop over the transforms makes of those that [read_transforms] finds. *)
Definition loop_result (range : list Z) (rts : list typed_transform) (ms : list ikev2_proposal_match)
    {E} (read : outcome E ((Z + list typed_transform) * pstate))
    (loop : outcome E ((Z + Z * Z) * list ikev2_proposal_match * pstate)) : Prop :=
  match read with
  | Ok (inl code, ps') => exists ms', loop = Ok (inl code, ms', ps') /\ table_shape local ms'
  | Ok (inr more, ps') =>
      exists g ms', loop = Ok (inr (type_set (type_proposed (rts ++ more)), type_set g), ms', ps') /\
        table_shape local ms' /\ Forall (tracked local pid (rts ++ more) ms') range /\
        Forall (recorded local pid (rts ++ more) g) range
  | Ugh e => loop = Ugh e
  | Abort => loop = Abort
  end.

Lemma transforms_loop_ok {E} prop_pbs trans_pbs attr_pbs range num : forall rts first g ms ps,
  NoDup range -> Forall (fun n => 1 <= n < props_roof local) range -> table_shape local ms ->
  Forall (tracked local pid rts ms) range -> Forall (recorded local pid rts g) range ->
  loop_result range rts ms (read_transforms (E := E) num prop_pbs trans_pbs attr_pbs first ps)
    (transforms_loop num prop_pbs trans_pbs attr_pbs pid local range (type_set (type_proposed rts)) (type_set g) first ms ps).
Proof.
  induction num as [|num IH]; intros rts first g ms ps Hd Hr Hs Ht Hre; cbn [read_transforms transforms_loop].
  { cbn. rewrite app_nil_r. by exists g, ms. }
  destruct (read_transform prop_pbs trans_pbs attr_pbs ps) as [[[code|[type rt]] ps1]| |] eqn:Hread; try done.
  { run_ok. cbn. by exists ms. }
  apply read_transform_type in Hread. run_ok. destruct (note_integrity first type (tr_id rt)) as [first'|].
  2: { cbn. by exists ms. }
  destruct (match_transforms_ok (E := E) local pid rts type rt range g ms Hs Hd Hr Hread Ht Hre) as (g1&ms1&->&O1&T1&R1&_).
  run_ok. rewrite (type_proposed_snoc _ _ rt) by done.
  specialize (IH (rts ++ [(type, rt)]) first' g1 ms1 ps1 Hd Hr (proj1 O1) T1 R1). unfold loop_result in *.
  destruct (read_transforms num prop_pbs trans_pbs attr_pbs first' ps1) as [[[code|more] ps2]| |]; try done.
  run_ok. rewrite <- app_assoc in IH. exact IH.
Qed.

Lemma accepts_sets lp rts :
  (without (type_set (type_proposed rts)) (type_set (type_matches lp pid rts)) =? 0) &&
  (without (type_set (type_required lp)) (type_set (type_matches lp pid rts)) =? 0) = accepts lp pid rts.
Proof.
  rewrite !type_set_without. apply eq_true_iff_eq. rewrite andb_true_iff, !Z.eqb_eq, !type_set_zero.
  unfold accepts. rewrite forallb_forall. split.
  - intros [H1 H2] type Ht. apply list_elem_of_In in Ht. specialize (H1 type Ht). specialize (H2 type Ht). cbn beta in H1, H2.
    destruct (type_proposed rts type), (type_required lp type), (type_matches lp pid rts type); done.
  - intros H. split; intros type Ht; apply list_elem_of_In in Ht; specialize (H type Ht); cbn beta in H;
      destruct (type_proposed rts type), (type_required lp type), (type_matches lp pid rts type); done.
Qed.

Lemma first_match_ok {E} rts ms range :
  Forall (tracked local pid rts ms) range ->
  @first_match E (type_set (type_proposed rts)) ms range = Ok (first_number (local_accepts local pid rts) range).
Proof.
  induction range as [|n range IH]; intros Ht; [done|]. apply Forall_cons in Ht as [(lp&h&Hlp&_&Hm) Ht].
  cbn [first_match]. rewrite Hm. run_ok. cbn [matched_local_transform_types required_local_transform_types match_of].
  rewrite accepts_sets. unfold first_number. cbn [List.find]. unfold local_accepts at 1. rewrite Hlp.
  destruct (accepts lp pid rts); [done|]. by apply IH.
Qed.

(** The quick check never rejects a proposal that a local one accepts. *)
Lemma quick_check rts g range :
  Forall (fun n => 1 <= n < props_roof local) range -> Forall (recorded local pid rts g) range ->
  without (type_set (type_proposed rts)) (type_set g) <> 0 -> first_number (local_accepts local pid rts) range = 0.
Proof.
  intros Hr Hre Hq. unfold first_number. destruct (List.find _ range) as [n|] eqn:Hf; [|done]. exfalso.
  apply find_some in Hf as [Hn Hacc]. apply list_elem_of_In in Hn. rewrite Forall_forall in Hre. specialize (Hre n Hn).
  unfold local_accepts in Hacc. destruct (proposal local !! Z.to_nat n) as [lp|] eqn:Hlp; [|done].
  apply Hq. rewrite type_set_without, type_set_zero. intros type Ht. unfold accepts in Hacc. rewrite forallb_forall in Hacc.
  specialize (Hacc type ltac:(by apply list_elem_of_In)). specialize (Hre lp type Hlp Ht).
  destruct (type_proposed rts type); [|done]. destruct (type_matches lp pid rts type); [by rewrite Hre|].
  by destruct (type_required lp type).
Qed.

(** [process_transforms] compares as if it had all the transforms before it started. *)
Lemma process_transforms_ok {E} prop_pbs trans_pbs attr_pbs num base bound ms ps :
  table_shape local ms ->
  let range := FOR_EACH_PROPOSAL_IN_RANGE local base bound in
  match read_transforms (E := E) (Z.to_nat num) prop_pbs trans_pbs attr_pbs (-1) ps with
  | Ok (inl code, ps') => exists ms',
      process_transforms (E := E) prop_pbs trans_pbs attr_pbs num pid local base bound ms ps = Ok (code, ms', ps') /\
      table_shape local ms'
  | Ok (inr rts, ps') => exists ms',
      process_transforms (E := E) prop_pbs trans_pbs attr_pbs num pid local base bound ms ps =
        Ok (first_number (local_accepts local pid rts) range, ms', ps') /\
      table_shape local ms' /\ Forall (tracked local pid rts ms') range
  | Ugh e => process_transforms (E := E) prop_pbs trans_pbs attr_pbs num pid local base bound ms ps = Ugh e
  | Abort => process_transforms (E := E) prop_pbs trans_pbs attr_pbs num pid local base bound ms ps = Abort
  end.
Proof.
  intros Hs range. destruct (range_valid base bound) as [Hd Hr]. fold range in Hd, Hr.
  unfold process_transforms. fold range.
  destruct (init_matches_ok local pid wf_local (E := E) range ms Hs Hd Hr) as (ms1&->&O1&T1). run_ok.
  assert (Forall (recorded local pid [] (fun _ => false)) range) as R1.
  { apply Forall_forall. intros n _ lp type _ _ Hm. rewrite type_matches_preferred, preferred_nothing in Hm.
    apply bool_decide_eq_true in Hm. lia. }
  pose proof (transforms_loop_ok (E := E) prop_pbs trans_pbs attr_pbs range (Z.to_nat num) [] (-1) (fun _ => false) ms1 ps
    Hd Hr (proj1 O1) T1 R1) as HL. unfold loop_result in HL.
  change (type_set (type_proposed [])) with 0 in HL. change (type_set (fun _ => false)) with 0 in HL.
  destruct (read_transforms _ _ _ _ _ _) as [[[code|rts] ps']|e|].
  - destruct HL as (ms'&->&Hs'). run_ok. by exists ms'.
  - destruct HL as (g&ms'&->&Hs'&T&R). run_ok. cbn [app] in *. exists ms'. split; [|done].
    destruct (Z.eqb_spec (without (type_set (type_proposed rts)) (type_set g)) 0) as [_|Hq].
    + rewrite first_match_ok by done. by run_ok.
    + by rewrite (quick_check rts g range Hr R Hq).
  - by rewrite HL.
  - by rewrite HL.
Qed.
End OnePass.
