(* ===== verification/ProposalTheorems.v ===== *)
(** The negotiation of IKEv2 proposals is correct: what [ikev2_process_sa_payload] chooses from
    any payload, its safety, and the agreement of the two ends. *)
From S2P Require Import Prelude EnumNames Constants Packet PacketSpec PacketObject PacketNest PacketDescs Stf.
From S2P Require Import PacketTheorems TrafficWire Ikev2Payloads Ikev2Proposals ProposalSpec.

(** * The reference: all proposals are read, then one is chosen *)

Record remote_proposal := mk_rp {
  rp_num : Z;
  rp_protoid : Z;
  rp_spi : ikev2_spi;
  rp_transforms : list typed_transform
}.

(** One proposal: the return code of a malformed one, or its "last" octet, the next number and
    the proposal, if it is one to compare. *)
Definition read_proposal {E} (sa_payload proposal_pbs trans_pbs attr_pbs : nat)
    (expect_ike expect_spi expect_accepted : bool) (roof next : Z) (ps : pstate)
  : outcome E ((Z + Z * Z * option remote_proposal) * pstate) :=
  match in_struct ikev2_prop_desc sa_payload (Some proposal_pbs) ps with
  | Abort => Abort
  | Ugh _ => Ok (inl syntax_failure, ps)
  | Ok ([FNum lp; FBytes _; FNum _; FNum num; FNum pid; FNum spisize; FNum numtrans], ps1) =>
      match check_propnum expect_accepted roof lp num next with
      | None => Ok (inl syntax_failure, ps1)
      | Some next =>
          if expect_ike && negb (pid =? IKEv2_SEC_PROTO_IKE) then Ok (inr (lp, next, None), ps1)
          else
            '(r, ps2) ← read_spi expect_spi pid spisize proposal_pbs ps1;
            match r with
            | inl true => Ok (inl syntax_failure, ps2)
            | inl false => Ok (inr (lp, next, None), ps2)
            | inr spi =>
                '(r, ps3) ← read_transforms (Z.to_nat numtrans) proposal_pbs trans_pbs attr_pbs (-1) ps2;
                Ok (match r with
                    | inl code => if code =? 0 then inr (lp, next, None) else inl code
                    | inr rts => inr (lp, next, Some (mk_rp num pid spi rts))
                    end, ps3)
            end
      end
  | Ok _ => Abort
  end.

Fixpoint read_proposals {E} (fuel : nat) (sa_payload proposal_pbs trans_pbs attr_pbs : nat)
    (expect_ike expect_spi expect_accepted : bool) (roof next : Z) (ps : pstate)
  : outcome E ((Z + list remote_proposal) * pstate) :=
  match fuel with
  | O => Abort
  | S fuel' =>
      '(r, ps1) ← read_proposal sa_payload proposal_pbs trans_pbs attr_pbs expect_ike expect_spi expect_accepted
                    roof next ps;
      match r with
      | inl code => Ok (inl code, ps1)
      | inr (lp, next, r) =>
          '(rest, ps2) ← (if lp =? v2_PROPOSAL_NON_LAST
                          then read_proposals fuel' sa_payload proposal_pbs trans_pbs attr_pbs
                                 expect_ike expect_spi expect_accepted roof next ps1
                          else Ok (inr [], ps1));
          Ok (match rest with inl code => inl code | inr rs => inr (option_list r ++ rs) end, ps2)
      end
  end.

Definition chosen_transform (lp : ikev2_proposal) (pid : Z) (rts : list typed_transform) (type : Z) : ikev2_transform :=
  default no_transform (default [] (transforms lp !! Z.to_nat type) !! preferred lp pid rts type).

(** The remote proposal, with the one transform of every type that the local proposal prefers. *)
Definition chosen (lp : ikev2_proposal) (r : remote_proposal) : ikev2_proposal :=
  mk_proposal (rp_num r) (rp_protoid r) (rp_spi r)
    (no_transforms :: ((fun type => <[0%nat := chosen_transform lp (rp_protoid r) (rp_transforms r) type]> no_transforms)
                         <$> trans_types)).

Definition matching (local : ikev2_proposals) (r : remote_proposal) (n : Z) : bool :=
  local_accepts local (rp_protoid r) (rp_transforms r) n.

(** The first local proposal that accepts a remote one; when an answer is processed, the one
    whose number the answer has. With it goes the first remote proposal that it accepts. *)
Definition negotiate (expect_accepted : bool) (local : ikev2_proposals) (remotes : list remote_proposal)
  : stf_status * option ikev2_proposal :=
  let numbers := if expect_accepted then rp_num <$> remotes else FOR_EACH_PROPOSAL local in
  match List.find (fun n => existsb (fun r => matching local r n) remotes) numbers with
  | None => (if expect_accepted then STF_FAIL else STF_NOTIFY v2N_NO_PROPOSAL_CHOSEN, None)
  | Some n =>
      match List.find (fun r => matching local r n) remotes, proposal local !! Z.to_nat n with
      | Some r, Some lp => (STF_OK, Some (chosen lp r))
      | _, _ => (STF_INTERNAL_ERROR, None)
      end
  end.

(** * The choice *)

Lemma matching_transform_lookup lp pid rts h type :
  wf_proposal lp = true -> type ∈ trans_types ->
  exists ts, transforms lp !! Z.to_nat type = Some ts /\
    ts !! preferred lp pid rts type = Some (chosen_transform lp pid rts type) /\
    mjoin (matching_transform (match_of h lp pid rts) !! Z.to_nat type) = Some (preferred lp pid rts type).
Proof.
  intros Hw Ht. destruct (proj1 (proj2 (wf_proposal_inv lp Hw)) type Ht) as (ts&Hts&Hwt&Hlt). exists ts.
  split; [done|]. split; [|by rewrite matching_lookup]. unfold chosen_transform. rewrite Hts. change (default [] (Some ts)) with ts.
  pose proof (preferred_le lp pid rts type) as Hle. rewrite Hlt in Hle.
  destruct (wf_transforms_sentinel ts Hwt) as [Hlen _]. unfold wf_transforms in Hwt.
  rewrite andb_true_iff, Nat.eqb_eq in Hwt. destruct Hwt as [Hl _].
  destruct (lookup_lt_is_Some_2 ts (preferred lp pid rts type)) as [t Hpt]; [lia|]. by rewrite Hpt.
Qed.

Lemma best_transforms_ok {E} lp pid rts h :
  wf_proposal lp = true ->
  @fold_outcome E _ _ (best_transform lp (match_of h lp pid rts)) (transforms no_proposal) trans_types =
  Ok (no_transforms :: ((fun type => <[0%nat := chosen_transform lp pid rts type]> no_transforms) <$> trans_types)).
Proof.
  intros Hw. assert (forall best type, type ∈ trans_types -> best !! Z.to_nat type = Some no_transforms ->
    @best_transform E lp (match_of h lp pid rts) best type =
    Ok (<[Z.to_nat type := <[0%nat := chosen_transform lp pid rts type]> no_transforms]> best)) as Hstep.
  { intros best type Ht Hb. unfold best_transform.
    destruct (matching_transform_lookup lp pid rts h type Hw Ht) as (ts&Hts&Hp&->). run_ok. rewrite Hts. run_ok.
    rewrite Hp. run_ok. rewrite Hb. by run_ok. }
  change trans_types with [1; 2; 3; 4; 5] in *. cbn [fold_outcome].
  do 5 (rewrite Hstep by (by_decide || done); rewrite bind_Ok). done.
Qed.

Lemma find_seqZ f k : forall a len, len <= Z.of_nat k ->
  match List.find f (seqZ a len) with
  | Some n => a <= n < a + len /\ f n = true /\ forall i, a <= i < n -> f i = false
  | None => forall i, a <= i < a + len -> f i = false
  end.
Proof.
  induction k as [|k IH]; intros a len Hk.
  { rewrite seqZ_nil by lia. cbn. lia. }
  destruct (decide (0 < len)) as [Hl|Hl]; [|rewrite seqZ_nil by lia; cbn; lia].
  rewrite seqZ_cons by done. cbn [List.find]. destruct (f a) eqn:Hf.
  - split; [lia|]. split; [done|]. lia.
  - specialize (IH (Z.succ a) (Z.pred len) ltac:(lia)). destruct (List.find f _) as [n|].
    + destruct IH as (Hn&Hfn&Hlt). split; [lia|]. split; [done|]. intros i Hi.
      destruct (decide (i = a)) as [->|]; [done|]. apply Hlt. lia.
    + intros i Hi. destruct (decide (i = a)) as [->|]; [done|]. apply IH. lia.
Qed.

Lemma first_number_seqZ f hi :
  let n := first_number f (seqZ 1 (hi - 1)) in
  (n = 0 /\ forall i, 1 <= i < hi -> f i = false) \/
  (1 <= n < hi /\ f n = true /\ forall i, 1 <= i < n -> f i = false).
Proof.
  cbn zeta. unfold first_number. pose proof (find_seqZ f (Z.to_nat (hi - 1)) 1 (hi - 1) ltac:(lia)) as H.
  destruct (List.find f _) as [n|]; [right|left]; cbn.
  - destruct H as (?&?&?). split; [lia|done].
  - split; [done|]. intros i Hi. apply H. lia.
Qed.

Lemma read_transforms_code {E} num prop_pbs trans_pbs attr_pbs first ps code ps' :
  @read_transforms E num prop_pbs trans_pbs attr_pbs first ps = Ok (inl code, ps') ->
  code = 0 \/ code = syntax_failure.
Proof.
  assert (forall fuel keylen ps code ps',
    @read_attributes E fuel trans_pbs attr_pbs keylen ps = Ok (inl code, ps') -> code = 0 \/ code = syntax_failure) as Hattr.
  { induction fuel as [|fuel IH]; intros keylen ps0 code0 ps0' H; [done|]. cbn [read_attributes] in H. inv_ok.
    destruct (_ =? 0); [done|]. destruct (in_struct _ _ _ _) as [[vs ps1]| |]; [|by simplify_eq; right|done].
    destruct vs as [|[ty|?] [|[lv|?] [|]]]; try done. destruct (_ =? _); [by eapply IH|]. simplify_eq. by left. }
  revert first ps code ps'. induction num as [|num IH]; intros first ps code ps' H; [done|]. cbn [read_transforms] in H.
  destruct (read_transform prop_pbs trans_pbs attr_pbs ps) as [[[code1|[type rt]] ps1]| |] eqn:Hr; try done.
  - injection H as <- <-. unfold read_transform in Hr. destruct (in_struct _ _ _ _) as [[vs ps2]| |]; [|by simplify_eq; right|done].
    destruct vs as [|[?|?] [|[?|?] [|[?|?] [|[ty|?] [|[?|?] [|[id|?] [|]]]]]]]; try done.
    destruct (ty =? 0); [simplify_eq; by right|]. destruct (_ <=? ty); [simplify_eq; by left|].
    destruct (get_pbs ps2 trans_pbs) as [p| |]; try done. rewrite bind_Ok in Hr.
    destruct (read_attributes _ _ _ _ _) as [[[c|k] ps3]| |] eqn:Ha; try done. cbn in Hr. simplify_eq. by eapply Hattr.
  - cbn in H. destruct (note_integrity _ _ _) as [first'|]; [|simplify_eq; by left].
    destruct (read_transforms num _ _ _ _ _) as [[[c|rts] ps2]| |] eqn:Hrest; try done. cbn in H. simplify_eq. by eapply IH.
Qed.

(** * The loop over the proposals *)

Section Loop.
Context (local : ikev2_proposals) (wf_local : wf_proposals local = true).
Context (sa_payload proposal_pbs trans_pbs attr_pbs : nat) (expect_ike expect_spi : bool).

(** The range that is searched for a proposal with number [num] when [best] was matched. *)
Definition search_range (expect_accepted : bool) (num best : Z) : list Z :=
  FOR_EACH_PROPOSAL_IN_RANGE local (if expect_accepted then num else 1)
    (if expect_accepted then num + 1 else if negb (best =? 0) then best else props_roof local).

(** The variables after a remote proposal was compared. *)
Definition compared (expect_accepted : bool) (r : remote_proposal) (v v' : sa_vars) : Prop :=
  let n := first_number (matching local r) (search_range expect_accepted (rp_num r) (matching_local_propnum v)) in
  (n = 0 /\ matching_local_propnum v' = matching_local_propnum v /\ best_proposal v' = best_proposal v) \/
  (exists lp, 1 <= n < props_roof local /\ proposal local !! Z.to_nat n = Some lp /\
     matching_local_propnum v' = n /\ best_proposal v' = chosen lp r).

(** What processing a proposal leaves, beside its streams: [compare] has run on [item]. *)
Definition processed (expect_accepted : bool) (item : option remote_proposal) (v v' : sa_vars) : Prop :=
  table_shape local (matching_local_proposals v') /\
  match item with
  | Some r => compared expect_accepted r v v'
  | None => matching_local_propnum v' = matching_local_propnum v /\ best_proposal v' = best_proposal v
  end.

Lemma compare_proposal_ok {E} ea lp num pid numtrans spi v :
  table_shape local (matching_local_proposals v) ->
  let compare := @compare_proposal E proposal_pbs trans_pbs attr_pbs ea local lp num pid numtrans spi v in
  match read_transforms (E := E) (Z.to_nat numtrans) proposal_pbs trans_pbs attr_pbs (-1) (sa_streams v) with
  | Ok (inl code, ps') =>
      exists v', compare = Ok (if code =? 0 then Some lp else None, v') /\ next_propnum v' = next_propnum v /\
        sa_streams v' = ps' /\ if code =? 0 then processed ea None v v' else matching_local_propnum v' = code
  | Ok (inr rts, ps') =>
      exists v', compare = Ok (Some lp, v') /\ next_propnum v' = next_propnum v /\ sa_streams v' = ps' /\
        processed ea (Some (mk_rp num pid spi rts)) v v'
  | Ugh e => compare = Ugh e
  | Abort => compare = Abort
  end.
Proof.
  intros Hs compare. unfold compare, compare_proposal.
  set (base := if ea then num else 1). set (bound := if ea then num + 1 else _).
  pose proof (process_transforms_ok local pid wf_local (E := E) proposal_pbs trans_pbs attr_pbs numtrans base bound
    (matching_local_proposals v) (sa_streams v) Hs) as Hp. cbn zeta in Hp.
  destruct (read_transforms _ _ _ _ _ _) as [[[code|rts] ps']|e|] eqn:Hread.
  - destruct Hp as (ms'&->&Hs'). run_ok. apply read_transforms_code in Hread as [-> | ->].
    + eexists. split; [done|]. split; [done|]. split; [done|]. by split.
    + eexists. by split.
  - destruct Hp as (ms'&->&Hs'&Ht). run_ok. unfold processed, compared, search_range, matching. cbn [rp_protoid rp_transforms rp_num].
    fold base bound. set (range := FOR_EACH_PROPOSAL_IN_RANGE local base bound) in *.
    set (n := first_number (local_accepts local pid rts) range).
    assert (n = 0 \/ n ∈ range) as Hn.
    { unfold n, first_number. destruct (List.find _ range) as [k|] eqn:Hf; [|by left]. right.
      apply find_some in Hf as [Hk _]. by apply list_elem_of_In. }
    destruct Hn as [Hn|Hn].
    + rewrite Hn. eexists. split; [done|]. split; [done|]. split; [done|]. split; [done|]. by left.
    + destruct (range_valid local base bound) as [_ Hr]. fold range in Hr. rewrite Forall_forall in Hr, Ht.
      specialize (Hr n Hn). destruct (Ht n Hn) as (lq&h&Hlq&Hw&Hm).
      rewrite (proj2 (Z.ltb_ge n 0)), (proj2 (Z.ltb_lt 0 n)), (proj2 (Z.ltb_lt n (props_roof local))) by lia. run_ok.
      rewrite Hlq. run_ok. rewrite Hm. run_ok. rewrite best_transforms_ok by done. run_ok.
      eexists. split; [done|]. split; [done|]. split; [done|]. split; [done|]. right. exists lq. done.
  - by rewrite Hp.
  - by rewrite Hp.
Qed.

Lemma sa_body_ok {E} ea v :
  table_shape local (matching_local_proposals v) ->
  let body := @sa_body E sa_payload proposal_pbs trans_pbs attr_pbs expect_ike expect_spi ea local v in
  match read_proposal (E := E) sa_payload proposal_pbs trans_pbs attr_pbs expect_ike expect_spi ea (props_roof local)
          (next_propnum v) (sa_streams v) with
  | Ok (inl code, ps') => exists v', body = Ok (None, v') /\ sa_streams v' = ps' /\ matching_local_propnum v' = code
  | Ok (inr (lp, next, item), ps') =>
      exists v', body = Ok (Some lp, v') /\ next_propnum v' = next /\ sa_streams v' = ps' /\ processed ea item v v'
  | Ugh e => body = Ugh e
  | Abort => body = Abort
  end.
Proof.
  intros Hs body. unfold body, sa_body, read_proposal.
  destruct (in_struct ikev2_prop_desc _ _ _) as [[vs ps1]|e|]; [|by eexists|done].
  destruct vs as [|[lp|?] [|[?|?] [|[?|?] [|[num|?] [|[pid|?] [|[spisize|?] [|[numtrans|?] [|]]]]]]]]; try done.
  cbn [next_propnum set_streams]. destruct (check_propnum _ _ _ _ _) as [next|]; [|by eexists].
  destruct (expect_ike && negb (pid =? IKEv2_SEC_PROTO_IKE)); [by eexists|].
  destruct (read_spi expect_spi pid spisize proposal_pbs ps1) as [[[[|]|spi] ps2]|e|]; try done; run_ok; [by eexists..|].
  set (v1 := set_streams _ _).
  pose proof (compare_proposal_ok (E := E) ea lp num pid numtrans spi v1 Hs) as H. cbn zeta in H.
  change (sa_streams v1) with ps2 in H.
  destruct (read_transforms _ _ _ _ _ ps2) as [[[code|rts] ps']|e|]; run_ok; [| |exact H|exact H].
  - destruct H as (v'&->&Hn&Hps&H). destruct (code =? 0); exists v'; [|done]. done.
  - destruct H as (v'&->&Hn&Hps&H). by exists v'.
Qed.
(** [matching_local_propnum] is the first local proposal that accepts one of [rs], and
    [best_proposal] what comes of the first of those. *)
Definition best_so_far (rs : list remote_proposal) (v : sa_vars) : Prop :=
  let n := matching_local_propnum v in
  (n = 0 /\ forall i r, 1 <= i < props_roof local -> r ∈ rs -> matching local r i = false) \/
  (exists r lp, 1 <= n < props_roof local /\ List.find (fun r => matching local r n) rs = Some r /\
     proposal local !! Z.to_nat n = Some lp /\ best_proposal v = chosen lp r /\
     forall i r, 1 <= i < n -> r ∈ rs -> matching local r i = false).

Lemma find_app {A} (f : A -> bool) l k :
  List.find f (l ++ k) = match List.find f l with Some a => Some a | None => List.find f k end.
Proof. induction l as [|a l IH]; [done|]. cbn. by destruct (f a). Qed.

Lemma find_none {A} (f : A -> bool) l : (forall a, a ∈ l -> f a = false) -> List.find f l = None.
Proof.
  intros H. destruct (List.find f l) as [a|] eqn:Hf; [|done]. apply find_some in Hf as [Ha Hfa].
  apply list_elem_of_In in Ha. rewrite H in Hfa; done.
Qed.

Lemma best_so_far_step rs r v v' :
  best_so_far rs v -> compared false r v v' -> best_so_far (rs ++ [r]) v'.
Proof.
  intros Hb. unfold best_so_far in Hb. unfold compared, search_range. cbn zeta in Hb.
  set (best := matching_local_propnum v) in *.
  set (bound := if negb (best =? 0) then best else props_roof local).
  assert (1 <= bound <= props_roof local \/ (props_roof local <= 0 /\ bound = props_roof local)) as Hbd.
  { unfold bound. destruct Hb as [[Hz _]|(r0&lp0&Hn&_)].
    - rewrite Hz. destruct (decide (1 <= props_roof local)); cbn; lia.
    - rewrite (proj2 (Z.eqb_neq best 0)) by lia. cbn. lia. }
  assert (forall i s, 1 <= i < bound -> s ∈ rs -> matching local s i = false) as Hno.
  { unfold bound. destruct Hb as [[Hz Hno]|(r0&lp0&Hn&_&_&_&Hno)].
    - rewrite Hz. exact Hno.
    - rewrite (proj2 (Z.eqb_neq best 0)) by lia. exact Hno. }
  change (FOR_EACH_PROPOSAL_IN_RANGE local 1 bound) with (seqZ 1 (bound `min` props_roof local - 1)).
  replace (bound `min` props_roof local) with bound by lia.
  pose proof (first_number_seqZ (matching local r) bound) as Hf. cbn zeta in Hf. set (n := first_number _ _) in *.
  assert (forall hi, (forall i, 1 <= i < hi -> matching local r i = false) -> hi <= bound ->
    forall i s, 1 <= i < hi -> s ∈ rs ++ [r] -> matching local s i = false) as Hall.
  { intros hi Hr Hhi i s Hi Hs. apply elem_of_app in Hs as [Hs|Hs]; [apply Hno; [lia|done]|].
    apply list_elem_of_singleton in Hs as ->. by apply Hr. }
  intros [(Hn&Hm&Hp)|(lp&Hn&Hlp&Hm&Hp)].
  - destruct Hf as [[_ Hr]|(?&_)]; [|lia]. unfold best_so_far. rewrite Hm, Hp.
    destruct Hb as [[Hz _]|(r0&lp0&Hn0&Hfind&Hlp0&Hbest&_)]; [left|right].
    + split; [done|]. unfold bound in Hall, Hr. rewrite Hz in Hall, Hr. by apply Hall.
    + exists r0, lp0. rewrite find_app, Hfind. unfold bound in Hall, Hr.
      rewrite (proj2 (Z.eqb_neq best 0)) in Hall, Hr by lia. do 4 (split; [done|]). by apply Hall.
  - destruct Hf as [[? _]|(Hnb&Hnm&Hr)]; [lia|]. right. rewrite Hm. exists r, lp. split; [done|].
    split; [|split; [done|split; [done|]]].
    + rewrite find_app, find_none by (intros s Hs; apply Hno; [lia|done]). cbn. by rewrite Hnm.
    + apply Hall; [done|lia].
Qed.

Lemma read_proposals_code {E} fuel ea roof : forall next ps code ps',
  @read_proposals E fuel sa_payload proposal_pbs trans_pbs attr_pbs expect_ike expect_spi ea roof next ps = Ok (inl code, ps') ->
  code = syntax_failure.
Proof.
  induction fuel as [|fuel IH]; intros next ps code ps' H; [done|]. cbn [read_proposals] in H.
  destruct (read_proposal _ _ _ _ _ _ _ _ _ _) as [[[c|[[lp next'] item]] ps1]| |] eqn:Hr; try done; rewrite bind_Ok in H.
  - simplify_eq. unfold read_proposal in Hr. destruct (in_struct _ _ _ _) as [[vs ps2]| |]; [|by simplify_eq|done].
    destruct vs as [|[?|?] [|[?|?] [|[?|?] [|[?|?] [|[?|?] [|[?|?] [|[?|?] [|]]]]]]]]; try done.
    destruct (check_propnum _ _ _ _ _); [|by simplify_eq]. destruct (_ && _); [done|].
    destruct (read_spi _ _ _ _ _) as [[[[|]|spi] ps3]| |]; try done; rewrite bind_Ok in Hr; [by simplify_eq|].
    destruct (read_transforms _ _ _ _ _ _) as [[[c2|rts] ps4]| |] eqn:Hrt; try done. rewrite bind_Ok in Hr.
    apply read_transforms_code in Hrt as [-> | ->]; by simplify_eq.
  - destruct (lp =? _); [|done]. destruct (read_proposals fuel _ _ _ _ _ _ _ _ _ _) as [[[c|rs] ps2]| |] eqn:Hrest; try done.
    rewrite bind_Ok in H. simplify_eq. by eapply IH.
Qed.

Lemma sa_loop_ok {E} fuel : forall rs v,
  table_shape local (matching_local_proposals v) -> best_so_far rs v ->
  let loop := @sa_loop E fuel sa_payload proposal_pbs trans_pbs attr_pbs expect_ike expect_spi false local v in
  match read_proposals (E := E) fuel sa_payload proposal_pbs trans_pbs attr_pbs expect_ike expect_spi false
          (props_roof local) (next_propnum v) (sa_streams v) with
  | Ok (inl code, ps') => exists v', loop = Ok v' /\ sa_streams v' = ps' /\ matching_local_propnum v' = code
  | Ok (inr more, ps') => exists v', loop = Ok v' /\ sa_streams v' = ps' /\ best_so_far (rs ++ more) v'
  | Ugh e => loop = Ugh e
  | Abort => loop = Abort
  end.
Proof.
  induction fuel as [|fuel IH]; intros rs v Hs Hb; [done|]. cbn zeta. cbn [read_proposals sa_loop].
  pose proof (sa_body_ok (E := E) false v Hs) as H. cbn zeta in H.
  destruct (read_proposal _ _ _ _ _ _ _ _ _ _) as [[[code|[[lp next] item]] ps1]|e|]; run_ok.
  - destruct H as (v'&->&Hps&Hc). run_ok. by exists v'.
  - destruct H as (v'&->&Hn&Hps&Hs'&Hp). run_ok.
    assert (best_so_far (rs ++ option_list item) v') as Hb'.
    { destruct item as [r|]; [by eapply best_so_far_step|]. cbn. rewrite app_nil_r. unfold best_so_far.
      destruct Hp as [-> ->]. exact Hb. }
    destruct (lp =? v2_PROPOSAL_NON_LAST).
    + specialize (IH _ v' Hs' Hb'). rewrite Hn, Hps in IH. cbn zeta in IH.
      destruct (read_proposals fuel _ _ _ _ _ _ _ _ _ _) as [[[code|more] ps2]|e|]; run_ok; try exact IH.
      by rewrite <- app_assoc in IH.
    + run_ok. rewrite app_nil_r. by exists v'.
  - by rewrite H.
  - by rewrite H.
Qed.
End Loop.

(** * Properties *)

(** An answer has one proposal, with the number of a local one. *)
Lemma read_proposal_accepted {E} sa_payload proposal_pbs trans_pbs attr_pbs ei es roof next ps lp next' item ps' :
  @read_proposal E sa_payload proposal_pbs trans_pbs attr_pbs ei es true roof next ps = Ok (inr (lp, next', item), ps') ->
  lp = v2_PROPOSAL_LAST /\ match item with Some r => 1 <= rp_num r < roof | None => True end.
Proof.
  unfold read_proposal. intros H. destruct (in_struct _ _ _ _) as [[vs ps1]| |]; [|done|done].
  destruct vs as [|[lp'|?] [|[?|?] [|[?|?] [|[num|?] [|[?|?] [|[?|?] [|[?|?] [|]]]]]]]]; try done.
  unfold check_propnum in H. destruct (Z.eqb_spec lp' v2_PROPOSAL_LAST); [|done]. cbn [negb] in H.
  destruct (Z.ltb_spec num 1), (Z.leb_spec roof num); try done. cbn [orb] in H.
  destruct (_ && _); [by simplify_eq|]. destruct (read_spi _ _ _ _ _) as [[[[|]|spi] ps2]| |]; try done; rewrite bind_Ok in H; [by simplify_eq|].
  destruct (read_transforms _ _ _ _ _ _) as [[[c|rts] ps3]| |]; try done; rewrite bind_Ok in H.
  - destruct (c =? 0); by simplify_eq.
  - simplify_eq. split; [done|]. cbn. lia.
Qed.

Lemma initial_table local : wf_proposals local = true -> table_shape local (replicate (Z.to_nat (props_roof local)) no_match).
Proof.
  unfold wf_proposals. rewrite !andb_true_iff, Z.leb_le. intros [[H _] _]. split.
  - rewrite length_replicate. lia.
  - by apply Forall_replicate.
Qed.

(** The choice in terms of the variables of the loop. *)
Lemma negotiate_best local rs v :
  best_so_far local rs v ->
  negotiate false local rs =
  (if matching_local_propnum v =? 0 then (STF_NOTIFY v2N_NO_PROPOSAL_CHOSEN, None) else (STF_OK, Some (best_proposal v))) /\
  0 <= matching_local_propnum v.
Proof.
  intros Hb. unfold negotiate, FOR_EACH_PROPOSAL. set (f := fun n => existsb _ rs).
  assert (forall i, (forall r, r ∈ rs -> matching local r i = false) -> f i = false) as Hf.
  { intros i Hi. unfold f. apply not_true_is_false. rewrite existsb_exists. intros (r&Hr&Hm).
    apply list_elem_of_In in Hr. rewrite Hi in Hm; done. }
  pose proof (find_seqZ f (Z.to_nat (props_roof local - 1)) 1 (props_roof local - 1) ltac:(lia)) as Hfind.
  destruct Hb as [[Hn Hno]|(r&lp&Hn&Hr&Hlp&Hbest&Hno)]; cbn zeta in *.
  - rewrite Hn. split; [|done]. destruct (List.find f _) as [n|]; [|done].
    destruct Hfind as (Hr&Hfn&_). rewrite Hf in Hfn; [done|]. intros r. apply Hno. lia.
  - set (n := matching_local_propnum v) in *. split; [|lia]. rewrite (proj2 (Z.eqb_neq n 0)) by lia.
    assert (f n = true) as Hfn.
    { apply find_some in Hr as [Hin Hm]. unfold f. apply existsb_exists. by exists r. }
    destruct (List.find f _) as [k|].
    + destruct Hfind as (Hk&Hfk&Hlt). assert (k = n) as ->; [|by rewrite Hr, Hlp, Hbest].
      destruct (Z.lt_trichotomy k n) as [Hkn|[->|Hnk]]; [|done|].
      * rewrite Hf in Hfk; [done|]. intros s. apply Hno. lia.
      * rewrite Hlt in Hfn by lia. done.
    + rewrite Hfind in Hfn by lia. done.
Qed.

Lemma negotiate_accepted local r v v' :
  1 <= rp_num r < props_roof local -> matching_local_propnum v = 0 -> compared local true r v v' ->
  negotiate true local [r] =
  (if matching_local_propnum v' =? 0 then (STF_FAIL, None) else (STF_OK, Some (best_proposal v'))) /\
  0 <= matching_local_propnum v'.
Proof.
  intros Hr Hv. unfold compared, search_range, FOR_EACH_PROPOSAL_IN_RANGE. rewrite (proj2 (Z.ltb_lt 0 (rp_num r))) by lia.
  replace ((rp_num r + 1) `min` props_roof local - rp_num r) with 1 by lia.
  rewrite seqZ_cons, seqZ_nil by lia. unfold first_number, negotiate. cbn [List.find fmap list_fmap existsb]. rewrite orb_false_r.
  destruct (matching local r (rp_num r)) eqn:Hm; cbn [from_option].
  - intros [(?&_)|(lp&_&Hlp&->&->)]; [cbn in *; lia|]. cbn [default id from_option] in *.
    rewrite Hm, (proj2 (Z.eqb_neq (rp_num r) 0)), Hlp by lia. split; [done|lia].
  - intros [(_&Hn&_)|(lp&Hn&_)]; [|cbn in Hn; lia]. rewrite Hn, Hv. done.
Qed.

Lemma process_sa_payload_eq {E} sa_payload proposal_pbs trans_pbs attr_pbs ei es ea local ps :
  wf_proposals local = true ->
  @ikev2_process_sa_payload E sa_payload proposal_pbs trans_pbs attr_pbs ei es ea local ps =
  (p ← get_pbs ps sa_payload;
   '(r, ps') ← read_proposals (S (Z.to_nat (pbs_left p))) sa_payload proposal_pbs trans_pbs attr_pbs ei es ea
                 (props_roof local) 1 ps;
   Ok (match r with
       | inl _ => (STF_NOTIFY v2N_INVALID_SYNTAX, None)
       | inr remotes => negotiate ea local remotes
       end, ps')).
Proof.
  intros Hw. unfold ikev2_process_sa_payload. destruct (get_pbs ps sa_payload) as [p|e|]; [|done|done]. run_ok.
  set (v0 := mk_sv _ _ _ _ _). pose proof (initial_table local Hw) as Hs. set (fuel := Z.to_nat (pbs_left p)).
  destruct ea.
  - cbn [sa_loop read_proposals].
    pose proof (sa_body_ok local Hw sa_payload proposal_pbs trans_pbs attr_pbs ei es (E := E) true v0 Hs) as H. cbn zeta in H.
    change (next_propnum v0) with 1 in H. change (sa_streams v0) with ps in H.
    pose proof (fun lp next' item ps' => @read_proposal_accepted E sa_payload proposal_pbs trans_pbs attr_pbs ei es
      (props_roof local) 1 ps lp next' item ps') as Hacc.
    pose proof (read_proposals_code sa_payload proposal_pbs trans_pbs attr_pbs ei es (E := E) 1 true (props_roof local) 1 ps) as Hcode.
    cbn [read_proposals] in Hcode.
    destruct (read_proposal _ _ _ _ _ _ _ _ _ _) as [[[code|[[lp next] item]] ps1]|e|]; run_ok.
    + destruct H as (v'&->&Hps&Hc). run_ok. rewrite (Hcode code ps1 eq_refl) in Hc. rewrite Hc. cbn. by rewrite Hps.
    + destruct H as (v'&->&Hn&Hps&Hs'&Hp). run_ok. destruct (Hacc _ _ _ _ eq_refl) as [-> Hnum]. cbn [Z.eqb v2_PROPOSAL_LAST v2_PROPOSAL_NON_LAST].
      run_ok. rewrite app_nil_r, Hps. f_equal. destruct item as [r|].
      * change (option_list (Some r)) with [r]. destruct (negotiate_accepted local r v0 v' Hnum eq_refl Hp) as [-> Hpos].
        rewrite (proj2 (Z.ltb_ge _ _)) by done. by destruct (matching_local_propnum v' =? 0).
      * destruct Hp as [-> _]. done.
    + by rewrite H.
    + by rewrite H.
  - assert (best_so_far local [] v0) as Hb by (left; split; [done|]; intros i r _ Hr; by apply elem_of_nil in Hr).
    pose proof (sa_loop_ok local Hw sa_payload proposal_pbs trans_pbs attr_pbs ei es (E := E) (S fuel) [] v0 Hs Hb) as H.
    cbn zeta in H. change (next_propnum v0) with 1 in H. change (sa_streams v0) with ps in H.
    pose proof (read_proposals_code sa_payload proposal_pbs trans_pbs attr_pbs ei es (E := E) (S fuel) false (props_roof local) 1 ps) as Hcode.
    destruct (read_proposals _ _ _ _ _ _ _ _ _ _ _) as [[[code|rs] ps1]|e|]; run_ok.
    + destruct H as (v'&->&Hps&Hc). run_ok. rewrite (Hcode code ps1 eq_refl) in Hc. rewrite Hc. cbn. by rewrite Hps.
    + destruct H as (v'&->&Hps&Hbest). run_ok. destruct (negotiate_best local rs v' Hbest) as [-> Hpos].
      rewrite (proj2 (Z.ltb_ge _ _)), Hps by done. by destruct (matching_local_propnum v' =? 0).
    + by rewrite H.
    + by rewrite H.
Qed.

(** C7: [ikev2_process_sa_payload], which looks at each transform once while it reads it and keeps
    only the best match so far, does on every payload what reading all proposals and then
    negotiating would do: a malformed proposal or transform anywhere fails with INVALID_SYNTAX;
    otherwise the local proposal with the lowest number that accepts a remote proposal is taken,
    with the first remote proposal it accepts and the transforms that it prefers (when an answer
    is processed, only the local proposal of the same number counts). *)
Theorem sa_payload_negotiates {E} sa_payload proposal_pbs trans_pbs attr_pbs ei es ea local ps :
  wf_proposals local = true ->
  @ikev2_process_sa_payload E sa_payload proposal_pbs trans_pbs attr_pbs ei es ea local ps =
  (p ← get_pbs ps sa_payload;
   '(r, ps') ← read_proposals (S (Z.to_nat (pbs_left p))) sa_payload proposal_pbs trans_pbs attr_pbs ei es ea
                 (props_roof local) 1 ps;
   Ok (match r with
       | inl _ => (STF_NOTIFY v2N_INVALID_SYNTAX, None)
       | inr remotes => negotiate ea local remotes
       end, ps')).
Proof. apply process_sa_payload_eq. Qed.

(** ** Safety *)

(** Memory is as before, the stream [o] has been read up to [e], and no stream outside [T] has
    changed otherwise. *)
Definition read_to (T : list nat) (o : nat) (p : pb_stream) (e : Z) (ps ps' : pstate) : Prop :=
  ps_mem ps' = ps_mem ps /\ cur p <= e <= roof p /\ ps_pbs ps' !! o = Some (set_cur e p) /\
  forall o', o' <> o -> o' ∉ T -> ps_pbs ps' !! o' = ps_pbs ps !! o'.

Lemma read_to_wf T o p e ps ps' :
  wf_pbs (ps_mem ps) p -> read_to T o p e ps ps' -> wf_pbs (ps_mem ps') (set_cur e p).
Proof. intros (?&?&Hm) (->&?&_). split; [cbn; lia|]. split; [cbn; lia|done]. Qed.

Lemma read_to_trans T o p e e' ps ps1 ps2 :
  read_to T o p e ps ps1 -> read_to T o (set_cur e p) e' ps1 ps2 -> read_to T o p e' ps ps2.
Proof.
  intros (Hm1&He1&_&H1) (Hm2&He2&Ho&H2). cbn in *. split; [congruence|]. split; [lia|].
  split; [done|]. intros o' ? ?. by rewrite H2, H1.
Qed.

(** Reading below a substream leaves the stream it is a part of alone. *)
Lemma read_to_below T T' o o' p q e e' ps ps1 ps2 :
  read_to T o p e ps ps1 -> read_to T' o' q e' ps1 ps2 -> o <> o' -> o ∉ T' -> o' ∈ T -> T' ⊆ T ->
  read_to T o p e ps ps2.
Proof.
  intros (Hm1&He1&Ho1&H1) (Hm2&He2&_&H2) Hne HT Hin Hsub. split; [congruence|]. split; [done|].
  split; [by rewrite H2|]. intros k Hk HkT. rewrite H2, H1 by (done || set_solver). done.
Qed.

Lemma in_struct_reads sd ins obj ps p :
  wf_desc sd = true -> ps_pbs ps !! ins = Some p -> wf_pbs (ps_mem ps) p -> mem_ok (ps_mem ps) -> ins <> obj ->
  0 < sd_size sd ->
  match in_struct sd ins (Some obj) ps with
  | Abort => False
  | Ugh _ => True
  | Ok (vs, ps') => exists e q, cur p + sd_size sd <= e /\ read_to [obj] ins p e ps ps' /\
      ps_pbs ps' !! obj = Some q /\ wf_pbs (ps_mem ps') q /\ Forall2 member_ok (removelast (sd_fields sd)) vs
  end.
Proof.
  intros Hd Hp Hw Hok Hne Hsz. pose proof (in_struct_inv sd ins (Some obj) ps p Hd Hp Hw Hok ltac:(congruence)) as H.
  destruct (in_struct sd ins (Some obj) ps) as [[vs ps']| |] eqn:Hin; [|done|done].
  apply in_struct_members in Hin; [|done|done]. destruct H as (e&He&Hm&Hpbs). destruct Hw as (?&?&Hmap).
  eexists e, _. split; [lia|]. split; [|split; [|split; [|done]]].
  - split; [done|]. split; [lia|]. rewrite Hpbs. split; [apply lookup_insert_eq|].
    intros o' Ho HT. rewrite not_elem_of_cons in HT. by rewrite !lookup_insert_ne by naive_solver.
  - rewrite Hpbs, lookup_insert_ne by done. apply lookup_insert_eq.
  - rewrite Hm. split; [cbn; lia|]. split; [cbn; lia|]. intros x Hx. apply Hmap. cbn in Hx. lia.
Qed.

(** Take a structure apart whose members are [member_ok]. *)
Ltac take_members :=
  repeat match goal with
  | H : Forall2 member_ok (_ :: _) _ |- _ => apply Forall2_cons_inv_l in H as (?&?&?&H&->)
  | H : Forall2 member_ok [] _ |- _ => apply Forall2_nil_inv_l in H as ->
  | H : member_ok _ _ |- _ => destruct H as (?&->&?)
  end.

Lemma read_to_refl T o p ps : ps_pbs ps !! o = Some p -> wf_pbs (ps_mem ps) p -> read_to T o p (cur p) ps ps.
Proof. intros Ho (?&?&_). split; [done|]. split; [lia|]. by rewrite set_cur_cur. Qed.

Lemma read_to_more T T' o p e ps ps' : T ⊆ T' -> read_to T o p e ps ps' -> read_to T' o p e ps ps'.
Proof. intros HT (?&?&?&H). do 3 (split; [done|]). intros o' ? ?. apply H; [done|]. set_solver. Qed.

(** A transform as the wire can carry it. *)
Definition wire_transform (t : typed_transform) : Prop :=
  t.1 ∈ trans_types /\ 0 <= tr_id t.2 < 2 ^ 16 /\ 0 <= attr_keylen t.2 < 2 ^ 16 /\ tr_valid t.2 = true.

(** What a remote proposal that is compared looks like. *)
Definition wire_proposal (es : bool) (r : remote_proposal) : Prop :=
  Forall wire_transform (rp_transforms r) /\ length (spi_bytes (rp_spi r)) = 8%nat /\
  spi_size (rp_spi r) = if es then proto_spi_size (rp_protoid r) else 0.

Section Reading.
Context (sa_payload proposal_pbs trans_pbs attr_pbs : nat).
Context (distinct : NoDup [sa_payload; proposal_pbs; trans_pbs; attr_pbs]).

Lemma streams_differ :
  sa_payload <> proposal_pbs /\ sa_payload <> trans_pbs /\ sa_payload <> attr_pbs /\
  proposal_pbs <> trans_pbs /\ proposal_pbs <> attr_pbs /\ trans_pbs <> attr_pbs.
Proof. pose proof distinct as H. rewrite !NoDup_cons, !not_elem_of_cons in H. tauto. Qed.

Lemma read_attributes_safe {E} fuel : forall keylen ps q,
  ps_pbs ps !! trans_pbs = Some q -> wf_pbs (ps_mem ps) q -> mem_ok (ps_mem ps) ->
  (Z.to_nat (roof q - cur q) < fuel)%nat -> 0 <= keylen < 2 ^ 16 ->
  exists r ps' e, @read_attributes E fuel trans_pbs attr_pbs keylen ps = Ok (r, ps') /\
    read_to [attr_pbs] trans_pbs q e ps ps' /\
    match r with inl code => code = syntax_failure | inr k => 0 <= k < 2 ^ 16 end.
Proof.
  induction fuel as [|fuel IH]; intros keylen ps q Hq Hw Hok Hfuel Hk; [lia|]. cbn [read_attributes].
  rewrite (get_pbs_at _ _ _ Hq). run_ok. rewrite (wf_pbs_left _ _ Hw).
  assert (read_to [attr_pbs] trans_pbs q (cur q) ps ps) as Hrefl
    by (destruct Hw; split; [done|]; split; [lia|]; by rewrite set_cur_cur).
  destruct (roof q - cur q =? 0); [by eauto 10|].
  pose proof (in_struct_reads ikev2_trans_attr_desc trans_pbs attr_pbs ps q eq_refl Hq Hw Hok) as H.
  specialize (H ltac:(apply streams_differ) ltac:(done)).
  destruct (in_struct _ _ _ _) as [[vs ps1]| |] eqn:Hin; [|by eauto 10|done].
  destruct H as (e&q'&He&Hrd&_&_&Hvs). cbn [removelast sd_fields ikev2_trans_attr_desc ikev2_trans_attr_fields] in Hvs.
  take_members. apply attr_known in Hin as ->. rewrite Z.eqb_refl. cbn [sd_size ikev2_trans_attr_desc] in He.
  pose proof (read_to_wf _ _ _ _ _ _ Hw Hrd) as Hw1. pose proof Hrd as (Hm&Hr&Ho&_).
  match goal with |- context [read_attributes fuel _ _ ?lv ps1] =>
    destruct (IH lv ps1 (set_cur e q)) as (r&ps'&e'&->&Hrd'&Hr'); try done end.
  - by rewrite Hm.
  - cbn [roof cur set_cur]. lia.
  - eexists _, _, _. split; [done|]. split; [by eapply read_to_trans|done].
Qed.
Lemma read_transform_safe {E} ps p :
  ps_pbs ps !! proposal_pbs = Some p -> wf_pbs (ps_mem ps) p -> mem_ok (ps_mem ps) ->
  exists r ps' e, @read_transform E proposal_pbs trans_pbs attr_pbs ps = Ok (r, ps') /\
    read_to [trans_pbs; attr_pbs] proposal_pbs p e ps ps' /\
    match r with inl code => code = syntax_failure | inr t => wire_transform t end.
Proof.
  intros Hp Hw Hok. unfold read_transform. destruct streams_differ as (_&_&_&N1&N2&N3).
  pose proof (in_struct_reads ikev2_trans_desc proposal_pbs trans_pbs ps p eq_refl Hp Hw Hok N1 ltac:(done)) as H.
  destruct (in_struct _ _ _ _) as [[vs ps1]| |] eqn:Hin; [|by eauto 10 using read_to_refl|done].
  destruct H as (e&q&He&Hrd&Hq&Hwq&Hvs). cbn [removelast sd_fields ikev2_trans_desc ikev2trans_fields] in Hvs.
  take_members. apply trans_known in Hin as Ht. pose proof Ht as Hrange. apply elem_of_seqZ in Hrange.
  match goal with |- context [?ty =? 0] => rewrite (proj2 (Z.eqb_neq ty 0)), (proj2 (Z.leb_gt IKEv2_TRANS_TYPE_ROOF ty)) by lia end.
  rewrite (get_pbs_at _ _ _ Hq). run_ok. rewrite (wf_pbs_left _ _ Hwq). pose proof Hrd as (Hm&_).
  destruct (read_attributes_safe (E := E) (S (Z.to_nat (roof q - cur q))) 0 ps1 q Hq Hwq) as (r&ps2&e'&->&Hrd2&Hr);
    [by rewrite Hm|lia|lia|]. run_ok.
  assert (read_to [trans_pbs; attr_pbs] proposal_pbs p e ps ps2) as Hall.
  { eapply (read_to_below _ [attr_pbs]); [eapply read_to_more; [|exact Hrd]|exact Hrd2|..]; set_solver. }
  eexists _, ps2, e. split; [done|]. split; [done|]. destruct r as [code|k]; [done|].
  unfold wire_transform. cbn [fst snd tr_id attr_keylen tr_valid]. split; [done|]. split; [assumption|]. done.
Qed.

Lemma read_transforms_safe {E} num : forall first ps p,
  ps_pbs ps !! proposal_pbs = Some p -> wf_pbs (ps_mem ps) p -> mem_ok (ps_mem ps) ->
  exists r ps' e, @read_transforms E num proposal_pbs trans_pbs attr_pbs first ps = Ok (r, ps') /\
    read_to [trans_pbs; attr_pbs] proposal_pbs p e ps ps' /\
    match r with inl code => code = 0 \/ code = syntax_failure | inr rts => Forall wire_transform rts end.
Proof.
  induction num as [|num IH]; intros first ps p Hp Hw Hok; cbn [read_transforms]; [by eauto 10 using read_to_refl|].
  destruct (read_transform_safe (E := E) ps p Hp Hw Hok) as (r&ps1&e&->&Hrd&Hr). run_ok.
  destruct r as [code|[type rt]]; [by eauto 10|]. destruct (note_integrity _ _ _) as [first'|]; [|by eauto 10].
  pose proof (read_to_wf _ _ _ _ _ _ Hw Hrd) as Hw1. pose proof Hrd as (Hm&_&Hp1&_).
  destruct (IH first' ps1 _ Hp1 Hw1 ltac:(by rewrite Hm)) as (r&ps2&e2&->&Hrd2&Hr2). run_ok.
  eexists _, ps2, e2. split; [done|]. split; [by eapply read_to_trans|]. destruct r as [code|rts]; [done|]. by constructor.
Qed.

Lemma read_spi_safe {E} es pid spisize ps p :
  ps_pbs ps !! proposal_pbs = Some p -> wf_pbs (ps_mem ps) p -> mem_ok (ps_mem ps) ->
  exists r ps' e, @read_spi E es pid spisize proposal_pbs ps = Ok (r, ps') /\ read_to [] proposal_pbs p e ps ps' /\
    match r with inr spi => length (spi_bytes spi) = 8%nat /\ spi_size spi = (if es then proto_spi_size pid else 0) | _ => True end.
Proof.
  intros Hp Hw Hok. unfold read_spi. set (size := if es then proto_spi_size pid else 0).
  assert (size = 0 \/ size = 4 \/ size = 8) as Hsz by (unfold size, proto_spi_size; repeat case_match; auto).
  pose proof (read_to_refl [] _ _ _ Hp Hw) as Hrefl.
  destruct (es && (size =? 0)); [by eauto 10|]. destruct (8 <? spisize); [by eauto 10|].
  destruct (negb (spisize =? size)); [by eauto 10|]. destruct (Z.ltb_spec 0 size).
  - pose proof (in_raw_inv size proposal_pbs "remote SPI" ps p ltac:(lia) Hp Hw Hok) as H'.
    destruct (in_raw _ _ _ _) as [[bs ps1]| |]; [|by eauto 10|done]. destruct H' as (Hl&_&Hr&->). destruct Hw as (?&?&_).
    eexists _, _, (cur p + size). split; [done|]. split; [|cbn; rewrite length_app, length_replicate; split; [lia|done]].
    split; [done|]. split; [lia|]. split; [apply lookup_insert_eq|]. intros o' Ho _. by apply lookup_insert_ne.
  - eexists _, _, _. split; [done|]. split; [done|]. done.
Qed.

Lemma read_proposal_safe {E} ei es ea roof next ps p :
  ps_pbs ps !! sa_payload = Some p -> wf_pbs (ps_mem ps) p -> mem_ok (ps_mem ps) ->
  exists r ps' e, @read_proposal E sa_payload proposal_pbs trans_pbs attr_pbs ei es ea roof next ps = Ok (r, ps') /\
    read_to [proposal_pbs; trans_pbs; attr_pbs] sa_payload p e ps ps' /\
    match r with
    | inl code => code = syntax_failure
    | inr (_, _, item) => cur p + 8 <= e /\ match item with Some r => wire_proposal es r | None => True end
    end.
Proof.
  intros Hp Hw Hok. unfold read_proposal. destruct streams_differ as (N1&N2&N3&N4&N5&N6).
  pose proof (in_struct_reads ikev2_prop_desc sa_payload proposal_pbs ps p eq_refl Hp Hw Hok N1 ltac:(done)) as H.
  destruct (in_struct _ _ _ _) as [[vs ps1]| |]; [|by eauto 10 using read_to_refl|done].
  destruct H as (e&q&He&Hrd&Hq&Hwq&Hvs). cbn [sd_size ikev2_prop_desc] in He.
  cbn [removelast sd_fields ikev2_prop_desc ikev2prop_fields] in Hvs. take_members.
  assert (read_to [proposal_pbs; trans_pbs; attr_pbs] sa_payload p e ps ps1) as Hrd1
    by (eapply read_to_more; [|exact Hrd]; set_solver).
  destruct (check_propnum _ _ _ _ _) as [next'|]; [|by eauto 10]. destruct (_ && _); [by eauto 12|].
  pose proof Hrd as (Hm&_).
  match goal with |- context [read_spi es ?pid ?size _ _] =>
    destruct (read_spi_safe (E := E) es pid size ps1 q Hq Hwq ltac:(by rewrite Hm)) as (r&ps2&e2&->&Hrd2&Hspi) end. run_ok.
  assert (read_to [proposal_pbs; trans_pbs; attr_pbs] sa_payload p e ps ps2) as Hall
    by (eapply read_to_below; [exact Hrd1|exact Hrd2|set_solver..]).
  destruct r as [[|]|spi]; [by eauto 10|by eauto 12|].
  pose proof (read_to_wf _ _ _ _ _ _ Hwq Hrd2) as Hw2. pose proof Hrd2 as (Hm2&_&Hq2&_).
  match goal with |- context [read_transforms ?n _ _ _ _ _] =>
    destruct (read_transforms_safe (E := E) n (-1) ps2 _ Hq2 Hw2) as (r&ps3&e3&->&Hrd3&Hr); [by rewrite Hm2, Hm|] end. run_ok.
  eexists _, ps3, e. split; [done|]. split; [eapply read_to_below; [exact Hall|exact Hrd3|set_solver..]|].
  destruct r as [code|rts]; [destruct Hr as [-> | ->]; cbn; split_and?; done|]. split; [done|]. by split.
Qed.

Lemma read_proposals_safe {E} fuel ei es ea roof : forall next ps p,
  ps_pbs ps !! sa_payload = Some p -> wf_pbs (ps_mem ps) p -> mem_ok (ps_mem ps) ->
  (Z.to_nat (Packet.roof p - cur p) < fuel)%nat ->
  exists r ps' e, @read_proposals E fuel sa_payload proposal_pbs trans_pbs attr_pbs ei es ea roof next ps = Ok (r, ps') /\
    read_to [proposal_pbs; trans_pbs; attr_pbs] sa_payload p e ps ps' /\
    match r with inl code => code = syntax_failure | inr rs => Forall (wire_proposal es) rs end.
Proof.
  induction fuel as [|fuel IH]; intros next ps p Hp Hw Hok Hf; [lia|]. cbn [read_proposals].
  destruct (read_proposal_safe (E := E) ei es ea roof next ps p Hp Hw Hok) as (r&ps1&e&->&Hrd&Hr). run_ok.
  destruct r as [code|[[lp next'] item]]; [by eauto 10|]. destruct Hr as [He Hr].
  assert (Forall (wire_proposal es) (option_list item)) as Hitem by (destruct item; [by apply Forall_singleton|constructor]).
  destruct (lp =? v2_PROPOSAL_NON_LAST).
  - pose proof (read_to_wf _ _ _ _ _ _ Hw Hrd) as Hw1. pose proof Hrd as (Hm&Hb&Hp1&_).
    destruct (IH next' ps1 _ Hp1 Hw1 ltac:(by rewrite Hm)) as (r&ps2&e2&->&Hrd2&Hr2); [cbn; lia|]. run_ok.
    eexists _, ps2, e2. split; [done|]. split; [by eapply read_to_trans|].
    destruct r as [code|rs]; [done|]. by apply Forall_app.
  - run_ok. eexists _, ps1, e. split; [done|]. split; [done|]. by rewrite app_nil_r.
Qed.
End Reading.

(** ** What is chosen *)

Lemma position_lookup {A} (f : A -> bool) l :
  (position f l < length l)%nat -> exists a, l !! position f l = Some a /\ f a = true.
Proof.
  induction l as [|a l IH]; cbn [position length]; [lia|]. destruct (f a) eqn:Hf; [by exists a|].
  intros H. destruct IH as (b&Hb&Hfb); [lia|]. by exists b.
Qed.

Lemma valid_prefix_lookup l i t : valid_prefix l !! i = Some t -> l !! i = Some t /\ tr_valid t = true.
Proof.
  revert i. induction l as [|u l IH]; intros i H; [done|]. cbn [valid_prefix] in H. destruct (tr_valid u) eqn:Hu; [|done].
  destruct i as [|i]; [by injection H as <-|]. by apply IH.
Qed.

Lemma FOR_EACH_lookup ts i t : FOR_EACH_TRANSFORM ts !! i = Some t -> ts !! i = Some t /\ tr_valid t = true.
Proof.
  intros H. apply valid_prefix_lookup in H as [H Hv]. split; [|done]. by apply lookup_take_Some in H as [H _].
Qed.

(** A transform is chosen for the types that match, and it is a local one that was offered. *)
Lemma chosen_transform_spec lp pid rts type :
  wf_proposal lp = true -> type ∈ trans_types ->
  let t := chosen_transform lp pid rts type in
  if type_matches lp pid rts type
  then tr_valid t = true /\ t ∈ local_transforms lp type /\ offered rts type t = true /\ protoid lp = pid
  else tr_valid t = false.
Proof.
  intros Hw Ht. destruct (matching_transform_lookup lp pid rts None type Hw Ht) as (ts&Hts&Hp&_).
  destruct (proj1 (proj2 (wf_proposal_inv lp Hw)) type Ht) as (ts'&Hts'&Hwt&Hlt). rewrite Hts in Hts'. injection Hts' as <-.
  cbn zeta. rewrite type_matches_preferred. destruct (bool_decide_reflect (preferred lp pid rts type < length (local_transforms lp type))%nat) as [Hlt'|Hge].
  - unfold preferred in Hlt', Hp. destruct (Z.eqb_spec (protoid lp) pid); [|lia].
    destruct (position_lookup _ _ Hlt') as (t&Htl&Hof). pose proof Htl as Hin. rewrite Hlt in Htl.
    apply FOR_EACH_lookup in Htl as [Htl Hv]. rewrite <- Hlt, Hp in Htl. injection Htl as ->.
    split; [done|]. split; [by eapply list_elem_of_lookup_2|]. done.
  - pose proof (preferred_le lp pid rts type) as Hle. replace (preferred lp pid rts type) with (length (local_transforms lp type)) in Hp by lia.
    rewrite Hlt in Hp. destruct (wf_transforms_sentinel ts Hwt) as (_&t&Hs&Hv). rewrite Hs in Hp. by injection Hp as <-.
Qed.

Lemma chosen_lookup lp r type :
  type ∈ trans_types ->
  exists more, transforms (chosen lp r) !! Z.to_nat type =
    Some (chosen_transform lp (rp_protoid r) (rp_transforms r) type :: more) /\
    FOR_EACH_TRANSFORM (chosen_transform lp (rp_protoid r) (rp_transforms r) type :: more) =
      if tr_valid (chosen_transform lp (rp_protoid r) (rp_transforms r) type)
      then [chosen_transform lp (rp_protoid r) (rp_transforms r) type] else [].
Proof.
  intros Ht. exists (replicate 4 no_transform). split.
  - by destruct (type_cases type Ht) as [-> |[-> |[-> |[-> | ->]]]].
  - unfold FOR_EACH_TRANSFORM. cbn. by destruct (tr_valid _).
Qed.

(** A chosen proposal [c] takes its transforms from the local proposal [lp]: at most one of each
    type, and one of every type that [lp] requires. *)
Definition taken_from (lp c : ikev2_proposal) : Prop :=
  forall type, type ∈ trans_types ->
    match local_transforms c type with
    | [] => type_required lp type = false
    | [t] => t ∈ local_transforms lp type /\ protoid c = protoid lp
    | _ => False
    end.

Lemma chosen_taken lp r :
  wf_proposal lp = true -> accepts lp (rp_protoid r) (rp_transforms r) = true -> taken_from lp (chosen lp r).
Proof.
  intros Hw Ha type Ht. destruct (chosen_lookup lp r type Ht) as (more&Hl&Hf). unfold local_transforms at 1. rewrite Hl.
  change (default [] (Some ?l)) with l. rewrite Hf.
  pose proof (chosen_transform_spec lp (rp_protoid r) (rp_transforms r) type Hw Ht) as H. cbn zeta in H.
  unfold accepts in Ha. rewrite forallb_forall in Ha. specialize (Ha type ltac:(by apply list_elem_of_In)).
  destruct (type_matches lp (rp_protoid r) (rp_transforms r) type).
  - destruct H as (->&Hin&_&Hp). by split.
  - rewrite H. destruct (type_required lp type); [|done]. by rewrite orb_true_r in Ha.
Qed.

Lemma read_proposals_accepted {E} fuel sa_payload proposal_pbs trans_pbs attr_pbs ei es roof next ps rs ps' :
  @read_proposals E fuel sa_payload proposal_pbs trans_pbs attr_pbs ei es true roof next ps = Ok (inr rs, ps') ->
  rs = [] \/ exists r, rs = [r] /\ 1 <= rp_num r < roof.
Proof.
  destruct fuel as [|fuel]; [done|]. cbn [read_proposals]. intros H.
  destruct (read_proposal _ _ _ _ _ _ _ _ _ _) as [[[code|[[lp next'] item]] ps1]| |] eqn:Hr; try done. rewrite bind_Ok in H.
  apply read_proposal_accepted in Hr as [-> Hnum]. cbn [Z.eqb v2_PROPOSAL_LAST v2_PROPOSAL_NON_LAST] in H.
  rewrite bind_Ok, app_nil_r in H. injection H as <- _. destruct item as [r|]; [right|by left]. by exists r.
Qed.

Lemma negotiate_sound ea local rs :
  wf_proposals local = true ->
  (ea = true -> rs = [] \/ exists r, rs = [r] /\ 1 <= rp_num r < props_roof local) ->
  match negotiate ea local rs with
  | (status, None) => status = if ea then STF_FAIL else STF_NOTIFY v2N_NO_PROPOSAL_CHOSEN
  | (status, Some c) => status = STF_OK /\ exists n lp r, r ∈ rs /\ 1 <= n < props_roof local /\
      proposal local !! Z.to_nat n = Some lp /\ wf_proposal lp = true /\
      accepts lp (rp_protoid r) (rp_transforms r) = true /\ c = chosen lp r /\ (ea = true -> rp_num r = n)
  end.
Proof.
  intros Hw Hea. unfold negotiate. set (numbers := if ea then _ else _).
  destruct (List.find _ numbers) as [n|] eqn:Hn; [|done]. apply find_some in Hn as [Hn Hex].
  apply list_elem_of_In in Hn. apply existsb_exists in Hex as (r0&Hr0&Hm0).
  assert (1 <= n < props_roof local) as Hrange.
  { unfold numbers in Hn. destruct ea; [|apply elem_of_seqZ in Hn; lia].
    destruct (Hea eq_refl) as [->|(r&->&Hr)]; [by apply elem_of_nil in Hn|]. apply list_elem_of_singleton in Hn as ->. done. }
  destruct (local_lookup local Hw n Hrange) as (lp&Hlp&Hwp).
  destruct (List.find (fun r => matching local r n) rs) as [r|] eqn:Hr.
  - apply find_some in Hr as [Hr Hm]. apply list_elem_of_In in Hr. rewrite Hlp. split; [done|]. exists n, lp, r.
    unfold matching, local_accepts in Hm. rewrite Hlp in Hm. do 6 (split; [done|]). intros ->.
    unfold numbers in Hn. destruct (Hea eq_refl) as [->|(s&->&_)]; [by apply elem_of_nil in Hr|].
    apply list_elem_of_singleton in Hn, Hr. by subst.
  - exfalso. eapply List.find_none in Hr; [|exact Hr0]. congruence.
Qed.

(** C5: whatever octets a peer sends as a security association payload, [ikev2_process_sa_payload]
    returns without a failed assertion and without reading outside the payload; an error is one
    of its three documented ones; and a proposal that is chosen has only transforms of one local
    proposal, at most one of each type and one of each type that this proposal requires, with an
    SPI of the size of its protocol. No transform that is not configured can be negotiated. *)
Theorem sa_payload_safe {E} sa_payload proposal_pbs trans_pbs attr_pbs ei es ea local ps p :
  wf_proposals local = true -> NoDup [sa_payload; proposal_pbs; trans_pbs; attr_pbs] ->
  ps_pbs ps !! sa_payload = Some p -> wf_pbs (ps_mem ps) p -> mem_ok (ps_mem ps) ->
  exists status choice ps' e,
    @ikev2_process_sa_payload E sa_payload proposal_pbs trans_pbs attr_pbs ei es ea local ps = Ok (status, choice, ps') /\
    read_to [proposal_pbs; trans_pbs; attr_pbs] sa_payload p e ps ps' /\
    match choice with
    | None => status = STF_NOTIFY v2N_INVALID_SYNTAX \/
              status = if ea then STF_FAIL else STF_NOTIFY v2N_NO_PROPOSAL_CHOSEN
    | Some c =>
        status = STF_OK /\ spi_size (remote_spi c) = (if es then proto_spi_size (protoid c) else 0) /\
        exists n lp, 1 <= n < props_roof local /\ proposal local !! Z.to_nat n = Some lp /\ taken_from lp c /\
          (ea = true -> propnum c = n)
    end.
Proof.
  intros Hw Hd Hp Hwp Hok. rewrite process_sa_payload_eq, (get_pbs_at _ _ _ Hp) by done. run_ok. rewrite (wf_pbs_left _ _ Hwp).
  destruct (read_proposals_safe sa_payload proposal_pbs trans_pbs attr_pbs Hd (E := E) (S (Z.to_nat (roof p - cur p)))
    ei es ea (props_roof local) 1 ps p Hp Hwp Hok ltac:(lia)) as (r&ps'&e&Hread&Hrd&Hr).
  rewrite Hread. run_ok. destruct r as [code|rs]; [eexists _, _, ps', e; split; [done|]; split; [done|]; by left|].
  pose proof (negotiate_sound ea local rs Hw) as Hs.
  specialize (Hs ltac:(intros ->; by eapply read_proposals_accepted)).
  destruct (negotiate ea local rs) as [status [c|]]; eexists _, _, ps', e; (split; [done|]); (split; [done|]); [|by right].
  destruct Hs as (->&n&lp&r&Hin&Hn&Hlp&Hwl&Ha&->&Hnum). rewrite Forall_forall in Hr. destruct (Hr r Hin) as (_&_&Hspi).
  split; [done|]. split; [exact Hspi|]. exists n, lp. split; [done|]. split; [done|]. split; [by apply chosen_taken|exact Hnum].
Qed.
