(* ===== verification/ProposalWire.v ===== *)
(** IKEv2 proposals on the wire: [ikev2_emit_sa_proposals] and [ikev2_emit_sa_proposal] of
    programs/pluto/ikev2_spdb_struct.c write the format of RFC 7296, what was written is what
    [ikev2_process_sa_payload] reads, and a negotiation of two ends ends in agreement. *)
From S2P Require Import Prelude EnumNames Constants Packet PacketSpec PacketObject PacketNest PacketDescs Stf.
From S2P Require Import PacketTheorems TrafficWire Ikev2Payloads Ikev2Proposals ProposalSpec ProposalTheorems.

(** * The wire format *)

(** RFC 7296, section 3.3.5: the key length. *)
Definition attr_wire (keylen : Z) : list Z := be_encode 2 0x800e ++ be_encode 2 keylen.

Definition attrs_wire (t : ikev2_transform) : list Z := if 0 <? attr_keylen t then attr_wire (attr_keylen t) else [].

(** Section 3.3.2: a transform. *)
Definition trans_wire (last : bool) (t : typed_transform) : list Z :=
  [if last then v2_TRANSFORM_LAST else v2_TRANSFORM_NON_LAST; 0] ++
  be_encode 2 (8 + Z.of_nat (length (attrs_wire t.2))) ++ [t.1; 0] ++ be_encode 2 (tr_id t.2) ++ attrs_wire t.2.

Fixpoint transes_wire (l : list typed_transform) : list Z :=
  match l with
  | [] => []
  | t :: l' => trans_wire (match l' with [] => true | _ => false end) t ++ transes_wire l'
  end.

(** Section 3.3.1: a proposal, with the octets of its SPI. *)
Definition prop_wire (lp num pid : Z) (spi : list Z) (l : list typed_transform) : list Z :=
  [lp; 0] ++ be_encode 2 (8 + Z.of_nat (length (spi ++ transes_wire l))) ++
  [num; pid; Z.of_nat (length spi); Z.of_nat (length l)] ++ spi ++ transes_wire l.

Lemma length_attrs_wire t : length (attrs_wire t) = if 0 <? attr_keylen t then 4%nat else 0%nat.
Proof. unfold attrs_wire. by case_match. Qed.

Lemma length_trans_wire last t : length (trans_wire last t) = (8 + length (attrs_wire t.2))%nat.
Proof. unfold trans_wire. rewrite !length_app, !length_be_encode. cbn [length]. lia. Qed.

Lemma length_prop_wire lp num pid spi l :
  length (prop_wire lp num pid spi l) = (8 + length spi + length (transes_wire l))%nat.
Proof. unfold prop_wire. rewrite !length_app, !length_be_encode. cbn [length]. lia. Qed.

(** * Emission *)

Lemma trans_type_known ty : ty ∈ trans_types -> byteZ ty /\ ty mod 2 ^ (8 * 1) = ty.
Proof. intros H. destruct (type_cases ty H) as [-> |[-> |[-> |[-> | ->]]]]; by split; by_decide. Qed.

Definition trans_members (last : bool) (t : typed_transform) : list fval :=
  [FNum (if last then v2_TRANSFORM_LAST else v2_TRANSFORM_NON_LAST); FNum 0; FNum 0; FNum t.1; FNum 0; FNum (tr_id t.2)].

Lemma trans_valid last t :
  wire_transform t ->
  valid_fields ikev2_trans_desc (sd_fields ikev2_trans_desc) (trans_members last t) fs0 /\
  (forall total, wire (len_bytes total) (sd_fields ikev2_trans_desc) (trans_members last t) fs0 =
    [if last then v2_TRANSFORM_LAST else v2_TRANSFORM_NON_LAST; 0] ++ be_encode 2 total ++ [t.1; 0] ++ be_encode 2 (tr_id t.2)) /\
  (forall total, host_values total (sd_fields ikev2_trans_desc) (trans_members last t) fs0 =
    [FNum (if last then v2_TRANSFORM_LAST else v2_TRANSFORM_NON_LAST); FBytes [0]; FNum total; FNum t.1; FBytes [0];
     FNum (tr_id t.2)]).
Proof.
  intros (Ht&Hid&_&_). destruct t as [ty t]. cbn [fst snd] in *.
  assert (tr_id t mod 2 ^ (8 * 2) = tr_id t) as Hm by (apply Z.mod_small; exact Hid). unfold trans_members. cbn [fst snd].
  split; [|split].
  - destruct last, (type_cases ty Ht) as [-> |[-> |[-> |[-> | ->]]]];
      cbn [sd_fields ikev2_trans_desc ikev2trans_fields valid_fields fd_type fd_size val_num deferred is_lenfld andb];
      rewrite Hm; repeat (split; [by eexists|]; split; [vm_compute; reflexivity|]); done.
  - intros total. destruct last, (type_cases ty Ht) as [-> |[-> |[-> |[-> | ->]]]];
      cbn [sd_fields ikev2_trans_desc ikev2trans_fields wire fd_type fd_size val_num deferred is_lenfld andb negb immediate fs0 next_fs];
      rewrite Hm; done.
  - intros total. destruct last, (type_cases ty Ht) as [-> |[-> |[-> |[-> | ->]]]];
      cbn [sd_fields ikev2_trans_desc ikev2trans_fields host_values fd_type fd_size val_num deferred is_lenfld andb negb immediate fs0 next_fs];
      rewrite Hm; done.
Qed.

Definition attr_members (keylen : Z) : list fval := [FNum (Z.lor IKEv2_KEY_LENGTH ISAKMP_ATTR_AF_TV); FNum keylen].

Lemma attr_valid k :
  0 <= k < 2 ^ 16 ->
  valid_fields ikev2_trans_attr_desc (sd_fields ikev2_trans_attr_desc) (attr_members k) fs0 /\
  has_deferred (sd_fields ikev2_trans_attr_desc) (attr_members k) fs0 = false /\
  (forall lb, wire lb (sd_fields ikev2_trans_attr_desc) (attr_members k) fs0 = attr_wire k) /\
  (forall total, host_values total (sd_fields ikev2_trans_attr_desc) (attr_members k) fs0 = attr_members k).
Proof.
  intros Hk. assert (k mod 2 ^ (8 * 2) = k) as Hm by (apply Z.mod_small; exact Hk). unfold attr_members, attr_wire.
  cbn [sd_fields ikev2_trans_attr_desc ikev2_trans_attr_fields valid_fields has_deferred wire host_values fd_type fd_size val_num
       deferred is_lenfld andb negb immediate fs0 next_fs].
  change (Z.lor IKEv2_KEY_LENGTH ISAKMP_ATTR_AF_TV) with 0x800e. change (0x800e mod 2 ^ (8 * 2)) with 0x800e.
  change (is_af_tv 0x800e) with true. cbn [negb immediate orb]. rewrite Hm.
  split; [|split; [done|split; [done|done]]]. split; [by eexists|]. split; [vm_compute; reflexivity|].
  split; [by eexists|]. done.
Qed.

Lemma out_attr_wrote k o st q :
  0 <= k < 2 ^ 16 -> ps_pbs st !! o = Some q -> wf_pbs (ps_mem st) q -> 4 <= roof q - cur q ->
  exists st', ikev2_out_attr IKEv2_KEY_LENGTH k o st = Ok st' /\ wrote [] o (attr_wire k) st st'.
Proof.
  intros Hk Hq Hw Hr. destruct (attr_valid k Hk) as (Hv&Hd&Hwire&_).
  destruct (leaf_wrote (attr_members k) ikev2_trans_attr_desc o st q eq_refl Hq Hw Hv Hd Hr) as (st'&Ho&W).
  exists st'. split; [|by rewrite Hwire in W]. unfold ikev2_out_attr. rewrite Z.eqb_refl.
  rewrite Z.shiftr_div_pow2, Z.div_small by lia. run_ok. exact Ho.
Qed.

Lemma emit_transform_wrote o o1 last t st p :
  wire_transform t -> ps_pbs st !! o = Some p -> wf_pbs (ps_mem st) p -> o <> o1 ->
  Z.of_nat (length (trans_wire last t)) <= roof p - cur p ->
  exists st', emit_transform o o1 t.1 last t.2 st = Ok st' /\ wrote [o1] o (trans_wire last t) st st'.
Proof.
  intros Ht Hp Hw Hne Hr. rewrite length_trans_wire in Hr. destruct (trans_valid last t Ht) as (Hv&Hwire&_).
  destruct (object_wrote _ ikev2_trans_desc o o1 st p eq_refl Hp Hw Hne Hv) as (st1&q&H1&Hq&Hwq&Hc&Hrq&Close);
    [cbn [sd_size ikev2_trans_desc]; lia|]. cbn [sd_size ikev2_trans_desc] in *.
  assert (exists st2, (if 0 <? attr_keylen t.2 then ikev2_out_attr IKEv2_KEY_LENGTH (attr_keylen t.2) o1 st1 else Ok st1) = Ok st2 /\
    wrote [] o1 (attrs_wire t.2) st1 st2) as (st2&H2&W2).
  { rewrite length_attrs_wire in Hr. unfold attrs_wire. destruct (0 <? attr_keylen t.2).
    - apply (out_attr_wrote _ _ _ q); try done; [by destruct Ht as (_&_&?&_)|lia].
    - exists st1. split; [done|]. exists q. cbn. rewrite Z.add_0_r, set_cur_cur. done. }
  destruct (Close (diag * pstate)%type [] _ _ W2) as (st3&H3&W3); [apply not_elem_of_nil|rewrite length_attrs_wire in *; case_match; lia..|].
  exists st3. unfold emit_transform. fold (trans_members last t). rewrite H1. run_ok. rewrite H2. run_ok. split; [exact H3|].
  rewrite Hwire in W3. unfold trans_wire. rewrite <- !app_assoc in W3. exact W3.
Qed.

Lemma emit_transforms_wrote o o1 l : forall st p,
  Forall wire_transform l -> ps_pbs st !! o = Some p -> wf_pbs (ps_mem st) p -> o <> o1 ->
  Z.of_nat (length (transes_wire l)) <= roof p - cur p ->
  exists st' T, emit_transforms o o1 (Z.of_nat (length l)) l st = Ok st' /\ T ⊆ [o1] /\ wrote T o (transes_wire l) st st'.
Proof.
  induction l as [|t l IH]; intros st p Hl Hp Hw Hne Hr.
  { exists st, []. split; [done|]. split; [set_solver|]. exists p. cbn. rewrite Z.add_0_r, set_cur_cur. done. }
  apply Forall_cons in Hl as [Ht Hl]. cbn [transes_wire emit_transforms length] in *. destruct t as [ty t].
  set (last := match l with [] => true | _ => false end) in *.
  replace (Z.of_nat (S (length l)) - 1) with (Z.of_nat (length l)) by lia.
  assert ((Z.of_nat (length l) =? 0) = last) as -> by (unfold last; destruct l; done).
  rewrite length_app in Hr.
  destruct (emit_transform_wrote o o1 last (ty, t) st p Ht Hp Hw Hne ltac:(lia)) as (st1&H1&W1).
  cbn [fst snd] in H1. rewrite H1. run_ok. destruct (wrote_stream _ _ _ _ _ _ W1 Hp Hw ltac:(lia)) as [Hp1 Hw1].
  destruct (IH st1 _ Hl Hp1 Hw1 Hne) as (st2&T&->&HT&W2); [cbn [roof cur set_cur]; lia|].
  exists st2, ([o1] ++ T). split; [done|]. split; [set_solver|]. by eapply wrote_app.
Qed.

(** A proposal that can be emitted with an SPI [spi]. *)
Definition known_proto (pid : Z) : Prop :=
  byteZ pid /\ exists s, @enum_name diag ikev2_sec_proto_id_names pid = Ok (Some s).
Definition is_lp (lp : Z) : Prop := lp = v2_PROPOSAL_LAST \/ lp = v2_PROPOSAL_NON_LAST.

Definition prop_members (lp num pid : Z) (spisize numtrans : Z) : list fval :=
  [FNum lp; FNum 0; FNum 0; FNum num; FNum pid; FNum spisize; FNum numtrans].

Lemma prop_valid lp num pid spisize numtrans :
  is_lp lp -> byteZ num -> known_proto pid -> byteZ spisize -> byteZ numtrans ->
  valid_fields ikev2_prop_desc (sd_fields ikev2_prop_desc) (prop_members lp num pid spisize numtrans) fs0 /\
  (forall total, wire (len_bytes total) (sd_fields ikev2_prop_desc) (prop_members lp num pid spisize numtrans) fs0 =
    [lp; 0] ++ be_encode 2 total ++ [num; pid; spisize; numtrans]) /\
  (forall total, host_values total (sd_fields ikev2_prop_desc) (prop_members lp num pid spisize numtrans) fs0 =
    [FNum lp; FBytes [0]; FNum total; FNum num; FNum pid; FNum spisize; FNum numtrans]).
Proof.
  intros Hlp Hn [Hp [s Hs]] Hz Ht. assert (forall n, byteZ n -> n mod 2 ^ (8 * 1) = n) as Hm by (intros n H; by apply Z.mod_small).
  assert (byteZ lp) as Hl by (destruct Hlp as [-> | ->]; by_decide). unfold prop_members.
  cbn [sd_fields ikev2_prop_desc ikev2prop_fields valid_fields wire host_values fd_type fd_size val_num
       deferred is_lenfld andb negb immediate fs0 next_fs].
  rewrite !Hm by done. change (Z.to_nat 1) with 1%nat. rewrite !be_encode_1 by done. split; [|done].
  split; [by eexists|]. split; [destruct Hlp as [-> | ->]; vm_compute; reflexivity|].
  repeat (split; [by eexists|]; split; [try reflexivity|]); try done.
  unfold check_value, enum_check, enum_of. cbn [fd_type fd_desc]. by rewrite Hs.
Qed.

(** The SPI that [emit_proposal] is given, as octets. *)
Definition spi_octets (local_spi : option (list Z)) : list Z := default [] local_spi.

Lemma emit_proposal_wrote o o1 o2 p num local_spi lp st q :
  is_lp lp -> byteZ num -> known_proto (protoid p) -> byteZ (Z.of_nat (length (spi_octets local_spi))) ->
  Forall wire_transform (all_transforms p) -> byteZ (Z.of_nat (length (all_transforms p))) ->
  ps_pbs st !! o = Some q -> wf_pbs (ps_mem st) q -> NoDup [o; o1; o2] ->
  let w := prop_wire lp num (protoid p) (spi_octets local_spi) (all_transforms p) in
  Z.of_nat (length w) <= roof q - cur q -> Z.of_nat (length w) < 2 ^ 32 ->
  exists st' T, emit_proposal o o1 o2 p num local_spi lp st = Ok st' /\ T ⊆ [o1; o2] /\ wrote T o w st st'.
Proof.
  intros Hlp Hn Hpid Hs Ht Hnt Hq Hw Hd w Hr Hb. unfold w in Hr, Hb. rewrite length_prop_wire in Hr, Hb.
  assert (o <> o1 /\ o <> o2 /\ o1 <> o2) as (N1&N2&N3).
  { rewrite !NoDup_cons, !not_elem_of_cons in Hd. tauto. }
  set (spi := spi_octets local_spi) in *. set (ts := all_transforms p) in *.
  destruct (prop_valid lp num (protoid p) (Z.of_nat (length spi)) (Z.of_nat (length ts)) Hlp Hn Hpid Hs Hnt) as (Hv&Hwire&_).
  destruct (object_wrote _ ikev2_prop_desc o o1 st q eq_refl Hq Hw N1 Hv) as (st1&q1&H1&Hq1&Hw1&Hc1&Hr1&Close);
    [cbn [sd_size ikev2_prop_desc]; lia|]. cbn [sd_size ikev2_prop_desc] in *.
  assert (exists st2, (match local_spi with Some spi => out_raw spi o1 "our spi" st1 | None => Ok st1 end) = Ok st2 /\
    wrote [] o1 spi st1 st2) as (st2&H2&W2).
  { unfold spi, spi_octets in *. destruct local_spi as [s|]; cbn [default from_option id] in *.
    - apply (out_raw_wrote _ _ _ _ q1); try done. lia.
    - exists st1. split; [done|]. exists q1. cbn. rewrite Z.add_0_r, set_cur_cur. done. }
  destruct (wrote_stream _ _ _ _ _ _ W2 Hq1 Hw1 ltac:(lia)) as [Hq2 Hw2].
  destruct (emit_transforms_wrote o1 o2 ts st2 _ Ht Hq2 Hw2 N3) as (st3&T&H3&HT&W3); [cbn [roof cur set_cur]; lia|].
  destruct (Close (diag * pstate)%type ([] ++ T) _ _ (wrote_app _ _ _ _ _ _ _ _ W2 W3)) as (st4&H4&W4);
    [set_solver|rewrite length_app; lia..|].
  exists st4, (o1 :: [] ++ T). split; [|split; [set_solver|]].
  - unfold emit_proposal. fold ts. unfold prop_members in H1.
    assert ((match local_spi with Some spi => Z.of_nat (length spi) | None => 0 end) = Z.of_nat (length spi)) as ->
      by (by destruct local_spi).
    rewrite H1. run_ok. rewrite H2. run_ok. rewrite H3. run_ok. exact H4.
  - rewrite Hwire in W4. unfold w, prop_wire. rewrite <- !app_assoc in W4. exact W4.
Qed.

(** The proposals of an array with their numbers. *)
Definition numbered (ps : ikev2_proposals) (range : list Z) : list (Z * ikev2_proposal) :=
  omap (fun n => pair n <$> proposal ps !! Z.to_nat n) range.

Lemma numbered_cons ps n l p :
  proposal ps !! Z.to_nat n = Some p -> numbered ps (n :: l) = (n, p) :: numbered ps l.
Proof. intros H. unfold numbered. cbn [omap list_omap]. by rewrite H. Qed.

Fixpoint props_wire (spi : list Z) (l : list (Z * ikev2_proposal)) : list Z :=
  match l with
  | [] => []
  | (n, p) :: l' =>
      prop_wire (match l' with [] => v2_PROPOSAL_LAST | _ => v2_PROPOSAL_NON_LAST end) n (protoid p) spi (all_transforms p)
      ++ props_wire spi l'
  end.

(** Section 3.3: the payload. *)
Definition sa_wire (np critical : Z) (body : list Z) : list Z :=
  [np; critical] ++ be_encode 2 (4 + Z.of_nat (length body)) ++ body.

(** What [emit_proposal] can put on the wire. *)
Definition emittable (p : ikev2_proposal) : Prop :=
  known_proto (protoid p) /\ Forall wire_transform (all_transforms p) /\ byteZ (Z.of_nat (length (all_transforms p))).

Lemma sa_valid np critical :
  known_payload np -> critical = 0 \/ critical = ISAKMP_PAYLOAD_LIBRESWAN_BOGUS ->
  valid_fields ikev2_sa_desc (sd_fields ikev2_sa_desc) [FNum np; FNum critical; FNum 0] fs0 /\
  (forall total, wire (len_bytes total) (sd_fields ikev2_sa_desc) [FNum np; FNum critical; FNum 0] fs0 =
    [np; critical] ++ be_encode 2 total).
Proof.
  intros [Hb [s Hs]] Hc. assert (np mod 2 ^ (8 * 1) = np) as Hm by (by apply Z.mod_small).
  cbn [sd_fields ikev2_sa_desc ikev2generic_fields valid_fields wire fd_type fd_size val_num
       deferred is_lenfld andb negb immediate fs0 next_fs].
  rewrite Hm. change (Z.to_nat 1) with 1%nat. rewrite be_encode_1 by done. split.
  - split; [by eexists|]. split; [unfold check_value, enum_check, enum_of; cbn [fd_type fd_desc]; by rewrite Hs|].
    split; [by eexists|]. split; [destruct Hc as [-> | ->]; vm_compute; reflexivity|done].
  - intros total. by destruct Hc as [-> | ->].
Qed.

Section EmitAll.
Context (ps : ikev2_proposals) (local_spi : option (list Z)) (o o1 o2 : nat).
Context (wf_spi : byteZ (Z.of_nat (length (spi_octets local_spi)))) (distinct : NoDup [o; o1; o2]).
Context (small : props_roof ps <= 256).
Context (all_emittable : forall n, 1 <= n < props_roof ps -> exists p, proposal ps !! Z.to_nat n = Some p /\ emittable p).

Lemma emit_range_wrote k : forall a st q,
  1 <= a -> props_roof ps - a = Z.of_nat k -> ps_pbs st !! o = Some q -> wf_pbs (ps_mem st) q ->
  let w := props_wire (spi_octets local_spi) (numbered ps (seqZ a (props_roof ps - a))) in
  Z.of_nat (length w) <= roof q - cur q -> Z.of_nat (length w) < 2 ^ 32 ->
  exists st' T,
    fold_outcome (fun st propnum =>
      p ← defined (proposal ps !! Z.to_nat propnum);
      emit_proposal o o1 o2 p propnum local_spi
        (if propnum <? props_roof ps - 1 then v2_PROPOSAL_NON_LAST else v2_PROPOSAL_LAST) st)
      st (seqZ a (props_roof ps - a)) = Ok st' /\ T ⊆ [o1; o2] /\ wrote T o w st st'.
Proof.
  induction k as [|k IH]; intros a st q Ha Hk Hq Hw w Hr Hb.
  { unfold w. rewrite seqZ_nil by lia. exists st, []. split; [done|]. split; [set_solver|].
    exists q. cbn. rewrite Z.add_0_r, set_cur_cur. done. }
  unfold w in *. rewrite (seqZ_cons a) in Hr, Hb |- * by lia. replace (Z.pred (props_roof ps - a)) with (props_roof ps - Z.succ a) in * by lia.
  destruct (all_emittable a ltac:(lia)) as (p&Hp&Hpid&Ht&Hnt). cbn [fold_outcome].
  rewrite (numbered_cons _ _ _ _ Hp) in Hr, Hb |- *. rewrite Hp. cbn [props_wire] in *. run_ok. clear w.
  set (rest := numbered ps (seqZ (Z.succ a) _)) in *.
  assert ((if a <? props_roof ps - 1 then v2_PROPOSAL_NON_LAST else v2_PROPOSAL_LAST) =
    match rest with [] => v2_PROPOSAL_LAST | _ => v2_PROPOSAL_NON_LAST end) as ->.
  { unfold rest. destruct (Z.ltb_spec a (props_roof ps - 1)).
    - rewrite seqZ_cons by lia. destruct (all_emittable (Z.succ a) ltac:(lia)) as (p'&Hp'&_).
      by rewrite (numbered_cons _ _ _ _ Hp').
    - by rewrite seqZ_nil by lia. }
  set (lp := match rest with [] => _ | _ => _ end) in *. rewrite length_app in Hr, Hb.
  destruct (emit_proposal_wrote o o1 o2 p a local_spi lp st q) as (st1&T1&->&HT1&W1); try done; [| |lia|lia|].
  { unfold lp. destruct rest; [by left|by right]. }
  { split; lia. }
  run_ok. destruct (wrote_stream _ _ _ _ _ _ W1 Hq Hw ltac:(lia)) as [Hq1 Hw1].
  destruct (IH (Z.succ a) st1 _ ltac:(lia) ltac:(lia) Hq1 Hw1) as (st2&T2&->&HT2&W2);
    [fold rest; cbn [roof cur set_cur]; lia|fold rest; lia|].
  exists st2, (T1 ++ T2). split; [done|]. split; [set_solver|]. by eapply wrote_app.
Qed.
End EmitAll.

(** The payload with all the proposals. *)
Lemma emit_sa_proposals_wrote ps local_spi (impair : bool) np (pbs sa_pbs proposal_pbs trans_pbs : nat) st q :
  NoDup [pbs; sa_pbs; proposal_pbs; trans_pbs] -> known_payload np -> byteZ (Z.of_nat (length (spi_octets local_spi))) ->
  1 <= props_roof ps <= 256 ->
  (forall n, 1 <= n < props_roof ps -> exists p, proposal ps !! Z.to_nat n = Some p /\ emittable p) ->
  ps_pbs st !! pbs = Some q -> wf_pbs (ps_mem st) q ->
  let body := props_wire (spi_octets local_spi) (numbered ps (FOR_EACH_PROPOSAL ps)) in
  let w := sa_wire np (if impair then ISAKMP_PAYLOAD_LIBRESWAN_BOGUS else 0) body in
  Z.of_nat (length w) <= roof q - cur q -> Z.of_nat (length w) < 2 ^ 32 ->
  exists st' T, ikev2_emit_sa_proposals pbs sa_pbs proposal_pbs trans_pbs impair ps local_spi np st = Ok st' /\
    T ⊆ [sa_pbs; proposal_pbs; trans_pbs] /\ wrote T pbs w st st'.
Proof.
  intros Hd Hnp Hspi Hroof Hall Hq Hw body w Hr Hb. set (critical := if impair then _ else _) in *.
  assert (length w = 4 + length body)%nat as Hlen
    by (unfold w, sa_wire; rewrite !length_app, length_be_encode; cbn [length]; lia). rewrite Hlen in Hr, Hb.
  destruct (sa_valid np critical Hnp ltac:(unfold critical; destruct impair; auto)) as (Hv&Hwire).
  pose proof Hd as Hd'. rewrite !NoDup_cons, !not_elem_of_cons in Hd'.
  destruct (object_wrote _ ikev2_sa_desc pbs sa_pbs st q eq_refl Hq Hw ltac:(tauto) Hv) as (st1&q1&H1&Hq1&Hw1&Hc1&Hr1&Close);
    [cbn [sd_size ikev2_sa_desc]; lia|]. cbn [sd_size ikev2_sa_desc] in *.
  destruct (emit_range_wrote ps local_spi sa_pbs proposal_pbs trans_pbs Hspi ltac:(by apply NoDup_cons in Hd as [_ Hd]) ltac:(lia) Hall
    (Z.to_nat (props_roof ps - 1)) 1 st1 q1 ltac:(lia) ltac:(lia) Hq1 Hw1) as (st2&T&H2&HT&W2);
    [unfold body, FOR_EACH_PROPOSAL in *; lia|unfold body, FOR_EACH_PROPOSAL in *; lia|].
  destruct (Close (diag * pstate)%type T _ _ W2) as (st3&H3&W3);
    [set_solver|unfold body, FOR_EACH_PROPOSAL in *; lia|unfold body, FOR_EACH_PROPOSAL in *; lia|].
  exists st3, (sa_pbs :: T). split; [|split; [set_solver|]].
  - unfold ikev2_emit_sa_proposals. fold critical. rewrite H1. run_ok. unfold FOR_EACH_PROPOSAL. rewrite H2. run_ok. exact H3.
  - rewrite Hwire in W3. unfold w, sa_wire. rewrite <- app_assoc in W3. exact W3.
Qed.

(** The payload with one proposal. *)
Lemma emit_sa_proposal_wrote p local_spi np (pbs sa_pbs proposal_pbs trans_pbs : nat) st q :
  NoDup [pbs; sa_pbs; proposal_pbs; trans_pbs] -> known_payload np -> byteZ (Z.of_nat (length (spi_octets local_spi))) ->
  emittable p -> byteZ (propnum p) -> ps_pbs st !! pbs = Some q -> wf_pbs (ps_mem st) q ->
  let w := sa_wire np 0 (props_wire (spi_octets local_spi) [(propnum p, p)]) in
  Z.of_nat (length w) <= roof q - cur q -> Z.of_nat (length w) < 2 ^ 32 ->
  exists st' T, ikev2_emit_sa_proposal pbs sa_pbs proposal_pbs trans_pbs p local_spi np st = Ok st' /\
    T ⊆ [sa_pbs; proposal_pbs; trans_pbs] /\ wrote T pbs w st st'.
Proof.
  intros Hd Hnp Hspi (Hpid&Ht&Hnt) Hn Hq Hw w Hr Hb. unfold w in *. cbn [props_wire] in *. rewrite app_nil_r in *.
  set (body := prop_wire _ _ _ _ _) in *.
  assert (length (sa_wire np 0 body) = 4 + length body)%nat as Hlen
    by (unfold sa_wire; rewrite !length_app, length_be_encode; cbn [length]; lia). rewrite Hlen in Hr, Hb.
  destruct (sa_valid np 0 Hnp ltac:(auto)) as (Hv&Hwire). pose proof Hd as Hd'. rewrite !NoDup_cons, !not_elem_of_cons in Hd'.
  destruct (object_wrote _ ikev2_sa_desc pbs sa_pbs st q eq_refl Hq Hw ltac:(tauto) Hv) as (st1&q1&H1&Hq1&Hw1&Hc1&Hr1&Close);
    [cbn [sd_size ikev2_sa_desc]; lia|]. cbn [sd_size ikev2_sa_desc] in *.
  destruct (emit_proposal_wrote sa_pbs proposal_pbs trans_pbs p (propnum p) local_spi v2_PROPOSAL_LAST st1 q1) as (st2&T&H2&HT&W2);
    try done; [by left|by apply NoDup_cons in Hd as [_ Hd]|fold body; lia|fold body; lia|]. fold body in W2.
  destruct (Close (diag * pstate)%type T _ _ W2) as (st3&H3&W3); [set_solver|lia..|].
  exists st3, (sa_pbs :: T). split; [|split; [set_solver|]].
  - unfold ikev2_emit_sa_proposal. rewrite H1. run_ok. rewrite H2. run_ok. exact H3.
  - rewrite Hwire in W3. unfold sa_wire. rewrite <- app_assoc in W3. exact W3.
Qed.

(** * Reading back *)

(** The stream [i] is at the octets [bs]. *)
Definition at_octets (ps : pstate) (i : nat) (p : pb_stream) (bs : list Z) : Prop :=
  ps_pbs ps !! i = Some p /\ wf_pbs (ps_mem ps) p /\ Z.of_nat (length bs) <= roof p - cur p /\
  load_bytes (ps_mem ps) (cur p) (length bs) = Some bs.

(** What is left when a part has been read. *)
Lemma at_octets_rest T ps i p a b e ps' :
  at_octets ps i p (a ++ b) -> e = cur p + Z.of_nat (length a) -> read_to T i p e ps ps' ->
  at_octets ps' i (set_cur e p) b.
Proof.
  intros (Hp&Hw&Hr&Hld) -> Hrd. pose proof (read_to_wf _ _ _ _ _ _ Hw Hrd) as Hw'. destruct Hrd as (Hm&_&Hp'&_).
  split; [done|]. split; [done|]. apply load_bytes_cat in Hld as [_ Hld]. rewrite length_app in Hr. cbn [roof cur set_cur].
  split; [lia|]. by rewrite Hm.
Qed.

(** A structure at the cursor, with [body] after it: the stream of the object holds the body. *)
Lemma in_struct_at vs sd ins obj ps p body total :
  wf_desc sd = true -> ins <> obj -> valid_fields sd (sd_fields sd) vs fs0 -> representable sd vs total ->
  sd_size sd <= total -> total = sd_size sd + Z.of_nat (length body) ->
  at_octets ps ins p (wire (len_bytes total) (sd_fields sd) vs fs0 ++ body) ->
  exists ps' q, in_struct sd ins (Some obj) ps = Ok (host_values total (sd_fields sd) vs fs0, ps') /\
    read_to [obj] ins p (cur p + total) ps ps' /\ at_octets ps' obj q body /\ roof q = cur q + Z.of_nat (length body).
Proof.
  intros Hd Hne Hv Hrep Hsz -> (Hp&Hw&Hr&Hld). pose proof (wf_desc_inv _ Hd) as (Hf&Hs&_).
  pose proof (length_wire (len_bytes (sd_size sd + Z.of_nat (length body))) sd _ _ _ Hf Hv (len_bytes_length sd _)) as Hlen. rewrite Hs in Hlen.
  rewrite length_app, Nat2Z.inj_add, Hlen in Hr. apply load_bytes_cat in Hld as [Hld1 Hld2]. rewrite Hlen in Hld2.
  destruct Hw as (?&?&Hm).
  eexists _, (mk_pbs (Some ins) (Some sd) (sd_name sd) (cur p) (cur p + sd_size sd)
    (cur p + (sd_size sd + Z.of_nat (length body))) None). split; [apply in_struct_wire; try done; try lia; by split|].
  split; [|split; [split; [|split; [|split; [|exact Hld2]]]|]].
  - split; [done|]. split; [lia|]. split; [apply lookup_insert_eq|]. intros o' Ho HT.
    rewrite not_elem_of_cons in HT. cbn [ps_pbs]. by rewrite !lookup_insert_ne by naive_solver.
  - cbn [ps_pbs]. rewrite lookup_insert_ne by done. apply lookup_insert_eq.
  - split; [cbn; lia|]. split; [cbn; lia|]. intros x Hx. apply Hm. cbn in Hx. lia.
  - cbn [roof cur]. lia.
  - cbn [roof cur]. lia.
Qed.

Section ReadBack.
Context (sa_payload proposal_pbs trans_pbs attr_pbs : nat).
Context (distinct : NoDup [sa_payload; proposal_pbs; trans_pbs; attr_pbs]).

Lemma read_attributes_reads {E} t ps q :
  wire_transform t -> at_octets ps trans_pbs q (attrs_wire t.2) -> roof q = cur q + Z.of_nat (length (attrs_wire t.2)) ->
  exists ps', @read_attributes E (S (length (attrs_wire t.2))) trans_pbs attr_pbs 0 ps = Ok (inr (attr_keylen t.2), ps') /\
    read_to [attr_pbs] trans_pbs q (roof q) ps ps'.
Proof.
  intros (_&_&Hk&_) Hat Hroof. destruct (streams_differ _ _ _ _ distinct) as (_&_&_&_&_&N).
  pose proof Hat as (Hq&Hw&_&_). cbn [read_attributes]. rewrite (get_pbs_at _ _ _ Hq). run_ok. rewrite (wf_pbs_left _ _ Hw).
  unfold attrs_wire in *. destruct (Z.ltb_spec 0 (attr_keylen t.2)) as [Hpos|Hz].
  - change (length (attr_wire (attr_keylen t.2))) with 4%nat in *. rewrite (proj2 (Z.eqb_neq _ 0)) by lia.
    destruct (attr_valid _ Hk) as (Hv&_&Hwire&Hhost).
    destruct (in_struct_at (attr_members (attr_keylen t.2)) ikev2_trans_attr_desc trans_pbs attr_pbs ps q [] 4) as (ps'&q'&->&Hrd&_);
      try done; [|by rewrite Hwire, app_nil_r|].
    { split; [|right; done]. repeat (constructor; [unfold len_fits; cbn; (done || lia)|]). constructor. }
    rewrite Hhost. unfold attr_members. rewrite Z.eqb_refl. change 4%nat with (S 3). cbn [read_attributes].
    pose proof (read_to_wf _ _ _ _ _ _ Hw Hrd) as Hw'. pose proof Hrd as (_&_&Hq'&_).
    rewrite (get_pbs_at _ _ _ Hq'). run_ok. rewrite (wf_pbs_left _ _ Hw'). cbn [roof cur set_cur].
    rewrite (proj2 (Z.eqb_eq _ 0)) by lia. exists ps'. split; [done|]. by replace (roof q) with (cur q + 4) by lia.
  - cbn [length] in Hroof. rewrite (proj2 (Z.eqb_eq _ 0)) by lia. exists ps. replace (attr_keylen t.2) with 0 by lia.
    split; [done|]. replace (roof q) with (cur q) by lia. by apply read_to_refl.
Qed.
Lemma read_transform_reads {E} last t more ps p :
  wire_transform t -> at_octets ps proposal_pbs p (trans_wire last t ++ more) ->
  exists ps', @read_transform E proposal_pbs trans_pbs attr_pbs ps = Ok (inr t, ps') /\
    read_to [trans_pbs; attr_pbs] proposal_pbs p (cur p + Z.of_nat (length (trans_wire last t))) ps ps'.
Proof.
  intros Ht Hat. destruct (streams_differ _ _ _ _ distinct) as (_&_&_&N1&N2&N3).
  destruct (trans_valid last t Ht) as (Hv&Hwire&Hhost). rewrite length_trans_wire.
  set (total := 8 + Z.of_nat (length (attrs_wire t.2))).
  assert (length (attrs_wire t.2) <= 4)%nat as Hal by (rewrite length_attrs_wire; destruct (0 <? _); lia).
  destruct (in_struct_at (trans_members last t) ikev2_trans_desc proposal_pbs trans_pbs ps p (attrs_wire t.2) total) as (ps1&q&H1&Hrd&Haq&Hrq);
    try done; [|unfold total; cbn [sd_size ikev2_trans_desc]; lia| |].
  { split; [|left; done]. repeat (constructor; [unfold len_fits, total; cbn; (done || lia)|]). constructor. }
  { destruct Hat as (Hp&Hw&Hr&Hld). apply load_bytes_cat in Hld as [Hld _]. rewrite length_app in Hr.
    unfold trans_wire in Hr, Hld. fold total in Hr, Hld. rewrite !(app_assoc _ _ (attrs_wire t.2)) in Hr, Hld.
    rewrite Hwire. rewrite <- !app_assoc in *. split; [done|]. split; [done|]. split; [lia|done]. }
  unfold read_transform. rewrite H1, Hhost. destruct t as [ty t]. cbn [fst snd] in *.
  pose proof Ht as (Hty&_&_&Hvalid). cbn [fst snd] in Hty, Hvalid. pose proof Hty as Hrange. apply elem_of_seqZ in Hrange.
  rewrite (proj2 (Z.eqb_neq ty 0)), (proj2 (Z.leb_gt IKEv2_TRANS_TYPE_ROOF ty)) by lia.
  pose proof Haq as (Hq&Hwq&_&_). rewrite (get_pbs_at _ _ _ Hq). run_ok. rewrite (wf_pbs_left _ _ Hwq).
  replace (Z.to_nat (roof q - cur q)) with (length (attrs_wire t)) by lia.
  destruct (read_attributes_reads (E := E) (ty, t) ps1 q Ht Haq Hrq) as (ps2&H2&Hrd2). cbn [fst snd] in H2. rewrite H2. run_ok.
  exists ps2. split; [destruct t; cbn in *; by subst|].
  replace (Z.of_nat (8 + length (attrs_wire t))) with total by (unfold total; lia).
  eapply (read_to_below _ [attr_pbs]); [apply (read_to_more [trans_pbs]); [clear; set_solver|exact Hrd]|exact Hrd2|(clear -N1 N2 N3; set_solver)..].
Qed.

(** The integrity transforms are not a mixture that is skipped. *)
Fixpoint integrity_ok (first : Z) (l : list typed_transform) : bool :=
  match l with
  | [] => true
  | (ty, t) :: l' => match note_integrity first ty (tr_id t) with Some first => integrity_ok first l' | None => false end
  end.

Lemma read_transforms_reads {E} l : forall first ps p more,
  Forall wire_transform l -> integrity_ok first l = true -> at_octets ps proposal_pbs p (transes_wire l ++ more) ->
  exists ps', @read_transforms E (length l) proposal_pbs trans_pbs attr_pbs first ps = Ok (inr l, ps') /\
    read_to [trans_pbs; attr_pbs] proposal_pbs p (cur p + Z.of_nat (length (transes_wire l))) ps ps'.
Proof.
  induction l as [|t l IH]; intros first ps p more Hl Hi Hat.
  { exists ps. split; [done|]. cbn. rewrite Z.add_0_r. destruct Hat as (?&?&_). by apply read_to_refl. }
  apply Forall_cons in Hl as [Ht Hl]. cbn [transes_wire length read_transforms] in *. rewrite <- app_assoc in Hat.
  set (last := match l with [] => true | _ => false end) in *.
  destruct (read_transform_reads (E := E) last t _ ps p Ht Hat) as (ps1&->&Hrd1). run_ok. destruct t as [ty t].
  cbn [integrity_ok] in Hi. destruct (note_integrity first ty (tr_id t)) as [first'|]; [|done].
  destruct (IH first' ps1 _ more Hl Hi (at_octets_rest _ _ _ _ _ _ _ _ Hat eq_refl Hrd1)) as (ps2&->&Hrd2). run_ok.
  exists ps2. split; [done|]. eapply read_to_trans; [exact Hrd1|]. cbn [cur set_cur] in Hrd2.
  rewrite length_app, Nat2Z.inj_add, Z.add_assoc. exact Hrd2.
Qed.

(** The SPI as [ikev2_process_sa_payload] keeps it. *)
Definition spi_of (spi : list Z) : ikev2_spi := mk_spi (spi ++ replicate (8 - length spi) 0) (Z.of_nat (length spi)).

(** The octets of an SPI have the size that the receiver expects. *)
Definition spi_fits (es : bool) (pid : Z) (spi : list Z) : Prop :=
  if es then Z.of_nat (length spi) = proto_spi_size pid /\ proto_spi_size pid <> 0 else spi = [].

Lemma read_spi_reads {E} es pid spi more ps p :
  spi_fits es pid spi -> at_octets ps proposal_pbs p (spi ++ more) ->
  exists ps', @read_spi E es pid (Z.of_nat (length spi)) proposal_pbs ps = Ok (inr (spi_of spi), ps') /\
    read_to [] proposal_pbs p (cur p + Z.of_nat (length spi)) ps ps'.
Proof.
  intros Hs Hat. pose proof Hat as (Hp&Hw&Hr&Hld). apply load_bytes_cat in Hld as [Hld _]. rewrite length_app in Hr. unfold read_spi, spi_fits in *. destruct es.
  - destruct Hs as [Hs Hz]. rewrite <- Hs in *. rewrite (proj2 (Z.eqb_neq _ 0)), Z.eqb_refl by done. cbn [andb negb].
    assert (Z.of_nat (length spi) = 4 \/ Z.of_nat (length spi) = 8) as H48
      by (revert Hz; rewrite Hs; unfold proto_spi_size; repeat case_match; auto; done).
    rewrite (proj2 (Z.ltb_ge 8 _)), (proj2 (Z.ltb_lt 0 _)) by lia.
    rewrite (in_raw_reads spi proposal_pbs "remote SPI" ps p) by (done || lia).
    eexists. split; [unfold spi_of; by rewrite Nat2Z.id|]. destruct Hw as (?&?&_). split; [done|]. split; [lia|].
    split; [apply lookup_insert_eq|]. intros o' Ho _. by apply lookup_insert_ne.
  - subst spi. exists ps. split; [done|]. cbn [length]. rewrite Z.add_0_r. by apply read_to_refl.
Qed.

Lemma read_proposal_reads {E} ei es ea roof next next' lp num pid spi l more ps p :
  is_lp lp -> byteZ num -> known_proto pid -> byteZ (Z.of_nat (length l)) -> spi_fits es pid spi ->
  (ei = true -> pid = IKEv2_SEC_PROTO_IKE) -> check_propnum ea roof lp num next = Some next' ->
  Forall wire_transform l -> integrity_ok (-1) l = true ->
  let w := prop_wire lp num pid spi l in Z.of_nat (length w) < 2 ^ 16 ->
  at_octets ps sa_payload p (w ++ more) ->
  exists ps', @read_proposal E sa_payload proposal_pbs trans_pbs attr_pbs ei es ea roof next ps =
      Ok (inr (lp, next', Some (mk_rp num pid (spi_of spi) l)), ps') /\
    read_to [proposal_pbs; trans_pbs; attr_pbs] sa_payload p (cur p + Z.of_nat (length w)) ps ps'.
Proof.
  intros Hlp Hn Hpid Hnt Hspi Hei Hck Hl Hi w Hb Hat. destruct (streams_differ _ _ _ _ distinct) as (N1&N2&N3&N4&N5&N6).
  unfold w in *. rewrite length_prop_wire in *. set (body := spi ++ transes_wire l).
  assert (byteZ (Z.of_nat (length spi))) as Hsb.
  { unfold spi_fits in Hspi. destruct es; [|subst; by_decide]. destruct Hspi as [-> _]. unfold proto_spi_size. repeat case_match; by_decide. }
  destruct (prop_valid lp num pid (Z.of_nat (length spi)) (Z.of_nat (length l)) Hlp Hn Hpid Hsb Hnt) as (Hv&Hwire&Hhost).
  set (total := 8 + Z.of_nat (length body)). assert (Z.of_nat (8 + length spi + length (transes_wire l)) = total) as Htot
    by (unfold total, body; rewrite length_app; lia).
  rewrite Htot in *.
  destruct (in_struct_at (prop_members lp num pid (Z.of_nat (length spi)) (Z.of_nat (length l))) ikev2_prop_desc sa_payload proposal_pbs ps p body total)
    as (ps1&q&H1&Hrd&Haq&Hrq); try done; [|unfold total; cbn [sd_size ikev2_prop_desc]; lia| |].
  { split; [|left; done]. repeat (constructor; [unfold len_fits, total in *; cbn; (done || lia)|]). constructor. }
  { destruct Hat as (Hp&Hw&Hr&Hld). apply load_bytes_cat in Hld as [Hld _]. rewrite length_app in Hr.
    unfold prop_wire in Hr, Hld. fold body in Hr, Hld. fold total in Hr, Hld. rewrite !(app_assoc _ _ body) in Hr, Hld.
    rewrite Hwire. rewrite <- !app_assoc in *. split; [done|]. split; [done|]. split; [lia|done]. }
  unfold read_proposal. rewrite H1, Hhost, Hck.
  assert (ei && negb (pid =? IKEv2_SEC_PROTO_IKE) = false) as -> by (destruct ei; [by rewrite Hei|done]).
  destruct (read_spi_reads (E := E) es pid spi (transes_wire l) ps1 q Hspi Haq) as (ps2&->&Hrd2). run_ok. rewrite Nat2Z.id.
  pose proof (at_octets_rest _ _ _ _ _ _ _ _ Haq eq_refl Hrd2) as Haq2.
  destruct (read_transforms_reads (E := E) l (-1) ps2 (set_cur (cur q + Z.of_nat (length spi)) q) [] Hl Hi ltac:(by rewrite app_nil_r)) as (ps3&->&Hrd3). run_ok.
  exists ps3. split; [done|].
  eapply read_to_below; [|exact Hrd3|(clear -N1 N2 N3 N4 N5 N6; set_solver)..].
  eapply (read_to_below _ []); [apply (read_to_more [proposal_pbs]); [clear; set_solver|exact Hrd]|exact Hrd2|(clear -N1 N2 N3 N4 N5 N6; set_solver)..].
Qed.
(** What the other end can read of a proposal: the SPI is of the size it expects, and NULL
    integrity is not combined with other integrity transforms. *)
Definition readable (ei es : bool) (spi : list Z) (p : ikev2_proposal) : Prop :=
  spi_fits es (protoid p) spi /\ (ei = true -> protoid p = IKEv2_SEC_PROTO_IKE) /\ integrity_ok (-1) (all_transforms p) = true.

Definition remote_of (spi : list Z) (np : Z * ikev2_proposal) : remote_proposal :=
  mk_rp np.1 (protoid np.2) (spi_of spi) (all_transforms np.2).

(** Numbers that follow one another from [next]. *)
Fixpoint consecutive (next : Z) (l : list (Z * ikev2_proposal)) : Prop :=
  match l with [] => True | (n, _) :: l' => n = next /\ consecutive (next + 1) l' end.

Lemma read_proposals_reads {E} fuel ei es roof spi l : forall next ps p,
  (length l <= fuel)%nat -> l <> [] -> consecutive next l -> Forall (fun np => byteZ np.1 /\ emittable np.2 /\ readable ei es spi np.2) l ->
  Z.of_nat (length (props_wire spi l)) < 2 ^ 16 -> at_octets ps sa_payload p (props_wire spi l) ->
  exists ps', @read_proposals E fuel sa_payload proposal_pbs trans_pbs attr_pbs ei es false roof next ps =
    Ok (inr (remote_of spi <$> l), ps').
Proof.
  revert l. induction fuel as [|fuel IH]; intros l next ps p Hf Hne Hc Hl Hb Hat.
  { destruct l; [done|]. cbn in Hf. lia. }
  destruct l as [|[n q] l]; [done|]. destruct Hc as [-> Hc]. apply Forall_cons in Hl as [(Hn&(Hpid&Ht&Hnt)&Hspi&Hei&Hi) Hl].
  cbn [props_wire fst snd] in *. set (lp := match l with [] => v2_PROPOSAL_LAST | _ => _ end) in *. rewrite length_app in Hb.
  assert (is_lp lp) as Hlp by (unfold lp; destruct l; [by left|by right]). cbn [read_proposals].
  destruct (read_proposal_reads (E := E) ei es false roof next (next + 1) lp next (protoid q) spi (all_transforms q)
    (props_wire spi l) ps p) as (ps1&->&Hrd); try done; [unfold check_propnum; by rewrite Z.eqb_refl|lia|]. run_ok.
  pose proof (at_octets_rest _ _ _ _ _ _ _ _ Hat eq_refl Hrd) as Hat1. unfold lp. destruct l as [|np l].
  - cbn [Z.eqb v2_PROPOSAL_LAST v2_PROPOSAL_NON_LAST]. run_ok. by eexists.
  - cbn [length] in Hf. rewrite Z.eqb_refl. destruct (IH (np :: l) (next + 1) ps1 _ ltac:(cbn; lia) ltac:(done) Hc Hl ltac:(lia) Hat1) as (ps2&->).
    run_ok. by eexists.
Qed.

(** An answer. *)
Lemma read_answer_reads {E} fuel ei es roof spi p ps q :
  byteZ (propnum p) -> 1 <= propnum p < roof -> emittable p -> readable ei es spi p ->
  Z.of_nat (length (props_wire spi [(propnum p, p)])) < 2 ^ 16 -> at_octets ps sa_payload q (props_wire spi [(propnum p, p)]) ->
  exists ps', @read_proposals E (S fuel) sa_payload proposal_pbs trans_pbs attr_pbs ei es true roof 1 ps =
    Ok (inr [remote_of spi (propnum p, p)], ps').
Proof.
  intros Hn Hr (Hpid&Ht&Hnt) (Hspi&Hei&Hi) Hb Hat. cbn [props_wire] in *. rewrite length_app in Hb. cbn [read_proposals].
  destruct (read_proposal_reads (E := E) ei es true roof 1 1 v2_PROPOSAL_LAST (propnum p) (protoid p) spi (all_transforms p) [] ps q)
    as (ps1&->&Hrd); try done; [by left| |lia|].
  - unfold check_propnum. rewrite Z.eqb_refl, (proj2 (Z.ltb_ge _ _)), (proj2 (Z.leb_gt _ _)) by lia. done.
  - run_ok. cbn [Z.eqb v2_PROPOSAL_LAST v2_PROPOSAL_NON_LAST]. run_ok. by eexists.
Qed.
End ReadBack.
