(* ===== verification/ProposalAgreement.v ===== *)
(** Two ends that negotiate IKEv2 proposals agree: what the responder answers is accepted by the
    initiator, and both ends hold the same transforms. *)
From S2P Require Import Prelude EnumNames Constants Packet PacketSpec PacketNest PacketDescs Stf.
From S2P Require Import PacketTheorems Ikev2Payloads Ikev2Proposals ProposalSpec ProposalTheorems ProposalWire.

(** * The transforms of a proposal as a list *)

Lemma all_transforms_elem p ty t :
  length (transforms p) = 6%nat -> (ty, t) ∈ all_transforms p <-> ty ∈ trans_types /\ t ∈ local_transforms p ty.
Proof.
  intros Hl. unfold all_transforms. destruct (transforms p) as [|a0 [|a1 [|a2 [|a3 [|a4 [|a5 [|]]]]]]] eqn:Ht; try done.
  cbn [drop imap concat Z.of_nat compose]. rewrite !elem_of_app, !list_elem_of_fmap.
  assert (forall n (a : ikev2_transforms), transforms p !! Z.to_nat n = Some a -> local_transforms p n = FOR_EACH_TRANSFORM a) as Hloc.
  { intros n a Ha. unfold local_transforms. by rewrite Ha. }
  rewrite Ht in Hloc. split.
  - intros [(u&[= -> ->]&Hu)|[(u&[= -> ->]&Hu)|[(u&[= -> ->]&Hu)|[(u&[= -> ->]&Hu)|[(u&[= -> ->]&Hu)|H]]]]];
      [..|by apply elem_of_nil in H].
    all: split; [by_decide|]; by erewrite Hloc.
  - intros [Hty H]. destruct (type_cases ty Hty) as [-> |[-> |[-> |[-> | ->]]]]; erewrite Hloc in H by done; eauto 10.
Qed.

Lemma proposed_all p ty :
  length (transforms p) = 6%nat -> ty ∈ trans_types ->
  type_proposed (all_transforms p) ty = true <-> local_transforms p ty <> [].
Proof.
  intros Hl Hty. unfold type_proposed. rewrite existsb_exists. split.
  - intros ([ty' t]&Hin&Heq). apply Z.eqb_eq in Heq as ->. apply list_elem_of_In, all_transforms_elem in Hin as [_ Hin]; [|done].
    intros Hnil. rewrite Hnil in Hin. by apply elem_of_nil in Hin.
  - intros Hne. destruct (local_transforms p ty) as [|t l] eqn:Ht; [done|]. exists (ty, t). split; [|apply Z.eqb_refl].
    apply list_elem_of_In, all_transforms_elem; [done|]. split; [done|]. rewrite Ht. left.
Qed.

Lemma offered_all p ty lt :
  length (transforms p) = 6%nat -> ty ∈ trans_types ->
  offered (all_transforms p) ty lt = true <-> exists t, t ∈ local_transforms p ty /\ same_transform lt t = true.
Proof.
  intros Hl Hty. unfold offered. rewrite existsb_exists. split.
  - intros ([ty' t]&Hin&Heq). apply andb_true_iff in Heq as [->%Z.eqb_eq Hs].
    apply list_elem_of_In, all_transforms_elem in Hin as [_ Hin]; eauto.
  - intros (t&Hin&Hs). exists (ty, t). split; [by apply list_elem_of_In, all_transforms_elem|]. by rewrite Z.eqb_refl.
Qed.

Lemma same_transform_sym a b : same_transform a b = same_transform b a.
Proof. unfold same_transform. by rewrite (Z.eqb_sym (tr_id a)), (Z.eqb_sym (attr_keylen a)). Qed.

(** The transforms of a proposal that was chosen. *)
Lemma local_transforms_chosen lp r type :
  type ∈ trans_types ->
  local_transforms (chosen lp r) type =
    let t := chosen_transform lp (rp_protoid r) (rp_transforms r) type in if tr_valid t then [t] else [].
Proof.
  intros Ht. destruct (chosen_lookup lp r type Ht) as (more&Hl&Hf). unfold local_transforms. rewrite Hl. exact Hf.
Qed.

(** * Agreement *)

(** Both ends hold the same transforms. *)
Definition same_choice (c c' : ikev2_proposal) : Prop :=
  propnum c = propnum c' /\ protoid c = protoid c' /\
  forall type, type ∈ trans_types ->
    match local_transforms c type, local_transforms c' type with
    | [], [] => True
    | [t], [t'] => same_transform t t' = true
    | _, _ => False
    end.

Section Agreement.
Context (llp rlp : ikev2_proposal) (wf_llp : wf_proposal llp = true) (wf_rlp : wf_proposal rlp = true).
Context (n : Z) (spi spi' : ikev2_spi).
Context (accepted : accepts rlp (protoid llp) (all_transforms llp) = true).

Definition answer : ikev2_proposal := chosen rlp (mk_rp n (protoid llp) spi (all_transforms llp)).

Lemma answer_shape : length (transforms answer) = 6%nat.
Proof. done. Qed.

(** A type of the answer has a transform that the initiator proposed; a type it proposed has one. *)
Lemma answer_type type :
  type ∈ trans_types ->
  match local_transforms answer type with
  | [] => local_transforms llp type = []
  | [t] => exists lt, lt ∈ local_transforms llp type /\ same_transform t lt = true
  | _ => False
  end.
Proof.
  intros Ht. unfold answer. rewrite local_transforms_chosen by done. cbn zeta. cbn [rp_protoid rp_transforms].
  pose proof (chosen_transform_spec rlp (protoid llp) (all_transforms llp) type wf_rlp Ht) as H. cbn zeta in H.
  pose proof (proj1 (wf_proposal_inv llp wf_llp)) as Hl.
  unfold accepts in accepted. rewrite forallb_forall in accepted. specialize (accepted type ltac:(by apply list_elem_of_In)).
  destruct (type_matches rlp (protoid llp) (all_transforms llp) type).
  - destruct H as (->&_&Hof&_). by apply offered_all in Hof.
  - rewrite H. destruct (local_transforms llp type) as [|lt l] eqn:Hlt; [done|].
    assert (type_proposed (all_transforms llp) type = true) as Hp by (apply proposed_all; [done|done|by rewrite Hlt]).
    by rewrite Hp in accepted.
Qed.

Lemma type_matches_answer type :
  type ∈ trans_types ->
  type_matches llp (protoid llp) (all_transforms answer) type = bool_decide (local_transforms answer type <> []).
Proof.
  intros Ht. unfold type_matches. rewrite Z.eqb_refl. cbn [andb]. pose proof (answer_type type Ht) as Ha.
  apply eq_true_iff_eq. rewrite bool_decide_eq_true, existsb_exists. split.
  - intros (lt&_&Hof). apply offered_all in Hof as (t&Hin&_); [|done|done]. intros Hnil. rewrite Hnil in Hin. by apply elem_of_nil in Hin.
  - intros Hne. destruct (local_transforms answer type) as [|t [|]] eqn:Hans; try done. destruct Ha as (lt&Hin&Hs).
    exists lt. split; [by apply list_elem_of_In|]. apply offered_all; [done|done|]. exists t. rewrite Hans. split; [left|]. by rewrite same_transform_sym.
Qed.

Lemma answer_accepted : accepts llp (protoid llp) (all_transforms answer) = true.
Proof.
  unfold accepts. apply forallb_forall. intros type Ht. apply list_elem_of_In in Ht. rewrite type_matches_answer by done.
  pose proof (answer_type type Ht) as Ha. destruct (local_transforms answer type) as [|t l] eqn:Hans; [|by destruct (_ || _)].
  destruct (type_proposed (all_transforms answer) type) eqn:Hp.
  { apply proposed_all in Hp; [|done|done]. by rewrite Hans in Hp. }
  unfold type_required. by rewrite Ha.
Qed.

Lemma agreed : same_choice answer (chosen llp (mk_rp n (protoid llp) spi' (all_transforms answer))).
Proof.
  split; [done|]. split; [done|]. intros type Ht. rewrite (local_transforms_chosen llp) by done. cbn zeta. cbn [rp_protoid rp_transforms].
  pose proof (chosen_transform_spec llp (protoid llp) (all_transforms answer) type wf_llp Ht) as H. cbn zeta in H.
  rewrite type_matches_answer in H by done. pose proof (answer_type type Ht) as Ha.
  destruct (local_transforms answer type) as [|t [|]] eqn:Hans; [|  |done].
  - rewrite bool_decide_eq_false_2 in H by naive_solver. by rewrite H.
  - rewrite bool_decide_eq_true_2 in H by done. destruct H as (->&_&Hof&_).
    apply offered_all in Hof as (t'&Hin&Hs); [|done|done]. rewrite Hans in Hin. apply list_elem_of_singleton in Hin as ->.
    by rewrite same_transform_sym.
Qed.
End Agreement.

(** * On the wire *)

Lemma numbered_elem ps range n p :
  (n, p) ∈ numbered ps range <-> n ∈ range /\ proposal ps !! Z.to_nat n = Some p.
Proof.
  unfold numbered. rewrite list_elem_of_omap. split.
  - intros (k&Hk&Heq). destruct (proposal ps !! Z.to_nat k) eqn:Hp; [|done]. by injection Heq as <- <-.
  - intros [Hn Hp]. exists n. by rewrite Hp.
Qed.

Lemma numbered_consecutive ps k : forall a,
  (forall n, a <= n < a + Z.of_nat k -> exists p, proposal ps !! Z.to_nat n = Some p) ->
  consecutive a (numbered ps (seqZ a (Z.of_nat k))) /\ length (numbered ps (seqZ a (Z.of_nat k))) = k.
Proof.
  induction k as [|k IH]; intros a H; [by rewrite seqZ_nil|]. rewrite seqZ_cons by lia.
  destruct (H a ltac:(lia)) as [p Hp]. rewrite (numbered_cons _ _ _ _ Hp).
  replace (Z.pred (Z.of_nat (S k))) with (Z.of_nat k) by lia. destruct (IH (Z.succ a)) as [Hc Hl]; [intros n Hn; apply H; lia|].
  cbn [length consecutive]. rewrite Hl. done.
Qed.

Lemma props_wire_length spi l : (length l <= length (props_wire spi l))%nat.
Proof. induction l as [|[n p] l IH]; [done|]. cbn [length props_wire]. rewrite length_app, length_prop_wire. lia. Qed.

Lemma transes_wire_length l : (length (transes_wire l) <= 12 * length l)%nat.
Proof.
  induction l as [|t l IH]; [done|]. cbn [length transes_wire]. rewrite length_app, length_trans_wire, length_attrs_wire.
  destruct (0 <? _); lia.
Qed.

Lemma FOR_EACH_one t : FOR_EACH_TRANSFORM (<[0%nat := t]> no_transforms) = if tr_valid t then [t] else [].
Proof. unfold FOR_EACH_TRANSFORM. cbn. by destruct (tr_valid t). Qed.

(** An answer has at most one transform of each type. *)
Lemma chosen_all lp r :
  (length (all_transforms (chosen lp r)) <= 5)%nat /\ integrity_ok (-1) (all_transforms (chosen lp r)) = true.
Proof.
  unfold all_transforms, chosen. cbn [transforms]. change trans_types with [1; 2; 3; 4; 5].
  cbn [drop fmap list_fmap imap concat compose]. rewrite !FOR_EACH_one. generalize (chosen_transform lp (rp_protoid r) (rp_transforms r)). intros c.
  destruct (tr_valid (c 1)), (tr_valid (c 2)), (tr_valid (c 3)), (tr_valid (c 4)), (tr_valid (c 5)); split; done || (cbn; lia).
Qed.

(** What a set of local proposals needs to be sent: no more of them than the number in a proposal
    can count, identifiers and key lengths of 16 bits, known protocols, and an SPI of their size. *)
Definition sendable (ei es : bool) (spi : list Z) (ps : ikev2_proposals) : Prop :=
  wf_proposals ps = true /\ 2 <= props_roof ps <= 256 /\
  forall n p, 1 <= n < props_roof ps -> proposal ps !! Z.to_nat n = Some p -> emittable p /\ readable ei es spi p.

Definition wire_local (ps : ikev2_proposals) : Prop :=
  wf_proposals ps = true /\
  forall n p, 1 <= n < props_roof ps -> proposal ps !! Z.to_nat n = Some p -> Forall wire_transform (all_transforms p).

Lemma offer_read {E} sa_payload proposal_pbs trans_pbs attr_pbs ei es spi L R ps p :
  NoDup [sa_payload; proposal_pbs; trans_pbs; attr_pbs] -> sendable ei es spi L -> wf_proposals R = true ->
  let l := numbered L (FOR_EACH_PROPOSAL L) in
  Z.of_nat (length (props_wire spi l)) < 2 ^ 16 -> at_octets ps sa_payload p (props_wire spi l) ->
  exists ps', @ikev2_process_sa_payload E sa_payload proposal_pbs trans_pbs attr_pbs ei es false R ps =
    Ok (negotiate false R (remote_of spi <$> l), ps').
Proof.
  intros Hd (HwL&Hroof&Hall) HwR l Hb Hat. pose proof Hat as (Hp&Hw&Hr&_).
  rewrite process_sa_payload_eq, (get_pbs_at _ _ _ Hp) by done. run_ok. rewrite (wf_pbs_left _ _ Hw).
  destruct (numbered_consecutive L (Z.to_nat (props_roof L - 1)) 1) as [Hc Hl].
  { intros n Hn. destruct (local_lookup L HwL n ltac:(lia)) as (q&Hq&_). by exists q. }
  rewrite Z2Nat.id in Hc, Hl by lia. fold (FOR_EACH_PROPOSAL L) in Hc, Hl. fold l in Hc, Hl.
  pose proof (props_wire_length spi l) as Hlen.
  destruct (read_proposals_reads sa_payload proposal_pbs trans_pbs attr_pbs Hd (E := E) (S (Z.to_nat (roof p - cur p))) ei es (props_roof R)
    spi l 1 ps p) as (ps'&->); try done; [lia|intros Hnil; rewrite Hnil in Hl; cbn in Hl; lia| |].
  - apply Forall_forall. intros [n q] Hin. apply numbered_elem in Hin as [Hn Hq]. apply elem_of_seqZ in Hn.
    split; [split; cbn; lia|]. apply (Hall n); [lia|done].
  - run_ok. eexists. by destruct (negotiate false R _).
Qed.

(** The answer to an offer. *)
Section Answer.
Context (ei es : bool) (spi_i spi_r : list Z) (L R : ikev2_proposals).
Context (HL : sendable ei es spi_i L) (HR : wire_local R) (same_size : length spi_r = length spi_i).
Context (n n' : Z) (llp rlp : ikev2_proposal).
Context (Hn : 1 <= n < props_roof L) (Hllp : proposal L !! Z.to_nat n = Some llp).
Context (Hn' : 1 <= n' < props_roof R) (Hrlp : proposal R !! Z.to_nat n' = Some rlp) (wf_rlp : wf_proposal rlp = true).
Context (accepted : accepts rlp (protoid llp) (all_transforms llp) = true).
Let c : ikev2_proposal := chosen rlp (remote_of spi_i (n, llp)).

Lemma answer_sendable :
  byteZ (propnum c) /\ emittable c /\ readable ei es spi_r c /\ byteZ (Z.of_nat (length spi_r)) /\
  Z.of_nat (length (props_wire spi_r [(propnum c, c)])) <= 76.
Proof.
  destruct HL as (HwL&Hroof&Hall). destruct (Hall n llp Hn Hllp) as ((Hpid&_&_)&(Hspi&Hei&_)). destruct HR as [HwR Hwire].
  destruct (chosen_all rlp (remote_of spi_i (n, llp))) as [H5 Hi]. fold c in H5, Hi.
  assert (length spi_i <= 8)%nat as H8.
  { unfold spi_fits in Hspi. destruct es; [|subst; cbn; lia]. destruct Hspi as [Hspi _]. revert Hspi. unfold proto_spi_size.
    repeat case_match; lia. }
  split; [split; cbn; lia|]. split; [split; [exact Hpid|split; [|split; lia]]|].
  - apply Forall_forall. intros [ty t] Hin. apply all_transforms_elem in Hin as [Hty Hin]; [|done]. unfold c in Hin.
    rewrite local_transforms_chosen in Hin by done. cbn zeta in Hin.
    pose proof (chosen_transform_spec rlp (protoid llp) (all_transforms llp) ty wf_rlp Hty) as Hspec. cbn zeta in Hspec.
    destruct (type_matches _ _ _ _); [|cbn in Hin; rewrite Hspec in Hin; by apply elem_of_nil in Hin].
    destruct Hspec as (Hv&Hloc&_). cbn in Hin. rewrite Hv in Hin. apply list_elem_of_singleton in Hin as ->.
    specialize (Hwire n' rlp Hn' Hrlp). rewrite Forall_forall in Hwire. apply Hwire.
    apply all_transforms_elem; [by apply (wf_proposal_inv rlp)|done].
  - split; [split; [|done]|split; [split; lia|]].
    + unfold spi_fits in *. change (protoid c) with (protoid llp). rewrite same_size. destruct es; [done|].
      destruct spi_r; [done|]. by subst.
    + cbn [props_wire]. rewrite app_nil_r, length_prop_wire. pose proof (transes_wire_length (all_transforms c)). lia.
Qed.

Lemma answer_read {E} sa_payload proposal_pbs trans_pbs attr_pbs ps p :
  NoDup [sa_payload; proposal_pbs; trans_pbs; attr_pbs] -> at_octets ps sa_payload p (props_wire spi_r [(propnum c, c)]) ->
  exists c' ps', @ikev2_process_sa_payload E sa_payload proposal_pbs trans_pbs attr_pbs ei es true L ps =
    Ok (STF_OK, Some c', ps') /\ same_choice c c'.
Proof.
  intros Hd Hat. destruct answer_sendable as (Hb&He&Hrd&_&Hlen). destruct HL as (HwL&_). pose proof Hat as (Hp&Hw&_).
  destruct (local_lookup L HwL n Hn) as (llp'&Hllp'&Hwl). rewrite Hllp in Hllp'. injection Hllp' as <-.
  rewrite process_sa_payload_eq, (get_pbs_at _ _ _ Hp) by done. run_ok.
  destruct (read_answer_reads sa_payload proposal_pbs trans_pbs attr_pbs Hd (E := E) (Z.to_nat (pbs_left p)) ei es (props_roof L)
    spi_r c ps p Hb Hn He Hrd ltac:(lia) Hat) as (ps'&->). run_ok.
  set (r := remote_of spi_r (propnum c, c)). pose proof (answer_accepted llp rlp Hwl wf_rlp n (spi_of spi_i) accepted) as Ha.
  assert (negotiate true L [r] = (STF_OK, Some (chosen llp r))) as ->.
  { assert (matching L r n = true) as Hm by (unfold matching, local_accepts; rewrite Hllp; exact Ha).
    unfold negotiate. cbn [fmap list_fmap List.find existsb]. change (rp_num r) with n. rewrite Hm. cbn [orb]. by rewrite Hm, Hllp. }
  exists (chosen llp r), ps'. split; [done|]. exact (agreed llp rlp Hwl wf_rlp n (spi_of spi_i) (spi_of spi_r) accepted).
Qed.
End Answer.

(** * Properties *)

Lemma length_sa_wire np critical body : length (sa_wire np critical body) = (4 + length body)%nat.
Proof. unfold sa_wire. rewrite !length_app, length_be_encode. cbn [length]. lia. Qed.

Lemma offer_emitted ei es (local_spi : option (list Z)) L np (impair : bool) (pbs sa_pbs prop_pbs trans_pbs : nat) st q :
  NoDup [pbs; sa_pbs; prop_pbs; trans_pbs] -> known_payload np -> sendable ei es (spi_octets local_spi) L ->
  ps_pbs st !! pbs = Some q -> wf_pbs (ps_mem st) q ->
  let offered := sa_wire np (if impair then ISAKMP_PAYLOAD_LIBRESWAN_BOGUS else 0)
                   (props_wire (spi_octets local_spi) (numbered L (FOR_EACH_PROPOSAL L))) in
  Z.of_nat (length offered) <= roof q - cur q -> Z.of_nat (length offered) < 2 ^ 16 ->
  exists st' T, ikev2_emit_sa_proposals pbs sa_pbs prop_pbs trans_pbs impair L local_spi np st = Ok st' /\ wrote T pbs offered st st'.
Proof.
  intros Hd Hnp (HwL&Hroof&Hall) Hq Hw offered Hr Hb.
  assert (byteZ (Z.of_nat (length (spi_octets local_spi)))) as Hspi.
  { destruct (local_lookup L HwL 1 ltac:(lia)) as (p1&Hp1&_). destruct (Hall 1 p1 ltac:(lia) Hp1) as (_&Hs&_).
    unfold spi_fits in Hs. destruct es; [|rewrite Hs; by_decide]. destruct Hs as [-> _]. unfold proto_spi_size. repeat case_match; by_decide. }
  assert (forall n, 1 <= n < props_roof L -> exists p, proposal L !! Z.to_nat n = Some p /\ emittable p) as He.
  { intros n Hn. destruct (local_lookup L HwL n Hn) as (p&Hp&_). exists p. split; [done|]. by apply (Hall n). }
  destruct (emit_sa_proposals_wrote L local_spi impair np pbs sa_pbs prop_pbs trans_pbs st q Hd Hnp Hspi ltac:(lia) He Hq Hw Hr) as (st'&T&H1&_&H2);
    [fold offered; lia|eauto].
Qed.

(** C6: a negotiation ends in agreement. An initiator emits its proposals; a responder with any
    proposals of its own that receives these octets processes them without error and either
    finds no match or chooses a proposal; the answer it emits is accepted by the initiator, and
    both ends then hold the same proposal number, protocol and transforms. *)
Theorem negotiation_agrees {E} ei es (spi_i spi_r : option (list Z)) L R np (impair : bool)
    (pbs sa_pbs prop_pbs trans_pbs attr_pbs : nat) st q st2 q2 :
  NoDup [pbs; sa_pbs; prop_pbs; trans_pbs; attr_pbs] -> known_payload np ->
  sendable ei es (spi_octets spi_i) L -> wire_local R -> length (spi_octets spi_r) = length (spi_octets spi_i) ->
  ps_pbs st !! pbs = Some q -> wf_pbs (ps_mem st) q -> ps_pbs st2 !! pbs = Some q2 -> wf_pbs (ps_mem st2) q2 ->
  let offer := props_wire (spi_octets spi_i) (numbered L (FOR_EACH_PROPOSAL L)) in
  let offered := sa_wire np (if impair then ISAKMP_PAYLOAD_LIBRESWAN_BOGUS else 0) offer in
  Z.of_nat (length offered) <= roof q - cur q -> Z.of_nat (length offered) < 2 ^ 16 -> 80 <= roof q2 - cur q2 ->
  (exists st' T, ikev2_emit_sa_proposals pbs sa_pbs prop_pbs trans_pbs impair L spi_i np st = Ok st' /\
     wrote T pbs offered st st') /\
  forall ps p, at_octets ps sa_pbs p offer ->
  exists status choice ps',
    @ikev2_process_sa_payload E sa_pbs prop_pbs trans_pbs attr_pbs ei es false R ps = Ok (status, choice, ps') /\
    match choice with
    | None => status = STF_NOTIFY v2N_NO_PROPOSAL_CHOSEN
    | Some c =>
        status = STF_OK /\
        let answer := props_wire (spi_octets spi_r) [(propnum c, c)] in
        (exists st' T, ikev2_emit_sa_proposal pbs sa_pbs prop_pbs trans_pbs c spi_r np st2 = Ok st' /\
           wrote T pbs (sa_wire np 0 answer) st2 st') /\
        forall ps2 p2, at_octets ps2 sa_pbs p2 answer ->
        exists c' ps2', @ikev2_process_sa_payload E sa_pbs prop_pbs trans_pbs attr_pbs ei es true L ps2 =
          Ok (STF_OK, Some c', ps2') /\ same_choice c c'
    end.
Proof.
  intros Hd Hnp HL HR Hsz Hq Hw Hq2 Hw2 offer offered Hr Hb Hr2. pose proof HL as (HwL&Hroof&Hall).
  assert (length offered = 4 + length offer)%nat as Hlen by apply length_sa_wire.
  assert (NoDup [sa_pbs; prop_pbs; trans_pbs; attr_pbs]) as Hd1 by (by apply NoDup_cons in Hd as [_ Hd]).
  assert (NoDup [pbs; sa_pbs; prop_pbs; trans_pbs]) as Hd2.
  { change [pbs; sa_pbs; prop_pbs; trans_pbs; attr_pbs] with ([pbs; sa_pbs; prop_pbs; trans_pbs] ++ [attr_pbs]) in Hd.
    by apply NoDup_app in Hd as [Hd _]. }
  split; [by apply (offer_emitted ei es spi_i L np impair pbs sa_pbs prop_pbs trans_pbs st q)|].
  intros ps p Hat. pose proof HR as [HwR _].
  destruct (offer_read (E := E) sa_pbs prop_pbs trans_pbs attr_pbs ei es (spi_octets spi_i) L R ps p Hd1 HL HwR ltac:(fold offer; lia) Hat) as (ps'&->).
  pose proof (negotiate_sound false R (remote_of (spi_octets spi_i) <$> numbered L (FOR_EACH_PROPOSAL L)) HwR ltac:(done)) as Hs.
  destruct (negotiate false R _) as [status [c|]]; eexists _, _, ps'; (split; [done|]); [|exact Hs].
  destruct Hs as (->&n'&rlp&r&Hin&Hn'&Hrlp&Hwr&Hacc&->&_). split; [done|].
  apply list_elem_of_fmap in Hin as ([n llp]&->&Hin). apply numbered_elem in Hin as [Hn Hllp]. apply elem_of_seqZ in Hn.
  assert (1 <= n < props_roof L) as Hn1 by lia.
  destruct (answer_sendable ei es (spi_octets spi_i) (spi_octets spi_r) L R HL HR Hsz n n' llp rlp Hn1 Hllp Hn' Hrlp Hwr) as (Hb1&He&Hrd&Hsb&Hl).
  set (c := chosen rlp (remote_of (spi_octets spi_i) (n, llp))) in *. cbn zeta. set (answer := props_wire (spi_octets spi_r) [(propnum c, c)]) in *.
  pose proof (length_sa_wire np 0 answer) as Hla.
  split.
  - destruct (emit_sa_proposal_wrote c spi_r np pbs sa_pbs prop_pbs trans_pbs st2 q2 Hd2 Hnp Hsb He Hb1 Hq2 Hw2) as (st'&T&H1&_&H2);
      [fold answer; lia|fold answer; lia|eauto].
  - intros ps2 p2 Hat2. by apply (answer_read ei es (spi_octets spi_i) (spi_octets spi_r) L R HL HR Hsz n n' llp rlp Hn1 Hllp Hn' Hrlp Hwr Hacc sa_pbs prop_pbs trans_pbs attr_pbs ps2 p2).
Qed.
