(* ===== verification/LocalProposalTheorems.v ===== *)
(** The local side of the IKEv2 negotiation: every configuration gives proposals that the
    negotiation can handle, and what the defaults and the search for a DH group do. *)
From S2P Require Import Prelude EnumNames Constants Packet PacketSpec PacketNest PacketDescs Stf.
From S2P Require Import PacketTheorems Ikev2Payloads Ikev2Proposals Ikev2LocalProposals ProposalSpec ProposalTheorems.
From S2P Require Import ProposalWire ProposalAgreement.

(** * Proposals under construction *)

Definition id_ok (id : Z) : Prop := 0 <= id < 2 ^ 16.

(** A transform in use, with numbers that fit the wire. *)
Definition tr_ok (t : ikev2_transform) : Prop := id_ok (tr_id t) /\ id_ok (attr_keylen t) /\ tr_valid t = true.

(** Transforms that leave room for the sentinel. *)
Definition all_valid (l : list ikev2_transform) : Prop := (length l <= 4)%nat /\ Forall tr_ok l.

(** The transforms of a proposal, type by type. *)
Record by_type := mk_bt { bt_encr : list ikev2_transform; bt_prf : list ikev2_transform; bt_integ : list ikev2_transform;
                          bt_dh : list ikev2_transform; bt_esn : list ikev2_transform }.

Definition built (p : ikev2_proposal) (b : by_type) : Prop :=
  transforms p = [no_transforms; TR (bt_encr b); TR (bt_prf b); TR (bt_integ b); TR (bt_dh b); TR (bt_esn b)] /\
  all_valid (bt_encr b) /\ all_valid (bt_prf b) /\ all_valid (bt_integ b) /\ all_valid (bt_dh b) /\ all_valid (bt_esn b).

Definition of_type (b : by_type) (type : Z) : list ikev2_transform :=
  match type with 1 => bt_encr b | 2 => bt_prf b | 3 => bt_integ b | 4 => bt_dh b | 5 => bt_esn b | _ => [] end.
Definition add_to (b : by_type) (type : Z) (t : ikev2_transform) : by_type :=
  match type with
  | 1 => mk_bt (bt_encr b ++ [t]) (bt_prf b) (bt_integ b) (bt_dh b) (bt_esn b)
  | 2 => mk_bt (bt_encr b) (bt_prf b ++ [t]) (bt_integ b) (bt_dh b) (bt_esn b)
  | 3 => mk_bt (bt_encr b) (bt_prf b) (bt_integ b ++ [t]) (bt_dh b) (bt_esn b)
  | 4 => mk_bt (bt_encr b) (bt_prf b) (bt_integ b) (bt_dh b ++ [t]) (bt_esn b)
  | _ => mk_bt (bt_encr b) (bt_prf b) (bt_integ b) (bt_dh b) (bt_esn b ++ [t])
  end.

Lemma valid_prefix_app l k : Forall tr_ok l -> valid_prefix (l ++ no_transform :: k) = l.
Proof. induction 1 as [|t l (_&_&Ht) _ IH]; [done|]. cbn. by rewrite Ht, IH. Qed.
Lemma valid_prefix_all l : Forall tr_ok l -> valid_prefix l = l.
Proof. induction 1 as [|t l (_&_&Ht) _ IH]; [done|]. cbn. by rewrite Ht, IH. Qed.

Lemma FOR_EACH_TR l : all_valid l -> FOR_EACH_TRANSFORM (TR l) = l.
Proof.
  intros [Hl Hv]. unfold FOR_EACH_TRANSFORM, TR. change transform_elems with 5%nat. change sentinel_transform with 4%nat.
  destruct (decide (length l = 4)%nat) as [H4|H4].
  - rewrite take_app_le, firstn_all2 by lia. by apply valid_prefix_all.
  - rewrite take_app_ge by lia. replace (5 - length l)%nat with (S (S (3 - length l))) by lia.
    replace (4 - length l)%nat with (S (3 - length l)) by lia. by apply valid_prefix_app.
Qed.

Lemma length_TR l : all_valid l -> length (TR l) = 5%nat.
Proof. intros [Hl _]. unfold TR. rewrite length_app, length_replicate. change transform_elems with 5%nat. lia. Qed.

Lemma TR_lookup l i : all_valid l -> (length l <= i < 5)%nat -> TR l !! i = Some no_transform.
Proof.
  intros [Hl _] Hi. unfold TR. rewrite lookup_app_r by lia. apply lookup_replicate_2. change transform_elems with 5%nat. lia.
Qed.

Lemma wf_TR l : all_valid l -> wf_transforms (TR l) = true.
Proof.
  intros H. unfold wf_transforms. rewrite length_TR, TR_lookup by (try split; try (change sentinel_transform with 4%nat); try apply H; try lia; done).
  done.
Qed.

Lemma built_lookup p b type :
  built p b -> type ∈ trans_types -> transforms p !! Z.to_nat type = Some (TR (of_type b type)) /\ all_valid (of_type b type).
Proof.
  intros (Ht&?&?&?&?&?) Hty. rewrite Ht. by destruct (type_cases type Hty) as [-> |[-> |[-> |[-> | ->]]]].
Qed.

Lemma built_local p b type : built p b -> type ∈ trans_types -> local_transforms p type = of_type b type.
Proof.
  intros Hb Hty. destruct (built_lookup p b type Hb Hty) as [Hl Hv]. unfold local_transforms. rewrite Hl. by apply FOR_EACH_TR.
Qed.

(** NULL integrity stands alone. *)
Definition unmixed (b : by_type) : Prop :=
  (length (bt_integ b) <= 1)%nat \/ Forall (fun t => 0 < tr_id t) (bt_integ b).

Lemma built_wf p b : built p b -> unmixed b -> wf_proposal p = true.
Proof.
  intros Hb H1. pose proof Hb as (Ht&?&?&?&?&?). unfold wf_proposal. rewrite Ht. cbn [length forallb].
  rewrite !wf_TR by done. cbn [andb]. unfold type_required, type_optional. rewrite (built_local p b) by (done || by_decide).
  change (of_type b IKEv2_TRANS_TYPE_INTEG) with (bt_integ b). apply andb_true_iff. split; [done|]. apply negb_true_iff. destruct H1 as [H1|H1].
  - destruct (bt_integ b) as [|t [|]]; cbn in H1 |- *; [done| |lia]. by destruct (tr_id t =? 0).
  - apply andb_false_intro2. clear -H1. induction (bt_integ b) as [|t l IH]; [done|]. apply Forall_cons in H1 as [Ht Hl].
    cbn [existsb]. unfold is_optional at 1. by rewrite (proj2 (Z.eqb_neq (tr_id t) _)), andb_false_r, IH by (done || lia).
Qed.

Lemma append_built {E} p b type id k :
  built p b -> type ∈ trans_types -> (length (of_type b type) < 4)%nat -> id_ok id -> id_ok k ->
  exists p', @append_transform E p type id k = Ok p' /\ built p' (add_to b type (mk_tr id k true)) /\
    propnum p' = propnum p /\ protoid p' = protoid p.
Proof.
  intros Hb Hty Hlen Hid Hk. destruct (built_lookup p b type Hb Hty) as [Hl Hv]. unfold append_transform. rewrite Hl. run_ok.
  rewrite FOR_EACH_TR, bool_decide_eq_true_2 by (done || (change sentinel_transform with 4%nat; lia)). run_ok.
  rewrite TR_lookup by (done || lia). run_ok. cbn [negb no_transform tr_valid]. run_ok. rewrite TR_lookup by (done || lia). run_ok.
  cbn [negb no_transform tr_valid]. run_ok. eexists. split; [done|]. split; [|done].
  assert (forall i, id_ok i -> u32 i = i) as Hu by (intros i Hi; apply Z.mod_small; unfold id_ok in Hi; lia).
  rewrite !Hu by done. set (t := mk_tr _ _ true).
  assert (<[length (of_type b type) := t]> (TR (of_type b type)) = TR (of_type b type ++ [t])) as ->.
  { unfold TR. rewrite insert_app_r_alt, Nat.sub_diag by lia. change transform_elems with 5%nat. rewrite length_app. cbn [length].
    replace (5 - length (of_type b type))%nat with (S (5 - (length (of_type b type) + 1))) by lia. cbn. by rewrite <- app_assoc. }
  assert (all_valid (of_type b type ++ [t])) as Hv'.
  { split; [rewrite length_app; cbn; lia|]. apply Forall_app. split; [apply Hv|]. by apply Forall_singleton. }
  destruct Hb as (Ht&?&?&?&?&?). unfold built, set_transforms. cbn [transforms]. rewrite Ht.
  destruct (type_cases type Hty) as [-> |[-> |[-> |[-> | ->]]]]; done.
Qed.

(** * Algorithms that pass their check *)

(** A descriptor that [encrypt_desc_check] let pass, with numbers that fit the wire; an algorithm
    without a key length omits it. *)
Definition encrypt_ok (e : encrypt_desc) : Prop :=
  @encrypt_desc_check diag e = Ok tt /\ id_ok (encrypt_id e) /\ 0 <= keydeflen e /\
  Forall id_ok (key_bit_lengths e) /\ (keydeflen e = 0 -> keylen_omitted e = true).

Lemma descending_keys {E} keys k0 :
  @descending E keys = Ok tt -> Forall id_ok keys -> keys !! 0%nat = Some k0 ->
  forall k, exists b, has_key_bit_length keys k = Some b /\ (b = true -> 0 <= k <= k0).
Proof.
  revert k0. induction keys as [|a keys IH]; intros k0 Hd Hf [= ->] k. cbn in *. apply Forall_cons in Hf as [Ha Hf].
  destruct (k0 =? 0) eqn:H0; [by exists false|]. inv_ok. rename select (keys !! _ = _) into H. unfold id_ok in Ha.
  destruct (k0 =? k) eqn:Hk; [exists true; split; [done|lia]|]. destruct (IH x Hd Hf H k) as (b&Hb&Hle).
  exists b. split; [done|]. intros Ht. specialize (Hle Ht). lia.
Qed.

Lemma encrypt_keys e :
  encrypt_ok e -> exists k0, key_bit_lengths e !! 0%nat = Some k0 /\ id_ok k0 /\
    (keydeflen e = 0 \/ 0 < keydeflen e <= k0) /\
    forall k, exists b, has_key_bit_length (key_bit_lengths e) k = Some b /\ (b = true -> 0 <= k <= k0).
Proof.
  intros (Hc&_&H0&Hf&_). unfold encrypt_desc_check, encrypt_has_key_bit_length in Hc. destruct (keydeflen e =? 0) eqn:Hd; cbn [negb] in Hc; inv_ok.
  - match goal with H : _ !! 0%nat = Some ?x |- _ => exists x; split; [done|]; split; [by eapply Forall_lookup in Hf|] end.
    split; [lia|]. intros k. exists false. split; [|done]. by destruct (key_bit_lengths e) as [|k0 l]; simplify_eq/=; case_match.
  - match goal with H : _ !! 0%nat = Some ?x |- _ => exists x; split; [done|]; split; [by eapply Forall_lookup in Hf|] end.
    match goal with H : descending _ = Ok _ |- _ => pose proof (descending_keys _ _ H Hf ltac:(done)) as Hk end.
    split; [|done]. right. destruct (Hk (keydeflen e)) as (b&Hb&Hle). simplify_eq. specialize (Hle eq_refl). lia.
Qed.

(** * What a configured algorithm stands for

    The key lengths that are proposed for a cipher. *)
Definition key_lengths (pid : Z) (e : encrypt_desc) (keylen : Z) : list Z :=
  let max := default 0 (key_bit_lengths e !! 0%nat) in
  if 0 <? keylen then [keylen]
  else if keylen_omitted e then [0]
  else if keydeflen e =? max then [max]
  else if pid =? IKEv2_SEC_PROTO_IKE then [max; keydeflen e] else [keydeflen e; max].

(** The transforms, if the cipher can be proposed. *)
Definition cipher_transforms (pid : Z) (encrypt : option encrypt_desc) (keylen : Z) : option (list ikev2_transform) :=
  e ← encrypt;
  if (encrypt_id e =? 0) || ((0 <? keylen) && negb (default false (has_key_bit_length (key_bit_lengths e) keylen))) then None
  else Some ((fun k => mk_tr (encrypt_id e) k true) <$> key_lengths pid e keylen).

Definition none : by_type := mk_bt [] [] [] [] [].

Lemma built_fresh pid n : built (fresh_proposal pid n) none.
Proof. unfold built. repeat split; cbn; (lia || constructor). Qed.

(** The steps of a construction. *)
Ltac append_step :=
  match goal with
  | Hb : built ?p ?b |- context [@append_transform ?E ?p ?type ?id ?k] =>
      let p' := fresh "p" in let Hp := fresh "Happ" in let Hb' := fresh "Hb" in let Hn := fresh "Hnum" in let Hi := fresh "Hpid" in
      edestruct (@append_built E p b type id k Hb) as (p'&Hp&Hb'&Hn&Hi);
      [by_decide | cbn; lia | unfold id_ok in *; (lia || by_decide) | unfold id_ok in *; (lia || by_decide) |]; rewrite Hp; clear Hp; autorewrite with outcome; cbn in Hb'
  end.

Lemma append_encrypt_ok {E} pid n encrypt keylen :
  pid = IKEv2_SEC_PROTO_IKE \/ pid = IKEv2_SEC_PROTO_ESP -> (forall e, encrypt = Some e -> encrypt_ok e) -> 0 <= keylen ->
  exists p, @append_encrypt_transform E (fresh_proposal pid n) encrypt keylen =
    Ok (bool_decide (is_Some (cipher_transforms pid encrypt keylen)), p) /\ propnum p = n /\ protoid p = pid /\
    forall l, cipher_transforms pid encrypt keylen = Some l -> built p (mk_bt l [] [] [] []) /\ l <> [].
Proof.
  intros Hpid He Hk. unfold append_encrypt_transform. cbn [protoid fresh_proposal].
  assert (exists s, @enum_short_name E ikev2_protocol_names pid = Ok (Some s)) as (s&->) by (destruct Hpid as [-> | ->]; by eexists).
  autorewrite with outcome. assert ((pid =? 0) = false) as -> by (destruct Hpid as [-> | ->]; done).
  destruct encrypt as [e|]; [|eexists; split; [done|]; done]. specialize (He e eq_refl). pose proof He as (_&Hid&_&_&Homit).
  destruct (encrypt_keys e He) as (k0&Hk0&Hk0'&Hdef&Hhas). cbn [cipher_transforms mbind option_bind].
  destruct (encrypt_id e =? 0); [eexists; split; [done|]; done|]. destruct (Hhas keylen) as (b&Hb&Hle).
  unfold encrypt_has_key_bit_length. rewrite Hb. cbn [default orb]. pose proof (built_fresh pid n) as Hf. unfold key_lengths, id_ok in *.
  destruct (0 <? keylen) eqn:H0; cbn [andb].
  - autorewrite with outcome. destruct b; cbn [negb]; [|eexists; split; [done|]; done]. specialize (Hle eq_refl).  append_step.
    eexists. split; [done|]. split; [done|]. split; [done|]. intros l [= <-]. done.
  - clear Hle. autorewrite with outcome. cbn [negb]. destruct (keylen_omitted e) eqn:Ho; [|unfold encrypt_max_key_bit_length; rewrite Hk0; change (default 0 (Some k0)) with k0].
    { append_step. eexists. split; [done|]. split; [done|]. split; [done|]. intros l [= <-]. done. }
    assert (0 < keydeflen e <= k0) as Hd by (destruct Hdef as [Hz|]; [specialize (Homit Hz); congruence|lia]). autorewrite with outcome.
    rewrite (proj2 (Z.ltb_lt 0 (keydeflen e))) by lia. autorewrite with outcome. destruct (Z.eqb_spec (keydeflen e) k0) as [Heq|Hne].
    { append_step. eexists. split; [done|]. split; [done|]. split; [done|]. intros l [= <-]. by rewrite <- Heq. }
    rewrite (proj2 (Z.ltb_lt 0 k0)), (proj2 (Z.ltb_lt (keydeflen e) k0)) by lia. autorewrite with outcome.
    destruct Hpid as [-> | ->]; cbn [Z.eqb IKEv2_SEC_PROTO_IKE IKEv2_SEC_PROTO_ESP Pos.eqb]; append_step; append_step.
    all: cbn [propnum protoid fresh_proposal] in *; eexists; split; [done|]; split; [congruence|]; split; [congruence|]; intros l [= <-]; done.
Qed.

(** * Configured IKE proposals *)

(** The integrity transform that a cipher asks for. *)
Definition integrity_for (encrypt : option encrypt_desc) (integ : option integ_desc) : option ikev2_transform :=
  if ike_alg_is_aead encrypt then Some AUTH_NONE
  else i ← integ; if integ_id i =? 0 then None else Some (mk_tr (integ_id i) 0 true).

(** The transforms of a configured IKE algorithm; [None] when it cannot be proposed. *)
Definition ike_transforms (info : ike_info) : option by_type :=
  encr ← cipher_transforms IKEv2_SEC_PROTO_IKE (ike_encrypt info) (u32 (ike_eklen info));
  prf ← ike_prf info;
  if prf_id prf =? 0 then None
  else
    integ ← integrity_for (ike_encrypt info) (ike_integ info);
    group ← ike_dh_group info;
    Some (mk_bt encr [mk_tr (prf_id prf) 0 true] [integ] [mk_tr group 0 true] []).

Definition ike_info_ok (info : ike_info) : Prop :=
  (forall e, ike_encrypt info = Some e -> encrypt_ok e) /\ (forall p, ike_prf info = Some p -> id_ok (prf_id p)) /\
  (forall i, ike_integ info = Some i -> id_ok (integ_id i)) /\ (forall g, ike_dh_group info = Some g -> id_ok g).

(** A round of the loop makes the proposal that its reference describes, or none. *)
Definition builds {E I} (build : Z -> I -> outcome E (bool * ikev2_proposal)) (pid : Z) (ref : I -> option by_type)
    (info : I) : Prop :=
  forall n, exists p, build n info = Ok (bool_decide (is_Some (ref info)), p) /\
    forall b, ref info = Some b -> built p b /\ propnum p = n /\ protoid p = pid.

Ltac built_done := cbn [propnum protoid fresh_proposal] in *; eexists; split; [done|]; intros ? [= <-]; split_and!; (done || congruence).

Ltac built_none := eexists; split; [reflexivity|]; intros ? [=].

Lemma ike_proposal_builds {E} info : ike_info_ok info -> @builds E _ ike_proposal IKEv2_SEC_PROTO_IKE ike_transforms info.
Proof.
  intros (He&Hp&Hi&Hg) n. unfold ike_proposal, ike_transforms.
  destruct (@append_encrypt_ok E IKEv2_SEC_PROTO_IKE n (ike_encrypt info) (u32 (ike_eklen info))) as (p&->&Hnum&Hpid&Hb);
    [by left|done|apply Z.mod_pos_bound; lia|]. autorewrite with outcome.
  destruct (cipher_transforms _ _ _) as [l|]; [|built_none]. destruct (Hb l eq_refl) as [Hb1 _].
  cbn [mbind option_bind]. change (negb (bool_decide (is_Some (Some l)))) with false. cbv iota.
  destruct (ike_prf info) as [prf|]; [|built_none]. specialize (Hp prf eq_refl). cbn [mbind option_bind].
  destruct (prf_id prf =? 0); [built_none|]. append_step.
  unfold ike_alg_enc_requires_integ, integrity_for. destruct (ike_alg_is_aead _); cbn [negb mbind option_bind].
  - append_step. cbn [negb]. destruct (ike_dh_group info) as [g|]; [|built_none]. specialize (Hg g eq_refl).
    append_step. built_done.
  - destruct (ike_integ info) as [i|]; [|built_none]. specialize (Hi i eq_refl). cbn [mbind option_bind].
    destruct (integ_id i =? 0); [built_none|]. append_step. cbn [negb].
    destruct (ike_dh_group info) as [g|]; [|built_none]. specialize (Hg g eq_refl). append_step. built_done.
Qed.

(** ** The list of proposals *)

(** The proposals 1, 2, ... of [ps] are the ones that [bs] describes. *)
Definition proposes (pid : Z) (bs : list by_type) (ps : ikev2_proposals) : Prop :=
  props_roof ps = Z.of_nat (length bs) + 1 /\
  forall i b, bs !! i = Some b -> exists p, proposal ps !! S i = Some p /\ built p b /\ propnum p = Z.of_nat i + 1 /\ protoid p = pid.

Lemma add_proposals_ok {E I} build pid ref infos : forall bs ps proposals_roof,
  Forall (@builds E I build pid ref) infos -> proposes pid bs ps -> length (proposal ps) = Z.to_nat proposals_roof ->
  Z.of_nat (length bs + length infos) < proposals_roof ->
  exists ps', fold_outcome (add_proposal build proposals_roof) ps infos = Ok ps' /\ proposes pid (bs ++ omap ref infos) ps' /\
    length (proposal ps') = length (proposal ps).
Proof.
  induction infos as [|info infos IH]; intros bs ps rf Hf Hps Hlen Hr.
  { exists ps. cbn. by rewrite app_nil_r. }
  apply Forall_cons in Hf as [Hb Hf]. pose proof Hps as [Hroof Hin]. cbn [length fold_outcome] in *. destruct (Hb (props_roof ps)) as (p&Hbuild&Hp).
  assert (add_proposal build rf ps info = Ok (mk_proposals (props_roof ps + if bool_decide (is_Some (ref info)) then 1 else 0)
    (<[S (length bs) := p]> (proposal ps)))) as ->.
  { unfold add_proposal. rewrite (proj2 (Z.ltb_lt _ _)), Hbuild by lia. autorewrite with outcome. do 3 f_equal. lia. }
  autorewrite with outcome. cbn [omap list_omap].
  assert (forall i b, bs !! i = Some b -> <[S (length bs) := p]> (proposal ps) !! S i = proposal ps !! S i) as Hkeep.
  { intros i b Hi. apply list_lookup_insert_ne. apply lookup_lt_Some in Hi. lia. }
  destruct (ref info) as [b|].
  - destruct (Hp b eq_refl) as (Hb1&Hnum&Hpid).
    destruct (IH (bs ++ [b]) (mk_proposals (props_roof ps + 1) (<[S (length bs) := p]> (proposal ps))) rf) as (ps'&H1&H2&H3);
      [done| |cbn; by rewrite length_insert|rewrite length_app; cbn; lia|].
    { split; [cbn; rewrite length_app; cbn; lia|]. intros i b' Hi. cbn [proposal].
      apply lookup_app_Some in Hi as [Hi|[Hge Hi]]; [rewrite (Hkeep i b') by done; by apply Hin|].
      apply list_lookup_singleton_Some in Hi as [Hz <-]. assert (i = length bs) as -> by lia. exists p.
      rewrite list_lookup_insert_eq by lia. repeat split; (done || lia || apply Hb1). }
    exists ps'. cbn [proposal] in H3. rewrite length_insert in H3. rewrite <- app_assoc in H2. done.
  - destruct (IH bs (mk_proposals (props_roof ps + 0) (<[S (length bs) := p]> (proposal ps))) rf) as (ps'&H1&H2&H3);
      [done| |cbn; by rewrite length_insert|lia|].
    { split; [cbn; lia|]. intros i b' Hi. cbn [proposal]. rewrite (Hkeep i b') by done. by apply Hin. }
    exists ps'. cbn [proposal] in H3. by rewrite length_insert in H3.
Qed.

Lemma proposals_from_ok {E I} build pid ref infos :
  Forall (@builds E I build pid ref) infos ->
  exists ps, proposals_from build infos = Ok ps /\ proposes pid (omap ref infos) ps /\ length (proposal ps) = S (length infos).
Proof.
  intros Hf. unfold proposals_from.
  destruct (add_proposals_ok build pid ref infos [] (mk_proposals 1 (replicate (Z.to_nat (Z.of_nat (length infos) + 1)) no_proposal))
    (Z.of_nat (length infos) + 1) Hf) as (ps&->&H1&H2); [done|cbn; by rewrite length_replicate|cbn; lia|].
  exists ps. split; [done|]. split; [done|]. rewrite H2. cbn. rewrite length_replicate. lia.
Qed.

(** ** Proposals that can be sent *)

Definition tagged (b : by_type) : list typed_transform :=
  (pair IKEv2_TRANS_TYPE_ENCR <$> bt_encr b) ++ (pair IKEv2_TRANS_TYPE_PRF <$> bt_prf b) ++
  (pair IKEv2_TRANS_TYPE_INTEG <$> bt_integ b) ++ (pair IKEv2_TRANS_TYPE_DH <$> bt_dh b) ++ (pair IKEv2_TRANS_TYPE_ESN <$> bt_esn b).

Lemma built_all p b : built p b -> all_transforms p = tagged b.
Proof.
  intros (Ht&?&?&?&?&?). unfold all_transforms. rewrite Ht. cbn [drop imap concat]. unfold compose.
  rewrite !FOR_EACH_TR by done. by rewrite app_nil_r.
Qed.

Lemma tagged_wire type l : type ∈ trans_types -> all_valid l -> Forall wire_transform (pair type <$> l).
Proof. intros Hty [_ Hl]. apply Forall_fmap. eapply Forall_impl; [exact Hl|]. intros t (?&?&?). by repeat split; try apply H; try apply H0. Qed.

Lemma built_emittable p b : built p b -> known_proto (protoid p) -> emittable p.
Proof.
  intros Hb Hk. unfold emittable. rewrite (built_all p b Hb). pose proof Hb as (_&He&Hp&Hi&Hd&Hs). split; [done|]. split.
  - unfold tagged. rewrite !Forall_app. split_and!; apply tagged_wire; (done || by_decide).
  - unfold tagged, byteZ. rewrite !length_app, !length_fmap. destruct He, Hp, Hi, Hd, Hs. lia.
Qed.

Lemma integrity_ok_skip type l k first :
  type <> IKEv2_TRANS_TYPE_INTEG -> integrity_ok first ((pair type <$> l) ++ k) = integrity_ok first k.
Proof.
  intros Hty. induction l as [|t l IH]; [done|]. cbn [fmap list_fmap app integrity_ok]. unfold note_integrity.
  by rewrite (proj2 (Z.eqb_neq _ _)) by done.
Qed.

Lemma integrity_ok_positive l k first :
  0 < first -> Forall (fun t => 0 < tr_id t) l -> (forall f, integrity_ok f k = true) ->
  integrity_ok first ((pair IKEv2_TRANS_TYPE_INTEG <$> l) ++ k) = true.
Proof.
  intros Hf Hl Hk. induction Hl as [|t l Ht _ IH]; [apply Hk|]. cbn [fmap list_fmap app integrity_ok]. unfold note_integrity.
  by rewrite Z.eqb_refl, (proj2 (Z.ltb_ge _ _)), !(proj2 (Z.eqb_neq _ _)) by lia.
Qed.

Lemma built_integrity p b : built p b -> unmixed b -> integrity_ok (-1) (all_transforms p) = true.
Proof.
  intros Hb H1. rewrite (built_all p b Hb). unfold tagged. rewrite !integrity_ok_skip by by_decide.
  rewrite <- (app_nil_r (pair IKEv2_TRANS_TYPE_ESN <$> _)).
  assert (forall first, integrity_ok first ((pair IKEv2_TRANS_TYPE_DH <$> bt_dh b) ++ (pair IKEv2_TRANS_TYPE_ESN <$> bt_esn b) ++ []) = true) as Hr
    by (intros first; by rewrite !integrity_ok_skip by by_decide).
  destruct H1 as [H1|H1].
  - destruct (bt_integ b) as [|t [|]]; [apply Hr|exact (Hr _)|cbn in H1; lia].
  - destruct H1 as [|t l Ht Hl]; [apply Hr|]. by apply (integrity_ok_positive l _ (tr_id t)).
Qed.

(** The same without the numbers, which only the configured proposals carry, and with a protocol
    for each. *)
Definition describes (l : list (Z * by_type)) (ps : ikev2_proposals) : Prop :=
  props_roof ps = Z.of_nat (length l) + 1 /\ (length l < length (proposal ps))%nat /\
  forall i pid b, l !! i = Some (pid, b) -> exists p, proposal ps !! S i = Some p /\ built p b /\ protoid p = pid.

Lemma proposes_describes pid bs ps :
  proposes pid bs ps -> (length bs < length (proposal ps))%nat -> describes (pair pid <$> bs) ps.
Proof.
  intros [Hr Hall] Hl. unfold describes. rewrite length_fmap. split; [done|]. split; [done|]. intros i pid' b Hi.
  apply list_lookup_fmap_Some in Hi as (b'&[= -> ->]&Hi). destruct (Hall i b' Hi) as (p&?&?&?&?). by exists p.
Qed.

Definition good (d : Z * by_type) : Prop := known_proto d.1 /\ unmixed d.2.

Lemma describes_lookup l ps n :
  describes l ps -> 1 <= n < props_roof ps ->
  exists pid b p, (pid, b) ∈ l /\ proposal ps !! Z.to_nat n = Some p /\ built p b /\ protoid p = pid.
Proof.
  intros (Hr&_&Hall) Hn. destruct (lookup_lt_is_Some_2 l (Z.to_nat n - 1)) as [[pid b] Hb]; [lia|].
  destruct (Hall _ _ _ Hb) as (p&Hp&Hbt&Hpid). exists pid, b, p. split; [by eapply list_elem_of_lookup_2|].
  by replace (S (Z.to_nat n - 1)) with (Z.to_nat n) in Hp by lia.
Qed.

Lemma describes_wf l ps : describes l ps -> Forall good l -> wf_proposals ps = true.
Proof.
  intros Hps Hg. unfold wf_proposals. pose proof Hps as (Hr&Hl&_). rewrite !andb_true_iff, !Z.leb_le, forallb_forall.
  split_and!; [lia..|]. intros p Hp%list_elem_of_In. apply list_elem_of_lookup in Hp as [i Hi]. rewrite lookup_drop in Hi.
  apply lookup_take_Some in Hi as [Hi Hlt].
  destruct (describes_lookup l ps (Z.of_nat (1 + i)) Hps ltac:(lia)) as (pid&b&p'&Hb&Hp'&Hbt&_). rewrite Nat2Z.id in Hp'. simplify_eq.
  apply (built_wf _ _ Hbt). eapply Forall_forall in Hg; [|done]. apply Hg.
Qed.

Lemma describes_sendable l ps ei es spi :
  describes l ps -> Forall good l -> (1 <= length l <= 255)%nat ->
  (forall pid b, (pid, b) ∈ l -> (ei = true -> pid = IKEv2_SEC_PROTO_IKE) /\ spi_fits es pid spi) ->
  sendable ei es spi ps.
Proof.
  intros Hps Hg Hlen Hfit. split; [by eapply describes_wf|]. split; [destruct Hps; lia|]. intros n p Hn Hp.
  destruct (describes_lookup l ps n Hps Hn) as (pid&b&p'&Hb&Hp'&Hbt&<-). simplify_eq. destruct (Hfit _ _ Hb).
  eapply Forall_forall in Hg as [Hk Hu]; [|done]. split; [by eapply built_emittable|]. split; [done|]. split; [done|]. by eapply built_integrity.
Qed.

Lemma describes_wire_local l ps : describes l ps -> Forall good l -> wire_local ps.
Proof.
  intros Hps Hg. split; [by eapply describes_wf|]. intros n p Hn Hp.
  destruct (describes_lookup l ps n Hps Hn) as (pid&b&p'&Hb&Hp'&Hbt&<-). simplify_eq.
  eapply Forall_forall in Hg as [Hk _]; [|done]. by apply (built_emittable _ b).
Qed.

Lemma omap_Forall {A B} (f : A -> option B) (P : B -> Prop) l : (forall a b, f a = Some b -> P b) -> Forall P (omap f l).
Proof. intros H. apply Forall_forall. intros b (a&_&Hb)%list_elem_of_omap. eauto. Qed.

Lemma length_omap_le {A B} (f : A -> option B) l : (length (omap f l) <= length l)%nat.
Proof. induction l as [|a l IH]; [done|]. cbn. destruct (f a); cbn; lia. Qed.

Lemma ike_transforms_integrity info b : ike_transforms info = Some b -> unmixed b.
Proof.
  unfold ike_transforms. intros H. repeat (apply bind_Some in H as (?&_&H); try case_match; try done).
  all: simplify_eq/=; by left.
Qed.

Lemma good_map pid bs : known_proto pid -> Forall unmixed bs -> Forall good (pair pid <$> bs).
Proof. intros Hk Hu. apply Forall_fmap. eapply Forall_impl; [exact Hu|]. by split. Qed.

Lemma known_protos : known_proto IKEv2_SEC_PROTO_IKE /\ known_proto IKEv2_SEC_PROTO_ESP /\ known_proto IKEv2_SEC_PROTO_AH.
Proof. repeat split; try by_decide; by eexists. Qed.

(** The transforms of the defaults. *)
Definition ike_defaults : list (Z * by_type) :=
  let prfs := [PRF_SHA2_512; PRF_SHA2_256; PRF_SHA1] in
  let integs := [AUTH_SHA2_512_256; AUTH_SHA2_256_128; AUTH_SHA1_96] in
  let aead e := (IKEv2_SEC_PROTO_IKE, mk_bt [e] prfs [AUTH_NONE] [DH_MODP2048; DH_MODP3072; DH_MODP4096; DH_MODP8192] []) in
  let cbc e := (IKEv2_SEC_PROTO_IKE, mk_bt [e] prfs integs [DH_MODP2048; DH_MODP3072; DH_MODP1536] []) in
  [aead ENCR_AES_GCM16_256; aead ENCR_AES_GCM16_128; cbc ENCR_AES_CBC_256; cbc ENCR_AES_CBC_128].

(** A transform of a table. *)
Ltac constant_transforms := repeat constructor; cbn; lia.

Lemma ike_defaults_describe : describes ike_defaults default_ikev2_ike_proposals /\ Forall good ike_defaults.
Proof.
  split.
  - split; [done|]. split; [cbn; lia|]. intros i pid b Hi.
    do 4 (destruct i as [|i]; [injection Hi as <- <-; eexists; split; [done|]; split; [|done]; constant_transforms|]). done.
  - destruct known_protos as (Hk&_). repeat constructor; cbn; try apply Hk; first [left; cbn; lia | right; constant_transforms].
Qed.

Lemma default_ike_sendable :
  describes ike_defaults default_ikev2_ike_proposals /\ wire_local default_ikev2_ike_proposals /\
  sendable true false [] default_ikev2_ike_proposals.
Proof.
  destruct ike_defaults_describe as [Hd Hg]. split; [done|]. split; [by eapply describes_wire_local|].
  eapply describes_sendable; [done..|cbn; lia|]. intros pid b Hin. cbn in Hin. set_unfold. naive_solver.
Qed.

(** C20: the proposals of an IKE SA are the configured ones: [ikev2_proposals_from_alg_info_ike]
    never fails an assertion on algorithms that passed their check; it makes one proposal for
    each configured algorithm that can be proposed, in the order of the configuration and
    numbered from one, with exactly the transforms that the algorithm stands for; without a
    configuration it gives the defaults. Both are in the form that the negotiation needs of
    both ends. *)
Theorem ike_proposals_as_configured {E} infos :
  Forall ike_info_ok infos ->
  (exists ps, @ikev2_proposals_from_alg_info_ike E (Some infos) None = Ok ps /\
     proposes IKEv2_SEC_PROTO_IKE (omap ike_transforms infos) ps /\ wire_local ps /\
     ((1 <= length (omap ike_transforms infos) <= 255)%nat -> sendable true false [] ps)) /\
  (exists ps, @ikev2_proposals_from_alg_info_ike E None None = Ok ps /\
     describes ike_defaults ps /\ wire_local ps /\ sendable true false [] ps).
Proof.
  intros Hok. split; [|eexists; split; [done|]; exact default_ike_sendable]. unfold ikev2_proposals_from_alg_info_ike.
  destruct (@proposals_from_ok E _ ike_proposal IKEv2_SEC_PROTO_IKE ike_transforms infos) as (ps&->&Hps&Hlen);
    [eapply Forall_impl; [done|]; apply ike_proposal_builds|].
  pose proof (length_omap_le ike_transforms infos) as Hl. pose proof (omap_Forall _ _ infos ike_transforms_integrity) as H1.
  pose proof (good_map IKEv2_SEC_PROTO_IKE _ (proj1 known_protos) H1) as Hg. pose proof (proposes_describes _ _ _ Hps ltac:(lia)) as Hd.
  exists ps. split; [done|]. split; [done|]. split; [by eapply describes_wire_local|]. intros Hn.
  eapply describes_sendable; [done..|by rewrite length_fmap|]. intros pid b (?&[= -> ->]&_)%list_elem_of_fmap. done.
Qed.

(** * Configured ESP and AH proposals *)

Definition kernel_has (table : list sadb_alg) (algo : Z) : bool :=
  (algo <=? 255) && match table !! Z.to_nat algo with Some a => sadb_alg_id a =? algo | None => false end.

Lemma alg_present_ok {E} table algo :
  length table = 256%nat -> 0 <= algo -> @alg_present E 255 table algo = Ok (kernel_has table algo).
Proof.
  intros Hl Ha. unfold alg_present, kernel_has. destruct (Z.leb_spec algo 255); [|done]. rewrite (proj2 (Z.leb_le _ _)) by lia.
  autorewrite with outcome. destruct (lookup_lt_is_Some_2 table (Z.to_nat algo)) as [a ->]; [lia|]. by autorewrite with outcome.
Qed.

Section Child.
Context (k : kernel_algs) (policy : Z) (pfs_group : option oakley_group_desc).

Definition no_key (id : Z) : ikev2_transform := mk_tr id 0 true.

(** ESN is preferred to no ESN. *)
Definition esn_transforms : list ikev2_transform :=
  (if policy_has policy POLICY_ESN_YES then [no_key IKEv2_ESN_ENABLED] else []) ++
  (if policy_has policy POLICY_ESN_NO then [no_key IKEv2_ESN_DISABLED] else []).

(** The integrity algorithm of the configuration, if the kernel has it. *)
Definition child_integrity (info : esp_info) : option ikev2_transform :=
  match @alg_info_esp_aa2sadb diag (auth info), esp_integ info with
  | Ok aalg, Some i => if kernel_has (esp_aalg k) aalg then Some (no_key (integ_id i)) else None
  | _, _ => None
  end.

Definition esp_transforms (info : esp_info) : option by_type :=
  if kernel_has (esp_ealg k) (transid info) then
    encr ← cipher_transforms IKEv2_SEC_PROTO_ESP (esp_encrypt info) (enckeylen info);
    integ ← (if auth info =? AUTH_ALGORITHM_NONE then Some [] else i ← child_integrity info; Some [i]);
    Some (mk_bt encr [] integ (no_key <$> option_list pfs_group) esn_transforms)
  else None.
Definition ah_transforms (info : esp_info) : option by_type :=
  integ ← child_integrity info; Some (mk_bt [] [] [integ] [] esn_transforms).

Definition child_transforms (which : esp_ah) : esp_info -> option by_type :=
  match which with USE_ESP => esp_transforms | USE_AH => ah_transforms end.
Definition child_protoid (which : esp_ah) : Z :=
  match which with USE_ESP => IKEv2_SEC_PROTO_ESP | USE_AH => IKEv2_SEC_PROTO_AH end.

Definition esp_info_ok (info : esp_info) : Prop :=
  (forall e, esp_encrypt info = Some e -> encrypt_ok e) /\ (forall i, esp_integ info = Some i -> id_ok (integ_id i)) /\
  0 <= transid info /\ 0 <= enckeylen info /\ @alg_info_esp_aa2sadb diag (auth info) <> Abort.

Hypothesis pfs_ok : forall g, pfs_group = Some g -> id_ok g.

Lemma aa2sadb_ok {E} a :
  @alg_info_esp_aa2sadb diag a <> Abort ->
  exists n, 0 <= n /\ @alg_info_esp_aa2sadb diag a = Ok n /\ @alg_info_esp_aa2sadb E a = Ok n.
Proof. unfold alg_info_esp_aa2sadb. repeat case_match; intros Ha; try done; eexists; (split; [|done]); lia. Qed.

Lemma add_esn_built {E} p b :
  built p b -> bt_esn b = [] ->
  exists p', @add_esn_transforms E p policy = Ok p' /\
    built p' (mk_bt (bt_encr b) (bt_prf b) (bt_integ b) (bt_dh b) esn_transforms) /\ propnum p' = propnum p /\ protoid p' = protoid p.
Proof.
  intros Hb Hn. destruct b as [be bp bi bd bs]. cbn in Hn. subst bs. unfold add_esn_transforms, esn_transforms.
  destruct (built_lookup _ _ IKEv2_TRANS_TYPE_ESN Hb ltac:(by_decide)) as [-> _]. autorewrite with outcome.
  change (TR _ !! 0%nat) with (Some no_transform). autorewrite with outcome. cbn [negb tr_valid no_transform]. autorewrite with outcome.
  destruct (policy_has policy POLICY_ESN_YES), (policy_has policy POLICY_ESN_NO); autorewrite with outcome; repeat append_step.
  all: eexists; split; [done|]; split_and!; (done || congruence).
Qed.

Lemma add_pfs_built {E} p b :
  built p b -> bt_dh b = [] ->
  exists p', @add_pfs_group_to_proposal E p pfs_group = Ok p' /\
    built p' (mk_bt (bt_encr b) (bt_prf b) (bt_integ b) (no_key <$> option_list pfs_group) (bt_esn b)) /\
    propnum p' = propnum p /\ protoid p' = protoid p.
Proof.
  intros Hb Hn. destruct b as [be bp bi bd bs]. cbn in Hn. subst bd. unfold add_pfs_group_to_proposal.
  destruct pfs_group as [g|]; [|by exists p]. pose proof (pfs_ok g eq_refl) as Hg. append_step. by eexists.
Qed.
Definition kind_of (which : esp_ah) : Prop := @esp_or_ah diag policy = Ok which.

Lemma esp_or_ah_any {E} which : kind_of which -> @esp_or_ah E policy = Ok which.
Proof. unfold kind_of, esp_or_ah. by repeat case_match; intros; simplify_eq. Qed.

Lemma esp_proposal_builds {E} which info :
  length (esp_ealg k) = 256%nat -> length (esp_aalg k) = 256%nat -> kind_of which -> esp_info_ok info ->
  @builds E _ (esp_proposal k policy pfs_group) (child_protoid which) (child_transforms which) info.
Proof.
  intros ealgs aalgs Hw (He&Hi&Ht&Hk&Ha) n. unfold esp_proposal. rewrite (esp_or_ah_any which Hw). autorewrite with outcome.
  destruct (@aa2sadb_ok E (auth info) Ha) as (aalg&Haalg&Hd&HE). destruct which; cbn [child_protoid child_transforms].
  - unfold ESP_EALG_PRESENT, esp_transforms. change K_SADB_EALG_MAX with 255. rewrite alg_present_ok by done. autorewrite with outcome.
    destruct (kernel_has _ (transid info)); cbn [negb]; [|built_none].
    destruct (@append_encrypt_ok E IKEv2_SEC_PROTO_ESP n (esp_encrypt info) (enckeylen info)) as (p&->&Hnum&Hpid&Hb);
      [by right|done..|]. autorewrite with outcome.
    destruct (cipher_transforms _ _ _) as [l|]; [|built_none]. destruct (Hb l eq_refl) as [Hb1 _].
    cbn [mbind option_bind]. change (negb (bool_decide (is_Some (Some l)))) with false. cbv iota.
    destruct (Z.eqb_spec (auth info) AUTH_ALGORITHM_NONE); cbn [negb].
    + autorewrite with outcome. cbn [negb mbind option_bind].
      destruct (@add_pfs_built E p _ Hb1 eq_refl) as (p1&->&Hb2&Hnum1&Hpid1). autorewrite with outcome. cbn [negb].
      destruct (@add_esn_built E p1 _ Hb2 eq_refl) as (p2&->&Hb3&Hnum2&Hpid2). autorewrite with outcome. built_done.
    + rewrite HE. autorewrite with outcome. unfold ESP_AALG_PRESENT, child_integrity. change SADB_AALG_MAX with 255.
      rewrite alg_present_ok, Hd by done. autorewrite with outcome. destruct (kernel_has (esp_aalg k) aalg); [|destruct (esp_integ info); built_none].
      destruct (esp_integ info) as [i|]; [|built_none]. specialize (Hi i eq_refl). append_step. cbn [negb mbind option_bind].
      destruct (@add_pfs_built E p0 _ Hb0 eq_refl) as (p1&->&Hb2&Hnum1&Hpid1). autorewrite with outcome. cbn [negb].
      destruct (@add_esn_built E p1 _ Hb2 eq_refl) as (p2&->&Hb3&Hnum2&Hpid2). autorewrite with outcome. built_done.
  - rewrite HE. autorewrite with outcome. unfold ESP_AALG_PRESENT, ah_transforms, child_integrity. change SADB_AALG_MAX with 255.
    rewrite alg_present_ok, Hd by done. autorewrite with outcome. destruct (kernel_has (esp_aalg k) aalg); [|destruct (esp_integ info); built_none].
    destruct (esp_integ info) as [i|]; [|built_none]. specialize (Hi i eq_refl). pose proof (built_fresh IKEv2_SEC_PROTO_AH n) as Hf.
    append_step. cbn [negb mbind option_bind].
    destruct (@add_esn_built E p _ Hb eq_refl) as (p2&->&Hb3&Hnum2&Hpid2). autorewrite with outcome. built_done.
Qed.

Lemma child_transforms_unmixed which info b : child_transforms which info = Some b -> unmixed b.
Proof.
  clear pfs_ok. destruct which; cbn; unfold esp_transforms, ah_transforms; intros H; [case_match; [|done]|].
  - apply bind_Some in H as (l&_&H). apply bind_Some in H as (il&Hil&[= <-]). left. cbn.
    case_match; simplify_eq/=; [lia|]. apply bind_Some in Hil as (i&_&[= <-]). done.
  - apply bind_Some in H as (i&_&[= <-]). by left.
Qed.

Lemma known_child which : known_proto (child_protoid which).
Proof. destruct known_protos as (_&?&?). by destruct which. Qed.

(** ** The defaults *)

(** What is done to each default. *)
Definition completed (d : Z * by_type) : Z * by_type :=
  (d.1, mk_bt (bt_encr d.2) (bt_prf d.2) (bt_integ d.2) (no_key <$> option_list pfs_group) esn_transforms).
Definition missing (d : Z * by_type) : Prop := bt_dh d.2 = [] /\ bt_esn d.2 = [].

Lemma complete_default_ok {E} l1 d l2 ps :
  describes (l1 ++ d :: l2) ps -> missing d ->
  exists ps', @complete_default E policy pfs_group ps (Z.of_nat (length l1) + 1) = Ok ps' /\
    describes (l1 ++ completed d :: l2) ps'.
Proof.
  intros (Hr&Hl&Hall) [Hm1 Hm2]. destruct d as [pid b]. cbn in Hm1, Hm2. unfold complete_default.
  replace (Z.to_nat (Z.of_nat (length l1) + 1)) with (S (length l1)) by lia.
  destruct (Hall (length l1) pid b) as (p&Hp&Hb&Hpid); [by apply list_lookup_middle|]. rewrite Hp. autorewrite with outcome.
  destruct (@add_esn_built E p b Hb Hm2) as (p1&->&Hb1&_&Hpid1). autorewrite with outcome.
  destruct (@add_pfs_built E p1 _ Hb1) as (p2&->&Hb2&_&Hpid2); [done|]. autorewrite with outcome. eexists. split; [done|].
  rewrite length_app in Hr, Hl. cbn [length] in Hr, Hl. unfold describes. cbn [props_roof proposal].
  rewrite length_insert, length_app. cbn [length]. split; [lia|]. split; [lia|]. intros i pid' b' Hi.
  destruct (decide (i = length l1)) as [-> |Hne].
  - rewrite list_lookup_middle in Hi by done. injection Hi as <- <-. exists p2. rewrite list_lookup_insert_eq by lia. split_and!; (done || congruence).
  - rewrite list_lookup_insert_ne by lia. apply (Hall i). rewrite <- Hi. clear -Hne.
    destruct (decide (i < length l1)%nat); [by rewrite !lookup_app_l by done|]. rewrite !lookup_app_r by lia.
    by destruct (i - length l1)%nat eqn:Hs; [lia|].
Qed.

Lemma complete_defaults_ok {E} l2 : forall l1 ps,
  describes (l1 ++ l2) ps -> Forall missing l2 ->
  exists ps', fold_outcome (@complete_default E policy pfs_group) ps (seqZ (Z.of_nat (length l1) + 1) (Z.of_nat (length l2))) = Ok ps' /\
    describes (l1 ++ (completed <$> l2)) ps'.
Proof.
  induction l2 as [|d l2 IH]; intros l1 ps Hd Hm; [by exists ps|]. apply Forall_cons in Hm as [Hm1 Hm2].
  destruct (@complete_default_ok E l1 d l2 ps Hd Hm1) as (ps1&H1&Hd1). cbn [length]. rewrite seqZ_cons by lia. cbn [fold_outcome].
  rewrite H1. autorewrite with outcome. destruct (IH (l1 ++ [completed d]) ps1) as (ps2&H2&Hd2); [by rewrite <- app_assoc|done|].
  rewrite length_app in H2. cbn [length] in H2. exists ps2. rewrite <- app_assoc in Hd2. split; [|done]. rewrite <- H2. do 2 f_equal; lia.
Qed.
End Child.

Definition child_defaults (which : esp_ah) : list (Z * by_type) :=
  let esp e integs := (IKEv2_SEC_PROTO_ESP, mk_bt [e] [] integs [] []) in
  let only_integ pid i := (pid, mk_bt [] [] [i] [] []) in
  match which with
  | USE_ESP =>
      [esp ENCR_AES_GCM16_256 [AUTH_NONE]; esp ENCR_AES_GCM16_128 [AUTH_NONE];
       esp ENCR_AES_CBC_256 [AUTH_SHA2_512_256; AUTH_SHA2_256_128]; esp ENCR_AES_CBC_128 [AUTH_SHA2_512_256; AUTH_SHA2_256_128];
       esp ENCR_AES_CBC_128 [AUTH_SHA1_96]]
  | USE_AH =>
      [only_integ IKEv2_SEC_PROTO_AH AUTH_SHA2_512_256; only_integ IKEv2_SEC_PROTO_AH AUTH_SHA2_256_128;
       only_integ IKEv2_SEC_PROTO_ESP AUTH_SHA1_96]
  end.

Lemma child_defaults_describe which :
  describes (child_defaults which)
    (match which with USE_ESP => default_ikev2_esp_proposals_missing_esn | USE_AH => default_ikev2_ah_proposals_missing_esn end) /\
  Forall missing (child_defaults which).
Proof.
  split; [|destruct which; by repeat constructor]. split; [by destruct which|]. split; [destruct which; cbn; lia|]. intros i pid b Hi. destruct which.
  - do 5 (destruct i as [|i]; [injection Hi as <- <-; eexists; split; [done|]; split; [|done]; constant_transforms|]). done.
  - do 3 (destruct i as [|i]; [injection Hi as <- <-; eexists; split; [done|]; split; [|done]; constant_transforms|]). done.
Qed.

Lemma completed_good policy pfs which : Forall good (completed policy pfs <$> child_defaults which).
Proof.
  destruct known_protos as (_&He&Ha). apply Forall_fmap.
  destruct which; repeat constructor; cbn; try apply He; try apply Ha; first [left; cbn; lia | right; constant_transforms].
Qed.

(** C21: the proposals of a child SA are the configured ones: for every policy that asks for ESP
    or for AH, [ikev2_proposals_from_alg_info_esp] never fails an assertion on algorithms that
    passed their check; it makes one proposal for each configured algorithm that the kernel
    has, in order and numbered from one, with exactly the transforms that the algorithm and the
    policy stand for; without a configuration, the defaults with the policy's ESN and PFS
    transforms. Both are in the form that the negotiation needs of both ends. *)
Theorem child_proposals_as_configured {E} k policy pfs_group which infos :
  kind_of policy which -> length (esp_ealg k) = 256%nat -> length (esp_aalg k) = 256%nat ->
  (forall g, pfs_group = Some g -> id_ok g) -> Forall esp_info_ok infos ->
  let described := omap (child_transforms k policy pfs_group which) infos in
  (exists ps, @ikev2_proposals_from_alg_info_esp E k (Some infos) policy pfs_group None = Ok ps /\
     proposes (child_protoid which) described ps /\ wire_local ps /\
     forall spi, (1 <= length described <= 255)%nat -> length spi = 4%nat -> sendable false true spi ps) /\
  (exists ps, @ikev2_proposals_from_alg_info_esp E k None policy pfs_group None = Ok ps /\
     describes (completed policy pfs_group <$> child_defaults which) ps /\ wire_local ps /\
     forall spi, length spi = 4%nat -> sendable false true spi ps).
Proof.
  intros Hw Hke Hka Hpfs Hok described. cbn [ikev2_proposals_from_alg_info_esp]. split.
  - destruct (@proposals_from_ok E _ (esp_proposal k policy pfs_group) (child_protoid which) (child_transforms k policy pfs_group which) infos) as (ps&->&Hps&Hlen);
      [eapply Forall_impl; [done|]; intros; by apply esp_proposal_builds|].
    pose proof (length_omap_le (child_transforms k policy pfs_group which) infos) as Hl.
    pose proof (omap_Forall _ _ infos (child_transforms_unmixed k policy pfs_group which)) as H1.
    pose proof (good_map (child_protoid which) _ (known_child which) H1) as Hg. pose proof (proposes_describes _ _ _ Hps ltac:(lia)) as Hd.
    exists ps. split; [done|]. split; [done|]. split; [by eapply describes_wire_local|]. intros spi Hn Hspi.
    eapply describes_sendable; [done..|by rewrite length_fmap|]. intros pid b (?&[= -> ->]&_)%list_elem_of_fmap.
    split; [done|]. unfold spi_fits. rewrite Hspi. by destruct which.
  - rewrite (esp_or_ah_any policy which Hw). autorewrite with outcome. destruct (child_defaults_describe which) as [Hd Hm].
    set (missing_esn := match which with USE_ESP => _ | USE_AH => _ end) in *. unfold FOR_EACH_PROPOSAL. pose proof Hd as (->&_).
    destruct (@complete_defaults_ok policy pfs_group Hpfs E (child_defaults which) [] missing_esn Hd Hm) as (ps&Hps&Hdesc).
    cbn [length] in Hps. change (Z.of_nat 0 + 1) with 1 in Hps. replace (Z.of_nat (length (child_defaults which)) + 1 - 1) with (Z.of_nat (length (child_defaults which))) by lia.
    exists ps. split; [done|]. split; [done|]. pose proof (completed_good policy pfs_group which) as Hg. split; [by eapply describes_wire_local|].
    intros spi Hspi. eapply describes_sendable; [done..|destruct which; cbn; lia|]. intros pid b Hin. split; [done|]. unfold spi_fits. rewrite Hspi.
    apply list_elem_of_fmap in Hin as ((pid'&b')&[= -> ->]&Hin). clear -Hin. destruct which; cbn in Hin; set_unfold; naive_solver.
Qed.

(** * The third default for AH *)

Definition ah_policy : Z := Z.lor POLICY_AUTHENTICATE POLICY_ESN_NO.
(** A proposal of HMAC-SHA1-96 without ESN and without encryption. *)
Definition sha1_only (pid : Z) : list Z :=
  prop_wire 0 1 pid [0; 0; 16; 1] [(IKEv2_TRANS_TYPE_INTEG, AUTH_SHA1_96); (IKEv2_TRANS_TYPE_ESN, no_key IKEv2_ESN_DISABLED)].

Definition ah_completed : ikev2_proposals :=
  match @ikev2_proposals_from_alg_info_esp diag (mk_kernel [] []) None ah_policy None None with
  | Ok ps => ps
  | _ => mk_proposals 0 []
  end.
Definition sha1_accepted : ikev2_proposal :=
  mk_proposal 1 IKEv2_SEC_PROTO_ESP (spi_of [0; 0; 16; 1])
    [no_transforms; no_transforms; no_transforms; TR [AUTH_SHA1_96]; no_transforms; TR [no_key IKEv2_ESN_DISABLED]].

Lemma sha1_as_esp {E} :
  exists ps', @ikev2_process_sa_payload E 0 1 2 3 false true false ah_completed (message (sha1_only IKEv2_SEC_PROTO_ESP) 0) =
    Ok (STF_OK, Some sha1_accepted, ps').
Proof. eexists. vm_compute. reflexivity. Qed.
Lemma sha1_as_ah {E} :
  exists ps', @ikev2_process_sa_payload E 0 1 2 3 false true false ah_completed (message (sha1_only IKEv2_SEC_PROTO_AH) 0) =
    Ok (STF_NOTIFY v2N_NO_PROPOSAL_CHOSEN, None, ps').
Proof. eexists. vm_compute. reflexivity. Qed.

Lemma sha1_attrs {E} algs i :
  ikev2_get_integ_desc algs 2 = Some i ->
  exists ta, @ikev2_proposal_to_trans_attrs E algs sha1_accepted = Ok (true, ta) /\ ta_encrypter ta = None.
Proof. intros Hi. lazy -[ikev2_get_integ_desc u16]. rewrite Hi. by eexists. Qed.

(** C35: the third of the default proposals for AH is marked as one for ESP. A connection with an
    AH policy and no configured algorithms therefore refuses a peer that proposes AH with
    HMAC-SHA1-96; and a peer that proposes ESP with this integrity and no encryption has its
    proposal accepted, after which [ikev2_process_child_sa_pl] fails the assertion that there
    is an encryption algorithm, and pluto aborts. *)
Theorem ah_default_for_esp {E} algs k c st alg_pfsgroup parent_group i :
  cc_policy c = ah_policy -> cc_alg_info_esp c = None -> st_pfs_group st = None -> ikev2_get_integ_desc algs 2 = Some i ->
  (exists c' st' ps', @ikev2_process_child_sa_pl E algs k 0 1 2 3 CHILD_OF_AUTH alg_pfsgroup parent_group false c st
     (message (sha1_only IKEv2_SEC_PROTO_AH) 0) = Ok (STF_NOTIFY v2N_NO_PROPOSAL_CHOSEN, c', st', ps')) /\
  @ikev2_process_child_sa_pl E algs k 0 1 2 3 CHILD_OF_AUTH alg_pfsgroup parent_group false c st
    (message (sha1_only IKEv2_SEC_PROTO_ESP) 0) = Abort.
Proof.
  intros Hpol Halg Hpfs Hi. unfold ikev2_process_child_sa_pl. rewrite Hpol, Halg, Hpfs.
  change (@esp_or_ah E ah_policy) with (@Ok E _ USE_AH). autorewrite with outcome.
  change (@ikev2_proposals_from_alg_info_esp E k None ah_policy None None) with (@Ok E _ ah_completed). autorewrite with outcome.
  destruct (@sha1_as_ah E) as (ps1&->). destruct (@sha1_as_esp E) as (ps2&->). autorewrite with outcome. split; [eauto|].
  unfold ikev2_proposal_to_proto_info. destruct (@sha1_attrs E algs i Hi) as (ta&->&Hta). autorewrite with outcome. cbn. by rewrite Hta.
Qed.

(** * The first DH group *)

(** The group of the first DH transform of a proposal, if it is known. *)
Definition first_group (algs : algorithms) (ps : ikev2_proposals) (n : Z) : option oakley_group_desc :=
  p ← proposal ps !! Z.to_nat n; t ← head (local_transforms p IKEv2_TRANS_TYPE_DH); lookup_group algs (tr_id t).

Lemma first_modp_loop_ok {E} algs ts :
  wf_transforms ts = true ->
  @first_modp_loop E (S transform_elems) algs ts 0 = Ok (t ← head (FOR_EACH_TRANSFORM ts); lookup_group algs (tr_id t)).
Proof.
  unfold wf_transforms. intros Hw. destruct ts as [|t1 [|t2 ts]]; [discriminate Hw..|]. clear Hw.
  destruct t1 as [id kl []], t2 as [id2 kl2 []]; lazy -[lookup_group]; by try destruct (lookup_group algs id).
Qed.

(** C36: [ikev2_proposals_first_modp] takes the group of the first DH transform of the first
    proposal where that group is known, and MODP2048 if there is none. The later DH transforms
    of a proposal are never looked at, although the loop and its comments are written to
    continue with them: its condition compares the index with a truth value. *)
Theorem first_modp_heads {E} algs ps :
  wf_proposals ps = true ->
  @ikev2_proposals_first_modp E algs ps =
  match omap (first_group algs ps) (FOR_EACH_PROPOSAL ps) with
  | g :: _ => Ok g
  | [] => defined (lookup_group algs OAKLEY_GROUP_MODP2048)
  end.
Proof.
  intros Hw. unfold ikev2_proposals_first_modp, FOR_EACH_PROPOSAL.
  assert (forall l, Forall (fun n => 1 <= n < props_roof ps) l -> @first_modp E algs ps l = Ok (head (omap (first_group algs ps) l))) as Hl.
  { induction 1 as [|n l Hn _ IH]; [done|]. cbn [first_modp omap list_omap]. unfold first_group at 1.
    destruct (local_lookup ps Hw n Hn) as (p&->&Hwp). autorewrite with outcome. cbn [mbind option_bind].
    destruct (wf_proposal_inv p Hwp) as (_&Hts&_). destruct (Hts IKEv2_TRANS_TYPE_DH ltac:(by_decide)) as (ts&->&Hwt&->).
    autorewrite with outcome. rewrite first_modp_loop_ok by done. autorewrite with outcome. by destruct (head _ ≫= _). }
  rewrite Hl by (apply Forall_forall; intros n ?%elem_of_seqZ; lia). autorewrite with outcome. by destruct (omap _ _).
Qed.
