(* ===== verification/ProposalExamples.v ===== *)
(** Examples of the IKEv2 negotiation: two ends with the default proposals, and small
    configurations, on which the theorems about proposals are applied. *)
From S2P Require Import Prelude EnumNames Constants Packet PacketSpec PacketNest PacketDescs Stf.
From S2P Require Import PacketTheorems Ikev2Payloads Ikev2Proposals Ikev2LocalProposals ProposalSpec ProposalTheorems.
From S2P Require Import ProposalWire ProposalAgreement LocalProposalTheorems.

(** The body of the security association payload with the default IKE proposals. *)
Definition default_offer : list Z :=
  props_wire [] (numbered default_ikev2_ike_proposals (FOR_EACH_PROPOSAL default_ikev2_ike_proposals)).

Definition answered : ikev2_proposal :=
  match @ikev2_process_sa_payload diag 1 2 3 4 true false false default_ikev2_ike_proposals (message default_offer 1) with
  | Ok (_, Some c, _) => c
  | _ => no_proposal
  end.
Definition default_answer : list Z := props_wire [] [(propnum answered, answered)].

Lemma message_octets bs i : Z.of_nat (length bs) < 2 ^ 62 -> at_octets (message bs i) i (message_pbs bs) bs.
Proof.
  intros Hn. split; [apply message_lookup|]. split; [by apply message_wf|]. cbn. split; [lia|]. apply buffer_load.
Qed.

Lemma sa_payload_negotiates_witness :
  wf_proposals default_ikev2_ike_proposals = true /\
  @ikev2_process_sa_payload diag 1 2 3 4 true false false default_ikev2_ike_proposals (message default_offer 1) =
  (p ← get_pbs (message default_offer 1) 1;
   '(r, ps') ← read_proposals (S (Z.to_nat (pbs_left p))) 1 2 3 4 true false false
                 (props_roof default_ikev2_ike_proposals) 1 (message default_offer 1);
   Ok (match r with
       | inl _ => (STF_NOTIFY v2N_INVALID_SYNTAX, None)
       | inr remotes => negotiate false default_ikev2_ike_proposals remotes
       end, ps')).
Proof. split; [reflexivity|]. apply (sa_payload_negotiates (E := diag)). reflexivity. Defined.

Lemma sa_payload_safe_witness :
  exists status choice ps' e,
    @ikev2_process_sa_payload diag 1 2 3 4 true false false default_ikev2_ike_proposals (message default_offer 1) =
      Ok (status, choice, ps') /\
    read_to [2; 3; 4]%nat 1 (message_pbs default_offer) e (message default_offer 1) ps' /\
    match choice with
    | None => status = STF_NOTIFY v2N_INVALID_SYNTAX \/ status = STF_NOTIFY v2N_NO_PROPOSAL_CHOSEN
    | Some c =>
        status = STF_OK /\ spi_size (remote_spi c) = 0 /\
        exists n lp, 1 <= n < 5 /\ proposal default_ikev2_ike_proposals !! Z.to_nat n = Some lp /\ taken_from lp c /\
          (false = true -> propnum c = n)
    end.
Proof.
  apply (sa_payload_safe (E := diag) 1 2 3 4 true false false default_ikev2_ike_proposals (message default_offer 1) (message_pbs default_offer)).
  - reflexivity.
  - by_decide.
  - apply message_lookup.
  - apply message_wf. vm_compute. reflexivity.
  - apply buffer_ok. by_decide.
Defined.

(** A stream to write into. *)
Definition blank : pstate := message (replicate 400 0) 0.

Lemma default_answers :
  match @ikev2_process_sa_payload diag 1 2 3 4 true false false default_ikev2_ike_proposals (message default_offer 1) with
  | Ok (_, Some _, _) => True
  | _ => False
  end.
Proof. vm_compute. exact I. Qed.

Lemma negotiation_agrees_witness :
  (exists st' T, ikev2_emit_sa_proposals 0 1 2 3 false default_ikev2_ike_proposals None 0 blank = Ok st' /\
     wrote T 0 (sa_wire 0 0 default_offer) blank st') /\
  (exists ps', @ikev2_process_sa_payload diag 1 2 3 4 true false false default_ikev2_ike_proposals (message default_offer 1) =
     Ok (STF_OK, Some answered, ps')) /\
  (exists st' T, ikev2_emit_sa_proposal 0 1 2 3 answered None 0 blank = Ok st' /\ wrote T 0 (sa_wire 0 0 default_answer) blank st') /\
  (exists c' ps2', @ikev2_process_sa_payload diag 1 2 3 4 true false true default_ikev2_ike_proposals (message default_answer 1) =
     Ok (STF_OK, Some c', ps2') /\ same_choice answered c').
Proof.
  destruct default_ike_sendable as (_&Hl&Hs).
  assert (wf_pbs (ps_mem blank) (message_pbs (replicate 400 0))) as Hw by (apply message_wf; vm_compute; reflexivity).
  destruct (negotiation_agrees (E := diag) true false None None default_ikev2_ike_proposals default_ikev2_ike_proposals 0 false
    0 1 2 3 4 blank (message_pbs (replicate 400 0)) blank (message_pbs (replicate 400 0))
    ltac:(by_decide) ltac:(split; [by_decide|by eexists]) Hs Hl eq_refl ltac:(apply message_lookup) Hw ltac:(apply message_lookup) Hw
    ltac:(vm_compute; discriminate) ltac:(vm_compute; reflexivity) ltac:(vm_compute; discriminate)) as [H1 H2].
  split; [exact H1|].
  destruct (H2 (message default_offer 1) (message_pbs default_offer)) as (status&choice&ps'&Hp&Hc);
    [apply message_octets; vm_compute; reflexivity|].
  pose proof default_answers as Hd. rewrite Hp in Hd. destruct choice as [c|]; [|destruct Hd]. destruct Hc as (->&H3&H4).
  assert (c = answered) as -> by (unfold answered; rewrite Hp; reflexivity).
  split; [exists ps'; exact Hp|]. split; [exact H3|]. apply (H4 (message default_answer 1) (message_pbs default_answer)).
  apply message_octets. vm_compute. reflexivity.
Defined.

(** * Configurations *)

Definition aes_cbc : encrypt_desc := mk_encrypt 12 12 false [256; 192; 128; 0] 128 0.
Definition aes_gcm : encrypt_desc := mk_encrypt 20 20 false [256; 192; 128; 0] 128 16.
Definition sha1 : integ_desc := mk_integ 2 2.
Definition sha2_256 : integ_desc := mk_integ 12 5.
Definition few_algorithms : algorithms := mk_algs [aes_cbc; aes_gcm] [mk_prf 2; mk_prf 5] [sha1; sha2_256] [14; 15].

Lemma ciphers_ok : encrypt_ok aes_cbc /\ encrypt_ok aes_gcm.
Proof. repeat split; try by_decide; repeat constructor; done. Qed.

(** ike=aes-sha1;modp2048,aes_gcm256-sha2;modp3072 *)
Definition ike_config : list ike_info :=
  [mk_ike_info (Some aes_cbc) 0 (Some (mk_prf 2)) (Some sha1) (Some 14);
   mk_ike_info (Some aes_gcm) 256 (Some (mk_prf 5)) None (Some 15)].
Definition ike_configured : list by_type :=
  [mk_bt [encr 12 256; encr 12 128] [PRF_SHA1] [AUTH_SHA1_96] [DH_MODP2048] [];
   mk_bt [encr 20 256] [PRF_SHA2_256] [AUTH_NONE] [DH_MODP3072] []].

Lemma ike_proposals_as_configured_witness :
  exists ps, @ikev2_proposals_from_alg_info_ike diag (Some ike_config) None = Ok ps /\
    proposes IKEv2_SEC_PROTO_IKE ike_configured ps /\ sendable true false [] ps.
Proof.
  destruct ciphers_ok as [Hc Hg].
  destruct (ike_proposals_as_configured (E := diag) ike_config) as [(ps&H1&H2&_&H3) _].
  - apply Forall_cons_2; [|apply Forall_cons_2; [|apply Forall_nil_2]].
    all: unfold ike_info_ok; split_and!; cbn; intros; simplify_eq; (assumption || unfold id_ok; cbn; lia).
  - exists ps. exact (conj H1 (conj H2 (H3 ltac:(by_decide)))).
Defined.

(** A kernel with AES-CBC and HMAC-SHA1. *)
Definition table (id : Z) : list sadb_alg :=
  <[Z.to_nat id := mk_sadb id 128 256]> (replicate 256 (mk_sadb 0 0 0)).
Definition small_kernel : kernel_algs := mk_kernel (table 12) (table 3).
Definition esp_policy : Z := Z.lor POLICY_ENCRYPT POLICY_ESN_NO.

(** phase2alg=aes-sha1 with PFS *)
Definition esp_config : list esp_info := [mk_esp_info (Some aes_cbc) 12 0 (Some sha1) 2].

Lemma child_proposals_as_configured_witness :
  exists ps, @ikev2_proposals_from_alg_info_esp diag small_kernel (Some esp_config) esp_policy (Some 14) None = Ok ps /\
    proposes IKEv2_SEC_PROTO_ESP
      [mk_bt [encr 12 128; encr 12 256] [] [AUTH_SHA1_96] [DH_MODP2048] [no_key IKEv2_ESN_DISABLED]] ps /\
    sendable false true [1; 2; 3; 4] ps.
Proof.
  destruct ciphers_ok as [Hc _].
  destruct (child_proposals_as_configured (E := diag) small_kernel esp_policy (Some 14) USE_ESP esp_config) as [(ps&H1&H2&_&H3) _].
  - reflexivity.
  - reflexivity.
  - reflexivity.
  - intros g [= <-]. by_decide.
  - apply Forall_cons_2; [|apply Forall_nil_2].
    unfold esp_info_ok; split_and!; cbn; intros; simplify_eq; (assumption || discriminate || unfold id_ok; cbn; lia).
  - exists ps. exact (conj H1 (conj H2 (H3 [1; 2; 3; 4] ltac:(by_decide) eq_refl))).
Defined.

Lemma ah_default_for_esp_witness :
  @ikev2_process_child_sa_pl diag few_algorithms small_kernel 0 1 2 3 CHILD_OF_AUTH None None false
    (mk_cc ah_policy None None) (mk_cs None None no_attrs (mk_proto_info false [] no_attrs))
    (message (sha1_only IKEv2_SEC_PROTO_ESP) 0) = Abort.
Proof. apply (ah_default_for_esp (E := diag) few_algorithms small_kernel _ _ None None sha1); reflexivity. Defined.

(** A proposal whose first DH group is not known and whose second is. *)
Definition unknown_first : ikev2_proposals :=
  proposals_of [no_proposal; default_proposal IKEv2_SEC_PROTO_IKE [ENCR_AES_CBC_256] [AUTH_SHA1_96] [PRF_SHA1] [DH_MODP8192; DH_MODP3072]].

Lemma first_modp_heads_witness : @ikev2_proposals_first_modp diag few_algorithms unknown_first = Ok OAKLEY_GROUP_MODP2048.
Proof. rewrite (first_modp_heads (E := diag) few_algorithms unknown_first eq_refl). reflexivity. Defined.
