(* ===== verification/States.v ===== *)
(** The table of state objects of pluto: programs/pluto/state_entry.c and the part of
    programs/pluto/state.c that creates, hashes, finds and deletes them.

    A state object is known by its serial number. [heap] holds the objects that are allocated;
    the two hash tables of 32 chains hold the serial numbers of those that were inserted. *)
From S2P Require Import Prelude EnumNames Constants Packet PacketDescs PacketGeneric Stf Ikev2Sk Fragments Ikev2Payloads Address.

Definition STATE_TABLE_SIZE : Z := 32.
Definition COOKIE_SIZE : nat := 8.
Definition SOS_NOBODY : Z := 0.
Definition SOS_FIRST : Z := 1.

(** [enum state_kind]; the states of IKEv1 are not told apart. *)
Inductive state_kind :=
  | STATE_UNDEFINED
  | STATE_IKEv1 (k : Z)
  | STATE_PARENT_I1
  | STATE_PARENT_I2
  | STATE_PARENT_I3
  | STATE_PARENT_R1
  | STATE_PARENT_R2
  | STATE_V2_CREATE_I0
  | STATE_V2_CREATE_I
  | STATE_V2_REKEY_IKE_I0
  | STATE_V2_REKEY_IKE_I
  | STATE_V2_REKEY_CHILD_I0
  | STATE_V2_REKEY_CHILD_I
  | STATE_V2_CREATE_R
  | STATE_V2_REKEY_IKE_R
  | STATE_V2_REKEY_CHILD_R
  | STATE_V2_IPSEC_I
  | STATE_V2_IPSEC_R
  | STATE_IKESA_DEL
  | STATE_CHILDSA_DEL.

#[export] Instance state_kind_eq_dec : EqDecision state_kind.
Proof. solve_decision. Defined.

(** [enum event_type], as far as the timer event of a state object is told apart. *)
Inductive event_type :=
  | EVENT_SO_DISCARD
  | EVENT_SA_REPLACE
  | EVENT_v2_SA_REPLACE_IF_USED
  | EVENT_SA_EXPIRE
  | EVENT_v2_RETRANSMIT
  | EVENT_v2_RESPONDER_TIMEOUT
  | EVENT_v2_SEND_NEXT_IKE
  | EVENT_RETAIN
  | EVENT_OTHER (k : Z).

#[export] Instance event_type_eq_dec : EqDecision event_type.
Proof. solve_decision. Defined.

(** [struct ipsec_proto_info]; SPIs are in network order. *)
Record ipsec_proto_info := mk_proto { present : bool; attrs_spi : list Z; our_spi : list Z }.

(** The members of [struct state] that hold message IDs, in host order. *)
Record msgids := mk_msgids { lastack : Z; lastrecv : Z; lastreplied : Z; nextuse : Z }.

(** [st_remoteaddr], [st_remoteport], [st_localaddr] and [st_localport] *)
Record endpoints := mk_ends { remoteaddr : ip_address; remoteport : Z; localaddr : ip_address; localport : Z }.

(** [struct state]. [st_frag] is the part that protecting and fragmenting messages use;
    [st_msgid] is in network order; [st_suspended_md] says whether there is one;
    [nated_host] is the bit of [st_nat_traversal]; [newest_ipsec_sa] and [ike_window] are
    members of the connection. *)
Record state := mk_state {
  st_serialno : Z;
  st_clonedfrom : Z;
  st_icookie : list Z;
  st_rcookie : list Z;
  st_state : state_kind;
  st_frag : frag_state;
  st_msgid : list Z;
  st_msgids : msgids;
  st_suspended_md : bool;
  st_calculating : bool;
  nated_host : bool;
  st_ends : endpoints;
  st_pend_liveness : bool;
  st_ah : ipsec_proto_info;
  st_esp : ipsec_proto_info;
  st_ikev2_no_del : bool;
  st_event : option event_type;
  send_next_ix : list Z;
  newest_ipsec_sa : Z;
  ike_window : Z
}.

Definition set_state (k : state_kind) (s : state) : state :=
  mk_state (st_serialno s) (st_clonedfrom s) (st_icookie s) (st_rcookie s) k (st_frag s) (st_msgid s)
    (st_msgids s) (st_suspended_md s) (st_calculating s) (nated_host s) (st_ends s) (st_pend_liveness s)
    (st_ah s) (st_esp s) (st_ikev2_no_del s) (st_event s) (send_next_ix s) (newest_ipsec_sa s) (ike_window s).
Definition set_cookies (icookie rcookie : list Z) (s : state) : state :=
  mk_state (st_serialno s) (st_clonedfrom s) icookie rcookie (st_state s) (st_frag s) (st_msgid s)
    (st_msgids s) (st_suspended_md s) (st_calculating s) (nated_host s) (st_ends s) (st_pend_liveness s)
    (st_ah s) (st_esp s) (st_ikev2_no_del s) (st_event s) (send_next_ix s) (newest_ipsec_sa s) (ike_window s).
Definition set_st_clonedfrom (nsn : Z) (s : state) : state :=
  mk_state (st_serialno s) nsn (st_icookie s) (st_rcookie s) (st_state s) (st_frag s) (st_msgid s)
    (st_msgids s) (st_suspended_md s) (st_calculating s) (nated_host s) (st_ends s) (st_pend_liveness s)
    (st_ah s) (st_esp s) (st_ikev2_no_del s) (st_event s) (send_next_ix s) (newest_ipsec_sa s) (ike_window s).
Definition set_frag (f : frag_state) (s : state) : state :=
  mk_state (st_serialno s) (st_clonedfrom s) (st_icookie s) (st_rcookie s) (st_state s) f (st_msgid s)
    (st_msgids s) (st_suspended_md s) (st_calculating s) (nated_host s) (st_ends s) (st_pend_liveness s)
    (st_ah s) (st_esp s) (st_ikev2_no_del s) (st_event s) (send_next_ix s) (newest_ipsec_sa s) (ike_window s).
Definition set_msgids (m : msgids) (s : state) : state :=
  mk_state (st_serialno s) (st_clonedfrom s) (st_icookie s) (st_rcookie s) (st_state s) (st_frag s) (st_msgid s)
    m (st_suspended_md s) (st_calculating s) (nated_host s) (st_ends s) (st_pend_liveness s)
    (st_ah s) (st_esp s) (st_ikev2_no_del s) (st_event s) (send_next_ix s) (newest_ipsec_sa s) (ike_window s).
Definition set_ends (e : endpoints) (s : state) : state :=
  mk_state (st_serialno s) (st_clonedfrom s) (st_icookie s) (st_rcookie s) (st_state s) (st_frag s) (st_msgid s)
    (st_msgids s) (st_suspended_md s) (st_calculating s) (nated_host s) e (st_pend_liveness s)
    (st_ah s) (st_esp s) (st_ikev2_no_del s) (st_event s) (send_next_ix s) (newest_ipsec_sa s) (ike_window s).
Definition set_pend_liveness (b : bool) (s : state) : state :=
  mk_state (st_serialno s) (st_clonedfrom s) (st_icookie s) (st_rcookie s) (st_state s) (st_frag s) (st_msgid s)
    (st_msgids s) (st_suspended_md s) (st_calculating s) (nated_host s) (st_ends s) b
    (st_ah s) (st_esp s) (st_ikev2_no_del s) (st_event s) (send_next_ix s) (newest_ipsec_sa s) (ike_window s).
Definition set_no_del (s : state) : state :=
  mk_state (st_serialno s) (st_clonedfrom s) (st_icookie s) (st_rcookie s) (st_state s) (st_frag s) (st_msgid s)
    (st_msgids s) (st_suspended_md s) (st_calculating s) (nated_host s) (st_ends s) (st_pend_liveness s)
    (st_ah s) (st_esp s) true (st_event s) (send_next_ix s) (newest_ipsec_sa s) (ike_window s).
Definition set_event (e : option event_type) (s : state) : state :=
  mk_state (st_serialno s) (st_clonedfrom s) (st_icookie s) (st_rcookie s) (st_state s) (st_frag s) (st_msgid s)
    (st_msgids s) (st_suspended_md s) (st_calculating s) (nated_host s) (st_ends s) (st_pend_liveness s)
    (st_ah s) (st_esp s) (st_ikev2_no_del s) e (send_next_ix s) (newest_ipsec_sa s) (ike_window s).
Definition set_send_next (l : list Z) (s : state) : state :=
  mk_state (st_serialno s) (st_clonedfrom s) (st_icookie s) (st_rcookie s) (st_state s) (st_frag s) (st_msgid s)
    (st_msgids s) (st_suspended_md s) (st_calculating s) (nated_host s) (st_ends s) (st_pend_liveness s)
    (st_ah s) (st_esp s) (st_ikev2_no_del s) (st_event s) l (newest_ipsec_sa s) (ike_window s).

Definition IS_CHILD_SA (s : state) : bool := negb (st_clonedfrom s =? SOS_NOBODY).

(** Memory: the state objects; a [struct state_hash_table] is the list of its chains, first entry
    first. There are the table [statetable] by both cookies, the table
    [icookie_hash_table], and the next serial number of [new_state]. *)
Record states := mk_states {
  heap : gmap Z state;
  statetable : list (list Z);
  icookie_hash_table : list (list Z);
  next_so : Z
}.

Definition set_heap (h : gmap Z state) (w : states) : states := mk_states h (statetable w) (icookie_hash_table w) (next_so w).
Definition set_statetable (t : list (list Z)) (w : states) : states := mk_states (heap w) t (icookie_hash_table w) (next_so w).
Definition set_icookie_table (t : list (list Z)) (w : states) : states := mk_states (heap w) (statetable w) t (next_so w).

(** Following a pointer to a state object, and assigning to its members. *)
Definition get_state {E} (sn : Z) (w : states) : outcome E state := defined (heap w !! sn).
Definition modify (sn : Z) (f : state -> state) (w : states) : states := set_heap (alter f sn (heap w)) w.

(** * state_entry.c *)

Definition hash_by_state_cookies (icookie rcookie : list Z) : Z :=
  fold_left (fun i j => u32 (i * 407 + nth j icookie 0 + nth j rcookie 0)) (seq 0 COOKIE_SIZE) 0 mod STATE_TABLE_SIZE.

Definition chain_at (t : list (list Z)) (i : Z) : list Z := default [] (t !! Z.to_nat i).

(** Whether the links of the entry are in use. *)
Definition linked (sn : Z) (t : list (list Z)) : bool := existsb (existsb (Z.eqb sn)) t.

Definition insert_by_state_cookies {E} (icookie rcookie : list Z) (sn : Z) (t : list (list Z)) : outcome E (list (list Z)) :=
  passert (negb (linked sn t)) ;;
  Ok (alter (cons sn) (Z.to_nat (hash_by_state_cookies icookie rcookie)) t).

Definition remove_state_entry {E} (sn : Z) (t : list (list Z)) : outcome E (list (list Z)) :=
  passert (linked sn t) ;; (* prev_next is not NULL *)
  Ok (filter (fun sn' => sn' <> sn) <$> t).

(** The search loops: [FOR_EACH_STATE_ENTRY] with a condition that ends the loop. *)
Fixpoint first_entry {E} (cond : state -> bool) (l : list Z) (w : states) : outcome E (option Z) :=
  match l with
  | [] => Ok None
  | sn :: l' => st ← get_state sn w; if cond st : bool then Ok (Some sn) else first_entry cond l' w
  end.

(** * state.c *)

Definition zero_cookie : list Z := replicate COOKIE_SIZE 0.

Definition change_state (k : state_kind) (sn : Z) (w : states) : states := modify sn (set_state k) w.

(** [event_schedule(type, 0, st)] where [st_event] is NULL, or after [delete_event]. *)
Definition event_schedule (e : event_type) (sn : Z) (w : states) : states := modify sn (set_event (Some e)) w.

Definition ensure_event (sn : Z) (w : states) : states :=
  modify sn (fun st => match st_event st with None => set_event (Some EVENT_SO_DISCARD) st | Some _ => st end) w.

Definition insert_state {E} (sn : Z) (w : states) : outcome E states :=
  st ← get_state sn w;
  t ← insert_by_state_cookies (st_icookie st) (st_rcookie st) sn (statetable w);
  t' ← insert_by_state_cookies (st_icookie st) zero_cookie sn (icookie_hash_table w);
  Ok (ensure_event sn (set_icookie_table t' (set_statetable t w))).

Definition rehash_state {E} (icookie : option (list Z)) (rcookie : list Z) (sn : Z) (w : states) : outcome E states :=
  st ← get_state sn w;
  t ← remove_state_entry sn (statetable w);
  let icookie' := default (st_icookie st) icookie in
  t' ← insert_by_state_cookies icookie' rcookie sn t;
  Ok (ensure_event sn (modify sn (set_cookies icookie' rcookie) (set_statetable t' w))).

Definition unhash_state {E} (sn : Z) (w : states) : outcome E states :=
  t ← remove_state_entry sn (statetable w);
  t' ← remove_state_entry sn (icookie_hash_table w);
  Ok (set_icookie_table t' (set_statetable t w)).

(** [delete_state], as far as the tables and the memory go: what it does to the connection and the
    kernel is not modelled. In the calls that are, [send_delete_check] is false, because
    [st_ikev2_no_del] is set or the state is one of the [_DEL] states, so that no Delete is sent
    and the IKE SA is not touched; and the reset of [newest_ipsec_sa] in the connection cannot be
    seen, since the number is compared with numbers of other objects only. *)
Definition delete_state {E} (sn : Z) (w : states) : outcome E states :=
  _ ← get_state sn w;
  w1 ← unhash_state sn w;
  Ok (set_heap (delete sn (heap w1)) w1).

Definition find_state_ikev2_parent {E} (icookie rcookie : list Z) (w : states) : outcome E (option Z) :=
  first_entry (fun st => bool_decide (icookie = st_icookie st) && bool_decide (rcookie = st_rcookie st) &&
                         st_ikev2 (st_frag st) && negb (IS_CHILD_SA st))
    (chain_at (statetable w) (hash_by_state_cookies icookie rcookie)) w.

Definition ikev2_find_state_in_init {E} (icookie : list Z) (expected_state : state_kind) (is_child : bool) (w : states)
  : outcome E (option Z) :=
  first_entry (fun st => st_ikev2 (st_frag st) && bool_decide (st_state st = expected_state) &&
                         bool_decide (icookie = st_icookie st) && negb (negb is_child && IS_CHILD_SA st))
    (chain_at (icookie_hash_table w) (hash_by_state_cookies icookie zero_cookie)) w.

Definition find_state_ikev2_child {E} (icookie rcookie msgid : list Z) (w : states) : outcome E (option Z) :=
  first_entry (fun st => bool_decide (icookie = st_icookie st) && bool_decide (rcookie = st_rcookie st) &&
                         st_ikev2 (st_frag st) && bool_decide (st_msgid st = msgid))
    (chain_at (statetable w) (hash_by_state_cookies icookie rcookie)) w.

Definition PROTO_ISAKMP : Z := 1.
Definition PROTO_IPSEC_AH : Z := 2.
Definition PROTO_IPSEC_ESP : Z := 3.

Definition proto_of (protoid : Z) (st : state) : ipsec_proto_info := if protoid =? PROTO_IPSEC_AH then st_ah st else st_esp st.

(** A [protoid] other than AH and ESP is a [bad_case], reached with the first child of the IKE SA. *)
Definition find_state_ikev2_child_to_delete {E} (icookie rcookie : list Z) (protoid : Z) (spi : list Z) (w : states)
  : outcome E (option Z) :=
  let child st := bool_decide (icookie = st_icookie st) && bool_decide (rcookie = st_rcookie st) &&
                  st_ikev2 (st_frag st) && IS_CHILD_SA st in
  let list := chain_at (statetable w) (hash_by_state_cookies icookie rcookie) in
  if (protoid =? PROTO_IPSEC_AH) || (protoid =? PROTO_IPSEC_ESP) then
    first_entry (fun st => child st &&
                           (let pr := proto_of protoid st in
                            present pr && (bool_decide (attrs_spi pr = spi) || bool_decide (our_spi pr = spi)))) list w
  else
    st ← first_entry child list w;
    match st with None => Ok None | Some _ => Abort end.

(** The loops over the whole table visit one chain after the other. *)
Definition state_with_serialno {E} (sn : Z) (w : states) : outcome E (option Z) :=
  if SOS_FIRST <=? sn then first_entry (fun st => st_serialno st =? sn) (concat (statetable w)) w else Ok None.

Definition eq_pst_msgid_kind (st : state) (psn : Z) (msgid : list Z) (expected_state : state_kind) : bool :=
  (st_clonedfrom st =? psn) && bool_decide (st_msgid st = msgid) && bool_decide (st_state st = expected_state).

Definition state_with_parent_msgid_expect {E} (psn : Z) (msgid : list Z) (expected_state : state_kind) (w : states)
  : outcome E (option Z) :=
  passert (SOS_FIRST <=? psn) ;;
  first_entry (fun st => eq_pst_msgid_kind st psn msgid expected_state) (concat (statetable w)) w.

(** [IS_CHILD_SA(st) ? state_with_serialno(st->st_clonedfrom) : st] *)
Definition parent_of {E} (sn : Z) (w : states) : outcome E (option Z) :=
  st ← get_state sn w;
  if IS_CHILD_SA st then state_with_serialno (st_clonedfrom st) w else Ok (Some sn).

(** The member [st_serialno] of a new object is the number it is known by here. *)
Definition blank_proto : ipsec_proto_info := mk_proto false (replicate 4 0) (replicate 4 0).

(** [duplicate_state(st, sa_type)] with [new_state], where [ipsec] tells [IPSEC_SA] from [IKE_SA].
    [no_keys] stands for the algorithms and keys of a blank object, null pointers; a copy of
    [hidden_variables] holds [st_skeyid_calculated]. *)
Definition duplicate_sk (ipsec : bool) (no_keys sk : sk_state) : sk_state :=
  if ipsec then sk
  else mk_sk (encrypter no_keys) (integ no_keys) (st_original_role sk) (st_skeyid_calculated sk)
         (st_skey_ei_nss no_keys) (st_skey_er_nss no_keys) (st_skey_ai_nss no_keys) (st_skey_ar_nss no_keys)
         (st_skey_initiator_salt no_keys) (st_skey_responder_salt no_keys).

Definition duplicate_frag (ipsec : bool) (no_keys : sk_state) (f : frag_state) : frag_state :=
  mk_fst (duplicate_sk ipsec no_keys (st_sk f)) (st_ikev2 f) (policy f) (ipv4 f) (st_interface f) (st_seen_fragvid f)
    (st_seen_fragments f) [] [] [] [].

Definition duplicate_state {E} (no_keys : sk_state) (sn : Z) (ipsec : bool) (w : states) : outcome E (Z * states) :=
  st ← get_state sn w;
  let nsn := next_so w in
  let icookie := if ipsec then st_icookie st else zero_cookie in
  let rcookie := if ipsec then st_rcookie st else zero_cookie in
  let nst := mk_state nsn (st_serialno st) icookie rcookie STATE_UNDEFINED (duplicate_frag ipsec no_keys (st_frag st))
               (replicate 4 0) (mk_msgids 0 0 0 0) false false (nated_host st) (st_ends st) false blank_proto blank_proto
               false None [] (newest_ipsec_sa st) (ike_window st) in
  Ok (nsn, mk_states (<[nsn := nst]> (heap w)) (statetable w) (icookie_hash_table w) (nsn + 1)).

(** [FOR_EACH_STATE_ENTRY] with a body that may move or delete the current entry: the next one is
    read before the body runs. *)
Fixpoint each_entry {E} (body : Z -> states -> outcome E states) (l : list Z) (w : states) : outcome E states :=
  match l with
  | [] => Ok w
  | sn :: l' => w1 ← body sn w; each_entry body l' w1
  end.

Definition delete_my_family {E} (v2_responder_state : bool) (sn : Z) (w : states) : outcome E states :=
  pst ← get_state sn w;
  passert (negb (IS_CHILD_SA pst)) ;;
  w1 ← each_entry
         (fun sn' w => st ← get_state sn' w;
            if st_clonedfrom st =? st_serialno pst
            then delete_state sn' (if v2_responder_state then change_state STATE_CHILDSA_DEL sn' w else w)
            else Ok w)
         (chain_at (statetable w) (hash_by_state_cookies (st_icookie pst) (st_rcookie pst))) w;
  delete_state sn (if v2_responder_state then change_state STATE_IKESA_DEL sn w1 else w1).

(** One chain after the other, each as it is when its turn comes. *)
Fixpoint each_chain {E} (body : Z -> states -> outcome E states) (idx : list nat) (w : states) : outcome E states :=
  match idx with
  | [] => Ok w
  | i :: idx' => w1 ← each_entry body (chain_at (statetable w) (Z.of_nat i)) w; each_chain body idx' w1
  end.

Definition ikev2_inherit_ipsec_sa {E} (osn nsn : Z) (icookie rcookie : list Z) (w : states) : outcome E states :=
  passert (SOS_FIRST <=? nsn) ;;
  each_chain
    (fun sn w => st ← get_state sn w;
       if st_clonedfrom st =? osn then rehash_state (Some icookie) rcookie sn (modify sn (set_st_clonedfrom nsn) w)
       else Ok w)
    (seq 0 (Z.to_nat STATE_TABLE_SIZE)) w.

Definition state_busy (st : state) : bool := st_suspended_md st || st_calculating st.

(** [update_ike_endpoints]: [ike_float] is a member of the interface. *)
Definition set_interface (ike_float : bool) (f : frag_state) : frag_state :=
  mk_fst (st_sk f) (st_ikev2 f) (policy f) (ipv4 f) (Some ike_float) (st_seen_fragvid f) (st_seen_fragments f)
    (ike_frags f) (ikev2_frags f) (st_tfrags f) (st_tpacket f).

Definition update_ike_endpoints (ends : endpoints) (ike_float : bool) (st : state) : state :=
  set_frag (set_interface ike_float (st_frag st)) (set_ends ends st).
