(* ===== verification/StateTheorems.v ===== *)
(** What the table of state objects promises: it is a finite map from serial numbers to the state
    objects that were inserted. Every operation keeps the chains consistent with the cookies of
    the objects and acts on the map as its name says, and every search finds an object of the map
    that has the properties asked for, if there is one. *)
From S2P Require Import Prelude EnumNames Constants Packet PacketDescs PacketGeneric Stf Ikev2Sk Fragments Ikev2Payloads Address States.

(** * Chains *)

Lemma linked_spec sn t : linked sn t = true <-> sn ∈ concat t.
Proof.
  unfold linked. rewrite existsb_exists, list_elem_of_In, in_concat. split.
  - intros (l&Hl&Hs). apply existsb_exists in Hs as (x&Hx&->%Z.eqb_eq). eauto.
  - intros (l&Hl&Hs). exists l. split; [done|]. apply existsb_exists. exists sn. split; [done|apply Z.eqb_refl].
Qed.

Lemma chain_at_concat t i sn : sn ∈ chain_at t i -> sn ∈ concat t.
Proof.
  unfold chain_at. destruct (t !! Z.to_nat i) as [l|] eqn:Hl; cbn; [|intros H; by apply not_elem_of_nil in H].
  intros H. apply list_elem_of_In, in_concat. exists l. split; [|by apply list_elem_of_In].
  apply list_elem_of_In. by eapply list_elem_of_lookup_2.
Qed.

Lemma concat_chain_at t sn : sn ∈ concat t -> exists i, 0 <= i < Z.of_nat (length t) /\ sn ∈ chain_at t i.
Proof.
  intros H%list_elem_of_In. apply in_concat in H as (l&Hl&Hs). apply list_elem_of_In, list_elem_of_lookup_1 in Hl as [i Hi].
  exists (Z.of_nat i). pose proof (lookup_lt_Some _ _ _ Hi). split; [lia|]. unfold chain_at. rewrite Nat2Z.id, Hi. by apply list_elem_of_In.
Qed.

Section insert_entry.
Context (t : list (list Z)) (i : Z) (Hi : 0 <= i < Z.of_nat (length t)) (sn : Z).
Local Abbreviation t' := (alter (cons sn) (Z.to_nat i) t).

Lemma chain_at_insert j : 0 <= j -> chain_at t' j = if i =? j then sn :: chain_at t j else chain_at t j.
Proof.
  intros Hj. unfold chain_at. destruct (Z.eqb_spec i j) as [<-|Hn].
  - rewrite list_lookup_alter_eq. destruct (t !! Z.to_nat i) eqn:Hl; [done|]. apply lookup_ge_None in Hl. lia.
  - rewrite list_lookup_alter_ne by lia. done.
Qed.

End insert_entry.

Lemma concat_insert (t : list (list Z)) (n : nat) sn : (n < length t)%nat -> concat (alter (cons sn) n t) ≡ₚ sn :: concat t.
Proof.
  revert n. induction t as [|l t IH]; intros n Hn; cbn in Hn; [lia|]. destruct n as [|n]; [done|].
  change (alter (cons sn) (S n) (l :: t)) with (l :: alter (cons sn) n t). cbn [concat]. rewrite IH by lia.
  by rewrite <- Permutation_middle.
Qed.

Lemma chain_at_remove t sn j : chain_at (filter (fun sn' => sn' <> sn) <$> t) j = filter (fun sn' => sn' <> sn) (chain_at t j).
Proof. unfold chain_at. rewrite list_lookup_fmap. by destruct (t !! Z.to_nat j). Qed.

Lemma concat_remove (t : list (list Z)) sn : concat (filter (fun sn' => sn' <> sn) <$> t) = filter (fun sn' => sn' <> sn) (concat t).
Proof. induction t as [|l t IH]; [done|]. cbn. by rewrite filter_app, IH. Qed.

Lemma hash_bounds icookie rcookie : 0 <= hash_by_state_cookies icookie rcookie < 32.
Proof. unfold hash_by_state_cookies, STATE_TABLE_SIZE. apply Z.mod_pos_bound. lia. Qed.

#[local] Opaque hash_by_state_cookies.

(** * The invariant *)

(** A table of 32 chains without repetitions. [key] says which chain an object belongs to. *)
Record chains_ok (key : state -> Z) (h : gmap Z state) (t : list (list Z)) : Prop := {
  chains_size : length t = 32%nat;
  chains_nodup : NoDup (concat t);
  chains_key : forall i sn, 0 <= i -> sn ∈ chain_at t i -> exists st, h !! sn = Some st /\ key st = i
}.

Definition cookie_key (st : state) : Z := hash_by_state_cookies (st_icookie st) (st_rcookie st).
Definition icookie_key (st : state) : Z := hash_by_state_cookies (st_icookie st) zero_cookie.

Record table_ok (w : states) : Prop := {
  table_chains : chains_ok cookie_key (heap w) (statetable w);
  table_ichains : chains_ok icookie_key (heap w) (icookie_hash_table w);
  table_same : forall sn, sn ∈ concat (statetable w) <-> sn ∈ concat (icookie_hash_table w);
  table_heap : forall sn st, heap w !! sn = Some st -> st_serialno st = sn /\ SOS_FIRST <= sn < next_so w
}.

(** The map that the table stands for. *)
Definition table_map (w : states) : gmap Z state := filter (fun p => p.1 ∈ concat (statetable w)) (heap w).

Lemma table_map_lookup w sn st : table_map w !! sn = Some st <-> heap w !! sn = Some st /\ sn ∈ concat (statetable w).
Proof. unfold table_map. apply map_lookup_filter_Some. Qed.

Lemma chains_entry key h t sn : chains_ok key h t -> sn ∈ concat t -> exists st, h !! sn = Some st /\ sn ∈ chain_at t (key st).
Proof.
  intros Hok (i&Hi&Hs)%concat_chain_at. destruct (chains_key _ _ _ Hok i sn) as (st&Hst&<-); [lia|done|]. eauto.
Qed.

Lemma chains_insert key h t st sn :
  chains_ok key h t -> h !! sn = Some st -> 0 <= key st < 32 -> sn ∉ concat t -> chains_ok key h (alter (cons sn) (Z.to_nat (key st)) t).
Proof.
  intros [Hs Hn Hk] Hh Hb Hnot. assert (0 <= key st < Z.of_nat (length t)) as Hb' by lia. split.
  - by rewrite length_alter.
  - rewrite concat_insert by lia. by constructor.
  - intros i sn' Hi. rewrite chain_at_insert by done. destruct (Z.eqb_spec (key st) i) as [<-|]; [|by apply Hk].
    intros [->|H]%elem_of_cons; [eauto|by apply Hk].
Qed.

Lemma chains_remove key h t sn : chains_ok key h t -> chains_ok key h (filter (fun sn' => sn' <> sn) <$> t).
Proof.
  intros [Hs Hn Hk]. split.
  - by rewrite length_fmap.
  - rewrite concat_remove. by apply NoDup_filter.
  - intros i sn' Hi. rewrite chain_at_remove. intros [_ H]%list_elem_of_filter. by apply Hk.
Qed.

(** Changing the heap where the chains do not look. *)
Lemma chains_heap key h h' t :
  chains_ok key h t -> (forall sn st, sn ∈ concat t -> h !! sn = Some st -> exists st', h' !! sn = Some st' /\ key st' = key st) ->
  chains_ok key h' t.
Proof.
  intros [Hs Hn Hk] Hh. split; [done|done|]. intros i sn Hi Hsn. destruct (Hk i sn Hi Hsn) as (st&Hst&<-).
  apply (Hh sn st); [by eapply chain_at_concat|done].
Qed.

Lemma get_state_at {E} sn w st : heap w !! sn = Some st -> get_state (E := E) sn w = Ok st.
Proof. intros H. unfold get_state. by rewrite H. Qed.

(** * Searching *)

(** The outcome of a search in a map. *)
Definition found_in (m : gmap Z state) (cond : state -> bool) (r : option Z) : Prop :=
  match r with
  | Some sn => exists st, m !! sn = Some st /\ cond st = true
  | None => forall sn st, m !! sn = Some st -> cond st = false
  end.

Lemma first_entry_found {E} cond l w :
  (forall sn, sn ∈ l -> exists st, heap w !! sn = Some st) ->
  exists r, first_entry (E := E) cond l w = Ok r /\
    match r with
    | Some sn => sn ∈ l /\ exists st, heap w !! sn = Some st /\ cond st = true
    | None => forall sn st, sn ∈ l -> heap w !! sn = Some st -> cond st = false
    end.
Proof.
  induction l as [|sn l IH]; intros Hl.
  - exists None. split; [done|]. intros sn st H. by apply not_elem_of_nil in H.
  - cbn [first_entry]. destruct (Hl sn) as [st Hst]; [by left|]. unfold get_state. rewrite Hst. run_ok.
    destruct (cond st) eqn:Hc.
    + exists (Some sn). split; [done|]. split; [by left|]. eauto.
    + destruct IH as (r&->&Hr); [intros; apply Hl; by right|]. exists r. split; [done|]. destruct r as [sn'|].
      * destruct Hr as [Hin Hr]. split; [by right|done].
      * intros sn' st' [->|Hin]%elem_of_cons Hst'; [congruence|eauto].
Qed.

Section search.
Context {E : Type} (w : states) (Hw : table_ok w) (cond : state -> bool).

Lemma entry_table_map sn st : sn ∈ concat (statetable w) -> heap w !! sn = Some st -> table_map w !! sn = Some st.
Proof. intros. by apply table_map_lookup. Qed.

Lemma search_table : exists r, first_entry (E := E) cond (concat (statetable w)) w = Ok r /\ found_in (table_map w) cond r.
Proof.
  destruct (first_entry_found (E := E) cond (concat (statetable w)) w) as (r&->&Hr).
  { intros sn Hsn. destruct (chains_entry _ _ _ _ (table_chains _ Hw) Hsn) as (st&Hst&_). eauto. }
  exists r. split; [done|]. destruct r as [sn|].
  - destruct Hr as (Hin&st&Hst&Hc). exists st. split; [by apply entry_table_map|done].
  - intros sn st [Hst Hin]%table_map_lookup. by apply (Hr sn st).
Qed.

(** Looking at one chain is enough if only objects of that chain can satisfy the condition. *)
Lemma search_chain key t i :
  chains_ok key (heap w) t -> (forall sn, sn ∈ concat (statetable w) <-> sn ∈ concat t) -> 0 <= i ->
  (forall st, cond st = true -> key st = i) ->
  exists r, first_entry (E := E) cond (chain_at t i) w = Ok r /\ found_in (table_map w) cond r.
Proof.
  intros Ht Hsame Hi Hkey. destruct (first_entry_found (E := E) cond (chain_at t i) w) as (r&->&Hr).
  { intros sn Hsn. destruct (chains_key _ _ _ Ht i sn Hi Hsn) as (st&Hst&_). eauto. }
  exists r. split; [done|]. destruct r as [sn|].
  - destruct Hr as (Hin&st&Hst&Hc). exists st. split; [|done]. apply entry_table_map; [|done]. apply Hsame. by eapply chain_at_concat.
  - intros sn st [Hst Hin]%table_map_lookup. destruct (cond st) eqn:Hc; [|done]. rewrite <- Hc. apply (Hr sn st); [|done].
    apply Hsame in Hin. destruct (chains_entry _ _ _ _ Ht Hin) as (st'&Hst'&Hch). rewrite Hst in Hst'. injection Hst' as <-.
    by rewrite <- (Hkey st Hc).
Qed.
End search.

(** What the four searches by cookies and the two over the whole table look for. *)
Definition is_parent (icookie rcookie : list Z) (st : state) : bool :=
  bool_decide (icookie = st_icookie st) && bool_decide (rcookie = st_rcookie st) && st_ikev2 (st_frag st) && negb (IS_CHILD_SA st).
Definition is_awaiting (icookie rcookie msgid : list Z) (st : state) : bool :=
  bool_decide (icookie = st_icookie st) && bool_decide (rcookie = st_rcookie st) && st_ikev2 (st_frag st) && bool_decide (st_msgid st = msgid).
Definition is_initial (icookie : list Z) (k : state_kind) (st : state) : bool :=
  st_ikev2 (st_frag st) && bool_decide (st_state st = k) && bool_decide (icookie = st_icookie st) && negb (IS_CHILD_SA st).
Definition has_spi (icookie rcookie : list Z) (protoid : Z) (spi : list Z) (st : state) : bool :=
  bool_decide (icookie = st_icookie st) && bool_decide (rcookie = st_rcookie st) && st_ikev2 (st_frag st) && IS_CHILD_SA st &&
  (present (proto_of protoid st) && (bool_decide (attrs_spi (proto_of protoid st) = spi) || bool_decide (our_spi (proto_of protoid st) = spi))).

(** Solves a search whose condition compares the cookies. *)
Ltac by_chain :=
  intros; apply search_chain with (key := cookie_key); [by apply table_chains|intros; reflexivity|apply hash_bounds|];
  let st := fresh "st" in
  intros st; rewrite !andb_true_iff; intros; destruct_and?;
  repeat match goal with H : bool_decide _ = true |- _ => apply bool_decide_eq_true in H end; subst; done.

Lemma find_parent_ok {E} w icookie rcookie : table_ok w ->
  exists r, find_state_ikev2_parent (E := E) icookie rcookie w = Ok r /\ found_in (table_map w) (is_parent icookie rcookie) r.
Proof. by_chain. Qed.

Lemma find_child_ok {E} w icookie rcookie msgid : table_ok w ->
  exists r, find_state_ikev2_child (E := E) icookie rcookie msgid w = Ok r /\ found_in (table_map w) (is_awaiting icookie rcookie msgid) r.
Proof. by_chain. Qed.

Lemma find_child_to_delete_ok {E} w icookie rcookie protoid spi : table_ok w -> protoid = PROTO_IPSEC_AH \/ protoid = PROTO_IPSEC_ESP ->
  exists r, find_state_ikev2_child_to_delete (E := E) icookie rcookie protoid spi w = Ok r /\
    found_in (table_map w) (has_spi icookie rcookie protoid spi) r.
Proof.
  intros Hw Hp. unfold find_state_ikev2_child_to_delete.
  assert ((protoid =? PROTO_IPSEC_AH) || (protoid =? PROTO_IPSEC_ESP) = true) as -> by (destruct Hp as [-> | ->]; done).
  revert Hw. by_chain.
Qed.

Lemma find_in_init_ok {E} w icookie k : table_ok w ->
  exists r, ikev2_find_state_in_init (E := E) icookie k false w = Ok r /\ found_in (table_map w) (is_initial icookie k) r.
Proof.
  intros Hw. apply search_chain with (key := icookie_key); [by apply table_ichains|by apply table_same|apply hash_bounds|].
  intros st. cbn [negb andb]. rewrite !andb_true_iff. intros. destruct_and?.
  repeat match goal with H : bool_decide _ = true |- _ => apply bool_decide_eq_true in H end. subst. done.
Qed.

(** An object is found by its number exactly if it is in the table. *)
Lemma state_with_serialno_ok {E} w sn : table_ok w ->
  state_with_serialno (E := E) sn w = Ok (if decide (is_Some (table_map w !! sn)) then Some sn else None).
Proof.
  intros Hw. unfold state_with_serialno. destruct (Z.leb_spec SOS_FIRST sn) as [Hsn|Hsn].
  - destruct (search_table (E := E) w Hw (fun st => st_serialno st =? sn)) as (r&->&Hr). f_equal. destruct r as [sn'|]; cbn in Hr.
    + destruct Hr as (st&Hst&Heq%Z.eqb_eq). destruct (proj1 (table_map_lookup _ _ _) Hst) as [Hh _].
      destruct (table_heap _ Hw _ _ Hh) as [? _]. assert (sn' = sn) as -> by congruence. rewrite decide_True by eauto. done.
    + rewrite decide_False; [done|]. intros [st Hst]. specialize (Hr sn st Hst). destruct (proj1 (table_map_lookup _ _ _) Hst) as [Hh _].
      destruct (table_heap _ Hw _ _ Hh) as [Hs _]. cbn in Hr. by rewrite Hs, Z.eqb_refl in Hr.
  - rewrite decide_False; [done|]. intros [st Hst]. destruct (proj1 (table_map_lookup _ _ _) Hst) as [Hh _].
    destruct (table_heap _ Hw _ _ Hh). lia.
Qed.

(** * Operations *)

Lemma table_map_at w sn : table_map w !! sn = if decide (sn ∈ concat (statetable w)) then heap w !! sn else None.
Proof.
  apply option_eq. intros st. rewrite table_map_lookup. case_decide; naive_solver.
Qed.

Lemma table_map_same w w' j : heap w' !! j = heap w !! j -> (j ∈ concat (statetable w') <-> j ∈ concat (statetable w)) -> table_map w' !! j = table_map w !! j.
Proof. intros Hh Hc. rewrite !table_map_at, Hh. repeat case_decide; tauto. Qed.

(** Assignments to members that the tables do not depend on. *)
Definition keeps_identity (f : state -> state) : Prop :=
  forall st, st_serialno (f st) = st_serialno st /\ st_icookie (f st) = st_icookie st /\ st_rcookie (f st) = st_rcookie st.

Lemma table_map_modify sn f w : table_map (modify sn f w) = alter f sn (table_map w).
Proof.
  apply map_eq. intros j. rewrite table_map_at. cbn. destruct (decide (sn = j)) as [->|Hn].
  - rewrite !lookup_alter_eq, table_map_at. by case_decide.
  - rewrite !lookup_alter_ne, table_map_at by done. done.
Qed.

Lemma chains_modify key h t sn f : (forall st, key (f st) = key st) -> chains_ok key h t -> chains_ok key (alter f sn h) t.
Proof.
  intros Hf Hc. eapply chains_heap; [exact Hc|]. intros j st _ Hst. destruct (decide (sn = j)) as [->|Hn].
  - exists (f st). by rewrite lookup_alter_eq, Hst.
  - exists st. by rewrite lookup_alter_ne.
Qed.

Lemma modify_ok sn f w : keeps_identity f -> table_ok w -> table_ok (modify sn f w).
Proof.
  intros Hf [Hc Hi Hs Hh]. split; [..|done|]; cbn.
  - apply chains_modify; [|done]. intros st. unfold cookie_key. by destruct (Hf st) as (_&->&->).
  - apply chains_modify; [|done]. intros st. unfold icookie_key. by destruct (Hf st) as (_&->&_).
  - intros j st Hj. destruct (decide (sn = j)) as [->|Hn].
    + rewrite lookup_alter_eq in Hj. apply fmap_Some in Hj as (st0&Hst0&->). destruct (Hf st0) as (->&_&_). by apply Hh.
    + rewrite lookup_alter_ne in Hj by done. by apply Hh.
Qed.

(** The object after [if (st->st_event == NULL) event_schedule(EVENT_SO_DISCARD, 0, st)]. *)
Definition ensured (st : state) : state := match st_event st with None => set_event (Some EVENT_SO_DISCARD) st | Some _ => st end.

Lemma ensured_identity : keeps_identity ensured.
Proof. intros st. unfold ensured. by case_match. Qed.

Lemma not_linked sn t : sn ∉ concat t -> linked sn t = false.
Proof. intros H. destruct (linked sn t) eqn:Hl; [|done]. by apply linked_spec in Hl. Qed.

Lemma insert_entry_ok {E} key h t st sn ic rc :
  chains_ok key h t -> h !! sn = Some st -> key st = hash_by_state_cookies ic rc -> sn ∉ concat t ->
  exists t', insert_by_state_cookies (E := E) ic rc sn t = Ok t' /\ chains_ok key h t' /\ concat t' ≡ₚ sn :: concat t.
Proof.
  intros Hc Hst Hk Hn. unfold insert_by_state_cookies. rewrite not_linked by done. cbn [negb passert]. rewrite bind_Ok, <- Hk.
  pose proof (hash_bounds ic rc). eexists. split; [done|]. split; [apply chains_insert; (done || lia)|].
  apply concat_insert. rewrite (chains_size _ _ _ Hc). lia.
Qed.

Lemma remove_entry_ok {E} key h t sn :
  chains_ok key h t -> sn ∈ concat t ->
  exists t', remove_state_entry (E := E) sn t = Ok t' /\ chains_ok key h t' /\ (forall j, j ∈ concat t' <-> j <> sn /\ j ∈ concat t).
Proof.
  intros Hc Hs. unfold remove_state_entry. apply linked_spec in Hs. rewrite Hs. eexists. split; [done|].
  split; [by apply chains_remove|]. intros j. by rewrite concat_remove, list_elem_of_filter.
Qed.

Lemma insert_state_ok {E} w sn st : table_ok w -> heap w !! sn = Some st -> sn ∉ concat (statetable w) ->
  exists w', insert_state (E := E) sn w = Ok w' /\ table_ok w' /\ table_map w' = <[sn := ensured st]> (table_map w) /\
    heap w' = alter ensured sn (heap w).
Proof.
  intros [Hc Hi Hs Hh] Hst Hn. unfold insert_state, get_state. rewrite Hst. run_ok.
  destruct (insert_entry_ok (E := E) cookie_key _ _ st sn (st_icookie st) (st_rcookie st) Hc Hst eq_refl Hn) as (t1&->&Hc1&Hp1). rewrite bind_Ok.
  destruct (insert_entry_ok (E := E) icookie_key _ _ st sn (st_icookie st) zero_cookie Hi Hst eq_refl) as (t2&->&Hc2&Hp2); [by rewrite <- Hs|].
  rewrite bind_Ok. eexists. split; [done|]. split; [|split; [|done]].
  - apply modify_ok; [apply ensured_identity|]. split; cbn; [done|done| |done]. intros j. rewrite Hp1, Hp2, !elem_of_cons. by rewrite Hs.
  - unfold ensure_event. rewrite table_map_modify. fold ensured. apply map_eq. intros j. destruct (decide (sn = j)) as [<-|Hne].
    + rewrite lookup_alter_eq, lookup_insert_eq, table_map_at. cbn. rewrite decide_True by (rewrite Hp1; by left). by rewrite Hst.
    + rewrite lookup_alter_ne, lookup_insert_ne by done. apply table_map_same; [done|]. cbn. rewrite Hp1, elem_of_cons. naive_solver.
Qed.

(** Moving an object to the chain of its new cookies. *)
Lemma rehash_entry {E} w sn st icookie rcookie :
  chains_ok cookie_key (heap w) (statetable w) -> table_map w !! sn = Some st ->
  exists w', rehash_state (E := E) icookie rcookie sn w = Ok w' /\
    let st' := ensured (set_cookies (default (st_icookie st) icookie) rcookie st) in
    heap w' = <[sn := st']> (heap w) /\ icookie_hash_table w' = icookie_hash_table w /\ next_so w' = next_so w /\
    chains_ok cookie_key (heap w') (statetable w') /\ (forall j, j ∈ concat (statetable w') <-> j ∈ concat (statetable w)) /\
    table_map w' = <[sn := st']> (table_map w).
Proof.
  intros Hc [Hst Hin]%table_map_lookup. unfold rehash_state, get_state. rewrite Hst. run_ok.
  destruct (remove_entry_ok (E := E) _ _ _ sn Hc Hin) as (t1&->&Hc1&Ht1). rewrite bind_Ok.
  set (st1 := set_cookies (default (st_icookie st) icookie) rcookie st).
  assert (chains_ok cookie_key (<[sn := st1]> (heap w)) t1) as Hc1'.
  { eapply chains_heap; [exact Hc1|]. intros j s Hj Hs. exists s. split; [|done]. rewrite lookup_insert_ne; [done|]. intros <-. by apply Ht1 in Hj as []. }
  destruct (insert_entry_ok (E := E) cookie_key _ _ st1 sn (default (st_icookie st) icookie) rcookie Hc1' (lookup_insert_eq _ _ _) eq_refl)
    as (t2&->&Hc2&Hp2); [intros [? _]%Ht1; done|]. rewrite bind_Ok.
  assert (heap (ensure_event sn (modify sn (set_cookies (default (st_icookie st) icookie) rcookie) (set_statetable t2 w))) =
    <[sn := ensured st1]> (heap w)) as Hheap.
  { cbn. fold ensured. apply map_eq. intros j. destruct (decide (sn = j)) as [<-|Hne].
    - by rewrite !lookup_alter_eq, lookup_insert_eq, Hst.
    - by rewrite !lookup_alter_ne, lookup_insert_ne. }
  assert (forall j, j ∈ concat t2 <-> j ∈ concat (statetable w)) as Hsame.
  { intros j. rewrite Hp2, elem_of_cons, Ht1. destruct (decide (j = sn)) as [->|]; naive_solver. }
  eexists. split; [done|]. split; [exact Hheap|]. split; [done|]. split; [done|]. split; [|split; [exact Hsame|]].
  - rewrite Hheap. eapply chains_heap; [exact Hc2|]. intros j s _ Hs. destruct (decide (sn = j)) as [<-|Hne].
    + rewrite lookup_insert_eq in *. injection Hs as <-. eexists. split; [done|].
      unfold cookie_key. by destruct (ensured_identity st1) as (_&->&->).
    + rewrite lookup_insert_ne in * by done. eauto.
  - apply map_eq. intros j. destruct (decide (sn = j)) as [<-|Hne].
    + rewrite lookup_insert_eq, table_map_at, Hheap, lookup_insert_eq. rewrite decide_True; [done|]. by apply Hsame.
    + rewrite lookup_insert_ne by done. apply table_map_same; [rewrite Hheap; by apply lookup_insert_ne|apply Hsame].
Qed.

Lemma rehash_state_ok {E} w sn st rcookie : table_ok w -> table_map w !! sn = Some st ->
  exists w', rehash_state (E := E) None rcookie sn w = Ok w' /\ table_ok w' /\
    table_map w' = <[sn := ensured (set_cookies (st_icookie st) rcookie st)]> (table_map w).
Proof.
  intros [Hc Hi Hs Hh] Hst. destruct (rehash_entry (E := E) w sn st None rcookie Hc Hst) as (w'&->&Hheap&Hit&Hno&Hc'&Hsame&Hmap).
  cbn [default] in *. apply table_map_lookup in Hst as [Hst Hin]. exists w'. split; [done|]. split; [|done].
  pose proof (ensured_identity (set_cookies (st_icookie st) rcookie st)) as (Es&Ei&_). split; [done| | |].
  - rewrite Hit. eapply chains_heap; [exact Hi|]. intros j s _ Hj. rewrite Hheap. destruct (decide (sn = j)) as [<-|Hne].
    + rewrite lookup_insert_eq. eexists. split; [done|]. unfold icookie_key. rewrite Ei. rewrite Hst in Hj. injection Hj as <-. done.
    + rewrite lookup_insert_ne by done. eauto.
  - intros j. rewrite Hit, Hsame. apply Hs.
  - intros j s. rewrite Hheap, Hno. destruct (decide (sn = j)) as [<-|Hne].
    + rewrite lookup_insert_eq. intros [= <-]. rewrite Es. apply (Hh sn st Hst).
    + rewrite lookup_insert_ne by done. apply Hh.
Qed.

Lemma delete_state_ok {E} w sn : table_ok w -> is_Some (table_map w !! sn) ->
  exists w', delete_state (E := E) sn w = Ok w' /\ table_ok w' /\ table_map w' = delete sn (table_map w) /\
    heap w' = delete sn (heap w) /\ next_so w' = next_so w.
Proof.
  intros [Hc Hi Hs Hh] [st [Hst Hin]%table_map_lookup]. unfold delete_state, get_state, unhash_state. rewrite Hst. run_ok.
  destruct (remove_entry_ok (E := E) _ _ _ sn Hc Hin) as (t1&->&Hc1&Ht1). rewrite bind_Ok.
  destruct (remove_entry_ok (E := E) _ _ _ sn Hi (proj1 (Hs sn) Hin)) as (t2&->&Hc2&Ht2). rewrite !bind_Ok.
  assert (forall key t, chains_ok key (heap w) t -> (forall j, j ∈ concat t -> j <> sn) -> chains_ok key (delete sn (heap w)) t) as Hdel.
  { intros key t Hk Hn. eapply chains_heap; [exact Hk|]. intros j s Hj Hjs. exists s. rewrite lookup_delete_ne by (intros <-; by eapply Hn). done. }
  eexists. split; [done|]. split; [split; cbn|split; [|done]].
  - apply Hdel; [done|]. intros j [? _]%Ht1. done.
  - apply Hdel; [done|]. intros j [? _]%Ht2. done.
  - intros j. rewrite Ht1, Ht2, Hs. done.
  - intros j s [_ Hj]%lookup_delete_Some. by apply Hh.
  - apply map_eq. intros j. destruct (decide (sn = j)) as [<-|Hne].
    + rewrite lookup_delete_eq, table_map_at. cbn. rewrite lookup_delete_eq. by case_decide.
    + rewrite lookup_delete_ne by done. apply table_map_same; cbn; [by apply lookup_delete_ne|]. rewrite Ht1. naive_solver.
Qed.

Lemma table_below w sn : table_ok w -> sn ∈ concat (statetable w) -> sn < next_so w.
Proof. intros Hw Hin. destruct (chains_entry _ _ _ _ (table_chains _ Hw) Hin) as (st&Hst&_). apply (table_heap _ Hw _ _ Hst). Qed.

Lemma duplicate_state_ok {E} w sn st no_keys ipsec : table_ok w -> heap w !! sn = Some st -> 0 < next_so w ->
  exists w' nst, duplicate_state (E := E) no_keys sn ipsec w = Ok (next_so w, w') /\ table_ok w' /\ table_map w' = table_map w /\
    heap w' = <[next_so w := nst]> (heap w) /\ next_so w ∉ concat (statetable w') /\ st_clonedfrom nst = st_serialno st /\
    ikev2_frags (st_frag nst) = [] /\ st_skeyid_calculated (st_sk (st_frag nst)) = st_skeyid_calculated (st_sk (st_frag st)) /\
    (ipsec = true -> st_icookie nst = st_icookie st /\ st_rcookie nst = st_rcookie st).
Proof.
  intros Hw Hst Hpos. pose proof (fun j => table_below w j Hw) as Hlt. destruct Hw as [Hc Hi Hs Hh]. unfold duplicate_state, get_state. rewrite Hst. run_ok.
  eexists _, _. split; [done|]. cbn [heap statetable icookie_hash_table next_so st_clonedfrom st_icookie st_rcookie].
  assert (forall key t, chains_ok key (heap w) t -> (forall j, j ∈ concat t -> j < next_so w) -> forall s, chains_ok key (<[next_so w := s]> (heap w)) t) as Hnew.
  { intros key t Hk Hn s. eapply chains_heap; [exact Hk|]. intros j x Hj Hjs. exists x. rewrite lookup_insert_ne; [done|]. intros <-. specialize (Hn _ Hj). lia. }
  split; [split; cbn; [by apply Hnew|apply Hnew; [done|]|done|]|].
  - intros j Hj. by apply Hlt, Hs.
  - intros j s. unfold SOS_FIRST. destruct (decide (next_so w = j)) as [<-|Hne].
    + rewrite lookup_insert_eq. intros [= <-]. cbn. lia.
    + rewrite lookup_insert_ne by done. intros Hj%Hh. unfold SOS_FIRST in Hj. lia.
  - split; [|split; [done|]; split; [intros Hj%Hlt; lia|]; split; [done|]; split; [done|]; split; by destruct ipsec].
    apply map_eq. intros j. rewrite !table_map_at. cbn. case_decide as Hj; [|done]. rewrite lookup_insert_ne; [done|]. intros <-. apply Hlt in Hj. lia.
Qed.

(** * Families *)

Section family.
Context {E : Type} (psn : Z) (v2 : bool).

Local Abbreviation body := (fun sn' w =>
  st ← get_state sn' w;
  if st_clonedfrom st =? psn
  then delete_state (E := E) sn' (if v2 then change_state STATE_CHILDSA_DEL sn' w else w)
  else Ok w).

Lemma set_state_identity k : keeps_identity (set_state k).
Proof. done. Qed.

(** Changing the state of an object and deleting it. *)
Lemma delete_changed_ok k w sn : table_ok w -> is_Some (table_map w !! sn) ->
  exists w', delete_state (E := E) sn (if v2 then change_state k sn w else w) = Ok w' /\ table_ok w' /\ table_map w' = delete sn (table_map w) /\
    next_so w' = next_so w.
Proof.
  intros Hw Hin. assert (is_Some (table_map (if v2 then change_state k sn w else w) !! sn)) as Hin'.
  { destruct v2; [|done]. unfold change_state. rewrite table_map_modify, lookup_alter_eq. by apply fmap_is_Some. }
  destruct (delete_state_ok (E := E) (if v2 then change_state k sn w else w) sn) as (w'&->&Hok&Hm&_&Hn); [|done|].
  { destruct v2; [apply modify_ok; [apply set_state_identity|done]|done]. }
  exists w'. split; [done|]. split; [done|]. destruct v2; [|done]. split; [|done]. rewrite Hm. unfold change_state. rewrite table_map_modify.
  apply map_eq. intros j. destruct (decide (sn = j)) as [<-|]; [by rewrite !lookup_delete_eq|]. by rewrite !lookup_delete_ne, lookup_alter_ne.
Qed.

Lemma family_loop l w : table_ok w -> NoDup l -> (forall sn, sn ∈ l -> is_Some (table_map w !! sn)) ->
  exists w', each_entry body l w = Ok w' /\ table_ok w' /\
    table_map w' = filter (fun p => ~ (p.1 ∈ l /\ st_clonedfrom p.2 = psn)) (table_map w).
Proof.
  intros Hw Hl Hin. revert w Hw Hin. induction Hl as [|sn l Hn Hl IH]; intros w Hw Hin.
  - exists w. split; [done|]. split; [done|]. symmetry. apply map_filter_id. intros j st _ [Hj _]. by apply not_elem_of_nil in Hj.
  - cbn [each_entry]. destruct (Hin sn) as [st Hst]; [by left|]. pose proof (proj1 (table_map_lookup _ _ _) Hst) as [Hh _].
    cbn beta. rewrite (get_state_at _ _ _ Hh), bind_Ok. destruct (Z.eqb_spec (st_clonedfrom st) psn) as [Hc|Hc].
    + destruct (delete_changed_ok STATE_CHILDSA_DEL w sn Hw) as (w1&->&Hw1&Hm1&_); [eauto|]. rewrite bind_Ok.
      destruct (IH w1 Hw1) as (w'&->&Hw'&Hm').
      { intros j Hj. rewrite Hm1, lookup_delete_ne by (intros <-; done). apply Hin. by right. }
      exists w'. split; [done|]. split; [done|]. rewrite Hm', Hm1. apply map_eq. intros j. apply option_eq. intros s.
      rewrite !map_lookup_filter_Some, lookup_delete_Some. cbn. rewrite elem_of_cons. naive_solver.
    + rewrite bind_Ok. destruct (IH w Hw) as (w'&->&Hw'&Hm'); [intros j Hj; apply Hin; by right|].
      exists w'. split; [done|]. split; [done|]. rewrite Hm'. apply map_eq. intros j. apply option_eq. intros s.
      rewrite !map_lookup_filter_Some. cbn. rewrite elem_of_cons. naive_solver.
Qed.
End family.

Lemma chain_nodup key h t i : chains_ok key h t -> NoDup (chain_at t i).
Proof.
  intros Hc. pose proof (chains_nodup _ _ _ Hc) as Hn. unfold chain_at. destruct (t !! Z.to_nat i) as [l|] eqn:Hl; [|by constructor].
  apply list_elem_of_split_length in Hl as (t1&t2&->&_). rewrite concat_app in Hn. cbn in Hn. apply NoDup_app in Hn as (_&_&Hn). by apply NoDup_app in Hn as [].
Qed.

(** [delete_my_family] removes the IKE SA and those of its children that are on its chain. *)
Lemma delete_my_family_ok {E} w v2 sn pst : table_ok w -> table_map w !! sn = Some pst -> IS_CHILD_SA pst = false ->
  exists w', delete_my_family (E := E) v2 sn w = Ok w' /\ table_ok w' /\
    table_map w' = filter (fun p => p.1 <> sn /\ ~ (st_clonedfrom p.2 = sn /\ cookie_key p.2 = cookie_key pst)) (table_map w).
Proof.
  intros Hw Hst Hp. pose proof (proj1 (table_map_lookup _ _ _) Hst) as [Hh Hin]. destruct (table_heap _ Hw _ _ Hh) as [Hserial Hsn].
  unfold delete_my_family. rewrite (get_state_at _ _ _ Hh), bind_Ok, Hp. cbn [negb passert]. rewrite bind_Ok, Hserial.
  fold (cookie_key pst). destruct (family_loop (E := E) sn v2 (chain_at (statetable w) (cookie_key pst)) w Hw) as (w1&->&Hw1&Hm1).
  { by eapply chain_nodup, table_chains. }
  { intros j Hj. pose proof (chain_at_concat _ _ _ Hj) as Hjc. destruct (chains_entry _ _ _ _ (table_chains _ Hw) Hjc) as (s&Hs&_).
    exists s. by apply table_map_lookup. }
  rewrite bind_Ok.
  assert (st_clonedfrom pst <> sn) as Hself.
  { unfold IS_CHILD_SA in Hp. apply negb_false_iff, Z.eqb_eq in Hp. rewrite Hp. unfold SOS_FIRST, SOS_NOBODY in *. lia. }
  destruct (delete_changed_ok (E := E) v2 STATE_IKESA_DEL w1 sn Hw1) as (w'&->&Hw'&Hm'&_).
  { exists pst. rewrite Hm1. apply map_lookup_filter_Some. split; [done|]. cbn. tauto. }
  exists w'. split; [done|]. split; [done|]. rewrite Hm', Hm1. apply map_eq. intros j. apply option_eq. intros s.
  rewrite lookup_delete_Some, !map_lookup_filter_Some. cbn.
  assert (table_map w !! j = Some s -> j ∈ chain_at (statetable w) (cookie_key pst) <-> cookie_key s = cookie_key pst) as Hch.
  { intros [Hj Hjc]%table_map_lookup. destruct (chains_entry _ _ _ _ (table_chains _ Hw) Hjc) as (s'&Hs'&Hin').
    rewrite Hj in Hs'. injection Hs' as <-. split.
    - intros Hjp. destruct (chains_key _ _ _ (table_chains _ Hw) _ _ (proj1 (hash_bounds _ _)) Hjp) as (s'&Hs'&Hk). unfold cookie_key in *. congruence.
    - by intros <-. }
  naive_solver.
Qed.

(** * Inheritance *)

Section inherit.
Context {E : Type} (osn nsn : Z) (Hne : osn <> nsn) (icookie rcookie : list Z).

(** What happens to a child. *)
Definition inherited (st : state) : state := ensured (set_cookies icookie rcookie (set_st_clonedfrom nsn st)).

Local Abbreviation body := (fun sn w =>
  st ← get_state sn w;
  if st_clonedfrom st =? osn then rehash_state (E := E) (Some icookie) rcookie sn (modify sn (set_st_clonedfrom nsn) w)
  else Ok w).

Lemma inherited_clonedfrom st : st_clonedfrom (inherited st) = nsn.
Proof. unfold inherited, ensured. by case_match. Qed.

(** Every object of the map stayed as it was or was a child that is inherited now. *)
Definition moved (m m' : gmap Z state) : Prop :=
  forall sn, m' !! sn = m !! sn \/ exists st, m !! sn = Some st /\ st_clonedfrom st = osn /\ m' !! sn = Some (inherited st).

Lemma moved_trans m1 m2 m3 : moved m1 m2 -> moved m2 m3 -> moved m1 m3.
Proof.
  intros H1 H2 sn. destruct (H1 sn) as [E1|(st&E1&E2&E3)], (H2 sn) as [F1|(st'&F1&F2&F3)].
  - left. congruence.
  - right. exists st'. split; [congruence|done].
  - right. exists st. rewrite F1. done.
  - rewrite E3 in F1. injection F1 as <-. rewrite inherited_clonedfrom in F2. congruence.
Qed.

Lemma moved_member m m' sn : moved m m' -> is_Some (m !! sn) -> is_Some (m' !! sn).
Proof. intros H [st Hst]. destruct (H sn) as [->|(s&_&_&->)]; eauto. Qed.

(** One child. *)
Lemma inherit_one w sn st : chains_ok cookie_key (heap w) (statetable w) -> table_map w !! sn = Some st -> st_clonedfrom st = osn ->
  exists w', body sn w = Ok w' /\ chains_ok cookie_key (heap w') (statetable w') /\ table_map w' = <[sn := inherited st]> (table_map w).
Proof.
  intros Hc Hst Ho. pose proof (proj1 (table_map_lookup _ _ _) Hst) as [Hh _]. cbn beta. rewrite (get_state_at _ _ _ Hh), bind_Ok, (proj2 (Z.eqb_eq _ _) Ho).
  assert (table_map (modify sn (set_st_clonedfrom nsn) w) !! sn = Some (set_st_clonedfrom nsn st)) as Hst'.
  { by rewrite table_map_modify, lookup_alter_eq, Hst. }
  destruct (rehash_entry (E := E) (modify sn (set_st_clonedfrom nsn) w) sn _ (Some icookie) rcookie
    ltac:(apply chains_modify; done) Hst') as (w'&->&_&_&_&Hc'&_&Hm).
  exists w'. split; [done|]. split; [done|]. rewrite Hm, table_map_modify. fold (inherited st). apply map_eq. intros j.
  destruct (decide (sn = j)) as [<-|]; [by rewrite !lookup_insert_eq|]. by rewrite !lookup_insert_ne, lookup_alter_ne.
Qed.

(** One chain: none of its objects is a child of [osn] any more. *)
Lemma inherit_loop l w : chains_ok cookie_key (heap w) (statetable w) -> (forall sn, sn ∈ l -> is_Some (table_map w !! sn)) ->
  exists w', each_entry body l w = Ok w' /\ chains_ok cookie_key (heap w') (statetable w') /\ moved (table_map w) (table_map w') /\
    forall sn st, sn ∈ l -> table_map w' !! sn = Some st -> st_clonedfrom st <> osn.
Proof.
  revert w. induction l as [|sn l IH]; intros w Hc Hin.
  - exists w. split; [done|]. split; [done|]. split; [by left|]. intros sn st H. by apply not_elem_of_nil in H.
  - destruct (Hin sn) as [st Hst]; [by left|]. pose proof (proj1 (table_map_lookup _ _ _) Hst) as [Hh _].
    assert (exists w1, body sn w = Ok w1 /\ chains_ok cookie_key (heap w1) (statetable w1) /\ moved (table_map w) (table_map w1) /\
      forall s, table_map w1 !! sn = Some s -> st_clonedfrom s <> osn) as (w1&Hb&Hc1&Hm1&Hdone).
    { destruct (decide (st_clonedfrom st = osn)) as [Ho|Ho].
      - destruct (inherit_one w sn st Hc Hst Ho) as (w1&->&Hc1&Hm1). exists w1. split; [done|]. split; [done|]. rewrite Hm1. split.
        + intros j. destruct (decide (sn = j)) as [<-|]; [right; exists st; by rewrite lookup_insert_eq|left; by rewrite lookup_insert_ne].
        + intros s. rewrite lookup_insert_eq. intros [= <-]. rewrite inherited_clonedfrom. congruence.
      - exists w. cbn beta. rewrite (get_state_at _ _ _ Hh), bind_Ok, (proj2 (Z.eqb_neq _ _) Ho). split; [done|]. split; [done|].
        split; [by left|]. intros s. rewrite Hst. by intros [= <-]. }
    cbn [each_entry]. rewrite Hb, bind_Ok.
    destruct (IH w1 Hc1) as (w'&->&Hc'&Hm'&Hl); [intros j Hj; eapply moved_member; [exact Hm1|]; apply Hin; by right|].
    exists w'. split; [done|]. split; [done|]. split; [by eapply moved_trans|]. intros j s [->|Hj]%elem_of_cons Hs; [|by eapply Hl].
    destruct (Hm' sn) as [Heq|(s0&_&_&Heq)]; rewrite Heq in Hs; [by apply Hdone|]. injection Hs as <-. rewrite inherited_clonedfrom. congruence.
Qed.

(** The chains from [i] on are left: a child of [osn] is on one of them. *)
Lemma inherit_chains n i w : chains_ok cookie_key (heap w) (statetable w) -> (i + n = 32)%nat ->
  (forall sn st, table_map w !! sn = Some st -> st_clonedfrom st = osn -> Z.of_nat i <= cookie_key st) ->
  exists w', each_chain body (seq i n) w = Ok w' /\ chains_ok cookie_key (heap w') (statetable w') /\ moved (table_map w) (table_map w') /\
    forall sn st, table_map w' !! sn = Some st -> st_clonedfrom st <> osn.
Proof.
  revert i w. induction n as [|n IH]; intros i w Hc Hi Hleft.
  - exists w. split; [done|]. split; [done|]. split; [by left|]. intros sn st Hst Ho. specialize (Hleft sn st Hst Ho).
    pose proof (hash_bounds (st_icookie st) (st_rcookie st)). unfold cookie_key in Hleft. lia.
  - cbn [seq each_chain]. destruct (inherit_loop (chain_at (statetable w) (Z.of_nat i)) w Hc) as (w1&->&Hc1&Hm1&Hl1).
    { intros sn Hsn. destruct (chains_key _ _ _ Hc (Z.of_nat i) sn ltac:(lia) Hsn) as (st&Hst&_). exists st. apply table_map_lookup.
      split; [done|]. by eapply chain_at_concat. }
    rewrite bind_Ok. destruct (IH (S i) w1 Hc1) as (w'&->&Hc'&Hm'&Hl'); [lia| |].
    + intros sn st Hst Ho. destruct (Hm1 sn) as [Heq|(s0&_&_&Heq)]; rewrite Hst in Heq.
      * symmetry in Heq. pose proof (Hleft _ _ Heq Ho) as Hge. destruct (decide (cookie_key st = Z.of_nat i)) as [Hk|]; [|lia].
        exfalso. eapply Hl1; [|exact Hst|done]. apply table_map_lookup in Heq as [Hh Hin]. destruct (chains_entry _ _ _ _ Hc Hin) as (s'&Hs'&Hch).
        rewrite Hh in Hs'. injection Hs' as <-. by rewrite <- Hk.
      * injection Heq as ->. rewrite inherited_clonedfrom in Ho. congruence.
    + exists w'. split; [done|]. split; [done|]. split; [by eapply moved_trans|done].
Qed.

(** All children of [osn], and no other objects, become children of [nsn]. *)
Lemma inherit_ipsec_sa_ok w : chains_ok cookie_key (heap w) (statetable w) -> SOS_FIRST <= nsn ->
  exists w', ikev2_inherit_ipsec_sa (E := E) osn nsn icookie rcookie w = Ok w' /\ chains_ok cookie_key (heap w') (statetable w') /\
    table_map w' = (fun st => if st_clonedfrom st =? osn then inherited st else st) <$> table_map w.
Proof.
  intros Hc Hn. unfold ikev2_inherit_ipsec_sa. rewrite (proj2 (Z.leb_le _ _) Hn). run_ok.
  destruct (inherit_chains 32 0 w Hc eq_refl) as (w'&Heq&Hc'&Hm&Hl).
  { intros sn st _ _. apply hash_bounds. }
  exists w'. split; [exact Heq|]. split; [done|]. apply map_eq. intros sn. rewrite lookup_fmap.
  destruct (Hm sn) as [Hs|(st&Hst&Ho&Hs)]; rewrite Hs.
  - destruct (table_map w !! sn) as [st|] eqn:Hst; [|done]. cbn. rewrite (proj2 (Z.eqb_neq _ _)); [done|]. by apply (Hl sn).
  - rewrite Hst. cbn. by rewrite (proj2 (Z.eqb_eq _ _) Ho).
Qed.
End inherit.

(** * Properties *)

(** The operations on the table. *)
Inductive table_op :=
  | op_insert (sn : Z)
  | op_rehash (rcookie : list Z) (sn : Z)
  | op_change (k : state_kind) (sn : Z)
  | op_duplicate (no_keys : sk_state) (ipsec : bool) (sn : Z)
  | op_delete (sn : Z)
  | op_family (v2_responder_state : bool) (sn : Z).

Definition run_op {E} (op : table_op) (w : states) : outcome E states :=
  match op with
  | op_insert sn => insert_state sn w
  | op_rehash rcookie sn => rehash_state None rcookie sn w
  | op_change k sn => Ok (change_state k sn w)
  | op_duplicate no_keys ipsec sn => '(_, w') ← duplicate_state no_keys sn ipsec w; Ok w'
  | op_delete sn => delete_state sn w
  | op_family v2 sn => delete_my_family v2 sn w
  end.

(** What a caller has to see to: the object is allocated and, except when it is inserted, in the table. *)
Definition enabled (op : table_op) (w : states) : Prop :=
  match op with
  | op_insert sn => is_Some (heap w !! sn) /\ table_map w !! sn = None
  | op_duplicate _ _ sn => is_Some (heap w !! sn) /\ 0 < next_so w
  | op_family _ sn => exists pst, table_map w !! sn = Some pst /\ IS_CHILD_SA pst = false
  | op_rehash _ sn | op_change _ sn | op_delete sn => is_Some (table_map w !! sn)
  end.

(** The operation on the map, where [h] holds the allocated objects. *)
Definition spec_op (op : table_op) (h m m' : gmap Z state) : Prop :=
  match op with
  | op_insert sn => exists st, h !! sn = Some st /\ m' = <[sn := ensured st]> m
  | op_rehash rcookie sn => exists st, m !! sn = Some st /\ m' = <[sn := ensured (set_cookies (st_icookie st) rcookie st)]> m
  | op_change k sn => m' = alter (set_state k) sn m
  | op_duplicate _ _ _ => m' = m
  | op_delete sn => m' = delete sn m
  | op_family _ sn => exists pst, m !! sn = Some pst /\
      m' = filter (fun p => p.1 <> sn /\ ~ (st_clonedfrom p.2 = sn /\ cookie_key p.2 = cookie_key pst)) m
  end.


(** C22: every search of a consistent table is exact: it finds an object that has what it looks for
    if there is one in the table, in whichever chain, and otherwise says so. *)
Theorem lookups_exact {E} w : table_ok w ->
  (forall icookie rcookie, exists r,
     find_state_ikev2_parent (E := E) icookie rcookie w = Ok r /\ found_in (table_map w) (is_parent icookie rcookie) r) /\
  (forall icookie rcookie msgid, exists r,
     find_state_ikev2_child (E := E) icookie rcookie msgid w = Ok r /\ found_in (table_map w) (is_awaiting icookie rcookie msgid) r) /\
  (forall icookie k, exists r,
     ikev2_find_state_in_init (E := E) icookie k false w = Ok r /\ found_in (table_map w) (is_initial icookie k) r) /\
  (forall icookie rcookie protoid spi, protoid = PROTO_IPSEC_AH \/ protoid = PROTO_IPSEC_ESP -> exists r,
     find_state_ikev2_child_to_delete (E := E) icookie rcookie protoid spi w = Ok r /\
     found_in (table_map w) (has_spi icookie rcookie protoid spi) r) /\
  (forall sn, state_with_serialno (E := E) sn w = Ok (if decide (is_Some (table_map w !! sn)) then Some sn else None)).
Proof.
  intros Hw. split; [intros; by apply find_parent_ok|]. split; [intros; by apply find_child_ok|]. split; [intros; by apply find_in_init_ok|].
  split; [intros; by apply find_child_to_delete_ok|]. intros; by apply state_with_serialno_ok.
Qed.

(** When an IKE SA is rekeyed, [ikev2_inherit_ipsec_sa] hands all of its children over: although
    it moves objects between the chains that it is walking along, every child of the old SA, and no
    other object, gets the new parent and the new cookies, and is on the chain where they are looked
    for. *)
Theorem inherit_exact {E} osn nsn icookie rcookie w : table_ok w -> osn <> nsn -> SOS_FIRST <= nsn ->
  exists w', ikev2_inherit_ipsec_sa (E := E) osn nsn icookie rcookie w = Ok w' /\ chains_ok cookie_key (heap w') (statetable w') /\
    table_map w' = (fun st => if st_clonedfrom st =? osn then inherited nsn icookie rcookie st else st) <$> table_map w.
Proof. intros Hw Hne Hn. apply inherit_ipsec_sa_ok; [done|by apply table_chains|done]. Qed.

(** ** Instances *)

Definition no_cipher : encrypt_desc :=
  mk_encrypt 1 false 0 0 0 (fun buf _ _ _ => buf) (fun _ _ _ text tag _ _ => (false, text, tag)).
Definition blank_sk : sk_state := mk_sk no_cipher None ORIGINAL_RESPONDER false [] [] [] [] [] [].
Definition blank_frag : frag_state := mk_fst blank_sk true 0 true None false false [] [] [] [].
Definition nowhere : endpoints := mk_ends (mk_ip AF_INET 0 [0; 0; 0; 0]) 0 (mk_ip AF_INET 0 [0; 0; 0; 0]) 0.

(** An IKE SA (1) and a child of it (2), before they are inserted. *)
Definition example_object (sn clonedfrom : Z) (k : state_kind) : state :=
  mk_state sn clonedfrom [1; 2; 3; 4; 5; 6; 7; 8] [8; 7; 6; 5; 4; 3; 2; 1] k blank_frag [0; 0; 0; 0] (mk_msgids 0 0 0 0) false false false
    nowhere false blank_proto blank_proto false None [] 0 1.

Definition example_states : states :=
  mk_states {[ 1 := example_object 1 0 STATE_PARENT_R2; 2 := example_object 2 1 STATE_V2_IPSEC_R ]} (replicate 32 []) (replicate 32 []) 3.

Lemma empty_chains key h : chains_ok key h (replicate 32 []).
Proof.
  assert (concat (replicate 32 (@nil Z)) = []) as He by done. split; [done|rewrite He; constructor|].
  intros i sn _ Hin%chain_at_concat. rewrite He in Hin. by apply not_elem_of_nil in Hin.
Qed.

Lemma example_states_ok : table_ok example_states.
Proof.
  split; [apply empty_chains..|done|]. intros sn st. cbn [heap example_states next_so]. unfold SOS_FIRST.
  rewrite lookup_insert_Some. intros [[<- <-]|[_ [<- <-]%lookup_singleton_Some]]; cbn; lia.
Qed.


(** The IKE SA is found by its cookies once it is inserted. *)
Lemma lookups_exact_witness :
  exists w, insert_state (E := diag) 1 example_states = Ok w /\
    exists sn, find_state_ikev2_parent (E := diag) [1; 2; 3; 4; 5; 6; 7; 8] [8; 7; 6; 5; 4; 3; 2; 1] w = Ok (Some sn).
Proof.
  destruct (insert_state_ok (E := diag) example_states 1 (example_object 1 0 STATE_PARENT_R2) example_states_ok) as (w&Hw&Hok&Hm&_).
  - reflexivity.
  - assert (concat (statetable example_states) = []) as He by reflexivity. rewrite He. apply not_elem_of_nil.
  - exists w. split; [exact Hw|].
    destruct (proj1 (lookups_exact (E := diag) w Hok) [1; 2; 3; 4; 5; 6; 7; 8] [8; 7; 6; 5; 4; 3; 2; 1]) as ([sn|]&Hr&Hf); [by exists sn|].
    specialize (Hf 1 (ensured (example_object 1 0 STATE_PARENT_R2))). rewrite Hm in Hf. specialize (Hf (lookup_insert_eq _ _ _)). discriminate Hf.
Defined.

(** Both in the table. *)
Lemma example_table : exists w, table_ok w /\
  table_map w !! 1 = Some (ensured (example_object 1 0 STATE_PARENT_R2)) /\ table_map w !! 2 = Some (ensured (example_object 2 1 STATE_V2_IPSEC_R)).
Proof.
  assert (concat (statetable example_states) = []) as He by reflexivity.
  assert (table_map example_states !! 2 = None) as H2 by (rewrite table_map_at, decide_False; [done|]; rewrite He; apply not_elem_of_nil).
  destruct (insert_state_ok (E := diag) example_states 1 (example_object 1 0 STATE_PARENT_R2) example_states_ok) as (w&_&Hok&Hm&Hh);
    [done|rewrite He; apply not_elem_of_nil|].
  assert (heap w !! 2 = Some (example_object 2 1 STATE_V2_IPSEC_R)) as Hw2 by (rewrite Hh; reflexivity).
  destruct (insert_state_ok (E := diag) w 2 (example_object 2 1 STATE_V2_IPSEC_R) Hok Hw2) as (w'&_&Hok'&Hm'&_).
  { intros Hin. assert (is_Some (table_map w !! 2)) as Hs by (rewrite table_map_at, decide_True, Hw2; eauto).
    rewrite Hm, lookup_insert_ne, H2 in Hs by done. by apply is_Some_None in Hs. }
  exists w'. split; [done|]. rewrite Hm'. split; [|by rewrite lookup_insert_eq]. rewrite lookup_insert_ne, Hm by done. by rewrite lookup_insert_eq.
Qed.

(** The child gets another parent. *)
Lemma inherit_exact_witness :
  exists w w', table_ok w /\ ikev2_inherit_ipsec_sa (E := diag) 1 3 [9; 9; 9; 9; 9; 9; 9; 9] [7; 7; 7; 7; 7; 7; 7; 7] w = Ok w' /\
    st_clonedfrom <$> table_map w !! 2 = Some 1 /\ st_clonedfrom <$> table_map w' !! 2 = Some 3.
Proof.
  destruct example_table as (w&Hok&_&Hc).
  destruct (inherit_exact (E := diag) 1 3 [9; 9; 9; 9; 9; 9; 9; 9] [7; 7; 7; 7; 7; 7; 7; 7] w Hok
    ltac:(lia) ltac:(unfold SOS_FIRST; lia)) as (w'&H1&_&H2).
  exists w, w'. split; [exact Hok|]. split; [exact H1|]. rewrite H2, lookup_fmap, Hc. split; reflexivity.
Defined.
