(* ===== verification/Ikev2Dispatch.v ===== *)
(** The IKEv2 state machine of programs/pluto/ikev2.c: the table of state transitions
    ([v2_state_microcode_table]), how [process_v2_packet] finds the state object and the
    transition for a message, [ikev2_decrypt_msg] of programs/pluto/ikev2_parent.c, and the
    message ID counters ([ikev2_update_msgid_counters]).

    The state transition functions themselves are names here; [Ikev2Informational] models one. *)
From S2P Require Import Prelude EnumNames Constants Packet PacketDescs PacketGeneric Stf Ikev2Sk Fragments Ikev2Payloads Address States.

Definition ISAKMP_v2_SA_INIT : Z := 34.
Definition ISAKMP_v2_AUTH : Z := 35.
Definition ISAKMP_v2_CREATE_CHILD_SA : Z := 36.
Definition ISAKMP_v2_INFORMATIONAL : Z := 37.
Definition ISAKMP_FLAGS_v2_IKE_I : Z := Z.shiftl 1 3.
Definition ISAKMP_FLAGS_v2_MSG_R : Z := Z.shiftl 1 5.
Definition v2_INITIAL_MSGID : Z := 0.
Definition v2_INVALID_MSGID : Z := 0xffffffff.

(** [enum smf2_flags] *)
Definition SMF2_IKE_I_SET : Z := LELEM 1.
Definition SMF2_IKE_I_CLEAR : Z := LELEM 2.
Definition SMF2_SEND : Z := LELEM 3.
Definition SMF2_MSG_R_SET : Z := LELEM 5.
Definition SMF2_MSG_R_CLEAR : Z := LELEM 6.
Definition SMF2_SKIP_UNPACK_SK : Z := LELEM 7.

(** The state transition functions. *)
Inductive state_transition_fn :=
  | ikev2parent_inR1BoutI1B
  | ikev2parent_inR1outI2
  | ikev2parent_inR2
  | ikev2parent_inI1outR1
  | ikev2parent_inI2outR2
  | ikev2_child_ike_inIoutR
  | ikev2_child_inR
  | ikev2_child_inIoutR
  | process_encrypted_informational_ikev2.

#[export] Instance state_transition_fn_eq_dec : EqDecision state_transition_fn.
Proof. solve_decision. Defined.

(** [struct state_v2_microcode]; [crypto_end] is called by the transition functions only. *)
Record state_v2_microcode := mk_svm {
  story : string;
  svm_state : state_kind;
  next_state : state_kind;
  recv_type : Z;
  svm_flags : Z;
  req_clear_payloads : Z;
  opt_clear_payloads : Z;
  req_enc_payloads : Z;
  opt_enc_payloads : Z;
  processor : state_transition_fn;
  timeout_event : event_type
}.

#[export] Instance state_v2_microcode_eq_dec : EqDecision state_v2_microcode.
Proof. solve_decision. Defined.

(** An INFORMATIONAL entry: what the five of them share. *)
Definition informational (story : string) (k : state_kind) (flags : Z) : state_v2_microcode :=
  mk_svm story k k ISAKMP_v2_INFORMATIONAL flags (payload_set [ISAKMP_NEXT_v2SK]) 0 0
    (payload_set [ISAKMP_NEXT_v2N; ISAKMP_NEXT_v2D; ISAKMP_NEXT_v2CP])
    process_encrypted_informational_ikev2 EVENT_RETAIN.

Definition SMF2_set (l : list Z) : Z := fold_right Z.lor 0 l.

(** The table, without the entry that marks its end. *)
Definition v2_state_microcode_table : list state_v2_microcode :=
  [mk_svm "Initiator: process anti-spoofing cookie" STATE_PARENT_I1 STATE_PARENT_I1 ISAKMP_v2_SA_INIT
     (SMF2_set [SMF2_IKE_I_CLEAR; SMF2_MSG_R_SET; SMF2_SEND])
     (payload_set [ISAKMP_NEXT_v2N]) 0 0 0 ikev2parent_inR1BoutI1B EVENT_RETAIN;
   mk_svm "Initiator: process IKE_SA_INIT reply, initiate IKE_AUTH" STATE_PARENT_I1 STATE_PARENT_I2 ISAKMP_v2_SA_INIT
     (SMF2_set [SMF2_IKE_I_CLEAR; SMF2_MSG_R_SET; SMF2_SEND])
     (payload_set [ISAKMP_NEXT_v2SA; ISAKMP_NEXT_v2KE; ISAKMP_NEXT_v2Nr]) (payload_set [ISAKMP_NEXT_v2CERTREQ]) 0 0
     ikev2parent_inR1outI2 EVENT_v2_RETRANSMIT;
   mk_svm "Initiator: process IKE_AUTH response" STATE_PARENT_I2 STATE_V2_IPSEC_I ISAKMP_v2_AUTH
     (SMF2_set [SMF2_IKE_I_CLEAR; SMF2_MSG_R_SET])
     (payload_set [ISAKMP_NEXT_v2SK]) 0
     (payload_set [ISAKMP_NEXT_v2IDr; ISAKMP_NEXT_v2AUTH; ISAKMP_NEXT_v2SA; ISAKMP_NEXT_v2TSi; ISAKMP_NEXT_v2TSr])
     (payload_set [ISAKMP_NEXT_v2CERT; ISAKMP_NEXT_v2CP])
     ikev2parent_inR2 EVENT_SA_REPLACE;
   mk_svm "Respond to IKE_SA_INIT" STATE_UNDEFINED STATE_PARENT_R1 ISAKMP_v2_SA_INIT
     (SMF2_set [SMF2_IKE_I_SET; SMF2_MSG_R_CLEAR; SMF2_SEND])
     (payload_set [ISAKMP_NEXT_v2SA; ISAKMP_NEXT_v2KE; ISAKMP_NEXT_v2Ni]) 0 0 0
     ikev2parent_inI1outR1 EVENT_v2_RESPONDER_TIMEOUT;
   mk_svm "respond to IKE_AUTH" STATE_PARENT_R1 STATE_V2_IPSEC_R ISAKMP_v2_AUTH
     (SMF2_set [SMF2_IKE_I_SET; SMF2_MSG_R_CLEAR; SMF2_SEND; SMF2_SKIP_UNPACK_SK])
     (payload_set [ISAKMP_NEXT_v2SK]) 0
     (payload_set [ISAKMP_NEXT_v2IDi; ISAKMP_NEXT_v2AUTH; ISAKMP_NEXT_v2SA; ISAKMP_NEXT_v2TSi; ISAKMP_NEXT_v2TSr])
     (payload_set [ISAKMP_NEXT_v2CERT; ISAKMP_NEXT_v2CERTREQ; ISAKMP_NEXT_v2IDr; ISAKMP_NEXT_v2CP])
     ikev2parent_inI2outR2 EVENT_SA_REPLACE;
   mk_svm "Respond to CREATE_CHILD_SA IKE Rekey" STATE_V2_REKEY_IKE_R STATE_PARENT_R2 ISAKMP_v2_CREATE_CHILD_SA
     (SMF2_set [SMF2_MSG_R_CLEAR; SMF2_SEND])
     (payload_set [ISAKMP_NEXT_v2SK]) 0
     (payload_set [ISAKMP_NEXT_v2SA; ISAKMP_NEXT_v2Ni; ISAKMP_NEXT_v2KE]) (payload_set [ISAKMP_NEXT_v2N])
     ikev2_child_ike_inIoutR EVENT_SA_REPLACE;
   mk_svm "Process CREATE_CHILD_SA IPsec SA Response" STATE_V2_CREATE_I STATE_V2_IPSEC_I ISAKMP_v2_CREATE_CHILD_SA
     SMF2_MSG_R_SET
     (payload_set [ISAKMP_NEXT_v2SK]) 0
     (payload_set [ISAKMP_NEXT_v2SA; ISAKMP_NEXT_v2Ni; ISAKMP_NEXT_v2TSi; ISAKMP_NEXT_v2TSr])
     (payload_set [ISAKMP_NEXT_v2KE; ISAKMP_NEXT_v2N])
     ikev2_child_inR EVENT_SA_REPLACE;
   mk_svm "Respond to CREATE_CHILD_SA IPsec SA Request" STATE_V2_CREATE_R STATE_V2_IPSEC_R ISAKMP_v2_CREATE_CHILD_SA
     (SMF2_set [SMF2_MSG_R_CLEAR; SMF2_SEND])
     (payload_set [ISAKMP_NEXT_v2SK]) 0
     (payload_set [ISAKMP_NEXT_v2SA; ISAKMP_NEXT_v2Ni; ISAKMP_NEXT_v2TSi; ISAKMP_NEXT_v2TSr])
     (payload_set [ISAKMP_NEXT_v2KE; ISAKMP_NEXT_v2N])
     ikev2_child_inIoutR EVENT_SA_REPLACE;
   informational "I3: INFORMATIONAL Request" STATE_PARENT_I3 SMF2_IKE_I_SET;
   informational "I3: INFORMATIONAL Response" STATE_PARENT_I3 SMF2_IKE_I_CLEAR;
   informational "R2: process INFORMATIONAL Request" STATE_PARENT_R2 SMF2_IKE_I_SET;
   informational "R2: process INFORMATIONAL Response" STATE_PARENT_R2 SMF2_IKE_I_CLEAR;
   informational "IKE_SA_DEL: process INFORMATIONAL" STATE_IKESA_DEL 0].

(** * Messages *)

(** [struct msg_digest]: the header that was taken off, memory and streams, the payloads that were
    found, where the message came from and arrived, and whether the interface has [ike_float] set.
    [raw_packet] is the address that the buffer for a message put together from fragments will get. *)
Record msg_digest := mk_md {
  md_hdr : isakmp_hdr;
  md_ps : pstate;
  md_digest : list payload_digest;
  md_ends : endpoints;
  md_ike_float : bool;
  raw_packet : Z
}.

Definition set_payloads (digest : list payload_digest) (ps : pstate) (md : msg_digest) : msg_digest :=
  mk_md (md_hdr md) ps digest (md_ends md) (md_ike_float md) (raw_packet md).

Definition is_msg_response (md : msg_digest) : bool := negb (Z.land (isa_flags (md_hdr md)) ISAKMP_FLAGS_v2_MSG_R =? 0).
Definition is_msg_request (md : msg_digest) : bool := negb (is_msg_response md).
Definition ike_i (md : msg_digest) : bool := negb (Z.land (isa_flags (md_hdr md)) ISAKMP_FLAGS_v2_IKE_I =? 0).

(** [md->original_role], from the flag of the sender. *)
Definition md_original_role (md : msg_digest) : original_role := if ike_i md then ORIGINAL_RESPONDER else ORIGINAL_INITIATOR.

(** [ntohl(md->hdr.isa_msgid)] *)
Definition msgid_received (md : msg_digest) : Z := be_decode (isa_msgid (md_hdr md)).

(** * Message IDs *)

Definition sechdule_next_send {E} (sn : Z) (w : states) : outcome E states :=
  st ← get_state sn w;
  match send_next_ix st with
  | [] => Ok w
  | p :: rest =>
      cst ← state_with_serialno p w;
      let w1 := match cst with Some c => event_schedule EVENT_v2_SEND_NEXT_IKE c w | None => w end in
      Ok (modify sn (set_send_next rest) w1)
  end.

(** The counters of the IKE SA after a message that came to an object in state [k]. *)
Definition count_msgid (md : msg_digest) (k : state_kind) (c : msgids) : msgids :=
  let nextuse' :=
    if is_msg_request md && (bool_decide (k = STATE_PARENT_I1) || bool_decide (k = STATE_V2_CREATE_I))
    then u32 (nextuse c + 1)
    else if bool_decide (k = STATE_PARENT_I2) then u32 (nextuse c + 1) else nextuse c in
  let m := msgid_received md in
  if is_msg_response md then
    let lastack' :=
      if (m =? v2_INITIAL_MSGID) && (lastack c =? v2_INVALID_MSGID) then m
      else if lastack c <? m then m else lastack c in
    mk_msgids lastack' (lastrecv c) (lastreplied c) nextuse'
  else
    let lastrecv' := if lastrecv c <? m then m else lastrecv c in
    let lastrecv' := if (m =? v2_INITIAL_MSGID) && (lastrecv' =? v2_INVALID_MSGID) then v2_INITIAL_MSGID else lastrecv' in
    mk_msgids (lastack c) lastrecv' (lastreplied c) nextuse'.

(** [st] is [md->st]. *)
Definition ikev2_update_msgid_counters {E} (md : msg_digest) (st : option Z) (w : states) : outcome E states :=
  match st with
  | None => Ok w
  | Some sn =>
      s ← get_state sn w;
      p ← parent_of sn w;
      ikesa ← defined p;
      let w1 := modify ikesa (fun i => set_msgids (count_msgid md (st_state s) (st_msgids i)) i) w in
      i ← get_state ikesa w1;
      let unack := u32 (nextuse (st_msgids i) - lastack (st_msgids i) - 1) in
      if unack <? ike_window i then sechdule_next_send ikesa w1 else Ok w1
  end.

(** * Decryption *)

(** The algorithms and keys of the IKE SA for an object of its family; whether they were
    computed is looked up in the object itself. *)
Definition family_sk {E} (sn : Z) (w : states) : outcome E sk_state :=
  st ← get_state sn w;
  if negb (st_skeyid_calculated (st_sk (st_frag st))) then Ok (st_sk (st_frag st)) (* nothing else is looked at *)
  else
    p ← parent_of sn w;
    psn ← defined p;
    pst ← get_state psn w;
    let sk := st_sk (st_frag pst) in
    Ok (mk_sk (encrypter sk) (integ sk) (st_original_role sk) true (st_skey_ei_nss sk) (st_skey_er_nss sk)
          (st_skey_ai_nss sk) (st_skey_ar_nss sk) (st_skey_initiator_salt sk) (st_skey_responder_salt sk)).

Definition set_sk (sk : sk_state) (f : frag_state) : frag_state :=
  mk_fst sk (st_ikev2 f) (policy f) (ipv4 f) (st_interface f) (st_seen_fragvid f) (st_seen_fragments f) (ike_frags f)
    (ikev2_frags f) (st_tfrags f) (st_tpacket f).

(** The octets from the start of the packet to the end of a payload, and the offset of its body. *)
Definition packet_up_to {E} (md : msg_digest) (pd : payload_digest) : outcome E (list Z * Z) :=
  packet_pbs ← get_pbs (md_ps md) 0;
  e_pbs ← get_pbs (md_ps md) (pd_pbs pd);
  bs ← defined (load_bytes (ps_mem (md_ps md)) (start packet_pbs) (Z.to_nat (roof e_pbs - start packet_pbs)));
  Ok (bs, cur e_pbs - start packet_pbs).

(** What [ikev2_collect_fragment] uses of the message. *)
Definition skf_of_md {E} (md : msg_digest) : outcome E skf_md :=
  pd ← defined (head (chain (md_digest md) ISAKMP_NEXT_v2SKF));
  '(bs, iv) ← packet_up_to md pd;
  match pd_payload pd with
  | [FNum np; _; _; FNum number; FNum total] => Ok (mk_skf np number total iv bs)
  | _ => Abort
  end.

(** The plain text, where it is, and the type of its first payload; [None] is [STF_FAIL]. The
    message is decrypted in place; fragments are put together in a new buffer. *)
Definition decrypt_sk {E} (sn : Z) (md : msg_digest) (w : states) : outcome E (option (Z * Z * Z) * mem * states) :=
  sk ← family_sk sn w;
  let m := ps_mem (md_ps md) in
  match chain (md_digest md) ISAKMP_NEXT_v2SKF, chain (md_digest md) ISAKMP_NEXT_v2SK with
  | _ :: _, sks =>
      st ← get_state sn w;
      '(f, r) ← ikev2_reassemble_fragments (md_original_role md) (set_sk sk (st_frag st));
      let w1 := modify sn (set_frag (set_sk (st_sk (st_frag st)) f)) w in
      match r with
      | None => Ok (None, m, w1)
      | Some (np, text) =>
          np ← (match sks with [] => Ok np | pd :: _ => defined (generic_np (pd_payload pd)) end);
          Ok (Some (np, raw_packet md, Z.of_nat (length text)), buffer (raw_packet md) text ∪ m, w1)
      end
  | [], [] => Abort
  | [], pd :: _ =>
      packet_pbs ← get_pbs (md_ps md) 0;
      '(bs, iv) ← packet_up_to md pd;
      '(bs', plain) ← ikev2_verify_and_decrypt_sk_payload sk (md_original_role md) bs iv;
      m' ← defined (store_bytes m (start packet_pbs) bs');
      match plain with
      | None => Ok (None, m', w)
      | Some text =>
          np ← defined (generic_np (pd_payload pd));
          Ok (Some (np, start packet_pbs + iv + wire_iv_size (encrypter sk), Z.of_nat (length text)), m', w)
      end
  end.

(** The endpoints of the IKE SA follow its messages unless we are behind a NAT. *)
Definition update_endpoints (md : msg_digest) (sn : Z) (w : states) : states :=
  modify sn (fun st => if nated_host st then st else update_ike_endpoints (md_ends md) (md_ike_float md) st) w.

(** [verify_pl] holds [md->svm] if the payloads shall be checked. *)
Definition ikev2_decrypt_msg {E} (verify_pl : option state_v2_microcode) (sn : Z) (md : msg_digest) (w : states)
  : outcome E (payloads_summary * msg_digest * states) :=
  '(plain, m, w1) ← decrypt_sk sn md w;
  match plain with
  | None => Ok (mk_summary STF_FAIL 0 0, set_payloads (md_digest md) (mk_ps m (ps_pbs (md_ps md))) md, w1)
  | Some (np, addr, len) =>
      let ps := put_pbs 2 (init_pbs addr len "cleartext") (mk_ps m (ps_pbs (md_ps md))) in
      '(summary, digest, ps') ← ikev2_decode_payloads 2 np (md_digest md) ps;
      let md1 := set_payloads digest ps' md in
      match verify_pl with
      | Some svm =>
          if bool_decide (sum_status summary = STF_OK) then
            let status := err_status (ikev2_verify_payloads summary (mk_expected (req_enc_payloads svm) (opt_enc_payloads svm))) in
            let summary := mk_summary status (sum_seen summary) (sum_repeated summary) in
            if bool_decide (status = STF_OK) then
              p ← parent_of sn w1;
              psn ← defined p;
              Ok (summary, md1, update_endpoints md1 psn w1)
            else Ok (summary, md1, w1)
          else Ok (summary, md1, w1)
      | None => Ok (summary, md1, w1)
      end
  end.

#[export] Instance original_role_eq_dec : EqDecision original_role.
Proof. solve_decision. Defined.

(** * process_v2_packet *)

(** How a message ends: without an answer, with the recorded packet sent again, in
    [complete_v2_state_transition] with a status, with an unprotected notification, or in the
    transition function of an entry, where the number is [md->st]. *)
Inductive v2_action :=
  | Dropped
  | Retransmitted (sn : Z)
  | Completed (status : stf_status)
  | Notified (n : Z)
  | Processed (svm : state_v2_microcode) (st : option Z).

Definition last_reply_retransmit (st : state) : bool := lastreplied (st_msgids st) =? lastrecv (st_msgids st).

Definition proces_recent_rtransmit (sn : Z) (st : state) : v2_action :=
  if st_suspended_md st then Dropped
  else if last_reply_retransmit st then Retransmitted sn else Dropped.

(** A request for the IKE SA: old and repeated ones end here. *)
Definition check_request (md : msg_digest) (sn : Z) (st : state) : v2_action + option Z :=
  let r := lastrecv (st_msgids st) in
  if negb (r =? v2_INVALID_MSGID) && (msgid_received md <? r) then inl Dropped
  else if r =? msgid_received md then inl (proces_recent_rtransmit sn st)
  else inr (Some sn).

(** A response to the IKE SA. *)
Definition check_response (md : msg_digest) (sn : Z) (st : state) : v2_action + option Z :=
  let c := st_msgids st in
  if negb (lastack c =? v2_INVALID_MSGID) && (msgid_received md <? lastack c) then inl Dropped
  else if negb (nextuse c =? v2_INVALID_MSGID) && (nextuse c <=? msgid_received md) then inl Dropped
  else inr (Some sn).

(** Finding the state object: the first part of the function. *)
Definition find_v2_state {E} (md : msg_digest) (w : states) : outcome E ((v2_action + option Z) * states) :=
  let h := md_hdr md in
  if isa_xchg h =? ISAKMP_v2_SA_INIT then
    r ← ikev2_find_state_in_init (isa_icookie h) (if ike_i md then STATE_PARENT_R1 else STATE_PARENT_I1) false w;
    match r with
    | None => Ok (inr None, w)
    | Some sn =>
        if is_initiator (md_original_role md) then
          w1 ← rehash_state None (isa_rcookie h) sn w;
          Ok (inr (Some sn), w1)
        else
          st ← get_state sn w;
          if lastrecv (st_msgids st) =? msgid_received md
          then Ok (inl (if st_suspended_md st then Dropped else Retransmitted sn), w)
          else Ok (inr (Some sn), w)
    end
  else if negb (is_msg_response md) then
    r ← find_state_ikev2_parent (isa_icookie h) (isa_rcookie h) w;
    match r with
    | None => Ok (inr None, w)
    | Some sn => st ← get_state sn w; Ok (check_request md sn st, w)
    end
  else
    r ← find_state_ikev2_child (isa_icookie h) (isa_rcookie h) (isa_msgid h) w;
    match r with
    | Some sn => Ok (inr (Some sn), w)
    | None =>
        r ← find_state_ikev2_parent (isa_icookie h) (isa_rcookie h) w;
        match r with
        | None => Ok (inr None, w)
        | Some sn => st ← get_state sn w; Ok (check_response md sn st, w)
        end
    end.

Definition match_hdr_flag (svm_flags smf2_flag : Z) (md_flag : bool) : bool :=
  negb (Z.land svm_flags smf2_flag =? 0) && md_flag.

(** The tests of an entry before the message is unpacked. *)
Definition svm_matches (md : msg_digest) (from_state : state_kind) (svm : state_v2_microcode) : bool :=
  let ix := isa_xchg (md_hdr md) in
  if negb (bool_decide (svm_state svm = from_state)) && negb (ix =? ISAKMP_v2_CREATE_CHILD_SA) then false
  else if negb (recv_type svm =? ix) then false
  else if match_hdr_flag (svm_flags svm) SMF2_IKE_I_SET (negb (ike_i md)) then false
  else if match_hdr_flag (svm_flags svm) SMF2_IKE_I_CLEAR (ike_i md) then false
  else if match_hdr_flag (svm_flags svm) SMF2_MSG_R_SET (negb (is_msg_response md)) then false
  else if match_hdr_flag (svm_flags svm) SMF2_MSG_R_CLEAR (is_msg_response md) then false
  else true.

(** The local variables of the loop over the table. A summary is [None] while its status is
    [STF_ROOF]. *)
Record svm_vars := mk_vars {
  clear_payload_summary : option payloads_summary;
  clear_payload_status : stf_status;
  encrypted_payload_summary : option payloads_summary;
  encrypted_payload_status : stf_status;
  v_md : msg_digest;
  v_states : states
}.

(** How the loop ends: [return] after an action, [break] with an entry, or at the end of the table. *)
Inductive svm_result := Return (a : v2_action) | Break (svm : state_v2_microcode) | Roof.

(** Unpacking the clear payloads, once. *)
Definition unpack_clear {E} (v : svm_vars) : outcome E (payloads_summary * svm_vars) :=
  match clear_payload_summary v with
  | Some s => Ok (s, v)
  | None =>
      let md := v_md v in
      '(s, digest, ps) ← ikev2_decode_payloads 1 (isa_np (md_hdr md)) (md_digest md) (md_ps md);
      Ok (s, mk_vars (Some s) (clear_payload_status v) (encrypted_payload_summary v) (encrypted_payload_status v)
               (set_payloads digest ps md) (v_states v))
  end.

(** Unpacking the encrypted payloads, once: the block under
    [if (encrypted_payload_summary.status == STF_ROOF)]. *)
Definition unpack_encrypted {E} (svm : state_v2_microcode) (sn : Z) (clear : payloads_summary) (v : svm_vars)
  : outcome E (svm_result * svm_vars + payloads_summary * svm_vars) :=
  match encrypted_payload_summary v with
  | Some s => Ok (inr (s, v))
  | None =>
      let md := v_md v in
      '(complete, w1) ←
        (if negb (Z.land (sum_seen clear) (P ISAKMP_NEXT_v2SKF) =? 0) then
           skf ← skf_of_md md;
           st ← get_state sn (v_states v);
           let '(complete, f) := ikev2_collect_fragment skf (st_frag st) in
           Ok (complete, modify sn (set_frag f) (v_states v))
         else Ok (true, v_states v));
      let v1 := mk_vars (clear_payload_summary v) (clear_payload_status v) None (encrypted_payload_status v) md w1 in
      if negb complete then Ok (inl (Return Dropped, v1))
      else if negb (Z.land (svm_flags svm) SMF2_SKIP_UNPACK_SK =? 0) then Ok (inl (Break svm, v1))
      else
        '(s, md2, w2) ← ikev2_decrypt_msg None sn md w1;
        let v2 := mk_vars (clear_payload_summary v) (clear_payload_status v) (Some s) (encrypted_payload_status v) md2 w2 in
        if negb (bool_decide (encrypted_payload_status v = STF_OK)) then Ok (inl (Return (Completed (sum_status s)), v2))
        else Ok (inr (s, v2))
  end.

Fixpoint svm_loop {E} (svms : list state_v2_microcode) (from_state : state_kind) (st : option Z) (v : svm_vars)
  : outcome E (svm_result * svm_vars) :=
  match svms with
  | [] => Ok (Roof, v)
  | svm :: svms' =>
      if negb (svm_matches (v_md v) from_state svm) then svm_loop svms' from_state st v
      else
        '(clear, v1) ← unpack_clear v;
        if negb (bool_decide (sum_status clear = STF_OK)) then Ok (Return (Completed (sum_status clear)), v1)
        else
          let errors := ikev2_verify_payloads clear (mk_expected (req_clear_payloads svm) (opt_clear_payloads svm)) in
          if negb (bool_decide (err_status errors = STF_OK)) then
            svm_loop svms' from_state st
              (mk_vars (clear_payload_summary v1) (err_status errors) (encrypted_payload_summary v1)
                 (encrypted_payload_status v1) (v_md v1) (v_states v1))
          else if Z.land (req_clear_payloads svm) (P ISAKMP_NEXT_v2SK) =? 0 then Ok (Break svm, v1)
          else
            sn ← defined st; (* passert(st != NULL) *)
            r ← unpack_encrypted svm sn clear v1;
            match r with
            | inl (res, v2) => Ok (res, v2)
            | inr (enc, v2) =>
                let errors := ikev2_verify_payloads enc (mk_expected (req_enc_payloads svm) (opt_enc_payloads svm)) in
                if negb (bool_decide (err_status errors = STF_OK)) then
                  svm_loop svms' from_state st
                    (mk_vars (clear_payload_summary v2) (clear_payload_status v2) (encrypted_payload_summary v2)
                       (err_status errors) (v_md v2) (v_states v2))
                else if isa_xchg (md_hdr (v_md v2)) =? ISAKMP_v2_CREATE_CHILD_SA then
                  p ← parent_of sn (v_states v2);
                  psn ← defined p;
                  Ok (Break svm,
                      mk_vars (clear_payload_summary v2) (clear_payload_status v2) (encrypted_payload_summary v2)
                        (encrypted_payload_status v2) (v_md v2) (update_endpoints (v_md v2) psn (v_states v2)))
                else Ok (Break svm, v2)
            end
  end.

(** The child that a CREATE_CHILD_SA message is for: a new object for a request, the one that waits
    for a response. [no_keys] is as for [duplicate_state]. *)
Definition process_v2_child_ix {E} (no_keys : sk_state) (md : msg_digest) (from_state : state_kind) (sn : Z) (w : states)
  : outcome E (option Z * states) :=
  p ← parent_of sn w;
  psn ← defined p;
  pst ← get_state psn w;
  if is_msg_request md then
    if bool_decide (from_state = STATE_V2_CREATE_R) then
      '(csn, w1) ← duplicate_state no_keys psn true w;
      w2 ← insert_state csn (change_state STATE_V2_CREATE_R csn w1);
      Ok (Some csn, w2)
    else
      '(csn, w1) ← duplicate_state no_keys psn false w;
      Ok (Some csn, change_state STATE_V2_REKEY_IKE_R csn w1)
  else
    r ← state_with_parent_msgid_expect (st_serialno pst) (isa_msgid (md_hdr md)) from_state w;
    Ok (r, w).

(** The last part of the function: the child of a CREATE_CHILD_SA exchange and the call. *)
Definition start_processor {E} (no_keys : sk_state) (svm : state_v2_microcode) (st : option Z) (md : msg_digest) (w : states)
  : outcome E (v2_action * msg_digest * states) :=
  let call sn w :=
    (match sn with
     | None => Ok (Processed svm None, md, w)
     | Some n => s ← get_state n w; Ok (if state_busy s then Dropped else Processed svm (Some n), md, w)
     end) in
  if isa_xchg (md_hdr md) =? ISAKMP_v2_CREATE_CHILD_SA then
    sn ← defined st;
    '(cst, w1) ← process_v2_child_ix no_keys md (svm_state svm) sn w;
    match cst with
    | None => Ok (Completed STF_FAIL, md, w1)
    | Some csn => w2 ← ikev2_update_msgid_counters md st w1; call (Some csn) w2
    end
  else call st w.

Definition process_v2_packet {E} (no_keys : sk_state) (md : msg_digest) (w : states)
  : outcome E (v2_action * msg_digest * states) :=
  '(r, w1) ← find_v2_state md w;
  match r with
  | inl a => Ok (a, md, w1)
  | inr st =>
      let ix := isa_xchg (md_hdr md) in
      '(role_conflict, from_state) ←
        (match st with
         | None => Ok (false, STATE_UNDEFINED)
         | Some sn =>
             s ← get_state sn w1;
             Ok (negb (bool_decide (st_original_role (st_sk (st_frag s)) = md_original_role md)) &&
                 ((ix =? ISAKMP_v2_SA_INIT) || (ix =? ISAKMP_v2_AUTH)), st_state s)
         end);
      if role_conflict : bool then Ok (Dropped, md, w1)
      else if (ix =? ISAKMP_v2_CREATE_CHILD_SA) && bool_decide (st = None) then Ok (Dropped, md, w1)
      else
        passert (Bool.eqb (bool_decide (st = None)) (bool_decide (from_state = STATE_UNDEFINED))) ;;
        '(res, v) ← svm_loop v2_state_microcode_table from_state st (mk_vars None STF_OK None STF_OK md w1);
        match res with
        | Return a => Ok (a, v_md v, v_states v)
        | Roof =>
            Ok (if negb (bool_decide (clear_payload_status v = STF_OK)) then Completed (clear_payload_status v)
                else if negb (bool_decide (encrypted_payload_status v = STF_OK)) then Completed (encrypted_payload_status v)
                else if negb (is_msg_response (v_md v)) then Notified v2N_INVALID_IKE_SPI else Dropped, v_md v, v_states v)
        | Break svm => start_processor no_keys svm st (v_md v) (v_states v)
        end
  end.

(** * process_packet, of programs/pluto/demux.c *)

Definition ISA_MAJ_SHIFT : Z := 4.
Definition ISA_MIN_MASK : Z := 0x0f.
Definition ISAKMP_MAJOR_VERSION : Z := 0x1.
Definition ISAKMP_MINOR_VERSION : Z := 0x0.
Definition IKEv2_MAJOR_VERSION : Z := 0x2.
Definition INVALID_MAJOR_VERSION : Z := 5.
Definition INVALID_MINOR_VERSION : Z := 6.
Definition PAYLOAD_MALFORMED : Z := 16.

(** A packet, at the address [addr] of a buffer of its size. *)
Record packet_in := mk_packet_in {
  pkt_addr : Z;
  pkt_octets : list Z;
  pkt_ends : endpoints;
  pkt_ike_float : bool;
  pkt_raw : Z
}.

(** What becomes of it: an unprotected notification, the IKEv1 state machine, or an action of the
    IKEv2 one. *)
Inductive packet_action :=
  | Rejected (n : Z)
  | ToIKEv1 (md : msg_digest)
  | ToIKEv2 (a : v2_action) (md : msg_digest).

Definition packet_streams (p : packet_in) : pstate :=
  mk_ps (buffer (pkt_addr p) (pkt_octets p))
    {[ 0%nat := init_pbs (pkt_addr p) (Z.of_nat (length (pkt_octets p))) "packet" ]}.

Definition unpack_header (p : packet_in) : outcome diag msg_digest :=
  '(vs, ps) ← in_struct isakmp_hdr_desc 0 (Some 1%nat) (packet_streams p);
  match vs with
  | [FBytes ic; FBytes rc; FNum np; FNum version; FNum xchg; FNum flags; FBytes msgid; FNum len] =>
      Ok (mk_md (mk_hdr ic rc np version xchg flags msgid len) ps [] (pkt_ends p) (pkt_ike_float p) (pkt_raw p))
  | _ => Abort
  end.

Definition process_packet (no_keys : sk_state) (p : packet_in) (w : states) : outcome diag (packet_action * states) :=
  match unpack_header p with
  | Abort => Abort
  | Ugh _ => Ok (Rejected PAYLOAD_MALFORMED, w)
  | Ok md =>
      let vmaj := Z.shiftr (isa_version (md_hdr md)) ISA_MAJ_SHIFT in
      let vmin := Z.land (isa_version (md_hdr md)) ISA_MIN_MASK in
      if vmaj =? ISAKMP_MAJOR_VERSION then
        if ISAKMP_MINOR_VERSION <? vmin then Ok (Rejected INVALID_MINOR_VERSION, w) else Ok (ToIKEv1 md, w)
      else if vmaj =? IKEv2_MAJOR_VERSION then
        '(a, md', w') ← process_v2_packet no_keys md w;
        Ok (ToIKEv2 a md', w')
      else Ok (Rejected INVALID_MAJOR_VERSION, w)
  end.
