(* ===== verification/Ikev2Informational.v ===== *)
(** The INFORMATIONAL exchange of IKEv2: [process_encrypted_informational_ikev2] and
    [delete_or_replace_state] of programs/pluto/ikev2_parent.c.

    The reply is modelled by what it says; building, protecting and sending it takes the calls
    of [Ikev2Sk.ikev2_record_fragment], and its octets are an argument. *)
From S2P Require Import Prelude EnumNames Constants Packet PacketDescs PacketGeneric Stf Ikev2Sk Fragments Ikev2Payloads Address States Ikev2Dispatch.

Definition POLICY_UP : Z := LELEM 20.

(** [elemsof(spi_buf)] *)
Definition SPI_BUF_SIZE : Z := 128.

(** A Delete payload of the reply. *)
Record delete_out := mk_del { del_protoid : Z; del_spis : list (list Z) }.

(** The reply: the header fields that differ from one to the next, and the payloads inside. *)
Record reply := mk_reply { rep_icookie : list Z; rep_rcookie : list Z; rep_flags : Z; rep_msgid : list Z; rep_deletes : list delete_out }.

Definition delete_or_replace_state {E} (sn : Z) (w : states) : outcome E states :=
  st ← get_state sn w;
  match st_event st with
  | None => delete_state sn w
  | Some e =>
      if bool_decide (e = EVENT_SA_EXPIRE) then Ok (event_schedule EVENT_SA_EXPIRE sn w)
      else if (newest_ipsec_sa st =? st_serialno st) && negb (Z.land (policy (st_frag st)) POLICY_UP =? 0) &&
              (bool_decide (e = EVENT_SA_REPLACE) || bool_decide (e = EVENT_v2_SA_REPLACE_IF_USED))
      then Ok (event_schedule EVENT_SA_REPLACE sn w)
      else delete_state sn w
  end.

(** [struct ikev2_delete] *)
Definition delete_members {E} (pd : payload_digest) : outcome E (Z * Z * Z) :=
  match pd_payload pd with
  | [_; _; _; FNum protoid; FNum spisize; FNum nrspi] => Ok (protoid, spisize, nrspi)
  | _ => Abort
  end.

(** Pass 1: the result is an error or [del_ike] and [ndp]. *)
Fixpoint del_pass1 {E} (responding : bool) (ps : pstate) (pds : list payload_digest) (del_ike : bool) (ndp : Z)
  : outcome E (stf_status + bool * Z) :=
  match pds with
  | [] => Ok (inr (del_ike, ndp))
  | pd :: pds' =>
      let bad := Ok (inl (STF_NOTIFY v2N_INVALID_SYNTAX)) in
      '(protoid, spisize, nrspi) ← delete_members pd;
      if protoid =? PROTO_ISAKMP then
        if negb responding then bad
        else if del_ike then bad
        else if negb (nrspi =? 0) || negb (spisize =? 0) then bad
        else del_pass1 responding ps pds' true ndp
      else if (protoid =? PROTO_IPSEC_AH) || (protoid =? PROTO_IPSEC_ESP) then
        p ← get_pbs ps (pd_pbs pd);
        if negb (spisize =? 4) then bad
        else if negb (nrspi * spisize =? pbs_left p) then bad
        else del_pass1 responding ps pds' del_ike (ndp + 1)
      else del_pass1 responding ps pds' del_ike ndp
  end.

(** The SPIs of one Delete payload: each names a child, which is deleted or replaced. The result
    is the end of the stream [pbs] and [spi_buf], or [None] where the stream is too short. *)
Fixpoint delete_spis {E} (n : nat) (responding : bool) (icookie rcookie : list Z) (sn protoid : Z) (pbs : nat)
    (spi_buf : list (list Z)) (ps : pstate) (w : states) : outcome E (option (list (list Z)) * pstate * states) :=
  match n with
  | O => Ok (Some spi_buf, ps, w)
  | S n' =>
      match in_raw 4 pbs "SPI" ps with
      | Abort => Abort
      | Ugh _ => Ok (None, ps, w)
      | Ok (spi, ps1) =>
          dst ← find_state_ikev2_child_to_delete icookie rcookie protoid spi w;
          match dst with
          | None => delete_spis n' responding icookie rcookie sn protoid pbs spi_buf ps1 w
          | Some d =>
              passert (negb (d =? sn)) ;;
              let w1 := modify d set_no_del w in
              st ← get_state d w1;
              let spi_buf' :=
                if responding && (Z.of_nat (length spi_buf) <? SPI_BUF_SIZE) then spi_buf ++ [our_spi (proto_of protoid st)]
                else spi_buf in
              w2 ← delete_or_replace_state d w1;
              delete_spis n' responding icookie rcookie sn protoid pbs spi_buf' ps1 w2
          end
      end
  end.

(** Pass 2. [pli] counts the payloads for IPsec protocols. *)
Fixpoint del_pass2 {E} (responding : bool) (icookie rcookie : list Z) (sn ndp pli : Z) (pds : list payload_digest) (out : list delete_out)
    (ps : pstate) (w : states) : outcome E (option (list delete_out) * pstate * states) :=
  match pds with
  | [] => Ok (Some out, ps, w)
  | pd :: pds' =>
      '(protoid, _, nrspi) ← delete_members pd;
      if protoid =? PROTO_ISAKMP then Abort (* unexpected IKE delete *)
      else if (protoid =? PROTO_IPSEC_AH) || (protoid =? PROTO_IPSEC_ESP) then
        '(spi_buf, ps1, w1) ← delete_spis (Z.to_nat nrspi) responding icookie rcookie sn protoid (pd_pbs pd) [] ps w;
        match spi_buf with
        | None => Ok (None, ps1, w1)
        | Some spis =>
            if responding then
              passert (pli <? ndp) ;;
              del_pass2 responding icookie rcookie sn ndp (pli + 1) pds' (out ++ [mk_del protoid spis]) ps1 w1
            else del_pass2 responding icookie rcookie sn ndp pli pds' out ps1 w1
        end
      else del_pass2 responding icookie rcookie sn ndp pli pds' out ps w
  end.

Definition reply_flags (md : msg_digest) : Z :=
  if is_initiator (md_original_role md) then Z.lor ISAKMP_FLAGS_v2_MSG_R ISAKMP_FLAGS_v2_IKE_I else ISAKMP_FLAGS_v2_MSG_R.

Definition set_lastreplied (n : Z) (st : state) : state :=
  let c := st_msgids st in set_msgids (mk_msgids (lastack c) (lastrecv c) n (nextuse c)) st.

(** The end of the routine when it is responding: the reply is recorded and sent, and the IKE SA
    is deleted if that was asked for. The result is [md->st]. *)
Definition send_reply {E} (octets : reply -> list Z) (md : msg_digest) (del_ike : bool) (r : reply) (sn : Z) (w : states)
  : outcome E (option Z * states) :=
  st ← get_state sn w;
  f ← record_outbound_ike_msg (octets r) (st_frag st);
  let w1 := modify sn (fun s => set_lastreplied (msgid_received md) (set_frag f s)) w in
  if del_ike then w2 ← delete_my_family true sn w1; Ok (None, w2) else Ok (Some sn, w1).

(** The part behind pass 1, for the IKE SA [sn]: the status, the reply if there is one, the states. *)
Definition informational_body {E} (octets : reply -> list Z) (md : msg_digest) (del_ike : bool) (ndp : Z) (sn : Z) (w : states)
  : outcome E (stf_status * option reply * states) :=
  let responding := is_msg_request md in
  let ds := chain (md_digest md) ISAKMP_NEXT_v2D in
  let w1 := if responding then modify sn (set_pend_liveness false) w else w in
  st ← get_state sn w1;
  if negb responding && bool_decide (st_state st = STATE_IKESA_DEL) then
    w2 ← delete_my_family true sn w1;
    w3 ← ikev2_update_msgid_counters md None w2;
    Ok (STF_OK, None, w3)
  else
    '(out, w2) ←
      (if negb responding && bool_decide (ds = []) then Ok (Some [], modify sn (set_pend_liveness false) w1)
       else if del_ike then passert responding ;; Ok (Some [], w1)
       else '(out, _, w2) ← del_pass2 responding (st_icookie st) (st_rcookie st) sn ndp 0 ds [] (md_ps md) w1; Ok (out, w2));
    match out with
    | None => Ok (STF_INTERNAL_ERROR, None, w2)
    | Some deletes =>
        if responding then
          let r := mk_reply (st_icookie st) (st_rcookie st) (reply_flags md) (isa_msgid (md_hdr md)) deletes in
          '(st', w3) ← send_reply octets md del_ike r sn w2;
          w4 ← ikev2_update_msgid_counters md st' w3;
          Ok (STF_OK, Some r, w4)
        else
          w3 ← ikev2_update_msgid_counters md (Some sn) w2;
          Ok (STF_OK, None, w3)
    end.

Definition process_informational {E} (octets : reply -> list Z) (md : msg_digest) (sn : Z) (w : states)
  : outcome E (stf_status * option reply * states) :=
  p ← parent_of sn w;
  match p with
  | None => Ok (STF_INTERNAL_ERROR, None, w)
  | Some psn =>
      let w1 := update_endpoints md psn w in
      r ← del_pass1 (is_msg_request md) (md_ps md) (chain (md_digest md) ISAKMP_NEXT_v2D) false 0;
      match r with
      | inl status => Ok (status, None, w1)
      | inr (del_ike, ndp) => informational_body octets md del_ike ndp psn w1
      end
  end.

(** A packet that ends in this transition function, or elsewhere. *)
Inductive received :=
  | Answered (status : stf_status) (r : option reply)
  | Elsewhere (a : packet_action).

Definition receive_packet (octets : reply -> list Z) (no_keys : sk_state) (p : packet_in) (w : states)
  : outcome diag (received * states) :=
  '(a, w1) ← process_packet no_keys p w;
  match a with
  | ToIKEv2 (Processed svm (Some sn)) md =>
      if bool_decide (processor svm = process_encrypted_informational_ikev2) then
        '(status, r, w2) ← process_informational octets md sn w1;
        Ok (Answered status r, w2)
      else Ok (Elsewhere a, w1)
  | _ => Ok (Elsewhere a, w1)
  end.
