(* ===== verification/DispatchSafety.v ===== *)
(** Receiving a packet is safe: whatever the octets are, no assertion of the IKEv2 receive path
    fails and no memory outside its buffers is touched, from the header of the packet to the
    transition function that [process_v2_packet] selects. *)
From S2P Require Import Prelude EnumNames Constants Packet PacketSpec PacketObject PacketNest PacketDescs PacketGeneric.
From S2P Require Import PacketTheorems Stf Ikev2Sk Ikev2SkTheorems Fragments FragmentTheorems Ikev2Payloads PayloadTheorems Address.
From S2P Require Import States StateTheorems Ikev2Dispatch.

(** * Decryption of any octets *)

(** Algorithms work on octets, and in place. *)
Record octet_cipher (e : encrypt_desc) : Prop := {
  crypt_octets : forall buf key iv enc, Forall byteZ buf -> Forall byteZ (do_crypt e buf key iv enc);
  aead_octets : forall salt iv aad text tag key, Forall byteZ text -> Forall byteZ tag ->
    let '(_, text', tag') := do_aead e salt iv aad text tag key false in
    length text' = length text /\ length tag' = length tag /\ Forall byteZ text' /\ Forall byteZ tag'
}.

Lemma length_slice a n (bs : list Z) : 0 <= a -> 0 <= n -> a + n <= Z.of_nat (length bs) -> Z.of_nat (length (slice a n bs)) = n.
Proof. intros. unfold slice. rewrite length_take, length_drop. lia. Qed.

Lemma slice_octets a n bs : Forall byteZ bs -> Forall byteZ (slice a n bs).
Proof. intros H. unfold slice. auto with octets. Qed.

#[export] Hint Resolve slice_octets : octets.

Lemma strip_padding_length text t : strip_padding text = Some t -> (length t <= length text)%nat /\ exists tail, text = t ++ tail.
Proof.
  unfold strip_padding. case_match; [done|]. intros [= <-]. rewrite length_take. split; [lia|].
  eexists. symmetry. apply take_drop.
Qed.

Section verify.
Context {E : Type} (sk : sk_state) (role : original_role) (chunk : list Z) (iv : Z).
Context (Hsk : suite_ok sk) (Ho : octet_cipher (encrypter sk)) (Hc : Forall byteZ chunk) (Hiv : 0 <= iv).

(** What a call leaves behind: a buffer of the same size, and the plain text behind the wire IV. *)
Definition opened (r : list Z * option (list Z)) : Prop :=
  length r.1 = length chunk /\ Forall byteZ r.1 /\
  match r.2 with
  | Some t => Forall byteZ t /\ 0 <= wire_iv_size (encrypter sk) /\
      iv + wire_iv_size (encrypter sk) + Z.of_nat (length t) <= Z.of_nat (length chunk)
  | None => True
  end.

Lemma opened_none : opened (chunk, None).
Proof. done. Qed.

(** The buffer with its middle and its end replaced. *)
Lemma opened_some (enc_size icv : Z) text tag plain :
  0 <= wire_iv_size (encrypter sk) -> 0 <= enc_size -> 0 <= icv -> iv + wire_iv_size (encrypter sk) + enc_size + icv = Z.of_nat (length chunk) ->
  Z.of_nat (length text) = enc_size -> Z.of_nat (length tag) = icv -> Forall byteZ text -> Forall byteZ tag ->
  (plain = None \/ plain = strip_padding text) ->
  opened (slice 0 (iv + wire_iv_size (encrypter sk)) chunk ++ text ++ tag, plain).
Proof.
  intros Hw He Hi Hl Ht Hg Bt Bg Hp. split; cbn [fst snd].
  - pose proof (length_slice 0 (iv + wire_iv_size (encrypter sk)) chunk ltac:(lia) ltac:(lia) ltac:(lia)). rewrite !length_app. lia.
  - split; [auto with octets|]. destruct Hp as [-> | ->]; [done|].
    destruct (strip_padding text) as [t|] eqn:Hs; [|done]. destruct (strip_padding_length _ _ Hs) as [Hle [tail ->]].
    apply Forall_app in Bt as [Bt _]. split; [done|]. split; [done|]. lia.
Qed.

Lemma receiver_salt : Z.of_nat (length (snd (if is_initiator role then from_responder sk else from_initiator sk))) = salt_size (encrypter sk).
Proof. destruct Hsk. by case_match. Qed.

Lemma verify_total : exists r, ikev2_verify_and_decrypt_sk_payload (E := E) sk role chunk iv = Ok r /\ opened r.
Proof.
  unfold ikev2_verify_and_decrypt_sk_payload. destruct (negb _); [eexists; split; [done|apply opened_none]|].
  rewrite integ_size_ok, bind_Ok by done. pose proof (icv_bounds sk Hsk) as [Hicv _]. destruct (suite_cipher _ Hsk) as [Hb Hw _ _ _ Hlen _ _ _].
  destruct (Z.ltb_spec (Z.of_nat (length chunk)) (iv + wire_iv_size (encrypter sk) + 1 + icv_size sk)) as [|Hl]; [eexists; split; [done|apply opened_none]|].
  assert ((enc_blocksize (encrypter sk) =? 0) = false) as -> by (apply Z.eqb_neq; lia). rewrite andb_false_r. cbn [negb]. run_ok.
  destruct (_ && _); [eexists; split; [done|apply opened_none]|].
  pose proof receiver_salt as Hsalt. destruct (if is_initiator role then _ else _) as [[ck ak] salt]. cbn [snd] in Hsalt.
  set (es := Z.of_nat (length chunk) - icv_size sk - (iv + wire_iv_size (encrypter sk))).
  pose proof (length_slice (iv + wire_iv_size (encrypter sk)) es chunk ltac:(lia) ltac:(lia) ltac:(lia)) as Htext.
  pose proof (length_slice (Z.of_nat (length chunk) - icv_size sk) (icv_size sk) chunk ltac:(lia) ltac:(lia) ltac:(lia)) as Htag.
  destruct (ike_alg_enc_requires_integ (encrypter sk)) eqn:Hri.
  - destruct (suite_integ _ Hsk) as (i&Hi&[Hsz Hprf]); [unfold ike_alg_enc_requires_integ in Hri; by destruct (ike_alg_is_aead _)|].
    rewrite Hi. run_ok.
    assert (icv_size sk = integ_output_size i) as Hicvi.
    { unfold icv_size. rewrite Hi. unfold ike_alg_enc_requires_integ in Hri. by destruct (ike_alg_is_aead _). }
    rewrite !Hprf. assert ((prf_output_size i <=? MAX_DIGEST_LEN) = true /\ (icv_size sk <=? prf_output_size i) = true) as [-> ->]
      by (rewrite !Z.leb_le; lia).
    run_ok.
    destruct (negb _); [eexists; split; [done|apply opened_none]|].
    rewrite construct_enc_iv_ok, bind_Ok by done. eexists. split; [done|].
    apply (opened_some es (icv_size sk)); rewrite ?Hlen; try lia; auto with octets. apply Ho. auto with octets.
  - pose proof (aead_octets _ Ho salt (slice iv (wire_iv_size (encrypter sk)) chunk) (slice 0 (iv + wire_iv_size (encrypter sk) - wire_iv_size (encrypter sk)) chunk)
      (slice (iv + wire_iv_size (encrypter sk)) es chunk) (slice (Z.of_nat (length chunk) - icv_size sk) (icv_size sk) chunk) ck
      ltac:(auto with octets) ltac:(auto with octets)) as Ha.
    fold es. destruct (do_aead _ _ _ _ _ _ _ _) as [[ok t'] g']. destruct Ha as (L1&L2&B1&B2). eexists. split; [done|].
    apply (opened_some es (icv_size sk)); try lia; try done. destruct ok; auto.
Qed.
End verify.

(** Keys that may be used: algorithms that keep their laws, or none yet. *)
Definition sk_ok (sk : sk_state) : Prop := st_skeyid_calculated sk = true -> suite_ok sk /\ octet_cipher (encrypter sk).

Lemma verify_safe {E} sk role chunk iv : sk_ok sk -> Forall byteZ chunk -> 0 <= iv ->
  exists r, ikev2_verify_and_decrypt_sk_payload (E := E) sk role chunk iv = Ok r /\ opened sk chunk iv r.
Proof.
  intros Hsk Hc Hiv. destruct (st_skeyid_calculated sk) eqn:Hk.
  - destruct (Hsk Hk) as [Hs Ho]. by apply verify_total.
  - exists (chunk, None). unfold ikev2_verify_and_decrypt_sk_payload. rewrite Hk. done.
Qed.

(** * Fragments *)

Definition frag_ok (f : ikev2_frag) : Prop := Forall byteZ (f_cipher f) /\ 0 <= f_iv f /\ Z.of_nat (length (f_cipher f)) < 2 ^ 16.

Record frags_ok (f : frag_state) : Prop := {
  frags_sorted : frags_inv (ikev2_frags f);
  frags_octets : Forall frag_ok (ikev2_frags f)
}.

(** The same fragment, with its text decrypted or not. *)
Definition same_frag (f f' : ikev2_frag) : Prop :=
  f_index f' = f_index f /\ f_total f' = f_total f /\ frag_ok f'.

Lemma same_frags_ok l l' : Forall2 same_frag l l' -> frags_inv l -> frags_inv l' /\ Forall frag_ok l'.
Proof.
  intros H [Hs (total&Hm&Hall)]. split; [split|].
  - assert (f_index <$> l' = f_index <$> l) as ->; [|done]. clear -H. induction H as [|f f' l l' (Hi&_) _ IH]; [done|]. by rewrite !fmap_cons, Hi, IH.
  - exists total. split; [done|]. clear -H Hall. induction H as [|f f' l l' (Hi&Ht&_) _ IH]; [constructor|].
    apply Forall_cons in Hall as [Hf Hall]. constructor; [by rewrite Hi, Ht|by apply IH].
  - clear -H. induction H as [|f f' l l' (_&_&Hf) _ IH]; by constructor.
Qed.

Lemma same_frag_refl l : Forall frag_ok l -> Forall2 same_frag l l.
Proof. induction 1 as [|f l Hf _ IH]; constructor; done. Qed.

Lemma decrypt_frags_safe {E} sk role l : sk_ok sk -> Forall frag_ok l ->
  exists l' ps, decrypt_frags (E := E) sk role l = Ok (l', ps) /\ Forall2 same_frag l l' /\
    match ps with Some ts => Forall (Forall byteZ) ts /\ Z.of_nat (length (concat ts)) <= Z.of_nat (length l) * 2 ^ 16 | None => True end.
Proof.
  intros Hsk. induction 1 as [|f l Hf Hl IH].
  - exists [], (Some []). split; [done|]. split; [constructor|]. split; [constructor|cbn; lia].
  - cbn [decrypt_frags]. destruct Hf as (Hb&Hiv&Hlen).
    destruct (verify_safe (E := E) sk role (f_cipher f) (f_iv f) Hsk Hb Hiv) as ([buf plain]&->&H1&H2&H3). cbn [fst snd] in *. rewrite bind_Ok.
    assert (same_frag f (mk_frag (f_np f) (f_index f) (f_total f) (f_iv f) buf)) as Hsame.
    { split; [done|]. split; [done|]. split; [done|]. split; [done|]. cbn. lia. }
    destruct plain as [t|].
    + destruct IH as (l'&ps&->&Hl'&Hps). rewrite bind_Ok. eexists _, _. split; [done|]. split; [by constructor|].
      destruct ps as [ts|]; cbn; [|done]. destruct Hps as [Hts Hlen']. destruct H3 as (Ht&Hw&Hle). split; [by constructor|].
      rewrite length_app. cbn [length]. lia.
    + eexists _, _. split; [done|]. split; [|done]. constructor; [done|]. by apply same_frag_refl.
Qed.

Lemma release_fragments_frags {E} f : exists f', release_fragments (E := E) f = Ok f' /\ ikev2_frags f' = ikev2_frags f.
Proof.
  unfold release_fragments. destruct (st_ikev2 f) eqn:H2; cbn [negb].
  - unfold release_v2fragments. rewrite H2. by eexists.
  - unfold release_v1fragments. rewrite H2. by eexists.
Qed.

Lemma concat_octets (ts : list (list Z)) : Forall (Forall byteZ) ts -> Forall byteZ (concat ts).
Proof. induction 1; cbn; [constructor|]. by apply Forall_app. Qed.

Lemma reassemble_safe {E} role f : sk_ok (st_sk f) -> frags_ok f -> ikev2_frags f <> [] ->
  exists f' r, ikev2_reassemble_fragments (E := E) role f = Ok (f', r) /\ frags_ok f' /\
    match r with Some (np, text) => Forall byteZ text /\ Z.of_nat (length text) <= 2 ^ 20 | None => True end.
Proof.
  intros Hsk [Hinv Hok] Hne. unfold ikev2_reassemble_fragments. pose proof (frags_inv_length _ Hinv) as Hlen.
  destruct (decrypt_frags_safe (E := E) (st_sk f) role _ Hsk Hok) as (l'&ps&->&Hsame&Hps). rewrite bind_Ok.
  destruct (same_frags_ok _ _ Hsame Hinv) as [Hinv' Hok']. destruct ps as [ts|].
  - destruct Hps as [Hb Hl]. assert (Z.of_nat (length (concat ts)) <= 2 ^ 20) as Hl' by lia.
    destruct l' as [|f0 l']; [inversion Hsame as [Hx|]; symmetry in Hx; done|]. cbn [head defined]. rewrite bind_Ok, u32_small by lia.
    rewrite copy_frags_ok, bind_Ok by lia. eexists _, _. split; [done|]. split; [|split; [by apply concat_octets|done]].
    split; [split; [constructor|by exists 0]|constructor].
  - destruct (release_fragments_frags (E := E) (set_ikev2_frags l' f)) as (f'&->&Hf'). rewrite bind_Ok. eexists _, _. split; [done|].
    split; [|done]. split; by rewrite Hf'.
Qed.

(** * State objects *)

Record state_ok (st : state) : Prop := {
  state_keys : IS_CHILD_SA st = false -> sk_ok (st_sk (st_frag st));
  state_frags : frags_ok (st_frag st);
  state_defined : st_state st <> STATE_UNDEFINED
}.

(** The table is consistent, its objects are well formed and children have their parents in it. *)
Record world_ok (w : states) : Prop := {
  world_table : table_ok w;
  world_next : 0 < next_so w;
  world_states : forall sn st, table_map w !! sn = Some st -> state_ok st;
  world_family : forall sn st, table_map w !! sn = Some st -> IS_CHILD_SA st = true ->
    exists pst, table_map w !! st_clonedfrom st = Some pst /\ IS_CHILD_SA pst = false /\
      (st_skeyid_calculated (st_sk (st_frag st)) = true -> st_skeyid_calculated (st_sk (st_frag pst)) = true)
}.

(** What an assignment leaves alone: the relations between the objects. *)
Definition similar (st st' : state) : Prop :=
  st_clonedfrom st' = st_clonedfrom st /\ st_state st' = st_state st /\
  st_skeyid_calculated (st_sk (st_frag st')) = st_skeyid_calculated (st_sk (st_frag st)).

(** The same objects, in the same states and families. *)
Definition same_objects (w w' : states) : Prop :=
  forall sn st, table_map w !! sn = Some st -> exists st', table_map w' !! sn = Some st' /\ similar st st'.

Lemma similar_trans s1 s2 s3 : similar s1 s2 -> similar s2 s3 -> similar s1 s3.
Proof. intros (?&?&?) (?&?&?). split; [congruence|]. split; congruence. Qed.

Lemma similar_refl s : similar s s.
Proof. done. Qed.

Lemma same_objects_refl w : same_objects w w.
Proof. intros sn st Hst. exists st. split; [done|apply similar_refl]. Qed.

Lemma same_objects_trans w1 w2 w3 : same_objects w1 w2 -> same_objects w2 w3 -> same_objects w1 w3.
Proof.
  intros H1 H2 sn st Hst. destruct (H1 _ _ Hst) as (st2&Hst2&E1). destruct (H2 _ _ Hst2) as (st3&Hst3&E2).
  exists st3. split; [done|]. by eapply similar_trans.
Qed.

Section assignment.
Context (sn : Z) (f : state -> state) (w : states).
Context (Hid : keeps_identity f) (Hsim : forall st, table_map w !! sn = Some st -> similar st (f st)).

Lemma modify_same : same_objects w (modify sn f w).
Proof.
  intros j st Hst. rewrite table_map_modify. destruct (decide (sn = j)) as [<-|].
  - rewrite lookup_alter_eq, Hst. exists (f st). split; [done|]. by apply Hsim.
  - rewrite lookup_alter_ne by done. eauto using similar_refl.
Qed.

Lemma modify_world : (forall st, table_map w !! sn = Some st -> state_ok st -> state_ok (f st)) ->
  world_ok w -> world_ok (modify sn f w).
Proof.
  intros Hs [Ht Hn Hst Hfam]. split.
  - by apply modify_ok.
  - done.
  - intros j st. rewrite table_map_modify. destruct (decide (sn = j)) as [<-|].
    + rewrite lookup_alter_eq. intros (s&Hs'&->)%fmap_Some. eauto.
    + rewrite lookup_alter_ne by done. apply Hst.
  - intros j st Hj Hc. assert (exists s, table_map w !! j = Some s /\ similar s st) as (s&Hs'&Hcl&_&Hcalc).
    { rewrite table_map_modify in Hj. destruct (decide (sn = j)) as [<-|].
      - rewrite lookup_alter_eq in Hj. apply fmap_Some in Hj as (s&Hs'&->). eauto.
      - rewrite lookup_alter_ne in Hj by done. eauto using similar_refl. }
    unfold IS_CHILD_SA in Hc. rewrite Hcl in Hc. destruct (Hfam j s Hs' Hc) as (pst&Hp&Hpc&Hpk). rewrite Hcl.
    destruct (modify_same _ _ Hp) as (pst'&Hp'&Hpcl&_&Hpk'). exists pst'. split; [done|]. unfold IS_CHILD_SA.
    rewrite Hpcl, Hpk', Hcalc. done.
Qed.
End assignment.

Lemma table_get {E} w sn st : table_map w !! sn = Some st -> get_state (E := E) sn w = Ok st.
Proof. intros [H _]%table_map_lookup. by apply get_state_at. Qed.

Section object.
Context {E : Type} (w : states) (Hw : world_ok w) (sn : Z) (st : state) (Hst : table_map w !! sn = Some st).

Lemma parent_of_safe : exists psn pst, parent_of (E := E) sn w = Ok (Some psn) /\ table_map w !! psn = Some pst /\ IS_CHILD_SA pst = false /\
  (st_skeyid_calculated (st_sk (st_frag st)) = true -> st_skeyid_calculated (st_sk (st_frag pst)) = true).
Proof.
  unfold parent_of. rewrite (table_get _ _ _ Hst), bind_Ok. destruct (IS_CHILD_SA st) eqn:Hc; [|by eauto 6].
  destruct (world_family _ Hw _ _ Hst Hc) as (pst&Hp&Hpc&Hpk). rewrite state_with_serialno_ok by apply Hw.
  exists (st_clonedfrom st), pst. rewrite decide_True by eauto. done.
Qed.

Lemma family_sk_safe : exists sk, family_sk (E := E) sn w = Ok sk /\ sk_ok sk.
Proof.
  unfold family_sk. rewrite (table_get _ _ _ Hst), bind_Ok. destruct (st_skeyid_calculated (st_sk (st_frag st))) eqn:Hk; cbn [negb].
  - destruct parent_of_safe as (psn&pst&->&Hp&Hpc&Hpk). rewrite bind_Ok. cbn [defined]. rewrite bind_Ok, (table_get _ _ _ Hp), bind_Ok.
    eexists. split; [done|]. destruct (state_keys _ (world_states _ Hw _ _ Hp) Hpc (Hpk Hk)) as [[Hsc Hsi Hs1 Hs2] Ho].
    intros _. split; [|done]. by split.
  - eexists. split; [done|]. intros H. congruence.
Qed.
End object.

(** * Messages *)

(** A message in memory; [p0] is the stream of the packet. *)
Record md_ok (p0 : pb_stream) (md : msg_digest) : Prop := {
  md_mem : mem_ok (ps_mem (md_ps md));
  md_packet : ps_pbs (md_ps md) !! 0%nat = Some p0;
  md_packet_wf : wf_pbs (ps_mem (md_ps md)) p0;
  md_size : roof p0 - start p0 < 2 ^ 16;
  md_streams : Forall (fun pd => pd_shape pd /\ exists q, ps_pbs (md_ps md) !! pd_pbs pd = Some q /\ wf_pbs (ps_mem (md_ps md)) q) (md_digest md);
  md_numbers : pd_pbs <$> md_digest md = digest_pbs <$> seq 0 (length (md_digest md));
  md_limit : Z.of_nat (length (md_digest md)) <= PAYLIMIT;
  md_raw : 0 <= raw_packet md < 2 ^ 62
}.

(** The payloads found so far lie in the packet. *)
Definition in_packet (p0 : pb_stream) (md : msg_digest) : Prop :=
  Forall (payload_in (md_ps md) (start p0) (roof p0)) (md_digest md).

Lemma wf_pbs_same m m' p : (forall x, is_Some (m !! x) -> is_Some (m' !! x)) -> wf_pbs m p -> wf_pbs m' p.
Proof. intros H (?&?&Hm). split; [done|]. split; [done|]. intros x Hx. by apply H, Hm. Qed.

(** Decoding more payloads keeps a message well formed. *)
Lemma decode_safe {E} p0 md in_pbs p np : md_ok p0 md -> (0 < in_pbs < 3)%nat ->
  ps_pbs (md_ps md) !! in_pbs = Some p -> wf_pbs (ps_mem (md_ps md)) p ->
  exists s d ps' extra, ikev2_decode_payloads (E := E) in_pbs np (md_digest md) (md_ps md) = Ok (s, md_digest md ++ d, ps') /\
    decoded in_pbs p (length (md_digest md)) (0, 0) (md_ps md) ps' s d extra /\ md_ok p0 (set_payloads (md_digest md ++ d) ps' md).
Proof.
  intros [Hm Hp0 Hw0 Hsz Hst Hnum Hlim Hraw] Hin Hp Hw.
  destruct (decode_payloads_decoded (E := E) in_pbs np (md_digest md) (md_ps md) p ltac:(lia) Hp Hw Hm Hlim) as (s&d&ps'&extra&->&D).
  exists s, d, ps', extra. split; [done|]. split; [done|]. destruct D as [Dm Dc Do Ds Dn _ _ Dl Dsh _].
  split; cbn [md_ps md_digest set_payloads raw_packet]; rewrite ?Dm; try done.
  - rewrite Do by (unfold digest_pbs; lia). done.
  - apply Forall_app. split.
    + apply Forall_lookup. intros i pd Hi. destruct (proj1 (Forall_lookup _ _) Hst i pd Hi) as [Hs (q&Hq&Hqw)]. split; [done|]. exists q. split; [|done].
      assert (pd_pbs pd = digest_pbs i) as Hpd.
      { assert ((pd_pbs <$> md_digest md) !! i = Some (pd_pbs pd)) as Hl by (rewrite list_lookup_fmap, Hi; done).
        rewrite Hnum, list_lookup_fmap in Hl. apply fmap_Some in Hl as (k&Hk&->). apply lookup_seq in Hk as [-> _]. done. }
      apply lookup_lt_Some in Hi. rewrite Do; [done| |]; rewrite Hpd; unfold digest_pbs; lia.
    + apply Forall_lookup. intros i pd Hi. split; [by apply (proj1 (Forall_lookup _ _) Dsh i)|].
      destruct (proj1 (Forall_lookup _ _) Ds i pd Hi) as (q&Hq&Hqw&_). exists q. rewrite Dm in Hqw. done.
  - by rewrite fmap_app, Hnum, Dn, length_app, seq_app, fmap_app.
  - rewrite length_app. done.
Qed.

(** The octets up to the end of a payload of the packet. *)
Lemma packet_up_to_safe {E} p0 md pd : md_ok p0 md -> payload_in (md_ps md) (start p0) (roof p0) pd ->
  exists bs iv, packet_up_to (E := E) md pd = Ok (bs, iv) /\ Forall byteZ bs /\ 0 <= iv /\
    start p0 + Z.of_nat (length bs) <= roof p0.
Proof.
  intros [Hm Hp0 Hw0 Hsz _ _ _ _] (q&Hq&(Hq1&Hq2&Hqm)&Hlo&Hhi). unfold packet_up_to.
  rewrite (get_pbs_at _ _ _ Hp0), bind_Ok, (get_pbs_at _ _ _ Hq), bind_Ok. destruct Hw0 as (H1&H2&H3).
  destruct (load_bytes_mapped (ps_mem (md_ps md)) (start p0) (Z.to_nat (roof q - start p0))) as [bs Hbs].
  { intros x Hx. apply H3. lia. }
  rewrite Hbs. run_ok. eexists _, _. split; [done|]. split; [by eapply load_bytes_ok|].
  apply length_load_bytes in Hbs. rewrite Hbs. lia.
Qed.

(** The payloads on a chain are of its type. *)
Lemma chain_head d np pd l : chain d np = pd :: l -> pd ∈ d /\ pd_np pd = np.
Proof.
  intros H. assert (pd ∈ chain d np) as Hin by (rewrite H; by left). unfold chain in Hin. apply list_elem_of_filter in Hin as [? ?]. done.
Qed.

(** Members are fetched in the order of the descriptor. *)
Lemma member_num fp v : fd_type fp <> ft_zig -> fd_type fp <> ft_raw -> member_ok fp v -> exists n, v = FNum n /\ 0 <= n < 2 ^ (8 * fd_size fp).
Proof. unfold member_ok. destruct (fd_type fp); try done; eauto. Qed.

Lemma skf_members pd : pd_shape pd -> pd_np pd = ISAKMP_NEXT_v2SKF ->
  exists np a b number total, pd_payload pd = [FNum np; a; b; FNum number; FNum total] /\ 0 <= number.
Proof.
  intros (sd&Hsd&Hm) Hnp. rewrite Hnp in Hsd. vm_compute in Hsd. injection Hsd as <-. cbn [removelast sd_fields] in Hm.
  repeat match goal with
  | H : Forall2 _ (_ :: _) _ |- _ => apply Forall2_cons_inv_l in H as (?&?&?&?&->)
  | H : Forall2 _ [] _ |- _ => apply Forall2_nil_inv_l in H as ->
  | H : member_ok _ _ |- _ => apply member_num in H as (?&->&?); [|done|done]
  end. repeat eexists. lia.
Qed.

Lemma first_member pd : pd_shape pd -> pd_np pd = ISAKMP_NEXT_v2SK -> is_Some (generic_np (pd_payload pd)).
Proof.
  intros (sd&Hsd&Hm) Hnp. rewrite Hnp in Hsd. vm_compute in Hsd. injection Hsd as <-. cbn [removelast sd_fields] in Hm.
  apply Forall2_cons_inv_l in Hm as (v&l&Hv&_&->). apply member_num in Hv as (n&->&_); [|done|done]. by eexists.
Qed.

Section message.
Context {E : Type} (p0 : pb_stream) (md : msg_digest) (Hmd : md_ok p0 md) (Hin : in_packet p0 md).

Lemma payload_of pd : pd ∈ md_digest md -> pd_shape pd /\ payload_in (md_ps md) (start p0) (roof p0) pd.
Proof.
  intros Hpd. split; [|by apply (proj1 (Forall_forall _ _) Hin)].
  by apply (proj1 (Forall_forall _ _) (md_streams _ _ Hmd)).
Qed.

Lemma skf_safe : chain (md_digest md) ISAKMP_NEXT_v2SKF <> [] ->
  exists skf, skf_of_md (E := E) md = Ok skf /\ 0 <= isaskf_number skf /\ Forall byteZ (skf_packet skf) /\ 0 <= skf_iv skf /\
    Z.of_nat (length (skf_packet skf)) < 2 ^ 16.
Proof.
  intros Hne. unfold skf_of_md. destruct (chain (md_digest md) ISAKMP_NEXT_v2SKF) as [|pd l] eqn:Hc; [done|].
  destruct (chain_head _ _ _ _ Hc) as [[Hsh Hpi]%payload_of Hnp]. cbn [head defined]. rewrite bind_Ok.
  destruct (packet_up_to_safe (E := E) _ _ _ Hmd Hpi) as (bs&iv&->&Hb&Hiv&Hl). rewrite bind_Ok.
  destruct (skf_members _ Hsh Hnp) as (np&a&b&number&total&->&Hn). eexists. split; [done|]. cbn.
  pose proof (md_size _ _ Hmd). split; [lia|]. split; [done|]. lia.
Qed.
End message.

Lemma collect_safe skf f b f' : 0 <= isaskf_number skf -> Forall byteZ (skf_packet skf) -> 0 <= skf_iv skf ->
  Z.of_nat (length (skf_packet skf)) < 2 ^ 16 -> frags_ok f -> ikev2_collect_fragment skf f = (b, f') ->
  frags_ok f' /\ st_sk f' = st_sk f /\ (b = true -> ikev2_frags f' <> []).
Proof.
  intros Hn Hb Hiv Hl [Hinv Hok] Hc. destruct (collected _ _ _ _ Hn Hinv Hc) as [Hinv' Hfull].
  split; [split; [done|]|].
  - unfold ikev2_collect_fragment in Hc. destruct (ikev2_check_fragment skf f) as [good f1] eqn:Hcheck.
    assert (Forall frag_ok (ikev2_frags f1)) as Hok1.
    { unfold ikev2_check_fragment in Hcheck. repeat case_match; simplify_eq; (by constructor) || congruence. }
    assert (Forall frag_ok (insert_frag (mk_frag (isaskf_np skf) (isaskf_number skf) (isaskf_total skf) (skf_iv skf) (skf_packet skf)) (ikev2_frags f1))) as Hins.
    { rewrite insert_frag_perm. by constructor. }
    destruct good; cbn [negb] in Hc; [|by simplify_eq]. destruct (_ <? _) in Hc; simplify_eq; done.
  - split; [|intros Ht; destruct (Hfull Ht) as [_ Hlen]; intros Hnil; rewrite Hnil in Hlen; cbn in Hlen; lia].
    unfold ikev2_collect_fragment, ikev2_check_fragment in Hc. repeat case_match; simplify_eq; done.
Qed.

(** * Decrypting a message *)

(** Where the plain text is, if there is any. *)
Definition plain_at (m : mem) (plain : option (Z * Z * Z)) : Prop :=
  match plain with
  | Some (_, addr, len) => wf_pbs m (init_pbs addr len "cleartext")
  | None => True
  end.

Definition grown (m m' : mem) : Prop := mem_ok m' /\ forall x, is_Some (m !! x) -> is_Some (m' !! x).

(** An object with other fragments and the same keys. *)
Lemma frags_world w sn st f : world_ok w -> table_map w !! sn = Some st -> frags_ok f -> st_sk f = st_sk (st_frag st) ->
  world_ok (modify sn (set_frag f) w) /\ same_objects w (modify sn (set_frag f) w).
Proof.
  intros Hw Hst Hf Hk.
  assert (forall s, table_map w !! sn = Some s -> similar s (set_frag f s)) as Hsim.
  { intros s Hs. rewrite Hst in Hs. injection Hs as <-. split; [done|]. split; [done|]. cbn. by rewrite Hk. }
  split; [apply modify_world; try done|by apply modify_same].
  intros s Hs [Hs1 Hs2 Hs3]. rewrite Hst in Hs. injection Hs as <-. split; [|done|done]. cbn. by rewrite Hk.
Qed.

Lemma buffer_grown a bs m : Forall byteZ bs -> mem_ok m -> grown m (buffer a bs ∪ m).
Proof.
  intros Hb Hm. split.
  - apply map_Forall_union_2; [by apply buffer_ok|done].
  - intros x [v Hv]. rewrite lookup_union, Hv. destruct (buffer a bs !! x); cbn; eauto.
Qed.


Section decrypt.
Context {E : Type} (p0 : pb_stream) (md : msg_digest) (Hmd : md_ok p0 md) (Hin : in_packet p0 md).
Context (w : states) (Hw : world_ok w) (sn : Z) (st : state) (Hst : table_map w !! sn = Some st).

Definition decrypted (r : option (Z * Z * Z) * mem * states) : Prop :=
  plain_at r.1.2 r.1.1 /\ grown (ps_mem (md_ps md)) r.1.2 /\ world_ok r.2 /\ same_objects w r.2.

(** The fragments of a message are joined and decrypted. *)
Lemma decrypt_skf_safe : chain (md_digest md) ISAKMP_NEXT_v2SKF <> [] -> ikev2_frags (st_frag st) <> [] ->
  exists r, decrypt_sk (E := E) sn md w = Ok r /\ decrypted r.
Proof.
  intros Hc Hf. unfold decrypt_sk. destruct (family_sk_safe (E := E) w Hw sn st Hst) as (sk&->&Hsk). rewrite bind_Ok.
  destruct (chain _ ISAKMP_NEXT_v2SKF) as [|pd0 l0]; [done|]. rewrite (table_get _ _ _ Hst), bind_Ok.
  destruct (world_states _ Hw _ _ Hst) as [_ [Hfi Hfo] _].
  destruct (reassemble_safe (E := E) (md_original_role md) (set_sk sk (st_frag st))) as (f&r&->&[Hfi' Hfo']&Hr); [done|by split|done|].
  rewrite bind_Ok. destruct (frags_world w sn st (set_sk (st_sk (st_frag st)) f) Hw Hst) as [Hw' Hsame]; [by split|done|].
  pose proof (md_mem _ _ Hmd) as Hm. destruct r as [[np text]|]; [|by eexists]. destruct Hr as [Hb Hl].
  assert (exists np', (match chain (md_digest md) ISAKMP_NEXT_v2SK with [] => Ok np | pd :: _ => defined (generic_np (pd_payload pd)) end) = Ok (E := E) np') as [np' ->].
  { destruct (chain _ ISAKMP_NEXT_v2SK) as [|pd l] eqn:Hsk'; [by eexists|]. destruct (chain_head _ _ _ _ Hsk') as [[Hsh _]%(payload_of p0 md Hmd Hin) Hnp].
    destruct (first_member _ Hsh Hnp) as [n ->]. by eexists. }
  rewrite bind_Ok. eexists. split; [done|]. split; [|split; [by apply buffer_grown|done]].
  cbn. pose proof (md_raw _ _ Hmd). split; cbn; [lia|]. split; [lia|].
  intros x Hx. destruct (buffer_mapped (raw_packet md) text x Hx) as [v Hv]. rewrite lookup_union, Hv. destruct (ps_mem _ !! x); cbn; eauto.
Qed.

(** The payload is decrypted in place. *)
Lemma decrypt_in_place_safe : chain (md_digest md) ISAKMP_NEXT_v2SKF = [] -> chain (md_digest md) ISAKMP_NEXT_v2SK <> [] ->
  exists r, decrypt_sk (E := E) sn md w = Ok r /\ decrypted r.
Proof.
  intros Hc Hs. unfold decrypt_sk. destruct (family_sk_safe (E := E) w Hw sn st Hst) as (sk&->&Hsk). rewrite bind_Ok, Hc.
  destruct (chain _ ISAKMP_NEXT_v2SK) as [|pd l] eqn:Hch; [done|]. destruct (chain_head _ _ _ _ Hch) as [[Hsh Hpi]%(payload_of p0 md Hmd Hin) Hnp].
  rewrite (get_pbs_at _ _ _ (md_packet _ _ Hmd)), bind_Ok.
  destruct (packet_up_to_safe (E := E) _ _ _ Hmd Hpi) as (bs&iv&->&Hb&Hiv&Hl). rewrite bind_Ok.
  destruct (verify_safe (E := E) sk (md_original_role md) bs iv Hsk Hb Hiv) as ([bs' plain]&->&H1&H2&H3). cbn [fst snd] in *. rewrite bind_Ok.
  destruct (md_packet_wf _ _ Hmd) as (W1&W2&W3).
  destruct (store_bytes_some (ps_mem (md_ps md)) (start p0) bs') as [m' Hm']; [intros x Hx; apply W3; lia|].
  rewrite Hm'. run_ok.
  assert (grown (ps_mem (md_ps md)) m') as Hg.
  { split; [by eapply store_bytes_ok; [|apply Hmd|]|]. intros x. by apply (store_bytes_dom _ _ _ _ x Hm'). }
  pose proof (same_objects_refl w) as Hrefl. destruct plain as [text|]; [|by eexists].
  destruct (first_member _ Hsh Hnp) as [n ->]. run_ok. eexists. split; [done|]. split; [|by split].
  destruct H3 as (_&Hwi&Hle). cbn. split; cbn; [lia|]. split; [lia|]. intros x Hx. apply Hg, W3. lia.
Qed.

Lemma decrypt_msg_safe : (chain (md_digest md) ISAKMP_NEXT_v2SKF <> [] -> ikev2_frags (st_frag st) <> []) ->
  (chain (md_digest md) ISAKMP_NEXT_v2SKF = [] -> chain (md_digest md) ISAKMP_NEXT_v2SK <> []) ->
  exists s md' w', ikev2_decrypt_msg (E := E) None sn md w = Ok (s, md', w') /\
    md_ok p0 md' /\ md_hdr md' = md_hdr md /\ world_ok w' /\ same_objects w w'.
Proof.
  intros H1 H2. unfold ikev2_decrypt_msg.
  assert (exists r, decrypt_sk (E := E) sn md w = Ok r /\ decrypted r) as ([[plain m] w1]&->&Hp&[Hmo Hg]&Hw1&Hsame).
  { destruct (chain (md_digest md) ISAKMP_NEXT_v2SKF) as [|pd l] eqn:Hc; [by apply decrypt_in_place_safe; auto|].
    apply decrypt_skf_safe; [by rewrite Hc|by apply H1]. }
  cbn [fst snd] in *. rewrite bind_Ok. destruct Hmd as [Gm Gp Gw Gs Gst Gn Gl Gr].
  assert (md_ok p0 (set_payloads (md_digest md) (mk_ps m (ps_pbs (md_ps md))) md)) as Hmd1.
  { split; cbn; try done; [by eapply wf_pbs_same|]. eapply Forall_impl; [exact Gst|]. intros pd (Hsh&q&Hq&Hqw). split; [done|].
    exists q. split; [done|]. by eapply wf_pbs_same. }
  destruct plain as [[[np addr] len]|]; [|by eexists _, _, _].
  set (md1 := set_payloads (md_digest md) (put_pbs 2 (init_pbs addr len "cleartext") (mk_ps m (ps_pbs (md_ps md)))) md).
  assert (md_ok p0 md1) as Hmd2.
  { destruct Hmd1 as [Fm Fp Fw Fs Fst Fn Fl Fr]. split; cbn in *; try done; [by rewrite lookup_insert_ne|].
    apply Forall_lookup. intros i pd Hi. destruct (proj1 (Forall_lookup _ _) Fst i pd Hi) as (Hsh&q&Hq&Hqw). split; [done|]. exists q. split; [|done].
    rewrite lookup_insert_ne; [done|]. assert (pd_pbs pd ∈ pd_pbs <$> md_digest md) as Hx by (apply list_elem_of_fmap; eauto using list_elem_of_lookup_2).
    rewrite Fn in Hx. apply list_elem_of_fmap in Hx as (k&->&_). done. }
  destruct (decode_safe (E := E) p0 md1 2 (init_pbs addr len "cleartext") np Hmd2 ltac:(lia) ltac:(apply lookup_insert_eq) Hp) as (s&d&ps'&extra&Hd&D&Hmd3).
  cbn [md1 md_digest md_ps set_payloads] in Hd, Hmd3. rewrite Hd, bind_Ok. eexists _, _, _. split; [done|]. done.
Qed.
End decrypt.

(** * The loop over the table *)

(** The message goes no further. *)
Definition ends (a : v2_action) : Prop := match a with Processed _ _ => False | _ => True end.

Lemma land_P s n : 0 <= PINDEX n -> (Z.land s (P n) =? 0) = negb (member s n).
Proof.
  intros Hn. apply eq_iff_eq_true. rewrite Z.eqb_eq, negb_true_iff. unfold member. split.
  - intros H. apply (f_equal (fun z => Z.testbit z (PINDEX n))) in H. rewrite Z.land_spec, P_testbit_payload, Z.testbit_0_l in H by done.
    rewrite bool_decide_true in H by done. by rewrite andb_true_r in H.
  - intros H. apply Z.bits_inj'. intros i Hi. rewrite Z.land_spec, P_testbit, Z.testbit_0_l by done.
    case_bool_decide; [subst; by rewrite H|by rewrite andb_false_r].
Qed.

(** The summary [s] tells what was found in the packet. *)
Record clear_ok (p0 : pb_stream) (md : msg_digest) (s : payloads_summary) : Prop := {
  clear_in_packet : in_packet p0 md;
  clear_seen : forall n, 0 <= PINDEX n -> member (sum_seen s) n = true <-> chain (md_digest md) n <> []
}.

Record vars_ok (p0 : pb_stream) (k : state_kind) (st : option Z) (v : svm_vars) : Prop := {
  vars_md : md_ok p0 (v_md v);
  vars_world : world_ok (v_states v);
  vars_st : match st with Some sn => exists s, table_map (v_states v) !! sn = Some s /\ st_state s = k | None => True end;
  vars_fresh : clear_payload_summary v = None ->
    encrypted_payload_summary v = None /\ md_digest (v_md v) = [] /\
    exists p1, ps_pbs (md_ps (v_md v)) !! 1%nat = Some p1 /\ wf_pbs (ps_mem (md_ps (v_md v))) p1 /\ start p0 <= cur p1 /\ roof p1 <= roof p0;
  vars_clear : forall s, clear_payload_summary v = Some s -> encrypted_payload_summary v = None -> sum_status s = STF_OK -> clear_ok p0 (v_md v) s
}.

Section round.
Context {E : Type} (p0 : pb_stream) (k : state_kind) (st : option Z).

(** The clear payloads are split once. *)
Lemma unpack_clear_safe v : vars_ok p0 k st v ->
  exists s v1, unpack_clear (E := E) v = Ok (s, v1) /\ vars_ok p0 k st v1 /\ clear_payload_summary v1 = Some s /\
    md_hdr (v_md v1) = md_hdr (v_md v).
Proof.
  intros Hv. unfold unpack_clear. destruct (clear_payload_summary v) as [s|] eqn:Hcs; [by exists s, v|]. destruct Hv as [Hmd Hw Hst Hf Hc].
  destruct (Hf Hcs) as (He&Hd&p1&Hp1&Hw1&Hlo&Hhi).
  destruct (decode_safe (E := E) p0 (v_md v) 1 p1 (isa_np (md_hdr (v_md v))) Hmd ltac:(lia) Hp1 Hw1) as (s&d&ps'&extra&->&D&Hmd').
  rewrite Hd in *. cbn [app length] in *. rewrite bind_Ok. eexists _, _. split; [done|]. split; [|done].
  split; cbn [v_md v_states clear_payload_summary encrypted_payload_summary]; try done.
  intros s' [= <-] _ Hs. pose proof (decoded_extra _ _ _ _ _ _ _ _ _ D Hs) as ->. split.
  - eapply Forall_impl; [apply (decoded_streams _ _ _ _ _ _ _ _ _ D)|]. intros pd (q&Hq&Hqw&?&?). exists q. cbn. split; [done|]. split; [done|]. lia.
  - intros n Hn. cbn [md_digest set_payloads]. destruct (decoded_members n D Hn) as [-> _]. unfold occurrences. cbn. rewrite Nat.add_0_r. apply chain_some.
Qed.

(** A message that passes the check with SK required has an encrypted payload or a fragment. *)
Lemma has_encrypted md s e : clear_ok p0 md s -> err_status (ikev2_verify_payloads s e) = STF_OK -> member (required e) ISAKMP_NEXT_v2SK = true ->
  chain (md_digest md) ISAKMP_NEXT_v2SKF = [] -> chain (md_digest md) ISAKMP_NEXT_v2SK <> [].
Proof.
  intros [_ Hs] Hv Hr Hc. apply (proj1 (verify_payloads_ok _ _)) with (n := ISAKMP_NEXT_v2SK) in Hv as (_&Hv&_); [|done].
  apply Hv in Hr. rewrite skf_as_sk_member, Z.eqb_refl, orb_true_iff in Hr by done. destruct Hr as [Hr|Hr]; apply Hs in Hr; done.
Qed.

(** The endpoints of an object are not its identity. *)
Lemma update_endpoints_safe md sn w : world_ok w -> world_ok (update_endpoints md sn w) /\ same_objects w (update_endpoints md sn w).
Proof.
  intros Hw. unfold update_endpoints. set (f := fun s => if nated_host s then s else _).
  assert (keeps_identity f) as Hid by (intros s; unfold f, update_ike_endpoints; repeat case_match; done).
  assert (forall s, table_map w !! sn = Some s -> similar s (f s)) as Hsim by (intros s _; unfold f, update_ike_endpoints; repeat case_match; done).
  split; [|by apply modify_same]. apply modify_world; try done.
  intros s _ [H1 [H2 H3] H4]. unfold f, update_ike_endpoints. repeat case_match; split; try done; by split.
Qed.

(** Fragments are collected, and the message is decrypted once. *)
Lemma unpack_encrypted_safe svm sn s v e : vars_ok p0 k (Some sn) v -> clear_payload_summary v = Some s -> sum_status s = STF_OK ->
  err_status (ikev2_verify_payloads s e) = STF_OK -> member (required e) ISAKMP_NEXT_v2SK = true ->
  exists r, unpack_encrypted (E := E) svm sn s v = Ok r /\
    match r with
    | inl (res, v2) => vars_ok p0 k (Some sn) v2 /\ md_hdr (v_md v2) = md_hdr (v_md v) /\ match res with Break svm' => svm' = svm | Return a => ends a | Roof => True end
    | inr (_, v2) => vars_ok p0 k (Some sn) v2 /\ md_hdr (v_md v2) = md_hdr (v_md v)
    end.
Proof.
  intros Hv Hcs Hs Hver Hreq. unfold unpack_encrypted. destruct (encrypted_payload_summary v) as [enc|] eqn:Hes; [by eexists|].
  destruct Hv as [Hmd Hw (st0&Hst&Hk0) Hf Hc]. pose proof (Hc s Hcs Hes Hs) as Hok. pose proof Hok as [Hin Hseen].
  rewrite land_P by done. rewrite negb_involutive.
  assert (exists complete w1 st1, (if member (sum_seen s) ISAKMP_NEXT_v2SKF then
      skf ← skf_of_md (v_md v); st ← get_state sn (v_states v);
      let '(complete, f) := ikev2_collect_fragment skf (st_frag st) in Ok (complete, modify sn (set_frag f) (v_states v))
      else Ok (true, v_states v)) = Ok (E := E) (complete, w1) /\ world_ok w1 /\ table_map w1 !! sn = Some st1 /\ st_state st1 = k /\
      (complete = true -> chain (md_digest (v_md v)) ISAKMP_NEXT_v2SKF <> [] -> ikev2_frags (st_frag st1) <> [])) as (complete&w1&st1&->&Hw1&Hst1&Hk1&Hfr).
  { destruct (member (sum_seen s) ISAKMP_NEXT_v2SKF) eqn:Hm.
    - apply Hseen in Hm; [|done]. destruct (skf_safe (E := E) p0 (v_md v) Hmd Hin Hm) as (skf&->&K1&K2&K3&K4). rewrite bind_Ok, (table_get _ _ _ Hst), bind_Ok.
      destruct (ikev2_collect_fragment skf (st_frag st0)) as [complete f] eqn:Hcol.
      destruct (collect_safe _ _ _ _ K1 K2 K3 K4 (state_frags _ (world_states _ Hw _ _ Hst)) Hcol) as (Hfo&Hsk&Hne).
      destruct (frags_world _ _ _ f Hw Hst Hfo Hsk) as [Hw1 _]. eexists _, _, (set_frag f st0). split; [done|]. split; [done|]. split; [|split; [done|auto]].
      rewrite table_map_modify, lookup_alter_eq, Hst. done.
    - exists true, (v_states v), st0. split; [done|]. split; [done|]. split; [done|]. split; [done|]. intros _ Hne. apply Hseen in Hne; [|done]. congruence. }
  rewrite bind_Ok. set (v1 := mk_vars _ _ None _ _ w1).
  assert (vars_ok p0 k (Some sn) v1) as Hv1 by (split; cbn; eauto; by rewrite Hcs).
  destruct complete; cbn [negb]; [|by eexists]. destruct (negb _); [by eexists|].
  destruct (decrypt_msg_safe (E := E) p0 (v_md v) Hmd Hin w1 Hw1 sn st1 Hst1) as (s2&md2&w2&->&Hmd2&Hh&Hw2&Hsame);
    [by apply Hfr|by eapply has_encrypted|].
  rewrite bind_Ok. destruct (Hsame _ _ Hst1) as (st2&Hst2&_&Hk2&_). rewrite Hk1 in Hk2.
  assert (forall a b, vars_ok p0 k (Some sn) (mk_vars (clear_payload_summary v) a (Some s2) b md2 w2)) as Hv2
    by (intros a b; split; cbn; eauto; rewrite Hcs; done).
  destruct (negb _); eexists; split; [done|by auto|done|by auto].
Qed.
End round.

Lemma vars_status p0 k st v a b : vars_ok p0 k st v ->
  vars_ok p0 k st (mk_vars (clear_payload_summary v) a (encrypted_payload_summary v) b (v_md v) (v_states v)).
Proof. intros []. by split. Qed.

(** Entries for messages without a state object do not ask for an encrypted payload. *)
Definition unprotected_first (svm : state_v2_microcode) : bool :=
  implb (bool_decide (svm_state svm = STATE_UNDEFINED)) (Z.land (req_clear_payloads svm) (P ISAKMP_NEXT_v2SK) =? 0).

Lemma table_unprotected_first : forallb unprotected_first v2_state_microcode_table = true.
Proof. by vm_compute. Qed.

(** An entry that matches was chosen for its state, or the exchange is CREATE_CHILD_SA. *)
Lemma matches_state md k svm : svm_matches md k svm = true ->
  recv_type svm = isa_xchg (md_hdr md) /\ (svm_state svm = k \/ isa_xchg (md_hdr md) = ISAKMP_v2_CREATE_CHILD_SA).
Proof.
  unfold svm_matches. destruct (_ && _) eqn:H1; [done|]. destruct (negb (recv_type svm =? _)) eqn:H2; [done|]. intros _.
  rewrite negb_false_iff, Z.eqb_eq in H2. split; [done|]. rewrite andb_false_iff, !negb_false_iff, bool_decide_eq_true, Z.eqb_eq in H1. tauto.
Qed.

(** What the loop leaves: a well formed message, and the entry that was chosen. *)
Definition loop_done (p0 : pb_stream) (k : state_kind) (hdr : isakmp_hdr) (st : option Z) (svms : list state_v2_microcode)
    (r : svm_result * svm_vars) : Prop :=
  vars_ok p0 k st r.2 /\ md_hdr (v_md r.2) = hdr /\
  match r.1 with Break svm => svm ∈ svms /\ svm_matches (v_md r.2) k svm = true | Return a => ends a | Roof => True end.

Section loop.
Context {E : Type} (p0 : pb_stream) (from_state : state_kind) (hdr : isakmp_hdr).
#[local] Abbreviation done_at := (loop_done p0 from_state hdr).

Lemma loop_done_cons st svm svms r : done_at st svms r -> done_at st (svm :: svms) r.
Proof. intros (?&?&H). split; [done|]. split; [done|]. destruct (r.1); try done. destruct H. split; [by right|done]. Qed.

Lemma matches_hdr md md' svm : md_hdr md = md_hdr md' -> svm_matches md from_state svm = svm_matches md' from_state svm.
Proof. intros H. unfold svm_matches, is_msg_response, ike_i. by rewrite H. Qed.

Lemma svm_loop_safe st svms v : (st = None -> from_state = STATE_UNDEFINED /\ isa_xchg hdr <> ISAKMP_v2_CREATE_CHILD_SA) ->
  Forall (fun svm => unprotected_first svm = true) svms -> vars_ok p0 from_state st v -> md_hdr (v_md v) = hdr ->
  exists r, svm_loop (E := E) svms from_state st v = Ok r /\ done_at st svms r.
Proof.
  intros Hnone Hs. revert v. induction Hs as [|svm svms Hsvm _ IH]; intros v Hv Hh; cbn [svm_loop]; [by eexists|].
  assert (forall v', vars_ok p0 from_state st v' -> md_hdr (v_md v') = hdr -> exists r, svm_loop (E := E) svms from_state st v' = Ok r /\ done_at st (svm :: svms) r) as IH'.
  { intros v' Hv' Hh'. destruct (IH v' Hv' Hh') as (r&->&Hr). exists r. split; [done|]. by apply loop_done_cons. }
  destruct (svm_matches (v_md v) from_state svm) eqn:Hmatch; cbn [negb]; [|by apply IH'].
  destruct (unpack_clear_safe (E := E) p0 from_state st v Hv) as (s&v1&->&Hv1&Hcs&Hh1). rewrite bind_Ok.
  case_bool_decide as Hst; cbn [negb]; [|eexists; split; [done|]; split; [done|]; split; [cbn; congruence|done]].
  case_bool_decide as Hver; cbn [negb]; [|apply IH'; [by apply vars_status|cbn; congruence]].
  assert (forall v', vars_ok p0 from_state st v' -> md_hdr (v_md v') = md_hdr (v_md v) -> done_at st (svm :: svms) (Break svm, v')) as Hbreak.
  { intros v' Hv' Hh'. split; [done|]. split; [cbn; congruence|]. split; [by left|]. cbn. by rewrite (matches_hdr _ _ _ Hh'). }
  destruct (_ =? 0) eqn:Hsk; [by eexists; eauto|]. rewrite land_P, negb_false_iff in Hsk by done.
  destruct st as [sn|].
  2:{ exfalso. destruct (Hnone eq_refl) as [Hu Hx]. destruct (matches_state _ _ _ Hmatch) as [_ [Hk|Hk]]; [|congruence].
      unfold unprotected_first in Hsvm. rewrite bool_decide_true, land_P, Hsk in Hsvm by (done || congruence). done. }
  run_ok.
  destruct (unpack_encrypted_safe (E := E) p0 from_state svm sn s v1 (mk_expected (req_clear_payloads svm) (opt_clear_payloads svm)) Hv1 Hcs Hst Hver Hsk) as (r&->&Hr). rewrite bind_Ok.
  destruct r as [[res v2]|[enc v2]].
  - destruct Hr as (Hv2&Hh2&Hres). eexists. split; [done|]. destruct res as [| svm' |]; [|subst svm'; apply Hbreak; [done|congruence]|].
    all: split; [done|]; split; [cbn; congruence|done].
  - destruct Hr as (Hv2&Hh2). case_bool_decide; cbn [negb]; [|apply IH'; [by apply vars_status|cbn; congruence]].
    destruct (_ =? _); [|eexists; split; [done|]; apply Hbreak; [done|congruence]].
    destruct Hv2 as [K1 K2 (sx&K3&Kk) K4 K5]. destruct (parent_of_safe (E := E) _ K2 _ _ K3) as (psn&pst&->&_). run_ok.
    eexists. split; [done|]. apply Hbreak; [|cbn; congruence].
    destruct (update_endpoints_safe (v_md v2) psn (v_states v2) K2) as [Hw' Hsame]. destruct (Hsame _ _ K3) as (sy&Hsy&_&Hky&_). rewrite Kk in Hky. split; cbn; eauto.
Qed.
End loop.

(** * Finding the object *)

(** The next worlds: well formed, with the same objects in the heap. *)
Definition after (w w' : states) : Prop :=
  world_ok w' /\ same_objects w w' /\ forall j s, heap w !! j = Some s -> exists s', heap w' !! j = Some s' /\ st_state s' = st_state s.

Lemma after_refl w : world_ok w -> after w w.
Proof. intros H. split; [done|]. split; [apply same_objects_refl|eauto]. Qed.

Lemma after_trans w1 w2 w3 : after w1 w2 -> after w2 w3 -> after w1 w3.
Proof.
  intros (_&H1&H2) (H3&H4&H5). split; [done|]. split; [by eapply same_objects_trans|]. intros j s Hs.
  destruct (H2 _ _ Hs) as (s2&Hs2&E2). destruct (H5 _ _ Hs2) as (s3&Hs3&E3). exists s3. split; [done|congruence].
Qed.

(** Assignments to counters, events and queues. *)
Definition harmless (f : state -> state) : Prop :=
  keeps_identity f /\ forall s, st_clonedfrom (f s) = st_clonedfrom s /\ st_state (f s) = st_state s /\ st_frag (f s) = st_frag s.

Lemma modify_harmless sn f w : harmless f -> world_ok w -> after w (modify sn f w).
Proof.
  intros [Hid Hf] Hw. assert (forall s, similar s (f s)) as Hsim.
  { intros s. destruct (Hf s) as (H1&H2&H3). split; [done|]. split; [done|]. by rewrite H3. }
  split; [|split].
  - apply modify_world; auto. intros s _ [H1 H2 H3]. destruct (Hf s) as (E1&E2&E3). split; [|by rewrite E3|congruence].
    rewrite E3. unfold IS_CHILD_SA. by rewrite E1.
  - apply modify_same; auto.
  - intros j s Hs. cbn. destruct (decide (sn = j)) as [<-|]; [rewrite lookup_alter_eq, Hs; eexists; split; [done|apply Hf]|rewrite lookup_alter_ne by done; eauto].
Qed.

Lemma next_send_safe {E} w sn st : world_ok w -> table_map w !! sn = Some st ->
  exists w', sechdule_next_send (E := E) sn w = Ok w' /\ after w w'.
Proof.
  intros Hw Hst. unfold sechdule_next_send. rewrite (table_get _ _ _ Hst), bind_Ok.
  destruct (send_next_ix st) as [|p rest]; [eexists; split; [done|by apply after_refl]|].
  rewrite state_with_serialno_ok, bind_Ok by apply Hw. eexists. split; [done|]. case_decide.
  - eapply after_trans; [by apply (modify_harmless p (set_event (Some EVENT_v2_SEND_NEXT_IKE)))|]. apply modify_harmless; [done|]. by apply modify_harmless.
  - by apply modify_harmless.
Qed.

Lemma update_msgids_safe {E} md sn st w : world_ok w -> table_map w !! sn = Some st ->
  exists w', ikev2_update_msgid_counters (E := E) md (Some sn) w = Ok w' /\ after w w'.
Proof.
  intros Hw Hst. unfold ikev2_update_msgid_counters. rewrite (table_get _ _ _ Hst), bind_Ok.
  destruct (parent_of_safe (E := E) w Hw sn st Hst) as (psn&pst&->&Hp&_). run_ok.
  set (f := fun i => set_msgids _ i). assert (after w (modify psn f w)) as Ha by by apply modify_harmless.
  pose proof Ha as (Hw1&Hsame&_). destruct (Hsame _ _ Hp) as (pst'&Hp'&_). rewrite (table_get _ _ _ Hp'), bind_Ok.
  destruct (_ <? _); [|by eexists]. destruct (next_send_safe (E := E) _ _ _ Hw1 Hp') as (w'&->&Ha'). eexists. split; [done|]. by eapply after_trans.
Qed.

(** One object is replaced by a similar one. *)
Lemma world_update w w' sn st st' : world_ok w -> table_ok w' -> table_map w !! sn = Some st ->
  table_map w' = <[sn := st']> (table_map w) -> similar st st' -> state_ok st' -> world_ok w'.
Proof.
  intros Hw Ht Hst Hmap Hsim Hok. pose proof Hsim as (Hc&_&Hk). destruct Hw as [_ _ Hs Hf]. split; [done| | |].
  - assert (table_map w' !! sn = Some st') as [Hh _]%table_map_lookup by (rewrite Hmap; apply lookup_insert_eq).
    apply (table_heap _ Ht) in Hh as [_ Hn]. unfold SOS_FIRST in Hn. lia.
  - intros j s. rewrite Hmap. destruct (decide (sn = j)) as [<-|]; [rewrite lookup_insert_eq; by intros [= <-]|].
    rewrite lookup_insert_ne by done. apply Hs.
  - intros j s. rewrite Hmap. intros Hj Hchild.
    assert (exists s0, table_map w !! j = Some s0 /\ similar s0 s) as (s0&Hs0&Hc0&_&Hk0).
    { destruct (decide (sn = j)) as [<-|]; [rewrite lookup_insert_eq in Hj; injection Hj as <-; by exists st|].
      rewrite lookup_insert_ne in Hj by done. eauto using similar_refl. }
    unfold IS_CHILD_SA in Hchild. rewrite Hc0 in Hchild. destruct (Hf _ _ Hs0 Hchild) as (pst&Hp&Hpc&Hpk). rewrite Hc0, Hk0.
    destruct (decide (sn = st_clonedfrom s0)) as [->|]; [|rewrite lookup_insert_ne by done; eauto].
    rewrite lookup_insert_eq. rewrite Hst in Hp. injection Hp as ->. exists st'. split; [done|]. unfold IS_CHILD_SA in *. by rewrite Hc, Hk.
Qed.

Lemma find_v2_state_safe {E} md w : world_ok w ->
  exists r w1, find_v2_state (E := E) md w = Ok (r, w1) /\ world_ok w1 /\
    match r with inl a => ends a | inr (Some sn) => is_Some (table_map w1 !! sn) | inr None => True end.
Proof.
  intros Hw. pose proof (world_table _ Hw) as Ht. unfold find_v2_state. destruct (_ =? ISAKMP_v2_SA_INIT).
  - destruct (find_in_init_ok (E := E) w (isa_icookie (md_hdr md)) (if ike_i md then STATE_PARENT_R1 else STATE_PARENT_I1) Ht) as (r&->&Hr).
    rewrite bind_Ok. destruct r as [sn|]; [|by eexists _, _]. destruct Hr as (st&Hst&_). destruct (is_initiator _).
    + destruct (rehash_state_ok (E := E) w sn st (isa_rcookie (md_hdr md)) Ht Hst) as (w1&->&Ht1&Hmap). rewrite bind_Ok.
      eexists _, _. split; [done|]. split; [|rewrite Hmap, lookup_insert_eq; eauto].
      eapply world_update; [done|done|done|exact Hmap| |]; [unfold similar, ensured; by case_match|].
      destruct (world_states _ Hw _ _ Hst). unfold ensured. case_match; by split.
    + rewrite (table_get _ _ _ Hst), bind_Ok. destruct (_ =? _); eexists _, _; (split; [done|]; split; [done|]); [by case_match|eauto].
  - destruct (negb _).
    + destruct (find_parent_ok (E := E) w (isa_icookie (md_hdr md)) (isa_rcookie (md_hdr md)) Ht) as (r&->&Hr). rewrite bind_Ok.
      destruct r as [sn|]; [|by eexists _, _]. destruct Hr as (st&Hst&_). rewrite (table_get _ _ _ Hst), bind_Ok.
      eexists _, _. split; [done|]. split; [done|]. unfold check_request, proces_recent_rtransmit. repeat case_match; simplify_eq; done || eauto.
    + destruct (find_child_ok (E := E) w (isa_icookie (md_hdr md)) (isa_rcookie (md_hdr md)) (isa_msgid (md_hdr md)) Ht) as (r&->&Hr). rewrite bind_Ok.
      destruct r as [sn|]; [destruct Hr as (st&Hst&_); by eexists _, _; eauto|]. clear Hr.
      destruct (find_parent_ok (E := E) w (isa_icookie (md_hdr md)) (isa_rcookie (md_hdr md)) Ht) as (r&->&Hr). rewrite bind_Ok.
      destruct r as [sn|]; [|by eexists _, _]. destruct Hr as (st&Hst&_). rewrite (table_get _ _ _ Hst), bind_Ok.
      eexists _, _. split; [done|]. split; [done|]. unfold check_response. repeat case_match; simplify_eq; done || eauto.
Qed.

(** * Starting the transition function *)

(** A child of an object of the table is put into it. *)
Lemma world_insert w w' psn pst sn st : world_ok w -> table_ok w' -> table_map w !! psn = Some pst -> IS_CHILD_SA pst = false ->
  table_map w !! sn = None -> table_map w' = <[sn := st]> (table_map w) -> st_clonedfrom st = psn -> state_ok st ->
  (st_skeyid_calculated (st_sk (st_frag st)) = true -> st_skeyid_calculated (st_sk (st_frag pst)) = true) -> world_ok w'.
Proof.
  intros Hw Ht Hp Hpc Hnew Hmap Hcl Hok Hk. destruct Hw as [_ _ Hs Hf]. split; [done| | |].
  - assert (table_map w' !! sn = Some st) as [Hh _]%table_map_lookup by (rewrite Hmap; apply lookup_insert_eq).
    apply (table_heap _ Ht) in Hh as [_ Hn]. unfold SOS_FIRST in Hn. lia.
  - intros j s. rewrite Hmap. destruct (decide (sn = j)) as [<-|]; [rewrite lookup_insert_eq; by intros [= <-]|].
    rewrite lookup_insert_ne by done. apply Hs.
  - intros j s. rewrite Hmap. destruct (decide (sn = j)) as [<-|].
    + rewrite lookup_insert_eq. intros [= <-] _. exists pst. rewrite lookup_insert_ne by congruence. rewrite Hcl. done.
    + rewrite lookup_insert_ne by done. intros Hj Hc. destruct (Hf _ _ Hj Hc) as (q&Hq&Hqc). exists q. rewrite lookup_insert_ne by congruence. done.
Qed.

(** An object that is not in the table yet does not matter. *)
Lemma world_same w w' sn st : world_ok w -> table_ok w' -> table_map w' = table_map w -> heap w' !! sn = Some st -> world_ok w'.
Proof.
  intros [_ _ Hs Hf] Ht Hmap Hh. apply (table_heap _ Ht) in Hh as [_ Hn]. unfold SOS_FIRST in Hn. split; [done|lia| |]; rewrite Hmap; done.
Qed.

(** A new child, in a state of its own. *)
Lemma new_child_ok nst k : IS_CHILD_SA nst = true -> ikev2_frags (st_frag nst) = [] -> k <> STATE_UNDEFINED -> state_ok (ensured (set_state k nst)).
Proof.
  intros Hc Hf Hk. assert (state_ok (set_state k nst)) as [] by (split; [intros H; change (IS_CHILD_SA nst = false) in H; congruence|split; cbn; rewrite Hf; [split; [constructor|by exists 0]|constructor]|done]).
  unfold ensured. case_match; by split.
Qed.

Lemma ensured_same st : st_clonedfrom (ensured st) = st_clonedfrom st /\ st_frag (ensured st) = st_frag st /\ st_state (ensured st) = st_state st.
Proof. unfold ensured. by case_match. Qed.

Lemma child_ix_safe {E} no_keys md k sn st w : world_ok w -> table_map w !! sn = Some st ->
  (is_msg_request md = true -> k = STATE_V2_CREATE_R \/ k = STATE_V2_REKEY_IKE_R) ->
  exists r w', process_v2_child_ix (E := E) no_keys md k sn w = Ok (r, w') /\ world_ok w' /\ is_Some (table_map w' !! sn) /\
    match r with Some csn => exists s, heap w' !! csn = Some s /\ st_state s = k | None => True end.
Proof.
  intros Hw Hst Hk0. unfold process_v2_child_ix. pose proof (world_table _ Hw) as Ht.
  destruct (parent_of_safe (E := E) w Hw sn st Hst) as (psn&pst&->&Hp&Hpc&_). rewrite bind_Ok. cbn [defined]. rewrite bind_Ok, (table_get _ _ _ Hp), bind_Ok.
  destruct (proj1 (table_map_lookup _ _ _) Hp) as [Hph _]. destruct (table_heap _ Ht _ _ Hph) as [Hser Hpsn].
  assert (forall ipsec, exists w1 nst, duplicate_state (E := E) no_keys psn ipsec w = Ok (next_so w, w1) /\ table_ok w1 /\ table_map w1 = table_map w /\
    heap w1 = <[next_so w := nst]> (heap w) /\ next_so w ∉ concat (statetable w1) /\ st_clonedfrom nst = psn /\ ikev2_frags (st_frag nst) = [] /\
    st_skeyid_calculated (st_sk (st_frag nst)) = st_skeyid_calculated (st_sk (st_frag pst))) as Hdup.
  { intros ipsec. destruct (duplicate_state_ok (E := E) w psn pst no_keys ipsec Ht Hph (world_next _ Hw)) as (w1&nst&?&?&?&?&?&?&?&?&_).
    exists w1, nst. rewrite <- Hser. split_and!; congruence || done. }
  assert (table_map w !! next_so w = None) as Hfree.
  { apply eq_None_not_Some. intros [s [Hs _]%table_map_lookup]. apply (table_heap _ Ht) in Hs. lia. }
  destruct (is_msg_request md).
  - case_bool_decide as Hkc.
    + destruct (Hdup true) as (w1&nst&->&Ht1&Hmap1&Hh1&Hn1&Hcl&Hfr&Hk). rewrite bind_Ok.
      assert (heap (change_state STATE_V2_CREATE_R (next_so w) w1) !! next_so w = Some (set_state STATE_V2_CREATE_R nst)) as Hh2
        by (cbn; rewrite lookup_alter_eq, Hh1, lookup_insert_eq; done).
      destruct (insert_state_ok (E := E) (change_state STATE_V2_CREATE_R (next_so w) w1) (next_so w) _ ltac:(by apply modify_ok) Hh2 Hn1) as (w2&->&Ht2&Hmap2&Hheap2).
      unfold change_state in Hmap2. rewrite table_map_modify, Hmap1, alter_id in Hmap2 by (by rewrite Hfree). rewrite bind_Ok.
      eexists _, _. split; [done|]. rewrite Hmap2, Hheap2, lookup_alter_eq, Hh2. destruct (ensured_same (set_state STATE_V2_CREATE_R nst)) as (Ec&Ef&Es). split; [|split; [|eexists; split; [done|by rewrite Es]]].
      *        apply (world_insert w w2 psn pst (next_so w) (ensured (set_state STATE_V2_CREATE_R nst))); try done; [by rewrite Ec| |by rewrite Ef; cbn; rewrite Hk].
        apply new_child_ok; [|done|done]. unfold IS_CHILD_SA, SOS_NOBODY. rewrite Hcl. unfold SOS_FIRST in Hpsn. apply negb_true_iff, Z.eqb_neq. lia.
      * rewrite lookup_insert_ne by congruence. eauto.
    + destruct (Hdup false) as (w1&nst&->&Ht1&Hmap1&Hh1&Hn1&Hcl&Hfr&Hk). rewrite bind_Ok. eexists _, _. split; [done|].
      unfold change_state. rewrite table_map_modify, Hmap1, alter_id by (by rewrite Hfree). cbn [heap modify set_heap]. rewrite lookup_alter_eq, Hh1, lookup_insert_eq.
      split; [|split; [by eexists|]]; [|eexists; split; [done|]; by destruct (Hk0 eq_refl)].
      apply (world_same w _ (next_so w) (set_state STATE_V2_REKEY_IKE_R nst)); [done|by apply modify_ok| |].
      * by rewrite table_map_modify, Hmap1, alter_id by (by rewrite Hfree).
      * cbn. by rewrite lookup_alter_eq, Hh1, lookup_insert_eq.
  - unfold state_with_parent_msgid_expect. assert ((SOS_FIRST <=? st_serialno pst) = true) as -> by (apply Z.leb_le; lia). run_ok.
    destruct (search_table (E := E) w Ht (fun s => eq_pst_msgid_kind s (st_serialno pst) (isa_msgid (md_hdr md)) k)) as (r&->&Hr). rewrite bind_Ok.
    eexists _, _. split; [done|]. split; [done|]. split; [eauto|]. destruct r as [c|]; [|done]. destruct Hr as (s&[Hs _]%table_map_lookup&Hcond).
    exists s. split; [done|]. unfold eq_pst_msgid_kind in Hcond. by apply andb_true_iff in Hcond as [_ ?%bool_decide_eq_true].
Qed.

(** Requests for CREATE_CHILD_SA are for the two kinds of object that [process_v2_child_ix] makes. *)
Definition child_request (svm : state_v2_microcode) : bool :=
  implb (recv_type svm =? ISAKMP_v2_CREATE_CHILD_SA)
    (negb (Z.land (svm_flags svm) SMF2_MSG_R_SET =? 0) || bool_decide (svm_state svm = STATE_V2_CREATE_R) ||
     bool_decide (svm_state svm = STATE_V2_REKEY_IKE_R)).

Lemma table_child_requests : forallb child_request v2_state_microcode_table = true.
Proof. by vm_compute. Qed.

Lemma matches_request md k svm : svm_matches md k svm = true ->
  match_hdr_flag (svm_flags svm) SMF2_MSG_R_SET (negb (is_msg_response md)) = false.
Proof. unfold svm_matches. intros H. do 4 (case_match; [done|]). by case_match. Qed.

Lemma matched_child_request md k svm : svm ∈ v2_state_microcode_table -> svm_matches md k svm = true ->
  isa_xchg (md_hdr md) = ISAKMP_v2_CREATE_CHILD_SA -> is_msg_request md = true ->
  svm_state svm = STATE_V2_CREATE_R \/ svm_state svm = STATE_V2_REKEY_IKE_R.
Proof.
  intros Hin Hm Hx Hreq. destruct (matches_state _ _ _ Hm) as [Hrt _].
  pose proof (proj1 (forallb_forall _ _) table_child_requests svm (proj1 (list_elem_of_In _ _) Hin)) as Hc.
  unfold child_request in Hc. rewrite Hrt, Hx, Z.eqb_refl in Hc. cbn [implb] in Hc. rewrite !orb_true_iff, !bool_decide_eq_true in Hc.
  destruct Hc as [[Hc|Hc]|Hc]; [|auto..]. exfalso. apply matches_request in Hm. unfold match_hdr_flag in Hm. rewrite Hc in Hm.
  unfold is_msg_request in Hreq. by rewrite Hreq in Hm.
Qed.

(** What an action promises to the transition function: the entry is one of the table for the exchange
    of the message and the state of the object, which is not busy, and the message is well formed. *)
Definition action_ok (p0 : pb_stream) (a : v2_action) (md : msg_digest) (w : states) : Prop :=
  md_ok p0 md /\
  match a with
  | Processed svm st =>
      svm ∈ v2_state_microcode_table /\ recv_type svm = isa_xchg (md_hdr md) /\
      match st with
      | Some sn => (exists s, heap w !! sn = Some s /\ state_busy s = false /\ st_state s = svm_state svm) /\
          (recv_type svm <> ISAKMP_v2_CREATE_CHILD_SA -> is_Some (table_map w !! sn))
      | None => svm_state svm = STATE_UNDEFINED
      end
  | _ => True
  end.

Lemma start_processor_safe {E} p0 no_keys svm st k md w : world_ok w -> md_ok p0 md ->
  svm ∈ v2_state_microcode_table -> svm_matches md k svm = true ->
  match st with
  | Some sn => exists s, table_map w !! sn = Some s /\ st_state s = k
  | None => k = STATE_UNDEFINED /\ isa_xchg (md_hdr md) <> ISAKMP_v2_CREATE_CHILD_SA
  end ->
  exists a w', start_processor (E := E) no_keys svm st md w = Ok (a, md, w') /\ world_ok w' /\ action_ok p0 a md w'.
Proof.
  intros Hw Hmd Hsvm Hm Hst. unfold start_processor. destruct (matches_state _ _ _ Hm) as [Hx Hk].
  assert (forall n w' s, world_ok w' -> heap w' !! n = Some s -> st_state s = svm_state svm ->
    (recv_type svm <> ISAKMP_v2_CREATE_CHILD_SA -> is_Some (table_map w' !! n)) -> exists a,
    (s ← get_state n w'; Ok (if state_busy s then Dropped else Processed svm (Some n), md, w')) = Ok (E := E) (a, md, w') /\ action_ok p0 a md w') as Hcall.
  { intros n w' s Hw' Hs Hks Hin. rewrite (get_state_at _ _ _ Hs), bind_Ok. eexists. split; [done|]. destruct (state_busy s) eqn:Hb; split; eauto 10. }
  destruct (Z.eqb_spec (isa_xchg (md_hdr md)) ISAKMP_v2_CREATE_CHILD_SA) as [Hcc|Hcc].
  - destruct st as [sn|]; [|by destruct Hst]. destruct Hst as (s&Hs&_). run_ok.
    destruct (child_ix_safe (E := E) no_keys md (svm_state svm) sn s w Hw Hs) as (r&w1&->&Hw1&[s1 Hs1]&Hr); [by eapply matched_child_request|]. rewrite bind_Ok.
    destruct r as [csn|]; [|by eexists _, _]. destruct Hr as (c&Hc&Hkc).
    destruct (update_msgids_safe (E := E) md sn s1 w1 Hw1 Hs1) as (w2&->&Hw2&_&Hdom). rewrite bind_Ok.
    destruct (Hdom _ _ Hc) as (c'&Hc'&Hkc'). destruct (Hcall csn w2 c' Hw2 Hc') as (a&->&Ha); [congruence|congruence|]. eauto.
  - destruct Hk as [Hk|]; [|done]. destruct st as [sn|].
    + destruct Hst as (s&Hs&Hks). destruct (proj1 (table_map_lookup _ _ _) Hs) as [Hh _]. destruct (Hcall sn w s Hw Hh) as (a&->&Ha); [congruence|by eexists|]. eauto.
    + destruct Hst as [Hku _]. eexists _, _. split; [done|]. split; [done|]. split; [done|]. split; [done|]. split; [done|congruence].
Qed.

Lemma v2_packet_safe {E} p0 p1 no_keys md w : world_ok w -> md_ok p0 md -> md_digest md = [] ->
  ps_pbs (md_ps md) !! 1%nat = Some p1 -> wf_pbs (ps_mem (md_ps md)) p1 -> start p0 <= cur p1 -> roof p1 <= roof p0 ->
  exists a md' w', process_v2_packet (E := E) no_keys md w = Ok (a, md', w') /\ world_ok w' /\ action_ok p0 a md' w'.
Proof.
  intros Hw Hmd Hd Hp1 Hwf Hlo Hhi. unfold process_v2_packet.
  destruct (find_v2_state_safe (E := E) md w Hw) as (r&w1&->&Hw1&Hr). rewrite bind_Ok. destruct r as [a|st].
  { eexists a, _, _. split; [done|]. split; [done|]. split; [done|]. by destruct a. }
  assert (exists c k, (match st with None => Ok (false, STATE_UNDEFINED) | Some sn => s ← get_state sn w1;
     Ok (negb (bool_decide (st_original_role (st_sk (st_frag s)) = md_original_role md)) &&
       ((isa_xchg (md_hdr md) =? ISAKMP_v2_SA_INIT) || (isa_xchg (md_hdr md) =? ISAKMP_v2_AUTH)), st_state s) end) = Ok (E := E) (c, k) /\
     (st = None <-> k = STATE_UNDEFINED) /\
     match st with Some sn => exists s, table_map w1 !! sn = Some s /\ st_state s = k | None => True end) as (c&k&->&Hk&Hsk).
  { destruct st as [sn|]; [|by eexists _, _]. destruct Hr as [s Hs]. rewrite (table_get _ _ _ Hs), bind_Ok. eexists _, _. split; [done|].
    pose proof (state_defined _ (world_states _ Hw1 _ _ Hs)). split; [done|by eexists]. }
  rewrite bind_Ok. destruct c; [by eexists _, _, _|]. destruct (_ && _) eqn:Hcc; [by eexists _, _, _|].
  assert (Bool.eqb (bool_decide (st = None)) (bool_decide (k = STATE_UNDEFINED)) = true) as ->.
  { apply eqb_true_iff. by apply bool_decide_ext. }
  run_ok.
  assert (st = None -> isa_xchg (md_hdr md) <> ISAKMP_v2_CREATE_CHILD_SA) as Hx.
  { intros -> Hx. rewrite Hx, Z.eqb_refl, bool_decide_true in Hcc by done. done. }
  destruct (svm_loop_safe (E := E) p0 k (md_hdr md) st v2_state_microcode_table (mk_vars None STF_OK None STF_OK md w1)) as ([res v]&->&[Vm Vw Vs _ _]&Vh&Vb).
  - intros Hn. split; [by apply Hk|auto].
  - apply Forall_forall. intros svm Hsvm. apply (proj1 (forallb_forall _ _) table_unprotected_first), list_elem_of_In, Hsvm.
  - split; cbn; try done. intros _. split; [done|]. split; [done|]. by exists p1.
  - done.
  - cbn [fst snd] in *. rewrite bind_Ok. destruct res as [a|svm|].
    + eexists a, _, _. split; [done|]. split; [done|]. split; [done|]. by destruct a.
    + destruct Vb as [Vin Vmatch].
      destruct (start_processor_safe (E := E) p0 no_keys svm st k (v_md v) (v_states v) Vw Vm Vin Vmatch) as (a&w'&->&Hw'&Ha); [|by eexists _, _, _].
      destruct st; [done|]. rewrite Vh. split; [by apply Hk|by apply Hx].
    + eexists _, _, _. split; [done|]. split; [done|]. split; [done|]. repeat case_match; done.
Qed.

(** * Packets *)

Lemma header_members vs : Forall2 member_ok (removelast (sd_fields isakmp_hdr_desc)) vs ->
  exists ic rc np version xchg flags msgid len,
    vs = [FBytes ic; FBytes rc; FNum np; FNum version; FNum xchg; FNum flags; FBytes msgid; FNum len].
Proof.
  intros Hm. cbn [removelast sd_fields isakmp_hdr_desc isa_fields] in Hm.
  repeat match goal with
  | H : Forall2 _ (_ :: _) _ |- _ => apply Forall2_cons_inv_l in H as (?&?&?&?&->)
  | H : Forall2 _ [] _ |- _ => apply Forall2_nil_inv_l in H as ->
  end. unfold member_ok in *. cbn [fd_type] in *. naive_solver.
Qed.

Section packet.
Context (p : packet_in) (Hb : Forall byteZ (pkt_octets p)) (Hl : Z.of_nat (length (pkt_octets p)) < 2 ^ 16).
Context (Ha : 0 <= pkt_addr p < 2 ^ 62) (Hr : 0 <= pkt_raw p < 2 ^ 62).

Lemma unpack_header_safe :
  match unpack_header p with
  | Abort => False
  | Ugh _ => True
  | Ok md => exists p0 p1, md_ok p0 md /\ md_digest md = [] /\ ps_pbs (md_ps md) !! 1%nat = Some p1 /\
      wf_pbs (ps_mem (md_ps md)) p1 /\ start p0 <= cur p1 /\ roof p1 <= roof p0
  end.
Proof.
  unfold unpack_header. set (q := init_pbs (pkt_addr p) (Z.of_nat (length (pkt_octets p))) "packet").
  assert (wf_pbs (ps_mem (packet_streams p)) q) as Hq.
  { split; cbn; [lia|]. split; [lia|]. apply buffer_mapped. }
  assert (mem_ok (ps_mem (packet_streams p))) as Hm by by apply buffer_ok.
  pose proof (in_struct_inv isakmp_hdr_desc 0 (Some 1%nat) (packet_streams p) q ltac:(by_decide) ltac:(apply lookup_singleton_eq) Hq Hm ltac:(done)) as Hi.
  destruct (in_struct isakmp_hdr_desc 0 (Some 1%nat) (packet_streams p)) as [[vs ps]| |] eqn:Hs; cbn; [|done|done].
  destruct Hi as (e&He&Hmem&Hpbs). apply in_struct_members in Hs; [|done|by_decide].
  apply header_members in Hs as (ic&rc&np&version&xchg&flags&msgid&len&->).
  change (sd_size isakmp_hdr_desc) with 28 in *. destruct Hq as (Q1&Q2&Q3). cbn [cur roof start q init_pbs] in *.
  eexists (set_cur e q), _. split.
  - split; cbn [md_ps md_digest raw_packet]; rewrite ?Hpbs, ?Hmem; try done; [split; cbn; [lia|split; [lia|done]]|cbn; lia].
  - cbn [md_ps md_digest]. split; [done|]. split; [rewrite Hpbs, lookup_insert_ne, lookup_insert_eq by done; done|].
    rewrite Hmem. split; [|cbn; lia]. split; cbn; [lia|]. split; [lia|]. intros x Hx. apply Q3. lia.
Qed.

(** Every packet is dealt with. *)
Lemma packet_safe no_keys w : world_ok w -> exists a w', process_packet no_keys p w = Ok (a, w') /\ world_ok w' /\
  match a with ToIKEv2 a md => exists p0, action_ok p0 a md w' | _ => True end.
Proof.
  intros Hw. unfold process_packet. pose proof unpack_header_safe as Hu. destruct (unpack_header p) as [md| |]; [|by eexists _, _|done].
  destruct Hu as (p0&p1&Hmd&Hd&Hp1&Hw1&Hlo&Hhi). destruct (_ =? ISAKMP_MAJOR_VERSION); [destruct (_ <? _); by eexists _, _|].
  destruct (_ =? IKEv2_MAJOR_VERSION); [|by eexists _, _].
  destruct (v2_packet_safe (E := diag) p0 p1 no_keys md w Hw Hmd Hd Hp1 Hw1 Hlo Hhi) as (a&md'&w'&->&Hw'&Hact). rewrite bind_Ok. eexists _, _. eauto.
Qed.
End packet.

(** * Examples *)

Lemma mask_octets text : Forall byteZ text -> Forall byteZ (mask text).
Proof.
  intros Ht. unfold mask. apply Forall_fmap. eapply Forall_impl; [exact Ht|]. intros b Hb.
  pose proof (byte_forall (fun b => bool_decide (byteZ (Z.lxor 90 b))) ltac:(by vm_compute) b Hb) as Hr. by apply bool_decide_eq_true in Hr.
Qed.

Lemma mask_cbc_octets : octet_cipher mask_cbc.
Proof.
  split; cbn; intros; [by apply mask_octets|]. split; [apply length_fmap|]. split; [done|]. split; [by apply mask_octets|done].
Qed.

(** An IKE SA that is up, the only object. *)
Definition example_ike_sa : state :=
  mk_state 1 0 [1; 2; 3; 4; 5; 6; 7; 8] [8; 7; 6; 5; 4; 3; 2; 1] STATE_PARENT_R2 (example_state sum_sha2_256 ORIGINAL_RESPONDER true)
    [0; 0; 0; 0] (mk_msgids 0 1 1 0) false false false nowhere false blank_proto blank_proto false (Some EVENT_SA_REPLACE) [] 0 1.

Lemma example_ike_sa_ok : state_ok example_ike_sa.
Proof.
  split; [|split; cbn; [split; [constructor|by exists 0]|constructor]|done].
  intros _ _. split; [apply example_suite_ok, sum_prf_ok; by vm_compute|apply mask_cbc_octets].
Qed.

Definition lonely_states : states := mk_states {[ 1 := example_ike_sa ]} (replicate 32 []) (replicate 32 []) 2.

Lemma example_world : exists w, world_ok w /\ table_map w !! 1 = Some example_ike_sa /\
  find_state_ikev2_parent (E := diag) [1; 2; 3; 4; 5; 6; 7; 8] [8; 7; 6; 5; 4; 3; 2; 1] w = Ok (Some 1).
Proof.
  assert (concat (statetable lonely_states) = []) as He by reflexivity.
  assert (table_ok lonely_states) as Ht.
  { split; [apply empty_chains..|done|]. intros sn st. cbn [heap lonely_states]. intros [<- <-]%lookup_singleton_Some. cbn. unfold SOS_FIRST. lia. }
  destruct (insert_state_ok (E := diag) lonely_states 1 example_ike_sa Ht) as (w&_&Hok&Hm&_); [done|rewrite He; apply not_elem_of_nil|].
  assert (table_map lonely_states = ∅) as Hempty.
  { apply map_eq. intros j. rewrite table_map_at, decide_False, lookup_empty; [done|]. rewrite He. apply not_elem_of_nil. }
  rewrite Hempty in Hm. change (ensured example_ike_sa) with example_ike_sa in Hm. change (<[1 := example_ike_sa]> ∅) with ({[1 := example_ike_sa]} : gmap Z state) in Hm.
  exists w. rewrite Hm. split; [|split; [by rewrite lookup_singleton_eq|]].
  - assert (table_map w !! 1 = Some example_ike_sa) as [H1 _]%table_map_lookup by (by rewrite Hm, lookup_singleton_eq).
    apply (table_heap _ Hok) in H1 as [_ H1]. unfold SOS_FIRST in H1. split; [done|lia| |]; rewrite Hm; intros sn st [<- <-]%lookup_singleton_Some; [apply example_ike_sa_ok|done].
  - destruct (find_parent_ok (E := diag) w [1; 2; 3; 4; 5; 6; 7; 8] [8; 7; 6; 5; 4; 3; 2; 1] Hok) as ([sn|]&Hf&Hr); rewrite Hf, Hm in *.
    + destruct Hr as (s&[<- _]%lookup_singleton_Some&_). done.
    + specialize (Hr 1 example_ike_sa (lookup_singleton_eq _ _)). discriminate Hr.
Qed.
