(* ===== verification/InformationalTheorems.v ===== *)
(** The INFORMATIONAL exchange of [Ikev2Informational]: whatever a message says, it is dealt with
    and touches no object of another IKE SA. *)
From S2P Require Import Prelude EnumNames Constants Packet PacketSpec PacketNest PacketDescs PacketGeneric Stf Ikev2Sk Fragments Ikev2Payloads.
From S2P Require Import FragmentTheorems PayloadTheorems Address States StateTheorems Ikev2Dispatch Ikev2Informational DispatchSafety.

(** * What other SAs notice *)

(** Objects that are not of the family of the IKE SA [sn] with the cookies [ck]. *)
Definition foreign (sn : Z) (ck : list Z * list Z) (s : state) : Prop :=
  (st_icookie s, st_rcookie s) <> ck /\ st_clonedfrom s <> sn.

(** From one table to the next, objects of other families keep everything but their event. *)
Record isolated (sn : Z) (ck : list Z * list Z) (w w' : states) : Prop := {
  isolated_table : table_ok w';
  isolated_objects : forall j s, table_map w !! j = Some s -> foreign sn ck s -> exists e, table_map w' !! j = Some (set_event e s)
}.

Lemma set_event_id s : set_event (st_event s) s = s.
Proof. by destruct s. Qed.

Section family.
Context (sn : Z) (ck : list Z * list Z).

Lemma isolated_refl w : table_ok w -> isolated sn ck w w.
Proof. intros H. split; [done|]. intros j s Hs _. exists (st_event s). by rewrite set_event_id. Qed.

Lemma isolated_trans w1 w2 w3 : isolated sn ck w1 w2 -> isolated sn ck w2 w3 -> isolated sn ck w1 w3.
Proof.
  intros [_ H1] [H2 H3]. split; [done|]. intros j s Hs Hf. destruct (H1 _ _ Hs Hf) as [e He]. destruct (H3 _ _ He Hf) as [e' He']. by exists e'.
Qed.

(** Assignments to an object of the family. *)
Lemma modify_isolated j f w s : table_ok w -> table_map w !! j = Some s -> (st_icookie s, st_rcookie s) = ck -> keeps_identity f ->
  isolated sn ck w (modify j f w).
Proof.
  intros Ht Hj Hck Hf. split; [by apply modify_ok|]. intros i t Hi [Hc _]. rewrite table_map_modify. rewrite lookup_alter_ne by congruence.
  exists (st_event t). by rewrite set_event_id.
Qed.

(** Events of any object. *)
Lemma event_isolated j e w : table_ok w -> isolated sn ck w (event_schedule e j w).
Proof.
  intros Ht. split; [by apply modify_ok|]. intros i t Hi _. unfold event_schedule. rewrite table_map_modify.
  destruct (decide (j = i)) as [->|]; [rewrite lookup_alter_eq, Hi; by eexists|]. rewrite lookup_alter_ne by done. exists (st_event t). by rewrite set_event_id.
Qed.

Lemma delete_isolated {E} j s w : table_ok w -> table_map w !! j = Some s -> (st_icookie s, st_rcookie s) = ck ->
  exists w', delete_state (E := E) j w = Ok w' /\ isolated sn ck w w' /\ table_map w' = delete j (table_map w).
Proof.
  intros Ht Hj Hck. destruct (delete_state_ok (E := E) w j Ht) as (w'&->&Ht'&Hm&_); [by eexists|]. exists w'. split; [done|]. split; [|done].
  split; [done|]. intros i t Hi [Hc _]. rewrite Hm, lookup_delete_ne by congruence. exists (st_event t). by rewrite set_event_id.
Qed.

Lemma family_isolated {E} w st : table_ok w -> table_map w !! sn = Some st -> IS_CHILD_SA st = false -> (st_icookie st, st_rcookie st) = ck ->
  exists w', delete_my_family (E := E) true sn w = Ok w' /\ isolated sn ck w w'.
Proof.
  intros Ht Hst Hc Hck. destruct (delete_my_family_ok (E := E) w true sn st Ht Hst Hc) as (w'&->&Ht'&Hm). exists w'. split; [done|]. split; [done|].
  intros j s Hj [Hne Hcl]. exists (st_event s). rewrite set_event_id, Hm. apply map_lookup_filter_Some. split; [done|]. cbn.
  split; [congruence|]. by intros [? _].
Qed.
End family.

(** One step after the other. *)
Ltac by_steps := repeat first [eassumption | eapply isolated_trans; [eassumption|]].

(** * Delete payloads *)

Lemma delete_shape pd : pd_shape pd -> pd_np pd = ISAKMP_NEXT_v2D ->
  exists a b c protoid spisize nrspi, pd_payload pd = [a; b; c; FNum protoid; FNum spisize; FNum nrspi] /\ 0 <= nrspi.
Proof.
  intros (sd&Hsd&Hm) Hnp. rewrite Hnp in Hsd. vm_compute in Hsd. injection Hsd as <-. cbn [removelast sd_fields] in Hm.
  repeat match goal with
  | H : Forall2 _ (_ :: _) _ |- _ => apply Forall2_cons_inv_l in H as (?&?&?&?&->)
  | H : Forall2 _ [] _ |- _ => apply Forall2_nil_inv_l in H as ->
  | H : member_ok _ _ |- _ => apply member_num in H as (?&->&?); [|done|done]
  end. repeat eexists. lia.
Qed.

(** The protocol of a Delete payload. *)
Definition del_proto (pd : payload_digest) : Z := match pd_payload pd with [_; _; _; FNum protoid; _; _] => protoid | _ => 0 end.

Definition is_ipsec (protoid : Z) : bool := (protoid =? PROTO_IPSEC_AH) || (protoid =? PROTO_IPSEC_ESP).

Definition ipsec_deletes (pds : list payload_digest) : Z := Z.of_nat (length (filter (fun pd => is_ipsec (del_proto pd) = true) pds)).

Lemma ipsec_deletes_cons pd pds : ipsec_deletes (pd :: pds) = (if is_ipsec (del_proto pd) then 1 else 0) + ipsec_deletes pds.
Proof. unfold ipsec_deletes. rewrite filter_cons. destruct (is_ipsec (del_proto pd)); [rewrite decide_True by done; cbn; lia|rewrite decide_False by done; lia]. Qed.

(** A Delete payload whose stream is in memory. *)
Definition delete_pd (ps : pstate) (pd : payload_digest) : Prop :=
  (exists spisize nrspi, (forall E, delete_members (E := E) pd = Ok (del_proto pd, spisize, nrspi)) /\ 0 <= nrspi) /\
  exists q, ps_pbs ps !! pd_pbs pd = Some q /\ wf_pbs (ps_mem ps) q.

Lemma delete_pds p0 md : md_ok p0 md -> Forall (delete_pd (md_ps md)) (chain (md_digest md) ISAKMP_NEXT_v2D).
Proof.
  intros Hmd. apply Forall_forall. intros pd Hpd. unfold chain in Hpd. apply list_elem_of_filter in Hpd as [Hnp Hpd].
  destruct (proj1 (Forall_forall _ _) (md_streams _ _ Hmd) pd Hpd) as [Hsh Hq]. split; [|done].
  destruct (delete_shape pd Hsh) as (a&b&c&protoid&spisize&nrspi&Hp&Hn); [done|]. exists spisize, nrspi.
  unfold delete_members, del_proto. rewrite Hp. done.
Qed.

Section pass1.
Context {E : Type} (responding : bool) (ps : pstate).

(** Pass 1 counts the payloads for IPsec protocols, and finds the one for the IKE SA. *)
Lemma del_pass1_ok pds del_ike ndp : Forall (delete_pd ps) pds ->
  exists r, del_pass1 (E := E) responding ps pds del_ike ndp = Ok r /\
    match r with
    | inl _ => True
    | inr (d, n) => n = ndp + ipsec_deletes pds /\ (d = true -> del_ike = true \/ responding = true) /\
        (d = false -> del_ike = false /\ Forall (fun pd => del_proto pd <> PROTO_ISAKMP) pds)
    end.
Proof.
  intros Hpds. revert del_ike ndp. induction Hpds as [|pd pds [(spisize&nrspi&Hm&_) (q&Hq&_)] _ IH]; intros del_ike ndp.
  { eexists. split; [done|]. split; [unfold ipsec_deletes; cbn; lia|]. split; [auto|done]. }
  cbn [del_pass1]. rewrite Hm, bind_Ok. rewrite ipsec_deletes_cons. unfold is_ipsec.
  destruct (Z.eqb_spec (del_proto pd) PROTO_ISAKMP) as [Hp|Hp].
  - destruct responding; cbn [negb]; [|by eexists]. destruct del_ike; [by eexists|]. destruct (_ || _); [by eexists|].
    rewrite Hp. change ((PROTO_ISAKMP =? PROTO_IPSEC_AH) || (PROTO_ISAKMP =? PROTO_IPSEC_ESP)) with false. cbv iota.
    destruct (IH true ndp) as (r&->&Hr). exists r. split; [done|]. destruct r as [|[d n]]; [done|]. destruct Hr as (->&H1&H2).
    split; [lia|]. split; [auto|]. intros Hd. by destruct (H2 Hd).
  - destruct (_ || _).
    + rewrite (get_pbs_at _ _ _ Hq), bind_Ok. destruct (negb _); [by eexists|]. destruct (negb _); [by eexists|].
      destruct (IH del_ike (ndp + 1)) as (r&->&Hr). exists r. split; [done|]. destruct r as [|[d n]]; [done|]. destruct Hr as (->&H1&H2). split; [lia|]. split; [done|].
      intros Hd. destruct (H2 Hd). auto.
    + destruct (IH del_ike ndp) as (r&->&Hr). exists r. split; [done|]. destruct r as [|[d n]]; [done|]. destruct Hr as (->&H1&H2). split; [lia|]. split; [done|].
      intros Hd. destruct (H2 Hd). auto.
Qed.
End pass1.

(** The IKE SA is in the table. *)
Definition holds_sa (sn : Z) (ck : list Z * list Z) (w : states) : Prop :=
  table_ok w /\ exists st, table_map w !! sn = Some st /\ IS_CHILD_SA st = false /\ (st_icookie st, st_rcookie st) = ck.

Lemma in_raw_delete_pd len i name ps : (exists q, ps_pbs ps !! i = Some q /\ wf_pbs (ps_mem ps) q) -> 0 <= len ->
  match in_raw len i name ps with
  | Abort => False
  | Ugh _ => True
  | Ok (_, ps1) => (exists q, ps_pbs ps1 !! i = Some q /\ wf_pbs (ps_mem ps1) q) /\ forall pds, Forall (delete_pd ps) pds -> Forall (delete_pd ps1) pds
  end.
Proof.
  intros (q&Hq&Hw) Hlen. unfold in_raw. rewrite (get_pbs_at _ _ _ Hq), bind_Ok, (wf_pbs_left _ _ Hw). destruct (Z.ltb_spec (roof q - cur q) len); [done|].
  destruct Hw as (W1&W2&W3). destruct (load_bytes_mapped (ps_mem ps) (cur q) (Z.to_nat len)) as [bs ->]; [intros x Hx; apply W3; lia|]. run_ok.
  assert (wf_pbs (ps_mem ps) (set_cur (cur q + len) q)) as Hw' by (split; cbn; [lia|split; [lia|done]]).
  split; [exists (set_cur (cur q + len) q); cbn; by rewrite lookup_insert_eq|].
  intros l Hl. eapply Forall_impl; [exact Hl|]. intros pd [Hm (q'&Hq'&Hwq)]. split; [done|]. cbn.
  destruct (decide (i = pd_pbs pd)) as [->|]; [rewrite lookup_insert_eq; by eexists|]. rewrite lookup_insert_ne by done. eauto.
Qed.

Section pass2.
Context {E : Type} (responding : bool) (sn : Z) (icookie rcookie : list Z).
#[local] Abbreviation ck := (icookie, rcookie).

Lemma holds_sa_isolated w w' : holds_sa sn ck w -> isolated sn ck w w' -> table_map w' !! sn = table_map w !! sn -> holds_sa sn ck w'.
Proof. intros (_&Hs) [Ht _] He. split; [done|]. by rewrite He. Qed.

(** A child of the SA is deleted, or its event is moved. *)
Lemma delete_or_replace_ok d s w : holds_sa sn ck w -> table_map w !! d = Some s -> (st_icookie s, st_rcookie s) = ck -> d <> sn ->
  exists w', delete_or_replace_state (E := E) d w = Ok w' /\ isolated sn ck w w' /\ holds_sa sn ck w'.
Proof.
  intros Hsa Hd Hck Hne. pose proof Hsa as [Ht _]. unfold delete_or_replace_state. rewrite (table_get _ _ _ Hd), bind_Ok.
  destruct (delete_isolated sn ck (E := E) d s w Ht Hd Hck) as (w'&Hdel&Hiso&Hm).
  assert (exists w', delete_state (E := E) d w = Ok w' /\ isolated sn ck w w' /\ holds_sa sn ck w') as Hdelete.
  { exists w'. split; [done|]. split; [done|]. eapply holds_sa_isolated; [done|done|]. by rewrite Hm, lookup_delete_ne by done. }
  assert (forall e, isolated sn ck w (event_schedule e d w) /\ holds_sa sn ck (event_schedule e d w)) as Hevent.
  { intros e. pose proof (event_isolated sn ck d e w Ht) as Hi. split; [done|]. eapply holds_sa_isolated; [done|done|].
    unfold event_schedule. by rewrite table_map_modify, lookup_alter_ne by done. }
  destruct (st_event s) as [e|]; [|done]. destruct (bool_decide _); [by eexists|]. destruct (_ && _ && _); [by eexists|done].
Qed.

Lemma delete_spis_ok n protoid pbs spi_buf ps w : is_ipsec protoid = true -> holds_sa sn ck w ->
  (exists q, ps_pbs ps !! pbs = Some q /\ wf_pbs (ps_mem ps) q) ->
  exists r ps' w', delete_spis (E := E) n responding icookie rcookie sn protoid pbs spi_buf ps w = Ok (r, ps', w') /\
    isolated sn ck w w' /\ holds_sa sn ck w' /\ forall pds, Forall (delete_pd ps) pds -> Forall (delete_pd ps') pds.
Proof.
  intros Hp. revert spi_buf ps w. induction n as [|n IH]; intros spi_buf ps w Hsa Hq; cbn [delete_spis].
  { eexists _, _, _. split; [done|]. split; [apply isolated_refl, Hsa|done]. }
  pose proof (in_raw_delete_pd 4 pbs "SPI" ps Hq ltac:(lia)) as Hr. destruct (in_raw 4 pbs "SPI" ps) as [[spi ps1]| |]; [| |done].
  2:{ eexists _, _, _. split; [done|]. split; [apply isolated_refl, Hsa|done]. }
  destruct Hr as [Hq1 Hpd]. pose proof Hsa as [Ht (st&Hst&Hc&Hck)].
  assert (protoid = PROTO_IPSEC_AH \/ protoid = PROTO_IPSEC_ESP) as Hp' by (unfold is_ipsec in Hp; rewrite orb_true_iff, !Z.eqb_eq in Hp; done).
  destruct (find_child_to_delete_ok (E := E) w icookie rcookie protoid spi Ht Hp') as (r&->&Hfound). rewrite bind_Ok. destruct r as [d|].
  - destruct Hfound as (s&Hs&Hspi). unfold has_spi in Hspi. rewrite !andb_true_iff, !bool_decide_eq_true in Hspi. destruct Hspi as [[[[Hsi Hsr] _] Hch] _].
    assert (d <> sn) as Hne by (intros ->; congruence). assert ((d =? sn) = false) as -> by by apply Z.eqb_neq. cbn [negb]. run_ok.
    assert (table_map (modify d set_no_del w) !! d = Some (set_no_del s)) as Hs1 by (by rewrite table_map_modify, lookup_alter_eq, Hs).
    rewrite (table_get _ _ _ Hs1), bind_Ok.
    pose proof (modify_isolated sn ck d set_no_del w s Ht Hs ltac:(by rewrite Hsi, Hsr) ltac:(done)) as Hi1.
    assert (holds_sa sn ck (modify d set_no_del w)) as Hsa1 by (eapply holds_sa_isolated; [done|done|]; by rewrite table_map_modify, lookup_alter_ne).
    destruct (delete_or_replace_ok d (set_no_del s) _ Hsa1 Hs1 ltac:(cbn; by rewrite Hsi, Hsr) Hne) as (w2&->&Hi2&Hsa2). rewrite bind_Ok.
    edestruct IH as (r&ps'&w'&->&Hi3&Hsa3&Hpd3); [exact Hsa2|exact Hq1|]. eexists _, _, _. split; [done|]. split; [|split; [done|auto]].
    by_steps.
  - edestruct IH as (r&ps'&w'&->&Hi3&Hsa3&Hpd3); [exact Hsa|exact Hq1|]. eexists _, _, _. split; [done|]. split; [done|]. split; [done|auto].
Qed.

Lemma del_pass2_ok pds : forall ndp pli out ps w, Forall (fun pd => del_proto pd <> PROTO_ISAKMP) pds -> Forall (delete_pd ps) pds ->
  holds_sa sn ck w -> pli + ipsec_deletes pds <= ndp ->
  exists r ps' w', del_pass2 (E := E) responding icookie rcookie sn ndp pli pds out ps w = Ok (r, ps', w') /\ isolated sn ck w w' /\ holds_sa sn ck w'.
Proof.
  induction pds as [|pd pds IH]; intros ndp pli out ps w Hno Hpds Hsa Hn; cbn [del_pass2].
  { eexists _, _, _. split; [done|]. split; [apply isolated_refl, Hsa|done]. }
  apply Forall_cons in Hno as [Hp Hno]. apply Forall_cons in Hpds as [[(spisize&nrspi&Hm&_) Hq] Hpds]. rewrite Hm, bind_Ok.
  assert ((del_proto pd =? PROTO_ISAKMP) = false) as -> by by apply Z.eqb_neq. rewrite ipsec_deletes_cons in Hn. fold (is_ipsec (del_proto pd)).
  destruct (is_ipsec (del_proto pd)) eqn:Hip; [|apply IH; try done; lia].
  assert (0 <= ipsec_deletes pds) as Hpos by (unfold ipsec_deletes; lia).
  destruct (delete_spis_ok (Z.to_nat nrspi) (del_proto pd) (pd_pbs pd) [] ps w Hip Hsa Hq) as (r&ps1&w1&->&Hi1&Hsa1&Hpd1). rewrite bind_Ok.
  destruct r as [spis|]; [|by eexists _, _, _]. destruct responding.
  - assert ((pli <? ndp) = true) as -> by (apply Z.ltb_lt; lia). run_ok.
    edestruct (IH ndp (pli + 1)) as (r&ps'&w'&->&Hi2&Hsa2); [done|by apply Hpd1|exact Hsa1|lia|]. eexists _, _, _. split; [done|]. split; [by_steps|done].
  - edestruct (IH ndp pli) as (r&ps'&w'&->&Hi2&Hsa2); [done|by apply Hpd1|exact Hsa1|lia|]. eexists _, _, _. split; [done|]. split; [by_steps|done].
Qed.
End pass2.

(** * The handler *)

Section handler.
Context {E : Type} (sn : Z) (ck : list Z * list Z).

(** Assignments to the IKE SA itself. *)
Lemma modify_sa f w : holds_sa sn ck w -> keeps_identity f -> (forall s, st_clonedfrom (f s) = st_clonedfrom s) ->
  isolated sn ck w (modify sn f w) /\ holds_sa sn ck (modify sn f w).
Proof.
  intros [Ht (st&Hst&Hc&Hck)] Hid Hcl. pose proof (modify_isolated sn ck sn f w st Ht Hst Hck Hid) as Hi. split; [done|]. split; [apply Hi|].
  exists (f st). rewrite table_map_modify, lookup_alter_eq, Hst. split; [done|]. unfold IS_CHILD_SA in *. rewrite Hcl. split; [done|].
  destruct (Hid st) as (_&->&->). done.
Qed.

Lemma counters_isolated md w : holds_sa sn ck w ->
  exists w', ikev2_update_msgid_counters (E := E) md (Some sn) w = Ok w' /\ isolated sn ck w w'.
Proof.
  intros Hsa. pose proof Hsa as [Ht (st&Hst&Hc&Hck)]. unfold ikev2_update_msgid_counters, parent_of.
  rewrite (table_get _ _ _ Hst), bind_Ok, bind_Ok, Hc, bind_Ok. run_ok. set (f := fun i => set_msgids _ i).
  destruct (modify_sa f w Hsa) as [Hi1 Hsa1]; [done|done|]. pose proof Hsa1 as [Ht1 (st1&Hst1&_)].
  rewrite (table_get _ _ _ Hst1), bind_Ok. destruct (_ <? _); [|by eexists]. unfold sechdule_next_send. rewrite (table_get _ _ _ Hst1), bind_Ok.
  destruct (send_next_ix st1) as [|p rest]; [by eexists|]. rewrite state_with_serialno_ok, bind_Ok by done.
  eexists. split; [done|]. case_decide; [|eapply isolated_trans; [exact Hi1|]; by apply modify_sa].
  pose proof (event_isolated sn ck p EVENT_v2_SEND_NEXT_IKE _ Ht1) as Hi2.
  assert (holds_sa sn ck (event_schedule EVENT_v2_SEND_NEXT_IKE p (modify sn f w))) as Hsa2.
  { split; [apply Hi2|]. unfold event_schedule. rewrite table_map_modify. destruct Hsa1 as [_ (s&Hs&Hsc&Hsck)].
    destruct (decide (p = sn)) as [->|]; [rewrite lookup_alter_eq, Hs|rewrite lookup_alter_ne, Hs by done]; by eexists. }
  eapply isolated_trans; [exact Hi1|]. eapply isolated_trans; [exact Hi2|]. by apply modify_sa.
Qed.

(** The reply is recorded, and the family goes if it was asked to. *)
Lemma send_reply_ok octets md del_ike r w : (forall r, octets r <> []) -> holds_sa sn ck w ->
  exists st' w', send_reply (E := E) octets md del_ike r sn w = Ok (st', w') /\ isolated sn ck w w' /\
    match st' with Some n => n = sn /\ holds_sa sn ck w' | None => True end.
Proof.
  intros Ho Hsa. pose proof Hsa as [Ht (st&Hst&Hc&Hck)]. unfold send_reply. rewrite (table_get _ _ _ Hst), bind_Ok. unfold record_outbound_ike_msg.
  assert (negb (Z.of_nat (length (octets r)) =? 0) = true) as ->.
  { apply negb_true_iff, Z.eqb_neq. specialize (Ho r). destruct (octets r); [done|cbn; lia]. }
  run_ok. destruct (release_fragments_frags (E := E) (st_frag st)) as (f&->&_). rewrite !bind_Ok.
  set (h := fun s => set_lastreplied _ _). destruct (modify_sa h w Hsa) as [Hi1 Hsa1]; [done|done|]. destruct del_ike; [|by eexists _, _].
  pose proof Hsa1 as [Ht1 (st1&Hst1&Hc1&Hck1)].
  destruct (family_isolated sn ck (E := E) _ _ Ht1 Hst1 Hc1 Hck1) as (w'&->&Hi2). rewrite bind_Ok. eexists _, _. split; [done|]. split; [by_steps|done].
Qed.

Lemma informational_body_ok octets p0 md del_ike ndp w : (forall r, octets r <> []) -> md_ok p0 md -> holds_sa sn ck w ->
  (del_ike = true -> is_msg_request md = true) ->
  (del_ike = false -> ipsec_deletes (chain (md_digest md) ISAKMP_NEXT_v2D) <= ndp /\
     Forall (fun pd => del_proto pd <> PROTO_ISAKMP) (chain (md_digest md) ISAKMP_NEXT_v2D)) ->
  exists status r w', informational_body (E := E) octets md del_ike ndp sn w = Ok (status, r, w') /\ isolated sn ck w w'.
Proof.
  intros Ho Hmd Hsa Hdel Hnodel. unfold informational_body. set (w1 := if is_msg_request md then _ else w).
  assert (isolated sn ck w w1 /\ holds_sa sn ck w1) as [Hi1 Hsa1].
  { unfold w1. destruct (is_msg_request md); [by apply modify_sa|]. split; [apply isolated_refl, Hsa|done]. }
  pose proof Hsa1 as [Ht1 (st&Hst&Hc&Hck)]. rewrite (table_get _ _ _ Hst), bind_Ok. destruct (negb _ && bool_decide _).
  { destruct (family_isolated sn ck (E := E) w1 st Ht1 Hst Hc Hck) as (w2&->&Hi2). rewrite bind_Ok. cbn [ikev2_update_msgid_counters]. rewrite bind_Ok.
    eexists _, _, _. split; [done|]. by_steps. }
  assert (exists out w2, (if negb (is_msg_request md) && bool_decide (chain (md_digest md) ISAKMP_NEXT_v2D = []) then Ok (Some [], modify sn (set_pend_liveness false) w1)
    else if del_ike then passert (is_msg_request md) ;; Ok (Some [], w1)
    else '(out, _, w2) ← del_pass2 (is_msg_request md) (st_icookie st) (st_rcookie st) sn ndp 0 (chain (md_digest md) ISAKMP_NEXT_v2D) [] (md_ps md) w1; Ok (out, w2))
    = Ok (E := E) (out, w2) /\ isolated sn ck w1 w2 /\ holds_sa sn ck w2) as (out&w2&->&Hi2&Hsa2).
  { destruct (negb _ && _); [eexists _, _; split; [done|]; by apply modify_sa|]. destruct del_ike.
    - rewrite Hdel by done. run_ok. eexists _, _. split; [done|]. split; [by apply isolated_refl|done].
    - destruct (Hnodel eq_refl) as [Hn Hno]. rewrite <- Hck in Hsa1 |- *.
      destruct (del_pass2_ok (E := E) (is_msg_request md) sn (st_icookie st) (st_rcookie st) _ ndp 0 [] (md_ps md) w1 Hno (delete_pds p0 md Hmd) Hsa1 ltac:(lia))
        as (r&ps'&w2&->&Hi2&Hsa2). rewrite bind_Ok. by eexists _, _. }
  rewrite bind_Ok. destruct out as [deletes|]; [|eexists _, _, _; split; [done|]; by_steps]. destruct (is_msg_request md).
  - edestruct (send_reply_ok octets md del_ike) as (st'&w3&->&Hi3&Hst'); [done|exact Hsa2|]. rewrite bind_Ok. destruct st' as [n|].
    + destruct Hst' as [-> Hsa3]. destruct (counters_isolated md w3 Hsa3) as (w4&->&Hi4). rewrite bind_Ok. eexists _, _, _. split; [done|].
      by_steps.
    + cbn [ikev2_update_msgid_counters]. rewrite bind_Ok. eexists _, _, _. split; [done|]. by_steps.
  - destruct (counters_isolated md w2 Hsa2) as (w3&->&Hi3). rewrite bind_Ok. eexists _, _, _. split; [done|]. by_steps.
Qed.
End handler.

(** The handler for an object whose IKE SA is [psn]. *)
Lemma handler_isolated {E} octets p0 md w sn psn pst : (forall r, octets r <> []) -> md_ok p0 md -> table_ok w ->
  parent_of (E := E) sn w = Ok (Some psn) -> table_map w !! psn = Some pst -> IS_CHILD_SA pst = false ->
  exists status r w', process_informational (E := E) octets md sn w = Ok (status, r, w') /\ isolated psn (st_icookie pst, st_rcookie pst) w w'.
Proof.
  intros Ho Hmd Ht Hpar Hp Hpc. unfold process_informational. rewrite Hpar, bind_Ok. set (ck := (st_icookie pst, st_rcookie pst)).
  assert (holds_sa psn ck w) as Hsa by (split; [done|]; by exists pst).
  destruct (modify_sa psn ck (fun s => if nated_host s then s else update_ike_endpoints (md_ends md) (md_ike_float md) s) w Hsa) as [Hi1 Hsa1].
  { intros s. unfold update_ike_endpoints. by case_match. }
  { intros s. unfold update_ike_endpoints. by case_match. }
  fold (update_endpoints md psn w) in Hi1, Hsa1.
  destruct (del_pass1_ok (E := E) (is_msg_request md) (md_ps md) (chain (md_digest md) ISAKMP_NEXT_v2D) false 0 (delete_pds p0 md Hmd)) as (r&->&Hr). rewrite bind_Ok.
  destruct r as [status|[del_ike ndp]]; [by eexists _, _, _|]. destruct Hr as (->&Hd&Hn).
  destruct (informational_body_ok (E := E) psn ck octets p0 md del_ike (0 + ipsec_deletes (chain (md_digest md) ISAKMP_NEXT_v2D)) _ Ho Hmd Hsa1) as (status&r&w'&->&Hi2).
  - intros ->. by destruct (Hd eq_refl).
  - intros ->. destruct (Hn eq_refl). split; [lia|done].
  - eexists _, _, _. split; [done|]. by_steps.
Qed.


Lemma informational_entries : forallb (fun svm => implb (bool_decide (processor svm = process_encrypted_informational_ikev2))
  (negb (recv_type svm =? ISAKMP_v2_CREATE_CHILD_SA))) v2_state_microcode_table = true.
Proof. by vm_compute. Qed.


(** The header of an INFORMATIONAL request, alone. *)
Definition bare_request : packet_in :=
  mk_packet_in 4096 [1; 2; 3; 4; 5; 6; 7; 8; 8; 7; 6; 5; 4; 3; 2; 1; 0; 0x20; 37; 8; 0; 0; 0; 9; 0; 0; 0; 28] nowhere true 8192.

Lemma bare_request_ok : exists p0 md, unpack_header bare_request = Ok md /\ md_ok p0 md.
Proof.
  pose proof (unpack_header_safe bare_request ltac:(by_decide) ltac:(by_decide) ltac:(by_decide) ltac:(by_decide)) as H.
  assert (match unpack_header bare_request with Ok _ => true | _ => false end = true) as Hok by by vm_compute.
  destruct (unpack_header bare_request) as [md| |]; [|discriminate Hok..]. destruct H as (p0&p1&Hmd&_). by exists p0, md.
Qed.


