(* ===== verification/DispatchTheorems.v ===== *)
(** Theorems on the IKEv2 receive path: every packet is dealt with and leaves a consistent state
    table, which entry of the table is chosen, old requests do not get anywhere, and a message
    that fails authentication is not stopped. *)
From S2P Require Import Prelude EnumNames Constants Packet PacketSpec PacketObject PacketNest PacketDescs PacketGeneric.
From S2P Require Import PacketTheorems Stf Ikev2Sk Ikev2SkTheorems Fragments FragmentTheorems Ikev2Payloads PayloadTheorems Address.
From S2P Require Import States StateTheorems Ikev2Dispatch Ikev2Informational DispatchSafety.

(** * Replies to a message that could not be decrypted *)

(** The header of an INFORMATIONAL request and an SK payload that ends behind its own header:
    whoever saw a packet of the SA can write these 32 octets. *)
Definition forged_octets (from_initiator : bool) (icookie rcookie msgid : list Z) : list Z :=
  icookie ++ rcookie ++ [46; 0x20; 37; if from_initiator then 8 else 0] ++ msgid ++ [0; 0; 0; 32] ++ [0; 0; 0; 4].

Definition forged (from_initiator : bool) (icookie rcookie msgid : list Z) (ends : endpoints) (ike_float : bool) : packet_in :=
  mk_packet_in 4096 (forged_octets from_initiator icookie rcookie msgid) ends ike_float 8192.

Definition hdr_of (from_initiator : bool) (icookie rcookie msgid : list Z) : isakmp_hdr :=
  mk_hdr icookie rcookie 46 0x20 37 (if from_initiator then 8 else 0) msgid 32.

Lemma forged_header f icookie rcookie msgid ends fl : length icookie = 8%nat -> length rcookie = 8%nat -> length msgid = 4%nat ->
  exists ps, unpack_header (forged f icookie rcookie msgid ends fl) = Ok (mk_md (hdr_of f icookie rcookie msgid) ps [] ends fl 8192) /\
    exists pd ps', ikev2_decode_payloads (E := diag) 1 46 [] ps = Ok (mk_summary STF_OK (P ISAKMP_NEXT_v2SK) 0, [pd], ps') /\
      pd_np pd = ISAKMP_NEXT_v2SK /\
      packet_up_to (E := diag) (mk_md (hdr_of f icookie rcookie msgid) ps' [pd] ends fl 8192) pd = Ok (forged_octets f icookie rcookie msgid, 32).
Proof.
  intros H1 H2 H3.
  do 9 (destruct icookie as [|? icookie]; try discriminate H1).
  do 9 (destruct rcookie as [|? rcookie]; try discriminate H2).
  do 5 (destruct msgid as [|? msgid]; try discriminate H3).
  destruct f; (eexists; split; [vm_compute; reflexivity|]; eexists _, _; split; [vm_compute; reflexivity|]; split; [reflexivity|vm_compute; reflexivity]).
Qed.

(** Nothing can be decrypted where nothing follows the payload header. *)
Lemma short_fails {E} sk role chunk iv : sk_ok sk -> Z.of_nat (length chunk) <= iv ->
  ikev2_verify_and_decrypt_sk_payload (E := E) sk role chunk iv = Ok (chunk, None).
Proof.
  intros Hsk Hl. unfold ikev2_verify_and_decrypt_sk_payload. destruct (st_skeyid_calculated sk) eqn:Hk; cbn [negb]; [|done].
  destruct (Hsk Hk) as [Hs _]. rewrite integ_size_ok, bind_Ok by done. pose proof (icv_bounds sk Hs) as [Hicv _].
  destruct (suite_cipher _ Hs) as [_ Hw _ _ _ _ _ _ _].
  assert ((Z.of_nat (length chunk) <? iv + wire_iv_size (encrypter sk) + 1 + icv_size sk) = true) as -> by (apply Z.ltb_lt; lia). done.
Qed.

(** Entries that do not match are passed over. *)
Lemma loop_skip {E} l1 l2 k st v : forallb (fun svm => negb (svm_matches (v_md v) k svm)) l1 = true ->
  svm_loop (E := E) (l1 ++ l2) k st v = svm_loop l2 k st v.
Proof. induction l1 as [|svm l1 IH]; [done|]. cbn [forallb app svm_loop]. intros [-> H]%andb_true_iff. by apply IH. Qed.

(** The entry for a request to an IKE SA that is up. *)
Definition request_entry (f : bool) (k : state_kind) : nat :=
  ((if bool_decide (k = STATE_PARENT_I3) then 8 else 10) + if f then 0 else 1)%nat.

Definition established (k : state_kind) : Prop := k = STATE_PARENT_I3 \/ k = STATE_PARENT_R2.

Lemma request_entries f k : established k -> exists svm,
  v2_state_microcode_table = take (request_entry f k) v2_state_microcode_table ++ svm :: drop (S (request_entry f k)) v2_state_microcode_table /\
  processor svm = process_encrypted_informational_ikev2 /\ svm_state svm = k /\ req_enc_payloads svm = 0 /\
  req_clear_payloads svm = payload_set [ISAKMP_NEXT_v2SK] /\ opt_clear_payloads svm = 0 /\ Z.land (svm_flags svm) SMF2_SKIP_UNPACK_SK = 0 /\
  forall icookie rcookie msgid ps d ends fl raw,
    let md := mk_md (hdr_of f icookie rcookie msgid) ps d ends fl raw in
    forallb (fun s => negb (svm_matches md k s)) (take (request_entry f k) v2_state_microcode_table) = true /\ svm_matches md k svm = true.
Proof.
  intros [-> | ->]; destruct f; eexists; (split; [vm_compute; reflexivity|]); repeat (split; [reflexivity|]); by vm_compute.
Qed.

(** A message whose clear payloads fit is unpacked, and the entry is taken if the sets of payloads
    found inside fit: the status of decryption is not looked at. *)
Lemma loop_unpacked {E} svm svms k sn v s v1 s2 md2 w2 : svm_matches (v_md v) k svm = true ->
  unpack_clear (E := E) v = Ok (s, v1) -> sum_status s = STF_OK -> encrypted_payload_summary v1 = None -> encrypted_payload_status v1 = STF_OK ->
  err_status (ikev2_verify_payloads s (mk_expected (req_clear_payloads svm) (opt_clear_payloads svm))) = STF_OK ->
  Z.land (req_clear_payloads svm) (P ISAKMP_NEXT_v2SK) <> 0 -> Z.land (sum_seen s) (P ISAKMP_NEXT_v2SKF) = 0 ->
  Z.land (svm_flags svm) SMF2_SKIP_UNPACK_SK = 0 -> ikev2_decrypt_msg (E := E) None sn (v_md v1) (v_states v1) = Ok (s2, md2, w2) ->
  err_status (ikev2_verify_payloads s2 (mk_expected (req_enc_payloads svm) (opt_enc_payloads svm))) = STF_OK ->
  isa_xchg (md_hdr md2) <> ISAKMP_v2_CREATE_CHILD_SA ->
  svm_loop (E := E) (svm :: svms) k (Some sn) v =
    Ok (Break svm, mk_vars (clear_payload_summary v1) (clear_payload_status v1) (Some s2) STF_OK md2 w2).
Proof.
  intros Hm Hc Hs He Hes Hver Hsk Hskf Hskip Hd Hver2 Hx. cbn [svm_loop]. rewrite Hm. cbn [negb]. rewrite Hc, bind_Ok, bool_decide_true by done. cbn [negb].
  rewrite Hver. cbn [bool_decide]. rewrite bool_decide_true by done. cbn [negb].
  assert ((Z.land (req_clear_payloads svm) (P ISAKMP_NEXT_v2SK) =? 0) = false) as -> by by apply Z.eqb_neq. run_ok.
  unfold unpack_encrypted. rewrite He, Hskf. cbn [Z.eqb negb]. rewrite bind_Ok. cbn [negb]. rewrite Hskip. cbn [Z.eqb negb]. rewrite Hd, bind_Ok, Hes.
  rewrite bool_decide_true by done. cbn [negb]. rewrite bind_Ok, Hver2, bool_decide_true by done. cbn [negb v_md].
  assert ((isa_xchg (md_hdr md2) =? ISAKMP_v2_CREATE_CHILD_SA) = false) as -> by by apply Z.eqb_neq. done.
Qed.

Section forgery.
Context (w : states) (sn : Z) (st : state) (Hw : world_ok w) (Hst : table_map w !! sn = Some st).
Context (f : bool) (icookie rcookie msgid : list Z) (ends : endpoints) (fl : bool) (no_keys : sk_state).
Context (Hi : length icookie = 8%nat) (Hr : length rcookie = 8%nat) (Hm : length msgid = 4%nat).
Context (Hb : Forall byteZ (forged_octets f icookie rcookie msgid)).
Context (Hfind : find_state_ikev2_parent (E := diag) icookie rcookie w = Ok (Some sn)).
Context (Hk : established (st_state st)) (Hbusy : state_busy st = false) (Hfresh : lastrecv (st_msgids st) < be_decode msgid).

#[local] Abbreviation packet := (forged f icookie rcookie msgid ends fl).

Lemma forged_length : length (forged_octets f icookie rcookie msgid) = 32%nat.
Proof. unfold forged_octets. by rewrite !length_app, Hi, Hr, Hm. Qed.

(** Decryption fails, and changes nothing but the octets in place. *)
Lemma forged_not_decrypted p0 md pd : md_ok p0 md -> in_packet p0 md -> md_digest md = [pd] -> pd_np pd = ISAKMP_NEXT_v2SK ->
  packet_up_to (E := diag) md pd = Ok (forged_octets f icookie rcookie msgid, 32) ->
  exists m, ikev2_decrypt_msg (E := diag) None sn md w = Ok (mk_summary STF_FAIL 0 0, set_payloads [pd] (mk_ps m (ps_pbs (md_ps md))) md, w).
Proof.
  intros Hmd Hin Hd Hnp Hup. unfold ikev2_decrypt_msg, decrypt_sk.
  destruct (family_sk_safe (E := diag) w Hw sn st Hst) as (sk&->&Hsk). rewrite bind_Ok, Hd.
  assert (chain [pd] ISAKMP_NEXT_v2SKF = [] /\ chain [pd] ISAKMP_NEXT_v2SK = [pd]) as [-> ->].
  { unfold chain. rewrite !filter_cons, Hnp. done. }
  rewrite (get_pbs_at _ _ _ (md_packet _ _ Hmd)), bind_Ok, Hup, bind_Ok, short_fails, bind_Ok by (done || rewrite forged_length; lia).
  destruct (packet_up_to_safe (E := diag) p0 md pd Hmd) as (bs&iv&Hup'&_&_&Hle); [rewrite <- (Forall_singleton _ pd), <- Hd; exact Hin|].
  rewrite Hup in Hup'. injection Hup' as <- <-. destruct (md_packet_wf _ _ Hmd) as (_&_&W).
  destruct (store_bytes_some (ps_mem (md_ps md)) (start p0) (forged_octets f icookie rcookie msgid)) as [m ->]; [intros x Hx; apply W; lia|].
  run_ok. by eexists.
Qed.

(** The object is found, and the message is new. *)
Lemma forged_found ps d : find_v2_state (E := diag) (mk_md (hdr_of f icookie rcookie msgid) ps d ends fl 8192) w = Ok (inr (Some sn), w).
Proof.
  unfold find_v2_state, is_msg_response. cbn [md_hdr hdr_of isa_xchg isa_flags isa_icookie isa_rcookie].
  change (37 =? ISAKMP_v2_SA_INIT) with false.
  assert (negb (negb (Z.land (if f then 8 else 0) ISAKMP_FLAGS_v2_MSG_R =? 0)) = true) as -> by by destruct f.
  rewrite Hfind, bind_Ok, (table_get _ _ _ Hst), bind_Ok. unfold check_request, msgid_received. cbn [md_hdr hdr_of isa_msgid].
  assert ((be_decode msgid <? lastrecv (st_msgids st)) = false) as -> by (apply Z.ltb_ge; lia).
  assert ((lastrecv (st_msgids st) =? be_decode msgid) = false) as -> by (apply Z.eqb_neq; lia). by rewrite andb_false_r.
Qed.

Lemma forged_dispatched : exists md svm md', unpack_header packet = Ok md /\ isa_version (md_hdr md) = 0x20 /\
  process_v2_packet (E := diag) no_keys md w = Ok (Processed svm (Some sn), md', w) /\
  processor svm = process_encrypted_informational_ikev2 /\ md_hdr md' = hdr_of f icookie rcookie msgid /\ md_ends md' = ends /\
  md_ike_float md' = fl /\ chain (md_digest md') ISAKMP_NEXT_v2D = [].
Proof.
  destruct (forged_header f icookie rcookie msgid ends fl Hi Hr Hm) as (ps&Hhdr&pd&ps'&Hdec&Hnp&Hup).
  set (md := mk_md _ ps [] ends fl 8192) in Hhdr. set (md1 := mk_md _ ps' [pd] ends fl 8192) in Hup.
  pose proof (unpack_header_safe packet Hb ltac:(cbn; rewrite forged_length; lia) ltac:(cbn; lia) ltac:(cbn; lia)) as Hsafe. rewrite Hhdr in Hsafe.
  destruct Hsafe as (p0&p1&Hmd&Hd&Hp1&Hw1&Hlo&Hhi).
  set (v := mk_vars None STF_OK None STF_OK md w).
  assert (unpack_clear v = Ok (E := diag) (mk_summary STF_OK (P ISAKMP_NEXT_v2SK) 0,
    mk_vars (Some (mk_summary STF_OK (P ISAKMP_NEXT_v2SK) 0)) STF_OK None STF_OK md1 w)) as Hclear.
  { unfold unpack_clear, v. cbn [clear_payload_summary v_md v_states md md_hdr md_digest md_ps isa_np hdr_of]. by rewrite Hdec, bind_Ok. }
  assert (vars_ok p0 (st_state st) (Some sn) v) as Hv by (split; cbn; [done|done|by exists st|intros _; by eauto 10|done]).
  destruct (unpack_clear_safe (E := diag) p0 (st_state st) (Some sn) v Hv) as (s&v1&Hv1&[K1 _ _ _ K5]&Hs&_). rewrite Hclear in Hv1. injection Hv1 as <- <-.
  destruct (K5 _ eq_refl eq_refl eq_refl) as [Hin _]. cbn [v_md] in K1, Hin.
  destruct (forged_not_decrypted p0 md1 pd K1 Hin eq_refl Hnp Hup) as (m&Hdecr).
  destruct (request_entries f (st_state st) Hk) as (svm&Htab&Hproc&Hsvm&Hreq&Hrc&Hoc&Hskip&Hmatch).
  destruct (Hmatch icookie rcookie msgid ps [] ends fl 8192) as [Hno Hyes].
  exists md, svm, (set_payloads [pd] (mk_ps m (ps_pbs (md_ps md1))) md1). split; [done|]. split; [done|].
  split; [|split; [done|]; split; [reflexivity|]; split; [reflexivity|]; split; [reflexivity|]].
  2:{ cbn [md_digest set_payloads]. unfold chain. rewrite filter_cons, Hnp. done. }
  unfold process_v2_packet, md. rewrite forged_found, bind_Ok, (table_get _ _ _ Hst), !bind_Ok. fold md. cbn [md md_hdr hdr_of isa_xchg].
  rewrite andb_false_r. cbn [andb Z.eqb ISAKMP_v2_CREATE_CHILD_SA Pos.eqb].
  assert (Bool.eqb (bool_decide (Some sn = None)) (bool_decide (st_state st = STATE_UNDEFINED)) = true) as ->.
  { destruct Hk as [-> | ->]; done. }
  run_ok. fold md. fold v. rewrite Htab, loop_skip by done.
  erewrite loop_unpacked; [|exact Hyes|exact Hclear|done|done|done|rewrite Hrc, Hoc; by vm_compute|rewrite Hrc; by vm_compute|done|exact Hskip|exact Hdecr| |done].
  - rewrite bind_Ok. unfold start_processor. cbn [md_hdr set_payloads md1 hdr_of isa_xchg v_md v_states]. 
    change (37 =? ISAKMP_v2_CREATE_CHILD_SA) with false. cbv iota. by rewrite (table_get _ _ _ Hst), bind_Ok, Hbusy.
  - rewrite Hreq. apply verify_payloads_ok. intros n Hn. unfold member, skf_as_sk. cbn [sum_repeated sum_seen required]. rewrite !Z.land_0_l.
    change (0 =? P ISAKMP_NEXT_v2SKF) with false. cbv iota. rewrite !Z.testbit_0_l. done.
Qed.
End forgery.

(** * Counters and replies *)

Section counters.
Context {E : Type} (w : states) (sn : Z) (st : state) (Ht : table_ok w) (Hst : table_map w !! sn = Some st).

(** An object keeps what the queue of pending exchanges does not use. *)
Lemma next_send_keeps : exists w' st', sechdule_next_send (E := E) sn w = Ok w' /\ table_ok w' /\
  table_map w' !! sn = Some st' /\ st_msgids st' = st_msgids st /\ st_ends st' = st_ends st.
Proof.
  unfold sechdule_next_send. rewrite (table_get _ _ _ Hst), bind_Ok.
  destruct (send_next_ix st) as [|p rest]; [by exists w, st|]. rewrite state_with_serialno_ok, bind_Ok by done.
  set (w1 := match _ with Some c => event_schedule _ c w | None => w end).
  assert (table_ok w1 /\ exists s, table_map w1 !! sn = Some s /\ st_msgids s = st_msgids st /\ st_ends s = st_ends st) as [Ht1 (s&Hs&E1&E2)].
  { unfold w1. case_decide; [|by split; [|exists st]]. split; [by apply modify_ok|]. unfold event_schedule. rewrite table_map_modify.
    destruct (decide (p = sn)) as [->|]; [rewrite lookup_alter_eq, Hst; by eexists|rewrite lookup_alter_ne by done; by exists st]. }
  eexists _, _. split; [done|]. split; [by apply modify_ok|]. rewrite table_map_modify, lookup_alter_eq, Hs. done.
Qed.

End counters.

Lemma counters_of_ike_sa {E} md w sn st : table_ok w -> table_map w !! sn = Some st -> IS_CHILD_SA st = false ->
  exists w' st', ikev2_update_msgid_counters (E := E) md (Some sn) w = Ok w' /\ table_ok w' /\ table_map w' !! sn = Some st' /\
    st_msgids st' = count_msgid md (st_state st) (st_msgids st) /\ st_ends st' = st_ends st.
Proof.
  intros Ht Hst Hc. unfold ikev2_update_msgid_counters, parent_of. rewrite (table_get _ _ _ Hst), bind_Ok, bind_Ok, Hc, bind_Ok. run_ok.
  set (f := fun i => set_msgids _ i). assert (table_ok (modify sn f w)) as Ht1 by by apply modify_ok.
  assert (table_map (modify sn f w) !! sn = Some (f st)) as Hs1 by (by rewrite table_map_modify, lookup_alter_eq, Hst).
  rewrite (table_get _ _ _ Hs1), bind_Ok. destruct (_ <? _); [|by eexists _, _].
  destruct (next_send_keeps (E := E) _ _ _ Ht1 Hs1) as (w'&st'&->&Ht'&Hs'&E1&E2). exists w', st'. split; [done|]. split; [done|]. split; [done|]. by rewrite E1, E2.
Qed.

(** An INFORMATIONAL request without payloads is answered with an empty reply. *)
Lemma empty_request_answered {E} octets md w sn st : table_ok w -> table_map w !! sn = Some st -> IS_CHILD_SA st = false ->
  is_msg_request md = true -> chain (md_digest md) ISAKMP_NEXT_v2D = [] -> (forall r, octets r <> []) ->
  exists r w' st', process_informational (E := E) octets md sn w = Ok (STF_OK, Some r, w') /\ rep_deletes r = [] /\ table_ok w' /\
    table_map w' !! sn = Some st' /\ lastrecv (st_msgids st') = lastrecv (count_msgid md (st_state st) (st_msgids st)) /\
    (nated_host st = false -> st_ends st' = md_ends md).
Proof.
  intros Ht Hst Hc Hreq Hd Ho. unfold process_informational, parent_of. rewrite (table_get _ _ _ Hst), bind_Ok, Hc, bind_Ok, Hd. cbn [del_pass1]. rewrite bind_Ok.
  unfold update_endpoints. set (g := fun s => if nated_host s then s else _).
  assert (keeps_identity g) as Hg by (intros s; unfold g, update_ike_endpoints; by case_match).
  assert (table_ok (modify sn g w)) as Ht1 by by apply modify_ok.
  unfold informational_body. rewrite Hreq, Hd. cbn [negb andb]. set (w1 := modify sn (set_pend_liveness false) _).
  assert (table_ok w1) as Ht2 by by apply modify_ok.
  assert (table_map w1 !! sn = Some (set_pend_liveness false (g st))) as Hs2 by (unfold w1; by rewrite !table_map_modify, !lookup_alter_eq, Hst).
  rewrite (table_get _ _ _ Hs2), bind_Ok. cbn [del_pass2]. rewrite bind_Ok, bind_Ok. unfold send_reply. rewrite (table_get _ _ _ Hs2), bind_Ok.
  unfold record_outbound_ike_msg. assert (forall r, negb (Z.of_nat (length (octets r)) =? 0) = true) as Ho'.
  { intros r. apply negb_true_iff, Z.eqb_neq. specialize (Ho r). destruct (octets r); [done|cbn; lia]. }
  rewrite Ho'. run_ok. destruct (release_fragments_frags (E := E) (st_frag (set_pend_liveness false (g st)))) as (f&->&_). rewrite !bind_Ok.
  set (h := fun s => set_lastreplied _ _).
  assert (table_ok (modify sn h w1)) as Ht3 by by apply modify_ok.
  assert (table_map (modify sn h w1) !! sn = Some (h (set_pend_liveness false (g st)))) as Hs3 by (by rewrite table_map_modify, lookup_alter_eq, Hs2).
  destruct (counters_of_ike_sa (E := E) md _ _ _ Ht3 Hs3) as (w'&st'&->&Ht'&Hs'&E1&E2).
  { unfold h, g, update_ike_endpoints. cbn. by case_match. }
  rewrite bind_Ok. eexists _, w', st'. split; [done|]. split; [done|]. split; [done|]. split; [done|]. rewrite E1, E2. split.
  - unfold h, g, update_ike_endpoints, count_msgid. rewrite Hreq. unfold is_msg_request in Hreq. apply negb_true_iff in Hreq. rewrite Hreq. by case_match.
  - intros Hn. unfold h, g, update_ike_endpoints. by rewrite Hn.
Qed.

(** * Old requests *)

(** A search does not see assignments to what it does not look at. *)
Lemma first_entry_modify {E} cond l sn f w : (forall s, cond (f s) = cond s) ->
  first_entry (E := E) cond l (modify sn f w) = first_entry cond l w.
Proof.
  intros Hf. induction l as [|j l IH]; [done|]. cbn [first_entry]. unfold get_state. cbn [modify heap set_heap].
  destruct (decide (sn = j)) as [<-|]; [rewrite lookup_alter_eq|by rewrite lookup_alter_ne, IH by done].
  destruct (heap w !! sn) as [s|]; cbn [fmap option_fmap option_map defined]; [|done]. by rewrite !bind_Ok, Hf, IH.
Qed.

Lemma find_parent_modify {E} icookie rcookie sn f w : keeps_identity f ->
  (forall s, st_clonedfrom (f s) = st_clonedfrom s /\ st_frag (f s) = st_frag s) ->
  find_state_ikev2_parent (E := E) icookie rcookie (modify sn f w) = find_state_ikev2_parent icookie rcookie w.
Proof.
  intros Hid Hf. unfold find_state_ikev2_parent. cbn [statetable modify set_heap]. apply first_entry_modify. intros s.
  destruct (Hid s) as (_&E1&E2), (Hf s) as [E3 E4]. unfold IS_CHILD_SA. by rewrite E1, E2, E3, E4.
Qed.

(** The lookup of an IKE SA is not affected by its counters. *)
Lemma find_parent_counters {E} icookie rcookie md sn w w' : ikev2_update_msgid_counters (E := E) md (Some sn) w = Ok w' ->
  find_state_ikev2_parent (E := E) icookie rcookie w' = find_state_ikev2_parent icookie rcookie w.
Proof.
  intros H. unfold ikev2_update_msgid_counters in H. inv_ok. case_match; [|inv_ok; simplify_eq; by rewrite find_parent_modify].
  unfold sechdule_next_send in *. inv_ok. case_match; inv_ok; simplify_eq; [by rewrite find_parent_modify|].
  rewrite find_parent_modify by done. case_match; [unfold event_schedule|]; by rewrite ?find_parent_modify.
Qed.

(** * Properties *)


(** C23: authentication can be skipped. An INFORMATIONAL request of 32 octets, the header with the
    cookies of an IKE SA and an SK payload with nothing in it, is accepted: decryption fails, but the
    test behind it looks at the wrong variable, and the entry for INFORMATIONAL asks for no payloads
    inside. The request is answered, its message ID becomes the last one received, so that genuine
    requests with smaller ones are dropped, and the address it came from becomes the address of the peer. *)
Theorem forged_informational_accepted octets no_keys w sn st f icookie rcookie msgid ends fl :
  world_ok w -> table_map w !! sn = Some st -> established (st_state st) -> state_busy st = false ->
  find_state_ikev2_parent (E := diag) icookie rcookie w = Ok (Some sn) ->
  length icookie = 8%nat -> length rcookie = 8%nat -> length msgid = 4%nat ->
  Forall byteZ (icookie ++ rcookie ++ msgid) -> lastrecv (st_msgids st) < be_decode msgid -> (forall r, octets r <> []) ->
  exists r w' st', receive_packet octets no_keys (forged f icookie rcookie msgid ends fl) w = Ok (Answered STF_OK (Some r), w') /\
    rep_deletes r = [] /\ table_map w' !! sn = Some st' /\ lastrecv (st_msgids st') = be_decode msgid /\
    (nated_host st = false -> st_ends st' = ends).
Proof.
  intros Hw Hst Hk Hbusy Hfind Hi Hr Hm Hb Hfresh Ho.
  assert (Forall byteZ (forged_octets f icookie rcookie msgid)) as Hb'.
  { apply Forall_app in Hb as [B1 [B2 B3]%Forall_app]. unfold forged_octets. rewrite !Forall_app. split_and!; try done; destruct f; repeat constructor; done. }
  destruct (forged_dispatched w sn st Hw Hst f icookie rcookie msgid ends fl no_keys Hi Hr Hm Hb' Hfind Hk Hbusy Hfresh)
    as (md&svm&md'&Hu&Hv&Hp&Hproc&Hhdr&Hends&_&Hd).
  assert (IS_CHILD_SA st = false) as Hc.
  { destruct (find_parent_ok (E := diag) w icookie rcookie (world_table _ Hw)) as (r&Hr'&Hfound). rewrite Hfind in Hr'. injection Hr' as <-.
    destruct Hfound as (s&Hs&Hpar). rewrite Hst in Hs. injection Hs as <-. by apply andb_true_iff in Hpar as [_ Hpar%negb_true_iff]. }
  assert (is_msg_request md' = true) as Hreq by (unfold is_msg_request, is_msg_response; rewrite Hhdr; by destruct f).
  destruct (empty_request_answered (E := diag) octets md' w sn st (world_table _ Hw) Hst Hc Hreq Hd Ho) as (r&w'&st'&Hi'&Hdel&_&Hs'&Hrecv&He).
  exists r, w', st'. split; [|split; [done|]; split; [done|]; split; [|by rewrite <- Hends]].
  - unfold receive_packet, process_packet. rewrite Hu, Hv. cbn [Z.eqb Z.shiftr Z.land]. change (Z.shiftr 0x20 ISA_MAJ_SHIFT =? ISAKMP_MAJOR_VERSION) with false.
    change (Z.shiftr 0x20 ISA_MAJ_SHIFT =? IKEv2_MAJOR_VERSION) with true. cbv iota. rewrite Hp, !bind_Ok, Hproc, bool_decide_true, Hi', bind_Ok by done. done.
  - rewrite Hrecv. unfold count_msgid. unfold is_msg_request in Hreq. apply negb_true_iff in Hreq. rewrite Hreq. cbn [lastrecv].
    assert (msgid_received md' = be_decode msgid) as -> by (unfold msgid_received; by rewrite Hhdr).
    assert ((lastrecv (st_msgids st) <? be_decode msgid) = true) as -> by by apply Z.ltb_lt.
    destruct ((be_decode msgid =? v2_INITIAL_MSGID) && _) eqn:Hz; [|done]. apply andb_true_iff in Hz as [Hz%Z.eqb_eq _]. by rewrite Hz.
Qed.

Lemma old_request_stopped {E} no_keys md w sn st : table_map w !! sn = Some st ->
  find_state_ikev2_parent (E := E) (isa_icookie (md_hdr md)) (isa_rcookie (md_hdr md)) w = Ok (Some sn) ->
  isa_xchg (md_hdr md) <> ISAKMP_v2_SA_INIT -> is_msg_request md = true ->
  lastrecv (st_msgids st) <> v2_INVALID_MSGID -> msgid_received md <= lastrecv (st_msgids st) ->
  exists a, process_v2_packet (E := E) no_keys md w = Ok (a, md, w) /\ (a = Dropped \/ a = Retransmitted sn).
Proof.
  intros Hst Hfind Hx Hreq Hinv Hle. unfold process_v2_packet, find_v2_state.
  assert ((isa_xchg (md_hdr md) =? ISAKMP_v2_SA_INIT) = false) as -> by by apply Z.eqb_neq. unfold is_msg_request in Hreq. rewrite Hreq, Hfind, bind_Ok, (table_get _ _ _ Hst), bind_Ok, bind_Ok.
  unfold check_request. assert ((lastrecv (st_msgids st) =? v2_INVALID_MSGID) = false) as -> by by apply Z.eqb_neq. cbn [negb andb].
  destruct (Z.ltb_spec (msgid_received md) (lastrecv (st_msgids st))); [by eexists; eauto|].
  assert ((lastrecv (st_msgids st) =? msgid_received md) = true) as -> by (apply Z.eqb_eq; lia).
  eexists. split; [done|]. unfold proces_recent_rtransmit. repeat case_match; auto.
Qed.

(** C14: an IKE SA processes a request once. After [ikev2_update_msgid_counters] has counted a request,
    every request to the SA with this or a smaller message ID is dropped, or answered with the packet
    that was recorded, and changes no state. The counter must not stand at its initial value, or the
    request must be the first one; the largest message ID is that value and cannot be counted. *)
Theorem replayed_request_refused {E} no_keys md w sn st w' :
  table_ok w -> table_map w !! sn = Some st -> IS_CHILD_SA st = false ->
  is_msg_request md = true -> 0 <= msgid_received md < v2_INVALID_MSGID ->
  (0 <= lastrecv (st_msgids st) < v2_INVALID_MSGID \/ lastrecv (st_msgids st) = v2_INVALID_MSGID /\ msgid_received md = v2_INITIAL_MSGID) ->
  ikev2_update_msgid_counters (E := E) md (Some sn) w = Ok w' ->
  forall md2, find_state_ikev2_parent (E := E) (isa_icookie (md_hdr md2)) (isa_rcookie (md_hdr md2)) w = Ok (Some sn) ->
    isa_xchg (md_hdr md2) <> ISAKMP_v2_SA_INIT -> is_msg_request md2 = true -> msgid_received md2 <= msgid_received md ->
    exists a, process_v2_packet (E := E) no_keys md2 w' = Ok (a, md2, w') /\ (a = Dropped \/ a = Retransmitted sn).
Proof.
  intros Ht Hst Hc Hreq Hid Hl Hup md2 Hfind Hx Hreq2 Hle.
  destruct (counters_of_ike_sa (E := E) md w sn st Ht Hst Hc) as (w1&st1&Hup1&Ht1&Hst1&Hids&_). rewrite Hup in Hup1. injection Hup1 as <-.
  assert (lastrecv (st_msgids st1) <> v2_INVALID_MSGID /\ msgid_received md <= lastrecv (st_msgids st1)) as [H1 H2].
  { rewrite Hids. unfold count_msgid. unfold is_msg_request in Hreq. apply negb_true_iff in Hreq. rewrite Hreq. cbn [lastrecv].
    unfold v2_INVALID_MSGID, v2_INITIAL_MSGID in *. destruct (Z.ltb_spec (lastrecv (st_msgids st)) (msgid_received md)); [|];
      destruct (Z.eqb_spec (msgid_received md) 0); cbn [andb]; try (case_match eqn:Hz; [|apply Z.eqb_neq in Hz]); lia. }
  apply (old_request_stopped no_keys md2 w' sn st1); [done|by rewrite (find_parent_counters _ _ _ _ _ _ Hup)|done|done|done|lia].
Qed.

(** ** Examples *)

#[local] Abbreviation example_icookie := [1; 2; 3; 4; 5; 6; 7; 8].
#[local] Abbreviation example_rcookie := [8; 7; 6; 5; 4; 3; 2; 1].
Definition attacker : endpoints := mk_ends (mk_ip AF_INET 0 [10; 6; 6; 6]) 4500 (mk_ip AF_INET 0 [0; 0; 0; 0]) 500.


Lemma forged_informational_accepted_witness : exists w r w' st', world_ok w /\
  receive_packet (fun _ => [0]) blank_sk (forged true example_icookie example_rcookie [0; 0; 0; 9] attacker true) w = Ok (Answered STF_OK (Some r), w') /\
  table_map w' !! 1 = Some st' /\ lastrecv (st_msgids st') = 9 /\ st_ends st' = attacker.
Proof.
  destruct example_world as (w&Hw&Hst&Hfind).
  destruct (forged_informational_accepted (fun _ => [0]) blank_sk w 1 example_ike_sa true example_icookie example_rcookie [0; 0; 0; 9] attacker true Hw Hst
    (or_intror eq_refl) eq_refl Hfind eq_refl eq_refl eq_refl ltac:(by_decide) ltac:(by_decide) ltac:(discriminate)) as (r&w'&st'&H1&_&H2&H3&H4).
  exists w, r, w', st'. exact (conj Hw (conj H1 (conj H2 (conj H3 (H4 eq_refl))))).
Defined.

(** A request to the SA, without its payloads. *)
Definition example_request (msgid : list Z) : msg_digest :=
  mk_md (mk_hdr example_icookie example_rcookie 46 0x20 37 8 msgid 0) (mk_ps ∅ ∅) [] nowhere true 8192.

Lemma replayed_request_refused_witness : exists w w' a, ikev2_update_msgid_counters (E := diag) (example_request [0; 0; 0; 9]) (Some 1) w = Ok w' /\
  process_v2_packet (E := diag) blank_sk (example_request [0; 0; 0; 2]) w' = Ok (a, example_request [0; 0; 0; 2], w') /\ (a = Dropped \/ a = Retransmitted 1).
Proof.
  destruct example_world as (w&Hw&Hst&Hfind).
  destruct (counters_of_ike_sa (E := diag) (example_request [0; 0; 0; 9]) w 1 example_ike_sa (world_table _ Hw) Hst eq_refl) as (w'&_&Hup&_).
  destruct (replayed_request_refused (E := diag) blank_sk (example_request [0; 0; 0; 9]) w 1 example_ike_sa w' (world_table _ Hw) Hst eq_refl eq_refl
    ltac:(by_decide) ltac:(left; by_decide) Hup (example_request [0; 0; 0; 2]) Hfind ltac:(by_decide) eq_refl ltac:(by_decide)) as (a&H1&H2).
  exists w, w', a. exact (conj Hup (conj H1 H2)).
Defined.
